(* ===== verification/_CoqProject ===== *)
-Q . S2P
Prelude.v
Net.v
RateLimit.v
Float.v
Core.v
Flow.v
Executor.v
ManagerState.v
RtbhController.v
RtbhManager.v
FlowSpecController.v
FlowSpecManager.v
XdpControl.v
XdpManager.v
XdpMirror.v
Bytes.v
BgpMessage.v
BgpUpdate.v
BgpFlowSpec.v
BgpSession.v
BgpSessionSpec.v
Detector.v
Select.v
Sflow.v
Cookie.v
Packet.v
RefHeaders.v
Nfqueue.v
XdpMaps.v
XdpDataplane.v
Ebpf.v
EbpfRate.v
EbpfReply.v
EbpfFilter.v
EbpfVerdict.v
XdpEnforce.v
NetText.v
Store.v
Requests.v
DaemonRtbh.v
DaemonFlowspec.v
StoreXdp.v
DaemonXdp.v
DetectionLog.v
Text.v
Nft.v
Config.v
ConfigSpec.v
Rpki.v
NftApply.v
Discovery.v
HostScan.v
IncusClient.v
DaemonDiscovery.v
Emulators.v
RedisSpec.v
Banner.v
EmulatorSpec.v
Tproxy.v
