(* ===== verification/Prelude.v ===== *)
(** * Blackwall: a verification library

    Blackwall protects a network from denial-of-service attacks. Sampled
    traffic is decoded and watched for floods; a detection opens a mitigation
    on one of three planes, which announce blackhole routes or FlowSpec rules
    over BGP or program an in-kernel packet filter; a deception tier answers
    scanners, without state or with emulated services; a configuration, merged
    with the services that are discovered, decides what the host's firewall
    lets through; a database holds the requests of operators and the mirrors
    of the planes. This library models these parts from the Rust sources under
    [src/crates] and [src/bin/blackwalld] and proves what each promises and
    what the next one relies on. This file holds what all models share: machine
    integers, the state monad, byte strings, tactics and hints.

    ** Parts and files

    Detection ([blackwall-flow]).
    - [Sflow.v]: [sflow.rs], the datagram decoder. It returns for every input
      without reading out of bounds or looping, and decodes every datagram a
      sender builds to the observations of its sampled headers.
    - [Flow.v], [Detector.v]: [observation.rs], [detector.rs], [agents.rs]. The
      events of a target follow the life cycle the planes rely on (opened, then
      updates, then cleared), an alarm is raised exactly when a rate of the
      window crosses its threshold, and a forged sampling rate cannot inflate a
      count beyond its clamp.
    - [Select.v]: [select.rs], [sink.rs]: which detections become FlowSpec rules
      and which a blackhole, against a reference choice.

    Mitigation planes ([blackwall-rtbh], [blackwall-xdp]). Each plane is a pure
    controller that decides and a manager that owns it, executes its decisions
    and mirrors them into a journal.
    - [RateLimit.v]: [rate_limit.rs], the cap on new mitigations shared by two
      planes: no window of time exceeds it, whatever the order of calls.
    - [Executor.v], [ManagerState.v]: the traits between managers and the
      outside as classes of operations, their promises as classes of laws, and
      the record of a manager's state.
    - [RtbhController.v], [RtbhManager.v]: [controller.rs], [manager.rs],
      [shadow.rs]; [FlowSpecController.v], [FlowSpecManager.v]:
      [flowspec_controller.rs], [flowspec_manager.rs]; [XdpControl.v],
      [XdpManager.v]: [control.rs], [manager.rs]. For every sequence of events,
      operator requests and failures of the executor or the journal: what is
      announced is what the controller believes to be active (no phantom
      mitigations), disarming withdraws everything for good, the controllers
      keep their caps and never act on protected or own addresses, and
      automatic withdrawals are justified.

    BGP ([blackwall-bgp]).
    - [Bytes.v]: buffers and computations that can panic.
    - [BgpMessage.v], [BgpUpdate.v], [BgpFlowSpec.v]: [message.rs], [update.rs],
      [flowspec.rs], [route.rs]. Decoders are total, messages round-trip, and a
      receiver written from the RFCs reads from an UPDATE the route or rule
      that was encoded.
    - [BgpSession.v], [BgpSessionSpec.v]: [session_net.rs], the session task as
      a state machine over what it reads, its commands and its timers. Whatever
      fails, it never panics; while it is up, a peer that follows the RFCs holds
      exactly the routes and rules that were asked for, also after
      reconnections; nothing is announced in a family that was not negotiated,
      and the framing of the received bytes always returns.

    Policy, configuration and firewall ([blackwall-core], [blackwall-config],
    [blackwall-nft], [blackwall-rpki]).
    - [Core.v]: the policy types, [resolve.rs], [instance.rs]: a policy resolves
      exactly when it is consistent, to exactly the services it declares.
    - [NetText.v], [Text.v]: the text of addresses and numbers and the string
      functions of the standard library, with their round trips.
    - [Config.v], [ConfigSpec.v]: [lexer.rs], [parser.rs]: every policy that
      parses is valid, every error names a line of the file, and the kernel
      decides as a configuration that loads says.
    - [Nft.v], [NftApply.v]: [render.rs], [apply.rs]: what the rendered ruleset
      does to every packet, and that it is installed as a whole or not at all.
    - [Rpki.v]: validation of a prefix and its edge-triggered warnings.

    State store and daemon ([blackwall-state], [src/bin/blackwalld]).
    - [Store.v], [StoreXdp.v], [XdpMirror.v], [DetectionLog.v]: the tables, the
      statements with their transactions and failures, the journals of the
      managers and the log of detections.
    - [Requests.v]: the queue of operator requests, over a class of planes;
      [DaemonRtbh.v], [DaemonFlowspec.v], [DaemonXdp.v]: the tasks that own the
      managers. The last request on a target has the last word, a restart
      restores what the mirror holds, and a request reports what happened.
    - [Discovery.v]: [reconcile.rs]; [HostScan.v]: [host.rs], [proc_io.rs],
      [incus_model.rs], [incus_event.rs]; [IncusClient.v]: [incus_client.rs]
      and the event loop of the daemon; [DaemonDiscovery.v]: the application of
      the effective policy. Discovery opens what was observed and nothing else,
      the socket tables of the kernel are read as they were written, and one
      reconcile follows each event of an instance; also, what was once
      discovered stays open in the kernel, and an event about anything else
      ends the stream.

    SYN cookies and the deception tier ([blackwall-cookie],
    [blackwall-deception]).
    - [Cookie.v]: minting and checking; a cookie is accepted exactly when it was
      minted for the same connection in the current or the previous slot.
    - [Packet.v], [RefHeaders.v], [Nfqueue.v]: [packet.rs], [nfqueue.rs],
      [metrics.rs], [error.rs]: the reply builders, and the handler that answers
      a queued packet. Replies go to the sender only, never larger than a UDP
      request, and a handshake is completed with the banner.
    - [Emulators.v]: [emulators/*.rs], each emulator as a function of the bytes
      it reads and of the outcome of its writes; [RedisSpec.v],
      [EmulatorSpec.v]: however TCP cuts the stream, commands are answered one
      by one, and what is recorded of a session is what happened; a hostile
      length makes the Redis parser panic or spin.
    - [Banner.v]: [banner.rs], [banner_reload.rs], [flux.rs]: the banners in use
      are those of the last good file, or of the current period.
    - [Tproxy.v]: [tproxy.rs], [limits.rs]: the accept loops bound their
      sessions and leak none, and the rows in the store tell what happened.

    The in-kernel filter ([blackwall-xdp-ebpf], [blackwall-xdp-common],
    [blackwall-xdp/keys.rs]).
    - [XdpMaps.v]: the map layouts and key encodings shared with user space.
    - [Ebpf.v]: [main.rs], the whole program on one CPU.
    - [EbpfRate.v]: its token buckets over sequences of packets: what they admit
      at most, and that an empty bucket can starve a source.
    - [EbpfReply.v], [EbpfFilter.v]: the in-place rewrite of a SYN into a
      SYN-ACK, byte for byte, with the checksums a receiver verifies.
    - [EbpfVerdict.v]: the stages composed: which frames are dropped, answered
      and passed, and that the answers open connections the responder accepts.
    - [XdpDataplane.v], [XdpEnforce.v]: [dataplane.rs], the writes to the maps
      with the failures of the system calls, composed with the manager above
      and the program below: frames from a network the manager holds blocked
      are dropped, and the fast path never answers without its budget.

    ** Conventions

    Integers are [Z] with the range of their Rust type and wrap-around,
    saturation or checks written out; [f64] and [f32] are IEEE 754 binary
    floating point ([Float.v], on [SpecFloat]). [HashMap]s are finite maps, and
    where the source iterates one, the order is a parameter of the class
    [HashOrder] ([Net.v]). Methods on [&mut self] are state-passing
    computations; [Result] and [Option] are sums; a panic is a value of the
    [rust] type of [Bytes.v]. Third-party crates and the kernel are classes
    with the documented behaviour the code relies on ([IpNetLib], [EtherParse],
    [EtherHeaders], [SipHash], [LpmTrie], [NftKernel], [Host], [Postgres],
    [SerdeJson], and the executor and journal traits), each with a concrete
    instance ([RefNet], [RefEther], [RefHeaders], [RefHash], [RefTrie],
    [RefNft], [RefHost], [RefPg], [RefJson] and the example planes) on which
    the theorems' hypotheses are shown to hold. A connection is the sequence of
    its reads and the outcomes of its writes; a database call may fail at any
    statement.

    Loops over the bytes of a message carry a bound that the theorems show to
    be enough: the readers of [Sflow.v] and [BgpMessage.v] consume at least one
    byte per round, so the length of the input bounds the rounds, and the loops
    of [Ebpf.v] are the fixed-count loops of the source. The same bound, the
    length of the buffered input or one more, serves the framing of
    [BgpSession.v], the command loops and UTF-8 decoding of [Emulators.v] and
    [Text.v], and the chunks, headers and events of [IncusClient.v]; the loop
    over the elements of a Redis array runs as often as the client announces,
    without a bound of its own. The printers of numbers in [NetText.v] have 39
    decimal and 32 hexadecimal digits, enough for 128 bits.

    ** Not modelled

    Opening sockets and other system calls, the loading of the in-kernel
    program, the command line, the HTTP interface, the terminal interface and
    the text of metrics, which only present the state modelled here; dynamic
    DNS updates, traffic shaping, speed tests, packet captures and the lab
    tools, which are input and output around small calculations; the
    configuration files rendered for other programs; logging and the texts of
    errors that quote a library's message. The eviction and the capacity of the
    kernel's maps are not modelled, nor are maps shared between CPUs: the
    program's maps are per CPU, and [Ebpf.v] is one CPU's view. *)
From stdpp Require Import prelude gmap sorting.

Open Scope Z_scope.

(** ** Machine integers

    Every fixed-width unsigned integer of the source is a [Z]; the operations
    that can leave the range are written out with the behaviour the source
    selects (saturating, wrapping, checked). *)

Definition u8_max : Z := 255.
Definition u16_max : Z := 65535.
Definition u32_max : Z := 4294967295.
Definition u64_max : Z := 18446744073709551615.
Definition u128_max : Z := 340282366920938463463374607431768211455.

(** [saturating_add] and [saturating_sub] of an unsigned type whose largest
    value is [max]. *)
Definition sat_add (max a b : Z) : Z := Z.min max (a + b).
Definition sat_sub (a b : Z) : Z := Z.max 0 (a - b).
Definition sat_mul (max a b : Z) : Z := Z.min max (a * b).

Definition u64_sat_add : Z → Z → Z := sat_add u64_max.
Definition u64_sat_sub : Z → Z → Z := sat_sub.

(** [T::try_from(x).unwrap_or(T::MAX)] for an unsigned [T]. *)
Definition try_from_or_max (max x : Z) : Z := if x <=? max then x else max.

(** [std::time::Duration]: whole seconds and a sub-second part in nanoseconds;
    [as_millis] is a [u128] and so never overflows. *)
Record Duration := { secs : Z; nanos : Z }.
Definition as_millis (d : Duration) : Z := secs d * 1000 + nanos d / 1000000.
Definition millis_u64 (d : Duration) : Z := try_from_or_max u64_max (as_millis d).
Definition from_millis (ms : Z) : Duration :=
  {| secs := ms / 1000; nanos := (ms mod 1000) * 1000000 |}.

Lemma millis_u64_le d : millis_u64 d ≤ u64_max.
Proof. unfold millis_u64, try_from_or_max. case_match; lia. Qed.

(** ** Results *)

Inductive result (A E : Type) : Type :=
| Ok (a : A)
| Err (e : E).
Arguments Ok {A E} a.
Arguments Err {A E} e.

Definition is_ok {A E} (r : result A E) : bool :=
  match r with Ok _ => true | Err _ => false end.

(** The [?] operator. *)
Definition result_bind {A B E} (r : result A E) (f : A → result B E) : result B E :=
  match r with Ok a => f a | Err e => Err e end.

Declare Scope result_scope.
Delimit Scope result_scope with result.
Notation "'let?' x := r 'in' k" := (result_bind r (fun x => k))
  (at level 10, x pattern, r at level 100, k at level 200) : result_scope.

(** ** State passing

    A method taking [&mut self] (or sending to an object behind [&self] that
    changes) is a computation of this state monad; the notations are stdpp's
    [x ← m; k] and [m ;; k]. *)

Definition M (S A : Type) : Type := S → A * S.
#[export] Instance M_ret {S} : MRet (M S) := λ _ a s, (a, s).
#[export] Instance M_bind {S} : MBind (M S) :=
  λ _ _ f m s, let '(a, s') := m s in f a s'.

Definition get {S} : M S S := λ s, (s, s).
Definition gets {S A} (f : S → A) : M S A := λ s, (f s, s).
Definition modify {S} (f : S → S) : M S unit := λ s, ((), f s).
Definition run {S A} (m : M S A) (s : S) : A * S := m s.
Definition exec {S A} (m : M S A) (s : S) : S := (m s).2.
Definition eval {S A} (m : M S A) (s : S) : A := (m s).1.
#[global] Arguments exec : simpl never.
#[global] Arguments eval : simpl never.

(** [for x in l { f(x) }] *)
Fixpoint for_each {S A} (l : list A) (f : A → M S unit) : M S unit :=
  match l with
  | [] => mret ()
  | x :: l' => f x ;; for_each l' f
  end.

(** Partial-correctness triples. The computations are total functions, so a
    triple is also total correctness. *)
Definition triple {S A} (P : S → Prop) (m : M S A) (Q : A → S → Prop) : Prop :=
  ∀ s, P s → Q (eval m s) (exec m s).

(** A computation that keeps an invariant. *)
Definition preserves {S A} (I : S → Prop) (m : M S A) : Prop :=
  triple I m (λ _ s, I s).

Section triples.
Context {S : Type}.
Implicit Types P : S → Prop.

Lemma triple_ret {A} (a : A) (Q : A → S → Prop) : triple (Q a) (mret a) Q.
Proof. intros s H. exact H. Qed.

Lemma exec_bind {A B} (m : M S A) (f : A → M S B) s :
  exec (m ≫= f) s = exec (f (eval m s)) (exec m s).
Proof. unfold exec, eval, mbind, M_bind. by destruct (m s). Qed.

Lemma eval_bind {A B} (m : M S A) (f : A → M S B) s :
  eval (m ≫= f) s = eval (f (eval m s)) (exec m s).
Proof. unfold exec, eval, mbind, M_bind. by destruct (m s). Qed.

Lemma triple_bind {A B} P (m : M S A) (R : A → S → Prop) (f : A → M S B) Q :
  triple P m R → (∀ a, triple (R a) (f a) Q) → triple P (m ≫= f) Q.
Proof.
  intros Hm Hf s Hs. rewrite exec_bind, eval_bind. by apply Hf, Hm.
Qed.

Lemma triple_conseq {A} P P' (m : M S A) Q Q' :
  triple P' m Q' → (∀ s, P s → P' s) → (∀ a s, Q' a s → Q a s) → triple P m Q.
Proof. intros H HP HQ s Hs. by apply HQ, H, HP. Qed.

Lemma triple_gets {A} P (f : S → A) :
  triple P (gets f) (λ a s, P s ∧ a = f s).
Proof. intros s Hs. done. Qed.

Lemma triple_modify P (f : S → S) (Q : unit → S → Prop) :
  (∀ s, P s → Q () (f s)) → triple P (modify f) Q.
Proof. intros H s Hs. by apply H. Qed.

Lemma triple_for_each {A} (I : S → Prop) (l : list A) (f : A → M S unit) :
  (∀ x, x ∈ l → preserves I (f x)) → preserves I (for_each l f).
Proof.
  induction l as [|x l IH]; intros Hf; [by apply (triple_ret () (λ _, I))|].
  simpl. eapply triple_bind; [apply Hf; set_solver|].
  intros []. apply IH. intros y Hy. apply Hf. set_solver.
Qed.

Lemma exec_for_each_cons {A} x (l : list A) (f : A → M S unit) s :
  exec (for_each (x :: l) f) s = exec (for_each l f) (exec (f x) s).
Proof. apply exec_bind. Qed.
End triples.

(** Decompose a computation that keeps an invariant along its binds and
    branches, leaving the primitive steps. *)
Ltac pres_step :=
  match goal with
  | |- preserves _ (mret _) => apply triple_ret
  | |- preserves _ (_ ≫= _) => eapply triple_bind
  | |- triple _ (mret _) _ => apply triple_ret
  end.

(** Run a computation symbolically up to its next unknown outcome. *)
Ltac msimp :=
  repeat progress (cbv delta [exec eval mbind mret M_bind M_ret gets modify]; cbn).

(** A closed equation by evaluation of both sides; unlike [vm_compute] it does
    not read the normal forms back, which for a class instance in the type
    would include its laws. *)
Ltac vm_refl := match goal with |- _ = ?b => vm_cast_no_check (eq_refl b) end.

Create HintDb bw.

(** ** Byte strings

    A byte is a [Z] in [0, 256); [be_bytes n z] are the [n] big-endian bytes of
    [z] ([to_be_bytes] of an [8*n]-bit integer), [be_value] the integer a
    big-endian byte string denotes ([from_be_bytes]). *)

Definition byte_ok (b : Z) : Prop := 0 ≤ b < 256.
Definition bytes_ok (l : list Z) : Prop := Forall byte_ok l.

Fixpoint be_bytes (n : nat) (z : Z) : list Z :=
  match n with
  | O => []
  | S n' => (z / 256 ^ Z.of_nat n') mod 256 :: be_bytes n' z
  end.

Definition be_value (l : list Z) : Z := foldl (λ acc b, acc * 256 + b) 0 l.

Section bytes.
Lemma length_be_bytes n z : length (be_bytes n z) = n.
Proof. induction n; simpl; congruence. Qed.

Lemma be_bytes_ok n z : bytes_ok (be_bytes n z).
Proof.
  induction n as [|n IH]; simpl; constructor; [|exact IH].
  unfold byte_ok. apply Z.mod_pos_bound. lia.
Qed.

Lemma foldl_be_shift l acc :
  foldl (λ acc b, acc * 256 + b) acc l
  = acc * 256 ^ Z.of_nat (length l) + be_value l.
Proof.
  unfold be_value. revert acc. induction l as [|b l IH]; intros acc.
  - simpl. lia.
  - cbn [foldl length]. rewrite (IH (acc * 256 + b)), (IH (0 * 256 + b)).
    rewrite Nat2Z.inj_succ, Z.pow_succ_r by lia. lia.
Qed.

Lemma be_value_cons b l :
  be_value (b :: l) = b * 256 ^ Z.of_nat (length l) + be_value l.
Proof. unfold be_value at 1. cbn [foldl]. rewrite foldl_be_shift. lia. Qed.

Lemma be_value_app l1 l2 :
  be_value (l1 ++ l2) = be_value l1 * 256 ^ Z.of_nat (length l2) + be_value l2.
Proof. unfold be_value at 1. rewrite foldl_app, foldl_be_shift. done. Qed.

Lemma be_value_bound l : bytes_ok l → 0 ≤ be_value l < 256 ^ Z.of_nat (length l).
Proof.
  induction 1 as [|b l Hb Hl IH]; [unfold be_value; simpl; lia|].
  rewrite be_value_cons. cbn [length].
  rewrite Nat2Z.inj_succ, Z.pow_succ_r by lia. unfold byte_ok in Hb. nia.
Qed.

Lemma be_value_be_bytes n z : be_value (be_bytes n z) = z mod 256 ^ Z.of_nat n.
Proof.
  induction n as [|n IH]; [simpl; by rewrite Z.mod_1_r|].
  cbn [be_bytes]. rewrite be_value_cons, IH, length_be_bytes.
  rewrite Nat2Z.inj_succ, Z.pow_succ_r by lia.
  rewrite (Z.mul_comm 256), Z.rem_mul_r by lia. lia.
Qed.

Lemma be_value_be_bytes_small n z :
  0 ≤ z < 256 ^ Z.of_nat n → be_value (be_bytes n z) = z.
Proof. intros. rewrite be_value_be_bytes. by apply Z.mod_small. Qed.

Lemma be_bytes_be_value l : bytes_ok l → be_bytes (length l) (be_value l) = l.
Proof.
  intros H. induction H as [|b l Hb Hl IH]; [done|].
  pose proof (be_value_bound l Hl) as Hbd.
  rewrite be_value_cons. cbn [length be_bytes]. unfold byte_ok in Hb. f_equal.
  - rewrite Z.div_add_l by lia. rewrite Z.div_small, Z.add_0_r by lia.
    by apply Z.mod_small.
  - assert (∀ m k x, (m ≤ k)%nat →
      be_bytes m (x * 256 ^ Z.of_nat k + be_value l) = be_bytes m (be_value l)) as Hsh.
    { induction m as [|m IHm]; intros k x Hk; [done|]. cbn [be_bytes].
      rewrite IHm by lia. f_equal.
      replace (Z.of_nat k) with (Z.of_nat (k - S m) + 1 + Z.of_nat m) by lia.
      rewrite !Z.pow_add_r by lia.
      replace (x * (256 ^ Z.of_nat (k - S m) * 256 ^ 1 * 256 ^ Z.of_nat m))
        with (x * 256 ^ Z.of_nat (k - S m) * 256 * 256 ^ Z.of_nat m) by lia.
      rewrite Z.div_add_l by lia.
      rewrite Z.add_comm, Z.mod_add by lia. done. }
    rewrite Hsh by lia. exact IH.
Qed.
End bytes.

#[global] Arguments be_bytes : simpl never.
#[global] Arguments be_value : simpl never.
#[export] Hint Resolve be_bytes_ok : bw.

(** ** Lists *)

(** [Vec::retain]. *)
Definition retain {A} (p : A → bool) (l : list A) : list A := filter (λ x, p x = true) l.

Lemma elem_of_retain {A} (p : A → bool) (l : list A) x :
  x ∈ retain p l ↔ p x = true ∧ x ∈ l.
Proof. unfold retain. by rewrite list_elem_of_filter. Qed.

Lemma Forall_retain {A} (P : A → Prop) (p : A → bool) (l : list A) :
  Forall P l → Forall P (retain p l).
Proof. rewrite !Forall_forall. intros HP x [_ Hx]%elem_of_retain. by apply HP. Qed.

Lemma filter_all {A} (P : A → Prop) `{∀ x, Decision (P x)} (l : list A) :
  Forall P l → filter P l = l.
Proof.
  induction 1 as [|x l Hx Hl IH]; [done|]. by rewrite filter_cons_True, IH.
Qed.

Lemma filter_none {A} (P : A → Prop) `{∀ x, Decision (P x)} (l : list A) :
  Forall (λ x, ¬ P x) l → filter P l = [].
Proof.
  induction 1 as [|x l Hx Hl IH]; [done|]. by rewrite filter_cons_False, IH.
Qed.

Lemma NoDup_fmap_filter {A K} (f : A → K) (P : A → Prop) `{∀ x, Decision (P x)} (l : list A) :
  NoDup (f <$> l) → NoDup (f <$> filter P l).
Proof.
  induction l as [|y l IH]; intros Hl; [constructor|].
  apply NoDup_cons in Hl as [Hy Hl]. rewrite filter_cons. case_decide; [|by apply IH].
  simpl. apply NoDup_cons. split; [|by apply IH].
  intros (z & Hz & Hin)%list_elem_of_fmap. apply Hy. apply list_elem_of_filter in Hin as [_ Hin].
  apply list_elem_of_fmap. eauto.
Qed.

(** The queues drop the older entry of a key before pushing the new one. *)
Lemma NoDup_retain_snoc {A K} (f : A → K) (p : A → bool) (l : list A) x :
  (∀ y, p y = true → f y ≠ f x) → NoDup (f <$> l) → NoDup (f <$> retain p l ++ [x]).
Proof.
  intros Hp Hl. rewrite fmap_app. apply NoDup_app. split_and!.
  - by apply NoDup_fmap_filter.
  - intros k (y & -> & [Hy _]%elem_of_retain)%list_elem_of_fmap.
    intros Hk%list_elem_of_singleton. by apply (Hp y).
  - apply NoDup_singleton.
Qed.

(** Dropping an entry of a queue. *)
Lemma NoDup_fmap_drop_mid {A K} (f : A → K) (l1 l2 : list A) x :
  NoDup (f <$> l1 ++ x :: l2) → NoDup (f <$> l1 ++ l2).
Proof.
  rewrite !fmap_app. intros Hn. eapply sublist_NoDup; [exact Hn|].
  apply sublist_app; [done|]. by apply sublist_skip_l || apply sublist_cons.
Qed.

Lemma existsb_elem_of {A} (p : A → bool) (l : list A) :
  existsb p l = true ↔ ∃ x, x ∈ l ∧ p x = true.
Proof.
  rewrite existsb_exists. split; intros (x & Hx & Hp); exists x;
    (split; [|done]); by apply list_elem_of_In.
Qed.

Lemma omap_ext_elem {A C} (f g : A → option C) (l : list A) :
  (∀ x, x ∈ l → f x = g x) → omap f l = omap g l.
Proof.
  induction l as [|x l IH]; intros Hl; [done|]. csimpl. rewrite (Hl x) by (by left).
  rewrite IH; [done|]. intros y Hy. apply Hl. by right.
Qed.

Lemma omap_fmap_some {A C D} (f : C → D) (g : A → option C) (l : list A) :
  omap (λ x, f <$> g x) l = f <$> omap g l.
Proof. induction l as [|x l IH]; [done|]. csimpl. destruct (g x); csimpl; by rewrite IH. Qed.

Lemma elem_of_omap {A C} (f : A → option C) (l : list A) y :
  y ∈ omap f l ↔ ∃ x, x ∈ l ∧ f x = Some y.
Proof.
  induction l as [|x l IH]; csimpl; [set_solver|].
  destruct (f x) eqn:E; rewrite ?elem_of_cons, IH; set_solver.
Qed.

(** ** Maps *)

(** Taking a list of keys out, expressed on membership. *)
Lemma decide_elem_of_cons {K} `{EqDecision K} {A} (k x : K) (ks : list K) (a b : A) :
  (if decide (k ∈ x :: ks) then a else b) = if decide (k = x) then a else if decide (k ∈ ks) then a else b.
Proof. destruct (decide (k ∈ x :: ks)), (decide (k = x)), (decide (k ∈ ks)); set_solver. Qed.

(** Removing a list of keys one by one. *)
Lemma delete_all_lookup {K V} `{Countable K} (ks : list K) (m : gmap K V) k :
  foldl (λ a t, delete t a) m ks !! k = if decide (k ∈ ks) then None else m !! k.
Proof.
  revert m. induction ks as [|x ks IH]; intros m.
  { destruct (decide _) as [Hk|]; [by apply not_elem_of_nil in Hk|done]. }
  cbn [foldl]. rewrite IH. destruct (decide (k = x)) as [->|Hne].
  - rewrite lookup_delete_eq. destruct (decide (x ∈ x :: ks)) as [|Hn]; [by case_decide|].
    destruct Hn. apply list_elem_of_here.
  - rewrite lookup_delete_ne by done. destruct (decide (k ∈ ks)), (decide (k ∈ x :: ks)); set_solver.
Qed.

Lemma map_size_delete_le {K V} `{Countable K} (m : gmap K V) k :
  (size (delete k m) ≤ size m)%nat.
Proof. rewrite map_size_delete. case_match; unfold id; lia. Qed.

Lemma delete_all_size {K V} `{Countable K} (ks : list K) (m : gmap K V) :
  (size (foldl (λ a t, delete t a) m ks) ≤ size m)%nat.
Proof.
  revert m. induction ks as [|k ks IH]; intros m; [done|]. cbn [foldl].
  etrans; [apply IH|apply map_size_delete_le].
Qed.

(** A pass over the values keeps the size. *)
Lemma map_size_mono_imap {K V} `{Countable K} (f : K → V → option V) (m : gmap K V) :
  (size (map_imap f m) ≤ size m)%nat.
Proof.
  rewrite <-!size_dom. apply subseteq_size. intros k. rewrite !elem_of_dom, map_lookup_imap.
  destruct (m !! k); [by eexists|by intros []].
Qed.

Lemma map_Forall_filter {K V} `{Countable K} (P : K → V → Prop) (Q : K * V → Prop)
    `{∀ x, Decision (Q x)} (m : gmap K V) :
  map_Forall P m → map_Forall P (filter Q m).
Proof. intros HP k v [Hk _]%map_lookup_filter_Some. by apply HP. Qed.
