(* ===== verification/Net.v ===== *)
(** * Addresses, prefixes and hash-map iteration

    [std::net::IpAddr] is part of the language's standard library and is
    modelled as data. The [ipnet] crate is third-party code: its prefix type
    and operations are the fields of the class [IpNetLib], together with the
    documented behaviour the program relies on; [RefNet] is a concrete
    implementation of the class, used to evaluate the models on examples.
    Rust's [HashMap]/[HashSet] iterate in an unspecified order: [HashOrder]
    abstracts the order, so every theorem holds for all of them. *)
From stdpp Require Import prelude gmap sorting.
From S2P Require Import Prelude.

Open Scope Z_scope.

(** ** [std::net::IpAddr]

    [V4 a] carries the address as a big-endian [u32], [V6 a] as a big-endian
    [u128] ([Ipv4Addr::to_bits], [Ipv6Addr::to_bits]). *)
Inductive IpAddr : Type :=
| V4 (a : Z)
| V6 (a : Z).

#[export] Instance IpAddr_eq_dec : EqDecision IpAddr.
Proof. solve_decision. Defined.
#[export] Instance IpAddr_countable : Countable IpAddr.
Proof.
  apply (inj_countable'
    (λ x, match x with V4 a => inl a | V6 a => inr a end)
    (λ y, match y with inl a => V4 a | inr a => V6 a end)).
  by intros [].
Defined.
#[export] Instance IpAddr_inhabited : Inhabited IpAddr := populate (V4 0).

Definition ip_bits (a : IpAddr) : Z := match a with V4 _ => 32 | V6 _ => 128 end.
Definition ip_val (a : IpAddr) : Z := match a with V4 z | V6 z => z end.
Definition ip_is_v4 (a : IpAddr) : bool := match a with V4 _ => true | V6 _ => false end.
Definition ip_wf (a : IpAddr) : Prop := 0 ≤ ip_val a < 2 ^ ip_bits a.

(** The same address with other bits. *)
Definition ip_with (a : IpAddr) (z : Z) : IpAddr :=
  match a with V4 _ => V4 z | V6 _ => V6 z end.

(** [octets()]: 4 or 16 big-endian bytes. *)
Definition ip_octets (a : IpAddr) : list Z :=
  match a with V4 z => be_bytes 4 z | V6 z => be_bytes 16 z end.

(** [Ipv4Addr::new(b0, b1, b2, b3)]. *)
Definition ipv4 (b0 b1 b2 b3 : Z) : IpAddr := V4 (be_value [b0; b1; b2; b3]).

Lemma length_ip_octets a : length (ip_octets a) = Z.to_nat (ip_bits a / 8).
Proof. destruct a; simpl; by rewrite ?length_be_bytes. Qed.

Lemma ip_octets_val a : ip_wf a → be_value (ip_octets a) = ip_val a.
Proof.
  intros H. destruct a; unfold ip_wf in H; simpl in *;
    rewrite be_value_be_bytes_small; auto.
Qed.

Lemma ip_octets_inj a b :
  ip_wf a → ip_wf b → ip_is_v4 a = ip_is_v4 b → ip_octets a = ip_octets b → a = b.
Proof.
  intros Ha Hb Hf Ho. apply (f_equal be_value) in Ho.
  rewrite !ip_octets_val in Ho by done.
  destruct a, b; simpl in *; congruence.
Qed.

(** ** The [ipnet] crate *)

(** [network]: the address with the host bits of an [n]-bit prefix cleared. *)
Definition mask_to (bits n z : Z) : Z := z / 2 ^ (bits - n) * 2 ^ (bits - n).

Class IpNetLib := {
  IpNet : Type;
  IpNet_eq_dec :: EqDecision IpNet;
  IpNet_countable :: Countable IpNet;
  IpNet_inhabited :: Inhabited IpNet;
  (** [IpNet::new(addr, len)], i.e. [Ipv4Net::new] / [Ipv6Net::new]; [None] is
      [Err(PrefixLenError)]. *)
  net_new : IpAddr → Z → option IpNet;
  net_addr : IpNet → IpAddr;
  net_prefix_len : IpNet → Z;
  net_trunc : IpNet → IpNet;
  (** [Contains<&IpAddr>] and [Contains<&IpNet>]. *)
  net_contains : IpNet → IpAddr → bool;
  net_contains_net : IpNet → IpNet → bool;

  (** [new] accepts exactly the prefix lengths up to the address width, and
      keeps the address (host bits included) and the length. *)
  net_new_ok : ∀ a n, 0 ≤ n ≤ ip_bits a →
    ∃ p, net_new a n = Some p ∧ net_addr p = a ∧ net_prefix_len p = n;
  net_new_err : ∀ a n, ip_bits a < n → net_new a n = None;
  (** A prefix is determined by its address and its length. *)
  net_ext : ∀ p q, net_addr p = net_addr q → net_prefix_len p = net_prefix_len q → p = q;
  net_len_bound : ∀ p, 0 ≤ net_prefix_len p ≤ ip_bits (net_addr p);
  (** [trunc] clears the host bits. *)
  net_trunc_addr : ∀ p, net_addr (net_trunc p)
    = ip_with (net_addr p) (mask_to (ip_bits (net_addr p)) (net_prefix_len p) (ip_val (net_addr p)));
  net_trunc_len : ∀ p, net_prefix_len (net_trunc p) = net_prefix_len p;
  (** Membership compares the network bits, within one family. *)
  net_contains_spec : ∀ p a, net_contains p a = true ↔
    ip_is_v4 (net_addr p) = ip_is_v4 a ∧
    ip_val (net_addr p) / 2 ^ (ip_bits a - net_prefix_len p)
    = ip_val a / 2 ^ (ip_bits a - net_prefix_len p);
  net_contains_net_spec : ∀ p q, net_contains_net p q = true ↔
    net_prefix_len p ≤ net_prefix_len q ∧ net_contains p (net_addr q) = true;
}.

Section net.
Context `{IpNetLib}.

(** [r.expect(msg)]: the [None] case is a panic. Every use below is followed
    by a lemma showing it is not reached. *)
Definition expect {A} `{Inhabited A} (o : option A) : A := default inhabitant o.

(** [controller::host_prefix]: the [/32] or [/128] of an address. *)
Definition host_prefix (target : IpAddr) : IpNet :=
  match target with
  | V4 a => expect (net_new (V4 a) 32)
  | V6 a => expect (net_new (V6 a) 128)
  end.

Lemma host_prefix_spec t :
  net_new t (ip_bits t) = Some (host_prefix t) ∧
  net_addr (host_prefix t) = t ∧ net_prefix_len (host_prefix t) = ip_bits t.
Proof.
  destruct (net_new_ok t (ip_bits t)) as (p & Hn & Ha & Hl);
    [destruct t; simpl; lia|].
  assert (host_prefix t = p) as ->; [|done].
  destruct t; unfold host_prefix, expect; simpl in Hn; by rewrite Hn.
Qed.

Lemma net_addr_host_prefix t : net_addr (host_prefix t) = t.
Proof. apply host_prefix_spec. Qed.

#[export] Instance host_prefix_inj : Inj (=) (=) host_prefix.
Proof.
  intros a b Hab. by rewrite <-(net_addr_host_prefix a), Hab, net_addr_host_prefix.
Qed.

(** A host prefix contains exactly its own address. *)
Lemma net_contains_host t a : net_contains (host_prefix t) a = true ↔ a = t.
Proof.
  rewrite net_contains_spec.
  destruct (host_prefix_spec t) as (_ & -> & ->). split.
  - intros [Hf Hv]. destruct t, a; simpl in *; try done;
      rewrite !Z.div_1_r in Hv; congruence.
  - intros ->. done.
Qed.

Lemma net_trunc_host t : net_trunc (host_prefix t) = host_prefix t.
Proof.
  destruct (host_prefix_spec t) as (_ & Ha & Hl). apply net_ext; [|by rewrite net_trunc_len].
  rewrite net_trunc_addr, Ha, Hl. unfold mask_to. rewrite Z.sub_diag, Z.div_1_r, Z.mul_1_r.
  by destruct t.
Qed.

Lemma net_contains_coarser p q a :
  net_prefix_len p ≤ net_prefix_len q → net_contains p a = true → net_contains q a = true →
  net_contains_net p q = true.
Proof.
  rewrite net_contains_net_spec, !net_contains_spec. intros Hl [Hfp Hp] [Hfq Hq].
  split; [done|]. split; [congruence|].
  assert (ip_bits (net_addr q) = ip_bits a) as -> by (destruct (net_addr q), a; done).
  pose proof (net_len_bound p) as Hlp. pose proof (net_len_bound q) as Hlq.
  assert (ip_bits (net_addr q) = ip_bits a) as Hbq by (destruct (net_addr q), a; done).
  rewrite Hbq in Hlq.
  replace (ip_bits a - net_prefix_len p)
    with ((ip_bits a - net_prefix_len q) + (net_prefix_len q - net_prefix_len p)) in * by lia.
  rewrite Z.pow_add_r, <-!Z.div_div in * by lia. by rewrite Hp, Hq.
Qed.

(** Two prefixes that share an address are nested. *)
Lemma net_share_nested p q a :
  net_contains p a = true → net_contains q a = true →
  net_contains_net p q = true ∨ net_contains_net q p = true.
Proof.
  intros Hp Hq. destruct (decide (net_prefix_len p ≤ net_prefix_len q)).
  - left. by eapply net_contains_coarser.
  - right. eapply net_contains_coarser; [lia|done..].
Qed.

(** [prefixes.iter().any(|p| p.contains(&target))] *)
Definition any_contains (ps : list IpNet) (a : IpAddr) : bool :=
  existsb (λ p, net_contains p a) ps.
End net.

(** ** Hash-map iteration order *)

Class HashOrder := {
  hm_iter : ∀ {K V : Type} `{Countable K}, gmap K V → list (K * V);
  hm_iter_perm : ∀ {K V : Type} `{Countable K} (m : gmap K V),
    hm_iter m ≡ₚ map_to_list m;
  hs_iter : ∀ {K : Type} `{Countable K}, gset K → list K;
  hs_iter_perm : ∀ {K : Type} `{Countable K} (s : gset K), hs_iter s ≡ₚ elements s;
}.

Section hash_order.
Context `{HashOrder}.

Lemma elem_of_hm_iter {K V} `{Countable K} (m : gmap K V) k v :
  (k, v) ∈ hm_iter m ↔ m !! k = Some v.
Proof. by rewrite hm_iter_perm, elem_of_map_to_list. Qed.

Lemma NoDup_hm_iter_fst {K V} `{Countable K} (m : gmap K V) : NoDup (hm_iter m).*1.
Proof. rewrite hm_iter_perm. apply NoDup_fst_map_to_list. Qed.

Lemma NoDup_hm_iter {K V} `{Countable K} (m : gmap K V) : NoDup (hm_iter m).
Proof. rewrite hm_iter_perm. apply NoDup_map_to_list. Qed.

Lemma length_hm_iter {K V} `{Countable K} (m : gmap K V) :
  length (hm_iter m) = size m.
Proof. by rewrite hm_iter_perm, length_map_to_list. Qed.

Lemma elem_of_hs_iter {K} `{Countable K} (s : gset K) k : k ∈ hs_iter s ↔ k ∈ s.
Proof. by rewrite hs_iter_perm, elem_of_elements. Qed.

Lemma NoDup_hs_iter {K} `{Countable K} (s : gset K) : NoDup (hs_iter s).
Proof. rewrite hs_iter_perm. apply NoDup_elements. Qed.
End hash_order.

(** ** Concrete instances, for evaluation *)
Module RefNet.
(** A prefix as address and length; the length is at most the width. *)
Definition net_ok (p : IpAddr * Z) : bool := (0 <=? p.2) && (p.2 <=? ip_bits p.1).
Lemma net_ok_iff p : Is_true (net_ok p) ↔ 0 ≤ p.2 ≤ ip_bits p.1.
Proof. unfold net_ok. rewrite Is_true_true, andb_true_iff, !Z.leb_le. done. Qed.
Definition net : Type := { p : IpAddr * Z | Is_true (net_ok p) }.

Definition mk (a : IpAddr) (n : Z) : option net :=
  match decide (Is_true (net_ok (a, n))) with
  | left H => Some ((a, n) ↾ H)
  | right _ => None
  end.

#[export] Instance net_eq_dec : EqDecision net.
Proof.
  intros p q. destruct (decide (`p = `q)) as [E|E]; [left|right].
  - by apply (sig_eq_pi _).
  - congruence.
Defined.

Definition decode (x : IpAddr * Z) : option net := mk x.1 x.2.
Lemma mk_proj (p : net) : mk (`p).1 (`p).2 = Some p.
Proof.
  destruct p as [[a n] Hp]. unfold mk; simpl.
  case_decide as Hd; [|done]. f_equal. by apply (sig_eq_pi _).
Qed.
#[export] Instance net_countable : Countable net.
Proof. apply (inj_countable proj1_sig decode). intros p. apply mk_proj. Defined.

Lemma default_ok : Is_true (net_ok (V4 0, 0)).
Proof. exact I. Qed.
#[export] Instance net_inhabited : Inhabited net := populate ((V4 0, 0) ↾ default_ok).

Definition addr (p : net) : IpAddr := (`p).1.
Definition prefix_len (p : net) : Z := (`p).2.

Lemma trunc_ok (p : net) :
  Is_true (net_ok (ip_with (addr p) (mask_to (ip_bits (addr p)) (prefix_len p) (ip_val (addr p))),
                   prefix_len p)).
Proof. destruct p as [[[] n] Hp]; exact Hp. Qed.
Definition trunc (p : net) : net :=
  exist (λ x, Is_true (net_ok x)) _ (trunc_ok p).

Definition contains (p : net) (a : IpAddr) : bool :=
  eqb (ip_is_v4 (addr p)) (ip_is_v4 a) &&
  (ip_val (addr p) / 2 ^ (ip_bits a - prefix_len p)
   =? ip_val a / 2 ^ (ip_bits a - prefix_len p)).
Definition contains_net (p q : net) : bool :=
  (prefix_len p <=? prefix_len q) && contains p (addr q).

#[export] Instance lib : IpNetLib.
Proof.
  refine {|
    IpNet := net; net_new := mk; net_addr := addr; net_prefix_len := prefix_len;
    net_trunc := trunc; net_contains := contains; net_contains_net := contains_net |}.
  - intros a n Hn. unfold mk. case_decide as Hd; [by eexists|].
    exfalso. apply Hd. by apply (net_ok_iff (a, n)).
  - intros a n Hn. unfold mk. case_decide as Hd; [|done].
    pose proof (proj1 (net_ok_iff _) Hd) as Hb. simpl in Hb. lia.
  - intros p q Ha Hl. apply (sig_eq_pi _).
    destruct p as [[] ?], q as [[] ?]. cbv in Ha, Hl. simpl. congruence.
  - intros [[a n] Hp]. exact (proj1 (net_ok_iff _) Hp).
  - done.
  - done.
  - intros p a. unfold contains. rewrite andb_true_iff, eqb_true_iff, Z.eqb_eq. done.
  - intros p q. unfold contains_net. by rewrite andb_true_iff, Z.leb_le.
Defined.

#[export] Instance order : HashOrder := {|
  hm_iter K V _ _ m := map_to_list m;
  hm_iter_perm K V _ _ m := reflexivity _;
  hs_iter K _ _ s := elements s;
  hs_iter_perm K _ _ s := reflexivity _ |}.

(** [a.b.c.d/n], for examples. *)
Definition net4 (b0 b1 b2 b3 n : Z) : IpNet := expect (net_new (ipv4 b0 b1 b2 b3) n).
End RefNet.
