(* ===== verification/RateLimit.v ===== *)
(** * The cross-plane arming rate limiter

    Model of [crates/blackwall-rtbh/src/rate_limit.rs]: a sliding-window limiter
    on new mitigations, shared by the RTBH and the FlowSpec managers through
    one [Arc<Mutex<_>>]. Each call takes the lock for its whole duration, so
    the calls of both managers form one sequence; the theorems are about
    arbitrary sequences of calls with a monotone clock. *)
From stdpp Require Import prelude gmap sorting.
From S2P Require Import Prelude.

Open Scope Z_scope.

Definition WINDOW_MS : Z := 60000.

Record ArmingRateLimiter := {
  max_per_min : Z;
  (** Admitted timestamps, oldest first (a [VecDeque], front at the head). *)
  window : list Z;
}.

Definition limiter_new (max : Z) : ArmingRateLimiter :=
  {| max_per_min := max; window := [] |}.

(** The [while let Some(&oldest) = self.window.front()] loop. *)
Fixpoint pop_aged (window_start : Z) (w : list Z) : list Z :=
  match w with
  | oldest :: w' => if oldest <? window_start then pop_aged window_start w' else w
  | [] => []
  end.

Definition try_acquire (now_ms : Z) : M ArmingRateLimiter bool := λ lim,
  let window_start := u64_sat_sub now_ms WINDOW_MS in
  let w := pop_aged window_start (window lim) in
  let in_window := try_from_or_max u32_max (Z.of_nat (length w)) in
  if in_window <? max_per_min lim
  then (true, {| max_per_min := max_per_min lim; window := w ++ [now_ms] |})
  else (false, {| max_per_min := max_per_min lim; window := w |}).

(** A sequence of calls at the given times: the admitted times, in order, and
    the final limiter. *)
Fixpoint acquire_all (ts : list Z) (lim : ArmingRateLimiter) : list Z * ArmingRateLimiter :=
  match ts with
  | [] => ([], lim)
  | t :: ts' =>
      let '(ok, lim1) := try_acquire t lim in
      let '(adm, lim2) := acquire_all ts' lim1 in
      ((if ok then t :: adm else adm), lim2)
  end.

Section proofs.
Lemma pop_aged_suffix ws w : ∃ pre, w = pre ++ pop_aged ws w ∧ Forall (λ t, t < ws) pre.
Proof.
  induction w as [|t w (pre & Hw & Hpre)]; [by exists []|].
  simpl. destruct (t <? ws) eqn:E; [|by exists []].
  exists (t :: pre). split; [simpl; congruence|]. constructor; [lia|done].
Qed.

Lemma pop_aged_ge ws w :
  StronglySorted Z.le w → Forall (λ t, ws ≤ t) (pop_aged ws w).
Proof.
  induction 1 as [|t w Hw IH Ht]; [done|]. simpl.
  destruct (t <? ws) eqn:E; [done|].
  constructor; [lia|]. eapply Forall_impl; [exact Ht|]. simpl. lia.
Qed.

(** The limiter's window after admitting the times [adm], all at or before
    [now]: the suffix of [adm] not yet discarded, what was discarded lying
    more than a window before [now]. *)
Definition tracks (max now : Z) (adm : list Z) (lim : ArmingRateLimiter) : Prop :=
  max_per_min lim = max ∧
  ∃ pre, adm = pre ++ window lim ∧ StronglySorted Z.le adm ∧
    Forall (λ t, t < now - WINDOW_MS) pre ∧ Forall (λ t, 0 ≤ t ≤ now) adm.

(** No closed interval of one window's length holds more than [max] of the
    admitted times. *)
Definition within_cap (max : Z) (adm : list Z) : Prop :=
  ∀ x, Z.of_nat (length (filter (λ t, x ≤ t ≤ x + WINDOW_MS) adm)) ≤ max.

Lemma StronglySorted_snoc_le (l : list Z) t :
  StronglySorted Z.le l → Forall (λ x, x ≤ t) l → StronglySorted Z.le (l ++ [t]).
Proof.
  induction 1 as [|x l Hl IH Hx]; intros Ht; simpl.
  - repeat constructor.
  - apply Forall_cons in Ht as [? ?]. constructor; [by apply IH|].
    apply Forall_app. split; [done|]. by repeat constructor.
Qed.

Lemma tracks_prune max now t adm lim :
  tracks max now adm lim → 0 ≤ now ≤ t →
  ∃ pre, let w := pop_aged (u64_sat_sub t WINDOW_MS) (window lim) in
    adm = pre ++ w ∧ StronglySorted Z.le adm ∧
    Forall (λ x, x < t - WINDOW_MS) pre ∧ Forall (λ x, 0 ≤ x ≤ t) adm ∧
    Forall (λ x, t - WINDOW_MS ≤ x) w.
Proof.
  intros (_ & pre & Hadm & Hs & Hpre & Hb) Hle.
  destruct (pop_aged_suffix (u64_sat_sub t WINDOW_MS) (window lim)) as (dropped & Hw & Hd).
  exists (pre ++ dropped). simpl. split_and!.
  - rewrite <-app_assoc, <-Hw. done.
  - done.
  - apply Forall_app; split; [eapply Forall_impl; [exact Hpre|]; simpl; lia|].
    rewrite Forall_forall in Hb, Hd |- *. intros x Hx.
    assert (0 ≤ x ≤ now) by (apply Hb; rewrite Hadm, Hw, !elem_of_app; tauto).
    specialize (Hd x Hx). unfold u64_sat_sub, sat_sub in Hd. lia.
  - eapply Forall_impl; [exact Hb|]. simpl. lia.
  - assert (StronglySorted Z.le (window lim)) as Hsw.
    { rewrite Hadm in Hs. clear -Hs. induction pre as [|p pre IH]; [done|].
      simpl in Hs. inversion Hs; auto. }
    eapply Forall_impl; [by apply pop_aged_ge|]. simpl. unfold u64_sat_sub, sat_sub. lia.
Qed.

(** What survives pruning is exactly what was admitted in the trailing
    window. *)
Lemma prune_filter max now t adm lim :
  tracks max now adm lim → 0 ≤ now ≤ t →
  pop_aged (u64_sat_sub t WINDOW_MS) (window lim) = filter (λ x, t - WINDOW_MS ≤ x) adm.
Proof.
  intros Ht Hle. destruct (tracks_prune _ _ _ _ _ Ht Hle) as (pre & Hadm & _ & Hpre & _ & Hw).
  simpl in *. rewrite Hadm. rewrite filter_app, (filter_all _ _ Hw), filter_none; [done|].
  eapply Forall_impl; [exact Hpre|]. simpl. lia.
Qed.

Lemma try_acquire_ok max now t adm lim :
  tracks max now adm lim → 0 ≤ now ≤ t → max ≤ u32_max →
  eval (try_acquire t) lim
  = bool_decide (Z.of_nat (length (filter (λ x, t - WINDOW_MS ≤ x) adm)) < max).
Proof.
  intros Ht Hle Hmax. rewrite <-(prune_filter _ _ _ _ _ Ht Hle).
  destruct Ht as [Hm _]. unfold eval, try_acquire, try_from_or_max.
  rewrite Hm. repeat case_match; simpl; symmetry;
    first [apply bool_decide_eq_true_2 | apply bool_decide_eq_false_2]; lia.
Qed.

Lemma try_acquire_tracks max now t adm lim :
  tracks max now adm lim → 0 ≤ now ≤ t →
  tracks max t (if eval (try_acquire t) lim then adm ++ [t] else adm)
    (exec (try_acquire t) lim).
Proof.
  intros Ht Hle.
  destruct (tracks_prune _ _ _ _ _ Ht Hle) as (pre & Hadm & Hs & Hpre & Hb & Hw).
  destruct Ht as [Hm _]. simpl in *. unfold eval, exec, try_acquire.
  destruct (try_from_or_max _ _ <? _); (split; [exact Hm|]); exists pre; simpl; split_and!; try done.
  - by rewrite Hadm at 1; rewrite <-app_assoc.
  - apply StronglySorted_snoc_le; [done|]. eapply Forall_impl; [exact Hb|]. simpl. lia.
  - apply Forall_app; split; [done|]. repeat constructor; lia.
Qed.

Lemma within_cap_snoc max t adm :
  within_cap max adm →
  Z.of_nat (length (filter (λ x, t - WINDOW_MS ≤ x) adm)) < max →
  within_cap max (adm ++ [t]).
Proof.
  intros Hc Hlt x. rewrite filter_app, length_app.
  destruct (decide (x ≤ t ≤ x + WINDOW_MS)) as [Hx|Hx].
  - rewrite filter_cons_True by done. simpl.
    assert (Nat.le (length (filter (λ y, x ≤ y ≤ x + WINDOW_MS) adm))
              (length (filter (λ y, t - WINDOW_MS ≤ y) adm))); [|lia].
    apply submseteq_length. clear -Hx. induction adm as [|a l IH]; [done|].
    rewrite !filter_cons. repeat case_decide; try lia.
    + by apply submseteq_skip. + by apply submseteq_cons. + done.
  - rewrite filter_cons_False by done. simpl. specialize (Hc x). lia.
Qed.

Lemma acquire_all_inv max ts now adm lim :
  tracks max now adm lim → within_cap max adm → 0 ≤ now → max ≤ u32_max →
  StronglySorted Z.le (now :: ts) →
  tracks max (foldl (λ _ t, t) now ts) (adm ++ (acquire_all ts lim).1) (acquire_all ts lim).2 ∧
  within_cap max (adm ++ (acquire_all ts lim).1).
Proof.
  revert now adm lim. induction ts as [|t ts IH]; intros now adm lim Ht Hc Hn Hm Hs.
  { simpl. by rewrite app_nil_r. }
  inversion Hs as [|? ? Hs' Hf]; subst. apply Forall_cons in Hf as [Hnt _].
  pose proof (try_acquire_ok _ _ t _ _ Ht (conj Hn Hnt) Hm) as Hok.
  pose proof (try_acquire_tracks _ _ t _ _ Ht (conj Hn Hnt)) as Htr.
  assert (acquire_all (t :: ts) lim
    = ((if eval (try_acquire t) lim then [t] else [])
         ++ (acquire_all ts (exec (try_acquire t) lim)).1,
       (acquire_all ts (exec (try_acquire t) lim)).2)) as ->.
  { unfold eval, exec. simpl. destruct (try_acquire t lim) as [[] lim1]; simpl;
      by destruct (acquire_all ts lim1). }
  cbn [fst snd]. rewrite app_assoc.
  destruct (IH t (adm ++ (if eval (try_acquire t) lim then [t] else []))
              (exec (try_acquire t) lim)) as [? ?]; try done; [..|lia].
  - destruct (eval _ _); by rewrite ?app_nil_r.
  - rewrite Hok. case_bool_decide; rewrite ?app_nil_r; [by apply within_cap_snoc|done].
Qed.

Lemma tracks_new max : tracks max 0 [] (limiter_new max).
Proof. split; [done|]. exists []. repeat constructor. Qed.

Lemma acquire_all_new max ts :
  0 ≤ max ≤ u32_max → StronglySorted Z.le (0 :: ts) →
  tracks max (foldl (λ _ t, t) 0 ts) (acquire_all ts (limiter_new max)).1
    (acquire_all ts (limiter_new max)).2 ∧
  within_cap max (acquire_all ts (limiter_new max)).1.
Proof.
  intros Hm Hs. apply (acquire_all_inv max ts 0 []); try done; [apply tracks_new| |lia].
  intros x. simpl. lia.
Qed.

Lemma foldl_last_ge ts now t :
  StronglySorted Z.le (now :: ts ++ [t]) → now ≤ foldl (λ _ t, t) now ts ≤ t.
Proof.
  revert now. induction ts as [|u ts IH]; intros now Hs; inversion Hs as [|? ? Hs' Hf]; subst.
  - apply Forall_cons in Hf as [? _]. simpl. lia.
  - apply Forall_cons in Hf as [? _]. specialize (IH u Hs'). simpl. lia.
Qed.

Lemma StronglySorted_app_l (l k : list Z) :
  StronglySorted Z.le (l ++ k) → StronglySorted Z.le l.
Proof.
  induction l as [|x l IH]; intros Hs; [constructor|]. inversion Hs as [|? ? Hs' Hf]; subst.
  apply Forall_app in Hf as [? _]. constructor; auto.
Qed.
End proofs.

(** C8: over any sequence of acquisitions with a monotone clock (from both
    planes together, in any interleaving), no closed 60 s interval contains
    more admitted announces than [max_per_min]. *)
Theorem rate_cap (max : Z) (ts : list Z) (x : Z) :
  0 ≤ max ≤ u32_max → StronglySorted Z.le (0 :: ts) →
  Z.of_nat (length (filter (λ t, x ≤ t ≤ x + WINDOW_MS)
                      (acquire_all ts (limiter_new max)).1)) ≤ max.
Proof. intros Hm Hs. by apply acquire_all_new. Qed.

(** The limiter admits exactly when fewer than [max_per_min] announces were
    admitted in the trailing 60 s: rejected attempts never count, and a request
    is never refused while there is room in the window. *)
Theorem rate_cap_exact (max : Z) (ts : list Z) (t : Z) :
  0 ≤ max ≤ u32_max → StronglySorted Z.le (0 :: ts ++ [t]) →
  eval (try_acquire t) (acquire_all ts (limiter_new max)).2 = true ↔
  Z.of_nat (length (filter (λ x, t - WINDOW_MS ≤ x)
                      (acquire_all ts (limiter_new max)).1)) < max.
Proof.
  intros Hm Hs. pose proof (foldl_last_ge _ _ _ Hs).
  destruct (acquire_all_new max ts Hm (StronglySorted_app_l (0 :: ts) [t] Hs)) as [Ht _].
  rewrite (try_acquire_ok _ _ _ _ _ Ht) by lia. by rewrite bool_decide_eq_true.
Qed.

Definition demo_times : list Z := [1000; 1500; 2000; 63000].

Lemma demo_times_sorted : StronglySorted Z.le (0 :: demo_times).
Proof. repeat constructor; unfold demo_times; lia. Defined.

Lemma rate_cap_witness :
  (acquire_all demo_times (limiter_new 2)).1 = [1000; 1500; 63000] ∧
  Z.of_nat (length (filter (λ t, 1000 ≤ t ≤ 1000 + WINDOW_MS)
                      (acquire_all demo_times (limiter_new 2)).1)) ≤ 2.
Proof.
  split; [reflexivity|]. apply (rate_cap 2 demo_times 1000).
  - unfold u32_max. lia.
  - exact demo_times_sorted.
Defined.

Lemma rate_cap_exact_witness :
  eval (try_acquire 63000) (acquire_all [1000; 1500; 2000] (limiter_new 2)).2 = true.
Proof.
  apply (rate_cap_exact 2 [1000; 1500; 2000] 63000).
  - unfold u32_max. lia.
  - exact demo_times_sorted.
  - vm_compute. reflexivity.
Defined.
