(* ===== verification/Float.v ===== *)
(** * IEEE 754 binary32/binary64 values

    Rust's [f64] and [f32] as [SpecFloat]'s executable specification of IEEE
    754 arithmetic with round-to-nearest-even: precision 53, maximal exponent
    1024 for [f64]; 24 and 128 for [f32]. *)
From stdpp Require Import prelude.
From Corelib Require Import SpecFloat.
From S2P Require Import Prelude.

Open Scope Z_scope.

Definition f64 : Type := spec_float.
Definition f32 : Type := spec_float.

(** [x as f64] for an integer [x] (round to nearest, ties to even). *)
Definition f64_of_int (z : Z) : f64 := binary_normalize 53 1024 z 0 false.
Definition f64_div : f64 → f64 → f64 := SFdiv 53 1024.
Definition f64_mul : f64 → f64 → f64 := SFmul 53 1024.
Definition f64_add : f64 → f64 → f64 := SFadd 53 1024.
Definition f64_zero : f64 := S754_zero false.
Definition f32_zero : f32 := S754_zero false.

(** [a < b], [a >= b], [a == b]: false on a NaN. *)
Definition f64_ltb : f64 → f64 → bool := SFltb.
Definition f64_gtb (a b : f64) : bool := SFltb b a.
Definition f64_geb (a b : f64) : bool := SFleb b a.
Definition f32_eqb : f32 → f32 → bool := SFeqb.

(** [f64::max]: the other operand when one is a NaN. *)
Definition f64_max (a b : f64) : f64 :=
  match a, b with
  | S754_nan, _ => b
  | _, S754_nan => a
  | _, _ => if SFltb a b then b else a
  end.

(** [a.partial_cmp(&b).unwrap_or(Equal)]. *)
Definition f64_partial_cmp_or_eq (a b : f64) : comparison :=
  default Eq (SFcompare a b).

(** [f64::total_cmp]: the IEEE 754 total order; a NaN of this model is a
    positive quiet NaN, the largest value. *)
Definition f64_total_cmp (a b : f64) : comparison :=
  match a, b with
  | S754_nan, S754_nan => Eq
  | S754_nan, _ => Gt
  | _, S754_nan => Lt
  | S754_zero sa, S754_zero sb =>
      match sa, sb with
      | true, false => Lt | false, true => Gt | _, _ => Eq
      end
  | _, _ => default Eq (SFcompare a b)
  end.

Lemma f32_eqb_refl (x : f32) : x ≠ S754_nan → f32_eqb x x = true.
Proof.
  intros Hx. unfold f32_eqb, SFeqb. destruct x as [[]|[]| |[] m e]; try done; simpl;
    rewrite Z.compare_refl, Pos.compare_cont_refl; done.
Qed.

(** ** [f32::to_bits]

    The bit pattern of a value: sign, eight exponent bits, 23 fraction bits.
    The NaN of this model is Rust's [f32::NAN]. *)
Definition sign_bit (s : bool) : Z := if s then 2 ^ 31 else 0.

Definition f32_bits (x : f32) : Z :=
  match x with
  | S754_zero s => sign_bit s
  | S754_infinity s => sign_bit s + 255 * 2 ^ 23
  | S754_nan => 255 * 2 ^ 23 + 2 ^ 22
  | S754_finite s m e =>
      if Z.pos m <? 2 ^ 23 then sign_bit s + Z.pos m
      else sign_bit s + (e + 150) * 2 ^ 23 + (Z.pos m - 2 ^ 23)
  end.

(** The value of a bit pattern. *)
Definition f32_of_bits (b : Z) : f32 :=
  let s := 2 ^ 31 <=? b in
  let ex := (b / 2 ^ 23) mod 256 in
  let fr := b mod 2 ^ 23 in
  if ex =? 0 then
    match fr with Z.pos m => S754_finite s m (-149) | _ => S754_zero s end
  else if ex =? 255 then if fr =? 0 then S754_infinity s else S754_nan
  else match fr + 2 ^ 23 with Z.pos m => S754_finite s m (ex - 150) | _ => S754_nan end.

Lemma digits2_pos_size m : digits2_pos m = Pos.size m.
Proof. induction m as [m IH|m IH|]; simpl; congruence. Qed.

(** A finite value is subnormal or has a 24-bit mantissa. *)
Lemma f32_valid_finite s m e :
  valid_binary 24 128 (S754_finite s m e) = true →
  (e = -149 ∧ Z.pos m < 2 ^ 23) ∨ (2 ^ 23 ≤ Z.pos m < 2 ^ 24 ∧ -149 ≤ e ≤ 104).
Proof.
  simpl. unfold bounded, canonical_mantissa, fexp, emin. rewrite digits2_pos_size.
  intros [H1 H2]%andb_prop. apply Z.eqb_eq in H1. apply Z.leb_le in H2.
  pose proof (Pos.size_gt m) as Hgt. pose proof (Pos.size_le m) as Hle.
  apply Pos2Z.pos_lt_pos in Hgt. apply Pos2Z.pos_le_pos in Hle.
  rewrite Pos2Z.inj_pow in Hgt, Hle. rewrite Pos2Z.inj_xO in Hle.
  set (d := Z.pos (Pos.size m)) in *.
  assert (d ≤ 23 ∨ d = 24) as [Hd|Hd] by lia.
  - left. split; [lia|]. assert (2 ^ d ≤ 2 ^ 23) by (apply Z.pow_le_mono_r; lia). lia.
  - right. rewrite Hd in *. lia.
Qed.

Lemma f32_bits_bound x : valid_binary 24 128 x = true → 0 ≤ f32_bits x < 2 ^ 32.
Proof.
  destruct x as [s|s| |s m e]; intros Hv; unfold f32_bits, sign_bit; try (destruct s; lia); [lia|].
  apply f32_valid_finite in Hv. destruct (Z.ltb_spec (Z.pos m) (2 ^ 23)); destruct s; lia.
Qed.

Lemma f32_of_bits_parts s ex fr :
  0 ≤ ex < 256 → 0 ≤ fr < 2 ^ 23 →
  let b := sign_bit s + ex * 2 ^ 23 + fr in
  (2 ^ 31 <=? b) = s ∧ (b / 2 ^ 23) mod 256 = ex ∧ b mod 2 ^ 23 = fr.
Proof.
  intros He Hf b. subst b. unfold sign_bit. split_and!.
  - destruct s; [apply Z.leb_le|apply Z.leb_gt]; lia.
  - replace (_ + ex * 2 ^ 23 + fr) with ((ex + if s then 256 else 0) * 2 ^ 23 + fr) by (destruct s; lia).
    rewrite Z.div_add_l, (Z.div_small fr), Z.add_0_r by lia.
    replace (ex + if s then 256 else 0) with (ex + (if s then 1 else 0) * 256) by (destruct s; lia).
    rewrite Z.mod_add by lia. by apply Z.mod_small.
  - replace (_ + ex * 2 ^ 23 + fr) with (fr + (ex + if s then 256 else 0) * 2 ^ 23) by (destruct s; lia).
    rewrite Z.mod_add by lia. by apply Z.mod_small.
Qed.

Lemma f32_of_bits_bits x : valid_binary 24 128 x = true → f32_of_bits (f32_bits x) = x.
Proof.
  intros Hv. unfold f32_bits. destruct x as [s|s| |s m e].
  - by destruct s.
  - by destruct s.
  - done.
  - apply f32_valid_finite in Hv. destruct (Z.ltb_spec (Z.pos m) (2 ^ 23)) as [Hm|Hm].
    + destruct (f32_of_bits_parts s 0 (Z.pos m)) as (H1 & H2 & H3); [lia..|].
      replace (sign_bit s + Z.pos m) with (sign_bit s + 0 * 2 ^ 23 + Z.pos m) by lia.
      unfold f32_of_bits. rewrite H1, H2, H3. simpl. f_equal. lia.
    + destruct Hv as [?|[Hb He]]; [lia|].
      destruct (f32_of_bits_parts s (e + 150) (Z.pos m - 2 ^ 23)) as (H1 & H2 & H3); [lia..|].
      unfold f32_of_bits. rewrite H1, H2, H3.
      rewrite (proj2 (Z.eqb_neq _ _)), (proj2 (Z.eqb_neq _ _)) by lia.
      rewrite Z.sub_add. f_equal. lia.
Qed.
