(* ===== verification/Core.v ===== *)
(** * The policy model

    [crates/blackwall-core]: the configuration types ([policy.rs], [port.rs],
    [proto.rs], [target.rs], [shape.rs], [flux.rs], [dns.rs], [engine.rs],
    [flowtable.rs], [flowspec.rs], [api.rs], [pop.rs], [xdp.rs], [rtbh.rs],
    [md5secret.rs]), the expansion of a policy into concrete services
    ([resolve.rs]) and the identity of an instance ([instance.rs]). Text is a
    [string] of UTF-8 bytes. *)
From stdpp Require Import prelude gmap strings.
From S2P Require Import Prelude Net Float.

Open Scope Z_scope.

(** ** Standard library *)

(** [SocketAddr]; the scope identifier is an IPv6 one's. *)
Record SocketAddr := { sa_ip : IpAddr; sa_port : Z; sa_scope : Z }.
Definition socket_addr_new (ip : IpAddr) (port : Z) : SocketAddr :=
  {| sa_ip := ip; sa_port := port; sa_scope := 0 |}.
Definition sa_is_ipv4 (a : SocketAddr) : bool := ip_is_v4 (sa_ip a).

(** [Duration::from_secs]. *)
Definition from_secs (n : Z) : Duration := {| secs := n; nanos := 0 |}.

(** ** Configuration types *)

Inductive PortState : Type := Closed | Deception | Open_.
Inductive L4Proto : Type := Tcp | Udp.
#[export] Instance PortState_eq_dec : EqDecision PortState.
Proof. solve_decision. Defined.
#[export] Instance L4Proto_eq_dec : EqDecision L4Proto.
Proof. solve_decision. Defined.

(** [Display for L4Proto]. *)
Definition proto_string (p : L4Proto) : string := match p with Tcp => "tcp" | Udp => "udp" end.

Inductive ServiceTarget : Type := Host | Incus (name : string) | Nat_ (addr : SocketAddr).

Record AllowRule := {
  al_proto : L4Proto; al_port : Z; al_target : ServiceTarget; al_scope : option IpAddr;
}.

Record Tenant := { te_name : string; te_owned : list IpAddr; te_allows : list AllowRule }.

Inductive ShapeBandwidth : Type := BwAuto | BwFixed (mbit : Z).
Record ShapeRule := {
  sh_iface : string; sh_download : ShapeBandwidth; sh_upload : ShapeBandwidth; sh_rtt_ms : option Z;
}.

Record BannerFluxConfig := { bf_dir : string; bf_period : Duration }.

Definition DEFAULT_MAX_CONCURRENT : Z := 1024.
Definition DEFAULT_SESSION_TIMEOUT_SECS : Z := 60.
Definition DEFAULT_TPROXY_PORT : Z := 61000.
Definition DEFAULT_NFQUEUE_NUM : Z := 0.

Record EngineConfig := {
  max_concurrent : Z; session_timeout_secs : Z; tproxy_port : Z; nfqueue_num : Z;
}.
Definition engine_default : EngineConfig := {|
  max_concurrent := DEFAULT_MAX_CONCURRENT; session_timeout_secs := DEFAULT_SESSION_TIMEOUT_SECS;
  tproxy_port := DEFAULT_TPROXY_PORT; nfqueue_num := DEFAULT_NFQUEUE_NUM |}.

Record FlowTableConfig := { ft_devices : list string }.

Record FlowSpecPolicy := {
  fp_concentration : f64; fp_max_flows : Z; fp_rate : f32; fp_max_rules : Z;
  fp_hold_down : Duration; fp_max_ttl : option Duration;
}.

Record ApiConfig := { api_listen : SocketAddr; api_token_file : string }.

Record PopEntry := { pe_name : string; pe_agent : IpAddr; pe_sampling : Z }.

Inductive XdpMode : Type := XdpAuto | XdpNative | XdpGeneric.
Definition DEFAULT_SYN_COOKIE_TX_CAP_PPS : Z := 1000.
Record XdpConfig := {
  xc_interface : option string; xc_mode : XdpMode; xc_default_rate_limit_pps : option Z;
  xc_cookie_ports : list Z; xc_afxdp_udp_ports : list Z; xc_afxdp_udp_banner : option (list Z);
  xc_syn_cookie_tx_cap : Z;
}.

(** A secret, with the text it prints as. *)
Record Md5Secret := { secret : string }.
Definition md5_new (s : string) : Md5Secret := {| secret := s |}.
Definition reveal (s : Md5Secret) : string := secret s.
Definition md5_debug (_ : Md5Secret) : string := "Md5Secret(***)".

Record RtbhPolicy := {
  rp_local_asn : Z; rp_peer_asn : Z; rp_peer_addr : SocketAddr;
  (** An [Ipv4Addr] and the two next hops are the integer values of the address. *)
  rp_router_id : Z;
  rp_blackhole_communities : list (Z * Z);
  rp_next_hop_v4 : option Z; rp_next_hop_v6 : option Z;
  rp_max_blackholes : Z; rp_hold_down : Duration; rp_max_ttl : option Duration;
  rp_md5 : option Md5Secret; rp_gtsm_hops : option Z; rp_local_addr : option IpAddr;
  rp_max_new_per_min : option Z;
}.

(** ** Placeholder next hops *)

Definition is_placeholder_v4 (a : Z) : bool :=
  match ip_octets (V4 a) with
  | [o0; o1; o2; _] =>
      ((o0 =? 192) && (o1 =? 0) && (o2 =? 2)) || ((o0 =? 198) && (o1 =? 51) && (o2 =? 100)) ||
      ((o0 =? 203) && (o1 =? 0) && (o2 =? 113))
  | _ => false
  end.

(** [segments()[i]]: the [i]-th 16-bit group. *)
Definition segment (a : Z) (i : nat) : Z := (a / 65536 ^ (7 - Z.of_nat i)) mod 65536.

Definition is_placeholder_v6 (a : Z) : bool :=
  ((segment a 0 =? 8193) && (segment a 1 =? 3512)) ||
  ((segment a 0 =? 256) && (segment a 1 =? 0) && (segment a 2 =? 0) && (segment a 3 =? 0)).

Definition placeholder_next_hops (p : RtbhPolicy) : list IpAddr :=
  match rp_next_hop_v4 p with Some v4 => if is_placeholder_v4 v4 then [V4 v4] else [] | None => [] end ++
  match rp_next_hop_v6 p with Some v6 => if is_placeholder_v6 v6 then [V6 v6] else [] | None => [] end.

Inductive NextHopVerdict : Type :=
| NhOk
| PlaceholderWithCommunity (l : list IpAddr)
| PlaceholderNoCommunity (l : list IpAddr).

Definition next_hop_verdict (p : RtbhPolicy) : NextHopVerdict :=
  match placeholder_next_hops p with
  | [] => NhOk
  | l => match rp_blackhole_communities p with [] => PlaceholderNoCommunity l | _ => PlaceholderWithCommunity l end
  end.

(** ** Instances *)

Definition DEFAULT_NFT_TABLE : string := "blackwall".
Definition DEFAULT_TPROXY_MARK : Z := 1.
Definition DEFAULT_ROUTE_TABLE : Z := 100.

Record InstanceIds := { nft_table : string; tproxy_mark : Z; route_table : Z }.

(** The bytes of a string. *)
Fixpoint str_bytes (s : string) : list Z :=
  match s with EmptyString => [] | String c s => Z.of_N (Ascii.N_of_ascii c) :: str_bytes s end.

Definition fnv1a64 (s : string) : Z :=
  foldl (λ hash b, (Z.lxor hash b * 1099511628211) mod (u64_max + 1)) 14695981039346656037 (str_bytes s).

Definition derive (instance : option string) : InstanceIds :=
  match instance with
  | None => {| nft_table := DEFAULT_NFT_TABLE; tproxy_mark := DEFAULT_TPROXY_MARK;
               route_table := DEFAULT_ROUTE_TABLE |}
  | Some name =>
      let h := fnv1a64 name in
      let lo := Z.land h 4294967295 in
      let hi := Z.shiftr h 32 in
      {| nft_table := String.append "blackwall_" name;
         tproxy_mark := Z.lor 2147483648 (Z.land lo 2147483647);
         route_table := Z.lor 1073741824 (Z.land hi 1073741823) |}
  end.

Section policy.
Context `{IpNetLib}.

Record DnsFluxConfig := {
  df_server : SocketAddr; df_zone : string; df_name : string; df_prefix : IpNet; df_count : Z; df_set : Z;
  df_period : Duration; df_ttl : Z; df_tsig_path : string;
}.

Record Policy := {
  interface : string;
  prefixes : list IpNet;
  default_state : PortState;
  tenants : list Tenant;
  shaping : list ShapeRule;
  banner_flux : option BannerFluxConfig;
  dns_flux : option DnsFluxConfig;
  rtbh : option RtbhPolicy;
  flowspec : option FlowSpecPolicy;
  metrics_listen : option SocketAddr;
  api : option ApiConfig;
  pops : list PopEntry;
  engine : EngineConfig;
  flowtable : option FlowTableConfig;
  xdp : option XdpConfig;
  stateless_tcp_ports : list Z;
  shadow : bool;
  protected_prefixes : list IpNet;
  rpki_validator : option string;
  rpki_check_interval : Duration;
  instance : option string;
}.

(** ** Resolution *)

Record ResolvedService := {
  rs_addr : IpAddr; rs_proto : L4Proto; rs_port : Z; rs_target : ServiceTarget; rs_tenant : string;
}.

Inductive PolicyError : Type :=
| AddressOutsidePrefixes (addr : IpAddr)
| DuplicateOwnership (addr : IpAddr) (tenants : string * string)
| DuplicateService (addr : IpAddr) (proto : L4Proto) (port : Z).

Definition owner_of (p : Policy) (addr : IpAddr) : option string :=
  te_name <$> List.find (λ t, bool_decide (addr ∈ te_owned t)) (tenants p).

(** The first pass over one tenant's addresses. *)
Fixpoint check_owned (p : Policy) (name : string) (owned : list IpAddr) (seen : list (IpAddr * string))
    : result (list (IpAddr * string)) PolicyError :=
  match owned with
  | [] => Ok seen
  | addr :: owned =>
      if negb (existsb (λ n, net_contains n addr) (prefixes p)) then Err (AddressOutsidePrefixes addr)
      else match List.find (λ e, bool_decide (e.1 = addr)) seen with
           | Some (_, other) => Err (DuplicateOwnership addr (other, name))
           | None => check_owned p name owned (seen ++ [(addr, name)])
           end
  end.

Fixpoint check_tenants (p : Policy) (ts : list Tenant) (seen : list (IpAddr * string))
    : result (list (IpAddr * string)) PolicyError :=
  match ts with
  | [] => Ok seen
  | t :: ts => result_bind (check_owned p (te_name t) (te_owned t) seen) (check_tenants p ts)
  end.

(** The second pass: one address, one tenant, all tenants. *)
Fixpoint resolve_allows (t : Tenant) (addr : IpAddr) (allows : list AllowRule) (out : list ResolvedService)
    : result (list ResolvedService) PolicyError :=
  match allows with
  | [] => Ok out
  | a :: allows =>
      if match al_scope a with Some scoped => negb (bool_decide (scoped = addr)) | None => false end
      then resolve_allows t addr allows out
      else if existsb (λ s, bool_decide (rs_addr s = addr) && bool_decide (rs_proto s = al_proto a) &&
                            (rs_port s =? al_port a)) out
      then Err (DuplicateService addr (al_proto a) (al_port a))
      else resolve_allows t addr allows
             (out ++ [{| rs_addr := addr; rs_proto := al_proto a; rs_port := al_port a;
                         rs_target := al_target a; rs_tenant := te_name t |}])
  end.

Fixpoint resolve_owned (t : Tenant) (owned : list IpAddr) (out : list ResolvedService)
    : result (list ResolvedService) PolicyError :=
  match owned with
  | [] => Ok out
  | addr :: owned => result_bind (resolve_allows t addr (te_allows t) out) (resolve_owned t owned)
  end.

Fixpoint resolve_tenants (ts : list Tenant) (out : list ResolvedService)
    : result (list ResolvedService) PolicyError :=
  match ts with
  | [] => Ok out
  | t :: ts => result_bind (resolve_owned t (te_owned t) out) (resolve_tenants ts)
  end.

Definition resolve (p : Policy) : result (list ResolvedService) PolicyError :=
  result_bind (check_tenants p (tenants p) []) (λ _, resolve_tenants (tenants p) []).

(** ** What a policy declares *)

(** Who owns what, and the services of the tenants, in file order. *)
Definition ownership (ts : list Tenant) : list (IpAddr * string) :=
  ts ≫= λ t, (λ a, (a, te_name t)) <$> te_owned t.

Definition applies (a : AllowRule) (addr : IpAddr) : bool :=
  match al_scope a with Some scoped => bool_decide (scoped = addr) | None => true end.

Definition declared (ts : list Tenant) : list ResolvedService :=
  ts ≫= λ t, te_owned t ≫= λ addr,
    (λ a, {| rs_addr := addr; rs_proto := al_proto a; rs_port := al_port a; rs_target := al_target a;
             rs_tenant := te_name t |}) <$> filter (λ a, applies a addr = true) (te_allows t).

Definition service_key (s : ResolvedService) : IpAddr * L4Proto * Z := (rs_addr s, rs_proto s, rs_port s).

Definition managed (p : Policy) (addr : IpAddr) : Prop := ∃ n, n ∈ prefixes p ∧ net_contains n addr = true.

Lemma managed_dec p addr : existsb (λ n, net_contains n addr) (prefixes p) = true ↔ managed p addr.
Proof. rewrite existsb_exists. unfold managed. by setoid_rewrite list_elem_of_In. Qed.

(** The two passes, over the flat lists. *)
Fixpoint check_pairs (p : Policy) (l seen : list (IpAddr * string))
    : result (list (IpAddr * string)) PolicyError :=
  match l with
  | [] => Ok seen
  | (addr, name) :: l =>
      if negb (existsb (λ n, net_contains n addr) (prefixes p)) then Err (AddressOutsidePrefixes addr)
      else match List.find (λ e, bool_decide (e.1 = addr)) seen with
           | Some (_, other) => Err (DuplicateOwnership addr (other, name))
           | None => check_pairs p l (seen ++ [(addr, name)])
           end
  end.

Fixpoint add_services (l out : list ResolvedService) : result (list ResolvedService) PolicyError :=
  match l with
  | [] => Ok out
  | s :: l =>
      if existsb (λ s', bool_decide (rs_addr s' = rs_addr s) && bool_decide (rs_proto s' = rs_proto s) &&
                        (rs_port s' =? rs_port s)) out
      then Err (DuplicateService (rs_addr s) (rs_proto s) (rs_port s))
      else add_services l (out ++ [s])
  end.

Lemma check_pairs_app p l1 l2 seen :
  check_pairs p (l1 ++ l2) seen = result_bind (check_pairs p l1 seen) (check_pairs p l2).
Proof.
  revert seen. induction l1 as [|[a n] l1 IH]; intros seen; [done|]. cbn [app check_pairs].
  destruct (negb _); [done|]. destruct (List.find _ _) as [[]|]; [done|]. apply IH.
Qed.

Lemma add_services_app l1 l2 out :
  add_services (l1 ++ l2) out = result_bind (add_services l1 out) (add_services l2).
Proof.
  revert out. induction l1 as [|s l1 IH]; intros out; [done|]. cbn [app add_services].
  destruct (existsb _ _); [done|]. apply IH.
Qed.

Lemma check_tenants_flat p ts seen : check_tenants p ts seen = check_pairs p (ownership ts) seen.
Proof.
  revert seen. induction ts as [|t ts IH]; intros seen; [done|]. unfold ownership. cbn [check_tenants mbind list_bind].
  rewrite check_pairs_app. assert (∀ l seen, check_owned p (te_name t) l seen = check_pairs p ((λ a, (a, te_name t)) <$> l) seen) as ->.
  { clear. intros l. induction l as [|a l IH]; intros seen; [done|]. cbn.
    destruct (negb _); [done|]. destruct (List.find _ _) as [[]|]; [done|]. apply IH. }
  destruct (check_pairs _ _ seen); [|done]. apply IH.
Qed.

Lemma resolve_tenants_flat ts out : resolve_tenants ts out = add_services (declared ts) out.
Proof.
  assert (∀ t addr l out, resolve_allows t addr l out
    = add_services ((λ a, {| rs_addr := addr; rs_proto := al_proto a; rs_port := al_port a; rs_target := al_target a;
             rs_tenant := te_name t |}) <$> filter (λ a, applies a addr = true) l) out) as Ha.
  { intros t addr l. induction l as [|a l IH]; intros o; [done|]. cbn [resolve_allows].
    assert (match al_scope a with Some scoped => negb (bool_decide (scoped = addr)) | None => false end
      = negb (applies a addr)) as -> by (unfold applies; by destruct (al_scope a)).
    rewrite filter_cons. destruct (applies a addr) eqn:Happ; cbn [negb]; [|by rewrite decide_False].
    rewrite decide_True by done. cbn [fmap list_fmap add_services rs_addr rs_proto rs_port].
    destruct (existsb _ _); [done|]. apply IH. }
  assert (∀ t l out, resolve_owned t l out
    = add_services (l ≫= λ addr, (λ a, {| rs_addr := addr; rs_proto := al_proto a; rs_port := al_port a;
        rs_target := al_target a; rs_tenant := te_name t |}) <$> filter (λ a, applies a addr = true) (te_allows t)) out) as Ho.
  { intros t l. induction l as [|addr l IH]; intros o; [done|]. cbn [resolve_owned mbind list_bind].
    rewrite Ha, add_services_app. destruct (add_services _ o); [|done]. apply IH. }
  revert out. induction ts as [|t ts IH]; intros out; [done|]. unfold declared. cbn [resolve_tenants mbind list_bind].
  rewrite Ho, add_services_app. destruct (add_services _ out); [|done]. apply IH.
Qed.

(** Why the first pass stops: the pair at which it does. *)
Definition ownership_error (p : Policy) (l : list (IpAddr * string)) (e : PolicyError) : Prop :=
  match e with
  | AddressOutsidePrefixes a => a ∈ l.*1 ∧ ¬ managed p a
  | DuplicateOwnership a (n1, n2) => ∃ l1 l2 l3, l = l1 ++ (a, n1) :: l2 ++ (a, n2) :: l3
  | DuplicateService _ _ _ => False
  end.

Definition service_error (l : list ResolvedService) (e : PolicyError) : Prop :=
  match e with
  | DuplicateService a pr po => ∃ l1 s1 l2 s2 l3, l = l1 ++ s1 :: l2 ++ s2 :: l3 ∧
      service_key s1 = (a, pr, po) ∧ service_key s2 = (a, pr, po)
  | _ => False
  end.

Lemma find_owner (seen : list (IpAddr * string)) addr :
  match List.find (λ e, bool_decide (e.1 = addr)) seen with
  | Some (a, n) => a = addr ∧ (addr, n) ∈ seen
  | None => addr ∉ seen.*1
  end.
Proof.
  induction seen as [|[a n] seen IH]; cbn; [by intros ?%elem_of_nil|].
  destruct (bool_decide_reflect (a = addr)) as [->|Hne]; [split; [done|left]|].
  destruct (List.find _ seen) as [[]|]; [destruct IH; split; [done|by right]|].
  rewrite elem_of_cons. intros [?|?]; [by subst|done].
Qed.

Lemma check_pairs_spec p l seen :
  NoDup seen.*1 →
  match check_pairs p l seen with
  | Ok r => r = seen ++ l ∧ (∀ a, a ∈ l.*1 → managed p a) ∧ NoDup (seen ++ l).*1
  | Err e => ownership_error p (seen ++ l) e ∧ ¬ ((∀ a, a ∈ l.*1 → managed p a) ∧ NoDup (seen ++ l).*1)
  end.
Proof.
  revert seen. induction l as [|[a n] l IH]; intros seen Hnd; cbn [check_pairs].
  { rewrite app_nil_r. split; [done|]. split; [|done]. by intros a ?%elem_of_nil. }
  destruct (existsb _ _) eqn:Hm; cbn [negb].
  2:{ assert (¬ managed p a) as Hno by (rewrite <- managed_dec; congruence).
      split; [split; [|done]|]; rewrite ?fmap_app, ?elem_of_app; [right; left|].
      intros [Hall _]. apply Hno, Hall. left. }
  apply managed_dec in Hm. pose proof (find_owner seen a) as Hf. destruct (List.find _ _) as [[a' n']|].
  - destruct Hf as [-> Hin]. pose proof Hin as (l1 & l2 & ->)%list_elem_of_split. split.
    + exists l1, l2, l. by rewrite <- app_assoc.
    + intros [_ Hd]. rewrite fmap_app in Hd. apply NoDup_app in Hd as (_ & Hd & _).
      apply (Hd a); [|left]. apply list_elem_of_fmap. by exists (a, n').
  - specialize (IH (seen ++ [(a, n)])). rewrite <- app_assoc in IH. cbn [app] in IH.
    assert (NoDup (seen ++ [(a, n)]).*1) as Hnd'.
    { rewrite fmap_app. apply NoDup_app. split_and!; [done| |apply NoDup_singleton].
      intros x Hx. cbn. rewrite list_elem_of_singleton. by intros ->. }
    specialize (IH Hnd'). destruct (check_pairs p l _) as [r|e].
    + destruct IH as (-> & Hall & Hd). split; [done|]. split; [|done].
      intros x. cbn. rewrite elem_of_cons. intros [->|]; auto.
    + destruct IH as [He Hno]. split; [done|]. intros [Hall Hd]. apply Hno. split; [|done].
      intros x Hx. apply Hall. by right.
Qed.

Lemma service_taken out s :
  existsb (λ s', bool_decide (rs_addr s' = rs_addr s) && bool_decide (rs_proto s' = rs_proto s) &&
    (rs_port s' =? rs_port s)) out = true ↔ service_key s ∈ service_key <$> out.
Proof.
  rewrite existsb_exists, list_elem_of_fmap. unfold service_key. split.
  - intros (s' & Hin & Hk). exists s'. rewrite !andb_true_iff, !bool_decide_eq_true, Z.eqb_eq in Hk.
    destruct Hk as [[-> ->] ->]. split; [done|by apply list_elem_of_In].
  - intros (s' & [= Ha Hp Ho] & Hin). exists s'. split; [by apply list_elem_of_In|].
    rewrite !andb_true_iff, !bool_decide_eq_true, Z.eqb_eq. done.
Qed.

Lemma add_services_spec l out :
  NoDup (service_key <$> out) →
  match add_services l out with
  | Ok r => r = out ++ l ∧ NoDup (service_key <$> (out ++ l))
  | Err e => service_error (out ++ l) e ∧ ¬ NoDup (service_key <$> (out ++ l))
  end.
Proof.
  revert out. induction l as [|s l IH]; intros out Hnd; cbn [add_services]; [by rewrite app_nil_r|].
  destruct (existsb _ _) eqn:Hx.
  - apply service_taken in Hx. split.
    + apply list_elem_of_fmap in Hx as (s' & Hk & (l1 & l2 & ->)%list_elem_of_split).
      exists l1, s', l2, s, l. rewrite <- app_assoc, <- Hk. done.
    + rewrite fmap_app. intros (_ & Hd & _)%NoDup_app. apply (Hd _ Hx). left.
  - assert (service_key s ∉ service_key <$> out) as Hni by (rewrite <- service_taken; congruence).
    specialize (IH (out ++ [s])). rewrite <- app_assoc in IH. apply IH.
    rewrite fmap_app. apply NoDup_app. split_and!; [done| |apply NoDup_singleton].
    intros x Hk. cbn. rewrite list_elem_of_singleton. by intros ->.
Qed.

Lemma resolve_spec p :
  (∀ out, resolve p = Ok out ↔
    out = declared (tenants p) ∧ (∀ a, a ∈ (ownership (tenants p)).*1 → managed p a) ∧
    NoDup (ownership (tenants p)).*1 ∧ NoDup (service_key <$> declared (tenants p))) ∧
  (∀ e, resolve p = Err e →
    ownership_error p (ownership (tenants p)) e ∨ service_error (declared (tenants p)) e).
Proof.
  unfold resolve. rewrite check_tenants_flat.
  pose proof (check_pairs_spec p (ownership (tenants p)) [] (NoDup_nil_2)) as Hc. cbn [app] in Hc.
  destruct (check_pairs _ _ _) as [r|e]; cbn [result_bind].
  2:{ destruct Hc as [He Hno]. split; [|intros e' [= <-]; by left]. intros out. split; [done|].
      intros (_ & ? & ? & _). by destruct Hno. }
  destruct Hc as (_ & Hm & Hd). rewrite resolve_tenants_flat.
  pose proof (add_services_spec (declared (tenants p)) [] (NoDup_nil_2)) as Hs. cbn [app] in Hs.
  destruct (add_services _ _) as [o|e].
  - destruct Hs as [-> Hnd]. split; [|done]. intros out. split; [intros [= <-]; done|]. by intros (-> & _).
  - destruct Hs as [He Hno]. split; [|intros e' [= <-]; by right]. intros out. split; [done|]. by intros (_ & _ & _ & ?).
Qed.

Lemma resolve_ok p out :
  resolve p = Ok out →
  out = declared (tenants p) ∧ (∀ a, a ∈ (ownership (tenants p)).*1 → managed p a) ∧
  NoDup (ownership (tenants p)).*1 ∧ NoDup (service_key <$> declared (tenants p)).
Proof. apply resolve_spec. Qed.

(** C34: a policy resolves exactly when it is consistent, to exactly the
    services it declares. [resolve] succeeds if and only if every owned address
    lies in a managed prefix, no address is owned twice, and no address,
    protocol and port is exposed twice; the result is then the list of the
    declared services, each once, in file order. Otherwise the error names a
    real conflict: an owned address outside every prefix, two tenants that own
    the same address (in file order), or a service declared twice. *)
Theorem resolve_exact p :
  (∀ out, resolve p = Ok out ↔
    out = declared (tenants p) ∧ (∀ a, a ∈ (ownership (tenants p)).*1 → managed p a) ∧
    NoDup (ownership (tenants p)).*1 ∧ NoDup (service_key <$> declared (tenants p))) ∧
  (∀ e, resolve p = Err e →
    ownership_error p (ownership (tenants p)) e ∨ service_error (declared (tenants p)) e).
Proof. apply resolve_spec. Qed.
End policy.

(** ** Instances do not share kernel resources *)

Lemma str_bytes_ok s : Forall (λ b, 0 ≤ b < 256) (str_bytes s).
Proof.
  induction s as [|c s IH]; [constructor|]. cbn. constructor; [|done].
  pose proof (Ascii.N_ascii_bounded c). lia.
Qed.

Lemma fnv1a64_bound s : 0 ≤ fnv1a64 s ≤ u64_max.
Proof.
  unfold fnv1a64. assert (∀ l h, 0 ≤ h ≤ u64_max →
    0 ≤ foldl (λ hash b, (Z.lxor hash b * 1099511628211) mod (u64_max + 1)) h l ≤ u64_max) as Hl.
  { induction l as [|b l IH]; intros h Hh; [done|]. apply IH. unfold u64_max.
    pose proof (Z.mod_pos_bound (Z.lxor h b * 1099511628211) (18446744073709551615 + 1)). lia. }
  apply Hl. unfold u64_max. lia.
Qed.

Lemma lor_high_bit k x : 0 ≤ k → 0 ≤ x < 2 ^ k → Z.lor (2 ^ k) x = 2 ^ k + x.
Proof.
  intros Hk Hx. assert (Z.land (2 ^ k) x = 0) as Hl.
  { apply Z.bits_inj'. intros n Hn. rewrite Z.land_spec, Z.bits_0, Z.pow2_bits_eqb by lia.
    destruct (Z.eqb_spec k n) as [->|]; [|done]. rewrite <- (Z.mod_small x (2 ^ n)) by lia.
    by rewrite Z.mod_pow2_bits_high by lia. }
  by rewrite <- Z.lxor_lor, <- Z.add_nocarry_lxor by done.
Qed.

Lemma append_inj p a b : String.append p a = String.append p b → a = b.
Proof. induction p as [|c p IH]; cbn; [done|]. intros [= ?]. auto. Qed.

Lemma mark_bounds name : 2147483648 ≤ tproxy_mark (derive (Some name)) ≤ u32_max.
Proof.
  cbn [derive tproxy_mark]. change 2147483647 with (Z.ones 31). rewrite Z.land_ones by lia.
  set (x := _ mod _). assert (0 ≤ x < 2 ^ 31) by (apply Z.mod_pos_bound; lia).
  change 2147483648 with (2 ^ 31). rewrite lor_high_bit by lia. unfold u32_max. lia.
Qed.

Lemma route_bounds name : 1073741824 ≤ route_table (derive (Some name)) < 2147483648.
Proof.
  cbn [derive route_table]. change 1073741823 with (Z.ones 30). rewrite Z.land_ones by lia.
  set (x := _ mod _). assert (0 ≤ x < 2 ^ 30) by (apply Z.mod_pos_bound; lia).
  change 1073741824 with (2 ^ 30). rewrite lor_high_bit by lia. lia.
Qed.

Lemma derive_bounds i : 0 ≤ tproxy_mark (derive i) ≤ u32_max ∧ 0 ≤ route_table (derive i) ≤ u32_max.
Proof.
  destruct i as [name|]; [|cbn; unfold DEFAULT_TPROXY_MARK, DEFAULT_ROUTE_TABLE, u32_max; lia].
  pose proof (mark_bounds name). pose proof (route_bounds name). unfold u32_max in *. lia.
Qed.

Lemma derive_table_inj a b : nft_table (derive a) = nft_table (derive b) → a = b.
Proof.
  destruct a as [x|], b as [y|]; cbn [derive nft_table]; [|done..].
  intros He. f_equal. by apply append_inj in He.
Qed.

(** Instances keep to their own kernel resources. Two instances with
    different names (or one without) have different tables, so neither flushes
    the other's rules. A named instance's mark is a 32-bit value with the top
    bit set and its route table one with the next bit set and the top bit
    clear: they differ from each other and from the default instance's. *)
Theorem instance_ids_separate a b name :
  (nft_table (derive a) = nft_table (derive b) → a = b) ∧
  2147483648 ≤ tproxy_mark (derive (Some name)) ≤ u32_max ∧
  1073741824 ≤ route_table (derive (Some name)) < 2147483648 ∧
  tproxy_mark (derive (Some name)) ≠ DEFAULT_TPROXY_MARK ∧
  route_table (derive (Some name)) ≠ DEFAULT_ROUTE_TABLE ∧
  tproxy_mark (derive (Some name)) ≠ route_table (derive (Some name)).
Proof.
  pose proof (mark_bounds name). pose proof (route_bounds name).
  split; [apply derive_table_inj|unfold DEFAULT_TPROXY_MARK, DEFAULT_ROUTE_TABLE; lia].
Qed.
