(* ===== verification/Flow.v ===== *)
(** * Flow detection data

    The data exchanged between the detector and the mitigation planes:
    [crates/blackwall-flow/src/detector.rs] (events), [observation.rs] and
    [select.rs] (rules). *)
From stdpp Require Import prelude gmap strings.
From S2P Require Import Prelude Net Float.

Open Scope Z_scope.

(** One sampled packet ([observation.rs]). *)
Record FlowObservation := {
  o_src : IpAddr;
  o_dst : IpAddr;
  o_proto : Z;
  o_src_port : Z;
  o_dst_port : Z;
  o_frame_len : Z;
  o_sampling_rate : Z;
  o_tcp_flags : Z;
  o_agent : IpAddr;
}.

Inductive AttackKind : Type := Volumetric.

Inductive Severity : Type := Warning | High | Critical.

Record PopContribution := { pc_pop : string; pc_est_pps : f64; pc_est_bps : f64 }.

Section flow.
Context `{IpNetLib}.

Record Detection := {
  d_target : IpAddr;
  d_kind : AttackKind;
  d_observed_pps : f64;
  d_observed_bps : f64;
  d_proto : Z;
  d_top_sources : list (IpAddr * f64);
  d_top_ports : list (Z * f64);
  d_pops : list PopContribution;
  d_top_source_blocks : list (IpNet * f64);
  d_severity : Severity;
  d_first_seen_ms : Z;
  d_last_seen_ms : Z;
}.

Inductive DetectionEvent : Type :=
| Opened (d : Detection)
| Updated (d : Detection)
| Cleared (target : IpAddr) (at_ms : Z).

Definition event_target (ev : DetectionEvent) : IpAddr :=
  match ev with
  | Opened d | Updated d => d_target d
  | Cleared t _ => t
  end.

(** A detection on a target with no attack details, for examples. *)
Definition ex_detection (t : IpAddr) : Detection := {|
  d_target := t; d_kind := Volumetric; d_observed_pps := f64_zero; d_observed_bps := f64_zero;
  d_proto := 17; d_top_sources := []; d_top_ports := []; d_pops := [];
  d_top_source_blocks := []; d_severity := High; d_first_seen_ms := 0; d_last_seen_ms := 0 |}.
End flow.

(** A flow-scoped rule chosen for a detection ([select.rs]). *)
Record FlowRule := { fr_dst : IpAddr; fr_proto : Z; fr_dst_port : Z; fr_rate : f32 }.
