(* ===== verification/Executor.v ===== *)
(** * The BGP seam

    Routes and FlowSpec rules ([crates/blackwall-bgp/src/route.rs],
    [flowspec.rs]), and the two dependency-inversion traits the mitigation
    managers of [crates/blackwall-rtbh] are generic over: the executor of BGP
    commands and the persistence journals ([manager.rs],
    [flowspec_manager.rs]). A trait is a class of operations on a state; the
    promise the managers rely on is a second class of laws over an observable
    table, so the managers' theorems hold for every lawful executor. *)
From stdpp Require Import prelude gmap strings.
From S2P Require Import Prelude Net Float.

Open Scope Z_scope.

Inductive Origin : Type := Igp | Egp | Incomplete.

(** [Origin::wire] *)
Definition origin_wire (o : Origin) : Z :=
  match o with Igp => 0 | Egp => 1 | Incomplete => 2 end.

(** [FlowAction::TrafficRate(rate)] is the only action. *)
Inductive FlowAction : Type := TrafficRate (rate : f32).

(** The derived [PartialEq]: the [f32] comparison. *)
Definition action_eqb (a b : FlowAction) : bool :=
  match a, b with TrafficRate x, TrafficRate y => f32_eqb x y end.

(** Why a mitigation is active ([controller.rs]). *)
Inductive BlackholeOrigin : Type := Auto | Manual.

#[export] Instance BlackholeOrigin_eq_dec : EqDecision BlackholeOrigin.
Proof. solve_decision. Defined.

(** [BgpError] carries no data; [JournalError] carries a message. *)
Inductive BgpError : Type := mk_BgpError.
Inductive JournalError : Type := mk_JournalError (msg : string).

(** ** Outcomes shared by the two managers *)

(** Why a manual request is rejected; the source renders these as messages. *)
Inductive RejectReason : Type :=
| RejDisarmed
| RejProtected
| RejIneligible
| RejNoNextHop.

Inductive ApplyOutcome : Type :=
| Applied
| Deferred
| Rejected (reason : RejectReason).

(** [AnnounceOutcome] of both managers. *)
Inductive AnnounceOutcome : Type := AnnApplied | RateCapped | Disarmed | Failed.

Section executor.
Context `{IpNetLib}.

Record Route := {
  prefix : IpNet;
  next_hop : IpAddr;
  route_origin : Origin;
  communities : list (Z * Z);
  large_communities : list (Z * Z * Z);
}.

Record FlowSpecRule := {
  dst : IpNet;
  protocol : option Z;
  dst_port : option Z;
  action : FlowAction;
}.

(** The traffic a rule matches: what its NLRI encodes, the action excluded. *)
Definition nlri_id (r : FlowSpecRule) : IpNet * option Z * option Z :=
  (net_trunc (dst r), protocol r, dst_port r).

(** Trait [BgpExecutor]. *)
Class BgpExecutor (B : Type) := {
  bgp_announce : Route → M B (result unit BgpError);
  bgp_withdraw : IpNet → M B (result unit BgpError);
  bgp_announce_flowspec : FlowSpecRule → M B (result unit BgpError);
  bgp_withdraw_flowspec : FlowSpecRule → M B (result unit BgpError);
}.

(** Trait [BlackholeJournal]. *)
Class BlackholeJournal (J : Type) := {
  j_record_announce : IpAddr → BlackholeOrigin → Z → M J (result unit JournalError);
  j_record_withdraw : IpAddr → Z → M J (result unit JournalError);
}.

(** Trait [FlowSpecJournal]. *)
Class FlowSpecJournal (J : Type) := {
  fj_record_announce : FlowSpecRule → BlackholeOrigin → Z → M J (result unit JournalError);
  fj_record_withdraw : FlowSpecRule → Z → M J (result unit JournalError);
}.

(** What a lawful executor promises: it owns a table of the routes and rules
    handed to the session; a successful command updates exactly its own entry,
    a failed one nothing. *)
Class BgpSpec (B : Type) `{BgpExecutor B} := {
  rib : B → gmap IpNet Route;
  fs_rib : B → gmap (IpNet * option Z * option Z) FlowSpecRule;
  announce_rib : ∀ r b,
    rib (exec (bgp_announce r) b)
    = if is_ok (eval (bgp_announce r) b) then <[prefix r := r]> (rib b) else rib b;
  announce_fs_rib : ∀ r b, fs_rib (exec (bgp_announce r) b) = fs_rib b;
  withdraw_rib : ∀ p b,
    rib (exec (bgp_withdraw p) b)
    = if is_ok (eval (bgp_withdraw p) b) then delete p (rib b) else rib b;
  withdraw_fs_rib : ∀ p b, fs_rib (exec (bgp_withdraw p) b) = fs_rib b;
  announce_flowspec_fs_rib : ∀ r b,
    fs_rib (exec (bgp_announce_flowspec r) b)
    = if is_ok (eval (bgp_announce_flowspec r) b)
      then <[nlri_id r := r]> (fs_rib b) else fs_rib b;
  announce_flowspec_rib : ∀ r b, rib (exec (bgp_announce_flowspec r) b) = rib b;
  withdraw_flowspec_fs_rib : ∀ r b,
    fs_rib (exec (bgp_withdraw_flowspec r) b)
    = if is_ok (eval (bgp_withdraw_flowspec r) b)
      then delete (nlri_id r) (fs_rib b) else fs_rib b;
  withdraw_flowspec_rib : ∀ r b, rib (exec (bgp_withdraw_flowspec r) b) = rib b;
}.

(** An operator's row stays one: an announcement never turns it into an
    automatic one. *)
Definition keep_manual (prior : option BlackholeOrigin) (o : BlackholeOrigin) : BlackholeOrigin :=
  match prior with Some Manual => Manual | _ => o end.

Lemma keep_manual_manual prior : keep_manual prior Manual = Manual.
Proof. by destruct prior as [[]|]. Qed.

(** What a lawful blackhole journal promises: one row per target; a successful
    write changes exactly its own row, a failed one nothing. *)
Class JournalSpec (J : Type) `{BlackholeJournal J} := {
  rows : J → gmap IpAddr BlackholeOrigin;
  record_announce_rows : ∀ t o at_ j,
    rows (exec (j_record_announce t o at_) j)
    = if is_ok (eval (j_record_announce t o at_) j)
      then <[t := keep_manual (rows j !! t) o]> (rows j) else rows j;
  record_withdraw_rows : ∀ t at_ j,
    rows (exec (j_record_withdraw t at_) j)
    = if is_ok (eval (j_record_withdraw t at_) j) then delete t (rows j) else rows j;
}.

(** ** Shadow mode ([shadow.rs])

    The executor wired under the [shadow] directive records what it would do
    and always succeeds; the recorder is the list of the recorded actions. *)
Inductive ShadowAction : Type :=
| RtbhAnnounce (r : Route)
| RtbhWithdraw (p : IpNet)
| FlowSpecAnnounce (r : FlowSpecRule)
| FlowSpecWithdraw (r : FlowSpecRule).

Record ShadowBgpExecutor := { recorder : list ShadowAction }.

(** [ShadowRecorder::record] of a recorder that keeps every action. *)
Definition record (a : ShadowAction) : M ShadowBgpExecutor unit :=
  modify (λ s, {| recorder := recorder s ++ [a] |}).

#[export] Instance ShadowBgpExecutor_exec : BgpExecutor ShadowBgpExecutor := {|
  bgp_announce r := record (RtbhAnnounce r);; mret (Ok ());
  bgp_withdraw p := record (RtbhWithdraw p);; mret (Ok ());
  bgp_announce_flowspec r := record (FlowSpecAnnounce r);; mret (Ok ());
  bgp_withdraw_flowspec r := record (FlowSpecWithdraw r);; mret (Ok ());
|}.

(** [NoOpJournal] persists nothing. *)
Inductive NoOpJournal : Type := mk_NoOpJournal.

#[export] Instance NoOpJournal_blackhole : BlackholeJournal NoOpJournal := {|
  j_record_announce _ _ _ := mret (Ok ());
  j_record_withdraw _ _ := mret (Ok ());
|}.
#[export] Instance NoOpJournal_flowspec : FlowSpecJournal NoOpJournal := {|
  fj_record_announce _ _ _ := mret (Ok ());
  fj_record_withdraw _ _ := mret (Ok ());
|}.

(** The routes and rules a shadow run would have in place. *)
Definition shadow_rib (s : ShadowBgpExecutor) : gmap IpNet Route :=
  foldl (λ m a, match a with
                | RtbhAnnounce r => <[prefix r := r]> m
                | RtbhWithdraw p => delete p m
                | _ => m
                end) ∅ (recorder s).
Definition shadow_fs_rib (s : ShadowBgpExecutor)
    : gmap (IpNet * option Z * option Z) FlowSpecRule :=
  foldl (λ m a, match a with
                | FlowSpecAnnounce r => <[nlri_id r := r]> m
                | FlowSpecWithdraw r => delete (nlri_id r) m
                | _ => m
                end) ∅ (recorder s).

#[export] Instance ShadowBgpExecutor_spec : BgpSpec ShadowBgpExecutor.
Proof.
  refine {| rib := shadow_rib; fs_rib := shadow_fs_rib |};
    intros x [l]; unfold shadow_rib, shadow_fs_rib; simpl; by rewrite foldl_app.
Defined.

(** ** A scripted session, for evaluation

    The outcomes of the successive calls are given in advance ([true] is
    [Ok]); once the script is exhausted every call succeeds. *)
Record Scripted := {
  sc_rib : gmap IpNet Route;
  sc_fs_rib : gmap (IpNet * option Z * option Z) FlowSpecRule;
  sc_script : list bool;
}.

Definition sc_step (f : Scripted → Scripted) : M Scripted (result unit BgpError) := λ s,
  match sc_script s with
  | false :: l => (Err mk_BgpError, {| sc_rib := sc_rib s; sc_fs_rib := sc_fs_rib s; sc_script := l |})
  | _ :: l => (Ok (), f {| sc_rib := sc_rib s; sc_fs_rib := sc_fs_rib s; sc_script := l |})
  | [] => (Ok (), f s)
  end.

#[export] Instance Scripted_exec : BgpExecutor Scripted := {|
  bgp_announce r := sc_step (λ s, {| sc_rib := <[prefix r := r]> (sc_rib s);
                                     sc_fs_rib := sc_fs_rib s; sc_script := sc_script s |});
  bgp_withdraw p := sc_step (λ s, {| sc_rib := delete p (sc_rib s);
                                     sc_fs_rib := sc_fs_rib s; sc_script := sc_script s |});
  bgp_announce_flowspec r := sc_step (λ s, {| sc_rib := sc_rib s;
      sc_fs_rib := <[nlri_id r := r]> (sc_fs_rib s); sc_script := sc_script s |});
  bgp_withdraw_flowspec r := sc_step (λ s, {| sc_rib := sc_rib s;
      sc_fs_rib := delete (nlri_id r) (sc_fs_rib s); sc_script := sc_script s |});
|}.

#[export] Instance Scripted_spec : BgpSpec Scripted.
Proof.
  refine {| rib := sc_rib; fs_rib := sc_fs_rib |};
    intros x [ru fr [|[] l]]; done.
Defined.

Definition scripted (l : list bool) : Scripted :=
  {| sc_rib := ∅; sc_fs_rib := ∅; sc_script := l |}.

(** A journal that is a table with scripted failures. *)
Record TableJournal := {
  tj_rows : gmap IpAddr BlackholeOrigin;
  tj_script : list bool;
}.

Definition tj_step (f : gmap IpAddr BlackholeOrigin → gmap IpAddr BlackholeOrigin)
    : M TableJournal (result unit JournalError) := λ s,
  match tj_script s with
  | false :: l => (Err (mk_JournalError "down"), {| tj_rows := tj_rows s; tj_script := l |})
  | _ :: l => (Ok (), {| tj_rows := f (tj_rows s); tj_script := l |})
  | [] => (Ok (), {| tj_rows := f (tj_rows s); tj_script := [] |})
  end.

#[export] Instance TableJournal_journal : BlackholeJournal TableJournal := {|
  j_record_announce t o _ := tj_step (λ m, <[t := keep_manual (m !! t) o]> m);
  j_record_withdraw t _ := tj_step (delete t);
|}.

#[export] Instance TableJournal_spec : JournalSpec TableJournal.
Proof. refine {| rows := tj_rows |}; [intros t o at_|intros t at_]; intros [r [|[] l]]; done. Defined.

(** A journal whose writes always succeed. *)
Record MapJournal := { mj_rows : gmap IpAddr BlackholeOrigin }.

#[export] Instance MapJournal_journal : BlackholeJournal MapJournal := {|
  j_record_announce t o _ s :=
    (Ok (), {| mj_rows := <[t := keep_manual (mj_rows s !! t) o]> (mj_rows s) |});
  j_record_withdraw t _ s := (Ok (), {| mj_rows := delete t (mj_rows s) |});
|}.
#[export] Instance MapJournal_spec : JournalSpec MapJournal.
Proof. by refine {| rows := mj_rows |}. Defined.

Definition table_journal (l : list bool) : TableJournal := {| tj_rows := ∅; tj_script := l |}.
End executor.
