(* ===== verification/ManagerState.v ===== *)
(** * The state of a mitigation manager

    [RtbhManager] ([crates/blackwall-rtbh/src/manager.rs]) and
    [FlowSpecManager] ([flowspec_manager.rs]) have the same fields over
    different controllers, journals and queue entries: this file holds the
    record, its field updates, and the calls of a manager into its parts. The
    rate limiter is behind an [Arc<Mutex<_>>] shared by the two managers: a
    manager says whether one is attached, and [cell] is the content it sees,
    which the other owner may change between two operations. *)
From stdpp Require Import prelude gmap.
From S2P Require Import Prelude RateLimit.

Open Scope Z_scope.

Section manager_state.
Context {C B J MO RO : Type}.

Record Manager := {
  controller : C;
  bgp : B;
  journal : J;
  (** Journal writes to replay. *)
  pending_mirror : list MO;
  (** Failed re-announcements of a rehydration. *)
  pending_reapply : list RO;
  apply_failures : Z;
  (** Whether the shared limiter is attached. *)
  rate_limiter : bool;
  ratecapped : Z;
  disarmed : bool;
  disarmed_skips : Z;
  (** The content of the shared limiter. *)
  cell : ArmingRateLimiter;
}.

Definition manager_new (c : C) (b : B) (j : J) (lim : ArmingRateLimiter)
    : Manager := {|
  controller := c; bgp := b; journal := j; pending_mirror := []; pending_reapply := [];
  apply_failures := 0; rate_limiter := false; ratecapped := 0; disarmed := false;
  disarmed_skips := 0; cell := lim |}.

(** ** Field updates and calls into the parts *)

Definition with_rate_limiter (s : Manager) : Manager := {|
  controller := controller s; bgp := bgp s; journal := journal s;
  pending_mirror := pending_mirror s; pending_reapply := pending_reapply s;
  apply_failures := apply_failures s; rate_limiter := true; ratecapped := ratecapped s;
  disarmed := disarmed s; disarmed_skips := disarmed_skips s; cell := cell s |}.

Definition set_controller (c : C) (s : Manager) : Manager := {|
  controller := c; bgp := bgp s; journal := journal s;
  pending_mirror := pending_mirror s; pending_reapply := pending_reapply s;
  apply_failures := apply_failures s; rate_limiter := rate_limiter s; ratecapped := ratecapped s;
  disarmed := disarmed s; disarmed_skips := disarmed_skips s; cell := cell s |}.

Definition set_bgp (b : B) (s : Manager) : Manager := {|
  controller := controller s; bgp := b; journal := journal s;
  pending_mirror := pending_mirror s; pending_reapply := pending_reapply s;
  apply_failures := apply_failures s; rate_limiter := rate_limiter s; ratecapped := ratecapped s;
  disarmed := disarmed s; disarmed_skips := disarmed_skips s; cell := cell s |}.

Definition set_journal (j : J) (s : Manager) : Manager := {|
  controller := controller s; bgp := bgp s; journal := j;
  pending_mirror := pending_mirror s; pending_reapply := pending_reapply s;
  apply_failures := apply_failures s; rate_limiter := rate_limiter s; ratecapped := ratecapped s;
  disarmed := disarmed s; disarmed_skips := disarmed_skips s; cell := cell s |}.

Definition set_queues (pm : list MO) (pr : list RO) (s : Manager)
    : Manager := {|
  controller := controller s; bgp := bgp s; journal := journal s;
  pending_mirror := pm; pending_reapply := pr;
  apply_failures := apply_failures s; rate_limiter := rate_limiter s; ratecapped := ratecapped s;
  disarmed := disarmed s; disarmed_skips := disarmed_skips s; cell := cell s |}.

Definition set_cell (l : ArmingRateLimiter) (s : Manager) : Manager := {|
  controller := controller s; bgp := bgp s; journal := journal s;
  pending_mirror := pending_mirror s; pending_reapply := pending_reapply s;
  apply_failures := apply_failures s; rate_limiter := rate_limiter s; ratecapped := ratecapped s;
  disarmed := disarmed s; disarmed_skips := disarmed_skips s; cell := l |}.

(** Saturating increments of the three counters. *)
Definition count (failures capped skips : Z) (s : Manager) : Manager := {|
  controller := controller s; bgp := bgp s; journal := journal s;
  pending_mirror := pending_mirror s; pending_reapply := pending_reapply s;
  apply_failures := u64_sat_add (apply_failures s) failures;
  rate_limiter := rate_limiter s; ratecapped := u64_sat_add (ratecapped s) capped;
  disarmed := disarmed s; disarmed_skips := u64_sat_add (disarmed_skips s) skips;
  cell := cell s |}.

Definition set_disarmed (s : Manager) : Manager := {|
  controller := controller s; bgp := bgp s; journal := journal s;
  pending_mirror := pending_mirror s; pending_reapply := pending_reapply s;
  apply_failures := apply_failures s; rate_limiter := rate_limiter s; ratecapped := ratecapped s;
  disarmed := true; disarmed_skips := disarmed_skips s; cell := cell s |}.

Definition on_controller {A} (m : M C A) : M Manager A := λ s,
  (eval m (controller s), set_controller (exec m (controller s)) s).
Definition on_bgp {A} (m : M B A) : M Manager A := λ s,
  (eval m (bgp s), set_bgp (exec m (bgp s)) s).
Definition on_journal {A} (m : M J A) : M Manager A := λ s,
  (eval m (journal s), set_journal (exec m (journal s)) s).
Definition on_cell {A} (m : M ArmingRateLimiter A) : M Manager A := λ s,
  (eval m (cell s), set_cell (exec m (cell s)) s).


(** ** What a computation does to the journal *)

Lemma journal_bind (P : J → Prop) {A A'} (m : M Manager A) (f : A → M Manager A') :
  preserves (λ s, P (journal s)) m → (∀ a, preserves (λ s, P (journal s)) (f a)) →
  preserves (λ s, P (journal s)) (m ≫= f).
Proof. intros Hm Hf. eapply triple_bind; [exact Hm|exact Hf]. Qed.

Lemma journal_same (P : J → Prop) {A} (m : M Manager A) :
  (∀ s, journal (exec m s) = journal s) → preserves (λ s, P (journal s)) m.
Proof. intros Hm s Hs. by rewrite Hm. Qed.

Lemma journal_on_journal (P : J → Prop) {A} (m : M J A) :
  preserves P m → preserves (λ s, P (journal s)) (on_journal m).
Proof. intros Hm s Hs. by apply Hm. Qed.
End manager_state.
#[global] Arguments Manager : clear implicits.

(** Reduce the preservation of a property of the journal to the writes. *)
Ltac journal_tac := repeat first
  [ apply journal_bind; [|intros ?]
  | apply (triple_for_each (λ s, _ (journal s))); intros ? _
  | progress case_match | by apply journal_same | by apply journal_on_journal; auto ].
