(* ===== verification/RtbhController.v ===== *)
(** * The RTBH decision engine

    Model of [crates/blackwall-rtbh/src/controller.rs]: the pure controller
    that maps detection events, operator requests and the passing of time to
    blackhole announcements and withdrawals. Methods on [&mut self] are
    computations over the controller state; logging is not modelled. *)
From stdpp Require Import prelude gmap.
From S2P Require Import Prelude Net Float Flow Executor.

Open Scope Z_scope.

(** State of one active blackhole. *)
Record ActiveEntry := {
  announced_at : Z;
  last_activity : Z;
  origin : BlackholeOrigin;
  clear_requested_at : option Z;
}.

Section controller.
Context `{IpNetLib} `{HashOrder}.

Record RtbhConfig := {
  eligible_prefixes : list IpNet;
  blackhole_communities : list (Z * Z);
  next_hop_v4 : option Z;
  next_hop_v6 : option Z;
  max_blackholes : nat;
  hold_down : Duration;
  max_ttl : option Duration;
  protected_prefixes : list IpNet;
}.

Inductive RtbhAction : Type :=
| Announce (r : Route)
| Withdraw (p : IpNet).

Record RtbhController := {
  config : RtbhConfig;
  active : gmap IpAddr ActiveEntry;
  protected_skipped : Z;
}.

Definition set_active (f : gmap IpAddr ActiveEntry → gmap IpAddr ActiveEntry)
    (c : RtbhController) : RtbhController :=
  {| config := config c; active := f (active c); protected_skipped := protected_skipped c |}.

Definition count_protected (c : RtbhController) : RtbhController :=
  {| config := config c; active := active c;
     protected_skipped := u64_sat_add (protected_skipped c) 1 |}.

Definition controller_new (cfg : RtbhConfig) : RtbhController :=
  {| config := cfg; active := ∅; protected_skipped := 0 |}.

Definition is_eligible (c : RtbhController) (target : IpAddr) : bool :=
  any_contains (eligible_prefixes (config c)) target.

Definition is_protected (c : RtbhController) (target : IpAddr) : bool :=
  any_contains (protected_prefixes (config c)) target.

Definition has_next_hop (c : RtbhController) (target : IpAddr) : bool :=
  match target with
  | V4 _ => bool_decide (is_Some (next_hop_v4 (config c)))
  | V6 _ => bool_decide (is_Some (next_hop_v6 (config c)))
  end.

Definition host_route (c : RtbhController) (target : IpAddr) : option Route :=
  next_hop ← match target with
             | V4 _ => V4 <$> next_hop_v4 (config c)
             | V6 _ => V6 <$> next_hop_v6 (config c)
             end;
  Some {| prefix := host_prefix target; next_hop := next_hop; route_origin := Igp;
          communities := blackhole_communities (config c); large_communities := [] |}.

Definition insert_blackhole (target : IpAddr) (announced : Z) (o : BlackholeOrigin)
    : M RtbhController (list RtbhAction) := λ c,
  if any_contains (protected_prefixes (config c)) target then ([], count_protected c)
  else if negb (any_contains (eligible_prefixes (config c)) target) then ([], c)
  else match active c !! target with
  | Some e =>
      ([], set_active (<[target := {| announced_at := announced_at e; last_activity := announced;
                                      origin := origin e; clear_requested_at := None |}]>) c)
  | None =>
      if (max_blackholes (config c) <=? size (active c))%nat then ([], c)
      else match host_route c target with
      | None => ([], c)
      | Some route =>
          ([Announce route],
           set_active (<[target := {| announced_at := announced; last_activity := announced;
                                      origin := o; clear_requested_at := None |}]>) c)
      end
  end.

Definition blackhole (target : IpAddr) (now : Z) (o : BlackholeOrigin)
    : M RtbhController (list RtbhAction) :=
  insert_blackhole target now o.

Definition request_clear (target : IpAddr) (now : Z)
    : M RtbhController (list RtbhAction) := λ c,
  let hold_ms := millis_u64 (hold_down (config c)) in
  match active c !! target with
  | Some e =>
      if bool_decide (origin e = Manual) then ([], c)
      else if hold_ms <=? u64_sat_sub now (announced_at e) then
        ([Withdraw (host_prefix target)], set_active (delete target) c)
      else
        ([], set_active (<[target := {| announced_at := announced_at e;
                                        last_activity := last_activity e;
                                        origin := origin e;
                                        clear_requested_at := Some now |}]>) c)
  | None => ([], c)
  end.

Definition on_event (ev : DetectionEvent) (now : Z)
    : M RtbhController (list RtbhAction) :=
  match ev with
  | Opened d => blackhole (d_target d) now Auto
  | Updated d => λ c,
      match active c !! d_target d with
      | Some e =>
          ([], set_active (<[d_target d := {| announced_at := announced_at e;
                                              last_activity := now;
                                              origin := origin e;
                                              clear_requested_at := None |}]>) c)
      | None => ([], c)
      end
  | Cleared target _ => request_clear target now
  end.

Definition manual_add (target : IpAddr) (now : Z)
    : M RtbhController (list RtbhAction) := λ c,
  match active c !! target with
  | Some e =>
      ([], set_active (<[target := {| announced_at := announced_at e;
                                      last_activity := last_activity e;
                                      origin := Manual;
                                      clear_requested_at := None |}]>) c)
  | None => blackhole target now Manual c
  end.

Definition manual_remove (target : IpAddr) : M RtbhController (list RtbhAction) := λ c,
  match active c !! target with
  | Some _ => ([Withdraw (host_prefix target)], set_active (delete target) c)
  | None => ([], c)
  end.

(** Whether [tick] expires an entry. *)
Definition due (cfg : RtbhConfig) (now : Z) (e : ActiveEntry) : bool :=
  let hold_ms := millis_u64 (hold_down cfg) in
  let ttl_ms := millis_u64 <$> max_ttl cfg in
  let cleared_due := match clear_requested_at e with
                     | Some _ => hold_ms <=? u64_sat_sub now (announced_at e)
                     | None => false
                     end in
  let ttl_due := bool_decide (origin e = Auto) &&
                 match ttl_ms with
                 | Some ttl => ttl <=? u64_sat_sub now (last_activity e)
                 | None => false
                 end in
  cleared_due || ttl_due.

Definition tick (now : Z) : M RtbhController (list RtbhAction) := λ c,
  let expired := (filter (λ ke, due (config c) now ke.2 = true) (hm_iter (active c))).*1 in
  ((λ t, Withdraw (host_prefix t)) <$> expired,
   set_active (λ a, foldl (λ a t, delete t a) a expired) c).

Definition resume (target : IpAddr) (announced : Z) (o : BlackholeOrigin)
    : M RtbhController (list RtbhAction) :=
  insert_blackhole target announced o.

Definition rollback (target : IpAddr) : M RtbhController unit :=
  modify (set_active (delete target)).

Definition active_blackholes (c : RtbhController) : list (IpAddr * Z * BlackholeOrigin) :=
  (λ te, (te.1, announced_at te.2, origin te.2)) <$> hm_iter (active c).

(** ** Sequences of operations *)

Inductive op : Type :=
| OpEvent (ev : DetectionEvent) (now : Z)
| OpManualAdd (t : IpAddr) (now : Z)
| OpManualRemove (t : IpAddr)
| OpTick (now : Z)
| OpResume (t : IpAddr) (at_ : Z) (o : BlackholeOrigin)
| OpRollback (t : IpAddr).

Definition run_op (o : op) : M RtbhController (list RtbhAction) :=
  match o with
  | OpEvent ev now => on_event ev now
  | OpManualAdd t now => manual_add t now
  | OpManualRemove t => manual_remove t
  | OpTick now => tick now
  | OpResume t at_ o => resume t at_ o
  | OpRollback t => rollback t;; mret []
  end.

Inductive reachable (cfg : RtbhConfig) : RtbhController → Prop :=
| reach_new : reachable cfg (controller_new cfg)
| reach_op c o : reachable cfg c → reachable cfg (exec (run_op o) c).

(** ** The invariant *)

(** A blackhole is only ever active on a target the policy allows, and an
    operator's blackhole has no pending clear. *)
Definition entry_ok (c : RtbhController) (t : IpAddr) (e : ActiveEntry) : Prop :=
  is_eligible c t = true ∧ is_protected c t = false ∧ has_next_hop c t = true ∧
  (origin e = Manual → clear_requested_at e = None).

Definition ctl_inv (cfg : RtbhConfig) (c : RtbhController) : Prop :=
  config c = cfg ∧ (size (active c) ≤ max_blackholes cfg)%nat ∧
  map_Forall (entry_ok c) (active c).

Lemma entry_ok_set_active c f t e : entry_ok (set_active f c) t e ↔ entry_ok c t e.
Proof. done. Qed.

Lemma tick_active now c :
  active (exec (tick now) c) = filter (λ ke, due (config c) now ke.2 = false) (active c).
Proof.
  apply map_eq. intros k. unfold tick, exec. simpl. rewrite delete_all_lookup.
  rewrite map_lookup_filter.
  destruct (active c !! k) as [e|] eqn:E; simpl.
  - case_decide as Hin.
    + apply list_elem_of_fmap in Hin as ([k' e'] & -> & Hin).
      apply list_elem_of_filter in Hin as [Hd Hin].
      apply elem_of_hm_iter in Hin. simpl in *.
      rewrite E in Hin. injection Hin as <-. rewrite Hd. by rewrite option_guard_False.
    + destruct (due (config c) now e) eqn:Hd; [|by rewrite option_guard_True].
      exfalso. apply Hin. apply list_elem_of_fmap. exists (k, e). split; [done|].
      apply list_elem_of_filter. by rewrite elem_of_hm_iter.
  - by case_decide.
Qed.

Lemma has_next_hop_host_route c t :
  has_next_hop c t = bool_decide (is_Some (host_route c t)).
Proof.
  unfold has_next_hop, host_route.
  destruct t, (next_hop_v4 (config c)), (next_hop_v6 (config c)); done.
Qed.

(** Updating an active entry in place. *)
Lemma ctl_inv_update cfg c t e e' :
  ctl_inv cfg c → active c !! t = Some e →
  (origin e' = Manual → clear_requested_at e' = None) →
  ctl_inv cfg (set_active (<[t := e']>) c).
Proof.
  intros (Hc & Hs & Ha) He Ho. split_and!; [done|..].
  - simpl. rewrite map_size_insert_Some by eauto. done.
  - simpl. apply map_Forall_insert_2; [|done].
    destruct (Ha t e He) as (? & ? & ? & _). done.
Qed.

Lemma ctl_inv_delete cfg c t : ctl_inv cfg c → ctl_inv cfg (set_active (delete t) c).
Proof.
  intros (Hc & Hs & Ha). split_and!; [done|..]; simpl.
  - etrans; [apply map_size_delete_le|done].
  - by apply map_Forall_delete.
Qed.

Lemma ctl_inv_insert cfg t at_ o : preserves (ctl_inv cfg) (insert_blackhole t at_ o).
Proof.
  intros c Hi. unfold insert_blackhole, exec.
  destruct (any_contains (protected_prefixes (config c)) t) eqn:Hp; [exact Hi|].
  destruct (any_contains (eligible_prefixes (config c)) t) eqn:He; [|exact Hi]. simpl.
  destruct (active c !! t) as [e|] eqn:Ht; [by eapply ctl_inv_update|].
  destruct (_ <=? _)%nat eqn:Hs; [exact Hi|].
  destruct (host_route c t) as [r|] eqn:Hr; [|exact Hi].
  destruct Hi as (Hc & Hsz & Ha). apply Nat.leb_gt in Hs. split_and!; [done|..]; simpl.
  - rewrite map_size_insert_None by done. subst cfg. lia.
  - apply map_Forall_insert_2; [|done].
    apply entry_ok_set_active. unfold entry_ok, is_eligible, is_protected. rewrite He, Hp.
    split_and!; try done. rewrite has_next_hop_host_route, Hr. by apply bool_decide_eq_true_2.
Qed.

Lemma ctl_inv_op cfg o : preserves (ctl_inv cfg) (run_op o).
Proof.
  intros c Hi. pose proof Hi as (Hc & Hs & Ha).
  destruct o as [ev now|t now|t|now|t at_ og|t]; simpl.
  - destruct ev as [d|d|t at_]; [by apply ctl_inv_insert|..]; unfold exec; simpl.
    + destruct (active c !! d_target d) as [e|] eqn:He; [|exact Hi]. by eapply ctl_inv_update.
    + unfold request_clear. destruct (active c !! t) as [e|] eqn:He; [|exact Hi].
      case_bool_decide as Ho; [exact Hi|]. case_match; [by apply ctl_inv_delete|].
      eapply ctl_inv_update; [done..|]. simpl. congruence.
  - unfold exec, manual_add. destruct (active c !! t) as [e|] eqn:He;
      [by eapply ctl_inv_update|by apply ctl_inv_insert].
  - unfold exec, manual_remove. case_match; [by apply ctl_inv_delete|exact Hi].
  - split_and!; [done|..]; rewrite tick_active.
    + etrans; [|exact Hs]. apply map_size_filter.
    + by apply map_Forall_filter.
  - by apply ctl_inv_insert.
  - by apply ctl_inv_delete.
Qed.

Lemma reachable_inv cfg c : reachable cfg c → ctl_inv cfg c.
Proof.
  induction 1 as [|c o _ IH]; [|by apply ctl_inv_op].
  split_and!; [done|simpl; rewrite map_size_empty; lia|apply map_Forall_empty].
Qed.

Lemma insert_actions t at_ o c a :
  a ∈ eval (insert_blackhole t at_ o) c →
  ∃ r, a = Announce r ∧ host_route c t = Some r ∧ active c !! t = None ∧
    is_eligible c t = true ∧ is_protected c t = false ∧
    exec (insert_blackhole t at_ o) c
    = set_active (<[t := {| announced_at := at_; last_activity := at_;
                            origin := o; clear_requested_at := None |}]>) c.
Proof.
  unfold eval, exec, insert_blackhole, is_eligible, is_protected.
  destruct (any_contains (protected_prefixes (config c)) t); [set_solver|].
  destruct (any_contains (eligible_prefixes (config c)) t); [simpl|set_solver].
  destruct (active c !! t); [set_solver|].
  case_match; [set_solver|]. destruct (host_route c t) as [r|]; [simpl|set_solver].
  intros ->%list_elem_of_singleton. eauto 10.
Qed.

Lemma host_route_prefix c t r : host_route c t = Some r → prefix r = host_prefix t.
Proof.
  unfold host_route. intros (nh & _ & [= <-])%bind_Some. done.
Qed.

(** [c'] is [c] with one more blackhole, on a target that was not active and
    whose host route is [r]; rolling that target back gives [c]. *)
Definition fresh (c c' : RtbhController) (r : Route) : Prop :=
  ∃ t, host_route c t = Some r ∧ prefix r = host_prefix t ∧ net_addr (prefix r) = t ∧
    active c !! t = None ∧ is_Some (active c' !! t) ∧
    (∀ t', t' ≠ t → active c' !! t' = active c !! t') ∧
    exec (rollback t) c' = c.

Lemma insert_fresh t at_ o c r :
  Announce r ∈ eval (insert_blackhole t at_ o) c →
  fresh c (exec (insert_blackhole t at_ o) c) r.
Proof.
  intros (r' & Hr & Hroute & Hn & _ & _ & Hc)%insert_actions. simplify_eq.
  exists t. rewrite Hc. rewrite (host_route_prefix _ _ _ Hroute).
  split_and!; [done|done|apply net_addr_host_prefix|done|..]; simpl.
  - by rewrite lookup_insert_eq.
  - intros. by apply lookup_insert_ne.
  - unfold exec, rollback, modify, set_active; simpl.
    rewrite delete_insert_id by done. by destruct c.
Qed.

Lemma request_clear_actions t now c a :
  a ∈ eval (request_clear t now) c →
  ∃ e, a = Withdraw (host_prefix t) ∧ active c !! t = Some e ∧ origin e = Auto ∧
    millis_u64 (hold_down (config c)) ≤ u64_sat_sub now (announced_at e).
Proof.
  unfold eval, request_clear. destruct (active c !! t) as [e|] eqn:He; [|set_solver].
  case_bool_decide as Ho; [set_solver|]. case_match eqn:Hh; [simpl|set_solver].
  intros ->%list_elem_of_singleton. exists e. split_and!; try done; [|lia].
  by destruct (origin e).
Qed.

Lemma tick_actions now c a :
  a ∈ eval (tick now) c ↔
  ∃ t e, a = Withdraw (host_prefix t) ∧ active c !! t = Some e ∧ due (config c) now e = true.
Proof.
  unfold eval, tick. simpl. rewrite list_elem_of_fmap. split.
  - intros (t & -> & Ht). apply list_elem_of_fmap in Ht as ([t' e] & -> & Hf).
    apply list_elem_of_filter in Hf as [Hd Hin]. apply elem_of_hm_iter in Hin. eauto.
  - intros (t & e & -> & He & Hd). exists t. split; [done|].
    apply list_elem_of_fmap. exists (t, e). split; [done|].
    apply list_elem_of_filter. by rewrite elem_of_hm_iter.
Qed.

(** [acts] accounts for the step from [c] to [c']. *)
Definition decided (c c' : RtbhController) (acts : list RtbhAction) : Prop :=
  config c' = config c ∧
  ((∃ ts, acts = (λ t, Withdraw (host_prefix t)) <$> ts ∧
      ∀ t, (t ∈ ts → active c' !! t = None) ∧
           (t ∉ ts → (is_Some (active c' !! t) ↔ is_Some (active c !! t)))) ∨
   ∃ r, acts = [Announce r] ∧ fresh c c' r).

(** A step without actions that only rewrites an active entry. *)
Lemma decided_update c t e e' :
  active c !! t = Some e → decided c (set_active (<[t := e']>) c) [].
Proof.
  intros He. split; [done|]. left. exists []. split; [done|]. intros t'. split; [set_solver|].
  intros _. simpl. destruct (decide (t' = t)) as [->|].
  - rewrite lookup_insert_eq, He. by split; eauto.
  - by rewrite lookup_insert_ne.
Qed.

Lemma decided_same c c' : active c' = active c → config c' = config c → decided c c' [].
Proof.
  intros Ha Hc. split; [done|]. left. exists []. split; [done|]. intros t. rewrite Ha. set_solver.
Qed.

Lemma decided_delete c t : decided c (set_active (delete t) c) [Withdraw (host_prefix t)].
Proof.
  split; [done|]. left. exists [t]. split; [done|]. intros t'. simpl.
  rewrite list_elem_of_singleton. split; [intros ->; apply lookup_delete_eq|].
  intros. by rewrite lookup_delete_ne.
Qed.

Lemma insert_decided t at_ o c :
  decided c (exec (insert_blackhole t at_ o) c) (eval (insert_blackhole t at_ o) c).
Proof.
  pose proof (insert_fresh t at_ o c) as Hf.
  unfold eval, exec, insert_blackhole in *.
  destruct (any_contains (protected_prefixes (config c)) t); [by apply decided_same|].
  destruct (any_contains (eligible_prefixes (config c)) t); [simpl in *|by apply decided_same].
  destruct (active c !! t) eqn:He; [by eapply decided_update|].
  case_match; [by apply decided_same|]. case_match; [|by apply decided_same].
  split; [done|]. right. eexists. split; [done|]. apply Hf, list_elem_of_here.
Qed.

Lemma tick_decided now c :
  decided c (exec (tick now) c) (eval (tick now) c).
Proof.
  split; [done|]. left. unfold exec, eval, tick. simpl. eexists. split; [done|].
  intros t. rewrite delete_all_lookup. by case_decide.
Qed.

Lemma run_op_decided c o :
  (∀ t, o ≠ OpRollback t) → decided c (exec (run_op o) c) (eval (run_op o) c).
Proof.
  intros Ho. destruct o as [ev now|t now|t|now|t at_ og|t]; simpl.
  - destruct ev as [d|d|t at_]; [apply insert_decided|..]; unfold exec, eval; simpl.
    + case_match; [by eapply decided_update|by apply decided_same].
    + unfold request_clear. destruct (active c !! t) as [e|] eqn:He; [|by apply decided_same].
      case_bool_decide; [by apply decided_same|].
      case_match; [by apply decided_delete|by eapply decided_update].
  - unfold exec, eval, manual_add. case_match; [by eapply decided_update|apply insert_decided].
  - unfold exec, eval, manual_remove. case_match; [by apply decided_delete|by apply decided_same].
  - apply tick_decided.
  - apply insert_decided.
  - by destruct (Ho t).
Qed.

(** ** Origins *)

(** [c'] keeps the origin of every entry of [c], and gives [o] to a new one. *)
Definition origins (o : BlackholeOrigin) (c c' : RtbhController) : Prop :=
  ∀ t e', active c' !! t = Some e' →
    match active c !! t with Some e => origin e' = origin e | None => origin e' = o end.

Lemma origins_sub o c f :
  (∀ t e, f (active c) !! t = Some e → active c !! t = Some e) → origins o c (set_active f c).
Proof. intros Hf t e He. simpl in He. by rewrite (Hf t e He). Qed.

Lemma origins_update o c t e e' :
  active c !! t = Some e → origin e' = origin e → origins o c (set_active (<[t := e']>) c).
Proof.
  intros He Ho t' e2. simpl. destruct (decide (t' = t)) as [->|].
  - rewrite lookup_insert_eq, He. by intros [= <-].
  - rewrite lookup_insert_ne by done. by intros ->.
Qed.

Lemma origins_refl o c c' : active c' = active c → origins o c c'.
Proof. intros Ha t e'. rewrite Ha. by intros ->. Qed.

Lemma insert_origins t at_ o c : origins o c (exec (insert_blackhole t at_ o) c).
Proof.
  unfold exec, insert_blackhole. repeat case_match; try by apply origins_refl.
  - by eapply origins_update.
  - intros t' e'. simpl. destruct (decide (t' = t)) as [->|].
    + rewrite lookup_insert_eq. intros [= <-]. by simplify_option_eq.
    + rewrite lookup_insert_ne by done. by intros ->.
Qed.

(** Detector, clock and operator removals never change who a blackhole belongs
    to, and what the detector adds is automatic. *)
Lemma run_op_origins o c :
  match o with OpEvent _ _ | OpTick _ | OpManualRemove _ => True | _ => False end →
  origins Auto c (exec (run_op o) c).
Proof.
  destruct o as [ev now|t now|t|now|t at_ og|t]; intros Ho; try done; cbn [run_op].
  - destruct ev as [d|d|t at_]; [apply insert_origins|..]; unfold exec; simpl.
    + case_match; [by eapply origins_update|by apply origins_refl].
    + unfold request_clear. destruct (active c !! t) as [e|] eqn:He; [|by apply origins_refl].
      case_bool_decide; [by apply origins_refl|]. case_match; [|by eapply origins_update].
      apply origins_sub. intros t' e' [_ ?]%lookup_delete_Some. done.
  - unfold exec, manual_remove. case_match; [|by apply origins_refl].
    apply origins_sub. intros t' e' [_ ?]%lookup_delete_Some. done.
  - unfold exec, tick. apply origins_sub. intros t' e'. rewrite delete_all_lookup. by case_decide.
Qed.

(** An operator's request makes its own target manual and leaves the others. *)
Lemma manual_add_origin t now c :
  (∀ t', t' ≠ t → active (exec (manual_add t now) c) !! t' = active c !! t') ∧
  ∀ e, active (exec (manual_add t now) c) !! t = Some e → origin e = Manual.
Proof.
  unfold exec, manual_add. destruct (active c !! t) as [e0|] eqn:He; simpl.
  - split; [intros; by apply lookup_insert_ne|]. intros e. rewrite lookup_insert_eq. by intros [= <-].
  - pose proof (insert_origins t now Manual c t) as Ho. rewrite He in Ho. split; [|exact Ho].
    intros t' Hne. unfold blackhole, insert_blackhole. repeat case_match; simpl; try done.
    all: by apply lookup_insert_ne.
Qed.

Lemma manual_add_eligible t now c r :
  eval (manual_add t now) c = [Announce r] →
  is_eligible c t = true ∧ is_protected c t = false ∧ has_next_hop c t = true.
Proof.
  unfold eval, manual_add. case_match; [done|]. intros Hev.
  destruct (insert_actions t now Manual c (Announce r)) as (r' & _ & Hr & _ & ? & ? & _).
  { unfold eval. unfold blackhole in Hev. rewrite Hev. left. }
  split_and!; [done..|]. rewrite has_next_hop_host_route, Hr. by apply bool_decide_eq_true_2.
Qed.

(** The entry's time-to-live, if one is configured, has passed by [now]. *)
Definition ttl_elapsed (cfg : RtbhConfig) (now : Z) (e : ActiveEntry) : Prop :=
  ∃ ttl, max_ttl cfg = Some ttl ∧ millis_u64 ttl ≤ u64_sat_sub now (last_activity e).

Definition hold_elapsed (cfg : RtbhConfig) (now : Z) (e : ActiveEntry) : Prop :=
  millis_u64 (hold_down cfg) ≤ u64_sat_sub now (announced_at e).

Lemma due_spec cfg now e :
  due cfg now e = true ↔
  (is_Some (clear_requested_at e) ∧ hold_elapsed cfg now e) ∨
  (origin e = Auto ∧ ttl_elapsed cfg now e).
Proof.
  unfold due, hold_elapsed, ttl_elapsed. rewrite orb_true_iff, andb_true_iff, bool_decide_eq_true.
  assert (match millis_u64 <$> max_ttl cfg with
          | Some ttl => ttl <=? u64_sat_sub now (last_activity e) | None => false end = true
          ↔ ∃ ttl, max_ttl cfg = Some ttl ∧ millis_u64 ttl ≤ u64_sat_sub now (last_activity e))
    as ->.
  { destruct (max_ttl cfg) as [ttl|]; simpl; [rewrite Z.leb_le|]; naive_solver. }
  destruct (clear_requested_at e); [rewrite Z.leb_le|]; split;
    intros [?|?]; try tauto; first [left; by eauto | naive_solver].
Qed.

(** The steps the detector and the clock drive, at a given time. *)
Definition auto_op (o : op) : option Z :=
  match o with OpEvent _ now | OpTick now => Some now | _ => None end.
End controller.

(** Whatever sequence of detections, operator requests, ticks,
    rehydrations and rollbacks the controller has gone through, it never holds
    more than [max_blackholes] blackholes, and every one of them is inside an
    eligible prefix, outside every protected prefix and in a family with a
    next hop. *)
Theorem rtbh_reachable_safe `{IpNetLib} `{HashOrder} (cfg : RtbhConfig) (c : RtbhController) :
  reachable cfg c →
  (size (active c) ≤ max_blackholes cfg)%nat ∧
  ∀ t e, active c !! t = Some e →
    any_contains (eligible_prefixes cfg) t = true ∧
    any_contains (protected_prefixes cfg) t = false ∧ has_next_hop c t = true.
Proof.
  intros (Hc & Hs & Ha)%reachable_inv. split; [done|]. intros t e He.
  destruct (Ha t e He) as (? & ? & ? & _). subst cfg. done.
Qed.

(** The detector and the clock only ever withdraw an automatic blackhole,
    and only once its hold-down or its time-to-live has passed; an operator's
    blackhole is never withdrawn by them. The withdrawn target is no longer
    active. *)
Theorem rtbh_auto_withdraw_justified `{IpNetLib} `{HashOrder} (cfg : RtbhConfig)
    (c : RtbhController) (o : op) (now : Z) (p : IpNet) :
  reachable cfg c → auto_op o = Some now → Withdraw p ∈ eval (run_op o) c →
  ∃ t e, p = host_prefix t ∧ active c !! t = Some e ∧ origin e = Auto ∧
    (hold_elapsed cfg now e ∨ ttl_elapsed cfg now e) ∧
    active (exec (run_op o) c) !! t = None.
Proof.
  intros Hr Ho Hin. apply reachable_inv in Hr as (Hc & _ & Ha). subst cfg.
  destruct o as [ev n|t n|t|n|t at_ og|t]; simplify_eq/=.
  - destruct ev as [d|d|t at_]; simpl in *.
    + apply insert_actions in Hin. naive_solver.
    + unfold eval in Hin. case_match; set_solver.
    + pose proof Hin as (e & Hw & He & Hoe & Hh)%request_clear_actions.
      simplify_eq. exists t, e. split_and!; try done; [by left|].
      unfold exec, request_clear. rewrite He, bool_decide_eq_false_2 by congruence.
      apply Z.leb_le in Hh. rewrite Hh. simpl. apply lookup_delete_eq.
  - apply tick_actions in Hin as (t & e & Hw & He & Hd). simplify_eq.
    pose proof Hd as Hd'. apply due_spec in Hd.
    destruct (Ha t e He) as (_ & _ & _ & Hm).
    assert (origin e = Auto) as Hoe.
    { destruct (origin e); [done|]. rewrite Hm in Hd by done.
      destruct Hd as [[[? ?] _]|[? _]]; done. }
    exists t, e. split_and!; try done; [tauto|].
    change (active (exec (tick now) c) !! t = None). rewrite tick_active.
    apply map_lookup_filter_None. right. intros e' He' Hd2.
    simpl in Hd2. congruence.
Qed.

(** The actions a controller step returns are exactly the change of its
    active set. Either they are withdrawals, of targets that are no longer
    active, and no other target's membership changed; or there is a single
    announcement, of the host route of the one target that became active, and
    rolling that target back restores the controller exactly. *)
Theorem rtbh_actions_track_active `{IpNetLib} `{HashOrder} (c : RtbhController) (o : op) :
  (∀ t, o ≠ OpRollback t) → decided c (exec (run_op o) c) (eval (run_op o) c).
Proof. apply run_op_decided. Qed.

(** A cleared automatic blackhole goes away: after the clear it is either
    withdrawn at once or removed by any later tick at which its hold-down has
    passed. *)
Theorem rtbh_clear_completes `{IpNetLib} `{HashOrder} (c : RtbhController) (t : IpAddr)
    (e : ActiveEntry) (at_ now now' : Z) :
  active c !! t = Some e → origin e = Auto → hold_elapsed (config c) now' e →
  let c1 := exec (on_event (Cleared t at_) now) c in
  active (exec (tick now') c1) !! t = None.
Proof.
  intros He Ho Hh c1. rewrite tick_active. subst c1. unfold exec. simpl. unfold request_clear.
  rewrite He, bool_decide_eq_false_2 by congruence.
  apply map_lookup_filter_None. case_match; simpl.
  - left. apply lookup_delete_eq.
  - right. intros e'. rewrite lookup_insert_eq. intros [= <-] Hd. simpl in Hd.
    apply not_true_iff_false in Hd. apply Hd, due_spec. left. eauto.
Qed.

(** A target still under attack keeps its blackhole: once an ongoing
    detection has refreshed it, no tick withdraws it until a full time-to-live
    has passed, whatever clear was pending. *)
Theorem rtbh_update_keeps `{IpNetLib} `{HashOrder} (c : RtbhController) (d : Detection)
    (now now' : Z) :
  is_Some (active c !! d_target d) →
  (∀ ttl, max_ttl (config c) = Some ttl → u64_sat_sub now' now < millis_u64 ttl) →
  let c1 := exec (on_event (Updated d) now) c in
  active (exec (tick now') c1) !! d_target d = active c1 !! d_target d ∧
  is_Some (active c1 !! d_target d).
Proof.
  intros [e He] Httl c1. rewrite tick_active. subst c1. unfold exec. simpl. rewrite He. simpl.
  rewrite map_lookup_filter, lookup_insert_eq. simpl. split; [|done].
  rewrite option_guard_True; [done|]. apply not_true_iff_false. rewrite due_spec. simpl.
  intros [[[? ?] _]|[_ (ttl & Ht & Hle)]]; [done|]. specialize (Httl ttl Ht). simpl in Hle. lia.
Qed.

(** ** Examples *)

#[local] Existing Instance RefNet.lib.
#[local] Existing Instance RefNet.order.

(** [203.0.113.0/24] may be blackholed, [203.0.113.1] is protected; two
    blackholes at most, a hold-down of ten seconds and a TTL of a minute. *)
Definition ex_cfg : RtbhConfig := {|
  eligible_prefixes := [RefNet.net4 203 0 113 0 24];
  blackhole_communities := [(65535, 666)];
  next_hop_v4 := Some 3221225985; next_hop_v6 := None;
  max_blackholes := 2; hold_down := {| secs := 10; nanos := 0 |};
  max_ttl := Some {| secs := 60; nanos := 0 |};
  protected_prefixes := [RefNet.net4 203 0 113 1 32] |}.

Definition ex_target : IpAddr := ipv4 203 0 113 7.

(** An opened detection on [ex_target], then a clear inside the hold-down. *)
Definition ex_open : RtbhController :=
  exec (run_op (OpEvent (Opened (ex_detection ex_target)) 1000)) (controller_new ex_cfg).
Definition ex_cleared : RtbhController :=
  exec (run_op (OpEvent (Cleared ex_target 2000) 2000)) ex_open.

Definition ex_route : Route := {|
  prefix := host_prefix ex_target; next_hop := V4 3221225985; route_origin := Igp;
  communities := [(65535, 666)]; large_communities := [] |}.

Lemma ex_open_reachable : reachable ex_cfg ex_open.
Proof. unfold ex_open. apply reach_op, reach_new. Qed.

Lemma ex_cleared_reachable : reachable ex_cfg ex_cleared.
Proof. unfold ex_cleared. apply reach_op, ex_open_reachable. Qed.

Lemma rtbh_reachable_safe_witness :
  size (active ex_open) = 1%nat ∧ (size (active ex_open) ≤ max_blackholes ex_cfg)%nat.
Proof.
  split; [vm_refl|].
  exact (proj1 (rtbh_reachable_safe ex_cfg ex_open ex_open_reachable)).
Defined.

Lemma rtbh_auto_withdraw_justified_witness :
  ∃ t e, host_prefix ex_target = host_prefix t ∧ active ex_cleared !! t = Some e ∧
    origin e = Auto ∧ (hold_elapsed ex_cfg 11000 e ∨ ttl_elapsed ex_cfg 11000 e) ∧
    active (exec (run_op (OpTick 11000)) ex_cleared) !! t = None.
Proof.
  apply (rtbh_auto_withdraw_justified ex_cfg ex_cleared (OpTick 11000) 11000).
  - exact ex_cleared_reachable.
  - reflexivity.
  - assert (eval (run_op (OpTick 11000)) ex_cleared = [Withdraw (host_prefix ex_target)]) as ->
      by vm_refl.
    apply list_elem_of_here.
Defined.

Lemma rtbh_actions_track_active_witness :
  decided (controller_new ex_cfg) ex_open [Announce ex_route].
Proof.
  assert ([Announce ex_route]
    = eval (run_op (OpEvent (Opened (ex_detection ex_target)) 1000)) (controller_new ex_cfg))
    as -> by vm_refl.
  apply (rtbh_actions_track_active (controller_new ex_cfg)
           (OpEvent (Opened (ex_detection ex_target)) 1000)).
  intros t. discriminate.
Defined.

Lemma rtbh_clear_completes_witness :
  active (exec (tick 11000) (exec (on_event (Cleared ex_target 2000) 2000) ex_open))
  !! ex_target = None.
Proof.
  apply (rtbh_clear_completes ex_open ex_target
    {| announced_at := 1000; last_activity := 1000; origin := Auto;
       clear_requested_at := None |}).
  - vm_refl.
  - reflexivity.
  - vm_compute. discriminate.
Defined.

Lemma rtbh_update_keeps_witness :
  is_Some (active (exec (on_event (Updated (ex_detection ex_target)) 5000) ex_cleared)
           !! ex_target).
Proof.
  apply (rtbh_update_keeps ex_cleared (ex_detection ex_target) 5000 64999).
  - exists {| announced_at := 1000; last_activity := 1000; origin := Auto;
              clear_requested_at := Some 2000 |}. vm_refl.
  - assert (max_ttl (config ex_cleared) = max_ttl ex_cfg) as -> by vm_refl.
    intros ttl [= <-]. vm_compute. reflexivity.
Defined.
