(* ===== verification/RtbhManager.v ===== *)
(** * The RTBH manager

    Model of [crates/blackwall-rtbh/src/manager.rs]: the single owner of the
    controller that executes its decisions on a BGP executor and mirrors them
    into a journal. The executor and the journal are the traits of
    [Executor.v], so every failure pattern is covered; the state is the record
    of [ManagerState.v]. Error strings and logging are not modelled. *)
From stdpp Require Import prelude gmap.
From S2P Require Import Prelude Net RateLimit Float Flow Executor RtbhController ManagerState.

Open Scope Z_scope.

Inductive MirrorOp : Type :=
| MirrorAnnounce (target : IpAddr) (o : BlackholeOrigin) (at_ms : Z)
| MirrorWithdraw (target : IpAddr) (at_ms : Z).

Definition mirror_target (op : MirrorOp) : IpAddr :=
  match op with MirrorAnnounce t _ _ | MirrorWithdraw t _ => t end.

Section manager.
Context `{IpNetLib} `{HashOrder} {B J : Type} `{!BgpExecutor B} `{!BlackholeJournal J}.

Record ReapplyOp := { ra_target : IpAddr; ra_route : Route }.

#[local] Abbreviation RtbhManager := (Manager RtbhController B J MirrorOp ReapplyOp).

(** ** Operations *)

Definition ip_of (p : IpNet) : IpAddr := net_addr p.

Definition is_active (target : IpAddr) (s : RtbhManager) : bool :=
  existsb (λ e, bool_decide (e.1.1 = target)) (active_blackholes (controller s)).

Definition queue_mirror (op : MirrorOp) : M RtbhManager unit := modify (λ s,
  let target := mirror_target op in
  set_queues (retain (λ o, bool_decide (mirror_target o ≠ target)) (pending_mirror s) ++ [op])
             (pending_reapply s) s).

Definition queue_reapply (op : ReapplyOp) : M RtbhManager unit := modify (λ s,
  set_queues (pending_mirror s)
    (retain (λ o, bool_decide (ra_target o ≠ ra_target op)) (pending_reapply s) ++ [op]) s).

Definition execute_and_journal_announce (target : IpAddr) (route : Route)
    (o : BlackholeOrigin) (mono_now wall_now : Z) : M RtbhManager AnnounceOutcome :=
  d ← gets disarmed;
  if d : bool then
    on_controller (rollback target);;
    modify (count 0 0 1);;
    mret Disarmed
  else
    limited ← gets rate_limiter;
    allowed ← (if limited : bool then on_cell (try_acquire mono_now) else mret true);
    if negb allowed then
      on_controller (rollback target);;
      modify (count 0 1 0);;
      mret RateCapped
    else
      r ← on_bgp (bgp_announce route);
      match r with
      | Err _ =>
          on_controller (rollback target);;
          modify (count 1 0 0);;
          mret Failed
      | Ok _ =>
          j ← on_journal (j_record_announce target o wall_now);
          match j with
          | Err _ => queue_mirror (MirrorAnnounce target o wall_now);; mret AnnApplied
          | Ok _ => mret AnnApplied
          end
      end.

Definition execute_and_journal (mono_now wall_now : Z) (a : RtbhAction)
    : M RtbhManager unit :=
  match a with
  | Announce route =>
      execute_and_journal_announce (ip_of (prefix route)) route Auto mono_now wall_now;;
      mret ()
  | Withdraw p =>
      let target := ip_of p in
      r ← on_bgp (bgp_withdraw p);
      match r with
      | Err _ => mret ()
      | Ok _ =>
          j ← on_journal (j_record_withdraw target wall_now);
          match j with
          | Err _ => queue_mirror (MirrorWithdraw target wall_now)
          | Ok _ => mret ()
          end
      end
  end.

Definition apply_event (ev : DetectionEvent) (mono_now wall_now : Z) : M RtbhManager unit :=
  actions ← on_controller (on_event ev mono_now);
  for_each actions (execute_and_journal mono_now wall_now).

(** One iteration of the loop of [retry_pending_mirror]. *)
Definition retry_mirror (op : MirrorOp) : M RtbhManager unit :=
  r ← match op with
      | MirrorAnnounce target o at_ms => on_journal (j_record_announce target o at_ms)
      | MirrorWithdraw target at_ms => on_journal (j_record_withdraw target at_ms)
      end;
  match r with
  | Err _ => modify (λ s, set_queues (pending_mirror s ++ [op]) (pending_reapply s) s)
  | Ok _ => mret ()
  end.

Definition retry_pending_mirror : M RtbhManager unit :=
  ops ← gets pending_mirror;
  match ops with
  | [] => mret ()
  | _ =>
      modify (λ s, set_queues [] (pending_reapply s) s);;
      for_each ops retry_mirror
  end.

(** One iteration of the loop of [retry_pending_reapply]. *)
Definition retry_reapply (op : ReapplyOp) : M RtbhManager unit :=
  act ← gets (is_active (ra_target op));
  if negb act then mret ()
  else
    r ← on_bgp (bgp_announce (ra_route op));
    match r with
    | Err _ => modify (λ s, set_queues (pending_mirror s) (pending_reapply s ++ [op]) s)
    | Ok _ => mret ()
    end.

Definition retry_pending_reapply : M RtbhManager unit :=
  ops ← gets pending_reapply;
  match ops with
  | [] => mret ()
  | _ =>
      modify (λ s, set_queues (pending_mirror s) [] s);;
      for_each ops retry_reapply
  end.

Definition tick (mono_now wall_now : Z) : M RtbhManager unit :=
  retry_pending_mirror;;
  retry_pending_reapply;;
  actions ← on_controller (RtbhController.tick mono_now);
  for_each actions (execute_and_journal mono_now wall_now).

Definition apply_add (target : IpAddr) (mono_now wall_now : Z) : M RtbhManager ApplyOutcome :=
  actions ← on_controller (manual_add target mono_now);
  match actions with
  | Announce route :: _ =>
      outcome ← execute_and_journal_announce target route Manual mono_now wall_now;
      mret match outcome with
           | AnnApplied => Applied
           | RateCapped => Deferred
           | Disarmed => Rejected RejDisarmed
           | Failed => Deferred
           end
  | _ =>
      act ← gets (is_active target);
      if act : bool then
        j ← on_journal (j_record_announce target Manual wall_now);
        match j with
        | Err _ => queue_mirror (MirrorAnnounce target Manual wall_now)
        | Ok _ => mret ()
        end;;
        mret Applied
      else
        c ← gets controller;
        mret (if is_protected c target then Rejected RejProtected
              else if negb (is_eligible c target) then Rejected RejIneligible
              else if negb (has_next_hop c target) then Rejected RejNoNextHop
              else Deferred)
  end.

Definition apply_remove (target : IpAddr) (mono_now wall_now : Z) : M RtbhManager unit :=
  actions ← on_controller (manual_remove target);
  for_each actions (execute_and_journal mono_now wall_now).

(** One row of [rehydrate]; the persisted time is not used. *)
Definition rehydrate_row (mono_now : Z) (row : IpAddr * Z * BlackholeOrigin)
    : M RtbhManager unit :=
  let '(target, _, o) := row in
  actions ← on_controller (resume target mono_now o);
  match actions with
  | Announce route :: _ =>
      r ← on_bgp (bgp_announce route);
      match r with
      | Err _ => queue_reapply {| ra_target := target; ra_route := route |}
      | Ok _ => mret ()
      end
  | _ => mret ()
  end.

Definition rehydrate (rows : list (IpAddr * Z * BlackholeOrigin)) (mono_now : Z)
    : M RtbhManager unit :=
  for_each rows (rehydrate_row mono_now).

Definition reapply_pending (s : RtbhManager) : nat := length (pending_reapply s).

(** The sweep of [disarm] over one target. *)
Definition disarm_target (target : IpAddr) : M RtbhManager unit :=
  actions ← on_controller (manual_remove target);
  for_each actions (λ a,
    match a with
    | Withdraw p => on_bgp (bgp_withdraw p);; mret ()
    | Announce _ => mret ()
    end).

Definition disarm : M RtbhManager unit :=
  d ← gets disarmed;
  if d : bool then mret ()
  else
    modify set_disarmed;;
    bs ← gets (λ s, active_blackholes (controller s));
    for_each ((λ e : IpAddr * Z * BlackholeOrigin, e.1.1) <$> bs) disarm_target.

(** ** Sequences of operations *)

(** [MCell] is a step of the other owner of the shared limiter. *)
Inductive mop : Type :=
| MEvent (ev : DetectionEvent) (mono wall : Z)
| MTick (mono wall : Z)
| MAdd (t : IpAddr) (mono wall : Z)
| MRemove (t : IpAddr) (mono wall : Z)
| MRehydrate (rows : list (IpAddr * Z * BlackholeOrigin)) (mono : Z)
| MDisarm
| MCell (lim : ArmingRateLimiter).

Definition run_mop (o : mop) : M RtbhManager unit :=
  match o with
  | MEvent ev mono wall => apply_event ev mono wall
  | MTick mono wall => tick mono wall
  | MAdd t mono wall => apply_add t mono wall;; mret ()
  | MRemove t mono wall => apply_remove t mono wall
  | MRehydrate rows mono => rehydrate rows mono
  | MDisarm => disarm
  | MCell lim => modify (set_cell lim)
  end.

Definition run_mops (os : list mop) : M RtbhManager unit := for_each os run_mop.

(** The states of a manager over an executor, a journal and a limiter, freshly
    started with or without the shared limiter attached. *)
Inductive mreachable (cfg : RtbhConfig) (b : B) (j : J) (lim : ArmingRateLimiter)
    : RtbhManager → Prop :=
| mreach_new : mreachable cfg b j lim (manager_new (controller_new cfg) b j lim)
| mreach_new_limited :
    mreachable cfg b j lim (with_rate_limiter (manager_new (controller_new cfg) b j lim))
| mreach_op s o : mreachable cfg b j lim s → mreachable cfg b j lim (exec (run_mop o) s).

(** ** What each operation does to the controller, the table and the queue *)

Lemma mgr_is_active_iff t s : is_active t s = true ↔ is_Some (active (controller s) !! t).
Proof.
  unfold is_active, active_blackholes. rewrite existsb_elem_of. split.
  - intros (x & Hx & Ht%bool_decide_eq_true).
    apply list_elem_of_fmap in Hx as ([t' e] & -> & Hin).
    apply elem_of_hm_iter in Hin. simpl in Ht. subst t'. eauto.
  - intros [e He]. exists (t, announced_at e, origin e). split; [|by apply bool_decide_eq_true].
    apply list_elem_of_fmap. exists (t, e). by rewrite elem_of_hm_iter.
Qed.

Context `{!BgpSpec B}.

(** The part of the state the safety argument is about. *)
Record view := {
  v_ctl : RtbhController;
  v_rib : gmap IpNet Route;
  v_queue : list ReapplyOp;
  v_disarmed : bool;
}.
Definition view_of (s : RtbhManager) : view := {|
  v_ctl := controller s; v_rib := rib (bgp s);
  v_queue := pending_reapply s; v_disarmed := disarmed s |}.

(** An announcement either succeeds, or rolls its target back. *)
Lemma mgr_announce_view t r o mono wall s :
  let out := eval (execute_and_journal_announce t r o mono wall) s in
  let s' := exec (execute_and_journal_announce t r o mono wall) s in
  (out = AnnApplied ∧ disarmed s = false ∧
     view_of s' = {| v_ctl := controller s; v_rib := <[prefix r := r]> (rib (bgp s));
                     v_queue := pending_reapply s; v_disarmed := disarmed s |}) ∨
  (out ≠ AnnApplied ∧ (out = Disarmed ↔ disarmed s = true) ∧
     view_of s' = {| v_ctl := exec (rollback t) (controller s); v_rib := rib (bgp s);
                     v_queue := pending_reapply s; v_disarmed := disarmed s |}).
Proof.
  intros out s'. subst out s'. unfold execute_and_journal_announce, view_of, on_cell, on_bgp.
  pose proof (announce_rib r (bgp s)) as Hrib. unfold eval, exec in Hrib.
  msimp. destruct (disarmed s) eqn:Hd; cbn; [right; by rewrite ?Hd|].
  destruct (rate_limiter s) eqn:Hl; cbn; [destruct (try_acquire mono (cell s)) as [[] ?]|]; cbn;
    [|right; by rewrite ?Hd|];
  (destruct (bgp_announce r (bgp s)) as [[] ?] eqn:Hr; cbn in *;
    [left|right; rewrite Hrib; by rewrite ?Hd]);
  unfold on_journal; msimp;
  destruct (j_record_announce t o wall (journal s)) as [[] ?]; cbn; by rewrite ?Hd, Hrib.
Qed.

(** A withdrawal touches only its own route, and only when it succeeds. *)
Lemma mgr_withdraw_view p mono wall s :
  view_of (exec (execute_and_journal mono wall (Withdraw p)) s)
  = {| v_ctl := controller s;
       v_rib := if is_ok (eval (bgp_withdraw p) (bgp s)) then delete p (rib (bgp s))
                else rib (bgp s);
       v_queue := pending_reapply s; v_disarmed := disarmed s |}.
Proof.
  unfold execute_and_journal, view_of, on_bgp, on_journal.
  pose proof (withdraw_rib p (bgp s)) as Hrib. unfold eval, exec in Hrib. msimp.
  destruct (bgp_withdraw p (bgp s)) as [[] ?]; cbn in *; [|by rewrite Hrib].
  destruct (j_record_withdraw (ip_of p) wall (journal s)) as [[] ?]; cbn; by rewrite Hrib.
Qed.

(** The table after a run of withdrawals of the targets [ts]: other routes are
    untouched, and a target whose withdrawals all succeed has none. *)
Definition swept (ts : list IpAddr) (b b' : gmap IpNet Route) : Prop :=
  ∀ p, b' !! p = b !! p ∨ (p ∈ host_prefix <$> ts ∧ b' !! p = None).

Lemma mgr_withdraws_view ts mono wall s :
  let s' := exec (for_each ((λ t, Withdraw (host_prefix t)) <$> ts)
                           (execute_and_journal mono wall)) s in
  controller s' = controller s ∧ pending_reapply s' = pending_reapply s ∧
  disarmed s' = disarmed s ∧ swept ts (rib (bgp s)) (rib (bgp s')) ∧
  ((∀ p b, is_ok (eval (bgp_withdraw p) b) = true) →
   ∀ t, t ∈ ts → rib (bgp s') !! host_prefix t = None).
Proof.
  revert s. induction ts as [|t ts IH]; intros s s'; subst s'.
  { split_and!; try done; [by left|set_solver]. }
  rewrite fmap_cons, exec_for_each_cons.
  pose proof (mgr_withdraw_view (host_prefix t) mono wall s) as Hv.
  set (s1 := exec (execute_and_journal mono wall (Withdraw (host_prefix t))) s) in *.
  injection Hv as Hc Hr Hq Hd.
  destruct (IH s1) as (Hc' & Hq' & Hd' & Hs & Hok).
  split_and!; [congruence..| |].
  - intros p. destruct (Hs p) as [->|[??]]; [|right; set_solver].
    rewrite Hr. destruct (decide (p = host_prefix t)) as [->|].
    + case_match; [right; split; [set_solver|apply lookup_delete_eq]|by left].
    + left. case_match; [by rewrite lookup_delete_ne|done].
  - intros Hall t' Ht'. destruct (decide (t' ∈ ts)) as [Hin|]; [by apply Hok|].
    assert (t' = t) as -> by set_solver.
    destruct (Hs (host_prefix t)) as [->|[_ ?]]; [|done].
    rewrite Hr, Hall. apply lookup_delete_eq.
Qed.

(** ** The safety invariant *)

(** An active target has its host route in the table, or queued in [extra]. *)
Definition confirmed (c : RtbhController) (b : gmap IpNet Route) (q : list ReapplyOp) : Prop :=
  ∀ t, is_Some (active c !! t) →
    ∃ r, host_route c t = Some r ∧
      (b !! host_prefix t = Some r ∨ {| ra_target := t; ra_route := r |} ∈ q).

(** Every queued route is the host route of its target. *)
Definition queue_ok (c : RtbhController) (q : list ReapplyOp) : Prop :=
  Forall (λ op, host_route c (ra_target op) = Some (ra_route op)) q.

(** Every route in the table is the host route of an active target. *)
Definition no_stray (c : RtbhController) (b : gmap IpNet Route) : Prop :=
  ∀ p r, b !! p = Some r →
    ∃ t, p = host_prefix t ∧ is_Some (active c !! t) ∧ host_route c t = Some r.

(** An executor on which withdrawals do not fail. *)
Definition withdraw_ok : Prop := ∀ p b, is_ok (eval (bgp_withdraw p) b) = true.

(** [clean] states the conditions under which no route is left behind. *)
Definition minv (clean : Prop) (cfg : RtbhConfig) (v : view) : Prop :=
  ctl_inv cfg (v_ctl v) ∧ confirmed (v_ctl v) (v_rib v) (v_queue v) ∧
  queue_ok (v_ctl v) (v_queue v) ∧ (clean → withdraw_ok ∧ no_stray (v_ctl v) (v_rib v)).

Lemma host_route_config c c' t : config c' = config c → host_route c' t = host_route c t.
Proof. unfold host_route. by intros ->. Qed.

Lemma queue_ok_config c c' q : config c' = config c → queue_ok c q → queue_ok c' q.
Proof.
  intros Hc Hq. eapply Forall_impl; [exact Hq|]. intros op. by rewrite (host_route_config c c').
Qed.

(** A controller step whose actions are withdrawals that are then carried out. *)
Lemma confirmed_sweep c c' ts b b' q :
  config c' = config c →
  (∀ t, (t ∈ ts → active c' !! t = None) ∧
        (t ∉ ts → (is_Some (active c' !! t) ↔ is_Some (active c !! t)))) →
  swept ts b b' → confirmed c b q → confirmed c' b' q.
Proof.
  intros Hc Hts Hs Hf t Ht. destruct (Hts t) as [Hin Hni].
  destruct (decide (t ∈ ts)) as [Hi|Hi]; [rewrite Hin in Ht by done; by destruct Ht|].
  destruct (Hf t) as (r & Hr & Hb); [by apply Hni|].
  exists r. rewrite (host_route_config c c') by done. split; [done|].
  destruct Hb as [Hb|]; [left|by right].
  destruct (Hs (host_prefix t)) as [->|[Hbad _]]; [done|].
  apply list_elem_of_fmap in Hbad as (t' & Heq & ?). apply host_prefix_inj in Heq. congruence.
Qed.

(** A controller step that activates one target whose route is then announced. *)
Lemma confirmed_announce c c' r b q :
  config c' = config c → fresh c c' r → confirmed c b q → confirmed c' (<[prefix r := r]> b) q.
Proof.
  intros Hc (t & Hr & Hp & _ & _ & _ & Hne & _) Hf t' Ht'. rewrite Hp.
  destruct (decide (t' = t)) as [->|Hn].
  - exists r. rewrite (host_route_config c c') by done. split; [done|]. left.
    by rewrite lookup_insert_eq.
  - rewrite Hne in Ht' by done. destruct (Hf t' Ht') as (r' & Hr' & Hb). exists r'.
    rewrite (host_route_config c c') by done. split; [done|].
    rewrite lookup_insert_ne by (intros ?%host_prefix_inj; congruence). done.
Qed.

Lemma no_stray_sweep c c' ts b b' :
  config c' = config c →
  (∀ t, t ∉ ts → (is_Some (active c' !! t) ↔ is_Some (active c !! t))) →
  swept ts b b' → (∀ t, t ∈ ts → b' !! host_prefix t = None) →
  no_stray c b → no_stray c' b'.
Proof.
  intros Hc Hts Hs Hn Hb p r Hp. destruct (Hs p) as [Heq|[_ ?]]; [|congruence].
  rewrite Heq in Hp. destruct (Hb p r Hp) as (t & -> & Ha & Hr). exists t.
  rewrite (host_route_config c c') by done. split_and!; [done| |done].
  apply Hts; [|done]. intros Hin%Hn. congruence.
Qed.

Lemma no_stray_insert c t r b :
  is_Some (active c !! t) → host_route c t = Some r → no_stray c b →
  no_stray c (<[prefix r := r]> b).
Proof.
  intros Ha Hr Hb p r'. destruct (decide (p = prefix r)) as [->|].
  - rewrite lookup_insert_eq. intros [= <-]. exists t. by rewrite (host_route_prefix _ _ _ Hr).
  - rewrite lookup_insert_ne by done. apply Hb.
Qed.

Lemma no_stray_grow c c' b :
  config c' = config c → (∀ t, is_Some (active c !! t) → is_Some (active c' !! t)) →
  no_stray c b → no_stray c' b.
Proof.
  intros Hc Ha Hb p r Hp. destruct (Hb p r Hp) as (t & -> & ? & ?). exists t.
  rewrite (host_route_config c c') by done. auto.
Qed.

Lemma fresh_active c c' r t : fresh c c' r → is_Some (active c !! t) → is_Some (active c' !! t).
Proof.
  intros (t' & _ & _ & _ & Hn & _ & Hne & _) Ht. destruct (decide (t = t')) as [->|].
  - rewrite Hn in Ht. by destruct Ht.
  - by rewrite Hne.
Qed.

Lemma no_stray_announce c c' r b :
  config c' = config c → fresh c c' r → no_stray c b → no_stray c' (<[prefix r := r]> b).
Proof.
  intros Hc Hfr Hb. pose proof Hfr as (t & Hr & _ & _ & _ & Hs & _).
  apply (no_stray_insert c' t); [done|by rewrite (host_route_config c c')|].
  eapply no_stray_grow; [done| |done]. intros t'. by apply fresh_active with r.
Qed.

(** The shape shared by [apply_event], [tick] and [apply_remove]. *)
Definition decide_and_execute (o : op) (mono wall : Z) : M RtbhManager unit :=
  actions ← on_controller (run_op o);
  for_each actions (execute_and_journal mono wall).

Lemma exec_single_announce r mono wall s :
  exec (for_each [Announce r] (execute_and_journal mono wall)) s
  = exec (execute_and_journal_announce (ip_of (prefix r)) r Auto mono wall) s.
Proof. cbn [for_each]. unfold execute_and_journal. by rewrite !exec_bind. Qed.

Lemma fresh_rollback c c' r : fresh c c' r → exec (rollback (net_addr (prefix r))) c' = c.
Proof. intros (t & _ & _ & -> & _ & _ & _ & Hb). done. Qed.

Lemma fresh_config c c' r : fresh c c' r → config c' = config c.
Proof. intros Hb%fresh_rollback. by rewrite <-Hb. Qed.

Lemma minv_decide_and_execute clean cfg o mono wall s :
  (∀ t, o ≠ OpRollback t) →
  minv clean cfg (view_of s) → minv clean cfg (view_of (exec (decide_and_execute o mono wall) s)).
Proof.
  intros Ho (Hi & Hf & Hq & Hcl). unfold decide_and_execute. rewrite exec_bind.
  pose proof (ctl_inv_op cfg o (controller s) Hi) as Hi'.
  destruct (run_op_decided (controller s) o Ho) as [Hc [(ts & Hev & Hts)|(r & Hev & Hfr)]];
    change (eval (on_controller (run_op o)) s) with (eval (run_op o) (controller s)); rewrite Hev.
  - set (s1 := exec (on_controller (run_op o)) s).
    destruct (mgr_withdraws_view ts mono wall s1) as (Hc1 & Hq1 & _ & Hs & Hok).
    unfold minv, view_of. simpl. rewrite Hc1, Hq1. split_and!; [done|..].
    + by eapply confirmed_sweep.
    + by eapply queue_ok_config.
    + intros [Hw Hb]%Hcl. split; [done|].
      eapply no_stray_sweep; [done|apply Hts|done|by apply Hok|done].
  - rewrite exec_single_announce. set (s1 := exec (on_controller (run_op o)) s).
    destruct (mgr_announce_view (ip_of (prefix r)) r Auto mono wall s1)
      as [(_ & _ & ->)|(_ & _ & ->)].
    + split_and!; [done|by eapply confirmed_announce|by eapply queue_ok_config|].
      intros [? ?]%Hcl. split; [done|by eapply no_stray_announce].
    + unfold minv. cbn [v_ctl v_rib v_queue].
      change (controller s1) with (exec (run_op o) (controller s)). unfold ip_of.
      by rewrite (fresh_rollback _ _ _ Hfr).
Qed.

(** Replaying the mirror queue does not touch the view. *)
Lemma mgr_retry_mirror_view s : view_of (exec retry_pending_mirror s) = view_of s.
Proof.
  unfold retry_pending_mirror. rewrite exec_bind.
  change (eval (gets pending_mirror) s) with (pending_mirror s).
  destruct (pending_mirror s) as [|op ops] eqn:Hp; [done|]. rewrite exec_bind.
  apply (triple_for_each (λ s', view_of s' = view_of s)); [|done]. intros x _ s' Hs'.
  rewrite <-Hs'. unfold retry_mirror. destruct x; unfold on_journal; msimp.
  all: match goal with |- context [match ?e with Ok _ => _ | Err _ => _ end] =>
    destruct e end; done.
Qed.

(** The controller's table of targets under a queued retry. *)
Lemma confirmed_retry c b q op ops :
  host_route c (ra_target op) = Some (ra_route op) →
  confirmed c b (q ++ op :: ops) → confirmed c (<[prefix (ra_route op) := ra_route op]> b) (q ++ ops).
Proof.
  intros Hr Hf t Ht. destruct (Hf t Ht) as (r & Hrt & Hb). exists r. split; [done|].
  rewrite (host_route_prefix _ _ _ Hr).
  destruct (decide (t = ra_target op)) as [->|Hne]; [left|].
  { rewrite lookup_insert_eq. congruence. }
  rewrite lookup_insert_ne by (intros ?%host_prefix_inj; congruence).
  destruct Hb as [|Hin]; [by left|right]. apply elem_of_app in Hin as [?|Hin]; [set_solver|].
  apply elem_of_cons in Hin as [<-|?]; [done|set_solver].
Qed.

Lemma confirmed_drop c b q op ops :
  active c !! ra_target op = None → confirmed c b (q ++ op :: ops) → confirmed c b (q ++ ops).
Proof.
  intros Hn Hf t Ht. destruct (Hf t Ht) as (r & Hrt & Hb). exists r. split; [done|].
  destruct Hb as [|Hin]; [by left|right]. apply elem_of_app in Hin as [?|Hin]; [set_solver|].
  apply elem_of_cons in Hin as [<-|?]; [|set_solver]. simpl in Hn. rewrite Hn in Ht. by destruct Ht.
Qed.

(** [minv] with the operations still to be retried. *)
Definition minv_with (clean : Prop) (cfg : RtbhConfig) (ops : list ReapplyOp) (s : RtbhManager) : Prop :=
  ctl_inv cfg (controller s) ∧
  confirmed (controller s) (rib (bgp s)) (pending_reapply s ++ ops) ∧
  queue_ok (controller s) (pending_reapply s ++ ops) ∧
  (clean → withdraw_ok ∧ no_stray (controller s) (rib (bgp s))).

Lemma minv_with_nil clean cfg s : minv_with clean cfg [] s ↔ minv clean cfg (view_of s).
Proof. unfold minv_with. by rewrite app_nil_r. Qed.

Lemma minv_retry_step clean cfg op ops s :
  minv_with clean cfg (op :: ops) s → minv_with clean cfg ops (exec (retry_reapply op) s).
Proof.
  intros (Hi & Hf & Hq & Hcl). pose proof Hq as [Hq1 [Hr Hq2]%Forall_cons]%Forall_app.
  unfold retry_reapply, on_bgp.
  pose proof (announce_rib (ra_route op) (bgp s)) as Hrib. unfold eval, exec in Hrib. msimp.
  destruct (is_active (ra_target op) s) eqn:Ha; cbn.
  - destruct (bgp_announce (ra_route op) (bgp s)) as [[] b']; cbn in *; unfold minv_with; cbn;
      rewrite Hrib.
    + split_and!; [done|by apply confirmed_retry|by apply Forall_app|].
      intros [? ?]%Hcl. split; [done|].
      by apply (no_stray_insert _ (ra_target op)); [apply mgr_is_active_iff|..].
    + rewrite <-app_assoc. done.
  - split_and!; [done|..|done]; [|by apply Forall_app].
    eapply confirmed_drop; [|done]. apply eq_None_not_Some. rewrite <-mgr_is_active_iff. congruence.
Qed.

Lemma minv_retry_reapply clean cfg : preserves (λ s, minv clean cfg (view_of s)) retry_pending_reapply.
Proof.
  intros s (Hi & Hf & Hq & Hcl). unfold retry_pending_reapply. rewrite exec_bind.
  change (eval (gets pending_reapply) s) with (pending_reapply s).
  destruct (pending_reapply s) as [|op ops] eqn:Hp; [done|]. rewrite <-Hp. rewrite exec_bind.
  apply minv_with_nil. assert (∀ l s, minv_with clean cfg l s → minv_with clean cfg [] (exec (for_each l retry_reapply) s))
    as Hloop.
  { induction l as [|x l IH]; intros s' Hs'; [done|]. rewrite exec_for_each_cons.
    by apply IH, minv_retry_step. }
  apply Hloop. done.
Qed.

Lemma insert_target t at_ o c r :
  eval (insert_blackhole t at_ o) c = [Announce r] → net_addr (prefix r) = t.
Proof.
  intros Hev. destruct (insert_actions t at_ o c (Announce r)) as (r' & [= <-] & Hr & _).
  { rewrite Hev. apply list_elem_of_here. }
  by rewrite (host_route_prefix _ _ _ Hr), net_addr_host_prefix.
Qed.

Lemma insert_no_withdraw t at_ o c ts :
  eval (insert_blackhole t at_ o) c = (λ t, Withdraw (host_prefix t)) <$> ts → ts = [].
Proof.
  intros Hev. destruct ts as [|t' ts]; [done|]. exfalso.
  destruct (insert_actions t at_ o c (Withdraw (host_prefix t'))) as (? & ? & _); [|done].
  rewrite Hev. left.
Qed.

Lemma confirmed_queue c c' r b q :
  config c' = config c → fresh c c' r → confirmed c b q →
  let op := {| ra_target := net_addr (prefix r); ra_route := r |} in
  confirmed c' b (retain (λ o, bool_decide (ra_target o ≠ ra_target op)) q ++ [op]).
Proof.
  intros Hc (t & Hr & Hp & Ht & _ & _ & Hne & _) Hf op t' Ht'.
  destruct (decide (t' = t)) as [->|Hn].
  - exists r. rewrite (host_route_config c c') by done. split; [done|]. right.
    subst op. rewrite Ht. set_solver.
  - rewrite Hne in Ht' by done. destruct (Hf t' Ht') as (r' & Hr' & Hb). exists r'.
    rewrite (host_route_config c c') by done. split; [done|].
    destruct Hb as [|Hin]; [by left|right]. apply elem_of_app. left. apply elem_of_retain.
    split; [|done]. apply bool_decide_eq_true. subst op. simpl. congruence.
Qed.

Lemma minv_rehydrate_row clean cfg mono row :
  preserves (λ s, minv clean cfg (view_of s)) (rehydrate_row mono row).
Proof.
  destruct row as [[t at_] o]. intros s (Hi & Hf & Hq & Hcl). unfold rehydrate_row. rewrite exec_bind.
  pose proof (ctl_inv_op cfg (OpResume t mono o) (controller s) Hi) as Hi'.
  pose proof (run_op_decided (controller s) (OpResume t mono o) ltac:(done)) as [Hc Hd].
  change (eval (on_controller (resume t mono o)) s)
    with (eval (run_op (OpResume t mono o)) (controller s)).
  set (c' := exec (run_op (OpResume t mono o)) (controller s)) in *.
  destruct Hd as [(ts & Hev & Hts)|(r & Hev & Hfr)].
  - rewrite Hev. assert (minv clean cfg (view_of (set_controller c' s))) as Hm; [|by destruct ts].
    assert (ts = []) as ->.
    { by eapply (insert_no_withdraw t mono o (controller s)). }
    split_and!; [done|..].
    + eapply confirmed_sweep; [done..| |done]. by left.
    + by eapply queue_ok_config.
    + intros [? ?]%Hcl. split; [done|]. eapply no_stray_sweep; [done|apply Hts|..|done].
      * by left.
      * set_solver.
  - rewrite Hev. unfold on_bgp. pose proof (announce_rib r (bgp s)) as Hrib.
    unfold eval, exec in Hrib. msimp.
    apply insert_target in Hev. subst t.
    destruct (bgp_announce r (bgp s)) as [[] b']; cbn in *; unfold minv, view_of; cbn;
      rewrite Hrib; split_and!; [done|..].
    + by eapply confirmed_announce.
    + by eapply queue_ok_config.
    + intros [? ?]%Hcl. split; [done|by eapply no_stray_announce].
    + done.
    + by eapply confirmed_queue.
    + apply (queue_ok_config (controller s)); [done|]. apply Forall_app. split.
      * by apply Forall_retain.
      * apply Forall_singleton. simpl. by destruct Hfr as (t & ? & _ & -> & _).
    + intros [? ?]%Hcl. split; [done|]. eapply no_stray_grow; [done| |done].
      intros t'. by apply fresh_active with r.
Qed.

Lemma manual_add_target t now c r :
  eval (manual_add t now) c = [Announce r] → net_addr (prefix r) = t.
Proof.
  unfold eval, manual_add. case_match; [done|]. apply (insert_target t now Manual c r).
Qed.

(** What [apply_add] does on the two paths of the controller's answer. *)
Lemma mgr_apply_add_cases t mono wall s :
  let c' := exec (manual_add t mono) (controller s) in
  (∃ r, eval (manual_add t mono) (controller s) = [Announce r] ∧ fresh (controller s) c' r ∧
     net_addr (prefix r) = t ∧
     exec (apply_add t mono wall) s
     = exec (execute_and_journal_announce t r Manual mono wall) (set_controller c' s) ∧
     eval (apply_add t mono wall) s
     = match eval (execute_and_journal_announce t r Manual mono wall) (set_controller c' s) with
       | AnnApplied => Applied
       | RateCapped | Failed => Deferred
       | Disarmed => Rejected RejDisarmed
       end) ∨
  (view_of (exec (apply_add t mono wall) s) = view_of (set_controller c' s) ∧
   (∀ t', is_Some (active c' !! t') ↔ is_Some (active (controller s) !! t')) ∧
   config c' = config (controller s) ∧
   exec (apply_add t mono wall) s
   = exec (if is_active t (set_controller c' s) then
             j ← on_journal (j_record_announce t Manual wall);
             match j with
             | Err _ => queue_mirror (MirrorAnnounce t Manual wall)
             | Ok _ => mret ()
             end
           else mret ()) (set_controller c' s) ∧
   eval (apply_add t mono wall) s
   = if is_active t (set_controller c' s) then Applied
     else if is_protected c' t then Rejected RejProtected
     else if negb (is_eligible c' t) then Rejected RejIneligible
     else if negb (has_next_hop c' t) then Rejected RejNoNextHop else Deferred).
Proof.
  intros c'. unfold apply_add.
  destruct (run_op_decided (controller s) (OpManualAdd t mono) ltac:(done))
    as [Hc [(ts & Hev & Hts)|(r & Hev & Hfr)]]; simpl in Hc, Hev.
  - right. assert (ts = []) as ->.
    { unfold eval, manual_add in Hev. case_match; [by destruct ts|].
      by eapply (insert_no_withdraw t mono Manual (controller s)). }
    assert (run (on_controller (manual_add t mono)) s = ([], set_controller c' s)) as Hrun.
    { unfold run, on_controller. by rewrite Hev. }
    unfold run in Hrun. split_and!; [|intros t'; apply Hts; set_solver|done|..];
      unfold exec, eval, mbind, M_bind; rewrite Hrun; msimp;
      destruct (is_active t (set_controller c' s)); cbn; try done;
      unfold on_journal; msimp; by destruct (j_record_announce t Manual wall (journal s)) as [[] ?].
  - left. exists r. split_and!; [done|done|by eapply manual_add_target|..].
    all: rewrite ?exec_bind, ?eval_bind;
      change (eval (on_controller (manual_add t mono)) s)
        with (eval (manual_add t mono) (controller s)); rewrite Hev, ?exec_bind, ?eval_bind; done.
Qed.

Lemma minv_apply_add clean cfg t mono wall s :
  minv clean cfg (view_of s) → minv clean cfg (view_of (exec (apply_add t mono wall) s)).
Proof.
  intros (Hi & Hf & Hq & Hcl).
  pose proof (ctl_inv_op cfg (OpManualAdd t mono) (controller s) Hi) as Hi'. simpl in Hi'.
  destruct (mgr_apply_add_cases t mono wall s)
    as [(r & Hev & Hfr & Ht & -> & _)|(-> & Hact & Hc & _ & _)].
  - pose proof (fresh_config _ _ _ Hfr) as Hc.
    set (s1 := set_controller (exec (manual_add t mono) (controller s)) s) in *.
    destruct (mgr_announce_view t r Manual mono wall s1) as [(_ & _ & ->)|(_ & _ & ->)].
    + split_and!; [done|by eapply confirmed_announce|by eapply queue_ok_config|].
      intros [? ?]%Hcl. split; [done|by eapply no_stray_announce].
    + unfold minv. cbn [v_ctl v_rib v_queue]. subst t s1. cbn [controller set_controller].
      by rewrite (fresh_rollback _ _ _ Hfr).
  - split_and!; [done|..|by eapply queue_ok_config|]; simpl.
    + apply (confirmed_sweep (controller s) _ [] (rib (bgp s))); [done| |by left|done].
      intros t'. split; [set_solver|]. by intros _.
    + intros [? ?]%Hcl. split; [done|]. eapply no_stray_grow; [done| |done]. intros t'. apply Hact.
Qed.

(** The effect of the disarm sweep over [ts]. *)
Lemma mgr_disarm_view ts s :
  let s' := exec (for_each ts disarm_target) s in
  config (controller s') = config (controller s) ∧
  (∀ t, active (controller s') !! t
        = if decide (t ∈ ts) then None else active (controller s) !! t) ∧
  pending_reapply s' = pending_reapply s ∧ disarmed s' = disarmed s ∧
  swept ts (rib (bgp s)) (rib (bgp s')) ∧
  (withdraw_ok → ∀ t, t ∈ ts → is_Some (active (controller s) !! t) →
     rib (bgp s') !! host_prefix t = None).
Proof.
  revert s. induction ts as [|t ts IH]; intros s s'; subst s'.
  { split_and!; try done; [by left|set_solver]. }
  rewrite exec_for_each_cons. set (s1 := exec (disarm_target t) s).
  assert (controller s1 = exec (manual_remove t) (controller s) ∧
          pending_reapply s1 = pending_reapply s ∧ disarmed s1 = disarmed s ∧
          (rib (bgp s1) = rib (bgp s) ∧ (withdraw_ok → active (controller s) !! t = None) ∨
           rib (bgp s1) = delete (host_prefix t) (rib (bgp s)))) as (Hc & Hq & Hd & Hr).
  { subst s1. unfold disarm_target, on_controller, on_bgp.
    pose proof (withdraw_rib (host_prefix t) (bgp s)) as Hrib.
    assert (withdraw_ok → is_ok (eval (bgp_withdraw (host_prefix t)) (bgp s)) = true) as Hw by auto.
    unfold eval, exec in Hrib, Hw. msimp. unfold manual_remove.
    destruct (active (controller s) !! t) eqn:Ha; msimp; [|by auto 10].
    destruct (bgp_withdraw (host_prefix t) (bgp s)) as [[] ?]; cbn in *; (split_and!; [done..|]); [by right|].
    left. split; [done|]. intros Hbad%Hw. done. }
  destruct (IH s1) as (Hc1 & Ha1 & Hq1 & Hd1 & Hs1 & Hok1).
  assert (∀ t', active (controller s1) !! t'
    = if decide (t' = t) then None else active (controller s) !! t') as Hact.
  { intros t'. rewrite Hc. unfold exec, manual_remove. case_decide as Heq.
    - subst t'. case_match; simpl; [apply lookup_delete_eq|done].
    - case_match; simpl; [by apply lookup_delete_ne|done]. }
  split_and!; [|..].
  - rewrite Hc1, Hc. unfold exec, manual_remove. by case_match.
  - intros t'. rewrite Ha1, Hact. destruct (decide (t' ∈ ts)), (decide (t' = t)),
      (decide (t' ∈ t :: ts)); set_solver.
  - congruence.
  - congruence.
  - intros p. destruct (Hs1 p) as [->|[??]]; [|right; set_solver].
    destruct Hr as [[-> _]| ->]; [by left|].
    destruct (decide (p = host_prefix t)) as [->|]; [|left; by apply lookup_delete_ne].
    right. split; [set_solver|apply lookup_delete_eq].
  - intros Hw t' Hin Hsome. destruct (decide (t' = t)) as [->|Hne].
    + destruct (Hs1 (host_prefix t)) as [->|[_ ?]]; [|done].
      destruct Hr as [[_ Hn]| ->]; [|apply lookup_delete_eq].
      rewrite Hn in Hsome by done. by destruct Hsome.
    + apply Hok1; [done|set_solver|]. rewrite Hact. by case_decide.
Qed.

Lemma elem_of_active_targets t c :
  t ∈ (λ e : IpAddr * Z * BlackholeOrigin, e.1.1) <$> active_blackholes c
  ↔ is_Some (active c !! t).
Proof.
  unfold active_blackholes. rewrite <-list_fmap_compose, list_elem_of_fmap. split.
  - intros ([t' e] & -> & Hin%elem_of_hm_iter). simpl. eauto.
  - intros [e He]. exists (t, e). by rewrite elem_of_hm_iter.
Qed.

(** [disarm] empties the active set. *)
Lemma mgr_disarm_active s :
  disarmed s = false →
  let s' := exec disarm s in
  active (controller s') = ∅ ∧ config (controller s') = config (controller s) ∧
  pending_reapply s' = pending_reapply s ∧ disarmed s' = true ∧
  ∃ ts, swept ts (rib (bgp s)) (rib (bgp s')) ∧
    (∀ t, t ∈ ts ↔ is_Some (active (controller s) !! t)) ∧
    (withdraw_ok → ∀ t, t ∈ ts → rib (bgp s') !! host_prefix t = None).
Proof.
  intros Hd s'. subst s'. unfold disarm. rewrite exec_bind.
  change (eval (gets disarmed) s) with (disarmed s). rewrite Hd, exec_bind, exec_bind.
  set (ts := (λ e : IpAddr * Z * BlackholeOrigin, e.1.1) <$> _).
  assert (∀ t, t ∈ ts ↔ is_Some (active (controller s) !! t)) as Hts.
  { intros t. apply elem_of_active_targets. }
  destruct (mgr_disarm_view ts (set_disarmed s)) as (Hc & Ha & Hq & Hd' & Hs & Hok).
  split_and!; [|exact Hc|exact Hq|exact Hd'|].
  - apply map_eq. intros t. rewrite lookup_empty.
    etransitivity; [apply Ha|]. case_decide as Hin; [done|]. simpl.
    apply eq_None_not_Some. by rewrite <-Hts.
  - exists ts. split_and!; [exact Hs|exact Hts|]. intros Hw t Hin. apply Hok; [done..|].
    by apply Hts.
Qed.

Lemma minv_disarm clean cfg s :
  minv clean cfg (view_of s) → minv clean cfg (view_of (exec disarm s)).
Proof.
  intros Hm. destruct (disarmed s) eqn:Hd.
  { unfold disarm. rewrite exec_bind. change (eval (gets disarmed) s) with (disarmed s).
    rewrite Hd. exact Hm. }
  destruct Hm as ((Hcf & Hsz & _) & _ & Hq & Hcl).
  destruct (mgr_disarm_active s Hd) as (Ha & Hc & Hq' & _ & ts & Hs & Hts & Hok).
  unfold minv, view_of. cbn [v_ctl v_rib v_queue]. rewrite Hq'. split_and!.
  - split_and!; [by rewrite Hc|rewrite Ha, map_size_empty; lia|rewrite Ha; apply map_Forall_empty].
  - intros t. rewrite Ha, lookup_empty. by intros [].
  - by eapply queue_ok_config.
  - intros [Hw Hb]%Hcl. split; [done|]. simpl in Hb.
    eapply no_stray_sweep; [done| |done|by apply Hok|done].
    intros t Hin. rewrite Ha, lookup_empty, <-Hts. split; [by intros []|done].
Qed.

Lemma minv_mop clean cfg o : preserves (λ s, minv clean cfg (view_of s)) (run_mop o).
Proof.
  destruct o as [ev mono wall|mono wall|t mono wall|t mono wall|rows mono| |lim];
    intros s Hm; cbn [run_mop].
  - by apply (minv_decide_and_execute clean cfg (OpEvent ev mono)).
  - unfold tick. rewrite exec_bind, exec_bind.
    apply (minv_decide_and_execute clean cfg (OpTick mono)); [done|].
    apply minv_retry_reapply. by rewrite mgr_retry_mirror_view.
  - rewrite exec_bind. by apply minv_apply_add.
  - by apply (minv_decide_and_execute clean cfg (OpManualRemove t)).
  - apply (triple_for_each (λ s, minv clean cfg (view_of s))); [|done].
    intros row _. apply minv_rehydrate_row.
  - by apply minv_disarm.
  - done.
Qed.

Lemma mreachable_minv (clean : Prop) cfg b j lim s :
  (clean → withdraw_ok ∧ rib b = ∅) →
  mreachable cfg b j lim s → minv clean cfg (view_of s).
Proof.
  intros Hcl Hr. induction Hr as [| |s o _ IH]; [..|by apply minv_mop].
  all: split_and!; [exact (reachable_inv cfg _ (reach_new cfg))| |constructor|];
    [intros t; simpl; rewrite lookup_empty; by intros []|].
  all: intros [Hw Hb]%Hcl; split; [done|]; intros p r; simpl; by rewrite Hb, lookup_empty.
Qed.

(** ** A disarmed manager *)

Definition is_rehydrate (o : mop) : bool :=
  match o with MRehydrate _ _ => true | _ => false end.

(** Disarmed, nothing active, and no route that is not in [b0]. *)
Definition quiet (b0 : gmap IpNet Route) (s : RtbhManager) : Prop :=
  disarmed s = true ∧ active (controller s) = ∅ ∧ rib (bgp s) ⊆ b0.

Lemma swept_subseteq ts b b' : swept ts b b' → b' ⊆ b.
Proof.
  intros Hs. apply map_subseteq_spec. intros p r Hp.
  destruct (Hs p) as [<-|[_ ?]]; [done|congruence].
Qed.

Lemma active_empty_iff (a : gmap IpAddr ActiveEntry) : a = ∅ ↔ ∀ t, ¬ is_Some (a !! t).
Proof.
  split; [intros -> t; rewrite lookup_empty; by intros []|].
  intros Ha. apply map_eq. intros t. rewrite lookup_empty. by apply eq_None_not_Some.
Qed.

Lemma quiet_decide_and_execute b0 o mono wall s :
  (∀ t, o ≠ OpRollback t) → quiet b0 s → quiet b0 (exec (decide_and_execute o mono wall) s).
Proof.
  intros Ho (Hd & Ha & Hb). unfold decide_and_execute. rewrite exec_bind.
  set (s1 := exec (on_controller (run_op o)) s).
  destruct (run_op_decided (controller s) o Ho) as [Hc [(ts & Hev & Hts)|(r & Hev & Hfr)]];
    change (eval (on_controller (run_op o)) s) with (eval (run_op o) (controller s)); rewrite Hev.
  - destruct (mgr_withdraws_view ts mono wall s1) as (Hc1 & _ & Hd1 & Hs & _).
    split_and!; [by rewrite Hd1| |etrans; [by eapply swept_subseteq|done]].
    rewrite Hc1. change (controller s1) with (exec (run_op o) (controller s)).
    apply active_empty_iff. intros t Ht. destruct (Hts t) as [Hin Hni].
    destruct (decide (t ∈ ts)); [rewrite Hin in Ht by done; by destruct Ht|].
    rewrite Hni, Ha, lookup_empty in Ht by done. by destruct Ht.
  - rewrite exec_single_announce.
    destruct (mgr_announce_view (ip_of (prefix r)) r Auto mono wall s1)
      as [(_ & Hbad & _)|(_ & _ & Hv)].
    { change (disarmed s = false) in Hbad. congruence. }
    injection Hv as Hc1 Hr1 _ Hd1. unfold quiet. rewrite Hd1, Hr1, Hc1. split_and!; [done| |done].
    change (controller s1) with (exec (run_op o) (controller s)). unfold ip_of.
    by rewrite (fresh_rollback _ _ _ Hfr).
Qed.

Lemma quiet_retry_reapply b0 : preserves (quiet b0) retry_pending_reapply.
Proof.
  intros s Hq. unfold retry_pending_reapply. rewrite exec_bind.
  change (eval (gets pending_reapply) s) with (pending_reapply s).
  destruct (pending_reapply s) as [|op ops]; [done|]. rewrite exec_bind.
  apply (triple_for_each (quiet b0)); [|done]. intros x _ s' Hs'.
  assert (is_active (ra_target x) s' = false) as Hn.
  { apply not_true_iff_false. rewrite mgr_is_active_iff. destruct Hs' as (_ & -> & _).
    rewrite lookup_empty. by intros []. }
  unfold retry_reapply. rewrite exec_bind.
  change (eval (gets (is_active (ra_target x))) s') with (is_active (ra_target x) s').
  by rewrite Hn.
Qed.

Lemma quiet_mop b0 o : is_rehydrate o = false → preserves (quiet b0) (run_mop o).
Proof.
  intros Ho. destruct o as [ev mono wall|mono wall|t mono wall|t mono wall|rows mono| |lim];
    intros s Hq; cbn [run_mop].
  - by apply (quiet_decide_and_execute b0 (OpEvent ev mono)).
  - unfold tick. rewrite exec_bind, exec_bind.
    apply (quiet_decide_and_execute b0 (OpTick mono)); [done|].
    apply quiet_retry_reapply. pose proof (mgr_retry_mirror_view s) as Hv.
    injection Hv as Hc Hr _ Hd. unfold quiet. by rewrite Hd, Hc, Hr.
  - rewrite exec_bind. change (quiet b0 (exec (apply_add t mono wall) s)).
    destruct Hq as (Hd & Ha & Hb).
    destruct (mgr_apply_add_cases t mono wall s)
      as [(r & Hev & Hfr & Ht & -> & _)|(Hv & Hact & Hc & _ & _)].
    + set (s1 := set_controller (exec (manual_add t mono) (controller s)) s) in *.
      destruct (mgr_announce_view t r Manual mono wall s1) as [(_ & Hbad & _)|(_ & _ & Hv)].
      { change (disarmed s = false) in Hbad. congruence. }
      injection Hv as Hc1 Hr1 _ Hd1. unfold quiet. rewrite Hd1, Hr1, Hc1.
      split_and!; [done| |done]. subst s1 t. cbn [controller set_controller].
      by rewrite (fresh_rollback _ _ _ Hfr).
    + injection Hv as Hc1 Hr1 _ Hd1. unfold quiet. rewrite Hd1, Hr1, Hc1.
      split_and!; [done| |done]. apply active_empty_iff. intros t'.
      rewrite Hact, Ha, lookup_empty. by intros [].
  - by apply (quiet_decide_and_execute b0 (OpManualRemove t)).
  - done.
  - unfold disarm. rewrite exec_bind. change (eval (gets disarmed) s) with (disarmed s).
    destruct Hq as (Hd & ? & ?). by rewrite Hd.
  - done.
Qed.

(** ** The journal *)

Context `{!JournalSpec J} (healthy : J → Prop) (wall_ok : Z → Prop).

(** A journal that, while healthy, accepts the writes of a time in range and
    stays healthy. *)
Definition journal_ok : Prop :=
  (∀ t o at_ j, healthy j → wall_ok at_ →
    is_ok (eval (j_record_announce t o at_) j) = true ∧ healthy (exec (j_record_announce t o at_) j)) ∧
  (∀ t at_ j, healthy j → wall_ok at_ →
    is_ok (eval (j_record_withdraw t at_) j) = true ∧ healthy (exec (j_record_withdraw t at_) j)).

(** The journal holds one row per active target, with its origin, and nothing
    waits to be mirrored. *)
Definition mirrored (s : RtbhManager) : Prop :=
  rows (journal s) = origin <$> active (controller s) ∧ pending_mirror s = [] ∧ healthy (journal s).

Lemma mgr_announce_rows t r o mono wall s :
  journal_ok → healthy (journal s) → wall_ok wall →
  let out := eval (execute_and_journal_announce t r o mono wall) s in
  let s' := exec (execute_and_journal_announce t r o mono wall) s in
  pending_mirror s' = pending_mirror s ∧ healthy (journal s') ∧
  (out = AnnApplied →
    rows (journal s') = <[t := keep_manual (rows (journal s) !! t) o]> (rows (journal s))) ∧
  (out ≠ AnnApplied → rows (journal s') = rows (journal s)).
Proof.
  intros [Hja _] Hh Hwall out s'. subst out s'.
  unfold execute_and_journal_announce, on_cell, on_bgp, on_journal.
  pose proof (record_announce_rows t o wall (journal s)) as Hrow.
  destruct (Hja t o wall (journal s) Hh Hwall) as [Ha Hh']. rewrite Ha in Hrow.
  unfold eval, exec in Hrow, Ha, Hh'. msimp.
  destruct (disarmed s) eqn:Hd; cbn; [done|].
  destruct (rate_limiter s) eqn:Hl; cbn; [destruct (try_acquire mono (cell s)) as [[] ?]|]; cbn;
    [|done|]; (destruct (bgp_announce r (bgp s)) as [[] ?] eqn:Hr; cbn in *; [|done]);
  by destruct (j_record_announce t o wall (journal s)) as [[] ?].
Qed.

Lemma mgr_withdraws_rows ts mono wall s :
  journal_ok → withdraw_ok → healthy (journal s) → wall_ok wall →
  let s' := exec (for_each ((λ t, Withdraw (host_prefix t)) <$> ts)
                           (execute_and_journal mono wall)) s in
  pending_mirror s' = pending_mirror s ∧ healthy (journal s') ∧
  ∀ t, rows (journal s') !! t = if decide (t ∈ ts) then None else rows (journal s) !! t.
Proof.
  intros [_ Hjw] Hw Hh Hwall. revert s Hh. induction ts as [|t ts IH]; intros s Hh s'; subst s'; [done|].
  rewrite fmap_cons, exec_for_each_cons.
  set (s1 := exec (execute_and_journal mono wall (Withdraw (host_prefix t))) s).
  assert (pending_mirror s1 = pending_mirror s ∧ healthy (journal s1) ∧
    rows (journal s1) = delete t (rows (journal s))) as (Hp & Hh1 & Hr).
  { subst s1. pose proof (record_withdraw_rows t wall (journal s)) as Hrow.
    destruct (Hjw t wall (journal s) Hh Hwall) as [Ha Hh']. rewrite Ha in Hrow.
    specialize (Hw (host_prefix t) (bgp s)).
    unfold execute_and_journal, on_bgp, on_journal, ip_of. rewrite net_addr_host_prefix.
    unfold eval, exec in Hw, Hrow, Ha, Hh'. msimp.
    destruct (bgp_withdraw (host_prefix t) (bgp s)) as [[] ?]; [|done]. cbn.
    by destruct (j_record_withdraw t wall (journal s)) as [[] ?]. }
  destruct (IH s1 Hh1) as (Hp' & Hh' & Hr'). split_and!; [congruence|done|]. intros t'. rewrite Hr', Hr.
  destruct (decide (t' = t)) as [->|Hne].
  - rewrite lookup_delete_eq. by destruct (decide (t ∈ ts)), (decide (t ∈ t :: ts)); set_solver.
  - rewrite lookup_delete_ne by done. destruct (decide (t' ∈ ts)), (decide (t' ∈ t :: ts)); set_solver.
Qed.

Lemma mirrored_decide_and_execute o mono wall s :
  journal_ok → withdraw_ok → wall_ok wall →
  match o with OpEvent _ _ | OpTick _ | OpManualRemove _ => True | _ => False end →
  mirrored s → mirrored (exec (decide_and_execute o mono wall) s).
Proof.
  intros Hj Hw Hwall Ho (Hm & Hp & Hh). unfold decide_and_execute. rewrite exec_bind.
  set (s1 := exec (on_controller (run_op o)) s).
  pose proof (run_op_origins o (controller s) Ho) as Hor.
  destruct (run_op_decided (controller s) o ltac:(by destruct o))
    as [Hc [(ts & Hev & Hts)|(r & Hev & Hfr)]];
    change (eval (on_controller (run_op o)) s) with (eval (run_op o) (controller s)); rewrite Hev.
  - destruct (mgr_withdraws_rows ts mono wall s1 Hj Hw Hh Hwall) as (Hp1 & Hh1 & Hr1).
    destruct (mgr_withdraws_view ts mono wall s1) as (Hc1 & _).
    split; [|by rewrite Hp1]. apply map_eq. intros t. rewrite Hr1, Hc1, lookup_fmap.
    change (controller s1) with (exec (run_op o) (controller s)).
    change (journal s1) with (journal s). rewrite Hm, lookup_fmap.
    destruct (Hts t) as [Hin Hni]. case_decide as Hd; [by rewrite Hin|].
    specialize (Hni Hd). destruct (active (exec (run_op o) (controller s)) !! t) as [e'|] eqn:He'.
    + specialize (Hor t e' He'). destruct (active (controller s) !! t); simpl; [by rewrite Hor|].
      destruct Hni as [[? ?] _]; [by eexists|done].
    + destruct (active (controller s) !! t); [|done]. destruct Hni as [_ [? ?]]; [by eexists|done].
  - rewrite exec_single_announce.
    destruct (mgr_announce_rows (ip_of (prefix r)) r Auto mono wall s1 Hj Hh Hwall)
      as (Hp1 & Hh1 & Hyes & Hno).
    split; [|by rewrite Hp1].
    destruct (mgr_announce_view (ip_of (prefix r)) r Auto mono wall s1)
      as [(Hout & _ & Hv)|(Hout & _ & Hv)]; injection Hv as Hc1 _ _ _; rewrite Hc1;
      change (controller s1) with (exec (run_op o) (controller s)).
    + rewrite Hyes by done. change (journal s1) with (journal s). rewrite Hm.
      destruct Hfr as (t & _ & _ & Hat & Hn & [e' He'] & Hne & _). unfold ip_of. rewrite Hat.
      rewrite lookup_fmap, Hn. cbn [fmap option_fmap option_map keep_manual].
      apply map_eq. intros t'. rewrite lookup_fmap. destruct (decide (t' = t)) as [->|].
      * specialize (Hor t e' He'). rewrite Hn in Hor. rewrite lookup_insert_eq, He'. simpl.
        by rewrite Hor.
      * by rewrite lookup_insert_ne, lookup_fmap, Hne.
    + rewrite Hno by done. unfold ip_of. by rewrite (fresh_rollback _ _ _ Hfr).
Qed.

Lemma mirrored_apply_add t mono wall s :
  journal_ok → wall_ok wall → mirrored s → mirrored (exec (apply_add t mono wall) s).
Proof.
  intros Hj Hwall (Hm & Hp & Hh).
  pose proof (manual_add_origin t mono (controller s)) as [Hoth Hman].
  set (c' := exec (manual_add t mono) (controller s)) in *.
  destruct (mgr_apply_add_cases t mono wall s)
    as [(r & Hev & Hfr & Ht & -> & _)|(_ & Hact & Hc & -> & _)].
  - fold c' in Hfr |- *.
    destruct (mgr_announce_rows t r Manual mono wall (set_controller c' s) Hj Hh Hwall)
      as (Hp1 & Hh1 & Hyes & Hno).
    split; [|by rewrite Hp1].
    destruct (mgr_announce_view t r Manual mono wall (set_controller c' s))
      as [(Hout & _ & Hw)|(Hout & _ & Hw)]; injection Hw as Hc1 _ _ _; rewrite Hc1.
    + rewrite Hyes by done. cbn [journal controller set_controller]. rewrite Hm.
      destruct Hfr as (t' & _ & _ & Hat & Hn & [e' He'] & _). rewrite Ht in Hat. subst t'.
      rewrite keep_manual_manual. apply map_eq. intros t'. rewrite lookup_fmap. destruct (decide (t' = t)) as [->|].
      * rewrite lookup_insert_eq, He'. simpl. by rewrite (Hman e').
      * by rewrite lookup_insert_ne, lookup_fmap, Hoth.
    + rewrite Hno by done. cbn [journal controller set_controller]. subst t.
      by rewrite (fresh_rollback _ _ _ Hfr).
  - fold c' in Hact, Hc |- *. destruct (is_active t (set_controller c' s)) eqn:Ha.
    + apply mgr_is_active_iff in Ha as [e He]. cbn [controller set_controller] in He.
      destruct Hj as [Hja _]. pose proof (record_announce_rows t Manual wall (journal s)) as Hrow.
      destruct (Hja t Manual wall (journal s) Hh Hwall) as [Hok Hh']. rewrite Hok in Hrow.
      unfold on_journal. unfold eval, exec in Hrow, Hok, Hh'. msimp.
      destruct (j_record_announce t Manual wall (journal s)) as [[] j']; [|done]. cbn in *.
      split; [|done]. cbn. rewrite Hrow, Hm, keep_manual_manual. apply map_eq. intros t'. rewrite lookup_fmap.
      destruct (decide (t' = t)) as [->|].
      * rewrite lookup_insert_eq, He. simpl. by rewrite (Hman e).
      * by rewrite lookup_insert_ne, lookup_fmap, Hoth.
    + split; [|by split]. change (rows (journal s) = origin <$> active c').
      rewrite Hm. apply map_eq. intros t'. rewrite !lookup_fmap.
      destruct (decide (t' = t)) as [->|]; [|by rewrite Hoth].
      apply not_true_iff_false in Ha. rewrite mgr_is_active_iff in Ha.
      cbn [controller set_controller] in Ha. pose proof Ha as Hn. rewrite Hact in Hn.
      apply eq_None_not_Some in Ha, Hn. by rewrite Ha, Hn.
Qed.

(** The wall clock an operation reads is in range. *)
Definition mop_timed (P : Z → Prop) (o : mop) : Prop :=
  match o with
  | MEvent _ _ wall | MTick _ wall | MAdd _ _ wall | MRemove _ _ wall => P wall
  | MRehydrate _ _ | MDisarm | MCell _ => True
  end.

Lemma mirrored_mop o :
  journal_ok → withdraw_ok → mop_timed wall_ok o → is_rehydrate o = false → o ≠ MDisarm →
  preserves mirrored (run_mop o).
Proof.
  intros Hj Hw Hwall Ho Hdis.
  destruct o as [ev mono wall|mono wall|t mono wall|t mono wall|rows mono| |lim];
    intros s Hm; cbn [run_mop]; try done.
  - by apply (mirrored_decide_and_execute (OpEvent ev mono)).
  - unfold tick. rewrite exec_bind, exec_bind.
    apply (mirrored_decide_and_execute (OpTick mono)); [done..|].
    assert (exec retry_pending_mirror s = s) as ->.
    { destruct Hm as (_ & Hp & _). unfold retry_pending_mirror. rewrite exec_bind.
      change (eval (gets pending_mirror) s) with (pending_mirror s). by rewrite Hp. }
    unfold retry_pending_reapply. rewrite exec_bind.
    change (eval (gets pending_reapply) s) with (pending_reapply s).
    destruct (pending_reapply s) as [|op ops]; [done|]. rewrite exec_bind.
    apply (triple_for_each mirrored); [|done]. intros x _ s' Hs'.
    unfold retry_reapply, on_bgp. msimp.
    destruct (is_active (ra_target x) s'); cbn; [|done].
    by destruct (bgp_announce (ra_route x) (bgp s')) as [[] ?].
  - rewrite exec_bind. by apply mirrored_apply_add.
  - by apply (mirrored_decide_and_execute (OpManualRemove t)).
Qed.

(** ** The queues *)

Definition queues_nodup (s : RtbhManager) : Prop :=
  NoDup (mirror_target <$> pending_mirror s) ∧ NoDup (ra_target <$> pending_reapply s).

Lemma nodup_queue_mirror op : preserves queues_nodup (queue_mirror op).
Proof.
  intros s [Hm Hr]. split; [|done]. apply NoDup_retain_snoc; [|done].
  intros y Hy%bool_decide_eq_true. done.
Qed.

Lemma nodup_queue_reapply op : preserves queues_nodup (queue_reapply op).
Proof.
  intros s [Hm Hr]. split; [done|]. apply NoDup_retain_snoc; [|done].
  intros y Hy%bool_decide_eq_true. done.
Qed.

(** Computations that leave both queues alone. *)
Lemma nodup_same {A} (m : M RtbhManager A) :
  (∀ s, pending_mirror (exec m s) = pending_mirror s ∧ pending_reapply (exec m s) = pending_reapply s) →
  preserves queues_nodup m.
Proof. intros Hm s Hs. destruct (Hm s) as [Hp Hr]. unfold queues_nodup. by rewrite Hp, Hr. Qed.

Lemma nodup_ret {A} (a : A) : preserves queues_nodup (mret a).
Proof. by apply nodup_same. Qed.
Lemma nodup_bind {A A'} (m : M RtbhManager A) (f : A → M RtbhManager A') :
  preserves queues_nodup m → (∀ a, preserves queues_nodup (f a)) → preserves queues_nodup (m ≫= f).
Proof. intros Hm Hf. eapply triple_bind; [exact Hm|exact Hf]. Qed.

Lemma nodup_retry_mirror : preserves queues_nodup retry_pending_mirror.
Proof.
  assert (∀ ops s, NoDup (mirror_target <$> pending_mirror s ++ ops) →
      NoDup (ra_target <$> pending_reapply s) →
      queues_nodup (exec (for_each ops retry_mirror) s)) as Hloop.
  { induction ops as [|op ops IH]; intros s Hm Hr.
    { split; [by rewrite app_nil_r in Hm|done]. }
    rewrite exec_for_each_cons. apply IH.
    - unfold retry_mirror. destruct op; unfold on_journal; msimp.
      all: match goal with |- context [match ?e with Ok _ => _ | Err _ => _ end] =>
        destruct e end; cbn; [by eapply NoDup_fmap_drop_mid|by rewrite <-app_assoc].
    - unfold retry_mirror. destruct op; unfold on_journal; msimp.
      all: match goal with |- context [match ?e with Ok _ => _ | Err _ => _ end] =>
        destruct e end; done. }
  intros s Hs. unfold retry_pending_mirror. rewrite exec_bind.
  change (eval (gets pending_mirror) s) with (pending_mirror s).
  destruct (pending_mirror s) as [|op ops] eqn:Hp; [exact Hs|].
  destruct Hs as [Hm Hr]. rewrite Hp in Hm. rewrite exec_bind. by apply Hloop.
Qed.

Lemma nodup_retry_reapply : preserves queues_nodup retry_pending_reapply.
Proof.
  assert (∀ ops s, NoDup (mirror_target <$> pending_mirror s) →
      NoDup (ra_target <$> pending_reapply s ++ ops) →
      queues_nodup (exec (for_each ops retry_reapply) s)) as Hloop.
  { induction ops as [|op ops IH]; intros s Hm Hr.
    { split; [done|by rewrite app_nil_r in Hr]. }
    rewrite exec_for_each_cons. unfold retry_reapply at 2, on_bgp. msimp.
    destruct (is_active (ra_target op) s); cbn; [|apply IH; [done|by eapply NoDup_fmap_drop_mid]].
    destruct (bgp_announce (ra_route op) (bgp s)) as [[] ?]; cbn; apply IH; cbn; try done.
    - by eapply NoDup_fmap_drop_mid.
    - by rewrite <-app_assoc. }
  intros s Hs. unfold retry_pending_reapply. rewrite exec_bind.
  change (eval (gets pending_reapply) s) with (pending_reapply s).
  destruct (pending_reapply s) as [|op ops] eqn:Hp; [exact Hs|].
  destruct Hs as [Hm Hr]. rewrite Hp in Hr. rewrite exec_bind. by apply Hloop.
Qed.

Ltac nodup_tac := repeat first
  [ apply nodup_retry_mirror | apply nodup_retry_reapply
  | apply nodup_bind; [|intros ?] | apply nodup_queue_mirror | apply nodup_queue_reapply
  | apply (triple_for_each queues_nodup); intros ? _
  | progress case_match | by apply nodup_same ].

Lemma nodup_execute mono wall a : preserves queues_nodup (execute_and_journal mono wall a).
Proof. unfold execute_and_journal, execute_and_journal_announce. nodup_tac. Qed.

Lemma nodup_mop o : preserves queues_nodup (run_mop o).
Proof.
  destruct o as [ev mono wall|mono wall|t mono wall|t mono wall|rows mono| |lim]; cbn [run_mop].
  - unfold apply_event. nodup_tac. apply nodup_execute.
  - unfold tick. nodup_tac. apply nodup_execute.
  - unfold apply_add, execute_and_journal_announce. nodup_tac.
  - unfold apply_remove. nodup_tac. apply nodup_execute.
  - unfold rehydrate, rehydrate_row. nodup_tac.
  - unfold disarm, disarm_target. nodup_tac.
  - nodup_tac.
Qed.

(** A property of the journal that its writes keep is kept by every operation. *)
Lemma mgr_journal_mop (P : J → Prop) o :
  (∀ t o at_, preserves P (j_record_announce t o at_)) →
  (∀ t at_, preserves P (j_record_withdraw t at_)) →
  preserves (λ s, P (journal s)) (run_mop o).
Proof.
  intros Ha Hw.
  destruct o as [ev mono wall|mono wall|t mono wall|t mono wall|rs mono| |lim]; cbn [run_mop].
  - unfold apply_event, execute_and_journal, execute_and_journal_announce. journal_tac.
  - unfold tick, retry_pending_mirror, retry_pending_reapply, retry_mirror, retry_reapply,
      execute_and_journal, execute_and_journal_announce. journal_tac.
  - unfold apply_add, execute_and_journal_announce. journal_tac.
  - unfold apply_remove, execute_and_journal, execute_and_journal_announce. journal_tac.
  - unfold rehydrate, rehydrate_row. journal_tac.
  - unfold disarm, disarm_target. journal_tac.
  - journal_tac.
Qed.

(** C2: no phantom mitigation: in every reachable state, whatever calls to the
    executor and the journal failed, each active target has its own host route
    in the routing table, or a queued retry of exactly that route. *)
Theorem rtbh_no_phantom cfg b j lim s t e :
  mreachable cfg b j lim s → active (controller s) !! t = Some e →
  ∃ r, host_route (controller s) t = Some r ∧ prefix r = host_prefix t ∧
    (rib (bgp s) !! host_prefix t = Some r ∨
     {| ra_target := t; ra_route := r |} ∈ pending_reapply s).
Proof.
  intros Hr He. apply (mreachable_minv False) in Hr as (_ & Hf & _ & _); [|done].
  destruct (Hf t) as (r & Hroute & Hb); [by eexists|]. exists r.
  split_and!; [done|by eapply host_route_prefix|done].
Qed.

(** C21: the routing table is exactly the active set: on a session where
    withdrawals succeed and that started empty, once no rehydration retry is
    pending, the routes in the table are the host routes of the active
    targets and no others, although announcements may have failed. *)
Theorem rtbh_table_is_active_set cfg b j lim s :
  withdraw_ok → rib b = ∅ → mreachable cfg b j lim s → pending_reapply s = [] →
  ∀ p r, rib (bgp s) !! p = Some r ↔
    ∃ t, p = host_prefix t ∧ is_Some (active (controller s) !! t) ∧
      host_route (controller s) t = Some r.
Proof.
  intros Hw Hb Hr Hq p r. apply (mreachable_minv True) in Hr as (_ & Hf & _ & Hcl); [|done].
  destruct (Hcl I) as [_ Hs]. split; [apply Hs|]. intros (t & -> & Ha & Hroute).
  destruct (Hf t Ha) as (r' & Hr' & [Hin|Hin]); simpl in *; [congruence|].
  rewrite Hq in Hin. set_solver.
Qed.

(** C29: the kill switch is final: after [disarm], no sequence of events, ticks,
    operator requests and further disarms makes a target active again or adds
    a route; and if withdrawals succeed every target active at the time of
    the disarm is gone from the table for good. *)
Theorem rtbh_disarm_final s os :
  disarmed s = false → Forall (λ o, is_rehydrate o = false) os →
  let s1 := exec disarm s in
  let s2 := exec (run_mops os) s1 in
  active (controller s2) = ∅ ∧ disarmed s2 = true ∧ rib (bgp s2) ⊆ rib (bgp s1) ∧
  (withdraw_ok → ∀ t, is_Some (active (controller s) !! t) →
     rib (bgp s2) !! host_prefix t = None).
Proof.
  intros Hd Hos s1 s2.
  destruct (mgr_disarm_active s Hd) as (Ha & _ & _ & Hd1 & ts & _ & Hts & Hok).
  assert (quiet (rib (bgp s1)) s2) as (? & ? & Hsub).
  { apply (triple_for_each (quiet (rib (bgp s1)))); [|done].
    intros o Ho. apply quiet_mop. rewrite Forall_forall in Hos. by apply Hos. }
  split_and!; try done. intros Hw t Ht.
  apply (lookup_weaken_None (rib (bgp s2)) (rib (bgp s1))); [|done].
  apply Hok; [done|]. by apply Hts.
Qed.

(** The answer to an operator's request is truthful: [Applied] exactly when
    the target is active afterwards, and then as a manual blackhole; other
    targets are untouched; a rejection names a reason that holds; and a
    deferral is only given to a target that the policy admits. *)
Theorem rtbh_apply_add_truthful t mono wall s :
  let out := eval (apply_add t mono wall) s in
  let s' := exec (apply_add t mono wall) s in
  let c := controller s in
  (out = Applied ↔ is_Some (active (controller s') !! t)) ∧
  (∀ e, active (controller s') !! t = Some e → origin e = Manual) ∧
  (∀ t', t' ≠ t → active (controller s') !! t' = active c !! t') ∧
  (∀ reason, out = Rejected reason →
     match reason with
     | RejDisarmed => disarmed s = true
     | RejProtected => is_protected c t = true
     | RejIneligible => is_eligible c t = false
     | RejNoNextHop => has_next_hop c t = false
     end) ∧
  (out = Deferred → is_protected c t = false ∧ is_eligible c t = true ∧ has_next_hop c t = true).
Proof.
  intros out s' c. subst out s' c.
  pose proof (manual_add_origin t mono (controller s)) as [Hoth Hman].
  pose proof (mgr_apply_add_cases t mono wall s) as Hcases.
  set (c := controller s) in *. set (c' := exec (manual_add t mono) c) in *. cbv zeta in Hcases.
  destruct Hcases as [(r & Hev & Hfr & Ht & -> & ->)|(Hv & Hact & Hc & _ & ->)].
  - destruct (mgr_announce_view t r Manual mono wall (set_controller c' s))
      as [(Hout & _ & Hv)|(Hout & Hdis & Hv)]; injection Hv as Hc1 _ _ _; rewrite Hc1;
      cbn [controller set_controller disarmed] in *.
    + rewrite Hout. split_and!; try done. destruct Hfr as (t' & _ & _ & Hat & _ & Hs & _).
      split; [|done]. intros _. congruence.
    + pose proof (fresh_rollback _ _ _ Hfr) as Hrb. rewrite Ht in Hrb. rewrite Hrb.
      destruct Hfr as (t' & Hroute & _ & Hat & Hn & _). rewrite Ht in Hat. subst t'.
      pose proof (manual_add_eligible t mono c r Hev) as (He & Hp & Hnh).
      set (o := eval (execute_and_journal_announce _ _ _ _ _) _) in *.
      split_and!; [rewrite Hn; split; [by destruct o|by intros []]|congruence|done| |done].
      intros reason. destruct o; intros [= <-]. by apply Hdis.
  - injection Hv as Hc1 _ _ _. rewrite Hc1. cbn [controller set_controller].
    assert (is_protected c' t = is_protected c t ∧ is_eligible c' t = is_eligible c t ∧
            has_next_hop c' t = has_next_hop c t) as (-> & -> & ->).
    { unfold is_protected, is_eligible, has_next_hop. by rewrite Hc. }
    assert (is_active t (set_controller c' s) = true ↔ is_Some (active c' !! t)) as Hia
      by apply mgr_is_active_iff.
    destruct (is_active t (set_controller c' s)).
    { split_and!; try done. by split; [intros _; apply Hia|]. }
    assert (¬ is_Some (active c' !! t)) as Hna by (intros ?%Hia; done).
    destruct (is_protected c t), (is_eligible c t), (has_next_hop c t); cbn;
      (split_and!; [by split|done|done|by intros reason [= <-]|done]).
Qed.

(** The retry queues stay bounded by the number of targets: whatever fails
    and however often, each queue holds at most one operation per target. *)
Theorem rtbh_queues_coalesce cfg b j lim s :
  mreachable cfg b j lim s →
  NoDup (mirror_target <$> pending_mirror s) ∧ NoDup (ra_target <$> pending_reapply s).
Proof.
  induction 1 as [| |s o _ IH]; [split; constructor..|]. exact (nodup_mop o s IH).
Qed.

(** The journal is the active set: with a journal that accepts the writes
    of times in range and a session whose withdrawals succeed, after any sequence of events,
    ticks and operator requests, with announcements failing, rate-capped or
    not, the journal has exactly one row per active target, with the origin
    the controller has for it. *)
Theorem rtbh_journal_is_active_set s os :
  journal_ok → withdraw_ok → mirrored s →
  Forall (λ o, mop_timed wall_ok o ∧ is_rehydrate o = false ∧ o ≠ MDisarm) os →
  rows (journal (exec (run_mops os) s)) = origin <$> active (controller (exec (run_mops os) s)).
Proof.
  intros Hj Hw Hm Hos.
  apply (triple_for_each mirrored os run_mop); [|done].
  intros o Ho. rewrite Forall_forall in Hos. by apply mirrored_mop; try apply Hos.
Qed.
End manager.

(** ** Examples *)

#[local] Existing Instance RefNet.lib.
#[local] Existing Instance RefNet.order.

Definition ex_opened (mono wall : Z) : mop := MEvent (Opened (ex_detection ex_target)) mono wall.

(** A session whose first announcement fails, rehydrating one row. *)
Definition ex_scripted : Manager RtbhController Scripted TableJournal MirrorOp ReapplyOp :=
  exec (run_mop (MRehydrate [(ex_target, 0, Auto)] 1000))
    (manager_new (controller_new ex_cfg) (scripted [false]) (table_journal []) (limiter_new 5)).

Lemma rtbh_no_phantom_witness :
  ∃ r, host_route (controller ex_scripted) ex_target = Some r ∧ prefix r = host_prefix ex_target ∧
    (rib (bgp ex_scripted) !! host_prefix ex_target = Some r ∨
     {| ra_target := ex_target; ra_route := r |} ∈ pending_reapply ex_scripted).
Proof.
  apply (rtbh_no_phantom ex_cfg (scripted [false]) (table_journal []) (limiter_new 5) ex_scripted
    ex_target {| announced_at := 1000; last_activity := 1000; origin := Auto;
                 clear_requested_at := None |}).
  - unfold ex_scripted. apply mreach_op, mreach_new.
  - vm_refl.
Defined.

(** A shadow session with a journal, after one detection. *)
Definition ex_shadow : ShadowBgpExecutor := {| recorder := [] |}.
Definition ex_map : MapJournal := {| mj_rows := ∅ |}.
Definition ex_live : Manager RtbhController ShadowBgpExecutor MapJournal MirrorOp ReapplyOp :=
  exec (run_mop (ex_opened 1000 5000))
    (manager_new (controller_new ex_cfg) ex_shadow ex_map (limiter_new 5)).

Lemma ex_live_reachable :
  mreachable ex_cfg ex_shadow ex_map (limiter_new 5) ex_live.
Proof. unfold ex_live. apply mreach_op, mreach_new. Qed.

Lemma rtbh_table_is_active_set_witness :
  rib (bgp ex_live) !! host_prefix ex_target = Some ex_route ↔
    ∃ t, host_prefix ex_target = host_prefix t ∧ is_Some (active (controller ex_live) !! t) ∧
      host_route (controller ex_live) t = Some ex_route.
Proof.
  apply (rtbh_table_is_active_set ex_cfg ex_shadow ex_map (limiter_new 5) ex_live).
  - intros p b. reflexivity.
  - reflexivity.
  - exact ex_live_reachable.
  - vm_refl.
Defined.

Lemma rtbh_disarm_final_witness :
  active (controller (exec (run_mops [ex_opened 2000 6000; MTick 3000 7000]) (exec disarm ex_live)))
  = ∅.
Proof.
  apply (rtbh_disarm_final ex_live [ex_opened 2000 6000; MTick 3000 7000]).
  - vm_refl.
  - repeat constructor.
Defined.

Lemma rtbh_queues_coalesce_witness :
  NoDup (mirror_target <$> pending_mirror ex_live) ∧ NoDup (ra_target <$> pending_reapply ex_live).
Proof.
  apply (rtbh_queues_coalesce ex_cfg ex_shadow ex_map (limiter_new 5)). exact ex_live_reachable.
Defined.

Lemma rtbh_journal_is_active_set_witness :
  let s := exec (run_mops [ex_opened 1000 5000; MTick 3000 7000])
             (manager_new (controller_new ex_cfg) ex_shadow ex_map (limiter_new 5)) in
  rows (journal s) = origin <$> active (controller s).
Proof.
  apply (rtbh_journal_is_active_set (λ _, True) (λ _, True)
    (manager_new (controller_new ex_cfg) ex_shadow ex_map (limiter_new 5))).
  - split; [intros t o at_ j _ _|intros t at_ j _ _]; split; [reflexivity|exact I|reflexivity|exact I].
  - intros p b. reflexivity.
  - split; [vm_refl|split; [vm_refl|exact I]].
  - repeat constructor; discriminate.
Defined.

(** A queued journal write can outlive the state it describes: a withdrawal
    whose journal write failed stays queued across the successful
    re-announcement of the same target, and its replay on the next tick
    deletes the row of a blackhole that is active and announced, with nothing
    left queued to repair it. *)
Theorem rtbh_mirror_replay_loses_row :
  let s := exec (run_mops [ex_opened 1000 5000; MRemove ex_target 2000 6000;
                           ex_opened 3000 7000; MTick 4000 8000])
             (manager_new (controller_new ex_cfg) (scripted [])
                (table_journal [true; false; true; true]) (limiter_new 5)) in
  bool_decide (is_Some (active (controller s) !! ex_target)) = true ∧
  bool_decide (is_Some (rib (bgp s) !! host_prefix ex_target)) = true ∧
  bool_decide (rows (journal s) !! ex_target = None) = true ∧ pending_mirror s = [].
Proof. split_and!; vm_refl. Qed.
