(* ===== verification/FlowSpecController.v ===== *)
(** * The FlowSpec decision engine

    Model of [crates/blackwall-rtbh/src/flowspec_controller.rs]: the pure
    controller of flow-scoped rules. A target can have several active rules,
    one per protocol and destination port; a rule's action is not part of its
    identity, so an update in place keeps the previous rule until its
    announcement is confirmed. *)
From stdpp Require Import prelude gmap.
From S2P Require Import Prelude Net Float Flow Executor.

Open Scope Z_scope.

Section flowspec_controller.
Context `{IpNetLib} `{HashOrder}.

(** Host route, protocol, destination port. *)
Definition FlowKey : Type := IpNet * Z * Z.

Record ActiveEntry := {
  rule : FlowSpecRule;
  announced_at : Z;
  last_activity : Z;
  origin : BlackholeOrigin;
  clear_requested_at : option Z;
  pending_prior : option FlowSpecRule;
}.

Record FlowSpecConfig := {
  eligible_prefixes : list IpNet;
  max_rules : nat;
  hold_down : Duration;
  max_ttl : option Duration;
  protected_prefixes : list IpNet;
}.

Inductive FlowSpecAction : Type :=
| Announce (r : FlowSpecRule)
| Withdraw (r : FlowSpecRule).

Record FlowSpecController := {
  config : FlowSpecConfig;
  active : gmap FlowKey ActiveEntry;
  protected_skipped : Z;
}.

Definition set_active (f : gmap FlowKey ActiveEntry → gmap FlowKey ActiveEntry)
    (c : FlowSpecController) : FlowSpecController :=
  {| config := config c; active := f (active c); protected_skipped := protected_skipped c |}.

Definition count_protected (c : FlowSpecController) : FlowSpecController :=
  {| config := config c; active := active c;
     protected_skipped := u64_sat_add (protected_skipped c) 1 |}.

Definition controller_new (cfg : FlowSpecConfig) : FlowSpecController :=
  {| config := cfg; active := ∅; protected_skipped := 0 |}.

Definition key_of (r : FlowSpecRule) : FlowKey :=
  (dst r, default 0 (protocol r), default 0 (dst_port r)).

Definition is_eligible (c : FlowSpecController) (target : IpAddr) : bool :=
  any_contains (eligible_prefixes (config c)) target.

Definition is_protected (c : FlowSpecController) (target : IpAddr) : bool :=
  any_contains (protected_prefixes (config c)) target.

(** [e] with its pending clear cancelled and its activity at [now]. *)
Definition touched (now : Z) (e : ActiveEntry) : ActiveEntry := {|
  rule := rule e; announced_at := announced_at e; last_activity := now; origin := origin e;
  clear_requested_at := None; pending_prior := pending_prior e |}.

(** [e] updated in place to [r], the rule it held kept as the prior one. *)
Definition updated (r : FlowSpecRule) (e : ActiveEntry) : ActiveEntry := {|
  rule := r; announced_at := announced_at e; last_activity := last_activity e;
  origin := origin e; clear_requested_at := clear_requested_at e;
  pending_prior := Some (rule e) |}.

Definition insert_rule (target : IpAddr) (r : FlowSpecRule) (announced : Z)
    (o : BlackholeOrigin) : M FlowSpecController (list FlowSpecAction) := λ c,
  if any_contains (protected_prefixes (config c)) target then ([], count_protected c)
  else if negb (is_eligible c target) then ([], c)
  else
    let key := key_of r in
    match active c !! key with
    | Some e =>
        let e1 := touched announced e in
        if negb (action_eqb (action (rule e1)) (action r))
        then ([Announce r], set_active (<[key := updated r e1]>) c)
        else ([], set_active (<[key := e1]>) c)
    | None =>
        if (max_rules (config c) <=? size (active c))%nat then ([], c)
        else ([Announce r],
              set_active (<[key := {| rule := r; announced_at := announced;
                                      last_activity := announced; origin := o;
                                      clear_requested_at := None;
                                      pending_prior := None |}]>) c)
    end.

(** The [flat_map] of [install] over the rules still to install. *)
Fixpoint install_rules (target : IpAddr) (rules : list (Z * Z * f32)) (now : Z)
    : M FlowSpecController (list FlowSpecAction) :=
  match rules with
  | [] => mret []
  | (proto, port, rate) :: rules' =>
      let r := {| dst := host_prefix target; protocol := Some proto; dst_port := Some port;
                  action := TrafficRate rate |} in
      a ← insert_rule target r now Auto;
      acts ← install_rules target rules' now;
      mret (a ++ acts)
  end.

Definition install (target : IpAddr) (rules : list (Z * Z * f32)) (now : Z)
    : M FlowSpecController (list FlowSpecAction) := install_rules target rules now.

(** The body of the loop of [clear_target] for one key. *)
Definition clear_key (now hold_ms : Z) (key : FlowKey)
    : M FlowSpecController (list FlowSpecAction) := λ c,
  match active c !! key with
  | Some e =>
      if bool_decide (origin e = Manual) then ([], c)
      else if hold_ms <=? u64_sat_sub now (announced_at e) then
        ([Withdraw (rule e)], set_active (delete key) c)
      else
        ([], set_active (<[key := {| rule := rule e; announced_at := announced_at e;
                                     last_activity := last_activity e; origin := origin e;
                                     clear_requested_at := Some now;
                                     pending_prior := pending_prior e |}]>) c)
  | None => ([], c)
  end.

Fixpoint clear_keys (now hold_ms : Z) (keys : list FlowKey)
    : M FlowSpecController (list FlowSpecAction) :=
  match keys with
  | [] => mret []
  | k :: keys' =>
      a ← clear_key now hold_ms k;
      acts ← clear_keys now hold_ms keys';
      mret (a ++ acts)
  end.

Definition clear_target (target : IpAddr) (now : Z)
    : M FlowSpecController (list FlowSpecAction) := λ c,
  let host := host_prefix target in
  let hold_ms := millis_u64 (hold_down (config c)) in
  let keys := filter (λ k : FlowKey, k.1.1 = host) (hm_iter (active c)).*1 in
  clear_keys now hold_ms keys c.

Definition manual_add (r : FlowSpecRule) (now : Z)
    : M FlowSpecController (list FlowSpecAction) := λ c,
  let key := key_of r in
  match active c !! key with
  | Some e =>
      let e1 := {| rule := rule e; announced_at := announced_at e;
                   last_activity := last_activity e; origin := Manual;
                   clear_requested_at := None; pending_prior := pending_prior e |} in
      if negb (action_eqb (action (rule e1)) (action r))
      then ([Announce r], set_active (<[key := updated r e1]>) c)
      else ([], set_active (<[key := e1]>) c)
  | None => insert_rule (net_addr (dst r)) r now Manual c
  end.

Definition manual_remove (r : FlowSpecRule) : M FlowSpecController (list FlowSpecAction) := λ c,
  match active c !! key_of r with
  | Some e => ([Withdraw (rule e)], set_active (delete (key_of r)) c)
  | None => ([], c)
  end.

(** Whether [tick] expires an entry. *)
Definition due (cfg : FlowSpecConfig) (now : Z) (e : ActiveEntry) : bool :=
  let hold_ms := millis_u64 (hold_down cfg) in
  let ttl_ms := millis_u64 <$> max_ttl cfg in
  let cleared_due := match clear_requested_at e with
                     | Some _ => hold_ms <=? u64_sat_sub now (announced_at e)
                     | None => false
                     end in
  let ttl_due := bool_decide (origin e = Auto) &&
                 match ttl_ms with
                 | Some ttl => ttl <=? u64_sat_sub now (last_activity e)
                 | None => false
                 end in
  cleared_due || ttl_due.

(** [expired.into_iter().filter_map(|k| active.remove(&k).map(Withdraw))] *)
Fixpoint remove_keys (keys : list FlowKey) : M FlowSpecController (list FlowSpecAction) :=
  match keys with
  | [] => mret []
  | k :: keys' =>
      c ← get;
      modify (set_active (delete k));;
      acts ← remove_keys keys';
      mret (match active c !! k with Some e => Withdraw (rule e) :: acts | None => acts end)
  end.

Definition tick (now : Z) : M FlowSpecController (list FlowSpecAction) := λ c,
  let expired := (filter (λ ke, due (config c) now ke.2 = true) (hm_iter (active c))).*1 in
  remove_keys expired c.

Definition resume (r : FlowSpecRule) (announced : Z) (o : BlackholeOrigin)
    : M FlowSpecController (list FlowSpecAction) :=
  insert_rule (net_addr (dst r)) r announced o.

Definition active_rules (c : FlowSpecController) : list (FlowKey * Z * BlackholeOrigin) :=
  (λ ke, (ke.1, announced_at ke.2, origin ke.2)) <$> hm_iter (active c).

Definition active_rule (k : FlowKey) (c : FlowSpecController) : option FlowSpecRule :=
  rule <$> active c !! k.

(** Every rule of the target's host route is touched; the order of the
    iteration does not matter. *)
Definition refresh_target (target : IpAddr) (now : Z) : M FlowSpecController unit :=
  modify (set_active (map_imap (λ k e,
    Some (if bool_decide (k.1.1 = host_prefix target) then touched now e else e)))).

Definition rollback (k : FlowKey) : M FlowSpecController unit :=
  modify (λ c,
    match active c !! k with
    | Some e =>
        match pending_prior e with
        | Some prior =>
            set_active (<[k := {| rule := prior; announced_at := announced_at e;
                                  last_activity := last_activity e; origin := origin e;
                                  clear_requested_at := clear_requested_at e;
                                  pending_prior := None |}]>) c
        | None => set_active (delete k) c
        end
    | None => set_active (delete k) c
    end).

(** ** The rules in force *)

(** The rule of every active key, without the bookkeeping. *)
Definition rules (c : FlowSpecController) : gmap FlowKey FlowSpecRule := rule <$> active c.

Lemma rules_lookup c k : rules c !! k = rule <$> active c !! k.
Proof. apply lookup_fmap. Qed.

(** The announcements [rs] account for the step from [c] to [c']: each
    announced rule is the one in force under its key, with the rule it replaces
    (if any) kept for a rollback, and no other key changed its rule. *)
Definition announces (c c' : FlowSpecController) (rs : list FlowSpecRule) : Prop :=
  NoDup (key_of <$> rs) ∧
  (∀ r, r ∈ rs → ∃ e, active c' !! key_of r = Some e ∧ rule e = r ∧
     pending_prior e = rules c !! key_of r) ∧
  (∀ k, k ∉ key_of <$> rs → rules c' !! k = rules c !! k).

(** The withdrawals of the keys [ks] account for the step from [c] to [c']. *)
Definition withdraws (c c' : FlowSpecController) (ks : list FlowKey)
    (acts : list FlowSpecAction) : Prop :=
  NoDup ks ∧ acts = omap (λ k, Withdraw <$> rules c !! k) ks ∧
  ∀ k, rules c' !! k = if decide (k ∈ ks) then None else rules c !! k.

Definition decided (c c' : FlowSpecController) (acts : list FlowSpecAction) : Prop :=
  config c' = config c ∧
  ((∃ rs, acts = Announce <$> rs ∧ announces c c' rs) ∨ ∃ ks, withdraws c c' ks acts).

Lemma fs_announces_nil c c' : (∀ k, rules c' !! k = rules c !! k) → announces c c' [].
Proof. intros Hr. split_and!; [constructor|set_solver|auto]. Qed.

Lemma fs_announces_one c r e f :
  f (active c) !! key_of r = Some e → rule e = r → pending_prior e = rules c !! key_of r →
  (∀ k, k ≠ key_of r → f (active c) !! k = active c !! k) →
  announces c (set_active f c) [r].
Proof.
  intros He Hr Hp Hne. split_and!; [apply NoDup_singleton|..].
  - intros r' ->%list_elem_of_singleton. eauto.
  - intros k Hk. rewrite !rules_lookup. simpl. rewrite Hne; [done|]. set_solver.
Qed.

Lemma fs_rules_update c k e e' :
  active c !! k = Some e → rule e' = rule e →
  ∀ k', rules (set_active (<[k := e']>) c) !! k' = rules c !! k'.
Proof.
  intros He Hr k'. rewrite !rules_lookup. simpl.
  destruct (decide (k' = k)) as [->|]; [|by rewrite lookup_insert_ne].
  rewrite lookup_insert_eq, He. simpl. by rewrite Hr.
Qed.

(** One rule: at most one announcement, and only its own key is touched. *)
Lemma fs_insert_step t r at_ o c :
  let c' := exec (insert_rule t r at_ o) c in
  config c' = config c ∧ (∀ k, k ≠ key_of r → active c' !! k = active c !! k) ∧
  ∃ rs, eval (insert_rule t r at_ o) c = Announce <$> rs ∧ announces c c' rs ∧
    (rs = [] ∨ rs = [r]).
Proof.
  unfold exec, eval, insert_rule.
  destruct (any_contains (protected_prefixes (config c)) t); cbn.
  { split_and!; try done. exists []. split_and!; [done|by apply fs_announces_nil|by left]. }
  destruct (is_eligible c t); cbn.
  2: { split_and!; try done. exists []. split_and!; [done|by apply fs_announces_nil|by left]. }
  destruct (active c !! key_of r) as [e|] eqn:He; [destruct (action_eqb _ _)|]; cbn.
  - split_and!; [done|intros; by apply lookup_insert_ne|]. exists [].
    split_and!; [done|apply fs_announces_nil; by eapply fs_rules_update|by left].
  - split_and!; [done|intros; by apply lookup_insert_ne|]. exists [r].
    split_and!; [done| |by right].
    eapply fs_announces_one; [apply lookup_insert_eq|done|..].
    + by rewrite rules_lookup, He.
    + intros. by apply lookup_insert_ne.
  - destruct (_ <=? _)%nat; cbn.
    { split_and!; try done. exists []. split_and!; [done|by apply fs_announces_nil|by left]. }
    split_and!; [done|intros; by apply lookup_insert_ne|]. exists [r].
    split_and!; [done| |by right].
    eapply fs_announces_one; [apply lookup_insert_eq|done|..].
    + by rewrite rules_lookup, He.
    + intros. by apply lookup_insert_ne.
Qed.

Lemma fs_insert_decided t r at_ o c :
  decided c (exec (insert_rule t r at_ o) c) (eval (insert_rule t r at_ o) c).
Proof.
  destruct (fs_insert_step t r at_ o c) as (Hc & _ & rs & Hev & Ha & _).
  split; [done|]. left. eauto.
Qed.

Definition flow_key (target : IpAddr) (x : Z * Z * f32) : FlowKey :=
  (host_prefix target, x.1.1, x.1.2).

Lemma fs_install_step t rs0 now c :
  NoDup (flow_key t <$> rs0) →
  let c' := exec (install_rules t rs0 now) c in
  config c' = config c ∧ (∀ k, k ∉ flow_key t <$> rs0 → active c' !! k = active c !! k) ∧
  ∃ rs, eval (install_rules t rs0 now) c = Announce <$> rs ∧ announces c c' rs ∧
    (∀ r, r ∈ rs → key_of r ∈ flow_key t <$> rs0).
Proof.
  revert c. induction rs0 as [|[[p q] x] rs0 IH]; intros c Hnd c'; subst c'.
  { split_and!; try done. exists []. split_and!; [done|by apply fs_announces_nil|set_solver]. }
  apply NoDup_cons in Hnd as [Hni Hnd]. cbn [install_rules].
  set (r := {| dst := host_prefix t; protocol := Some p; dst_port := Some q;
               action := TrafficRate x |}).
  rewrite !exec_bind, !eval_bind.
  destruct (fs_insert_step t r now Auto c) as (Hc1 & Hne1 & rs1 & -> & (Hnd1 & Hr1 & Hk1) & Hrs1).
  set (c1 := exec (insert_rule t r now Auto) c) in *.
  destruct (IH c1 Hnd) as (Hc2 & Hne2 & rs2 & -> & (Hnd2 & Hr2 & Hk2) & Hin2).
  set (c2 := exec (install_rules t rs0 now) c1) in *.
  change (exec (mret _) c2) with c2. change (eval (mret ?a) c2) with a.
  change (key_of r) with (flow_key t (p, q, x)) in *.
  assert (∀ r', r' ∈ rs1 → r' = r) as Heq1 by (destruct Hrs1 as [-> | ->]; set_solver).
  split_and!; [congruence|intros k Hk; rewrite Hne2, Hne1; set_solver|].
  exists (rs1 ++ rs2). split_and!; [by rewrite fmap_app|..].
  - split_and!.
    + rewrite fmap_app. apply NoDup_app. split_and!; [done| |done].
      intros k (r' & -> & Hr')%list_elem_of_fmap. rewrite (Heq1 r' Hr').
      intros (r2 & Hk & Hr2')%list_elem_of_fmap. apply Hni.
      change (flow_key t (p, q, x)) with (key_of r). rewrite Hk. by apply Hin2.
    + intros r' [Hr'|Hr']%elem_of_app.
      * destruct (Hr1 r' Hr') as (e & He & ? & ?). exists e. split_and!; [|done|done].
        rewrite Hne2; [done|]. by rewrite (Heq1 r' Hr').
      * destruct (Hr2 r' Hr') as (e & He & ? & Hp). exists e. split_and!; [done..|].
        rewrite Hp, !rules_lookup, Hne1; [done|]. intros Hbad. apply Hni. rewrite <-Hbad.
        by apply Hin2.
    + intros k Hk. rewrite fmap_app in Hk. rewrite Hk2, Hk1; [done|set_solver..].
  - intros r' [Hr'|Hr']%elem_of_app; [rewrite (Heq1 r' Hr'); left|right; by apply Hin2].
Qed.

Lemma fs_remove_keys_withdraws ks c :
  NoDup ks →
  config (exec (remove_keys ks) c) = config c ∧
  (∀ k, active (exec (remove_keys ks) c) !! k
        = if decide (k ∈ ks) then None else active c !! k) ∧
  eval (remove_keys ks) c = omap (λ k, Withdraw <$> rules c !! k) ks.
Proof.
  revert c. induction ks as [|k ks IH]; intros c Hnd.
  { by split_and!. }
  apply NoDup_cons in Hnd as [Hni Hnd]. cbn [remove_keys]. rewrite !exec_bind, !eval_bind.
  change (eval get c) with c. change (exec get c) with c.
  change (exec (modify ?f) c) with (f c).
  destruct (IH (set_active (delete k) c) Hnd) as (Hc & Ha & Hev).
  change (exec (mret _) ?x) with x. split_and!; [done|..].
  - intros k'. rewrite Ha, decide_elem_of_cons. simpl.
    destruct (decide (k' = k)) as [->|Hne]; [rewrite lookup_delete_eq; by case_decide|].
    by rewrite lookup_delete_ne.
  - change (eval (mret ?x) _) with x. rewrite Hev. csimpl. rewrite rules_lookup.
    rewrite (omap_ext_elem _ (λ k', Withdraw <$> rules c !! k')); [by destruct (active c !! k)|].
    intros k' Hk'. rewrite !rules_lookup. simpl. rewrite lookup_delete_ne; [done|]. set_solver.
Qed.

Lemma fs_tick_keys_nodup now c :
  NoDup (filter (λ ke, due (config c) now ke.2 = true) (hm_iter (active c))).*1.
Proof.
  apply NoDup_fmap_filter, NoDup_hm_iter_fst.
Qed.

Lemma fs_tick_withdraws now c :
  ∃ ks, withdraws c (exec (tick now) c) ks (eval (tick now) c) ∧
    ∀ k, k ∈ ks ↔ ∃ e, active c !! k = Some e ∧ due (config c) now e = true.
Proof.
  set (ks := (filter (λ ke, due (config c) now ke.2 = true) (hm_iter (active c))).*1).
  destruct (fs_remove_keys_withdraws ks c (fs_tick_keys_nodup now c)) as (_ & Ha & Hev).
  exists ks. split; [split_and!; [apply fs_tick_keys_nodup|exact Hev|]|].
  - intros k. rewrite !rules_lookup. unfold tick, exec in *. fold ks. rewrite Ha.
    by case_decide.
  - intros k. subst ks. rewrite list_elem_of_fmap. split.
    + intros ([k' e] & -> & [Hd Hin]%list_elem_of_filter). apply elem_of_hm_iter in Hin. eauto.
    + intros (e & He & Hd). exists (k, e). split; [done|]. apply list_elem_of_filter.
      by rewrite elem_of_hm_iter.
Qed.

(** What [clear_keys] does to each of its keys. *)
Lemma fs_clear_keys_step now hold ks c :
  NoDup ks →
  let gone k := ∃ e, active c !! k = Some e ∧ origin e = Auto ∧
                  hold ≤ u64_sat_sub now (announced_at e) in
  let c' := exec (clear_keys now hold ks) c in
  config c' = config c ∧ (∀ k, k ∉ ks → active c' !! k = active c !! k) ∧
  ∃ ks', withdraws c c' ks' (eval (clear_keys now hold ks) c) ∧
    ∀ k, k ∈ ks' ↔ k ∈ ks ∧ gone k.
Proof.
  revert c. induction ks as [|k ks IH]; intros c Hnd gone c'; subst c'.
  { split_and!; try done. exists []. split; [|set_solver].
    by split_and!; [constructor|..]. }
  apply NoDup_cons in Hnd as [Hni Hnd]. cbn [clear_keys]. rewrite !exec_bind, !eval_bind.
  set (c1 := exec (clear_key now hold k) c).
  assert (config c1 = config c ∧ (∀ k', k' ≠ k → active c1 !! k' = active c !! k') ∧
    ((gone k ∧ eval (clear_key now hold k) c = omap (λ k, Withdraw <$> rules c !! k) [k] ∧
      rules c1 !! k = None) ∨
     (¬ gone k ∧ eval (clear_key now hold k) c = [] ∧ rules c1 !! k = rules c !! k)))
    as (Hc1 & Hne1 & Hcase).
  { subst c1 gone. unfold exec, eval, clear_key. csimpl. rewrite !rules_lookup.
    destruct (active c !! k) as [e|] eqn:He; csimpl.
    2: { split_and!; try done. right. split_and!; [|done|by rewrite He]. by intros (e' & [=] & _). }
    case_bool_decide as Ho; [|destruct (hold <=? _) eqn:Hh]; csimpl.
    - split_and!; try done. right. split_and!; [|done|by rewrite He].
      intros (e' & [= <-] & Hbad & _). congruence.
    - split_and!; [done|intros; by apply lookup_delete_ne|]. left.
      split_and!; [|done|by rewrite lookup_delete_eq]. exists e. split_and!; [done| |lia].
      by destruct (origin e).
    - split_and!; [done|intros; by apply lookup_insert_ne|]. right.
      split_and!; [|done|by rewrite lookup_insert_eq]. intros (e' & [= <-] & _ & ?). lia. }
  destruct (IH c1 Hnd) as (Hc2 & Hne2 & ks' & (Hnd' & Hev & Hr) & Hin').
  change (exec (mret _) ?x) with x. change (eval (mret ?x) _) with x.
  split_and!; [congruence|intros k' Hk'; rewrite Hne2, Hne1; set_solver|].
  assert (∀ k', k' ∈ ks → active c1 !! k' = active c !! k') as Hks.
  { intros k' Hk'. apply Hne1. set_solver. }
  assert (omap (λ k, Withdraw <$> rules c1 !! k) ks' = omap (λ k, Withdraw <$> rules c !! k) ks')
    as Hom.
  { apply omap_ext_elem. intros k' [Hk' _]%Hin'. by rewrite !rules_lookup, Hks. }
  assert (∀ k', k' ∈ ks' ↔ k' ∈ ks ∧ gone k') as Hin2.
  { intros k'. rewrite Hin'. unfold gone. split; intros [Hk Hg]; (split; [done|]);
      [rewrite <-(Hks k' Hk)|rewrite (Hks k' Hk)]; done. }
  assert (k ∉ ks') as Hnk by (rewrite Hin2; tauto).
  assert (∀ k', k' ≠ k → rules c1 !! k' = rules c !! k') as Hrne.
  { intros k' Hk'. by rewrite !rules_lookup, Hne1. }
  destruct Hcase as [(Hg & -> & Hk)|(Hg & -> & Hk)].
  - exists (k :: ks'). split; [split_and!|].
    + by apply NoDup_cons.
    + rewrite Hev, Hom. csimpl. by destruct (rules c !! k).
    + intros k'. rewrite Hr, decide_elem_of_cons. destruct (decide (k' = k)) as [->|].
      * rewrite Hk. by case_decide.
      * by rewrite Hrne.
    + intros k'. rewrite elem_of_cons, Hin2, elem_of_cons. naive_solver.
  - exists ks'. split; [split_and!|].
    + done.
    + by rewrite Hev, Hom.
    + intros k'. rewrite Hr. case_decide; [done|].
      destruct (decide (k' = k)) as [->|]; [done|by apply Hrne].
    + intros k'. rewrite Hin2, elem_of_cons. naive_solver.
Qed.

Lemma fs_clear_target_withdraws t now c :
  config (exec (clear_target t now) c) = config c ∧
  ∃ ks, withdraws c (exec (clear_target t now) c) ks (eval (clear_target t now) c) ∧
    ∀ k : FlowKey, k ∈ ks ↔ k.1.1 = host_prefix t ∧ ∃ e, active c !! k = Some e ∧ origin e = Auto ∧
      millis_u64 (hold_down (config c)) ≤ u64_sat_sub now (announced_at e).
Proof.
  unfold exec, eval, clear_target. set (keys := filter _ _).
  assert (NoDup keys) as Hnd by apply NoDup_filter, NoDup_hm_iter_fst.
  destruct (fs_clear_keys_step now (millis_u64 (hold_down (config c))) keys c Hnd)
    as (Hc & _ & ks & Hw & Hin).
  split; [done|]. exists ks. split; [done|]. intros k. rewrite Hin. unfold keys.
  rewrite list_elem_of_filter, list_elem_of_fmap. split.
  - intros [[? _] ?]. done.
  - intros [Hk (e & He & ?)]. split; [|eauto]. split; [done|]. exists (k, e).
    by rewrite elem_of_hm_iter.
Qed.

Lemma fs_refresh_rules t now c k :
  rules (exec (refresh_target t now) c) !! k = rules c !! k.
Proof.
  rewrite !rules_lookup. unfold exec, refresh_target, modify. simpl.
  rewrite map_lookup_imap. destruct (active c !! k); [simpl|done]. by case_bool_decide.
Qed.

Lemma fs_manual_add_step r now c :
  let c' := exec (manual_add r now) c in
  config c' = config c ∧
  ∃ rs, eval (manual_add r now) c = Announce <$> rs ∧ announces c c' rs ∧ (rs = [] ∨ rs = [r]).
Proof.
  unfold exec, eval, manual_add. destruct (active c !! key_of r) as [e|] eqn:He.
  2: { destruct (fs_insert_step (net_addr (dst r)) r now Manual c) as (? & _ & ?). done. }
  destruct (action_eqb _ _); cbn; (split; [done|]).
  - exists []. split_and!; [done| |by left]. apply fs_announces_nil. by eapply fs_rules_update.
  - exists [r]. split_and!; [done| |by right].
    eapply fs_announces_one; [apply lookup_insert_eq|done|..].
    + by rewrite rules_lookup, He.
    + intros. by apply lookup_insert_ne.
Qed.

(** After an operator's request, an active rule of its key is the operator's,
    and without an announcement it already had the requested action. *)
Lemma fs_manual_add_entry r now c e :
  active (exec (manual_add r now) c) !! key_of r = Some e →
  origin e = Manual ∧
  (eval (manual_add r now) c = [] → action_eqb (action (rule e)) (action r) = true).
Proof.
  unfold exec, eval, manual_add. destruct (active c !! key_of r) as [e0|] eqn:He.
  - destruct (action_eqb _ _) eqn:Ha; cbn; rewrite lookup_insert_eq; intros [= <-]; done.
  - unfold insert_rule. rewrite He. repeat case_match; simpl; try by rewrite He.
    rewrite lookup_insert_eq. by intros [= <-].
Qed.

Lemma fs_manual_remove_withdraws r c :
  config (exec (manual_remove r) c) = config c ∧
  withdraws c (exec (manual_remove r) c) [key_of r] (eval (manual_remove r) c).
Proof.
  unfold exec, eval, manual_remove.
  destruct (active c !! key_of r) as [e|] eqn:He; cbn; (split; [done|]); split_and!.
  - apply NoDup_singleton.
  - csimpl. by rewrite rules_lookup, He.
  - intros k. rewrite decide_elem_of_cons, !rules_lookup. simpl.
    destruct (decide (k = key_of r)) as [->|]; [by rewrite lookup_delete_eq|].
    by rewrite lookup_delete_ne.
  - apply NoDup_singleton.
  - csimpl. by rewrite rules_lookup, He.
  - intros k. rewrite decide_elem_of_cons. destruct (decide (k = key_of r)) as [->|].
    + by rewrite rules_lookup, He.
    + done.
Qed.

(** A rollback puts the prior rule of its key back and touches no other. *)
Lemma fs_rollback_rules c k e :
  active c !! k = Some e → rules (exec (rollback k) c) !! k = pending_prior e.
Proof.
  intros He. rewrite rules_lookup. unfold exec, rollback, modify. simpl. rewrite He.
  destruct (pending_prior e); simpl; [by rewrite lookup_insert_eq|by rewrite lookup_delete_eq].
Qed.

Lemma fs_rollback_other c k k' :
  k' ≠ k → active (exec (rollback k) c) !! k' = active c !! k'.
Proof.
  intros Hne. unfold exec, rollback, modify. simpl. repeat case_match; simpl;
    first [by apply lookup_insert_ne|by apply lookup_delete_ne].
Qed.

Lemma fs_rollback_config c k : config (exec (rollback k) c) = config c.
Proof. unfold exec, rollback, modify. simpl. by repeat case_match. Qed.

(** ** Sequences of operations *)

Inductive op : Type :=
| OpInstall (t : IpAddr) (rs : list (Z * Z * f32)) (now : Z)
| OpClear (t : IpAddr) (now : Z)
| OpRefresh (t : IpAddr) (now : Z)
| OpManualAdd (r : FlowSpecRule) (now : Z)
| OpManualRemove (r : FlowSpecRule)
| OpTick (now : Z)
| OpResume (r : FlowSpecRule) (at_ : Z) (o : BlackholeOrigin)
| OpRollback (k : FlowKey).

Definition run_op (o : op) : M FlowSpecController (list FlowSpecAction) :=
  match o with
  | OpInstall t rs now => install t rs now
  | OpClear t now => clear_target t now
  | OpRefresh t now => refresh_target t now;; mret []
  | OpManualAdd r now => manual_add r now
  | OpManualRemove r => manual_remove r
  | OpTick now => tick now
  | OpResume r at_ o => resume r at_ o
  | OpRollback k => rollback k;; mret []
  end.

Inductive reachable (cfg : FlowSpecConfig) : FlowSpecController → Prop :=
| reach_new : reachable cfg (controller_new cfg)
| reach_op c o : reachable cfg c → reachable cfg (exec (run_op o) c).

(** An install has distinct flows; a rollback is not a step of its own. *)
Definition op_wf (o : op) : Prop :=
  match o with
  | OpInstall t rs _ => NoDup (flow_key t <$> rs)
  | OpRollback _ => False
  | _ => True
  end.

Lemma fs_run_op_decided c o :
  op_wf o → decided c (exec (run_op o) c) (eval (run_op o) c).
Proof.
  destruct o as [t rs now|t now|t now|r now|r|now|r at_ o|k]; intros Ho; cbn [run_op].
  - destruct (fs_install_step t rs now c Ho) as (Hc & _ & rs' & Hev & Ha & _).
    split; [done|]. left. eauto.
  - destruct (fs_clear_target_withdraws t now c) as (Hc & ks & Hw & _). split; [done|]. right. eauto.
  - rewrite exec_bind, eval_bind. split; [done|]. left. exists []. split; [done|].
    apply fs_announces_nil. apply fs_refresh_rules.
  - destruct (fs_manual_add_step r now c) as (Hc & rs & Hev & Ha & _). split; [done|]. left. eauto.
  - destruct (fs_manual_remove_withdraws r c) as [Hc Hw]. split; [done|]. right. eauto.
  - destruct (fs_tick_withdraws now c) as (ks & Hw & _). split; [|right; eauto].
    by apply (fs_remove_keys_withdraws _ c (fs_tick_keys_nodup now c)).
  - apply fs_insert_decided.
  - done.
Qed.

(** ** The invariant *)

Definition entry_ok (cfg : FlowSpecConfig) (k : FlowKey) (e : ActiveEntry) : Prop :=
  key_of (rule e) = k ∧ (∀ r, pending_prior e = Some r → key_of r = k) ∧
  any_contains (eligible_prefixes cfg) (net_addr k.1.1) = true ∧
  any_contains (protected_prefixes cfg) (net_addr k.1.1) = false ∧
  (origin e = Manual → clear_requested_at e = None).

Definition ctl_inv (cfg : FlowSpecConfig) (c : FlowSpecController) : Prop :=
  config c = cfg ∧ (size (active c) ≤ max_rules cfg)%nat ∧ map_Forall (entry_ok cfg) (active c).

Lemma fs_inv_update cfg c k e e' :
  ctl_inv cfg c → active c !! k = Some e →
  (entry_ok cfg k e → entry_ok cfg k e') → ctl_inv cfg (set_active (<[k := e']>) c).
Proof.
  intros (Hc & Hs & Ha) He Ho. split_and!; [done|..]; simpl.
  - rewrite map_size_insert_Some by eauto. done.
  - apply map_Forall_insert_2; [|done]. by apply Ho, Ha.
Qed.

Lemma fs_inv_delete cfg c k : ctl_inv cfg c → ctl_inv cfg (set_active (delete k) c).
Proof.
  intros (Hc & Hs & Ha). split_and!; [done|..]; simpl.
  - etrans; [apply map_size_delete_le|done].
  - by apply map_Forall_delete.
Qed.

(** An entry takes a rule of its own key, or changes its bookkeeping. *)
Lemma fs_entry_updated cfg k r e :
  key_of r = k → entry_ok cfg k e → entry_ok cfg k (updated r e).
Proof.
  intros Hk (Hr & _ & ? & ? & ?). split_and!; try done. by intros r' [= <-].
Qed.

Lemma fs_inv_insert cfg t r at_ o :
  net_addr (dst r) = t → preserves (ctl_inv cfg) (insert_rule t r at_ o).
Proof.
  intros Ht c Hi. unfold insert_rule, exec, is_eligible. pose proof Hi as (Hc & Hs & Ha).
  rewrite Hc. destruct (any_contains (protected_prefixes cfg) t) eqn:Hp; [exact Hi|].
  destruct (any_contains (eligible_prefixes cfg) t) eqn:Hel; [|exact Hi]. simpl.
  destruct (active c !! key_of r) as [e|] eqn:He; [case_match|].
  - eapply fs_inv_update; [done..|]. intros Hok. apply fs_entry_updated; [done|].
    destruct Hok as (? & ? & ? & ? & _). done.
  - eapply fs_inv_update; [done..|]. intros (? & ? & ? & ? & _). done.
  - destruct (_ <=? _)%nat eqn:Hsz; [exact Hi|]. apply Nat.leb_gt in Hsz.
    split_and!; [done|..]; simpl.
    + rewrite map_size_insert_None by done. lia.
    + apply map_Forall_insert_2; [|done]. subst t. by split_and!.
Qed.

Lemma fs_inv_install cfg t rs now : preserves (ctl_inv cfg) (install_rules t rs now).
Proof.
  induction rs as [|[[p q] x] rs IH]; intros c Hi; [done|]. cbn [install_rules].
  rewrite !exec_bind. apply IH. apply fs_inv_insert; [apply net_addr_host_prefix|done].
Qed.

Lemma fs_inv_clear_keys cfg now hold ks : preserves (ctl_inv cfg) (clear_keys now hold ks).
Proof.
  induction ks as [|k ks IH]; intros c Hi; [done|]. cbn [clear_keys].
  rewrite !exec_bind. apply IH. unfold exec, clear_key.
  destruct (active c !! k) as [e|] eqn:He; [|done]. case_bool_decide as Ho; [done|].
  case_match; [by apply fs_inv_delete|]. eapply fs_inv_update; [done..|].
  intros (? & ? & ? & ? & _). by split_and!.
Qed.

Lemma fs_inv_remove_keys cfg ks : preserves (ctl_inv cfg) (remove_keys ks).
Proof.
  induction ks as [|k ks IH]; intros c Hi; [done|]. cbn [remove_keys].
  rewrite !exec_bind. apply IH. by apply fs_inv_delete.
Qed.

Lemma fs_inv_op cfg o : preserves (ctl_inv cfg) (run_op o).
Proof.
  destruct o as [t rs now|t now|t now|r now|r|now|r at_ o|k]; intros c Hi; cbn [run_op].
  - by apply fs_inv_install.
  - by apply fs_inv_clear_keys.
  - rewrite exec_bind. destruct Hi as (Hc & Hs & Ha). split_and!; [done|..].
    + etrans; [|exact Hs]. apply map_size_mono_imap.
    + intros k e. change (active (exec _ _)) with (map_imap (λ k e,
        Some (if bool_decide (k.1.1 = host_prefix t) then touched now e else e)) (active c)).
      rewrite map_lookup_imap. destruct (active c !! k) as [e0|] eqn:He; [|done]. simpl.
      intros [= <-]. pose proof (Ha k e0 He) as (? & ? & ? & ? & ?).
      case_bool_decide; by split_and!.
  - unfold exec, manual_add. destruct (active c !! key_of r) as [e|] eqn:He;
      [|by apply fs_inv_insert].
    case_match; (eapply fs_inv_update; [done..|]); intros (? & ? & ? & ? & _).
    + by apply fs_entry_updated; [|split_and!].
    + by split_and!.
  - unfold exec, manual_remove. case_match; [by apply fs_inv_delete|done].
  - by apply fs_inv_remove_keys.
  - by apply fs_inv_insert.
  - rewrite exec_bind. change (ctl_inv cfg (exec (rollback k) c)). unfold exec, rollback. cbn.
    destruct (active c !! k) as [e|] eqn:He; [|by apply fs_inv_delete].
    destruct (pending_prior e) as [prior|] eqn:Hp; [|by apply fs_inv_delete].
    eapply fs_inv_update; [done..|]. intros (? & Hpr & ? & ? & ?). split_and!; try done.
    by apply Hpr.
Qed.

Lemma fs_reachable_inv cfg c : reachable cfg c → ctl_inv cfg c.
Proof.
  induction 1 as [|c o _ IH]; [|by apply fs_inv_op].
  split_and!; [done|simpl; rewrite map_size_empty; lia|apply map_Forall_empty].
Qed.

(** The entry may be removed without an operator: it is automatic and its
    hold-down or its time-to-live has passed. *)
Definition removable (cfg : FlowSpecConfig) (now : Z) (e : ActiveEntry) : Prop :=
  origin e = Auto ∧
  (millis_u64 (hold_down cfg) ≤ u64_sat_sub now (announced_at e) ∨
   ∃ ttl, max_ttl cfg = Some ttl ∧ millis_u64 ttl ≤ u64_sat_sub now (last_activity e)).

Lemma fs_due_removable cfg k now e :
  entry_ok cfg k e → due cfg now e = true → removable cfg now e.
Proof.
  intros (_ & _ & _ & _ & Hm) Hd. unfold due in Hd. apply orb_true_iff in Hd.
  assert (origin e = Auto) as Ho.
  { destruct (origin e); [done|]. rewrite Hm in Hd by done. naive_solver. }
  split; [done|]. destruct Hd as [Hd|Hd].
  - destruct (clear_requested_at e); [|done]. left. lia.
  - apply andb_true_iff in Hd as [_ Hd]. destruct (max_ttl cfg) as [ttl|]; [|done].
    right. exists ttl. simpl in Hd. split; [done|lia].
Qed.

(** The steps the detector and the clock drive, at a given time. *)
Definition auto_op (o : op) : option Z :=
  match o with
  | OpInstall _ _ now | OpClear _ now | OpRefresh _ now | OpTick now => Some now
  | _ => None
  end.

Lemma fs_elem_of_withdraws c c' ks acts r :
  withdraws c c' ks acts → Withdraw r ∈ acts →
  ∃ k e, k ∈ ks ∧ active c !! k = Some e ∧ rule e = r ∧ rules c' !! k = None.
Proof.
  intros (_ & -> & Hr) (k & Hk & Hw)%elem_of_omap.
  rewrite rules_lookup in Hw. destruct (active c !! k) as [e|] eqn:He; [|done].
  simplify_eq/=. exists k, e. split_and!; try done. rewrite Hr. by case_decide.
Qed.

(** Whatever sequence of installs, clears, operator requests, ticks,
    rehydrations and rollbacks the FlowSpec controller has gone through, it
    never holds more than [max_rules] rules, each is stored under the key of
    its own rule, and its destination is eligible and not protected. *)
Theorem fs_reachable_safe cfg c :
  reachable cfg c →
  (size (active c) ≤ max_rules cfg)%nat ∧
  ∀ k e, active c !! k = Some e →
    key_of (rule e) = k ∧ any_contains (eligible_prefixes cfg) (net_addr (dst (rule e))) = true ∧
    any_contains (protected_prefixes cfg) (net_addr (dst (rule e))) = false.
Proof.
  intros (_ & Hs & Ha)%fs_reachable_inv. split; [done|]. intros k e He.
  destruct (Ha k e He) as (Hk & _ & ? & ? & _). by rewrite <-Hk in *.
Qed.

(** The actions of a FlowSpec step are exactly the change of the rules in
    force. Withdrawals carry the stored rules of the keys that disappear; each
    announced rule is the one in force under its key; no other rule changes;
    and rolling back an announced key puts back what was in force before,
    which for a changed action is the previous rule and not its absence. *)
Theorem fs_actions_track_rules c o :
  op_wf o →
  let c' := exec (run_op o) c in
  decided c c' (eval (run_op o) c) ∧
  ∀ r, Announce r ∈ eval (run_op o) c →
    rules c' !! key_of r = Some r ∧
    rules (exec (rollback (key_of r)) c') !! key_of r = rules c !! key_of r.
Proof.
  intros Ho c'. subst c'. pose proof (fs_run_op_decided c o Ho) as Hd. split; [done|].
  intros r Hr. destruct Hd as [_ [(rs & Hev & _ & Hrs & _)|(ks & _ & Hev & _)]]; rewrite Hev in Hr.
  2: { apply elem_of_omap in Hr as (k & _ & Hw). by destruct (rules c !! k). }
  apply list_elem_of_fmap in Hr as (r' & [= <-] & Hr).
  destruct (Hrs r Hr) as (e & He & Hre & Hp). split; [by rewrite rules_lookup, He; simpl; rewrite Hre|].
  by rewrite (fs_rollback_rules _ _ e) by done.
Qed.

(** The detector and the clock only ever withdraw an automatic rule whose
    hold-down or time-to-live has passed, and a clear of one target never
    withdraws a rule of another; an operator's rule is never withdrawn by
    them. *)
Theorem fs_auto_withdraw_justified cfg c o now r :
  reachable cfg c → op_wf o → auto_op o = Some now → Withdraw r ∈ eval (run_op o) c →
  ∃ k e, active c !! k = Some e ∧ rule e = r ∧ removable cfg now e ∧
    active (exec (run_op o) c) !! k = None ∧
    (∀ t now', o = OpClear t now' → dst r = host_prefix t).
Proof.
  intros (Hc & _ & Ha)%fs_reachable_inv Hwf Ho Hin. subst cfg.
  assert (∀ k, rules (exec (run_op o) c) !! k = None → active (exec (run_op o) c) !! k = None) as Hn.
  { intros k. rewrite rules_lookup. by destruct (active _ !! k). }
  destruct o as [t rs n|t n|t n|r' n|r'|n|r' at_ og|k]; simplify_eq/=.
  - destruct (fs_install_step t rs now c Hwf) as (_ & _ & rs' & Hev & _).
    unfold install in Hin. rewrite Hev in Hin. by apply list_elem_of_fmap in Hin as (? & ? & _).
  - destruct (fs_clear_target_withdraws t now c) as (_ & ks & Hw & Hks).
    destruct (fs_elem_of_withdraws _ _ _ _ _ Hw Hin) as (k & e & Hk & He & Hr & Hgone).
    apply Hks in Hk as [Hk (e' & He' & Hoe & Hh)]. assert (e' = e) as -> by congruence.
    exists k, e. split_and!; [done..|split; [done|by left]|by apply Hn|].
    intros t' n' [= <- <-]. destruct (Ha k e He) as (<- & _). by subst r.
  - rewrite eval_bind in Hin. by apply not_elem_of_nil in Hin.
  - destruct (fs_tick_withdraws now c) as (ks & Hw & Hks).
    destruct (fs_elem_of_withdraws _ _ _ _ _ Hw Hin) as (k & e & Hk & He & Hr & Hgone).
    apply Hks in Hk as (e' & He' & Hd). assert (e' = e) as -> by congruence.
    exists k, e. split_and!; [done..| |by apply Hn|done].
    by eapply fs_due_removable; [apply Ha|].
Qed.
End flowspec_controller.

(** ** Examples *)

#[local] Existing Instance RefNet.lib.
#[local] Existing Instance RefNet.order.

Definition fs_ex_cfg : FlowSpecConfig := {|
  eligible_prefixes := [RefNet.net4 203 0 113 0 24]; max_rules := 3;
  hold_down := {| secs := 10; nanos := 0 |}; max_ttl := None;
  protected_prefixes := [RefNet.net4 203 0 113 1 32] |}.

Definition fs_ex_target : IpAddr := ipv4 203 0 113 7.

(** Two flows of one target, dropped. *)
Definition fs_ex_flows : list (Z * Z * f32) := [(17, 53, f32_zero); (17, 123, f32_zero)].

Definition fs_ex_rule (port : Z) (rate : f32) : FlowSpecRule := {|
  dst := host_prefix fs_ex_target; protocol := Some 17; dst_port := Some port;
  action := TrafficRate rate |}.

Definition fs_ex_open : FlowSpecController :=
  exec (run_op (OpInstall fs_ex_target fs_ex_flows 1000)) (controller_new fs_ex_cfg).

Lemma fs_ex_open_reachable : reachable fs_ex_cfg fs_ex_open.
Proof. unfold fs_ex_open. apply reach_op, reach_new. Qed.

Lemma fs_ex_flows_wf : NoDup (flow_key fs_ex_target <$> fs_ex_flows).
Proof. apply (bool_decide_unpack _). by vm_compute. Qed.

Lemma fs_reachable_safe_witness :
  size (active fs_ex_open) = 2%nat ∧ (size (active fs_ex_open) ≤ max_rules fs_ex_cfg)%nat.
Proof.
  split; [vm_refl|]. exact (proj1 (fs_reachable_safe fs_ex_cfg fs_ex_open fs_ex_open_reachable)).
Defined.

Lemma fs_actions_track_rules_witness :
  decided (controller_new fs_ex_cfg) fs_ex_open
    (eval (run_op (OpInstall fs_ex_target fs_ex_flows 1000)) (controller_new fs_ex_cfg)).
Proof.
  apply (fs_actions_track_rules (controller_new fs_ex_cfg)
           (OpInstall fs_ex_target fs_ex_flows 1000)).
  exact fs_ex_flows_wf.
Defined.

(** One flow only. *)
Definition fs_ex_one : FlowSpecController :=
  exec (run_op (OpInstall fs_ex_target [(17, 53, f32_zero)] 1000)) (controller_new fs_ex_cfg).

Lemma fs_auto_withdraw_justified_witness :
  ∃ k e, active fs_ex_one !! k = Some e ∧ rule e = fs_ex_rule 53 f32_zero ∧
    removable fs_ex_cfg 11000 e ∧
    active (exec (run_op (OpClear fs_ex_target 11000)) fs_ex_one) !! k = None ∧
    (∀ t now', OpClear fs_ex_target 11000 = OpClear t now' →
       dst (fs_ex_rule 53 f32_zero) = host_prefix t).
Proof.
  apply (fs_auto_withdraw_justified fs_ex_cfg fs_ex_one (OpClear fs_ex_target 11000) 11000).
  - unfold fs_ex_one. apply reach_op, reach_new.
  - exact I.
  - reflexivity.
  - assert (eval (run_op (OpClear fs_ex_target 11000)) fs_ex_one
      = [Withdraw (fs_ex_rule 53 f32_zero)]) as -> by vm_refl.
    apply list_elem_of_here.
Defined.
