(* ===== verification/FlowSpecManager.v ===== *)
(** * The FlowSpec manager

    Model of [crates/blackwall-rtbh/src/flowspec_manager.rs]: the owner of the
    FlowSpec controller, executing its decisions on the same BGP executor and
    mirroring them into a journal of rules. Unlike the RTBH manager, an
    announcement can update a rule in place, so a failed one restores the
    previous rule, and a queued re-announcement is for the rule in force when
    it is retried. *)
From stdpp Require Import prelude gmap.
From S2P Require Import Prelude Net RateLimit Float Flow Executor ManagerState FlowSpecController.

Open Scope Z_scope.

Section flowspec_manager.
Context `{IpNetLib} `{HashOrder} {B J : Type} `{!BgpExecutor B} `{!FlowSpecJournal J}.

Inductive MirrorOp : Type :=
| MirrorAnnounce (r : FlowSpecRule) (o : BlackholeOrigin) (at_ms : Z)
| MirrorWithdraw (r : FlowSpecRule) (at_ms : Z).

Definition mirror_key (op : MirrorOp) : FlowKey :=
  match op with MirrorAnnounce r _ _ | MirrorWithdraw r _ => key_of r end.

Record ReapplyOp := { ra_key : FlowKey }.

#[local] Abbreviation FlowSpecManager := (Manager FlowSpecController B J MirrorOp ReapplyOp).

(** ** Operations *)

Definition is_active (k : FlowKey) (s : FlowSpecManager) : bool :=
  existsb (λ e : FlowKey * Z * BlackholeOrigin, bool_decide (e.1.1 = k))
    (active_rules (controller s)).

Definition queue_mirror (op : MirrorOp) : M FlowSpecManager unit := modify (λ s,
  let key := mirror_key op in
  set_queues (retain (λ o, bool_decide (mirror_key o ≠ key)) (pending_mirror s) ++ [op])
             (pending_reapply s) s).

Definition queue_reapply (op : ReapplyOp) : M FlowSpecManager unit := modify (λ s,
  let key := ra_key op in
  set_queues (pending_mirror s)
    (retain (λ o, bool_decide (ra_key o ≠ key)) (pending_reapply s) ++ [op]) s).

Definition execute_and_journal_announce (r : FlowSpecRule) (o : BlackholeOrigin)
    (mono_now wall_now : Z) : M FlowSpecManager AnnounceOutcome :=
  let key := key_of r in
  d ← gets disarmed;
  if d : bool then
    on_controller (rollback key);;
    modify (count 0 0 1);;
    mret Disarmed
  else
    limited ← gets rate_limiter;
    allowed ← (if limited : bool then on_cell (try_acquire mono_now) else mret true);
    if negb allowed then
      on_controller (rollback key);;
      modify (count 0 1 0);;
      mret RateCapped
    else
      res ← on_bgp (bgp_announce_flowspec r);
      match res with
      | Err _ =>
          on_controller (rollback key);;
          modify (count 1 0 0);;
          mret Failed
      | Ok _ =>
          j ← on_journal (fj_record_announce r o wall_now);
          match j with
          | Err _ => queue_mirror (MirrorAnnounce r o wall_now);; mret AnnApplied
          | Ok _ => mret AnnApplied
          end
      end.

Definition execute_and_journal (mono_now wall_now : Z) (a : FlowSpecAction)
    : M FlowSpecManager unit :=
  match a with
  | Announce r => execute_and_journal_announce r Auto mono_now wall_now;; mret ()
  | Withdraw r =>
      res ← on_bgp (bgp_withdraw_flowspec r);
      match res with
      | Err _ => mret ()
      | Ok _ =>
          j ← on_journal (fj_record_withdraw r wall_now);
          match j with
          | Err _ => queue_mirror (MirrorWithdraw r wall_now)
          | Ok _ => mret ()
          end
      end
  end.

Definition apply_open (target : IpAddr) (frs : list FlowRule) (mono_now wall_now : Z)
    : M FlowSpecManager unit :=
  let tuples := (λ r, (fr_proto r, fr_dst_port r, fr_rate r)) <$> frs in
  actions ← on_controller (install target tuples mono_now);
  for_each actions (execute_and_journal mono_now wall_now).

Definition apply_clear (target : IpAddr) (mono_now wall_now : Z) : M FlowSpecManager unit :=
  actions ← on_controller (clear_target target mono_now);
  for_each actions (execute_and_journal mono_now wall_now).

Definition apply_updated (target : IpAddr) (mono_now : Z) : M FlowSpecManager unit :=
  on_controller (refresh_target target mono_now).

(** One iteration of the loop of [retry_pending_mirror]. *)
Definition retry_mirror (op : MirrorOp) : M FlowSpecManager unit :=
  res ← match op with
        | MirrorAnnounce r o at_ms => on_journal (fj_record_announce r o at_ms)
        | MirrorWithdraw r at_ms => on_journal (fj_record_withdraw r at_ms)
        end;
  match res with
  | Err _ => modify (λ s, set_queues (pending_mirror s ++ [op]) (pending_reapply s) s)
  | Ok _ => mret ()
  end.

Definition retry_pending_mirror : M FlowSpecManager unit :=
  ops ← gets pending_mirror;
  match ops with
  | [] => mret ()
  | _ =>
      modify (λ s, set_queues [] (pending_reapply s) s);;
      for_each ops retry_mirror
  end.

(** One iteration of the loop of [retry_pending_reapply]. *)
Definition retry_reapply (op : ReapplyOp) : M FlowSpecManager unit :=
  cur ← gets (λ s, active_rule (ra_key op) (controller s));
  match cur with
  | None => mret ()
  | Some r =>
      res ← on_bgp (bgp_announce_flowspec r);
      match res with
      | Err _ => modify (λ s, set_queues (pending_mirror s) (pending_reapply s ++ [op]) s)
      | Ok _ => mret ()
      end
  end.

Definition retry_pending_reapply : M FlowSpecManager unit :=
  ops ← gets pending_reapply;
  match ops with
  | [] => mret ()
  | _ =>
      modify (λ s, set_queues (pending_mirror s) [] s);;
      for_each ops retry_reapply
  end.

Definition tick (mono_now wall_now : Z) : M FlowSpecManager unit :=
  retry_pending_mirror;;
  retry_pending_reapply;;
  actions ← on_controller (FlowSpecController.tick mono_now);
  for_each actions (execute_and_journal mono_now wall_now).

Definition apply_add (r : FlowSpecRule) (mono_now wall_now : Z)
    : M FlowSpecManager ApplyOutcome :=
  let key := key_of r in
  let target := net_addr (dst r) in
  actions ← on_controller (manual_add r mono_now);
  match actions with
  | Announce r' :: _ =>
      outcome ← execute_and_journal_announce r' Manual mono_now wall_now;
      mret match outcome with
           | AnnApplied => Applied
           | RateCapped => Deferred
           | Disarmed => Rejected RejDisarmed
           | Failed => Deferred
           end
  | _ =>
      act ← gets (is_active key);
      if act : bool then
        j ← on_journal (fj_record_announce r Manual wall_now);
        match j with
        | Err _ => queue_mirror (MirrorAnnounce r Manual wall_now)
        | Ok _ => mret ()
        end;;
        mret Applied
      else
        c ← gets controller;
        mret (if is_protected c target then Rejected RejProtected
              else if negb (is_eligible c target) then Rejected RejIneligible
              else Deferred)
  end.

Definition apply_remove (r : FlowSpecRule) (mono_now wall_now : Z) : M FlowSpecManager unit :=
  actions ← on_controller (manual_remove r);
  for_each actions (execute_and_journal mono_now wall_now).

(** One row of [rehydrate]; the persisted time is not used. *)
Definition rehydrate_row (mono_now : Z) (row : FlowSpecRule * Z * BlackholeOrigin)
    : M FlowSpecManager unit :=
  let '(r, _, o) := row in
  actions ← on_controller (resume r mono_now o);
  match actions with
  | Announce r' :: _ =>
      res ← on_bgp (bgp_announce_flowspec r');
      match res with
      | Err _ => queue_reapply {| ra_key := key_of r' |}
      | Ok _ => mret ()
      end
  | _ => mret ()
  end.

Definition rehydrate (rows : list (FlowSpecRule * Z * BlackholeOrigin)) (mono_now : Z)
    : M FlowSpecManager unit :=
  for_each rows (rehydrate_row mono_now).

Definition reapply_pending (s : FlowSpecManager) : nat := length (pending_reapply s).

(** The sweep of [disarm] over one key, with its placeholder rule. *)
Definition disarm_key (key : FlowKey) : M FlowSpecManager unit :=
  let placeholder := {| dst := key.1.1; protocol := Some key.1.2; dst_port := Some key.2;
                        action := TrafficRate f32_zero |} in
  actions ← on_controller (manual_remove placeholder);
  for_each actions (λ a,
    match a with
    | Withdraw r => on_bgp (bgp_withdraw_flowspec r);; mret ()
    | Announce _ => mret ()
    end).

Definition disarm : M FlowSpecManager unit :=
  d ← gets disarmed;
  if d : bool then mret ()
  else
    modify set_disarmed;;
    bs ← gets (λ s, active_rules (controller s));
    for_each ((λ e : FlowKey * Z * BlackholeOrigin, e.1.1) <$> bs) disarm_key.

(** ** Sequences of operations *)

Inductive mop : Type :=
| MOpen (t : IpAddr) (frs : list FlowRule) (mono wall : Z)
| MClear (t : IpAddr) (mono wall : Z)
| MUpdated (t : IpAddr) (mono : Z)
| MTick (mono wall : Z)
| MAdd (r : FlowSpecRule) (mono wall : Z)
| MRemove (r : FlowSpecRule) (mono wall : Z)
| MRehydrate (rows : list (FlowSpecRule * Z * BlackholeOrigin)) (mono : Z)
| MDisarm
| MCell (lim : ArmingRateLimiter).

Definition run_mop (o : mop) : M FlowSpecManager unit :=
  match o with
  | MOpen t frs mono wall => apply_open t frs mono wall
  | MClear t mono wall => apply_clear t mono wall
  | MUpdated t mono => apply_updated t mono
  | MTick mono wall => tick mono wall
  | MAdd r mono wall => apply_add r mono wall;; mret ()
  | MRemove r mono wall => apply_remove r mono wall
  | MRehydrate rows mono => rehydrate rows mono
  | MDisarm => disarm
  | MCell lim => modify (set_cell lim)
  end.

Definition run_mops (os : list mop) : M FlowSpecManager unit := for_each os run_mop.

(** The traffic a key stands for. *)
Definition key_nlri (k : FlowKey) : IpNet * option Z * option Z := (k.1.1, Some k.1.2, Some k.2).

(** A rule whose key determines its NLRI. The daemon builds every rule as a
    host route with a protocol and a port ([bin/blackwalld/src/main.rs]), and
    those are canonical; see [fs_host_canonical]. *)
Definition canonical (r : FlowSpecRule) : Prop := nlri_id r = key_nlri (key_of r).

Definition tuple_of (fr : FlowRule) : Z * Z * f32 := (fr_proto fr, fr_dst_port fr, fr_rate fr).

(** Distinct flows in one event, canonical rules from the operator and the
    journal. *)
Definition mop_wf (o : mop) : Prop :=
  match o with
  | MOpen t frs _ _ => NoDup (flow_key t <$> (tuple_of <$> frs))
  | MAdd r _ _ => canonical r
  | MRehydrate rows _ => Forall (λ row : FlowSpecRule * Z * BlackholeOrigin, canonical row.1.1) rows
  | _ => True
  end.

Inductive mreachable (cfg : FlowSpecConfig) (b : B) (j : J) (lim : ArmingRateLimiter)
    : FlowSpecManager → Prop :=
| mreach_new : mreachable cfg b j lim (manager_new (controller_new cfg) b j lim)
| mreach_new_limited :
    mreachable cfg b j lim (with_rate_limiter (manager_new (controller_new cfg) b j lim))
| mreach_op s o :
    mreachable cfg b j lim s → mop_wf o → mreachable cfg b j lim (exec (run_mop o) s).

Lemma fs_host_canonical t p q a :
  canonical {| dst := host_prefix t; protocol := Some p; dst_port := Some q; action := a |}.
Proof. unfold canonical, nlri_id. simpl. by rewrite net_trunc_host. Qed.

Lemma fs_key_nlri_inj k k' : key_nlri k = key_nlri k' → k = k'.
Proof. destruct k as [[] ?], k' as [[] ?]. unfold key_nlri. simpl. congruence. Qed.

Lemma fs_install_canonical t rs now c r :
  Announce r ∈ eval (install_rules t rs now) c → canonical r.
Proof.
  revert c. induction rs as [|[[p q] x] rs IH]; intros c Hin; [by apply not_elem_of_nil in Hin|].
  cbn [install_rules] in Hin. rewrite !eval_bind in Hin.
  apply elem_of_app in Hin as [Hin|Hin]; [|by eapply IH].
  destruct (fs_insert_step t {| dst := host_prefix t; protocol := Some p; dst_port := Some q;
              action := TrafficRate x |} now Auto c) as (_ & _ & rs' & Hev & _ & Hrs).
  rewrite Hev in Hin. apply list_elem_of_fmap in Hin as (r' & [= <-] & Hin).
  destruct Hrs as [-> | ->]; [by apply not_elem_of_nil in Hin|].
  apply list_elem_of_singleton in Hin as ->. apply fs_host_canonical.
Qed.

(** ** What each operation does *)

Lemma fs_is_active_iff k s : is_active k s = true ↔ is_Some (rules (controller s) !! k).
Proof.
  unfold is_active, active_rules. rewrite existsb_elem_of, rules_lookup, fmap_is_Some. split.
  - intros (x & Hx & Hk%bool_decide_eq_true).
    apply list_elem_of_fmap in Hx as ([k' e] & -> & Hin).
    apply elem_of_hm_iter in Hin. simpl in Hk. subst k'. eauto.
  - intros [e He]. exists (k, announced_at e, origin e). split; [|by apply bool_decide_eq_true].
    apply list_elem_of_fmap. exists (k, e). by rewrite elem_of_hm_iter.
Qed.

Context `{!BgpSpec B}.

Record view := {
  v_ctl : FlowSpecController;
  v_rib : gmap (IpNet * option Z * option Z) FlowSpecRule;
  v_queue : list ReapplyOp;
  v_disarmed : bool;
}.
Definition view_of (s : FlowSpecManager) : view := {|
  v_ctl := controller s; v_rib := fs_rib (bgp s);
  v_queue := pending_reapply s; v_disarmed := disarmed s |}.

Lemma fs_announce_view r o mono wall s :
  let out := eval (execute_and_journal_announce r o mono wall) s in
  let s' := exec (execute_and_journal_announce r o mono wall) s in
  (out = AnnApplied ∧ disarmed s = false ∧
     view_of s' = {| v_ctl := controller s; v_rib := <[nlri_id r := r]> (fs_rib (bgp s));
                     v_queue := pending_reapply s; v_disarmed := disarmed s |}) ∨
  (out ≠ AnnApplied ∧ (out = Disarmed ↔ disarmed s = true) ∧
     view_of s' = {| v_ctl := exec (rollback (key_of r)) (controller s);
                     v_rib := fs_rib (bgp s);
                     v_queue := pending_reapply s; v_disarmed := disarmed s |}).
Proof.
  intros out s'. subst out s'. unfold execute_and_journal_announce, view_of, on_cell, on_bgp.
  pose proof (announce_flowspec_fs_rib r (bgp s)) as Hrib. unfold eval, exec in Hrib.
  msimp. destruct (disarmed s) eqn:Hd; cbn; [right; by rewrite ?Hd|].
  destruct (rate_limiter s) eqn:Hl; cbn; [destruct (try_acquire mono (cell s)) as [[] ?]|]; cbn;
    [|right; by rewrite ?Hd|];
  (destruct (bgp_announce_flowspec r (bgp s)) as [[] ?] eqn:Hr; cbn in *;
    [left|right; rewrite Hrib; by rewrite ?Hd]);
  unfold on_journal; msimp;
  destruct (fj_record_announce r o wall (journal s)) as [[] ?]; cbn; by rewrite ?Hd, Hrib.
Qed.

Lemma fs_withdraw_view r mono wall s :
  view_of (exec (execute_and_journal mono wall (Withdraw r)) s)
  = {| v_ctl := controller s;
       v_rib := if is_ok (eval (bgp_withdraw_flowspec r) (bgp s))
                then delete (nlri_id r) (fs_rib (bgp s)) else fs_rib (bgp s);
       v_queue := pending_reapply s; v_disarmed := disarmed s |}.
Proof.
  unfold execute_and_journal, view_of, on_bgp, on_journal.
  pose proof (withdraw_flowspec_fs_rib r (bgp s)) as Hrib. unfold eval, exec in Hrib. msimp.
  destruct (bgp_withdraw_flowspec r (bgp s)) as [[] ?]; cbn in *; [|by rewrite Hrib].
  destruct (fj_record_withdraw r wall (journal s)) as [[] ?]; cbn; by rewrite Hrib.
Qed.

(** The table after withdrawing the rules [rs]. *)
Definition swept (rs : list FlowSpecRule)
    (b b' : gmap (IpNet * option Z * option Z) FlowSpecRule) : Prop :=
  ∀ p, b' !! p = b !! p ∨ (p ∈ nlri_id <$> rs ∧ b' !! p = None).

Definition fs_withdraw_ok : Prop := ∀ r b, is_ok (eval (bgp_withdraw_flowspec r) b) = true.

(** Sweeping with any step that withdraws one rule at a time. *)
Lemma fs_sweep_step rs r b b1 b' :
  b1 = delete (nlri_id r) b ∨ b1 = b →
  swept rs b1 b' → swept (r :: rs) b b' ∧
  ((∀ r', r' ∈ rs → b' !! nlri_id r' = None) → b1 = delete (nlri_id r) b →
   ∀ r', r' ∈ r :: rs → b' !! nlri_id r' = None).
Proof.
  intros Hb1 Hs. split.
  - intros p. destruct (Hs p) as [Heq|[??]]; [|right; set_solver].
    rewrite Heq. destruct Hb1 as [-> | ->]; [|by left].
    destruct (decide (p = nlri_id r)) as [->|]; [|left; by apply lookup_delete_ne].
    right. split; [set_solver|apply lookup_delete_eq].
  - intros Hn -> r' [->|?]%elem_of_cons; [|by apply Hn].
    destruct (Hs (nlri_id r)) as [->|[_ ?]]; [apply lookup_delete_eq|done].
Qed.

Lemma fs_withdraws_view rs mono wall s :
  let s' := exec (for_each (Withdraw <$> rs) (execute_and_journal mono wall)) s in
  controller s' = controller s ∧ pending_reapply s' = pending_reapply s ∧
  disarmed s' = disarmed s ∧ swept rs (fs_rib (bgp s)) (fs_rib (bgp s')) ∧
  (fs_withdraw_ok → ∀ r, r ∈ rs → fs_rib (bgp s') !! nlri_id r = None).
Proof.
  revert s. induction rs as [|r rs IH]; intros s s'; subst s'.
  { split_and!; try done; [by left|set_solver]. }
  rewrite fmap_cons, exec_for_each_cons.
  pose proof (fs_withdraw_view r mono wall s) as Hv.
  set (s1 := exec (execute_and_journal mono wall (Withdraw r)) s) in *.
  injection Hv as Hc Hr Hq Hd.
  destruct (IH s1) as (Hc' & Hq' & Hd' & Hs & Hok).
  destruct (fs_sweep_step rs r (fs_rib (bgp s)) (fs_rib (bgp s1))
    (fs_rib (bgp (exec (for_each (Withdraw <$> rs) (execute_and_journal mono wall)) s1))))
    as [Hs' Hn'].
  { rewrite Hr. case_match; [by left|by right]. }
  { done. }
  split_and!; [congruence..|done|].
  intros Hw. apply Hn'; [by apply Hok|]. by rewrite Hr, Hw.
Qed.

(** ** The safety invariant *)

(** The rule [r] in force under [k] is in the table, or queued. *)
Definition backed (b : gmap (IpNet * option Z * option Z) FlowSpecRule) (q : list ReapplyOp)
    (k : FlowKey) (r : FlowSpecRule) : Prop :=
  key_of r = k ∧ canonical r ∧ (b !! key_nlri k = Some r ∨ k ∈ ra_key <$> q).

(** The state while the announcements [L] are still to be executed: every
    other rule is backed, and what a rollback of an element of [L] would
    restore is backed. [clean] states the conditions under which no rule is
    left behind in the table. *)
Definition owed (clean : Prop) (L : list FlowSpecRule) (c : FlowSpecController)
    (b : gmap (IpNet * option Z * option Z) FlowSpecRule) (q : list ReapplyOp) : Prop :=
  NoDup (key_of <$> L) ∧
  (∀ k r, k ∉ key_of <$> L → rules c !! k = Some r → backed b q k r) ∧
  (∀ r, r ∈ L → canonical r ∧ ∃ e, active c !! key_of r = Some e ∧ rule e = r ∧
     (∀ prior, pending_prior e = Some prior → backed b q (key_of r) prior) ∧
     (clean → pending_prior e = None → b !! key_nlri (key_of r) = None)) ∧
  (clean → fs_withdraw_ok ∧
     ∀ id r, b !! id = Some r → ∃ k, id = key_nlri k ∧ is_Some (rules c !! k)).

Definition minv (clean : Prop) (v : view) : Prop := owed clean [] (v_ctl v) (v_rib v) (v_queue v).

Lemma fs_owed_intro clean c c' b q rs :
  owed clean [] c b q → announces c c' rs → (∀ r, r ∈ rs → canonical r) → owed clean rs c' b q.
Proof.
  intros (_ & Hb & _ & Hcl) (Hnd & Hrs & Hne) Hcan. split_and!; [done|..].
  - intros k r Hk Hr. apply Hb; [set_solver|]. by rewrite <-Hne.
  - intros r Hr. split; [by apply Hcan|]. destruct (Hrs r Hr) as (e & He & Hre & Hp).
    exists e. split_and!; [done|done|..]; rewrite Hp.
    + intros prior Hprior. apply Hb; [set_solver|done].
    + intros [_ Hs]%Hcl Hn. apply eq_None_not_Some. intros [r' Hr'].
      apply Hs in Hr' as (k & Hk & Hin). apply fs_key_nlri_inj in Hk as <-.
      rewrite Hn in Hin. by destruct Hin.
  - intros [Hw Hs]%Hcl. split; [done|]. intros id r Hid. destruct (Hs id r Hid) as (k & -> & Hk).
    exists k. split; [done|]. destruct (decide (k ∈ key_of <$> rs)) as [Hin|]; [|by rewrite Hne].
    apply list_elem_of_fmap in Hin as (r' & -> & Hr'). destruct (Hrs r' Hr') as (e & He & _).
    rewrite rules_lookup, He. by eexists.
Qed.

(** The announcement of [r] succeeded. *)
Lemma fs_owed_applied clean c b q r L :
  owed clean (r :: L) c b q → owed clean L c (<[nlri_id r := r]> b) q.
Proof.
  intros (Hnd & Hb & HL & Hcl). apply NoDup_cons in Hnd as [Hni Hnd].
  destruct (HL r) as (Hcan & e & He & Hre & _); [by left|]. rewrite Hcan.
  assert (∀ k r', k ≠ key_of r → backed b q k r' → backed (<[key_nlri (key_of r) := r]> b) q k r')
    as Hother.
  { intros k r' Hk (? & ? & [?|?]); split_and!; try done; [left|by right].
    rewrite lookup_insert_ne; [done|]. intros ?%fs_key_nlri_inj. congruence. }
  split_and!; [done|..].
  - intros k r' Hk Hr'. destruct (decide (k = key_of r)) as [->|Hne].
    + rewrite rules_lookup, He in Hr'. simplify_eq/=. split_and!; [done..|].
      left. by rewrite lookup_insert_eq.
    + apply Hother; [done|]. apply Hb; [set_solver|done].
  - intros r' Hr'. destruct (HL r') as (Hcan' & e' & He' & Hre' & Hp' & Hn'); [by right|].
    assert (key_of r' ≠ key_of r) as Hkne.
    { intros Heq. apply Hni. rewrite <-Heq. apply list_elem_of_fmap. eauto. }
    split; [done|]. exists e'. split_and!; [done|done|..].
    + intros prior Hprior. apply Hother; [done|by apply Hp'].
    + intros Hc Hpn. rewrite lookup_insert_ne; [by apply Hn'|].
      intros ?%fs_key_nlri_inj. congruence.
  - intros [Hw Hs]%Hcl. split; [done|]. intros id r'.
    destruct (decide (id = key_nlri (key_of r))) as [->|].
    + intros _. exists (key_of r). split; [done|]. rewrite rules_lookup, He. by eexists.
    + rewrite lookup_insert_ne by done. apply Hs.
Qed.

(** The announcement of [r] was skipped or failed, and was rolled back. *)
Lemma fs_owed_rollback clean c b q r L :
  owed clean (r :: L) c b q → owed clean L (exec (rollback (key_of r)) c) b q.
Proof.
  intros (Hnd & Hb & HL & Hcl). apply NoDup_cons in Hnd as [Hni Hnd].
  destruct (HL r) as (Hcan & e & He & Hre & Hp & Hn); [by left|].
  assert (∀ k, k ≠ key_of r → rules (exec (rollback (key_of r)) c) !! k = rules c !! k) as Hother.
  { intros k Hk. by rewrite !rules_lookup, fs_rollback_other. }
  split_and!; [done|..].
  - intros k r' Hk Hr'. destruct (decide (k = key_of r)) as [->|Hne].
    + rewrite (fs_rollback_rules _ _ e) in Hr' by done. by apply Hp.
    + rewrite Hother in Hr' by done. apply Hb; [set_solver|done].
  - intros r' Hr'. destruct (HL r') as (Hcan' & e' & He' & Hx); [by right|].
    split; [done|]. exists e'. rewrite fs_rollback_other; [done|].
    intros Heq. apply Hni. rewrite <-Heq. apply list_elem_of_fmap. eauto.
  - intros Hc. destruct (Hcl Hc) as [Hw Hs]. split; [done|]. intros id r' Hid.
    destruct (Hs id r' Hid) as (k & -> & Hk). exists k. split; [done|].
    destruct (decide (k = key_of r)) as [->|Hne]; [|by rewrite Hother].
    rewrite (fs_rollback_rules _ _ e) by done.
    destruct (pending_prior e) eqn:Hpe; [by eexists|]. rewrite Hn in Hid by done. done.
Qed.

Lemma fs_owed_announce clean r o mono wall s L :
  owed clean (r :: L) (controller s) (fs_rib (bgp s)) (pending_reapply s) →
  let s' := exec (execute_and_journal_announce r o mono wall) s in
  owed clean L (controller s') (fs_rib (bgp s')) (pending_reapply s').
Proof.
  intros Ho s'. destruct (fs_announce_view r o mono wall s) as [(_ & _ & Hv)|(_ & _ & Hv)];
    injection Hv as Hc Hr Hq _; subst s'; rewrite Hc, Hr, Hq.
  - by apply fs_owed_applied.
  - by apply fs_owed_rollback.
Qed.

Lemma fs_owed_announces clean rs mono wall s :
  owed clean rs (controller s) (fs_rib (bgp s)) (pending_reapply s) →
  minv clean (view_of (exec (for_each (Announce <$> rs) (execute_and_journal mono wall)) s)).
Proof.
  revert s. induction rs as [|r rs IH]; intros s Ho; [done|].
  rewrite fmap_cons, exec_for_each_cons. apply IH. unfold execute_and_journal. rewrite exec_bind.
  by apply fs_owed_announce.
Qed.

(** The withdrawals of a step, once the controller no longer has their keys. *)
Lemma fs_owed_sweep clean c c' b b' q ks acts rs :
  owed clean [] c b q → withdraws c c' ks acts → acts = Withdraw <$> rs →
  swept rs b b' → (fs_withdraw_ok → ∀ r, r ∈ rs → b' !! nlri_id r = None) →
  owed clean [] c' b' q.
Proof.
  intros (_ & Hb & _ & Hcl) (Hnd & Hev & Hr) Hacts Hs Hok.
  assert (∀ r, r ∈ rs ↔ ∃ k, k ∈ ks ∧ rules c !! k = Some r) as Hrs.
  { intros r. assert (r ∈ rs ↔ Withdraw r ∈ acts) as ->.
    { rewrite Hacts, list_elem_of_fmap. naive_solver. }
    rewrite Hev, elem_of_omap. split; intros (k & ? & Hk); exists k; (split; [done|]).
    - destruct (rules c !! k); naive_solver.
    - by rewrite Hk. }
  assert (∀ r, r ∈ rs → ∃ k, k ∈ ks ∧ rules c !! k = Some r ∧ nlri_id r = key_nlri k) as Hid.
  { intros r (k & Hk & Hkr)%Hrs. exists k. destruct (Hb k r) as (<- & Hcan & _); [set_solver|done|].
    done. }
  split_and!; [constructor| |set_solver|].
  - intros k r _ Hkr. rewrite Hr in Hkr. case_decide as Hin; [done|].
    destruct (Hb k r) as (Hk & Hcan & Hor); [set_solver|done|]. split_and!; [done..|].
    destruct Hor as [Hor|]; [left|by right]. destruct (Hs (key_nlri k)) as [->|[Hbad _]]; [done|].
    exfalso. apply list_elem_of_fmap in Hbad as (r' & Heq & Hr').
    destruct (Hid r' Hr') as (k' & Hk' & _ & Hn). rewrite Hn in Heq.
    apply fs_key_nlri_inj in Heq. congruence.
  - intros [Hw Hst]%Hcl. split; [done|]. intros id r Hidr.
    destruct (Hs id) as [Heq|[_ ?]]; [|congruence]. rewrite Heq in Hidr.
    destruct (Hst id r Hidr) as (k & -> & Hk). exists k. split; [done|].
    rewrite Hr. case_decide as Hin; [|done]. exfalso. destruct Hk as [r' Hk].
    assert (r' ∈ rs) as Hr' by (apply Hrs; eauto).
    destruct (Hb k r') as (Hkk & Hcan & _); [set_solver|done|].
    specialize (Hok Hw r' Hr'). rewrite Hcan, Hkk in Hok. congruence.
Qed.

Lemma fs_withdraws_no_announce c c' ks acts r : withdraws c c' ks acts → Announce r ∉ acts.
Proof.
  intros (_ & -> & _) (k & _ & Hr)%elem_of_omap. by destruct (rules c !! k).
Qed.

Lemma minv_fs_decided clean (m : M FlowSpecController (list FlowSpecAction)) mono wall s :
  decided (controller s) (exec m (controller s)) (eval m (controller s)) →
  (∀ r, Announce r ∈ eval m (controller s) → canonical r) →
  minv clean (view_of s) →
  minv clean (view_of (exec (actions ← on_controller m;
                             for_each actions (execute_and_journal mono wall)) s)).
Proof.
  intros [_ Hd] Hcan Hm. rewrite exec_bind.
  change (eval (on_controller m) s) with (eval m (controller s)).
  set (s1 := exec (on_controller m) s).
  destruct Hd as [(rs & Hev & Ha)|(ks & Hw)].
  - rewrite Hev. apply fs_owed_announces. eapply fs_owed_intro; [exact Hm|exact Ha|].
    intros r Hr. apply Hcan. rewrite Hev. apply list_elem_of_fmap. eauto.
  - pose proof Hw as (_ & Hev & _). rewrite omap_fmap_some in Hev. rewrite Hev.
    set (rs := omap _ ks) in *.
    destruct (fs_withdraws_view rs mono wall s1) as (Hc & Hq & _ & Hs & Hok).
    unfold minv, view_of. cbn [v_ctl v_rib v_queue]. rewrite Hc, Hq.
    by eapply fs_owed_sweep.
Qed.

Lemma fs_retry_mirror_view s : view_of (exec retry_pending_mirror s) = view_of s.
Proof.
  unfold retry_pending_mirror. rewrite exec_bind.
  change (eval (gets pending_mirror) s) with (pending_mirror s).
  destruct (pending_mirror s) as [|op ops] eqn:Hp; [done|]. rewrite exec_bind.
  apply (triple_for_each (λ s', view_of s' = view_of s)); [|done]. intros x _ s' Hs'.
  rewrite <-Hs'. unfold retry_mirror. destruct x; unfold on_journal; msimp.
  all: match goal with |- context [match ?e with Ok _ => _ | Err _ => _ end] =>
    destruct e end; done.
Qed.

(** A weaker queue: only the keys matter. *)
Lemma fs_owed_queue clean c b q q' :
  owed clean [] c b q → (∀ k, is_Some (rules c !! k) → k ∈ ra_key <$> q → k ∈ ra_key <$> q') →
  owed clean [] c b q'.
Proof.
  intros (? & Hb & _ & Hcl) Hq. split_and!; [done| |set_solver|done].
  intros k r Hk Hr. destruct (Hb k r Hk Hr) as (? & ? & [?|?]); split_and!; try done; [by left|].
  right. apply Hq; [by eexists|done].
Qed.

(** A retried announcement of the rule in force under [k]. *)
Lemma fs_owed_reannounce clean c b q q' k r :
  owed clean [] c b q → rules c !! k = Some r →
  (∀ k', k' ≠ k → k' ∈ ra_key <$> q → k' ∈ ra_key <$> q') →
  owed clean [] c (<[nlri_id r := r]> b) q'.
Proof.
  intros (? & Hb & _ & Hcl) Hr Hq.
  destruct (Hb k r) as (Hk & Hcan & _); [set_solver|done|]. rewrite Hcan, Hk.
  split_and!; [done| |set_solver|].
  - intros k' r' _ Hr'. destruct (decide (k' = k)) as [->|Hne].
    + rewrite Hr in Hr'. simplify_eq. split_and!; [done..|]. left. by rewrite lookup_insert_eq.
    + destruct (Hb k' r') as (? & ? & Hor); [set_solver|done|]. split_and!; [done..|].
      rewrite lookup_insert_ne by (intros ?%fs_key_nlri_inj; congruence).
      destruct Hor; [by left|right; by apply Hq].
  - intros [Hw Hs]%Hcl. split; [done|]. intros id r'.
    destruct (decide (id = key_nlri k)) as [->|]; [intros _; exists k; by rewrite Hr|].
    rewrite lookup_insert_ne by done. apply Hs.
Qed.

Lemma minv_fs_retry_reapply clean : preserves (λ s, minv clean (view_of s)) retry_pending_reapply.
Proof.
  assert (∀ ops s, owed clean [] (controller s) (fs_rib (bgp s)) (pending_reapply s ++ ops) →
      minv clean (view_of (exec (for_each ops retry_reapply) s))) as Hloop.
  { induction ops as [|[k] ops IH]; intros s Ho; [by rewrite app_nil_r in Ho|].
    rewrite exec_for_each_cons. apply IH. unfold retry_reapply, on_bgp, active_rule.
    cbn [ra_key]. msimp. rewrite <-rules_lookup.
    destruct (rules (controller s) !! k) as [r|] eqn:Hr; cbn.
    - pose proof (announce_flowspec_fs_rib r (bgp s)) as Hrib. unfold eval, exec in Hrib.
      destruct (bgp_announce_flowspec r (bgp s)) as [[] b']; cbn in *; rewrite Hrib.
      + eapply fs_owed_reannounce; [done..|]. intros k' Hk'. rewrite !fmap_app. set_solver.
      + by rewrite <-app_assoc.
    - eapply fs_owed_queue; [done|]. intros k' [r' Hk']. rewrite !fmap_app.
      assert (k' ≠ k) by congruence. set_solver. }
  intros s Hm. unfold retry_pending_reapply. rewrite exec_bind.
  change (eval (gets pending_reapply) s) with (pending_reapply s).
  destruct (pending_reapply s) as [|op ops] eqn:Hp; [done|]. rewrite <-Hp, exec_bind. by apply Hloop.
Qed.

Lemma minv_fs_rehydrate_row clean mono row :
  canonical row.1.1 → preserves (λ s, minv clean (view_of s)) (rehydrate_row mono row).
Proof.
  destruct row as [[r at_] o]. intros Hcan s Hm. unfold rehydrate_row. rewrite exec_bind.
  change (eval (on_controller (resume r mono o)) s)
    with (eval (resume r mono o) (controller s)).
  destruct (fs_insert_step (net_addr (dst r)) r mono o (controller s))
    as (_ & _ & rs & Hev & Ha & Hrs). unfold resume. rewrite Hev.
  set (c' := exec (insert_rule (net_addr (dst r)) r mono o) (controller s)) in *.
  assert (owed clean rs c' (fs_rib (bgp s)) (pending_reapply s)) as Ho.
  { eapply fs_owed_intro; [exact Hm|done|]. intros r' Hr'.
    destruct Hrs as [-> | ->]; [set_solver|]. by apply list_elem_of_singleton in Hr' as ->. }
  destruct Hrs as [-> | ->]; [done|]. cbn [fmap list_fmap].
  unfold on_bgp. pose proof (announce_flowspec_fs_rib r (bgp s)) as Hrib.
  unfold eval, exec in Hrib. msimp. change ((insert_rule _ _ _ _ _).2) with c'.
  destruct (bgp_announce_flowspec r (bgp s)) as [[] b']; cbn in *; unfold minv, view_of; cbn;
    rewrite Hrib; [by apply fs_owed_applied|].
  destruct Ho as (_ & Hb & HL & Hcl). split_and!; [constructor| |set_solver|done].
  intros k r' _ Hr'. destruct (decide (k = key_of r)) as [->|Hne].
  - destruct (HL r) as (_ & e1 & He & Hre & _); [by left|]. rewrite rules_lookup, He in Hr'.
    simplify_eq/=. split_and!; [done..|]. right. rewrite fmap_app. set_solver.
  - destruct (Hb k r') as (? & ? & Hor); [set_solver|done|]. split_and!; [done..|].
    destruct Hor as [?|Hin]; [by left|right]. rewrite fmap_app. apply elem_of_app. left.
    apply list_elem_of_fmap in Hin as (op & -> & Hop). apply list_elem_of_fmap. exists op.
    split; [done|]. apply elem_of_retain. split; [|done]. by apply bool_decide_eq_true.
Qed.

(** What [apply_add] does on the two answers of the controller. *)
Lemma fs_apply_add_cases r mono wall s :
  let c' := exec (manual_add r mono) (controller s) in
  (eval (manual_add r mono) (controller s) = [Announce r] ∧ announces (controller s) c' [r] ∧
     exec (apply_add r mono wall) s
     = exec (execute_and_journal_announce r Manual mono wall) (set_controller c' s) ∧
     eval (apply_add r mono wall) s
     = match eval (execute_and_journal_announce r Manual mono wall) (set_controller c' s) with
       | AnnApplied => Applied
       | RateCapped | Failed => Deferred
       | Disarmed => Rejected RejDisarmed
       end) ∨
  (eval (manual_add r mono) (controller s) = [] ∧ announces (controller s) c' [] ∧
   config c' = config (controller s) ∧
   view_of (exec (apply_add r mono wall) s) = view_of (set_controller c' s) ∧
   eval (apply_add r mono wall) s
   = if is_active (key_of r) (set_controller c' s) then Applied
     else if is_protected c' (net_addr (dst r)) then Rejected RejProtected
     else if negb (is_eligible c' (net_addr (dst r))) then Rejected RejIneligible else Deferred).
Proof.
  intros c'. unfold apply_add.
  destruct (fs_manual_add_step r mono (controller s)) as (Hc & rs & Hev & Ha & [-> | ->]);
    fold c' in Ha.
  - right. assert (run (on_controller (manual_add r mono)) s = ([], set_controller c' s)) as Hrun.
    { unfold run, on_controller. by rewrite Hev. }
    unfold run in Hrun. split_and!; [done..| |]; unfold exec, eval, mbind, M_bind; rewrite Hrun;
      msimp; destruct (is_active (key_of r) (set_controller c' s)); cbn; try done;
      unfold on_journal; msimp; by destruct (fj_record_announce r Manual wall (journal s)) as [[] ?].
  - left. change (Announce <$> [r]) with [Announce r] in Hev. split_and!; [done|done|..].
    all: rewrite ?exec_bind, ?eval_bind;
      change (eval (on_controller (manual_add r mono)) s)
        with (eval (manual_add r mono) (controller s)); rewrite Hev, ?exec_bind, ?eval_bind; done.
Qed.

Lemma minv_fs_apply_add clean r mono wall s :
  canonical r → minv clean (view_of s) → minv clean (view_of (exec (apply_add r mono wall) s)).
Proof.
  intros Hcan Hm. destruct (fs_apply_add_cases r mono wall s)
    as [(_ & Ha & -> & _)|(_ & Ha & _ & -> & _)].
  - apply (fs_owed_announce clean r Manual mono wall).
    eapply fs_owed_intro; [exact Hm|exact Ha|]. by intros r' ->%list_elem_of_singleton.
  - eapply (fs_owed_intro clean _ _ _ _ []); [exact Hm|exact Ha|]. set_solver.
Qed.

(** The effect of the disarm sweep over the keys [ks]. *)
Lemma fs_disarm_view clean ks s :
  let s' := exec (for_each ks disarm_key) s in
  (∀ k, rules (controller s') !! k = if decide (k ∈ ks) then None else rules (controller s) !! k) ∧
  disarmed s' = disarmed s ∧ pending_reapply s' = pending_reapply s ∧
  (minv clean (view_of s) → minv clean (view_of s')).
Proof.
  revert s. induction ks as [|k ks IH]; intros s s'; subst s'; [done|].
  rewrite exec_for_each_cons. set (s1 := exec (disarm_key k) s).
  set (p := {| dst := k.1.1; protocol := Some k.1.2; dst_port := Some k.2;
               action := TrafficRate f32_zero |}).
  assert (key_of p = k) as Hkp by (by destruct k as [[] ?]).
  pose proof (fs_manual_remove_withdraws p (controller s)) as (Hc & Hw). rewrite Hkp in Hw.
  pose proof Hw as (_ & Hev & Hr). rewrite omap_fmap_some in Hev. csimpl in Hev.
  assert (controller s1 = exec (manual_remove p) (controller s) ∧ disarmed s1 = disarmed s ∧
    pending_reapply s1 = pending_reapply s ∧
    (minv clean (view_of s) → minv clean (view_of s1))) as (Hc1 & Hd1 & Hq1 & Hm1).
  { subst s1. unfold disarm_key. fold p. rewrite exec_bind.
    change (eval (on_controller (manual_remove p)) s) with (eval (manual_remove p) (controller s)).
    rewrite Hev. unfold on_bgp. destruct (rules (controller s) !! k) as [r|] eqn:Hk; csimpl; msimp.
    - pose proof (withdraw_flowspec_fs_rib r (bgp s)) as Hrib.
      assert (fs_withdraw_ok → is_ok (eval (bgp_withdraw_flowspec r) (bgp s)) = true) as Hok by auto.
      unfold eval, exec in Hrib, Hok. split_and!; [done..|]. intros Hm. unfold minv, view_of. cbn.
      rewrite Hrib. eapply (fs_owed_sweep clean (controller s) _ (fs_rib (bgp s)) _ _ [k] _ [r]);
        [exact Hm|exact Hw|by rewrite Hev|..].
      + intros q. destruct (decide (q = nlri_id r)) as [->|]; case_match; try (by left).
        * right. split; [set_solver|apply lookup_delete_eq].
        * left. by apply lookup_delete_ne.
      + intros Hwk r' ->%list_elem_of_singleton. rewrite Hok by done. apply lookup_delete_eq.
    - split_and!; [done..|]. intros Hm.
      eapply (fs_owed_sweep clean (controller s) _ (fs_rib (bgp s)) _ _ [k] _ []);
        [exact Hm|exact Hw|by rewrite Hev|by left|set_solver]. }
  destruct (IH s1) as (Hr' & Hd' & Hq' & Hm'). split_and!; [|congruence|congruence|by auto].
  intros k'. rewrite Hr', Hc1, Hr, !decide_elem_of_cons.
  by destruct (decide (k' ∈ ks)), (decide (k' = k)).
Qed.

Lemma fs_elem_of_active_keys k c :
  k ∈ (λ e : FlowKey * Z * BlackholeOrigin, e.1.1) <$> active_rules c ↔ is_Some (rules c !! k).
Proof.
  unfold active_rules. rewrite <-list_fmap_compose, list_elem_of_fmap, rules_lookup, fmap_is_Some.
  split.
  - intros ([k' e] & -> & Hin%elem_of_hm_iter). simpl. eauto.
  - intros [e He]. exists (k, e). by rewrite elem_of_hm_iter.
Qed.

Lemma fs_rules_empty c : (∀ k, rules c !! k = None) → active c = ∅.
Proof.
  intros Hr. apply map_eq. intros k. specialize (Hr k). rewrite rules_lookup in Hr.
  rewrite lookup_empty. by destruct (active c !! k).
Qed.

(** [disarm] empties the rules in force and keeps the invariant. *)
Lemma fs_disarm_active clean s :
  disarmed s = false →
  let s' := exec disarm s in
  active (controller s') = ∅ ∧ disarmed s' = true ∧
  (minv clean (view_of s) → minv clean (view_of s')).
Proof.
  intros Hd s'. subst s'. unfold disarm. rewrite exec_bind.
  change (eval (gets disarmed) s) with (disarmed s). rewrite Hd, exec_bind, exec_bind.
  set (ks := (λ e : FlowKey * Z * BlackholeOrigin, e.1.1) <$> _).
  destruct (fs_disarm_view clean ks (set_disarmed s)) as (Hr & Hd' & _ & Hm).
  split_and!; [|exact Hd'|exact Hm].
  apply fs_rules_empty. intros k. etransitivity; [apply Hr|].
  case_decide as Hin; [done|]. apply eq_None_not_Some. intros Hk. apply Hin.
  by apply fs_elem_of_active_keys.
Qed.

Lemma minv_fs_mop clean o :
  mop_wf o → preserves (λ s, minv clean (view_of s)) (run_mop o).
Proof.
  destruct o as [t frs mono wall|t mono wall|t mono|mono wall|r mono wall|r mono wall|rows mono| |lim];
    intros Hwf s Hm; cbn [run_mop].
  - apply minv_fs_decided; [|intros r; apply fs_install_canonical|done].
    by apply (fs_run_op_decided _ (OpInstall t _ mono)).
  - destruct (fs_clear_target_withdraws t mono (controller s)) as (Hc & ks & Hw & _).
    apply minv_fs_decided; [split; [done|right; eauto]| |done].
    intros r Hr. by destruct (fs_withdraws_no_announce _ _ _ _ _ Hw Hr).
  - eapply (fs_owed_intro clean (controller s) _ _ _ []); [exact Hm| |set_solver].
    apply fs_announces_nil, fs_refresh_rules.
  - unfold tick. rewrite exec_bind, exec_bind.
    set (s1 := exec retry_pending_reapply _).
    assert (minv clean (view_of s1)) as Hm1.
    { apply minv_fs_retry_reapply. by rewrite fs_retry_mirror_view. }
    destruct (fs_tick_withdraws mono (controller s1)) as (ks & Hw & _).
    apply minv_fs_decided; [by apply (fs_run_op_decided _ (OpTick mono))| |done].
    intros r Hr. by destruct (fs_withdraws_no_announce _ _ _ _ _ Hw Hr).
  - rewrite exec_bind. by apply minv_fs_apply_add.
  - destruct (fs_manual_remove_withdraws r (controller s)) as (Hc & Hw).
    apply minv_fs_decided; [split; [done|right; eauto]| |done].
    intros r' Hr. by destruct (fs_withdraws_no_announce _ _ _ _ _ Hw Hr).
  - apply (triple_for_each (λ s, minv clean (view_of s))); [|done].
    intros row Hrow. apply minv_fs_rehydrate_row. simpl in Hwf. rewrite Forall_forall in Hwf.
    by apply Hwf.
  - destruct (disarmed s) eqn:Hd; [|by apply fs_disarm_active].
    unfold disarm. rewrite exec_bind. change (eval (gets disarmed) s) with (disarmed s).
    by rewrite Hd.
  - done.
Qed.

Lemma fs_mreachable_minv (clean : Prop) cfg b j lim s :
  (clean → fs_withdraw_ok ∧ fs_rib b = ∅) →
  mreachable cfg b j lim s → minv clean (view_of s).
Proof.
  intros Hcl Hr. induction Hr as [| |s o _ IH Hwf]; [..|by apply minv_fs_mop].
  all: split_and!; [constructor| |set_solver|].
  1, 3: intros k r _; rewrite rules_lookup; by simpl; rewrite lookup_empty.
  all: intros [Hw Hb]%Hcl; split; [done|]; intros id r; simpl; by rewrite Hb, lookup_empty.
Qed.

(** ** A disarmed manager *)

Definition is_rehydrate (o : mop) : bool :=
  match o with MRehydrate _ _ => true | _ => false end.

Definition quiet (b0 : gmap (IpNet * option Z * option Z) FlowSpecRule) (s : FlowSpecManager)
    : Prop :=
  disarmed s = true ∧ (∀ k, rules (controller s) !! k = None) ∧ fs_rib (bgp s) ⊆ b0.

(** Disarmed with the new rules [L] to announce: all of them are rolled back. *)
Lemma fs_quiet_announces b0 L mono wall s :
  disarmed s = true → fs_rib (bgp s) ⊆ b0 → NoDup (key_of <$> L) →
  (∀ r, r ∈ L → ∃ e, active (controller s) !! key_of r = Some e ∧ pending_prior e = None) →
  (∀ k, k ∉ key_of <$> L → rules (controller s) !! k = None) →
  quiet b0 (exec (for_each (Announce <$> L) (execute_and_journal mono wall)) s).
Proof.
  revert s. induction L as [|r L IH]; intros s Hd Hb Hnd HL Hne.
  { split_and!; [done| |done]. intros k. apply Hne. set_solver. }
  apply NoDup_cons in Hnd as [Hni Hnd].
  rewrite fmap_cons, exec_for_each_cons. unfold execute_and_journal at 2. rewrite exec_bind.
  set (s1 := exec (mret ()) _).
  destruct (fs_announce_view r Auto mono wall s) as [(_ & Hbad & _)|(_ & _ & Hv)]; [congruence|].
  assert (view_of s1 = view_of (exec (execute_and_journal_announce r Auto mono wall) s)) as Hs1
    by done.
  rewrite Hv in Hs1. injection Hs1 as Hc1 Hr1 _ Hd1.
  destruct (HL r) as (e & He & Hp); [by left|].
  apply IH; [by rewrite Hd1|by rewrite Hr1|done|..]; rewrite Hc1.
  - intros r' Hr'. destruct (HL r') as (e' & He' & Hp'); [by right|]. exists e'.
    rewrite fs_rollback_other; [done|].
    intros Heq. apply Hni. rewrite <-Heq. apply list_elem_of_fmap. eauto.
  - intros k Hk. destruct (decide (k = key_of r)) as [->|].
    + by rewrite (fs_rollback_rules _ _ e).
    + rewrite rules_lookup, fs_rollback_other, <-rules_lookup by done. apply Hne. set_solver.
Qed.

Lemma fs_swept_subseteq rs b b' : swept rs b b' → b' ⊆ b.
Proof.
  intros Hs. apply map_subseteq_spec. intros p r Hp.
  destruct (Hs p) as [<-|[_ ?]]; [done|congruence].
Qed.

Lemma quiet_fs_decided b0 (m : M FlowSpecController (list FlowSpecAction)) mono wall s :
  decided (controller s) (exec m (controller s)) (eval m (controller s)) →
  quiet b0 s →
  quiet b0 (exec (actions ← on_controller m;
                  for_each actions (execute_and_journal mono wall)) s).
Proof.
  intros [_ Hdec] (Hd & Ha & Hb). rewrite exec_bind.
  change (eval (on_controller m) s) with (eval m (controller s)).
  set (s1 := exec (on_controller m) s).
  destruct Hdec as [(rs & -> & Hnd & Hrs & Hne)|(ks & Hw)].
  - apply fs_quiet_announces; [done..| |].
    + intros r Hr. destruct (Hrs r Hr) as (e & He & _ & Hp). exists e. by rewrite Hp, Ha.
    + intros k Hk. etransitivity; [by apply Hne|]. apply Ha.
  - pose proof Hw as (_ & Hev & Hr). rewrite omap_fmap_some in Hev. rewrite Hev.
    destruct (fs_withdraws_view (omap (λ k, rules (controller s) !! k) ks) mono wall s1)
      as (Hc & _ & Hd1 & Hs & _).
    split_and!; [by rewrite Hd1| |etrans; [by eapply fs_swept_subseteq|done]].
    intros k. rewrite Hc. etransitivity; [apply Hr|]. by rewrite Ha; case_decide.
Qed.

Lemma quiet_fs_retry_reapply b0 : preserves (quiet b0) retry_pending_reapply.
Proof.
  intros s Hq. unfold retry_pending_reapply. rewrite exec_bind.
  change (eval (gets pending_reapply) s) with (pending_reapply s).
  destruct (pending_reapply s) as [|op ops]; [done|]. rewrite exec_bind.
  apply (triple_for_each (quiet b0)); [|done]. intros x _ s' Hs'.
  unfold retry_reapply. rewrite exec_bind.
  change (eval (gets ?f) s') with (f s'). unfold active_rule. cbv beta.
  rewrite <-rules_lookup. destruct Hs' as (? & Hn & ?). by rewrite Hn.
Qed.

Lemma quiet_fs_mop b0 o :
  mop_wf o → is_rehydrate o = false → preserves (quiet b0) (run_mop o).
Proof.
  destruct o as [t frs mono wall|t mono wall|t mono|mono wall|r mono wall|r mono wall|rows mono| |lim];
    intros Hwf Ho s Hq; cbn [run_mop]; try done.
  - apply quiet_fs_decided; [|done]. by apply (fs_run_op_decided _ (OpInstall t _ mono)).
  - apply quiet_fs_decided; [|done]. by apply (fs_run_op_decided _ (OpClear t mono)).
  - destruct Hq as (Hd & Ha & Hb). split_and!; [done| |done]. intros k.
    etransitivity; [apply (fs_refresh_rules t mono (controller s))|apply Ha].
  - unfold tick. rewrite exec_bind, exec_bind.
    apply quiet_fs_decided; [by apply (fs_run_op_decided _ (OpTick mono))|].
    apply quiet_fs_retry_reapply. pose proof (fs_retry_mirror_view s) as Hv.
    injection Hv as Hc Hr _ Hd. unfold quiet. by rewrite Hd, Hc, Hr.
  - rewrite exec_bind. change (quiet b0 (exec (apply_add r mono wall) s)).
    destruct Hq as (Hd & Ha & Hb).
    destruct (fs_apply_add_cases r mono wall s)
      as [(_ & (_ & Hrs & Hne) & -> & _)|(_ & (_ & _ & Hne) & _ & Hv & _)].
    + destruct (fs_announce_view r Manual mono wall
        (set_controller (exec (manual_add r mono) (controller s)) s)) as [(_ & Hbad & _)|(_ & _ & Hv)].
      { change (disarmed s = false) in Hbad. congruence. }
      injection Hv as Hc1 Hr1 _ Hd1. unfold quiet. rewrite Hd1, Hr1, Hc1. cbn.
      split_and!; [done| |done]. destruct (Hrs r) as (e & He & _ & Hp); [by left|].
      intros k. destruct (decide (k = key_of r)) as [->|].
      * rewrite (fs_rollback_rules _ _ e), Hp by done. apply Ha.
      * rewrite rules_lookup, fs_rollback_other, <-rules_lookup, Hne by (done || set_solver).
        apply Ha.
    + injection Hv as Hc1 Hr1 _ Hd1. unfold quiet. rewrite Hd1, Hr1, Hc1.
      split_and!; [done| |done]. intros k. etransitivity; [apply Hne; set_solver|apply Ha].
  - apply quiet_fs_decided; [|done]. by apply (fs_run_op_decided _ (OpManualRemove r)).
  - unfold disarm. rewrite exec_bind. change (eval (gets disarmed) s) with (disarmed s).
    destruct Hq as (Hd & ? & ?). by rewrite Hd.
Qed.

(** ** The queues *)

Definition queues_nodup (s : FlowSpecManager) : Prop :=
  NoDup (mirror_key <$> pending_mirror s) ∧ NoDup (ra_key <$> pending_reapply s).

Lemma fs_nodup_queue_mirror op : preserves queues_nodup (queue_mirror op).
Proof.
  intros s [Hm Hr]. split; [|done]. apply NoDup_retain_snoc; [|done].
  intros y Hy%bool_decide_eq_true. done.
Qed.

Lemma fs_nodup_queue_reapply op : preserves queues_nodup (queue_reapply op).
Proof.
  intros s [Hm Hr]. split; [done|]. apply NoDup_retain_snoc; [|done].
  intros y Hy%bool_decide_eq_true. done.
Qed.

Lemma fs_nodup_same {A} (m : M FlowSpecManager A) :
  (∀ s, pending_mirror (exec m s) = pending_mirror s ∧ pending_reapply (exec m s) = pending_reapply s) →
  preserves queues_nodup m.
Proof. intros Hm s Hs. destruct (Hm s) as [Hp Hr]. unfold queues_nodup. by rewrite Hp, Hr. Qed.

Lemma fs_nodup_bind {A A'} (m : M FlowSpecManager A) (f : A → M FlowSpecManager A') :
  preserves queues_nodup m → (∀ a, preserves queues_nodup (f a)) → preserves queues_nodup (m ≫= f).
Proof. intros Hm Hf. eapply triple_bind; [exact Hm|exact Hf]. Qed.

Lemma fs_nodup_retry_mirror : preserves queues_nodup retry_pending_mirror.
Proof.
  assert (∀ ops s, NoDup (mirror_key <$> pending_mirror s ++ ops) →
      NoDup (ra_key <$> pending_reapply s) →
      queues_nodup (exec (for_each ops retry_mirror) s)) as Hloop.
  { induction ops as [|op ops IH]; intros s Hm Hr.
    { split; [by rewrite app_nil_r in Hm|done]. }
    rewrite exec_for_each_cons. apply IH.
    - unfold retry_mirror. destruct op; unfold on_journal; msimp.
      all: match goal with |- context [match ?e with Ok _ => _ | Err _ => _ end] =>
        destruct e end; cbn; [by eapply NoDup_fmap_drop_mid|by rewrite <-app_assoc].
    - unfold retry_mirror. destruct op; unfold on_journal; msimp.
      all: match goal with |- context [match ?e with Ok _ => _ | Err _ => _ end] =>
        destruct e end; done. }
  intros s Hs. unfold retry_pending_mirror. rewrite exec_bind.
  change (eval (gets pending_mirror) s) with (pending_mirror s).
  destruct (pending_mirror s) as [|op ops] eqn:Hp; [exact Hs|].
  destruct Hs as [Hm Hr]. rewrite Hp in Hm. rewrite exec_bind. by apply Hloop.
Qed.

Lemma fs_nodup_retry_reapply : preserves queues_nodup retry_pending_reapply.
Proof.
  assert (∀ ops s, NoDup (mirror_key <$> pending_mirror s) →
      NoDup (ra_key <$> pending_reapply s ++ ops) →
      queues_nodup (exec (for_each ops retry_reapply) s)) as Hloop.
  { induction ops as [|op ops IH]; intros s Hm Hr.
    { split; [done|by rewrite app_nil_r in Hr]. }
    rewrite exec_for_each_cons. unfold retry_reapply at 2, on_bgp. msimp.
    destruct (active_rule (ra_key op) (controller s)) as [r|]; cbn;
      [|apply IH; [done|by eapply NoDup_fmap_drop_mid]].
    destruct (bgp_announce_flowspec r (bgp s)) as [[] ?]; cbn; apply IH; cbn; try done.
    - by eapply NoDup_fmap_drop_mid.
    - by rewrite <-app_assoc. }
  intros s Hs. unfold retry_pending_reapply. rewrite exec_bind.
  change (eval (gets pending_reapply) s) with (pending_reapply s).
  destruct (pending_reapply s) as [|op ops] eqn:Hp; [exact Hs|].
  destruct Hs as [Hm Hr]. rewrite Hp in Hr. rewrite exec_bind. by apply Hloop.
Qed.

Ltac fs_nodup_tac := repeat first
  [ apply fs_nodup_retry_mirror | apply fs_nodup_retry_reapply
  | apply fs_nodup_bind; [|intros ?] | apply fs_nodup_queue_mirror | apply fs_nodup_queue_reapply
  | apply (triple_for_each queues_nodup); intros ? _
  | progress case_match | by apply fs_nodup_same ].

Lemma fs_nodup_execute mono wall a : preserves queues_nodup (execute_and_journal mono wall a).
Proof. unfold execute_and_journal, execute_and_journal_announce. fs_nodup_tac. Qed.

Lemma fs_nodup_mop o : preserves queues_nodup (run_mop o).
Proof.
  destruct o as [t frs mono wall|t mono wall|t mono|mono wall|r mono wall|r mono wall|rows mono| |lim];
    cbn [run_mop].
  - unfold apply_open. fs_nodup_tac. apply fs_nodup_execute.
  - unfold apply_clear. fs_nodup_tac. apply fs_nodup_execute.
  - unfold apply_updated. fs_nodup_tac.
  - unfold tick. fs_nodup_tac. apply fs_nodup_execute.
  - unfold apply_add, execute_and_journal_announce. fs_nodup_tac.
  - unfold apply_remove. fs_nodup_tac. apply fs_nodup_execute.
  - unfold rehydrate, rehydrate_row. fs_nodup_tac.
  - unfold disarm, disarm_key. fs_nodup_tac.
  - fs_nodup_tac.
Qed.

(** A property of the journal that its writes keep is kept by every operation. *)
Lemma fs_journal_mop (P : J → Prop) o :
  (∀ r o at_, preserves P (fj_record_announce r o at_)) →
  (∀ r at_, preserves P (fj_record_withdraw r at_)) →
  preserves (λ s, P (journal s)) (run_mop o).
Proof.
  intros Ha Hw.
  destruct o as [t frs mono wall|t mono wall|t mono|mono wall|r mono wall|r mono wall|rows mono| |lim];
    cbn [run_mop].
  - unfold apply_open, execute_and_journal, execute_and_journal_announce. journal_tac.
  - unfold apply_clear, execute_and_journal, execute_and_journal_announce. journal_tac.
  - unfold apply_updated. journal_tac.
  - unfold tick, retry_pending_mirror, retry_pending_reapply, retry_mirror, retry_reapply,
      execute_and_journal, execute_and_journal_announce. journal_tac.
  - unfold apply_add, execute_and_journal_announce. journal_tac.
  - unfold apply_remove, execute_and_journal, execute_and_journal_announce. journal_tac.
  - unfold rehydrate, rehydrate_row. journal_tac.
  - unfold disarm, disarm_key. journal_tac.
  - journal_tac.
Qed.

(** A request is only refused while no rule with its action is in force. *)
Lemma fs_apply_add_same r mono wall s r0 :
  rules (controller s) !! key_of r = Some r0 → action_eqb (action r0) (action r) = true →
  eval (apply_add r mono wall) s = Applied.
Proof.
  rewrite rules_lookup. destruct (active (controller s) !! key_of r) as [e|] eqn:He; [|done].
  intros [= <-] Hact.
  assert (∃ c', manual_add r mono (controller s) = ([], c') ∧ is_Some (active c' !! key_of r))
    as (c' & Hadd & Hc').
  { unfold manual_add. rewrite He. cbn [rule]. rewrite Hact. cbn [negb]. eexists. split; [done|].
    cbn. by rewrite lookup_insert_eq. }
  pose proof (fs_apply_add_cases r mono wall s) as Hcases. cbv zeta in Hcases.
  destruct Hcases as [(Hev & _)|(_ & _ & _ & _ & ->)]; unfold eval, exec in *; rewrite Hadd in *; [done|]. cbn [snd].
  assert (is_active (key_of r) (set_controller c' s) = true) as ->; [|done].
  apply fs_is_active_iff. rewrite rules_lookup. by apply fmap_is_Some.
Qed.

(** A removal takes its key out of force and no other. *)
Lemma fs_apply_remove_rules r mono wall s k :
  rules (controller (exec (apply_remove r mono wall) s)) !! k
  = if decide (k = key_of r) then None else rules (controller s) !! k.
Proof.
  destruct (fs_manual_remove_withdraws r (controller s)) as (_ & _ & Hacts & Hrules).
  unfold apply_remove. rewrite exec_bind.
  change (eval (on_controller (manual_remove r)) s) with (eval (manual_remove r) (controller s)).
  set (s1 := exec (on_controller (manual_remove r)) s).
  assert (∃ rs, eval (manual_remove r) (controller s) = Withdraw <$> rs) as [rs ->].
  { rewrite Hacts. csimpl. destruct (rules (controller s) !! key_of r) as [r0|];
      [by exists [r0]|by exists []]. }
  destruct (fs_withdraws_view rs mono wall s1) as (-> & _).
  change (controller s1) with (exec (manual_remove r) (controller s)). rewrite Hrules.
  destruct (decide (k = key_of r)), (decide (k ∈ [key_of r])); set_solver.
Qed.


(** On a session where withdrawals succeed and that started empty, once no
    re-announcement is pending, the FlowSpec table is exactly the rules in
    force: same traffic, same actions, nothing else. *)
Theorem fs_table_is_rules cfg b j lim s :
  fs_withdraw_ok → fs_rib b = ∅ → mreachable cfg b j lim s → pending_reapply s = [] →
  ∀ id r, fs_rib (bgp s) !! id = Some r ↔
    ∃ k, id = key_nlri k ∧ rules (controller s) !! k = Some r.
Proof.
  intros Hw Hb0 Hr Hq id r. apply (fs_mreachable_minv True) in Hr as (_ & Hb & _ & Hcl); [|done].
  destruct (Hcl I) as [_ Hs]. simpl in *.
  assert (∀ k r', rules (controller s) !! k = Some r' → fs_rib (bgp s) !! key_nlri k = Some r')
    as Hback.
  { intros k r' Hk. destruct (Hb k r') as (_ & _ & [?|Hin]); [set_solver|done|done|].
    rewrite Hq in Hin. by apply not_elem_of_nil in Hin. }
  split; [|intros (k & -> & ?); by apply Hback].
  intros Hid. destruct (Hs id r Hid) as (k & -> & [r' Hk]). exists k. split; [done|].
  specialize (Hback k r' Hk). congruence.
Qed.

(** The FlowSpec kill switch is final: after [disarm] no further event,
    tick or operator request puts a rule in force or adds one to the table. *)
Theorem fs_disarm_final s os :
  disarmed s = false → Forall (λ o, mop_wf o ∧ is_rehydrate o = false) os →
  let s1 := exec disarm s in
  let s2 := exec (run_mops os) s1 in
  active (controller s2) = ∅ ∧ disarmed s2 = true ∧ fs_rib (bgp s2) ⊆ fs_rib (bgp s1).
Proof.
  intros Hd Hos s1 s2. destruct (fs_disarm_active False s Hd) as (Ha & Hd1 & _).
  assert (quiet (fs_rib (bgp s1)) s2) as (? & Hn & ?).
  { apply (triple_for_each (quiet (fs_rib (bgp s1)))).
    - intros o Ho. rewrite Forall_forall in Hos. destruct (Hos o Ho). by apply quiet_fs_mop.
    - split_and!; [done| |done]. intros k. rewrite rules_lookup. unfold s1. by rewrite Ha. }
  split_and!; [by apply fs_rules_empty|done|done].
Qed.

(** The answer to an operator's FlowSpec request is truthful. [Applied]
    means a rule with the requested action is in force under the operator's
    name; any other answer means the rules in force are exactly those of
    before the request; and a rejection names a reason that holds. *)
Theorem fs_apply_add_truthful r mono wall s :
  let out := eval (apply_add r mono wall) s in
  let s' := exec (apply_add r mono wall) s in
  let c := controller s in
  (out = Applied → ∃ e, active (controller s') !! key_of r = Some e ∧ origin e = Manual ∧
     (rule e = r ∨ action_eqb (action (rule e)) (action r) = true)) ∧
  (out ≠ Applied → ∀ k, rules (controller s') !! k = rules c !! k) ∧
  (∀ k, k ≠ key_of r → rules (controller s') !! k = rules c !! k) ∧
  (∀ reason, out = Rejected reason →
     match reason with
     | RejDisarmed => disarmed s = true
     | RejProtected => is_protected c (net_addr (dst r)) = true
     | RejIneligible => is_eligible c (net_addr (dst r)) = false
     | RejNoNextHop => False
     end).
Proof.
  intros out s' c. subst out s' c.
  pose proof (fs_manual_add_entry r mono (controller s)) as Hent.
  pose proof (fs_apply_add_cases r mono wall s) as Hcases. cbv zeta in Hcases.
  set (c := controller s) in *. set (c' := exec (manual_add r mono) c) in *.
  destruct Hcases as [(Hev & (_ & Hrs & Hne) & -> & ->)|(Hev & (_ & _ & Hne) & Hc & Hv & ->)].
  - destruct (Hrs r) as (e & He & Hre & Hp); [by left|].
    destruct (fs_announce_view r Manual mono wall (set_controller c' s))
      as [(Hout & _ & Hv)|(Hout & Hdis & Hv)]; injection Hv as Hc1 _ _ _; rewrite Hc1;
      cbn [controller set_controller disarmed] in *.
    + rewrite Hout. split_and!; try done.
      * intros _. exists e. split_and!; [done|by apply (Hent e)|by left].
      * intros k Hk. apply Hne. set_solver.
    + set (o := eval (execute_and_journal_announce _ _ _ _) _) in *.
      assert (∀ k, rules (exec (rollback (key_of r)) c') !! k = rules c !! k) as Hback.
      { intros k. destruct (decide (k = key_of r)) as [->|].
        - by rewrite (fs_rollback_rules _ _ e).
        - rewrite rules_lookup, fs_rollback_other, <-rules_lookup by done. apply Hne. set_solver. }
      split_and!; [by destruct o|by auto|by auto|].
      intros reason. destruct o; intros [= <-]. by apply Hdis.
  - injection Hv as Hc1 _ _ _. rewrite Hc1. cbn [controller set_controller].
    assert (∀ k, rules c' !! k = rules c !! k) as Hsame by (intros k; apply Hne; set_solver).
    assert (is_protected c' (net_addr (dst r)) = is_protected c (net_addr (dst r)) ∧
            is_eligible c' (net_addr (dst r)) = is_eligible c (net_addr (dst r))) as (-> & ->).
    { unfold is_protected, is_eligible. by rewrite Hc. }
    pose proof (fs_is_active_iff (key_of r) (set_controller c' s)) as Hia.
    split_and!; [|done|done|].
    + destruct (is_active (key_of r) (set_controller c' s)); [|by repeat case_match].
      intros _. destruct (proj1 Hia eq_refl) as [r' Hr']. cbn [controller set_controller] in Hr'.
      rewrite rules_lookup in Hr'. destruct (active c' !! key_of r) as [e|] eqn:He; [|done].
      exists e. destruct (Hent e eq_refl) as [Ho Hact]. split_and!; [done..|]. right. by apply Hact.
    + intros reason. destruct (is_active (key_of r) (set_controller c' s)); [done|].
      destruct (is_protected c _) eqn:Hpr; [by intros [= <-]|].
      destruct (is_eligible c _) eqn:Hel; [done|]. by intros [= <-].
Qed.

(** Each FlowSpec retry queue holds at most one operation per rule key. *)
Theorem fs_queues_coalesce cfg b j lim s :
  mreachable cfg b j lim s →
  NoDup (mirror_key <$> pending_mirror s) ∧ NoDup (ra_key <$> pending_reapply s).
Proof.
  induction 1 as [| |s o _ IH _]; [split; constructor..|]. exact (fs_nodup_mop o s IH).
Qed.
End flowspec_manager.

(** ** Examples *)

#[local] Existing Instance RefNet.lib.
#[local] Existing Instance RefNet.order.

Definition fs_ex_frs : list FlowRule :=
  [{| fr_dst := fs_ex_target; fr_proto := 17; fr_dst_port := 53; fr_rate := f32_zero |};
   {| fr_dst := fs_ex_target; fr_proto := 17; fr_dst_port := 123; fr_rate := f32_zero |}].

Definition fs_ex_shadow : ShadowBgpExecutor := {| recorder := [] |}.
Definition fs_ex_start : Manager FlowSpecController ShadowBgpExecutor NoOpJournal MirrorOp ReapplyOp :=
  manager_new (controller_new fs_ex_cfg) fs_ex_shadow mk_NoOpJournal (limiter_new 5).
Definition fs_ex_live : Manager FlowSpecController ShadowBgpExecutor NoOpJournal MirrorOp ReapplyOp :=
  exec (run_mop (MOpen fs_ex_target fs_ex_frs 1000 5000)) fs_ex_start.

Lemma fs_ex_live_reachable :
  mreachable fs_ex_cfg fs_ex_shadow mk_NoOpJournal (limiter_new 5) fs_ex_live.
Proof. unfold fs_ex_live. apply mreach_op; [apply mreach_new|]. exact fs_ex_flows_wf. Qed.

(** The second announcement fails: only the first rule is in force. *)
Definition fs_ex_partial : Manager FlowSpecController Scripted NoOpJournal MirrorOp ReapplyOp :=
  exec (run_mop (MOpen fs_ex_target fs_ex_frs 1000 5000))
    (manager_new (controller_new fs_ex_cfg) (scripted [true; false]) mk_NoOpJournal (limiter_new 5)).


Lemma fs_table_is_rules_witness :
  fs_rib (bgp fs_ex_live) !! key_nlri (key_of (fs_ex_rule 53 f32_zero))
  = Some (fs_ex_rule 53 f32_zero) ↔
  ∃ k, key_nlri (key_of (fs_ex_rule 53 f32_zero)) = key_nlri k ∧
    rules (controller fs_ex_live) !! k = Some (fs_ex_rule 53 f32_zero).
Proof.
  apply (fs_table_is_rules fs_ex_cfg fs_ex_shadow mk_NoOpJournal (limiter_new 5) fs_ex_live).
  - intros r b. reflexivity.
  - reflexivity.
  - exact fs_ex_live_reachable.
  - vm_refl.
Defined.

Lemma fs_disarm_final_witness :
  active (controller (exec (run_mops [MOpen fs_ex_target fs_ex_frs 2000 6000; MTick 3000 7000])
                        (exec disarm fs_ex_live))) = ∅.
Proof.
  apply (fs_disarm_final fs_ex_live [MOpen fs_ex_target fs_ex_frs 2000 6000; MTick 3000 7000]).
  - vm_refl.
  - apply Forall_cons. split; [split; [exact fs_ex_flows_wf|reflexivity]|].
    apply Forall_singleton. split; [exact I|reflexivity].
Defined.

Lemma fs_queues_coalesce_witness :
  NoDup (mirror_key <$> pending_mirror fs_ex_live) ∧ NoDup (ra_key <$> pending_reapply fs_ex_live).
Proof.
  apply (fs_queues_coalesce fs_ex_cfg fs_ex_shadow mk_NoOpJournal (limiter_new 5)).
  exact fs_ex_live_reachable.
Defined.
