(* ===== verification/XdpControl.v ===== *)
(** * The XDP decision engine

    Model of [crates/blackwall-xdp/src/control.rs]: detections identify a
    victim, the actions address the sources that flood it. The controller
    keeps the rate-limited sources, the blocked networks and, per victim, the
    sources limited on its behalf. *)
From stdpp Require Import prelude gmap strings.
From S2P Require Import Prelude Net Float Flow.

Open Scope Z_scope.

Inductive XdpOrigin : Type := Auto | Manual.

#[export] Instance XdpOrigin_eq_dec : EqDecision XdpOrigin.
Proof. solve_decision. Defined.

Record RateLimitEntry := {
  origin : XdpOrigin;
  pps : Z;
  burst : Z;
  victim : option IpAddr;
}.

(** Why an operator's request is refused; the source renders these as
    messages. *)
Inductive XdpRefusal : Type := OwnPrefix | AtCapacity.

Section xdp_control.
Context `{IpNetLib} `{HashOrder}.

Inductive XdpAction : Type :=
| RateLimit (src : IpAddr) (pps burst : Z) (victim : option IpAddr)
| Block (net : IpNet)
| Unblock (net : IpNet)
| ClearRate (src : IpAddr).

#[export] Instance XdpAction_eq_dec : EqDecision XdpAction.
Proof. solve_decision. Defined.

Record XdpController := {
  prefixes : list IpNet;
  max_entries : nat;
  default_rate_pps : Z;
  protected_prefixes : list IpNet;
  rate_limited : gmap IpAddr RateLimitEntry;
  blocked_nets : gmap IpNet XdpOrigin;
  by_target : gmap IpAddr (gset IpAddr);
  protected_skipped : Z;
}.

Definition controller_new (prefixes : list IpNet) (max_entries : nat) (default_rate_pps : Z)
    (protected_prefixes : list IpNet) : XdpController := {|
  prefixes := prefixes; max_entries := max_entries; default_rate_pps := default_rate_pps;
  protected_prefixes := protected_prefixes; rate_limited := ∅; blocked_nets := ∅;
  by_target := ∅; protected_skipped := 0 |}.

Definition set_state (rl : gmap IpAddr RateLimitEntry) (bn : gmap IpNet XdpOrigin)
    (bt : gmap IpAddr (gset IpAddr)) (c : XdpController) : XdpController := {|
  prefixes := prefixes c; max_entries := max_entries c; default_rate_pps := default_rate_pps c;
  protected_prefixes := protected_prefixes c; rate_limited := rl; blocked_nets := bn;
  by_target := bt; protected_skipped := protected_skipped c |}.

Definition count_protected (c : XdpController) : XdpController := {|
  prefixes := prefixes c; max_entries := max_entries c; default_rate_pps := default_rate_pps c;
  protected_prefixes := protected_prefixes c; rate_limited := rate_limited c;
  blocked_nets := blocked_nets c; by_target := by_target c;
  protected_skipped := u64_sat_add (protected_skipped c) 1 |}.

Definition total_active (c : XdpController) : nat :=
  (size (rate_limited c) + size (blocked_nets c))%nat.

Definition at_capacity (c : XdpController) : bool := (max_entries c <=? total_active c)%nat.

Definition overlaps_own_prefix (net : IpNet) (c : XdpController) : bool :=
  existsb (λ p, net_contains_net p net || net_contains_net net p) (prefixes c).

Definition is_blocked (net : IpNet) (c : XdpController) : bool :=
  bool_decide (is_Some (blocked_nets c !! net)).

Definition is_rate_limited (src : IpAddr) (c : XdpController) : bool :=
  bool_decide (is_Some (rate_limited c !! src)).

Definition current_rate_limit (src : IpAddr) (c : XdpController) : option XdpAction :=
  (λ e, RateLimit src (pps e) (burst e) (victim e)) <$> rate_limited c !! src.

Definition current_block (net : IpNet) (c : XdpController) : option XdpAction :=
  if is_blocked net c then Some (Block net) else None.

(** [self.by_target.entry(t).or_default().insert(src)] *)
Definition add_source (t src : IpAddr) (bt : gmap IpAddr (gset IpAddr))
    : gmap IpAddr (gset IpAddr) :=
  <[t := {[src]} ∪ default ∅ (bt !! t)]> bt.

(** The loop of [handle_detection] over the sources; [break] at capacity. *)
Fixpoint limit_sources (target : IpAddr) (srcs : list (IpAddr * f64))
    : M XdpController (list XdpAction) := λ c,
  match srcs with
  | [] => ([], c)
  | (src, _) :: srcs' =>
      if is_rate_limited src c then
        limit_sources target srcs'
          (set_state (rate_limited c) (blocked_nets c) (add_source target src (by_target c)) c)
      else if (max_entries c <=? total_active c)%nat then ([], c)
      else
        let pps := default_rate_pps c in
        let e := {| origin := Auto; pps := pps; burst := pps; victim := Some target |} in
        let '(acts, c') :=
          limit_sources target srcs'
            (set_state (<[src := e]> (rate_limited c)) (blocked_nets c)
                       (add_source target src (by_target c)) c) in
        (RateLimit src pps pps (Some target) :: acts, c')
  end.

Definition handle_detection (d : Detection) : M XdpController (list XdpAction) := λ c,
  if any_contains (protected_prefixes c) (d_target d) then ([], count_protected c)
  else if negb (any_contains (prefixes c) (d_target d)) then ([], c)
  else limit_sources (d_target d) (d_top_sources d) c.

(** Whether a target still references a source. *)
Definition still_needed (src : IpAddr) (bt : gmap IpAddr (gset IpAddr)) : bool :=
  existsb (λ ts : IpAddr * gset IpAddr, bool_decide (src ∈ ts.2)) (hm_iter bt).

(** The loop of [handle_cleared] over the sources of the cleared target. *)
Fixpoint release_sources (srcs : list IpAddr) : M XdpController (list XdpAction) := λ c,
  match srcs with
  | [] => ([], c)
  | src :: srcs' =>
      if still_needed src (by_target c) then release_sources srcs' c
      else match origin <$> rate_limited c !! src with
      | Some Manual => release_sources srcs' c
      | Some Auto =>
          let '(acts, c') :=
            release_sources srcs'
              (set_state (delete src (rate_limited c)) (blocked_nets c) (by_target c) c) in
          (ClearRate src :: acts, c')
      | None => release_sources srcs' c
      end
  end.

Definition handle_cleared (target : IpAddr) : M XdpController (list XdpAction) := λ c,
  match by_target c !! target with
  | None => ([], c)
  | Some sources =>
      release_sources (hs_iter sources)
        (set_state (rate_limited c) (blocked_nets c) (delete target (by_target c)) c)
  end.

Definition on_detection (ev : DetectionEvent) : M XdpController (list XdpAction) :=
  match ev with
  | Opened d | Updated d => handle_detection d
  | Cleared target _ => handle_cleared target
  end.

Definition manual_block (net : IpNet) : M XdpController (result XdpAction XdpRefusal) := λ c,
  if overlaps_own_prefix net c then (Err OwnPrefix, c)
  else
    let at_cap := (max_entries c <=? total_active c)%nat in
    match blocked_nets c !! net with
    | Some _ =>
        (Ok (Block net),
         set_state (rate_limited c) (<[net := Manual]> (blocked_nets c)) (by_target c) c)
    | None =>
        if at_cap then (Err AtCapacity, c)
        else (Ok (Block net),
              set_state (rate_limited c) (<[net := Manual]> (blocked_nets c)) (by_target c) c)
    end.

Definition manual_unblock (net : IpNet) : M XdpController (result XdpAction XdpRefusal) := λ c,
  (Ok (Unblock net), set_state (rate_limited c) (delete net (blocked_nets c)) (by_target c) c).

Definition manual_rate_limit (addr : IpAddr) (pps burst : Z)
    : M XdpController (result XdpAction XdpRefusal) := λ c,
  let at_cap := (max_entries c <=? total_active c)%nat in
  let entry := {| origin := Manual; pps := pps; burst := burst; victim := None |} in
  match rate_limited c !! addr with
  | Some _ =>
      (Ok (RateLimit addr pps burst None),
       set_state (<[addr := entry]> (rate_limited c)) (blocked_nets c) (by_target c) c)
  | None =>
      if at_cap then (Err AtCapacity, c)
      else (Ok (RateLimit addr pps burst None),
            set_state (<[addr := entry]> (rate_limited c)) (blocked_nets c) (by_target c) c)
  end.

Definition manual_clear_rate (src : IpAddr)
    : M XdpController (result XdpAction XdpRefusal) := λ c,
  (Ok (ClearRate src),
   set_state (delete src (rate_limited c)) (blocked_nets c)
     ((λ sources, sources ∖ {[src]}) <$> by_target c) c).

Definition rollback (a : XdpAction) : M XdpController unit :=
  modify (λ c,
    match a with
    | RateLimit src _ _ victim =>
        set_state (delete src (rate_limited c)) (blocked_nets c)
          (match victim with
           | Some v => alter (λ sources, sources ∖ {[src]}) v (by_target c)
           | None => by_target c
           end) c
    | Block net => set_state (rate_limited c) (delete net (blocked_nets c)) (by_target c) c
    | Unblock _ | ClearRate _ => c
    end).

Definition active_entries (c : XdpController) : list (XdpAction * XdpOrigin) :=
  ((λ se : IpAddr * RateLimitEntry,
      (RateLimit se.1 (pps se.2) (burst se.2) (victim se.2), origin se.2))
   <$> hm_iter (rate_limited c)) ++
  ((λ no : IpNet * XdpOrigin, (Block no.1, no.2)) <$> hm_iter (blocked_nets c)).

Definition mark_resumed (a : XdpAction) (o : XdpOrigin) : M XdpController unit :=
  modify (λ c,
    match a with
    | RateLimit src pps burst victim =>
        set_state
          (<[src := {| origin := o; pps := pps; burst := burst; victim := victim |}]>
             (rate_limited c))
          (blocked_nets c)
          (match victim with
           | Some v => add_source v src (by_target c)
           | None => by_target c
           end) c
    | Block net => set_state (rate_limited c) (<[net := o]> (blocked_nets c)) (by_target c) c
    | Unblock _ | ClearRate _ => c
    end).

(** ** Sequences of operations *)

Inductive op : Type :=
| OpDetect (ev : DetectionEvent)
| OpBlock (net : IpNet)
| OpUnblock (net : IpNet)
| OpRate (src : IpAddr) (pps burst : Z)
| OpClearRate (src : IpAddr)
| OpResume (a : XdpAction) (o : XdpOrigin).

Definition run_op (o : op) : M XdpController unit :=
  match o with
  | OpDetect ev => on_detection ev;; mret ()
  | OpBlock net => manual_block net;; mret ()
  | OpUnblock net => manual_unblock net;; mret ()
  | OpRate src pps burst => manual_rate_limit src pps burst;; mret ()
  | OpClearRate src => manual_clear_rate src;; mret ()
  | OpResume a o => mark_resumed a o
  end.

(** The configuration, which no operation changes. *)
Definition static (c : XdpController) : list IpNet * nat * Z * list IpNet :=
  (prefixes c, max_entries c, default_rate_pps c, protected_prefixes c).

(** The sources recorded against a victim. *)
Definition srcs_of (c : XdpController) (t : IpAddr) : gset IpAddr := default ∅ (by_target c !! t).

Definition refs (c : XdpController) (src : IpAddr) : Prop := ∃ t, src ∈ srcs_of c t.

(** Every source recorded against a victim is rate-limited, and every
    automatic rate limit is recorded against some victim. *)
Definition sources_ok (c : XdpController) : Prop :=
  (∀ src, refs c src → is_Some (rate_limited c !! src)) ∧
  (∀ src e, rate_limited c !! src = Some e → origin e = Auto → refs c src).

Lemma xdp_srcs_of_add t t' src c rl bn :
  srcs_of (set_state rl bn (add_source t src (by_target c)) c) t'
  = if decide (t' = t) then {[src]} ∪ srcs_of c t else srcs_of c t'.
Proof.
  unfold srcs_of, add_source. simpl. destruct (decide (t' = t)) as [->|].
  - by rewrite lookup_insert_eq.
  - by rewrite lookup_insert_ne.
Qed.

Lemma xdp_still_needed_iff src c : still_needed src (by_target c) = true ↔ refs c src.
Proof.
  unfold still_needed, refs, srcs_of. rewrite existsb_elem_of. split.
  - intros ([t S] & Hin & Hs%bool_decide_eq_true). apply elem_of_hm_iter in Hin.
    exists t. by rewrite Hin.
  - intros [t Hs]. destruct (by_target c !! t) as [S|] eqn:Ht; [|set_solver].
    exists (t, S). rewrite elem_of_hm_iter, bool_decide_eq_true. done.
Qed.

(** What the loop of [handle_detection] does. [new] are the sources it starts
    to limit. *)
Definition limited (c c' : XdpController) (t : IpAddr) (new : list IpAddr) : Prop :=
  static c' = static c ∧ blocked_nets c' = blocked_nets c ∧ NoDup new ∧
  (∀ src, src ∈ new → rate_limited c !! src = None) ∧
  (∀ src, rate_limited c' !! src
          = if decide (src ∈ new)
            then Some {| origin := Auto; pps := default_rate_pps c; burst := default_rate_pps c;
                         victim := Some t |}
            else rate_limited c !! src) ∧
  (∀ t', t' ≠ t → srcs_of c' t' = srcs_of c t') ∧
  (∀ src, src ∈ srcs_of c t ∨ src ∈ new → src ∈ srcs_of c' t) ∧
  (∀ src, src ∈ srcs_of c' t → src ∈ srcs_of c t ∨ is_Some (rate_limited c' !! src)) ∧
  ((total_active c ≤ max_entries c)%nat → (total_active c' ≤ max_entries c)%nat).

Lemma xdp_limit_sources_spec t srcs c :
  ∃ new, limited c (exec (limit_sources t srcs) c) t new ∧
    eval (limit_sources t srcs) c
    = (λ src, RateLimit src (default_rate_pps c) (default_rate_pps c) (Some t)) <$> new.
Proof.
  revert c. induction srcs as [|[src w] srcs IH]; intros c; unfold exec, eval; cbn [limit_sources].
  { exists []. split; [|done]. split_and!; try done; [constructor|set_solver..]. }
  destruct (is_rate_limited src c) eqn:Hrl; [|destruct (_ <=? _)%nat eqn:Hcap].
  - set (c1 := set_state _ _ _ _).
    destruct (IH c1) as (new & (Hst & Hbn & Hnd & Hn & Hr & Hne & Hin & Hout & Hsz) & Hev).
    exists new. unfold exec, eval in *. split; [|exact Hev].
    split_and!; try done.
    + intros t' Hne'. rewrite Hne by done. unfold c1. rewrite xdp_srcs_of_add. by case_decide.
    + intros src' Hs. apply Hin. unfold c1. rewrite xdp_srcs_of_add, decide_True by done. set_solver.
    + intros src' Hs. apply Hout in Hs as [Hs|]; [|by right]. unfold c1 in Hs.
      rewrite xdp_srcs_of_add, decide_True in Hs by done.
      apply elem_of_union in Hs as [->%elem_of_singleton|]; [right|by left].
      apply bool_decide_eq_true in Hrl. rewrite Hr. by case_decide.
  - exists []. split; [|done]. split_and!; try done; [constructor|set_solver..].
  - set (e := {| origin := Auto; pps := _; burst := _; victim := _ |}). set (c1 := set_state _ _ _ _).
    destruct (IH c1) as (new & (Hst & Hbn & Hnd & Hn & Hr & Hne & Hin & Hout & Hsz) & Hev).
    unfold exec, eval in *. destruct (limit_sources t srcs c1) as [acts c'] eqn:Hrun.
    cbn [fst snd] in *. apply bool_decide_eq_false in Hrl. apply eq_None_not_Some in Hrl.
    assert (src ∉ new) as Hni.
    { intros Hbad%Hn. simpl in Hbad. by rewrite lookup_insert_eq in Hbad. }
    exists (src :: new). split; [|by rewrite Hev]. split_and!; try done.
    + by apply NoDup_cons.
    + intros src' [->|Hs]%elem_of_cons; [done|]. apply Hn in Hs. simpl in Hs.
      by apply lookup_insert_None in Hs as [? _].
    + intros src'. rewrite Hr, decide_elem_of_cons. simpl.
      destruct (decide (src' = src)) as [->|].
      * case_decide; [done|]. by rewrite lookup_insert_eq.
      * case_decide; [done|]. by rewrite lookup_insert_ne.
    + intros t' Hne'. rewrite Hne by done. unfold c1. rewrite xdp_srcs_of_add. by case_decide.
    + intros src' Hs. apply Hin. unfold c1. rewrite xdp_srcs_of_add, decide_True by done. set_solver.
    + intros src' Hs. pose proof (Hr src') as Hr'. apply Hout in Hs as [Hs|]; [|by right].
      unfold c1 in Hs. rewrite xdp_srcs_of_add, decide_True in Hs by done.
      apply elem_of_union in Hs as [->%elem_of_singleton|]; [right|by left].
      rewrite Hr'. case_decide; [by eexists|]. simpl. by rewrite lookup_insert_eq.
    + intros Hle. apply Nat.leb_gt in Hcap. apply Hsz. unfold c1, total_active in *. simpl.
      rewrite map_size_insert_None by done. lia.
Qed.

(** What the loop of [handle_cleared] does: it releases exactly the automatic
    sources that no other victim references. *)
Lemma xdp_release_spec srcs c :
  NoDup srcs →
  ∃ gone, eval (release_sources srcs) c = ClearRate <$> gone ∧ NoDup gone ∧
    (∀ src, src ∈ gone ↔ src ∈ srcs ∧ ¬ refs c src ∧ origin <$> rate_limited c !! src = Some Auto) ∧
    exec (release_sources srcs) c
    = set_state (foldl (λ m s, delete s m) (rate_limited c) gone) (blocked_nets c) (by_target c) c.
Proof.
  revert c. induction srcs as [|src srcs IH]; intros c Hnd; unfold exec, eval;
    cbn [release_sources].
  { exists []. split_and!; [done|constructor|set_solver|by destruct c]. }
  apply NoDup_cons in Hnd as [Hni Hnd].
  assert (¬ (¬ refs c src ∧ origin <$> rate_limited c !! src = Some Auto) →
    ∃ gone, (release_sources srcs c).1 = ClearRate <$> gone ∧ NoDup gone ∧
      (∀ s, s ∈ gone ↔ s ∈ src :: srcs ∧ ¬ refs c s ∧ origin <$> rate_limited c !! s = Some Auto) ∧
      (release_sources srcs c).2
      = set_state (foldl (λ m s, delete s m) (rate_limited c) gone) (blocked_nets c) (by_target c) c)
    as Hskip.
  { intros Hno. destruct (IH c Hnd) as (gone & Hev & Hg & Hin & Hex). exists gone.
    split_and!; try done. intros s. rewrite Hin, elem_of_cons. naive_solver. }
  destruct (still_needed src (by_target c)) eqn:Hneed.
  { apply Hskip. intros [Hr _]. apply Hr. by apply xdp_still_needed_iff. }
  destruct (origin <$> rate_limited c !! src) as [[]|] eqn:Ho; [|apply Hskip; naive_solver..].
  set (c1 := set_state _ _ _ _).
  destruct (IH c1 Hnd) as (gone & Hev & Hg & Hin & Hex).
  unfold exec, eval in *. destruct (release_sources srcs c1) as [acts c'] eqn:Hrun.
  cbn [fst snd] in *.
  assert (src ∉ gone) as Hng by (intros [? _]%Hin; done).
  exists (src :: gone). split_and!; [by rewrite Hev|by apply NoDup_cons| |by rewrite Hex].
  assert (¬ refs c src) as Hnr by (rewrite <-xdp_still_needed_iff; congruence).
  intros s. rewrite !elem_of_cons, Hin. change (refs c1 s) with (refs c s). simpl.
  destruct (decide (s = src)) as [->|Hne]; [naive_solver|].
  rewrite lookup_delete_ne by done. naive_solver.
Qed.

Lemma xdp_handle_cleared_spec t c :
  sources_ok c →
  let c' := exec (handle_cleared t) c in
  ∃ gone, eval (handle_cleared t) c = ClearRate <$> gone ∧ NoDup gone ∧
    (∀ src, src ∈ gone ↔ src ∈ srcs_of c t ∧ (∀ t', t' ≠ t → src ∉ srcs_of c t') ∧
       origin <$> rate_limited c !! src = Some Auto) ∧
    static c' = static c ∧ blocked_nets c' = blocked_nets c ∧
    (∀ src, rate_limited c' !! src = if decide (src ∈ gone) then None else rate_limited c !! src) ∧
    (∀ t', srcs_of c' t' = if decide (t' = t) then ∅ else srcs_of c t').
Proof.
  intros Hok c'. subst c'. unfold exec, eval, handle_cleared.
  destruct (by_target c !! t) as [S|] eqn:Ht.
  2: { exists []. split_and!; try done; [constructor| |].
       - intros src. unfold srcs_of at 1. rewrite Ht. set_solver.
       - intros t'. unfold srcs_of. simpl. destruct (decide (t' = t)) as [->|]; [by rewrite Ht|done]. }
  set (c1 := set_state _ _ _ _).
  assert (∀ t', srcs_of c1 t' = if decide (t' = t) then ∅ else srcs_of c t') as Hsrc.
  { intros t'. unfold srcs_of, c1. simpl. case_decide as Heq.
    - subst. by rewrite lookup_delete_eq.
    - by rewrite lookup_delete_ne. }
  assert (srcs_of c t = S) as HS by (unfold srcs_of; by rewrite Ht).
  destruct (xdp_release_spec (hs_iter S) c1 (NoDup_hs_iter S)) as (gone & Hev & Hg & Hin & Hex).
  unfold eval, exec in *. exists gone. rewrite Hex. split_and!; try done.
  - intros src. rewrite Hin, elem_of_hs_iter, HS. simpl. unfold refs. split.
    + intros (? & Hnr & ?). split_and!; [done| |done]. intros t' Hne Hbad. apply Hnr. exists t'.
      rewrite Hsrc. by case_decide.
    + intros (? & Hnr & ?). split_and!; [done| |done]. intros [t' Hbad]. rewrite Hsrc in Hbad.
      case_decide; [set_solver|by apply (Hnr t')].
  - intros src. simpl. apply delete_all_lookup.
Qed.

(** ** Preservation *)

Lemma xdp_sources_ok_limited c c' t new : limited c c' t new → sources_ok c → sources_ok c'.
Proof.
  intros (_ & _ & _ & Hn & Hr & Hne & Hin & Hout & _) [Hs Ha]. split.
  - intros src [t' Ht']. destruct (decide (t' = t)) as [->|].
    + apply Hout in Ht' as [Ht'|]; [|done]. rewrite Hr. case_decide; [by eexists|].
      apply Hs. by exists t.
    + rewrite Hne in Ht' by done. rewrite Hr. case_decide; [by eexists|]. apply Hs. by exists t'.
  - intros src e He Ho. rewrite Hr in He. case_decide as Hd.
    + exists t. apply Hin. by right.
    + destruct (Ha src e He Ho) as [t' Ht']. exists t'.
      destruct (decide (t' = t)) as [->|]; [apply Hin; by left|by rewrite Hne].
Qed.

Lemma xdp_sources_ok_cleared t c : sources_ok c → sources_ok (exec (handle_cleared t) c).
Proof.
  intros Hok. destruct (xdp_handle_cleared_spec t c Hok) as (gone & _ & _ & Hin & _ & _ & Hr & Hs).
  destruct Hok as [H1 H2]. split.
  - intros src [t' Ht']. rewrite Hs in Ht'. case_decide as Hd; [set_solver|].
    rewrite Hr, decide_False; [apply H1; by exists t'|].
    intros (_ & Hno & _)%Hin. by apply (Hno t').
  - intros src e He Ho. rewrite Hr in He. case_decide as Hd; [done|].
    destruct (still_needed src (by_target (exec (handle_cleared t) c))) eqn:Hn;
      [by apply xdp_still_needed_iff|].
    apply not_true_iff_false in Hn. rewrite xdp_still_needed_iff in Hn.
    assert (∀ t', t' ≠ t → src ∉ srcs_of c t') as Hno.
    { intros t' Hne Hbad. apply Hn. exists t'. rewrite Hs. by case_decide. }
    destruct (H2 src e He Ho) as [t' Ht']. destruct (decide (t' = t)) as [->|];
      [|by destruct (Hno t')].
    destruct Hd. apply Hin. split_and!; [done..|]. rewrite He. simpl. by rewrite Ho.
Qed.

(** What a persisted row satisfies when this controller wrote it: an automatic
    rate limit carries its victim, a block is outside the own prefixes. *)
Definition resume_ok (ps : list IpNet) (a : XdpAction) (o : XdpOrigin) : Prop :=
  match a with
  | RateLimit _ _ _ v => o = Auto → is_Some v
  | Block net => existsb (λ p, net_contains_net p net || net_contains_net net p) ps = false
  | _ => True
  end.

Definition op_wf (ps : list IpNet) (o : op) : Prop :=
  match o with OpResume a o => resume_ok ps a o | _ => True end.

(** A source whose entry is replaced, with the victims' sets only growing. *)
Lemma xdp_sources_ok_insert c src e bt :
  sources_ok c → (∀ t, srcs_of c t ⊆ default ∅ (bt !! t)) →
  (∀ t s, s ∈ default ∅ (bt !! t) → s ∈ srcs_of c t ∨ s = src) →
  (origin e = Auto → ∃ t, src ∈ default ∅ (bt !! t)) →
  sources_ok (set_state (<[src := e]> (rate_limited c)) (blocked_nets c) bt c).
Proof.
  intros [H1 H2] Hsub Hsup Ho. split.
  - intros s [t Ht]. simpl. destruct (decide (s = src)) as [->|]; [by rewrite lookup_insert_eq|].
    rewrite lookup_insert_ne by done. apply H1. exists t.
    destruct (Hsup t s Ht) as [?|?]; done.
  - intros s e'. simpl. destruct (decide (s = src)) as [->|].
    + rewrite lookup_insert_eq. intros [= <-]. exact Ho.
    + rewrite lookup_insert_ne by done. intros He Hoe. destruct (H2 s e' He Hoe) as [t Ht].
      exists t. by apply Hsub.
Qed.

Lemma xdp_sources_ok_blocked c bn :
  sources_ok c → sources_ok (set_state (rate_limited c) bn (by_target c) c).
Proof. done. Qed.

Lemma xdp_sources_ok_op ps o : op_wf ps o → preserves sources_ok (run_op o).
Proof.
  intros Hwf c Hok.
  destruct o as [[d|d|t at_]|net|net|src p b|src|a o]; cbn [run_op]; rewrite ?exec_bind;
    change (exec (mret ()) ?x) with x.
  1, 2: unfold exec, on_detection, handle_detection; case_match; [done|]; case_match; [done|];
    destruct (xdp_limit_sources_spec (d_target d) (d_top_sources d) c) as (new & Hl & _);
    by eapply xdp_sources_ok_limited.
  - by apply xdp_sources_ok_cleared.
  - unfold exec, manual_block. by repeat case_match.
  - done.
  - unfold exec, manual_rate_limit. repeat case_match; try done;
      (apply xdp_sources_ok_insert; [done|done|by left|done]).
  - destruct Hok as [H1 H2]. unfold exec, manual_clear_rate. cbn.
    set (c' := set_state _ _ _ c).
    assert (∀ t, srcs_of c' t = srcs_of c t ∖ {[src]}) as Hs.
    { intros t. unfold srcs_of, c'. simpl. rewrite lookup_fmap.
      destruct (by_target c !! t); simpl; [done|set_solver]. }
    split.
    + intros s [t Ht]. rewrite Hs in Ht. simpl. rewrite lookup_delete_ne by set_solver.
      apply H1. exists t. set_solver.
    + intros s e He Ho. simpl in He. apply lookup_delete_Some in He as [Hne He].
      destruct (H2 s e He Ho) as [t Ht]. exists t. rewrite Hs. set_solver.
  - unfold exec, mark_resumed. cbn. destruct a as [src p b v|net|net|src]; try done.
    destruct v as [v|].
    + apply xdp_sources_ok_insert; [done|..].
      * intros t. unfold add_source, srcs_of. destruct (decide (t = v)) as [->|].
        -- rewrite lookup_insert_eq. set_solver.
        -- by rewrite lookup_insert_ne.
      * intros t s. unfold add_source, srcs_of. destruct (decide (t = v)) as [->|].
        -- rewrite lookup_insert_eq. simpl. set_solver.
        -- rewrite lookup_insert_ne by done. by left.
      * intros _. exists v. unfold add_source. rewrite lookup_insert_eq. set_solver.
    + apply xdp_sources_ok_insert; [done|done|by left|]. simpl in Hwf |- *.
      intros Ho. by destruct (Hwf Ho).
Qed.

Inductive reachable (ps : list IpNet) (n : nat) (rate : Z) (pp : list IpNet)
    : XdpController → Prop :=
| reach_new : reachable ps n rate pp (controller_new ps n rate pp)
| reach_op c o :
    reachable ps n rate pp c → op_wf ps o → reachable ps n rate pp (exec (run_op o) c).

Definition is_resume (o : op) : bool := match o with OpResume _ _ => true | _ => false end.

(** The states reached without rehydration. *)
Inductive reachable_live (ps : list IpNet) (n : nat) (rate : Z) (pp : list IpNet)
    : XdpController → Prop :=
| live_new : reachable_live ps n rate pp (controller_new ps n rate pp)
| live_op c o :
    reachable_live ps n rate pp c → is_resume o = false →
    reachable_live ps n rate pp (exec (run_op o) c).

(** The blocked networks are outside the own prefixes. *)
Definition blocks_ok (c : XdpController) : Prop :=
  ∀ net o, blocked_nets c !! net = Some o → overlaps_own_prefix net c = false.

Lemma xdp_static_op o c : static (exec (run_op o) c) = static c.
Proof.
  destruct o as [[d|d|t at_]|net|net|src p b|src|a o]; cbn [run_op]; rewrite ?exec_bind;
    change (exec (mret ()) ?x) with x; try done.
  1, 2: unfold exec, on_detection, handle_detection; case_match; [done|]; case_match; [done|];
    destruct (xdp_limit_sources_spec (d_target d) (d_top_sources d) c) as (new & (Hst & _) & _);
    exact Hst.
  - unfold exec, on_detection, handle_cleared. case_match; [|done].
    set (c1 := set_state _ _ _ _).
    destruct (xdp_release_spec (hs_iter g) c1 (NoDup_hs_iter g)) as (gone & _ & _ & _ & Hex).
    unfold exec in Hex. by rewrite Hex.
  - unfold exec, manual_block. by repeat case_match.
  - unfold exec, manual_rate_limit. by repeat case_match.
  - unfold exec, mark_resumed. cbn. by destruct a as [? ? ? []|?|?|?].
Qed.

(** The detector never touches the blocked networks. *)
Lemma xdp_blocked_detect ev c : blocked_nets (exec (on_detection ev) c) = blocked_nets c.
Proof.
  destruct ev as [d|d|t at_]; unfold exec; cbn [on_detection].
  1, 2: unfold handle_detection; case_match; [done|]; case_match; [done|];
    destruct (xdp_limit_sources_spec (d_target d) (d_top_sources d) c) as (new & (_ & Hb & _) & _);
    exact Hb.
  unfold handle_cleared. case_match; [|done]. set (c1 := set_state _ _ _ _).
  destruct (xdp_release_spec (hs_iter g) c1 (NoDup_hs_iter g)) as (gone & _ & _ & _ & Hex).
  unfold exec in Hex. by rewrite Hex.
Qed.

Lemma xdp_blocks_ok_op o c :
  op_wf (prefixes c) o → blocks_ok c → blocks_ok (exec (run_op o) c).
Proof.
  intros Hwf Hb net og Hn.
  assert (overlaps_own_prefix net (exec (run_op o) c) = overlaps_own_prefix net c) as ->.
  { unfold overlaps_own_prefix. pose proof (xdp_static_op o c) as Hst.
    injection Hst as -> _ _ _. done. }
  destruct o as [ev|net'|net'|src p b|src|a o]; cbn [run_op] in Hn; rewrite ?exec_bind in Hn;
    change (exec (mret ()) ?x) with x in Hn.
  - rewrite xdp_blocked_detect in Hn. by eapply Hb.
  - unfold exec, manual_block in Hn. destruct (overlaps_own_prefix net' c) eqn:Ho;
      [by eapply Hb|]. repeat case_match; simpl in Hn; try (by eapply Hb).
    all: apply lookup_insert_Some in Hn as [[<- _]|[_ Hn]]; [done|by eapply Hb].
  - unfold exec, manual_unblock in Hn. simpl in Hn. apply lookup_delete_Some in Hn as [_ Hn].
    by eapply Hb.
  - unfold exec, manual_rate_limit in Hn. repeat case_match; simpl in Hn; by eapply Hb.
  - by eapply Hb.
  - unfold exec, mark_resumed in Hn. cbn in Hn. destruct a as [? ? ? []|net'|?|?];
      simpl in Hn; try (by eapply Hb).
    apply lookup_insert_Some in Hn as [[<- _]|[_ Hn]]; [|by eapply Hb].
    exact Hwf.
Qed.

Lemma xdp_cap_op o c :
  is_resume o = false → (total_active c ≤ max_entries c)%nat →
  (total_active (exec (run_op o) c) ≤ max_entries c)%nat.
Proof.
  intros Hr Hc. unfold total_active in *.
  destruct o as [[d|d|t at_]|net|net|src p b|src|a o]; cbn [run_op]; rewrite ?exec_bind;
    change (exec (mret ()) ?x) with x; try done.
  1, 2: unfold exec, on_detection, handle_detection; case_match; [done|]; case_match; [done|];
    destruct (xdp_limit_sources_spec (d_target d) (d_top_sources d) c)
      as (new & (_ & _ & _ & _ & _ & _ & _ & _ & Hsz) & _); by apply Hsz.
  - rewrite xdp_blocked_detect. etrans; [|exact Hc].
    apply Nat.add_le_mono_r. unfold exec, on_detection, handle_cleared. case_match; [|done].
    set (c1 := set_state _ _ _ _).
    destruct (xdp_release_spec (hs_iter g) c1 (NoDup_hs_iter g)) as (gone & _ & _ & _ & Hex).
    unfold exec in Hex. rewrite Hex. apply delete_all_size.
  - unfold exec, manual_block. repeat case_match; simpl; try done.
    + rewrite map_size_insert_Some by eauto. done.
    + rewrite map_size_insert_None by done.
      match goal with Hle : (_ <=? _)%nat = false |- _ => apply Nat.leb_gt in Hle end.
      unfold total_active in *. lia.
  - unfold exec, manual_unblock. simpl. pose proof (map_size_delete_le (blocked_nets c) net). lia.
  - unfold exec, manual_rate_limit. repeat case_match; simpl; try done.
    + rewrite map_size_insert_Some by eauto. done.
    + rewrite map_size_insert_None by done.
      match goal with Hle : (_ <=? _)%nat = false |- _ => apply Nat.leb_gt in Hle end.
      unfold total_active in *. lia.
  - unfold exec, manual_clear_rate. simpl. pose proof (map_size_delete_le (rate_limited c) src). lia.
Qed.

Lemma xdp_reachable_sources_ok ps n rate pp c : reachable ps n rate pp c → sources_ok c.
Proof.
  induction 1 as [|c o _ IH Hwf]; [|by eapply xdp_sources_ok_op].
  split; [|intros src e; simpl; by rewrite lookup_empty].
  intros src [t Ht]. unfold srcs_of in Ht. simpl in Ht. rewrite lookup_empty in Ht. set_solver.
Qed.

(** A clear leaves only the other victims' sources. *)
Lemma xdp_srcs_after_clear t at_ c t' :
  sources_ok c →
  srcs_of (exec (run_op (OpDetect (Cleared t at_))) c) t'
  = if decide (t' = t) then ∅ else srcs_of c t'.
Proof.
  intros Hok. cbn [run_op]. rewrite exec_bind.
  destruct (xdp_handle_cleared_spec t c Hok) as (gone & _ & _ & _ & _ & _ & _ & Hs). apply Hs.
Qed.

Lemma xdp_srcs_after_clears ts c t' :
  sources_ok c →
  let c' := exec (for_each ts (λ t, run_op (OpDetect (Cleared t 0)))) c in
  sources_ok c' ∧ srcs_of c' t' = if decide (t' ∈ ts) then ∅ else srcs_of c t'.
Proof.
  revert c. induction ts as [|t ts IH]; intros c Hok c'; subst c'; [done|].
  rewrite exec_for_each_cons, decide_elem_of_cons.
  destruct (IH (exec (run_op (OpDetect (Cleared t 0))) c)) as [Hok' Hs].
  { by apply (xdp_sources_ok_op []). }
  split; [done|]. rewrite Hs, xdp_srcs_after_clear by done. by repeat case_decide.
Qed.

(** The XDP bookkeeping stays consistent through any sequence of
    detections, clears, operator requests and rehydrations: every source
    recorded against a victim is rate-limited, and no automatic rate limit is
    orphaned: some victim still references it, so a clear can release it. *)
Theorem xdp_sources_consistent ps n rate pp c :
  reachable ps n rate pp c →
  (∀ t S src, by_target c !! t = Some S → src ∈ S → is_Some (rate_limited c !! src)) ∧
  (∀ src e, rate_limited c !! src = Some e → origin e = Auto →
     ∃ t S, by_target c !! t = Some S ∧ src ∈ S).
Proof.
  intros [H1 H2]%xdp_reachable_sources_ok.
  split.
  - intros t S src Ht Hs. apply H1. exists t. unfold srcs_of. by rewrite Ht.
  - intros src e He Ho. destruct (H2 src e He Ho) as [t Ht]. unfold srcs_of in Ht.
    destruct (by_target c !! t) as [S|] eqn:HS; [|set_solver]. eauto.
Qed.

(** Clearing a victim releases exactly the right sources: those limited
    automatically on its behalf that no other victim still references. A
    shared source and an operator's rate limit are kept, and no other entry
    changes. *)
Theorem xdp_clear_releases_exactly t at_ c :
  sources_ok c →
  let c' := exec (on_detection (Cleared t at_)) c in
  (∀ a, a ∈ eval (on_detection (Cleared t at_)) c ↔
     ∃ src, a = ClearRate src ∧ src ∈ srcs_of c t ∧ (∀ t', t' ≠ t → src ∉ srcs_of c t') ∧
       origin <$> rate_limited c !! src = Some Auto) ∧
  (∀ src, rate_limited c' !! src
     = if decide (ClearRate src ∈ eval (on_detection (Cleared t at_)) c) then None
       else rate_limited c !! src) ∧
  blocked_nets c' = blocked_nets c ∧ sources_ok c'.
Proof.
  intros Hok c'. subst c'.
  destruct (xdp_handle_cleared_spec t c Hok) as (gone & Hev & _ & Hin & _ & Hb & Hr & _).
  cbn [on_detection]. rewrite Hev.
  assert (∀ src, ClearRate src ∈ ClearRate <$> gone ↔ src ∈ gone) as Hmem.
  { intros src. rewrite list_elem_of_fmap. naive_solver. }
  split_and!; [| |done|by apply xdp_sources_ok_cleared].
  - intros a. rewrite list_elem_of_fmap. split.
    + intros (src & -> & Hs%Hin). eauto.
    + intros (src & -> & Hs). exists src. by rewrite Hin.
  - intros src. rewrite Hr. by destruct (decide (src ∈ gone)) as [Hg|Hg],
      (decide (ClearRate src ∈ ClearRate <$> gone)) as [Hc|Hc]; rewrite Hmem in Hc.
Qed.

(** Nothing leaks: once every victim with recorded sources has been
    cleared, in any order, no automatic rate limit is left; only the
    operator's remain. *)
Theorem xdp_clear_all_leaves_manual ps n rate pp c ts :
  reachable ps n rate pp c → (∀ t, is_Some (by_target c !! t) → t ∈ ts) →
  let c' := exec (for_each ts (λ t, run_op (OpDetect (Cleared t 0)))) c in
  ∀ src e, rate_limited c' !! src = Some e → origin e = Manual.
Proof.
  intros Hok%xdp_reachable_sources_ok Hts c' src e He.
  destruct (origin e) eqn:Ho; [|done]. exfalso.
  destruct (xdp_srcs_after_clears ts c src Hok) as [[_ Hauto] _].
  destruct (Hauto src e He Ho) as [t Ht].
  destruct (xdp_srcs_after_clears ts c t Hok) as [_ Hs]. rewrite Hs in Ht.
  case_decide as Hin; [set_solver|]. apply Hin, Hts. unfold srcs_of in Ht.
  destruct (by_target c !! t); [by eexists|set_solver].
Qed.

(** The plane never blocks its own address space: no address inside an own
    prefix is ever inside a blocked network, whether the operator names a
    subnet of it, a supernet, or the prefix itself. *)
Theorem xdp_never_blocks_own ps n rate pp c net o p a :
  reachable ps n rate pp c → blocked_nets c !! net = Some o → p ∈ ps →
  net_contains p a = true → net_contains net a = false.
Proof.
  intros Hr Hb Hp Hpa.
  assert (static c = (ps, n, rate, pp) ∧ blocks_ok c) as [Hst Hok].
  { clear -Hr. induction Hr as [|c o _ [IHs IHb] Hwf].
    - split; [done|]. intros net o. simpl. by rewrite lookup_empty.
    - split; [by rewrite xdp_static_op|]. apply xdp_blocks_ok_op; [|done].
      by injection IHs as -> _ _ _. }
  injection Hst as Hps _ _ _. specialize (Hok net o Hb).
  destruct (net_contains net a) eqn:Hna; [|done]. exfalso.
  apply not_true_iff_false in Hok. apply Hok. unfold overlaps_own_prefix. rewrite Hps.
  apply existsb_elem_of. exists p. split; [done|]. apply orb_true_iff.
  by apply (net_share_nested p net a).
Qed.

(** Without rehydration the combined number of rate limits and blocks never
    exceeds the capacity of the data plane's maps. *)
Theorem xdp_capacity ps n rate pp c :
  reachable_live ps n rate pp c → (total_active c ≤ n)%nat.
Proof.
  intros Hr. assert (static c = (ps, n, rate, pp) ∧ (total_active c ≤ n)%nat) as [_ ?]; [|done].
  induction Hr as [|c o _ [IHs IHc] Ho].
  - split; [done|]. unfold total_active. simpl. rewrite !map_size_empty. lia.
  - split; [by rewrite xdp_static_op|]. injection IHs as Hps Hn Hr Hpp. subst n.
    by apply xdp_cap_op.
Qed.

(** A detection is acted on only for an own, unprotected victim; it starts
    limiting exactly sources that were not limited, at the default rate and
    recorded against that victim; sources already limited, by the operator
    included, keep their limits; and the capacity is respected. *)
Theorem xdp_detection_limits d c :
  let c' := exec (handle_detection d) c in
  (eval (handle_detection d) c = [] ∧ rate_limited c' = rate_limited c ∧
     by_target c' = by_target c ∧ blocked_nets c' = blocked_nets c ∧
     (any_contains (protected_prefixes c) (d_target d) = true ∨
      any_contains (prefixes c) (d_target d) = false)) ∨
  (any_contains (protected_prefixes c) (d_target d) = false ∧
   any_contains (prefixes c) (d_target d) = true ∧
   ∃ new, limited c c' (d_target d) new ∧
     eval (handle_detection d) c
     = (λ src, RateLimit src (default_rate_pps c) (default_rate_pps c) (Some (d_target d))) <$> new).
Proof.
  intros c'. subst c'. unfold exec, eval, handle_detection.
  destruct (any_contains (protected_prefixes c) (d_target d)) eqn:Hp; [left; auto 10|].
  destruct (any_contains (prefixes c) (d_target d)) eqn:He; [|left; auto 10].
  right. split_and!; [done..|]. apply xdp_limit_sources_spec.
Qed.
End xdp_control.

(** ** Examples *)

#[local] Existing Instance RefNet.lib.
#[local] Existing Instance RefNet.order.

(** A detection with its top sources, for examples. *)
Definition xdp_ex_detection (t : IpAddr) (srcs : list IpAddr) : Detection := {|
  d_target := t; d_kind := Volumetric; d_observed_pps := f64_zero; d_observed_bps := f64_zero;
  d_proto := 17; d_top_sources := (λ s, (s, f64_zero)) <$> srcs; d_top_ports := []; d_pops := [];
  d_top_source_blocks := []; d_severity := High; d_first_seen_ms := 0; d_last_seen_ms := 0 |}.

Definition xdp_ex_own : list IpNet := [RefNet.net4 203 0 113 0 24].
Definition xdp_ex_v1 : IpAddr := ipv4 203 0 113 7.
Definition xdp_ex_v2 : IpAddr := ipv4 203 0 113 8.
Definition xdp_ex_a : IpAddr := ipv4 198 51 100 1.
Definition xdp_ex_b : IpAddr := ipv4 198 51 100 2.
Definition xdp_ex_m : IpAddr := ipv4 198 51 100 3.

Definition xdp_ex_ops : list op :=
  [OpDetect (Opened (xdp_ex_detection xdp_ex_v1 [xdp_ex_a; xdp_ex_b]));
   OpDetect (Opened (xdp_ex_detection xdp_ex_v2 [xdp_ex_b]));
   OpRate xdp_ex_m 50 60;
   OpBlock (RefNet.net4 198 51 0 0 16)].

(** Two victims sharing one source, an operator's rate limit and a block. *)
Definition xdp_ex : XdpController :=
  exec (for_each xdp_ex_ops run_op) (controller_new xdp_ex_own 10 1000 []).

Lemma xdp_ex_reachable : reachable xdp_ex_own 10 1000 [] xdp_ex.
Proof.
  unfold xdp_ex, xdp_ex_ops. rewrite !exec_for_each_cons.
  change (exec (for_each [] run_op) ?c) with c.
  repeat (apply reach_op; [|exact I]). apply reach_new.
Qed.

Lemma xdp_ex_live : reachable_live xdp_ex_own 10 1000 [] xdp_ex.
Proof.
  unfold xdp_ex, xdp_ex_ops. rewrite !exec_for_each_cons.
  change (exec (for_each [] run_op) ?c) with c.
  repeat (apply live_op; [|reflexivity]). apply live_new.
Qed.

Lemma xdp_sources_consistent_witness :
  is_Some (rate_limited xdp_ex !! xdp_ex_b).
Proof.
  apply (proj1 (xdp_sources_consistent xdp_ex_own 10 1000 [] xdp_ex xdp_ex_reachable)
           xdp_ex_v2 {[xdp_ex_b]}); [vm_refl|by apply elem_of_singleton].
Defined.

Lemma xdp_ex_sources_ok : sources_ok xdp_ex.
Proof. exact (xdp_reachable_sources_ok _ _ _ _ _ xdp_ex_reachable). Qed.

Lemma xdp_clear_releases_exactly_witness :
  sources_ok (exec (on_detection (Cleared xdp_ex_v1 0)) xdp_ex).
Proof. apply (xdp_clear_releases_exactly xdp_ex_v1 0 xdp_ex). exact xdp_ex_sources_ok. Defined.

(** The shared source stays limited, the other one is released. *)
Lemma xdp_ex_shared_kept :
  eval (on_detection (Cleared xdp_ex_v1 0)) xdp_ex = [ClearRate xdp_ex_a].
Proof. vm_refl. Qed.

Lemma xdp_clear_all_leaves_manual_witness :
  origin {| origin := Manual; pps := 50; burst := 60; victim := None |} = Manual.
Proof.
  apply (xdp_clear_all_leaves_manual xdp_ex_own 10 1000 [] xdp_ex [xdp_ex_v1; xdp_ex_v2])
    with (src := xdp_ex_m).
  - exact xdp_ex_reachable.
  - intros t Ht. apply elem_of_dom in Ht.
    assert (dom (by_target xdp_ex) = {[xdp_ex_v1; xdp_ex_v2]}) as Hd by vm_refl.
    rewrite Hd in Ht. apply elem_of_union in Ht as [Ht|Ht]; apply elem_of_singleton in Ht as ->.
    + apply list_elem_of_here.
    + apply list_elem_of_further, list_elem_of_here.
  - vm_refl.
Defined.

Lemma xdp_never_blocks_own_witness :
  net_contains (RefNet.net4 198 51 0 0 16) xdp_ex_v1 = false.
Proof.
  apply (xdp_never_blocks_own xdp_ex_own 10 1000 [] xdp_ex (RefNet.net4 198 51 0 0 16) Manual
           (RefNet.net4 203 0 113 0 24) xdp_ex_v1).
  - exact xdp_ex_reachable.
  - vm_refl.
  - apply list_elem_of_here.
  - vm_refl.
Defined.

Lemma xdp_capacity_witness : (total_active xdp_ex ≤ 10)%nat.
Proof. apply (xdp_capacity xdp_ex_own 10 1000 []). exact xdp_ex_live. Defined.
