(* ===== verification/XdpManager.v ===== *)
(** * The XDP manager

    Model of [crates/blackwall-xdp/src/manager.rs]: it executes the XDP
    controller's decisions on the eBPF maps and mirrors them into a journal.
    The map writer and the journal are the traits [XdpExecutor] and
    [XdpJournal]; [XdpSpec] states what a lawful map writer promises. *)
From stdpp Require Import prelude gmap strings.
From S2P Require Import Prelude Net Float Flow XdpControl.

Open Scope Z_scope.

Inductive XdpExecError : Type := mk_XdpExecError.
Inductive XdpJournalError : Type := mk_XdpJournalError (msg : string).

(** Why a manual request is rejected. *)
Inductive XdpReject : Type := XRejDisarmed | XRejOwnPrefix | XRejAtCapacity.

Inductive ApplyOutcome : Type :=
| Applied
| Deferred
| Rejected (reason : XdpReject).

Inductive ExecOutcome : Type := ExApplied | ExDisarmed | ExFailed.

Section xdp_manager.
Context `{IpNetLib} `{HashOrder}.

(** Trait [XdpExecutor]. *)
Class XdpExecutor (E : Type) := {
  xdp_apply : XdpAction → M E (result unit XdpExecError);
}.

(** Trait [XdpJournal]. *)
Class XdpJournal (J : Type) := {
  xj_record : XdpAction → XdpOrigin → Z → M J (result unit XdpJournalError);
}.

(** The state of the maps: the rate limits by source, the dropped networks. *)
Record maps := { rates : gmap IpAddr (Z * Z); drops : gset IpNet }.

Definition apply_maps (a : XdpAction) (m : maps) : maps :=
  match a with
  | RateLimit src p b _ => {| rates := <[src := (p, b)]> (rates m); drops := drops m |}
  | ClearRate src => {| rates := delete src (rates m); drops := drops m |}
  | Block net => {| rates := rates m; drops := {[net]} ∪ drops m |}
  | Unblock net => {| rates := rates m; drops := drops m ∖ {[net]} |}
  end.

(** A lawful map writer: a successful write has the effect of its action, a
    failed one none. *)
Class XdpSpec (E : Type) `{!XdpExecutor E} := {
  maps_of : E → maps;
  apply_spec : ∀ a e,
    maps_of (exec (xdp_apply a) e)
    = if is_ok (eval (xdp_apply a) e) then apply_maps a (maps_of e) else maps_of e;
}.

(** [NoOpXdpJournal] *)
Inductive NoOpXdpJournal : Type := mk_NoOpXdpJournal.
#[export] Instance NoOpXdpJournal_journal : XdpJournal NoOpXdpJournal :=
  {| xj_record _ _ _ := mret (Ok ()) |}.

Record MirrorOp := { mo_action : XdpAction; mo_origin : XdpOrigin; mo_at_ms : Z }.

Inductive MirrorKey : Type := KSrc (src : IpAddr) | KNet (net : IpNet).

#[export] Instance MirrorKey_eq_dec : EqDecision MirrorKey.
Proof. solve_decision. Defined.

Definition mirror_key_of (a : XdpAction) : MirrorKey :=
  match a with
  | RateLimit src _ _ _ | ClearRate src => KSrc src
  | Block net | Unblock net => KNet net
  end.

Definition mirror_key (op : MirrorOp) : MirrorKey := mirror_key_of (mo_action op).

Record ReapplyOp := { ra_key : MirrorKey }.

Context {E J : Type} `{!XdpExecutor E} `{!XdpJournal J}.

Record XdpManager := {
  controller : XdpController;
  executor : E;
  journal : J;
  pending_mirror : list MirrorOp;
  pending_reapply : list ReapplyOp;
  apply_failures : Z;
  disarmed : bool;
  disarmed_skips : Z;
}.

Definition manager_new (c : XdpController) (e : E) (j : J) : XdpManager := {|
  controller := c; executor := e; journal := j; pending_mirror := []; pending_reapply := [];
  apply_failures := 0; disarmed := false; disarmed_skips := 0 |}.

(** ** Field updates *)

Definition set_parts (c : XdpController) (e : E) (j : J) (s : XdpManager) : XdpManager := {|
  controller := c; executor := e; journal := j; pending_mirror := pending_mirror s;
  pending_reapply := pending_reapply s; apply_failures := apply_failures s;
  disarmed := disarmed s; disarmed_skips := disarmed_skips s |}.

Definition set_queues (pm : list MirrorOp) (pr : list ReapplyOp) (s : XdpManager) : XdpManager := {|
  controller := controller s; executor := executor s; journal := journal s;
  pending_mirror := pm; pending_reapply := pr; apply_failures := apply_failures s;
  disarmed := disarmed s; disarmed_skips := disarmed_skips s |}.

Definition count (failures skips : Z) (s : XdpManager) : XdpManager := {|
  controller := controller s; executor := executor s; journal := journal s;
  pending_mirror := pending_mirror s; pending_reapply := pending_reapply s;
  apply_failures := u64_sat_add (apply_failures s) failures;
  disarmed := disarmed s; disarmed_skips := u64_sat_add (disarmed_skips s) skips |}.

Definition set_disarmed (s : XdpManager) : XdpManager := {|
  controller := controller s; executor := executor s; journal := journal s;
  pending_mirror := pending_mirror s; pending_reapply := pending_reapply s;
  apply_failures := apply_failures s; disarmed := true; disarmed_skips := disarmed_skips s |}.

Definition on_controller {A} (m : M XdpController A) : M XdpManager A := λ s,
  (eval m (controller s), set_parts (exec m (controller s)) (executor s) (journal s) s).
Definition on_executor {A} (m : M E A) : M XdpManager A := λ s,
  (eval m (executor s), set_parts (controller s) (exec m (executor s)) (journal s) s).
Definition on_journal {A} (m : M J A) : M XdpManager A := λ s,
  (eval m (journal s), set_parts (controller s) (executor s) (exec m (journal s)) s).

(** ** Operations *)

Definition queue_mirror (op : MirrorOp) : M XdpManager unit := modify (λ s,
  let key := mirror_key op in
  set_queues (retain (λ o, bool_decide (mirror_key o ≠ key)) (pending_mirror s) ++ [op])
             (pending_reapply s) s).

Definition queue_reapply (op : ReapplyOp) : M XdpManager unit := modify (λ s,
  let key := ra_key op in
  set_queues (pending_mirror s)
    (retain (λ o, bool_decide (ra_key o ≠ key)) (pending_reapply s) ++ [op]) s).

Definition is_install (a : XdpAction) : bool :=
  match a with Block _ | RateLimit _ _ _ _ => true | _ => false end.

Definition execute_and_journal (a : XdpAction) (o : XdpOrigin) (wall_now : Z) (fresh : bool)
    : M XdpManager ExecOutcome :=
  d ← gets disarmed;
  if d && is_install a then
    (if fresh then on_controller (rollback a) else mret ());;
    modify (count 0 1);;
    mret ExDisarmed
  else
    r ← on_executor (xdp_apply a);
    match r with
    | Err _ =>
        modify (count 1 0);;
        (if fresh then on_controller (rollback a) else mret ());;
        mret ExFailed
    | Ok _ =>
        j ← on_journal (xj_record a o wall_now);
        match j with
        | Err _ =>
            queue_mirror {| mo_action := a; mo_origin := o; mo_at_ms := wall_now |};;
            mret ExApplied
        | Ok _ => mret ExApplied
        end
    end.

Definition manager_on_detection (ev : DetectionEvent) (wall_now : Z) : M XdpManager unit :=
  actions ← on_controller (on_detection ev);
  for_each actions (λ a, execute_and_journal a Auto wall_now true;; mret ()).

Definition apply_add (net : IpNet) (wall_now : Z) : M XdpManager ApplyOutcome :=
  blocked ← gets (λ s, is_blocked net (controller s));
  let fresh := negb blocked in
  r ← on_controller (manual_block net);
  match r with
  | Ok a =>
      out ← execute_and_journal a Manual wall_now fresh;
      mret match out with
           | ExApplied => Applied
           | ExDisarmed => Rejected XRejDisarmed
           | ExFailed => Deferred
           end
  | Err e =>
      c ← gets controller;
      mret (if overlaps_own_prefix net c
            then Rejected (match e with OwnPrefix => XRejOwnPrefix | AtCapacity => XRejAtCapacity end)
            else Deferred)
  end.

Definition apply_remove (net : IpNet) (wall_now : Z) : M XdpManager ApplyOutcome :=
  r ← on_controller (manual_unblock net);
  match r with
  | Ok a => execute_and_journal a Manual wall_now false;; mret Applied
  | Err e => mret (Rejected (match e with OwnPrefix => XRejOwnPrefix | AtCapacity => XRejAtCapacity end))
  end.

Definition apply_clear_rate (src : IpAddr) (wall_now : Z) : M XdpManager ApplyOutcome :=
  r ← on_controller (manual_clear_rate src);
  match r with
  | Ok a => execute_and_journal a Manual wall_now false;; mret Applied
  | Err e => mret (Rejected (match e with OwnPrefix => XRejOwnPrefix | AtCapacity => XRejAtCapacity end))
  end.

Definition apply_rate_limit (src : IpAddr) (pps burst wall_now : Z)
    : M XdpManager ApplyOutcome :=
  limited ← gets (λ s, is_rate_limited src (controller s));
  let fresh := negb limited in
  r ← on_controller (manual_rate_limit src pps burst);
  match r with
  | Ok a =>
      out ← execute_and_journal a Manual wall_now fresh;
      mret match out with
           | ExApplied => Applied
           | ExDisarmed => Rejected XRejDisarmed
           | ExFailed => Deferred
           end
  | Err _ => mret Deferred
  end.

(** One iteration of the loop of [retry_pending_mirror]. *)
Definition retry_mirror (op : MirrorOp) : M XdpManager unit :=
  r ← on_journal (xj_record (mo_action op) (mo_origin op) (mo_at_ms op));
  match r with
  | Err _ => modify (λ s, set_queues (pending_mirror s ++ [op]) (pending_reapply s) s)
  | Ok _ => mret ()
  end.

Definition retry_pending_mirror : M XdpManager unit :=
  ops ← gets pending_mirror;
  match ops with
  | [] => mret ()
  | _ =>
      modify (λ s, set_queues [] (pending_reapply s) s);;
      for_each ops retry_mirror
  end.

(** The action in force for a key. *)
Definition current (k : MirrorKey) (c : XdpController) : option XdpAction :=
  match k with KSrc src => current_rate_limit src c | KNet net => current_block net c end.

(** One iteration of the loop of [retry_pending_reapply]. *)
Definition retry_reapply (op : ReapplyOp) : M XdpManager unit :=
  cur ← gets (λ s, current (ra_key op) (controller s));
  match cur with
  | None => mret ()
  | Some a =>
      r ← on_executor (xdp_apply a);
      match r with
      | Err _ => modify (λ s, set_queues (pending_mirror s) (pending_reapply s ++ [op]) s)
      | Ok _ => mret ()
      end
  end.

Definition retry_pending_reapply : M XdpManager unit :=
  ops ← gets pending_reapply;
  match ops with
  | [] => mret ()
  | _ =>
      modify (λ s, set_queues (pending_mirror s) [] s);;
      for_each ops retry_reapply
  end.

Definition tick : M XdpManager unit := retry_pending_mirror;; retry_pending_reapply.

(** One row of [reapply_active]. *)
Definition reapply_row (row : XdpAction * XdpOrigin) : M XdpManager unit :=
  let '(a, o) := row in
  on_controller (mark_resumed a o);;
  r ← on_executor (xdp_apply a);
  match r with
  | Err _ => queue_reapply {| ra_key := mirror_key_of a |}
  | Ok _ => mret ()
  end.

Definition reapply_active (rows : list (XdpAction * XdpOrigin)) : M XdpManager unit :=
  for_each rows reapply_row.

Definition reapply_pending (s : XdpManager) : nat := length (pending_reapply s).

(** The sweep of [disarm] over one active entry. *)
Definition disarm_action (a : XdpAction) : M XdpManager unit :=
  match a with
  | Block net =>
      r ← on_controller (manual_unblock net);
      match r with Ok inv => on_executor (xdp_apply inv);; mret () | Err _ => mret () end
  | RateLimit src _ _ _ =>
      r ← on_controller (manual_clear_rate src);
      match r with Ok inv => on_executor (xdp_apply inv);; mret () | Err _ => mret () end
  | Unblock _ | ClearRate _ => mret ()
  end.

Definition disarm : M XdpManager unit :=
  d ← gets disarmed;
  if d : bool then mret ()
  else
    modify set_disarmed;;
    actives ← gets (λ s, (active_entries (controller s)).*1);
    for_each actives disarm_action.

(** ** Sequences of operations *)

Inductive mop : Type :=
| XDetect (ev : DetectionEvent) (wall : Z)
| XAdd (net : IpNet) (wall : Z)
| XRemove (net : IpNet) (wall : Z)
| XClearRate (src : IpAddr) (wall : Z)
| XRate (src : IpAddr) (pps burst wall : Z)
| XTick
| XReapply (rs : list (XdpAction * XdpOrigin))
| XDisarm.

Definition run_mop (o : mop) : M XdpManager unit :=
  match o with
  | XDetect ev wall => manager_on_detection ev wall
  | XAdd net wall => apply_add net wall;; mret ()
  | XRemove net wall => apply_remove net wall;; mret ()
  | XClearRate src wall => apply_clear_rate src wall;; mret ()
  | XRate src pps burst wall => apply_rate_limit src pps burst wall;; mret ()
  | XTick => tick
  | XReapply rs => reapply_active rs
  | XDisarm => disarm
  end.

Definition run_mops (os : list mop) : M XdpManager unit := for_each os run_mop.

(** The persisted rows are installed entries, and an automatic rate limit has
    its victim. *)
Definition row_ok (row : XdpAction * XdpOrigin) : Prop :=
  is_install row.1 = true ∧ resume_ok [] row.1 row.2.

Definition mop_wf (o : mop) : Prop :=
  match o with XReapply rs => Forall row_ok rs | _ => True end.

Inductive mreachable (ps : list IpNet) (n : nat) (rate : Z) (pp : list IpNet) (e : E) (j : J)
    : XdpManager → Prop :=
| mreach_new : mreachable ps n rate pp e j (manager_new (controller_new ps n rate pp) e j)
| mreach_op s o :
    mreachable ps n rate pp e j s → mop_wf o → mreachable ps n rate pp e j (exec (run_mop o) s).

Context `{!XdpSpec E}.

Definition emaps (s : XdpManager) : maps := maps_of (executor s).

(** Removals from the maps take effect: one that reports an error had nothing
    to remove. *)
Definition removals_ok : Prop :=
  ∀ a e, is_install a = false → maps_of (exec (xdp_apply a) e) = apply_maps a (maps_of e).

(** An action either takes effect, or is undone in the controller when fresh. *)
Lemma xdp_exec_view a o wall fresh s :
  let out := eval (execute_and_journal a o wall fresh) s in
  let s' := exec (execute_and_journal a o wall fresh) s in
  pending_reapply s' = pending_reapply s ∧ disarmed s' = disarmed s ∧
  ((out = ExApplied ∧ (disarmed s && is_install a) = false ∧ controller s' = controller s ∧
    emaps s' = apply_maps a (emaps s)) ∨
   (out ≠ ExApplied ∧ (out = ExDisarmed ↔ (disarmed s && is_install a) = true) ∧
    controller s' = (if fresh then exec (rollback a) (controller s) else controller s) ∧
    emaps s' = emaps s ∧ (removals_ok → is_install a = true ∨ apply_maps a (emaps s) = emaps s))).
Proof.
  intros out s'. subst out s'. unfold execute_and_journal, emaps, on_executor, on_controller.
  pose proof (apply_spec a (executor s)) as Hsp.
  assert (removals_ok → is_install a = false →
    maps_of (exec (xdp_apply a) (executor s)) = apply_maps a (maps_of (executor s))) as Hrm by auto.
  unfold eval, exec in Hsp, Hrm. msimp.
  destruct (disarmed s && is_install a) eqn:Hd; cbn.
  { apply andb_true_iff in Hd as [Hd Hi].
    destruct fresh; msimp; (split_and!; [done..|]); right; rewrite ?Hd, ?Hi;
      (split_and!; [done..|by left]). }
  destruct (xdp_apply a (executor s)) as [[] e']; msimp.
  - unfold on_journal. msimp. destruct (xj_record a o wall (journal s)) as [[] j']; cbn;
      (split_and!; [done..|]); left; by rewrite ?Hd.
  - assert (removals_ok → is_install a = true ∨
      apply_maps a (maps_of (executor s)) = maps_of (executor s)) as Hrm'.
    { intros Hok. destruct (is_install a); [by left|]. right. by rewrite <-Hrm, Hsp. }
    destruct fresh; msimp; (split_and!; [done..|]); right; by rewrite ?Hd.
Qed.

(** ** The safety invariant *)

(** The state while the fresh rate limits of [L], on behalf of [t], are still
    to be written: every other active entry is in the maps or queued. *)
Definition owed (clean : Prop) (t : IpAddr) (L : list IpAddr) (c : XdpController) (m : maps)
    (q : list ReapplyOp) : Prop :=
  sources_ok c ∧ NoDup L ∧
  (∀ src, src ∉ L → is_Some (rate_limited c !! src) →
     is_Some (rates m !! src) ∨ KSrc src ∈ ra_key <$> q) ∧
  (∀ net, is_Some (blocked_nets c !! net) → net ∈ drops m ∨ KNet net ∈ ra_key <$> q) ∧
  (∀ src, src ∈ L → is_Some (rate_limited c !! src) ∧ ∀ t', src ∈ srcs_of c t' → t' = t) ∧
  (clean → removals_ok ∧
     (∀ src, is_Some (rates m !! src) → is_Some (rate_limited c !! src) ∧ src ∉ L) ∧
     (∀ net, net ∈ drops m → is_Some (blocked_nets c !! net))).

Definition minv (clean : Prop) (s : XdpManager) : Prop :=
  ∀ t, owed clean t [] (controller s) (emaps s) (pending_reapply s).

(** Undoing a fresh rate limit. *)
Lemma xdp_sources_ok_rollback c src p b t :
  sources_ok c → (∀ t', src ∈ srcs_of c t' → t' = t) →
  sources_ok (exec (rollback (RateLimit src p b (Some t))) c).
Proof.
  intros [H1 H2] Hu. unfold exec, rollback. cbn. set (c' := set_state _ _ _ c).
  assert (∀ t', srcs_of c' t' = srcs_of c t' ∖ {[src]}) as Hs.
  { intros t'. unfold srcs_of, c'. simpl. destruct (decide (t' = t)) as [->|Hne].
    - rewrite lookup_alter_eq. destruct (by_target c !! t); simpl; set_solver.
    - rewrite lookup_alter_ne by done. apply set_eq. intros x.
      rewrite elem_of_difference, elem_of_singleton. split; [|tauto].
      intros Hx. split; [done|]. intros ->. by apply Hne, Hu. }
  split.
  - intros s [t' Ht']. rewrite Hs in Ht'. simpl. rewrite lookup_delete_ne by set_solver.
    apply H1. exists t'. set_solver.
  - intros s e He Ho. simpl in He. apply lookup_delete_Some in He as [Hne He].
    destruct (H2 s e He Ho) as [t' Ht']. exists t'. rewrite Hs. set_solver.
Qed.

Lemma xdp_owed_intro clean c c' m q t new :
  owed clean t [] c m q → limited c c' t new → owed clean t new c' m q.
Proof.
  intros (Hok & _ & Hr & Hb & _ & Hcl) Hl.
  pose proof Hl as (_ & Hbn & Hnd & Hn & Hrl & Hne & _).
  assert (∀ src, src ∈ new → ∀ t', src ∈ srcs_of c' t' → t' = t) as Huniq.
  { intros src Hs t' Ht'. destruct (decide (t' = t)) as [|Hd]; [done|]. exfalso.
    rewrite Hne in Ht' by done. destruct Hok as [H1 _].
    assert (is_Some (rate_limited c !! src)) as [e He] by (apply H1; by exists t').
    by rewrite Hn in He. }
  split_and!; [by eapply xdp_sources_ok_limited|done|..].
  - intros src Hs Hsome. rewrite Hrl, decide_False in Hsome by done. apply Hr; [set_solver|done].
  - intros net. rewrite Hbn. apply Hb.
  - intros src Hs. split; [|by apply Huniq]. rewrite Hrl, decide_True by done. by eexists.
  - intros (Hrm & Hst & Hd)%Hcl. split_and!; [done| |by rewrite Hbn].
    intros src Hs. destruct (Hst src Hs) as [Hsome _]. split.
    + rewrite Hrl. case_decide; [by eexists|done].
    + intros Hin%Hn. rewrite Hin in Hsome. by destruct Hsome.
Qed.

Lemma xdp_owed_applied clean c m q t src L p b v :
  owed clean t (src :: L) c m q →
  owed clean t L c (apply_maps (RateLimit src p b v) m) q.
Proof.
  intros (Hok & Hnd & Hr & Hb & HL & Hcl). apply NoDup_cons in Hnd as [Hni Hnd].
  split_and!; try done; simpl.
  - intros s Hs Hsome. destruct (decide (s = src)) as [->|].
    + left. by rewrite lookup_insert_eq.
    + rewrite lookup_insert_ne by done. apply Hr; [set_solver|done].
  - intros s Hs. apply HL. by right.
  - intros (Hrm & Hst & Hd)%Hcl. split_and!; try done. intros s.
    destruct (decide (s = src)) as [->|].
    + intros _. split; [apply HL; by left|done].
    + rewrite lookup_insert_ne by done. intros [? ?]%Hst. split; [done|set_solver].
Qed.

Lemma xdp_owed_rollback clean c m q t src L p b :
  owed clean t (src :: L) c m q →
  owed clean t L (exec (rollback (RateLimit src p b (Some t))) c) m q.
Proof.
  intros (Hok & Hnd & Hr & Hb & HL & Hcl). apply NoDup_cons in Hnd as [Hni Hnd].
  destruct (HL src) as [_ Hu]; [by left|].
  split_and!; try done; simpl.
  - by apply xdp_sources_ok_rollback.
  - intros s Hs Hsome. destruct (decide (s = src)) as [->|].
    + rewrite lookup_delete_eq in Hsome. by destruct Hsome.
    + rewrite lookup_delete_ne in Hsome by done. apply Hr; [set_solver|done].
  - intros s Hs. destruct (HL s) as [Hsome Hu']; [by right|].
    assert (s ≠ src) as Hne by (intros ->; done). split; [by rewrite lookup_delete_ne|].
    intros t' Ht'. apply Hu'. unfold srcs_of in *. simpl in Ht'.
    destruct (decide (t' = t)) as [->|].
    + rewrite lookup_alter_eq in Ht'. destruct (by_target c !! t); set_solver.
    + by rewrite lookup_alter_ne in Ht'.
  - intros (Hrm & Hst & Hd)%Hcl. split_and!; try done. intros s [Hs Hn]%Hst.
    rewrite lookup_delete_ne by set_solver. set_solver.
Qed.

Lemma xdp_owed_loop clean t L rate wall s :
  owed clean t L (controller s) (emaps s) (pending_reapply s) →
  let s' := exec (for_each ((λ src, RateLimit src rate rate (Some t)) <$> L)
              (λ a, execute_and_journal a Auto wall true;; mret ())) s in
  owed clean t [] (controller s') (emaps s') (pending_reapply s').
Proof.
  revert s. induction L as [|src L IH]; intros s Ho s'; subst s'; [done|].
  rewrite fmap_cons, exec_for_each_cons. apply IH. rewrite exec_bind.
  change (exec (mret ()) ?x) with x.
  destruct (xdp_exec_view (RateLimit src rate rate (Some t)) Auto wall true s)
    as (-> & _ & [(_ & _ & -> & ->)|(_ & _ & -> & -> & _)]).
  - by eapply xdp_owed_applied.
  - by apply xdp_owed_rollback.
Qed.

(** The target of an empty [owed] is irrelevant. *)
Lemma xdp_owed_any clean t c m q : owed clean t [] c m q → ∀ t', owed clean t' [] c m q.
Proof. intros (? & ? & ? & ? & _ & Hcl) t'. split_and!; try done. set_solver. Qed.

(** Entries of the maps removed along with their controller entries. *)
Lemma xdp_owed_sweep clean c c' m m' q (gone : list IpAddr) :
  (∀ t, owed clean t [] c m q) → sources_ok c' → blocked_nets c' = blocked_nets c →
  (∀ src, rate_limited c' !! src = if decide (src ∈ gone) then None else rate_limited c !! src) →
  drops m' = drops m →
  (∀ src, rates m' !! src = rates m !! src ∨ (src ∈ gone ∧ rates m' !! src = None)) →
  (removals_ok → ∀ src, src ∈ gone → rates m' !! src = None) →
  ∀ t, owed clean t [] c' m' q.
Proof.
  intros Ho Hok Hb Hr Hd Hm Hn t. destruct (Ho t) as (_ & Hnd & Hr0 & Hb0 & _ & Hcl).
  split_and!; try done.
  - intros src _. rewrite Hr. case_decide as Hg; [by intros []|]. intros Hs.
    destruct (Hr0 src) as [Hin|]; [set_solver|done| |by right]. left.
    destruct (Hm src) as [->|[? _]]; done.
  - intros net. rewrite Hb, Hd. apply Hb0.
  - set_solver.
  - intros (Hrm & Hst & Hdr)%Hcl. split_and!; [done| |by rewrite Hb, Hd].
    intros src Hs. split; [|set_solver]. destruct (decide (src ∈ gone)) as [Hg|Hg].
    + rewrite Hn in Hs by done. by destruct Hs.
    + destruct (Hm src) as [Heq|[? _]]; [|done]. rewrite Heq in Hs. apply Hst in Hs as [Hs _].
      by rewrite Hr, decide_False.
Qed.

(** The rate limits in the maps after clearing the sources [gone]. *)
Lemma xdp_clears_view gone o wall fresh s :
  let s' := exec (for_each (ClearRate <$> gone) (λ a, execute_and_journal a o wall fresh;; mret ())) s in
  controller s' = controller s ∧ pending_reapply s' = pending_reapply s ∧ disarmed s' = disarmed s ∧
  drops (emaps s') = drops (emaps s) ∧
  (∀ src, rates (emaps s') !! src = rates (emaps s) !! src ∨
          (src ∈ gone ∧ rates (emaps s') !! src = None)) ∧
  (removals_ok → ∀ src, src ∈ gone → rates (emaps s') !! src = None).
Proof.
  revert s. induction gone as [|x gone IH]; intros s s'; subst s'.
  { split_and!; try done; [by left|set_solver]. }
  rewrite fmap_cons, exec_for_each_cons, exec_bind. change (exec (mret ()) ?x) with x.
  destruct (xdp_exec_view (ClearRate x) o wall fresh s) as (Hq1 & Hd1 & Hcase).
  set (s1 := exec (execute_and_journal (ClearRate x) o wall fresh) s) in *.
  destruct (IH s1) as (Hc & Hq & Hd & Hdr & Hr & Hn).
  assert (controller s1 = controller s ∧ drops (emaps s1) = drops (emaps s) ∧
    (rates (emaps s1) = delete x (rates (emaps s)) ∨ rates (emaps s1) = rates (emaps s)) ∧
    (removals_ok → rates (emaps s1) = delete x (rates (emaps s)))) as (Hc1 & Hdr1 & Hr1 & Hrm1).
  { destruct Hcase as [(_ & _ & -> & ->)|(_ & _ & Hc1 & -> & Hrm)]; [by auto|].
    split_and!; [|done|by right|intros [?|Heq]%Hrm; [done|by rewrite <-Heq at 1]].
    rewrite Hc1. by destruct fresh. }
  split_and!; [congruence..| |].
  - intros src. destruct (Hr src) as [->|[??]]; [|right; set_solver].
    destruct Hr1 as [-> | ->]; [|by left]. destruct (decide (src = x)) as [->|].
    + right. split; [set_solver|apply lookup_delete_eq].
    + left. by apply lookup_delete_ne.
  - intros Hrm src [->|Hs]%elem_of_cons; [|by apply Hn].
    destruct (Hr x) as [->|[_ ?]]; [|done]. rewrite Hrm1 by done. apply lookup_delete_eq.
Qed.

(** What a detection leaves to be written. *)
Lemma xdp_owed_detection clean d c m q :
  (∀ t, owed clean t [] c m q) →
  ∃ new, eval (handle_detection d) c
    = (λ src, RateLimit src (default_rate_pps c) (default_rate_pps c) (Some (d_target d))) <$> new ∧
    owed clean (d_target d) new (exec (handle_detection d) c) m q.
Proof.
  intros Ho. unfold eval, exec, handle_detection.
  destruct (any_contains (protected_prefixes c) (d_target d)); [exists []; split; [done|exact (Ho _)]|].
  destruct (any_contains (prefixes c) (d_target d)); [simpl|exists []; split; [done|exact (Ho _)]].
  destruct (xdp_limit_sources_spec (d_target d) (d_top_sources d) c) as (new & Hl & Hev).
  exists new. split; [exact Hev|]. by eapply xdp_owed_intro.
Qed.

Lemma minv_xdp_detect clean ev wall s :
  minv clean s → minv clean (exec (manager_on_detection ev wall) s).
Proof.
  intros Hm. unfold manager_on_detection. rewrite exec_bind.
  change (eval (on_controller (on_detection ev)) s) with (eval (on_detection ev) (controller s)).
  set (s1 := exec (on_controller (on_detection ev)) s).
  assert (∀ d, on_detection ev = handle_detection d →
    minv clean (exec (for_each (eval (on_detection ev) (controller s))
      (λ a, execute_and_journal a Auto wall true;; mret ())) s1)) as Hdet.
  { intros d Hev. destruct (xdp_owed_detection clean d _ _ _ Hm) as (new & Hnew & Ho).
    rewrite Hev, Hnew. unfold minv. eapply xdp_owed_any, xdp_owed_loop.
    unfold s1. rewrite Hev. exact Ho. }
  destruct ev as [d|d|t at_]; [by eapply Hdet|by eapply Hdet|].
  assert (sources_ok (controller s)) as Hok by apply (Hm t).
  pose proof (xdp_sources_ok_cleared t (controller s) Hok) as Hok'.
  destruct (xdp_handle_cleared_spec t (controller s) Hok)
    as (gone & Hev & _ & _ & _ & Hb & Hr & _).
  cbn [on_detection]. rewrite Hev.
  destruct (xdp_clears_view gone Auto wall true s1) as (Hc & Hq & _ & Hd & Hrt & Hn).
  unfold minv. rewrite Hc, Hq. eapply xdp_owed_sweep; [exact Hm|exact Hok'|exact Hb|exact Hr|done..].
Qed.

(** A single removal of a source, in the controller and in the maps. *)
Lemma minv_xdp_clear_rate clean src wall s :
  minv clean s → minv clean (exec (apply_clear_rate src wall) s).
Proof.
  intros Hm. unfold apply_clear_rate. rewrite exec_bind.
  set (s1 := exec (on_controller (manual_clear_rate src)) s).
  change (minv clean (exec (execute_and_journal (ClearRate src) Manual wall false;; mret Applied) s1)).
  rewrite exec_bind. change (exec (mret Applied) ?x) with x.
  assert (sources_ok (controller s1)) as Hok.
  { apply (xdp_sources_ok_op [] (OpClearRate src)); [done|]. apply (Hm src). }
  pose proof (xdp_clears_view [src] Manual wall false s1) as Hv. cbn [fmap list_fmap] in Hv.
  rewrite exec_for_each_cons, exec_bind in Hv.
  destruct Hv as (Hc & Hq & _ & Hd & Hrt & Hn).
  set (s2 := exec (execute_and_journal (ClearRate src) Manual wall false) s1) in *.
  change (exec (for_each [] _) (exec (mret ()) s2)) with s2 in *.
  unfold minv. rewrite Hc, Hq. eapply (xdp_owed_sweep clean (controller s) _ (emaps s) _ _ [src]);
    [exact Hm|exact Hok|done| |exact Hd|exact Hrt|exact Hn].
  intros x. simpl. rewrite decide_elem_of_cons. destruct (decide (x = src)) as [->|].
  - apply lookup_delete_eq.
  - by rewrite lookup_delete_ne.
Qed.

(** A single removal of a network, in the controller and in the maps. *)
Lemma xdp_owed_unblock clean c m m' q net :
  (∀ t, owed clean t [] c m q) →
  m' = apply_maps (Unblock net) m ∨ (m' = m ∧ (removals_ok → apply_maps (Unblock net) m = m)) →
  ∀ t, owed clean t [] (exec (manual_unblock net) c) m' q.
Proof.
  intros Hm Hcase t. destruct (Hm t) as (Hok & Hnd & Hr & Hb & _ & Hcl).
  destruct Hcase as [->|[-> Hrm]]; split_and!; try done; simpl.
  - intros n [o [Hne Hn]%lookup_delete_Some].
    destruct (Hb n) as [?|?]; [by eexists|left; set_solver|by right].
  - set_solver.
  - intros (Hrm & Hst & Hd)%Hcl. split_and!; [done..|]. intros n [Hn Hne]%elem_of_difference.
    rewrite lookup_delete_ne by set_solver. by apply Hd.
  - intros n [o [Hne Hn]%lookup_delete_Some]. apply Hb. by eexists.
  - set_solver.
  - intros (Hrm' & Hst & Hd)%Hcl. split_and!; [done..|]. intros n Hn.
    rewrite <-(Hrm Hrm') in Hn. cbn in Hn. rewrite lookup_delete_ne by set_solver. apply Hd. set_solver.
Qed.

Lemma minv_xdp_remove clean net wall s :
  minv clean s → minv clean (exec (apply_remove net wall) s).
Proof.
  intros Hm. unfold apply_remove. rewrite exec_bind.
  set (s1 := exec (on_controller (manual_unblock net)) s).
  change (minv clean (exec (execute_and_journal (Unblock net) Manual wall false;; mret Applied) s1)).
  rewrite exec_bind. change (exec (mret Applied) ?x) with x.
  destruct (xdp_exec_view (Unblock net) Manual wall false s1) as (Hq & _ & Hcase).
  unfold minv. rewrite Hq.
  destruct Hcase as [(_ & _ & -> & ->)|(_ & _ & -> & -> & Hrm)];
    (eapply xdp_owed_unblock; [exact Hm|]); [by left|right; split; [done|by intros [?|?]%Hrm]].
Qed.

(** An install in the controller, written to the maps; [q'] may forget its key. *)
Lemma xdp_owed_write clean c c' m q q' a :
  is_install a = true → sources_ok c' →
  (∀ src, is_Some (rate_limited c' !! src) ↔
          is_Some (rate_limited c !! src) ∨ mirror_key_of a = KSrc src) →
  (∀ net, is_Some (blocked_nets c' !! net) ↔
          is_Some (blocked_nets c !! net) ∨ mirror_key_of a = KNet net) →
  (∀ k, k ∈ ra_key <$> q → k ∈ ra_key <$> q' ∨ k = mirror_key_of a) →
  (∀ t, owed clean t [] c m q) → ∀ t, owed clean t [] c' (apply_maps a m) q'.
Proof.
  intros Hi Hok Hrl Hbl Hq Hm t. destruct (Hm t) as (_ & Hnd & Hr & Hb & _ & Hcl).
  destruct a as [src p b v|net|net|src]; try done; simpl in *; split_and!; try done; simpl.
  - intros x _ [Hx|[= ->]]%Hrl; [|left; by rewrite lookup_insert_eq].
    destruct (decide (x = src)) as [->|]; [left; by rewrite lookup_insert_eq|].
    rewrite lookup_insert_ne by done.
    destruct (Hr x) as [?|Hk]; [set_solver|done|by left|]. apply Hq in Hk as [?|[= ->]]; [by right|done].
  - intros n [Hn|?]%Hbl; [|done]. destruct (Hb n Hn) as [?|Hk]; [by left|].
    apply Hq in Hk as [?|?]; [by right|done].
  - set_solver.
  - intros (Hrm & Hst & Hd)%Hcl. split_and!; [done| |intros n Hn; apply Hbl; auto].
    intros x. destruct (decide (x = src)) as [->|]; [intros _; split; [apply Hrl; auto|set_solver]|].
    rewrite lookup_insert_ne by done. intros [Hx _]%Hst. split; [apply Hrl; auto|set_solver].
  - intros x _ [Hx|?]%Hrl; [|done].
    destruct (Hr x) as [?|Hk]; [set_solver|done|by left|]. apply Hq in Hk as [?|?]; [by right|done].
  - intros n [Hn|[= ->]]%Hbl; [|left; set_solver]. destruct (Hb n Hn) as [?|Hk]; [left; set_solver|].
    apply Hq in Hk as [?|[= ->]]; [by right|left; set_solver].
  - set_solver.
  - intros (Hrm & Hst & Hd)%Hcl. split_and!; [done| |].
    + intros x [Hx ?]%Hst. split; [apply Hrl; auto|done].
    + intros n [Hn|Hn]%elem_of_union; apply Hbl; [|by auto].
      apply elem_of_singleton in Hn. subst. by right.
Qed.

(** An install in the controller whose write is queued, or that was already
    there; dropped keys are inactive. *)
Lemma xdp_owed_defer clean c c' m q q' :
  sources_ok c' →
  (∀ src, is_Some (rate_limited c' !! src) →
          is_Some (rate_limited c !! src) ∨ KSrc src ∈ ra_key <$> q') →
  (∀ net, is_Some (blocked_nets c' !! net) →
          is_Some (blocked_nets c !! net) ∨ KNet net ∈ ra_key <$> q') →
  (∀ src, is_Some (rate_limited c !! src) → is_Some (rate_limited c' !! src)) →
  (∀ net, is_Some (blocked_nets c !! net) → is_Some (blocked_nets c' !! net)) →
  (∀ k, k ∈ ra_key <$> q → k ∈ ra_key <$> q' ∨ current k c' = None) →
  (∀ t, owed clean t [] c m q) → ∀ t, owed clean t [] c' m q'.
Proof.
  intros Hok Hrl Hbl Hrl' Hbl' Hq Hm t. destruct (Hm t) as (_ & Hnd & Hr & Hb & _ & Hcl).
  split_and!; try done.
  - intros x _ Hx. destruct (Hrl x Hx) as [Hx'|]; [|by right].
    destruct (Hr x) as [?|Hk]; [set_solver|done|by left|].
    apply Hq in Hk as [?|Hno]; [by right|]. destruct Hx as [e He].
    unfold current, current_rate_limit in Hno. by rewrite He in Hno.
  - intros n Hn. destruct (Hbl n Hn) as [Hn'|]; [|by right].
    destruct (Hb n Hn') as [?|Hk]; [by left|].
    apply Hq in Hk as [?|Hno]; [by right|]. destruct Hn as [e He].
    unfold current, current_block, is_blocked in Hno. rewrite bool_decide_true in Hno; [done|by eexists].
  - set_solver.
  - intros (Hrm & Hst & Hd)%Hcl. split_and!; [done| |auto]. intros x [Hx ?]%Hst. auto.
Qed.

(** An operator's install [a], decided by the controller of [s1] from [s]: a
    fresh one that fails is undone, a re-assertion that fails is kept. *)
Lemma minv_xdp_install clean a wall s s1 :
  let fresh := bool_decide (current (mirror_key_of a) (controller s) = None) in
  minv clean s → is_install a = true →
  pending_reapply s1 = pending_reapply s → emaps s1 = emaps s → sources_ok (controller s1) →
  (∀ src, is_Some (rate_limited (controller s1) !! src) ↔
          is_Some (rate_limited (controller s) !! src) ∨ mirror_key_of a = KSrc src) →
  (∀ net, is_Some (blocked_nets (controller s1) !! net) ↔
          is_Some (blocked_nets (controller s) !! net) ∨ mirror_key_of a = KNet net) →
  (fresh = true → exec (rollback a) (controller s1) = controller s) →
  minv clean (exec (execute_and_journal a Manual wall fresh) s1).
Proof.
  intros fresh Hm Hi Hq1 Hm1 Hok Hrl Hbl Hroll.
  destruct (xdp_exec_view a Manual wall fresh s1) as (Hq & _ & Hcase).
  unfold minv. rewrite Hq, Hq1.
  destruct Hcase as [(_ & _ & -> & ->)|(_ & _ & -> & -> & _)]; rewrite Hm1.
  - eapply xdp_owed_write; [done..| |exact Hm]. auto.
  - destruct fresh eqn:Hf; [by rewrite Hroll|]. subst fresh. apply bool_decide_eq_false in Hf.
    eapply (xdp_owed_defer clean (controller s)); [done|..|exact Hm].
    + intros src [?|Hk]%Hrl; [by left|]. left. rewrite Hk in Hf. simpl in Hf.
      unfold current_rate_limit in Hf. destruct (_ !! src); [by eexists|done].
    + intros net [?|Hk]%Hbl; [by left|]. left. rewrite Hk in Hf. simpl in Hf.
      unfold current_block, is_blocked in Hf. by case_bool_decide.
    + intros src ?. apply Hrl. auto.
    + intros net ?. apply Hbl. auto.
    + auto.
Qed.

Lemma xdp_insert_is_Some {K V} `{Countable K} (k : K) (v : V) (mp : gmap K V) k' :
  is_Some (<[k := v]> mp !! k') ↔ is_Some (mp !! k') ∨ k = k'.
Proof.
  destruct (decide (k = k')) as [->|].
  - rewrite lookup_insert_eq. split; [by right|by eexists].
  - rewrite lookup_insert_ne by done. split; [by left|by intros [?|?]].
Qed.

Lemma xdp_manual_block_cases net c :
  (∃ e, eval (manual_block net) c = Err e ∧
     (e = OwnPrefix ↔ overlaps_own_prefix net c = true) ∧ exec (manual_block net) c = c) ∨
  (eval (manual_block net) c = Ok (Block net) ∧
   exec (manual_block net) c
   = set_state (rate_limited c) (<[net := Manual]> (blocked_nets c)) (by_target c) c).
Proof.
  unfold eval, exec, manual_block. destruct (overlaps_own_prefix net c); [by left; eexists|].
  destruct (blocked_nets c !! net); [by right|]. case_match; [|by right].
  left. by exists AtCapacity.
Qed.

Lemma minv_xdp_add clean net wall s :
  minv clean s → minv clean (exec (apply_add net wall) s).
Proof.
  intros Hm. unfold apply_add. rewrite exec_bind.
  change (exec (gets _) s) with s. change (eval (gets ?f) s) with (f s). cbv beta zeta.
  rewrite exec_bind.
  change (eval (on_controller (manual_block net)) s) with (eval (manual_block net) (controller s)).
  set (s1 := exec (on_controller (manual_block net)) s).
  assert ((∃ e, eval (manual_block net) (controller s) = Err e ∧ s1 = s) ∨
    (eval (manual_block net) (controller s) = Ok (Block net) ∧
     controller s1 = set_state (rate_limited (controller s))
       (<[net := Manual]> (blocked_nets (controller s))) (by_target (controller s)) (controller s)))
    as [(e & -> & ->)|(-> & Hc1)]; [|exact Hm|].
  { unfold s1, on_controller, eval, exec, manual_block. destruct s as [c ? ? ? ? ? ? ?]. simpl.
    repeat case_match; eauto. }
  rewrite exec_bind. change (exec (mret _) ?x) with x.
  replace (negb (is_blocked net (controller s)))
    with (bool_decide (current (mirror_key_of (Block net)) (controller s) = None)).
  2: { unfold current, current_block. simpl. by destruct (is_blocked net (controller s)). }
  apply minv_xdp_install; try done; rewrite Hc1.
  - apply (Hm (V4 0)).
  - intros src. simpl. split; [by left|by intros [?|?]].
  - intros n. simpl. rewrite xdp_insert_is_Some. naive_solver.
  - intros Hf%bool_decide_eq_true. simpl in Hf. unfold current_block, is_blocked in Hf.
    case_bool_decide as Hb; [done|]. apply eq_None_not_Some in Hb.
    destruct (controller s). unfold exec. simpl in *. unfold set_state. simpl.
    by rewrite delete_insert_id.
Qed.

Lemma minv_xdp_rate clean src p b wall s :
  minv clean s → minv clean (exec (apply_rate_limit src p b wall) s).
Proof.
  intros Hm. unfold apply_rate_limit. rewrite exec_bind.
  change (exec (gets _) s) with s. change (eval (gets ?f) s) with (f s). cbv beta zeta.
  rewrite exec_bind.
  change (eval (on_controller (manual_rate_limit src p b)) s)
    with (eval (manual_rate_limit src p b) (controller s)).
  set (s1 := exec (on_controller (manual_rate_limit src p b)) s).
  set (en := {| origin := Manual; pps := p; burst := b; victim := None |}).
  assert ((∃ e, eval (manual_rate_limit src p b) (controller s) = Err e ∧ s1 = s) ∨
    (eval (manual_rate_limit src p b) (controller s) = Ok (RateLimit src p b None) ∧
     controller s1 = set_state (<[src := en]> (rate_limited (controller s)))
       (blocked_nets (controller s)) (by_target (controller s)) (controller s)))
    as [(e & -> & ->)|(-> & Hc1)]; [|exact Hm|].
  { unfold s1, on_controller, eval, exec, manual_rate_limit. destruct s as [c ? ? ? ? ? ? ?]. simpl.
    repeat case_match; eauto. }
  rewrite exec_bind. change (exec (mret _) ?x) with x.
  replace (negb (is_rate_limited src (controller s)))
    with (bool_decide (current (mirror_key_of (RateLimit src p b None)) (controller s) = None)).
  2: { unfold current, current_rate_limit, is_rate_limited. simpl.
       by destruct (rate_limited (controller s) !! src). }
  assert (sources_ok (controller s)) as Hok by apply (Hm src).
  apply minv_xdp_install; try done; rewrite Hc1.
  - apply xdp_sources_ok_insert; [done|done|by left|done].
  - intros x. simpl. rewrite xdp_insert_is_Some. naive_solver.
  - intros n. simpl. split; [by left|by intros [?|?]].
  - intros Hf%bool_decide_eq_true. simpl in Hf. unfold current_rate_limit in Hf.
    destruct (rate_limited (controller s) !! src) eqn:Hr; [done|].
    destruct (controller s). unfold exec. simpl in *. unfold set_state. simpl.
    by rewrite delete_insert_id.
Qed.

(** The retries of journal writes leave everything else alone. *)
Lemma xdp_retry_mirror_view s :
  let s' := exec retry_pending_mirror s in
  controller s' = controller s ∧ executor s' = executor s ∧
  pending_reapply s' = pending_reapply s ∧ disarmed s' = disarmed s.
Proof.
  intros s'. subst s'. unfold retry_pending_mirror. rewrite exec_bind.
  change (eval (gets pending_mirror) s) with (pending_mirror s).
  destruct (pending_mirror s) as [|op ops] eqn:Hp; [done|]. rewrite exec_bind.
  apply (triple_for_each (λ s', controller s' = controller s ∧ executor s' = executor s ∧
    pending_reapply s' = pending_reapply s ∧ disarmed s' = disarmed s)); [|done].
  intros x _ s' Hs'. unfold retry_mirror, on_journal. msimp.
  by destruct (xj_record _ _ _ _) as [[] ?].
Qed.

Lemma xdp_current_install k c a :
  current k c = Some a → is_install a = true ∧ mirror_key_of a = k ∧
  match k with
  | KSrc src => is_Some (rate_limited c !! src)
  | KNet net => is_Some (blocked_nets c !! net)
  end.
Proof.
  destruct k as [src|net]; simpl; unfold current_rate_limit, current_block, is_blocked.
  - destruct (rate_limited c !! src); [|done]. intros [= <-]. split_and!; [done..|by eexists].
  - case_bool_decide; [|done]. by intros [= <-].
Qed.

Lemma minv_xdp_retry_reapply clean : preserves (minv clean) retry_pending_reapply.
Proof.
  assert (∀ ops s, (∀ t, owed clean t [] (controller s) (emaps s) (pending_reapply s ++ ops)) →
      minv clean (exec (for_each ops retry_reapply) s)) as Hloop.
  { induction ops as [|[k] ops IH]; intros s Ho.
    { intros t. specialize (Ho t). by rewrite app_nil_r in Ho. }
    rewrite exec_for_each_cons. apply IH. assert (sources_ok (controller s)) as Hok by apply (Ho (V4 0)).
    unfold retry_reapply, on_executor, emaps. cbn [ra_key]. msimp.
    destruct (current k (controller s)) as [a|] eqn:Hc; cbn.
    - pose proof (apply_spec a (executor s)) as Hsp. unfold eval, exec in Hsp.
      destruct (xdp_current_install _ _ _ Hc) as (Hi & Hk & Hin).
      destruct (xdp_apply a (executor s)) as [[] e']; cbn in *; rewrite Hsp;
        [|by rewrite <-app_assoc].
      eapply xdp_owed_write; [done|done|..|exact Ho].
      + intros src. rewrite Hk. split; [by left|]. intros [?| ->]; done.
      + intros net. rewrite Hk. split; [by left|]. intros [?| ->]; done.
      + intros k'. rewrite Hk, !fmap_app. set_solver.
    - eapply (xdp_owed_defer clean (controller s)); [done|by auto..| |exact Ho].
      intros k'. rewrite !fmap_app. cbn.
      destruct (decide (k' = k)) as [->|]; [by right|left; set_solver]. }
  intros s Hm. unfold retry_pending_reapply. rewrite exec_bind.
  change (eval (gets pending_reapply) s) with (pending_reapply s).
  destruct (pending_reapply s) as [|op ops] eqn:Hp; [done|]. rewrite <-Hp, exec_bind. by apply Hloop.
Qed.

Lemma minv_xdp_reapply_row clean row : row_ok row → preserves (minv clean) (reapply_row row).
Proof.
  destruct row as [a o]. intros [Hi Hro] s Hm. cbn [fst snd] in *.
  assert (sources_ok (exec (mark_resumed a o) (controller s))) as Hok.
  { apply (xdp_sources_ok_op [] (OpResume a o)); [done|]. apply (Hm (V4 0)). }
  unfold reapply_row, on_executor. rewrite exec_bind.
  set (s1 := exec (on_controller (mark_resumed a o)) s). fold s1 in Hok.
  change (exec (mark_resumed a o) (controller s)) with (controller s1) in Hok.
  assert (∀ src, is_Some (rate_limited (controller s1) !! src) ↔
    is_Some (rate_limited (controller s) !! src) ∨ mirror_key_of a = KSrc src) as Hrl.
  { intros src. change (controller s1) with (exec (mark_resumed a o) (controller s)).
    destruct a; try done; unfold exec; simpl; rewrite ?xdp_insert_is_Some; naive_solver. }
  assert (∀ net, is_Some (blocked_nets (controller s1) !! net) ↔
    is_Some (blocked_nets (controller s) !! net) ∨ mirror_key_of a = KNet net) as Hbl.
  { intros src. change (controller s1) with (exec (mark_resumed a o) (controller s)).
    destruct a; try done; unfold exec; simpl; rewrite ?xdp_insert_is_Some; naive_solver. }
  pose proof (apply_spec a (executor s1)) as Hsp. unfold eval, exec in Hsp.
  unfold minv, emaps. msimp.
  destruct (xdp_apply a (executor s1)) as [[] e']; cbn in *; rewrite Hsp.
  - eapply (xdp_owed_write clean (controller s)); [done|done|done|done| |exact Hm]. by left.
  - assert (∀ k, k ∈ ra_key <$> (retain (λ op, bool_decide (ra_key op ≠ mirror_key_of a))
        (pending_reapply s) ++ [{| ra_key := mirror_key_of a |}]) ↔
        k ∈ ra_key <$> pending_reapply s ∨ k = mirror_key_of a) as Hq.
    { intros k. rewrite fmap_app, elem_of_app, list_elem_of_fmap. cbn. rewrite list_elem_of_singleton.
      setoid_rewrite elem_of_retain. rewrite list_elem_of_fmap.
      split; [naive_solver|]. intros [(op & -> & Hop)| ->]; [|by right].
      destruct (decide (ra_key op = mirror_key_of a)) as [->|]; [by right|].
      left. exists op. split_and!; [done|by apply bool_decide_eq_true|done]. }
    eapply (xdp_owed_defer clean (controller s)); [done|..|exact Hm].
    + intros src [?|Hk]%Hrl; [by left|]. right. apply Hq. by right.
    + intros net [?|Hk]%Hbl; [by left|]. right. apply Hq. by right.
    + intros src ?. apply Hrl. by left.
    + intros net ?. apply Hbl. by left.
    + intros k Hk. left. apply Hq. by left.
Qed.

(** ** Disarming *)

(** One step of the sweep removes one entry. *)
Lemma xdp_disarm_action_view clean a s :
  minv clean s → is_install a = true →
  let s' := exec (disarm_action a) s in
  minv clean s' ∧ disarmed s' = disarmed s ∧
  (∀ src, rate_limited (controller s') !! src
     = if decide (mirror_key_of a = KSrc src) then None else rate_limited (controller s) !! src) ∧
  (∀ net, blocked_nets (controller s') !! net
     = if decide (mirror_key_of a = KNet net) then None else blocked_nets (controller s) !! net).
Proof.
  intros Hm Hi s'. subst s'. destruct a as [src p b v|net|net|src]; try done; cbn [disarm_action].
  - assert (sources_ok (exec (manual_clear_rate src) (controller s))) as Hok.
    { apply (xdp_sources_ok_op [] (OpClearRate src)); [done|]. apply (Hm src). }
    assert (∀ x, rate_limited (exec (manual_clear_rate src) (controller s)) !! x
      = if decide (x ∈ [src]) then None else rate_limited (controller s) !! x) as Hr.
    { intros x. simpl. rewrite decide_elem_of_cons. destruct (decide (x = src)) as [->|].
      - apply lookup_delete_eq.
      - by rewrite lookup_delete_ne. }
    pose proof (apply_spec (ClearRate src) (executor s)) as Hsp. unfold eval, exec in Hsp.
    assert (removals_ok → maps_of (xdp_apply (ClearRate src) (executor s)).2
      = apply_maps (ClearRate src) (maps_of (executor s))) as Hrm
      by (intros Hrm; by apply (Hrm (ClearRate src))).
    unfold on_controller, on_executor. msimp. unfold minv, emaps.
    destruct (xdp_apply (ClearRate src) (executor s)) as [[] e']; cbn in *; (split_and!;
      [eapply (xdp_owed_sweep clean (controller s) _ _ _ _ [src]); [exact Hm|done|done|exact Hr|..]
      |done|intros x; etransitivity; [apply (Hr x)|]; 
         destruct (decide (src = x)) as [->|];
         [by rewrite !decide_True by (done || by left)|by rewrite !decide_False by (congruence || set_solver)]
      |done]); rewrite Hsp; try done.
    + intros x. simpl. destruct (decide (x = src)) as [->|].
      * right. split; [set_solver|apply lookup_delete_eq].
      * left. by apply lookup_delete_ne.
    + intros _ x ->%list_elem_of_singleton. apply lookup_delete_eq.
    + by left.
    + intros Hr1%Hrm x ->%list_elem_of_singleton. rewrite <-Hsp, Hr1. apply lookup_delete_eq.
  - pose proof (apply_spec (Unblock net) (executor s)) as Hsp. unfold eval, exec in Hsp.
    assert (removals_ok → maps_of (xdp_apply (Unblock net) (executor s)).2
      = apply_maps (Unblock net) (maps_of (executor s))) as Hrm
      by (intros Hrm; by apply (Hrm (Unblock net))).
    unfold on_controller, on_executor. msimp. unfold minv, emaps.
    destruct (xdp_apply (Unblock net) (executor s)) as [[] e']; cbn in *; (split_and!;
      [eapply (xdp_owed_unblock clean (controller s)); [exact Hm|]|done|done|
       intros x; destruct (decide (net = x)) as [->|];
         [rewrite decide_True by done; apply lookup_delete_eq
         |rewrite decide_False by congruence; by apply lookup_delete_ne]]); rewrite Hsp.
    + by left.
    + right. split; [done|]. intros Hr1%Hrm. etransitivity; [symmetry; exact Hr1|exact Hsp].
Qed.

Lemma xdp_disarm_loop clean acts s :
  minv clean s → Forall (λ a, is_install a = true) acts →
  let s' := exec (for_each acts disarm_action) s in
  minv clean s' ∧ disarmed s' = disarmed s ∧
  (∀ src, rate_limited (controller s') !! src
     = if decide (KSrc src ∈ mirror_key_of <$> acts) then None
       else rate_limited (controller s) !! src) ∧
  (∀ net, blocked_nets (controller s') !! net
     = if decide (KNet net ∈ mirror_key_of <$> acts) then None
       else blocked_nets (controller s) !! net).
Proof.
  revert s. induction acts as [|a acts IH]; intros s Hm Hi s'; subst s'; [done|].
  apply Forall_cons in Hi as [Ha Hi]. rewrite exec_for_each_cons.
  destruct (xdp_disarm_action_view clean a s Hm Ha) as (Hm1 & Hd1 & Hr1 & Hb1).
  destruct (IH _ Hm1 Hi) as (Hm2 & Hd2 & Hr2 & Hb2).
  split_and!; [done|congruence| |].
  - intros src. rewrite Hr2, Hr1, fmap_cons, decide_elem_of_cons.
    repeat case_decide; congruence.
  - intros net. rewrite Hb2, Hb1, fmap_cons, decide_elem_of_cons.
    repeat case_decide; congruence.
Qed.

Lemma xdp_active_keys c :
  Forall (λ a, is_install a = true) (active_entries c).*1 ∧
  (∀ src, is_Some (rate_limited c !! src) → KSrc src ∈ mirror_key_of <$> (active_entries c).*1) ∧
  (∀ net, is_Some (blocked_nets c !! net) → KNet net ∈ mirror_key_of <$> (active_entries c).*1).
Proof.
  unfold active_entries. rewrite fmap_app. split_and!.
  - apply Forall_app. rewrite !Forall_fmap. split; apply Forall_forall; by intros [].
  - intros src [e He]. rewrite fmap_app, elem_of_app. left. rewrite <-!list_fmap_compose.
    apply list_elem_of_fmap. exists (src, e). split; [done|]. by apply elem_of_hm_iter.
  - intros net [e He]. rewrite fmap_app, elem_of_app. right. rewrite <-!list_fmap_compose.
    apply list_elem_of_fmap. exists (net, e). split; [done|]. by apply elem_of_hm_iter.
Qed.

Lemma xdp_disarm_view clean s :
  minv clean s → disarmed s = false →
  let s' := exec disarm s in
  minv clean s' ∧ disarmed s' = true ∧
  rate_limited (controller s') = ∅ ∧ blocked_nets (controller s') = ∅.
Proof.
  intros Hm Hd s'. subst s'. unfold disarm. rewrite exec_bind.
  change (eval (gets disarmed) s) with (disarmed s). rewrite Hd.
  change (exec (gets disarmed) s) with s. rewrite exec_bind, exec_bind.
  set (s1 := exec (modify set_disarmed) s). change (exec (gets _) s1) with s1.
  change (eval (gets ?f) s1) with (f s1). cbv beta.
  destruct (xdp_active_keys (controller s1)) as (Hi & Hr & Hb).
  destruct (xdp_disarm_loop clean _ s1 Hm Hi) as (Hm' & Hd' & Hr' & Hb').
  split_and!; [done..| |].
  - apply map_eq. intros src. rewrite Hr', lookup_empty. case_decide as Hk; [done|].
    apply eq_None_not_Some. by intros ?%Hr.
  - apply map_eq. intros net. rewrite Hb', lookup_empty. case_decide as Hk; [done|].
    apply eq_None_not_Some. by intros ?%Hb.
Qed.

Lemma minv_xdp_mop clean o : mop_wf o → preserves (minv clean) (run_mop o).
Proof.
  intros Hwf s Hm. destruct o as [ev wall|net wall|net wall|src wall|src p b wall| |rs|]; cbn [run_mop].
  - by apply minv_xdp_detect.
  - rewrite exec_bind. by apply minv_xdp_add.
  - rewrite exec_bind. by apply minv_xdp_remove.
  - rewrite exec_bind. by apply minv_xdp_clear_rate.
  - rewrite exec_bind. by apply minv_xdp_rate.
  - unfold tick. rewrite exec_bind. apply minv_xdp_retry_reapply.
    destruct (xdp_retry_mirror_view s) as (Hc & He & Hq & _).
    unfold minv, emaps. by rewrite Hc, He, Hq.
  - apply (triple_for_each (minv clean)); [|done]. intros row Hrow. apply minv_xdp_reapply_row.
    simpl in Hwf. rewrite Forall_forall in Hwf. by apply Hwf.
  - destruct (disarmed s) eqn:Hd; [|by apply xdp_disarm_view].
    unfold disarm. rewrite exec_bind. change (eval (gets disarmed) s) with (disarmed s). by rewrite Hd.
Qed.

Lemma xdp_mreachable_minv (clean : Prop) ps n rate pp e j s :
  (clean → removals_ok ∧ rates (maps_of e) = ∅ ∧ drops (maps_of e) = ∅) →
  mreachable ps n rate pp e j s → minv clean s.
Proof.
  intros Hcl. induction 1 as [|s o _ IH Hwf]; [|by apply minv_xdp_mop].
  intros t. unfold emaps. cbn [executor controller manager_new]. split_and!; [|constructor|..].
  - split; [|done]. intros src [t' Ht']. unfold srcs_of in Ht'. cbn in Ht'.
    rewrite lookup_empty in Ht'. set_solver.
  - intros src _. cbn [rate_limited controller_new]. rewrite lookup_empty. by intros [].
  - intros net. cbn [blocked_nets controller_new]. rewrite lookup_empty. by intros [].
  - set_solver.
  - intros (Hrm & Hr & Hd)%Hcl. rewrite Hr, Hd. split_and!; [done| |set_solver].
    intros src. rewrite lookup_empty. by intros [].
Qed.

(** ** After disarming *)

Definition is_reapply (o : mop) : bool := match o with XReapply _ => true | _ => false end.

(** Disarmed with nothing active, and nothing in the maps that [m0] lacks. *)
Definition quiet (m0 : maps) (s : XdpManager) : Prop :=
  disarmed s = true ∧ minv False s ∧
  rate_limited (controller s) = ∅ ∧ blocked_nets (controller s) = ∅ ∧
  rates (emaps s) ⊆ rates m0 ∧ drops (emaps s) ⊆ drops m0.

Lemma xdp_quiet_loop t L rate wall s :
  disarmed s = true → (∀ src, src ∉ L → rate_limited (controller s) !! src = None) →
  let s' := exec (for_each ((λ src, RateLimit src rate rate (Some t)) <$> L)
              (λ a, execute_and_journal a Auto wall true;; mret ())) s in
  disarmed s' = true ∧ rate_limited (controller s') = ∅ ∧
  blocked_nets (controller s') = blocked_nets (controller s) ∧ emaps s' = emaps s.
Proof.
  revert s. induction L as [|src L IH]; intros s Hd Hr s'; subst s'.
  { split_and!; [done| |done..]. apply map_eq. intros x. rewrite lookup_empty. apply Hr. set_solver. }
  rewrite fmap_cons, exec_for_each_cons, exec_bind. change (exec (mret ()) ?x) with x.
  destruct (xdp_exec_view (RateLimit src rate rate (Some t)) Auto wall true s) as (_ & Hd1 & Hcase).
  set (s1 := exec (execute_and_journal _ _ _ _) s) in *.
  destruct Hcase as [(_ & Hbad & _)|(_ & _ & Hc1 & Hm1 & _)]; [by rewrite Hd in Hbad|].
  destruct (IH s1) as (? & ? & Hb & Hm); [congruence| |].
  - intros x Hx. rewrite Hc1. unfold exec. simpl. destruct (decide (x = src)) as [->|].
    + apply lookup_delete_eq.
    + rewrite lookup_delete_ne by done. apply Hr. set_solver.
  - split_and!; [done|done|by rewrite Hb, Hc1|by rewrite Hm, Hm1].
Qed.

(** A fresh install is refused and undone. *)
Lemma xdp_quiet_refuse m0 a o wall s s1 :
  quiet m0 s → is_install a = true → disarmed s1 = true → emaps s1 = emaps s →
  rate_limited (exec (rollback a) (controller s1)) = ∅ →
  blocked_nets (exec (rollback a) (controller s1)) = ∅ →
  let s2 := exec (execute_and_journal a o wall true) s1 in
  disarmed s2 = true ∧ rate_limited (controller s2) = ∅ ∧ blocked_nets (controller s2) = ∅ ∧
  rates (emaps s2) ⊆ rates m0 ∧ drops (emaps s2) ⊆ drops m0.
Proof.
  intros (_ & _ & _ & _ & Hrm & Hdm) Hi Hd Hm1 Hr Hb s2. subst s2.
  destruct (xdp_exec_view a o wall true s1) as (_ & Hd1 & Hcase).
  destruct Hcase as [(_ & Hbad & _)|(_ & _ & -> & -> & _)]; [by rewrite Hd, Hi in Hbad|].
  rewrite Hd1, Hm1. done.
Qed.

Lemma xdp_handle_detection_dom d c :
  ∃ new, eval (handle_detection d) c
    = (λ src, RateLimit src (default_rate_pps c) (default_rate_pps c) (Some (d_target d))) <$> new ∧
    (∀ src, src ∉ new →
       rate_limited (exec (handle_detection d) c) !! src = rate_limited c !! src) ∧
    blocked_nets (exec (handle_detection d) c) = blocked_nets c.
Proof.
  unfold eval, exec, handle_detection.
  destruct (any_contains (protected_prefixes c) (d_target d)); [by exists []|].
  destruct (any_contains (prefixes c) (d_target d)); [simpl|by exists []].
  destruct (xdp_limit_sources_spec (d_target d) (d_top_sources d) c)
    as (new & (_ & Hb & _ & _ & Hr & _) & Hev).
  exists new. split_and!; [exact Hev| |exact Hb]. intros src Hs.
  etransitivity; [apply Hr|]. by rewrite decide_False.
Qed.

(** What [quiet] asks besides the invariant. *)
Definition silent (m0 : maps) (s : XdpManager) : Prop :=
  disarmed s = true ∧ rate_limited (controller s) = ∅ ∧ blocked_nets (controller s) = ∅ ∧
  rates (emaps s) ⊆ rates m0 ∧ drops (emaps s) ⊆ drops m0.

Lemma silent_xdp_detect m0 ev wall s :
  quiet m0 s → silent m0 (exec (manager_on_detection ev wall) s).
Proof.
  intros (Hd & Hm & Hr & Hb & Hrm & Hdm). unfold manager_on_detection. rewrite exec_bind.
  change (eval (on_controller (on_detection ev)) s) with (eval (on_detection ev) (controller s)).
  set (s1 := exec (on_controller (on_detection ev)) s).
  assert (∀ d, on_detection ev = handle_detection d →
    silent m0 (exec (for_each (eval (on_detection ev) (controller s))
      (λ a, execute_and_journal a Auto wall true;; mret ())) s1)) as Hdet.
  { intros d Hev. destruct (xdp_handle_detection_dom d (controller s)) as (new & Hnew & Hrl & Hbl).
    rewrite Hev, Hnew.
    destruct (xdp_quiet_loop (d_target d) new (default_rate_pps (controller s)) wall s1)
      as (? & ? & Hb' & Hm'); [done| |].
    - intros src Hs. unfold s1. rewrite Hev. etransitivity; [by apply Hrl|].
      by rewrite Hr, lookup_empty.
    - unfold silent. rewrite Hb', Hm'. split_and!; try done. unfold s1. rewrite Hev.
      etransitivity; [apply Hbl|done]. }
  destruct ev as [d|d|t at_]; [by eapply Hdet|by eapply Hdet|].
  destruct (xdp_handle_cleared_spec t (controller s)) as (gone & Hev & _ & _ & _ & Hb' & Hr' & _);
    [apply (Hm t)|].
  cbn [on_detection]. rewrite Hev.
  destruct (xdp_clears_view gone Auto wall true s1) as (Hc & _ & Hd' & Hdr & Hrt & _).
  unfold silent. rewrite Hc, Hd', Hdr. split_and!; [done| |by etransitivity; [exact Hb'|]| |done].
  - apply map_eq. intros src. etransitivity; [apply Hr'|]. rewrite Hr, lookup_empty. by case_decide.
  - apply map_subseteq_spec. intros src v Hv. destruct (Hrt src) as [Heq|[_ Heq]]; [|congruence].
    rewrite Heq in Hv. eapply lookup_weaken; [exact Hv|exact Hrm].
Qed.

(** A removal keeps a quiet state quiet. *)
Lemma silent_xdp_removal m0 a wall s s1 :
  quiet m0 s → is_install a = false → disarmed s1 = true → emaps s1 = emaps s →
  rate_limited (controller s1) = ∅ → blocked_nets (controller s1) = ∅ →
  silent m0 (exec (execute_and_journal a Manual wall false) s1).
Proof.
  intros (_ & _ & _ & _ & Hrm & Hdm) Hi Hd Hm1 Hr Hb.
  destruct (xdp_exec_view a Manual wall false s1) as (_ & Hd1 & Hcase). unfold silent. rewrite Hd1.
  destruct Hcase as [(_ & _ & -> & ->)|(_ & _ & -> & -> & _)]; rewrite Hm1; [|done].
  split_and!; try done; destruct a as [src p b v|net|net|src]; try done; simpl.
  - etransitivity; [apply delete_subseteq|done].
  - set_solver.
Qed.

Lemma silent_xdp_add m0 net wall s :
  quiet m0 s → silent m0 (exec (apply_add net wall) s).
Proof.
  intros Hq. pose proof Hq as (Hd & Hm & Hr & Hb & Hrm & Hdm). unfold apply_add. rewrite exec_bind.
  change (exec (gets _) s) with s. change (eval (gets ?f) s) with (f s). cbv beta zeta.
  assert (is_blocked net (controller s) = false) as ->.
  { apply bool_decide_eq_false. rewrite Hb, lookup_empty. by intros []. }
  rewrite exec_bind.
  change (eval (on_controller (manual_block net)) s) with (eval (manual_block net) (controller s)).
  set (s1 := exec (on_controller (manual_block net)) s).
  assert ((∃ e, eval (manual_block net) (controller s) = Err e ∧ controller s1 = controller s) ∨
    (eval (manual_block net) (controller s) = Ok (Block net) ∧
     controller s1 = set_state ∅ {[net := Manual]} (by_target (controller s)) (controller s)))
    as [(e & -> & Hc1)|(-> & Hc1)].
  { change (controller s1) with (exec (manual_block net) (controller s)).
    unfold eval, exec, manual_block. rewrite Hb, Hr, lookup_empty. repeat case_match; eauto. }
  { change (silent m0 s1). unfold silent. rewrite Hc1. done. }
  rewrite exec_bind. change (exec (mret _) ?x) with x.
  apply (xdp_quiet_refuse m0 (Block net) Manual wall s s1); try done; rewrite Hc1; simpl; [done|].
  by rewrite delete_singleton_eq.
Qed.

Lemma silent_xdp_rate m0 src p b wall s :
  quiet m0 s → silent m0 (exec (apply_rate_limit src p b wall) s).
Proof.
  intros Hq. pose proof Hq as (Hd & Hm & Hr & Hb & Hrm & Hdm). unfold apply_rate_limit.
  rewrite exec_bind.
  change (exec (gets _) s) with s. change (eval (gets ?f) s) with (f s). cbv beta zeta.
  assert (is_rate_limited src (controller s) = false) as ->.
  { apply bool_decide_eq_false. rewrite Hr, lookup_empty. by intros []. }
  rewrite exec_bind. change (eval (on_controller (manual_rate_limit src p b)) s)
    with (eval (manual_rate_limit src p b) (controller s)).
  set (s1 := exec (on_controller (manual_rate_limit src p b)) s).
  set (en := {| origin := Manual; pps := p; burst := b; victim := None |}).
  assert ((∃ e, eval (manual_rate_limit src p b) (controller s) = Err e ∧
      controller s1 = controller s) ∨
    (eval (manual_rate_limit src p b) (controller s) = Ok (RateLimit src p b None) ∧
     controller s1 = set_state {[src := en]} ∅ (by_target (controller s)) (controller s)))
    as [(e & -> & Hc1)|(-> & Hc1)].
  { change (controller s1) with (exec (manual_rate_limit src p b) (controller s)).
    unfold eval, exec, manual_rate_limit. rewrite Hb, Hr, lookup_empty. repeat case_match; eauto. }
  { change (silent m0 s1). unfold silent. rewrite Hc1. done. }
  rewrite exec_bind. change (exec (mret _) ?x) with x.
  apply (xdp_quiet_refuse m0 (RateLimit src p b None) Manual wall s s1); try done;
    rewrite Hc1; simpl; [|done]. by rewrite delete_singleton_eq.
Qed.

Lemma quiet_xdp_mop m0 o :
  mop_wf o → is_reapply o = false → preserves (quiet m0) (run_mop o).
Proof.
  intros Hwf Ho s Hq. cut (silent m0 (exec (run_mop o) s)).
  { intros (? & ? & ? & ? & ?). split_and!; try done. apply minv_xdp_mop; [done|apply Hq]. }
  pose proof Hq as (Hd & Hm & Hr & Hb & Hrm & Hdm).
  destruct o as [ev wall|net wall|net wall|src wall|src p b wall| |rs|]; cbn [run_mop]; try done.
  - by apply silent_xdp_detect.
  - rewrite exec_bind. by apply silent_xdp_add.
  - unfold apply_remove. rewrite !exec_bind. change (exec (mret ()) ?x) with x.
    change (silent m0 (exec (execute_and_journal (Unblock net) Manual wall false;; mret Applied)
      (exec (on_controller (manual_unblock net)) s))). rewrite exec_bind.
    change (exec (mret Applied) ?x) with x.
    apply (silent_xdp_removal m0 (Unblock net) wall s); try done. simpl. by rewrite Hb, delete_empty.
  - unfold apply_clear_rate. rewrite !exec_bind. change (exec (mret ()) ?x) with x.
    change (silent m0 (exec (execute_and_journal (ClearRate src) Manual wall false;; mret Applied)
      (exec (on_controller (manual_clear_rate src)) s))). rewrite exec_bind.
    change (exec (mret Applied) ?x) with x.
    apply (silent_xdp_removal m0 (ClearRate src) wall s); try done. simpl. by rewrite Hr, delete_empty.
  - rewrite exec_bind. by apply silent_xdp_rate.
  - unfold tick. rewrite exec_bind. destruct (xdp_retry_mirror_view s) as (Hc & He & _ & Hd').
    set (s1 := exec retry_pending_mirror s) in *.
    assert (silent m0 s1) as Hs1 by (unfold silent, emaps; rewrite Hc, He, Hd'; done).
    unfold retry_pending_reapply. rewrite exec_bind.
    change (eval (gets pending_reapply) s1) with (pending_reapply s1).
    destruct (pending_reapply s1) as [|op ops]; [exact Hs1|]. rewrite exec_bind.
    apply (triple_for_each (silent m0)); [|exact Hs1]. intros x _ s' Hs'.
    unfold retry_reapply. rewrite exec_bind. change (eval (gets ?f) s') with (f s'). cbv beta.
    assert (current (ra_key x) (controller s') = None) as ->; [|exact Hs'].
    destruct Hs' as (_ & Hr' & Hb' & _). destruct (ra_key x); simpl.
    + unfold current_rate_limit. by rewrite Hr', lookup_empty.
    + unfold current_block, is_blocked. rewrite Hb', lookup_empty.
      by rewrite bool_decide_false by (by intros []).
  - unfold disarm. rewrite exec_bind. change (eval (gets disarmed) s) with (disarmed s). by rewrite Hd.
Qed.

(** ** The queues *)

Definition queues_nodup (s : XdpManager) : Prop :=
  NoDup (mirror_key <$> pending_mirror s) ∧ NoDup (ra_key <$> pending_reapply s).

Lemma xdp_nodup_queue_mirror op : preserves queues_nodup (queue_mirror op).
Proof.
  intros s [Hm Hr]. split; [|done]. apply NoDup_retain_snoc; [|done].
  intros y Hy%bool_decide_eq_true. done.
Qed.

Lemma xdp_nodup_queue_reapply op : preserves queues_nodup (queue_reapply op).
Proof.
  intros s [Hm Hr]. split; [done|]. apply NoDup_retain_snoc; [|done].
  intros y Hy%bool_decide_eq_true. done.
Qed.

Lemma xdp_nodup_same {A} (m : M XdpManager A) :
  (∀ s, pending_mirror (exec m s) = pending_mirror s ∧ pending_reapply (exec m s) = pending_reapply s) →
  preserves queues_nodup m.
Proof. intros Hm s Hs. destruct (Hm s) as [Hp Hr]. unfold queues_nodup. by rewrite Hp, Hr. Qed.

Lemma xdp_nodup_bind {A A'} (m : M XdpManager A) (f : A → M XdpManager A') :
  preserves queues_nodup m → (∀ a, preserves queues_nodup (f a)) → preserves queues_nodup (m ≫= f).
Proof. intros Hm Hf. eapply triple_bind; [exact Hm|exact Hf]. Qed.

Lemma xdp_nodup_retry_mirror : preserves queues_nodup retry_pending_mirror.
Proof.
  assert (∀ ops s, NoDup (mirror_key <$> pending_mirror s ++ ops) →
      NoDup (ra_key <$> pending_reapply s) →
      queues_nodup (exec (for_each ops retry_mirror) s)) as Hloop.
  { induction ops as [|op ops IH]; intros s Hm Hr.
    { split; [by rewrite app_nil_r in Hm|done]. }
    rewrite exec_for_each_cons. apply IH; unfold retry_mirror, on_journal; msimp;
      destruct (xj_record _ _ _ _) as [[] ?]; cbn; try done.
    - by eapply NoDup_fmap_drop_mid.
    - by rewrite <-app_assoc. }
  intros s Hs. unfold retry_pending_mirror. rewrite exec_bind.
  change (eval (gets pending_mirror) s) with (pending_mirror s).
  destruct (pending_mirror s) as [|op ops] eqn:Hp; [exact Hs|].
  destruct Hs as [Hm Hr]. rewrite Hp in Hm. rewrite exec_bind. by apply Hloop.
Qed.

Lemma xdp_nodup_retry_reapply : preserves queues_nodup retry_pending_reapply.
Proof.
  assert (∀ ops s, NoDup (mirror_key <$> pending_mirror s) →
      NoDup (ra_key <$> pending_reapply s ++ ops) →
      queues_nodup (exec (for_each ops retry_reapply) s)) as Hloop.
  { induction ops as [|op ops IH]; intros s Hm Hr.
    { split; [done|by rewrite app_nil_r in Hr]. }
    rewrite exec_for_each_cons. unfold retry_reapply at 2, on_executor. msimp.
    destruct (current (ra_key op) (controller s)) as [a|]; cbn;
      [|apply IH; [done|by eapply NoDup_fmap_drop_mid]].
    destruct (xdp_apply a (executor s)) as [[] ?]; cbn; apply IH; cbn; try done.
    - by eapply NoDup_fmap_drop_mid.
    - by rewrite <-app_assoc. }
  intros s Hs. unfold retry_pending_reapply. rewrite exec_bind.
  change (eval (gets pending_reapply) s) with (pending_reapply s).
  destruct (pending_reapply s) as [|op ops] eqn:Hp; [exact Hs|].
  destruct Hs as [Hm Hr]. rewrite Hp in Hr. rewrite exec_bind. by apply Hloop.
Qed.

Ltac xdp_nodup_tac := repeat first
  [ apply xdp_nodup_retry_mirror | apply xdp_nodup_retry_reapply
  | apply xdp_nodup_bind; [|intros ?] | apply xdp_nodup_queue_mirror | apply xdp_nodup_queue_reapply
  | apply (triple_for_each queues_nodup); intros ? _
  | progress case_match | by apply xdp_nodup_same ].

Lemma xdp_nodup_execute a o wall fresh : preserves queues_nodup (execute_and_journal a o wall fresh).
Proof. unfold execute_and_journal. xdp_nodup_tac. Qed.

Lemma xdp_nodup_mop o : preserves queues_nodup (run_mop o).
Proof.
  destruct o as [ev wall|net wall|net wall|src wall|src p b wall| |rs|]; cbn [run_mop];
    unfold manager_on_detection, apply_add, apply_remove, apply_clear_rate, apply_rate_limit, tick,
      reapply_active, reapply_row, disarm, disarm_action; xdp_nodup_tac; apply xdp_nodup_execute.
Qed.

(** ** Theorems *)


(** On a data plane that starts empty and where removals succeed, once no
    re-application is pending, the maps hold exactly the active set: the drop
    map the blocked networks, the rate map the rate-limited sources. *)
Theorem xdp_maps_are_active_set ps n rate pp e j s :
  removals_ok → rates (maps_of e) = ∅ → drops (maps_of e) = ∅ →
  mreachable ps n rate pp e j s → pending_reapply s = [] →
  (∀ net, net ∈ drops (emaps s) ↔ is_Some (blocked_nets (controller s) !! net)) ∧
  (∀ src, is_Some (rates (emaps s) !! src) ↔ is_Some (rate_limited (controller s) !! src)).
Proof.
  intros Hrm Hr0 Hd0 Hr Hq. apply (xdp_mreachable_minv True) in Hr; [|done].
  destruct (Hr (V4 0)) as (_ & _ & Hrl & Hbl & _ & Hcl). destruct (Hcl I) as (_ & Hs & Hd).
  rewrite Hq in Hrl, Hbl. split.
  - intros net. split; [apply Hd|]. intros [?|Hk]%Hbl; [done|]. by apply not_elem_of_nil in Hk.
  - intros src. split; [by intros [? _]%Hs|]. intros Hsrc.
    destruct (Hrl src) as [?|Hk]; [set_solver|done|done|]. by apply not_elem_of_nil in Hk.
Qed.

(** The XDP kill switch is final: after [disarm] no further detection,
    tick or operator request makes an entry active or adds one to the maps. *)
Theorem xdp_disarm_final ps n rate pp e j s os :
  mreachable ps n rate pp e j s → disarmed s = false →
  Forall (λ o, is_reapply o = false) os →
  let s1 := exec disarm s in
  let s2 := exec (run_mops os) s1 in
  active_entries (controller s2) = [] ∧ disarmed s2 = true ∧
  rates (emaps s2) ⊆ rates (emaps s1) ∧ drops (emaps s2) ⊆ drops (emaps s1).
Proof.
  intros Hr Hd Hos s1 s2. apply (xdp_mreachable_minv False) in Hr; [|done].
  destruct (xdp_disarm_view False s Hr Hd) as (Hm1 & Hd1 & Hr1 & Hb1).
  assert (quiet (emaps s1) s2) as (? & _ & Hr2 & Hb2 & ? & ?).
  { apply (triple_for_each (quiet (emaps s1))); [|done].
    intros o Ho. rewrite Forall_forall in Hos. apply quiet_xdp_mop; [|by apply Hos].
    specialize (Hos o Ho). by destruct o. }
  split_and!; try done. unfold active_entries. rewrite Hr2, Hb2.
  assert (∀ {K V} `{Countable K}, hm_iter (∅ : gmap K V) = []) as Hem.
  { intros K V ??. apply Permutation_nil. symmetry. by rewrite hm_iter_perm, map_to_list_empty. }
  by rewrite !Hem.
Qed.

(** The answer to an operator's block request is truthful. [Applied] means
    the network is blocked under the operator's name and is in the drop map;
    any other answer means the blocked networks and the maps are those of
    before the request; and a rejection names a reason that holds. *)
Theorem xdp_apply_add_truthful net wall s :
  let out := eval (apply_add net wall) s in
  let s' := exec (apply_add net wall) s in
  let c := controller s in
  (out = Applied → blocked_nets (controller s') !! net = Some Manual ∧ net ∈ drops (emaps s')) ∧
  (out ≠ Applied → emaps s' = emaps s ∧
     ∀ n, is_Some (blocked_nets (controller s') !! n) ↔ is_Some (blocked_nets c !! n)) ∧
  (∀ reason, out = Rejected reason →
     match reason with
     | XRejDisarmed => disarmed s = true
     | XRejOwnPrefix => overlaps_own_prefix net c = true
     | XRejAtCapacity => False
     end).
Proof.
  intros out s' c. subst out s' c.
  unfold apply_add. rewrite exec_bind, eval_bind.
  change (exec (gets _) s) with s. change (eval (gets ?f) s) with (f s). cbv beta zeta.
  rewrite exec_bind, eval_bind.
  change (eval (on_controller (manual_block net)) s) with (eval (manual_block net) (controller s)).
  set (s1 := exec (on_controller (manual_block net)) s).
  destruct (xdp_manual_block_cases net (controller s)) as [(e & -> & Hov & Hc)|(-> & Hc)];
    change (exec (manual_block net) (controller s)) with (controller s1) in Hc.
  { rewrite exec_bind, eval_bind. change (eval (gets controller) s1) with (controller s1).
    change (exec (gets controller) s1) with s1. change (exec (mret _) s1) with s1.
    unfold eval, mret, M_ret. cbn. rewrite Hc. change (emaps s1) with (emaps s).
    destruct (overlaps_own_prefix net (controller s)); split_and!; try done.
    intros reason Hre. rewrite (proj2 Hov eq_refl) in Hre. by simplify_eq. }
  rewrite exec_bind, eval_bind. change (exec (mret _) ?x) with x. change (eval (mret ?x) _) with x.
  destruct (xdp_exec_view (Block net) Manual wall (negb (is_blocked net (controller s))) s1)
    as (_ & _ & Hcase). set (o := eval (execute_and_journal _ _ _ _) s1) in *.
  destruct Hcase as [(-> & _ & Hc2 & Hm2)|(Hne & Hdis & Hc2 & Hm2 & _)].
  - rewrite Hc2, Hm2, Hc. split_and!; try done. intros _. simpl.
    rewrite lookup_insert_eq. split; [done|set_solver].
  - split_and!; [by destruct o| |destruct o; try done; intros reason [= <-];
      by destruct (andb_prop _ _ (proj1 Hdis eq_refl)) as [Hd _]].
    intros _. rewrite Hm2. split; [done|]. intros x. rewrite Hc2, Hc.
    unfold is_blocked. case_bool_decide as Hb; simpl.
    + rewrite xdp_insert_is_Some. naive_solver.
    + destruct (decide (x = net)) as [->|].
      * rewrite lookup_delete_eq. split; [by intros []|done].
      * by rewrite lookup_delete_ne, lookup_insert_ne.
Qed.

(** Each XDP retry queue holds at most one operation per source or network. *)
Theorem xdp_queues_coalesce ps n rate pp e j s :
  mreachable ps n rate pp e j s →
  NoDup (mirror_key <$> pending_mirror s) ∧ NoDup (ra_key <$> pending_reapply s).
Proof.
  induction 1 as [|s o _ IH _]; [split; constructor|]. exact (xdp_nodup_mop o s IH).
Qed.
End xdp_manager.

(** ** Examples *)

#[local] Existing Instance RefNet.lib.
#[local] Existing Instance RefNet.order.

(** Maps with scripted failures of the installs. *)
Record MapWriter := { mw_maps : maps; mw_script : list bool }.

#[export] Instance MapWriter_exec : XdpExecutor MapWriter := {|
  xdp_apply a := λ e,
    if is_install a then
      match mw_script e with
      | false :: l => (Err mk_XdpExecError, {| mw_maps := mw_maps e; mw_script := l |})
      | _ :: l => (Ok (), {| mw_maps := apply_maps a (mw_maps e); mw_script := l |})
      | [] => (Ok (), {| mw_maps := apply_maps a (mw_maps e); mw_script := [] |})
      end
    else (Ok (), {| mw_maps := apply_maps a (mw_maps e); mw_script := mw_script e |})
|}.

#[export] Instance MapWriter_spec : XdpSpec MapWriter.
Proof.
  refine {| maps_of := mw_maps |}. intros a [m [|[] l]]; unfold exec, eval; simpl; by destruct a.
Defined.

Definition mw_new (l : list bool) : MapWriter :=
  {| mw_maps := {| rates := ∅; drops := ∅ |}; mw_script := l |}.

Definition xm_start (l : list bool) : XdpManager (E := MapWriter) (J := NoOpXdpJournal) :=
  manager_new (controller_new xdp_ex_own 10 1000 []) (mw_new l) mk_NoOpXdpJournal.

(** Two sources are to be limited and a network blocked; the first write fails. *)
Definition xm_ops : list mop :=
  [XDetect (Opened (xdp_ex_detection xdp_ex_v1 [xdp_ex_a; xdp_ex_b])) 5000;
   XAdd (RefNet.net4 198 51 0 0 16) 6000].

Definition xm_live : XdpManager (E := MapWriter) (J := NoOpXdpJournal) :=
  exec (run_mops xm_ops) (xm_start [false; true]).

Lemma xm_live_reachable :
  mreachable xdp_ex_own 10 1000 [] (mw_new [false; true]) mk_NoOpXdpJournal xm_live.
Proof.
  unfold xm_live, run_mops, xm_ops. rewrite !exec_for_each_cons.
  apply mreach_op; [|done]. apply mreach_op; [|done]. apply mreach_new.
Qed.

(** The failed source is not active, the other one is. *)
Lemma xm_live_active :
  is_rate_limited xdp_ex_a (controller xm_live) = false ∧
  is_rate_limited xdp_ex_b (controller xm_live) = true ∧
  is_blocked (RefNet.net4 198 51 0 0 16) (controller xm_live) = true.
Proof. split_and!; vm_refl. Qed.


Lemma xdp_maps_are_active_set_witness :
  is_Some (rates (emaps xm_live) !! xdp_ex_b) ↔ is_Some (rate_limited (controller xm_live) !! xdp_ex_b).
Proof.
  apply (xdp_maps_are_active_set xdp_ex_own 10 1000 [] (mw_new [false; true]) mk_NoOpXdpJournal xm_live).
  - intros a [m l] Ha. unfold eval. simpl. by rewrite Ha.
  - reflexivity.
  - reflexivity.
  - exact xm_live_reachable.
  - vm_refl.
Defined.

Lemma xdp_disarm_final_witness :
  active_entries (controller (exec (run_mops xm_ops) (exec disarm xm_live))) = [].
Proof.
  apply (xdp_disarm_final xdp_ex_own 10 1000 [] (mw_new [false; true]) mk_NoOpXdpJournal xm_live xm_ops).
  - exact xm_live_reachable.
  - vm_refl.
  - repeat constructor.
Defined.

Lemma xdp_queues_coalesce_witness :
  NoDup (mirror_key <$> pending_mirror xm_live) ∧ NoDup (ra_key <$> pending_reapply xm_live).
Proof.
  apply (xdp_queues_coalesce xdp_ex_own 10 1000 [] (mw_new [false; true]) mk_NoOpXdpJournal).
  exact xm_live_reachable.
Defined.
