(* ===== verification/XdpMirror.v ===== *)
(** * The XDP manager and its journal

    The journal of [XdpManager] as an interface, [XdpJournalSpec]: a healthy
    journal takes every record whose numbers it can hold, and a record has the
    effect of its action on the rows. Against it, the theorem that the rows
    follow the active set of the controller. [StoreXdp] discharges the
    interface for the database. *)
From stdpp Require Import prelude gmap strings.
From S2P Require Import Prelude Net Float Flow XdpControl XdpManager.

Open Scope Z_scope.

Section mirror.
Context `{IpNetLib} `{HashOrder}.

(** What a recorded action leaves for its key. *)
Definition outcome (a : XdpAction) (o : XdpOrigin) : option (XdpAction * XdpOrigin) :=
  if is_install a then Some (a, o) else None.

Definition record_rows (a : XdpAction) (o : XdpOrigin) (f : MirrorKey → option (XdpAction * XdpOrigin))
    (k : MirrorKey) : option (XdpAction * XdpOrigin) :=
  if decide (mirror_key_of a = k) then outcome a o else f k.

(** A signed 64-bit column holds the rate. *)
Definition rate_fits (v : Z) : Prop := 0 ≤ v ≤ 9223372036854775807.
Definition fits (a : XdpAction) : Prop :=
  match a with RateLimit _ p b _ => rate_fits p ∧ rate_fits b | _ => True end.

Class XdpJournalSpec (J : Type) `{!XdpJournal J} := {
  xj_healthy : J → Prop;
  xj_rows : J → MirrorKey → option (XdpAction * XdpOrigin);
  xj_record_spec : ∀ a o wall j, xj_healthy j → fits a →
    let j' := exec (xj_record a o wall) j in
    eval (xj_record a o wall) j = Ok () ∧ xj_healthy j' ∧
    ∀ k, xj_rows j' k = record_rows a o (xj_rows j) k;
}.

(** The active entry of a key. *)
Definition active_of (c : XdpController) (k : MirrorKey) : option (XdpAction * XdpOrigin) :=
  match k with
  | KSrc src => (λ e, (RateLimit src (pps e) (burst e) (victim e), origin e)) <$> rate_limited c !! src
  | KNet net => (λ o, (Block net, o)) <$> blocked_nets c !! net
  end.

Context {E J : Type} `{!XdpExecutor E} `{!XdpSpec E} `{!XdpJournal J} `{!XdpJournalSpec J}.

#[local] Abbreviation XdpManager := (XdpManager (E := E) (J := J)).

(** Removals from the maps are answered without an error, and any write is. *)
Definition removals_answered : Prop :=
  ∀ a (e : E), is_install a = false → is_ok (eval (xdp_apply a) e) = true.
Definition writes_ok : Prop := ∀ a (e : E), is_ok (eval (xdp_apply a) e) = true.

(** ** Agreement of the journal with the controller *)

(** The same keys, and the same entries when [strict]. *)
Definition agree (strict : Prop) (row entry : option (XdpAction * XdpOrigin)) : Prop :=
  (is_Some row ↔ is_Some entry) ∧ (strict → row = entry).

Lemma agree_refl strict x y : x = y → agree strict x y.
Proof. by intros ->. Qed.

(** The manager with a journal that answers, nothing queued for it. *)
Definition live (s : XdpManager) : Prop :=
  disarmed s = false ∧ xj_healthy (journal s) ∧ pending_mirror s = [] ∧
  rate_fits (default_rate_pps (controller s)) ∧ minv False s.

Definition row_of (s : XdpManager) : MirrorKey → option (XdpAction * XdpOrigin) := xj_rows (journal s).

Definition mirrored (s : XdpManager) : Prop :=
  live s ∧ ∀ k, agree writes_ok (row_of s k) (active_of (controller s) k).

(** What executing an action does to the mirror and to the controller. *)
Lemma exec_mirror a o wall fresh (s : XdpManager) :
  disarmed s = false → xj_healthy (journal s) → pending_mirror s = [] → fits a →
  let s' := exec (execute_and_journal a o wall fresh) s in
  disarmed s' = false ∧ xj_healthy (journal s') ∧ pending_mirror s' = [] ∧
  ((controller s' = controller s ∧ ∀ k, row_of s' k = record_rows a o (row_of s) k) ∨
   (controller s' = (if fresh then exec (rollback a) (controller s) else controller s) ∧
    (∀ k, row_of s' k = row_of s k) ∧ ¬ writes_ok ∧ (removals_answered → is_install a = true))).
Proof.
  intros Hd Hj Hp Hf s'. subst s'.
  unfold execute_and_journal, on_executor, on_controller, on_journal, row_of.
  assert (removals_answered → is_install a = false → is_ok (eval (xdp_apply a) (executor s)) = true) as Hrm
    by auto.
  assert (writes_ok → is_ok (eval (xdp_apply a) (executor s)) = true) as Hw by auto.
  pose proof (xj_record_spec a o wall (journal s) Hj Hf) as (Hok & Hj' & Hrec).
  unfold eval, exec in Hrm, Hw, Hok, Hj', Hrec. msimp. rewrite Hd. cbn.
  destruct (xdp_apply a (executor s)) as [[] e']; msimp.
  - destruct (xj_record a o wall (journal s)) as [r j']; cbn in *. subst r. cbn.
    split_and!; [done..|]. by left.
  - assert (removals_answered → is_install a = true) as Hrm'.
    { intros Hrem. destruct (is_install a); [done|]. by apply Hrm. }
    destruct fresh; msimp; (split_and!; [done..|]); right; (split_and!; [done..| |done]);
      by intros Hbad%Hw.
Qed.

(** ** Detections *)

(** The fresh rate limits of [L] are in the controller and not in the rows. *)
Definition mirror_owed (rate : Z) (t : IpAddr) (L : list IpAddr) (s : XdpManager) : Prop :=
  disarmed s = false ∧ xj_healthy (journal s) ∧ pending_mirror s = [] ∧ NoDup L ∧
  ∀ k, match k with
       | KSrc src =>
           if decide (src ∈ L) then
             row_of s k = None ∧ active_of (controller s) k = Some (RateLimit src rate rate (Some t), Auto)
           else agree writes_ok (row_of s k) (active_of (controller s) k)
       | KNet _ => agree writes_ok (row_of s k) (active_of (controller s) k)
       end.

Lemma active_rollback a c k :
  is_install a = true →
  active_of (exec (rollback a) c) k = if decide (mirror_key_of a = k) then None else active_of c k.
Proof.
  intros Hi. destruct a as [src p b v|net|net|src]; try done; destruct k as [src'|net'];
    cbn [mirror_key_of]; rewrite ?decide_False by done; unfold exec; cbn; try done.
  - destruct (decide (src = src')) as [->|Hne].
    + by rewrite decide_True, lookup_delete_eq.
    + rewrite decide_False by congruence. by rewrite lookup_delete_ne.
  - destruct (decide (net = net')) as [->|Hne].
    + by rewrite decide_True, lookup_delete_eq.
    + rewrite decide_False by congruence. by rewrite lookup_delete_ne.
Qed.

Lemma mirror_owed_loop rate t L wall (s : XdpManager) :
  rate_fits rate → mirror_owed rate t L s →
  mirror_owed rate t [] (exec (for_each ((λ src, RateLimit src rate rate (Some t)) <$> L)
    (λ a, execute_and_journal a Auto wall true;; mret ())) s).
Proof.
  intros Hr. revert s. induction L as [|src L IH]; intros s (Hd & Hj & Hp & Hnd & Hk); [done|].
  rewrite fmap_cons, exec_for_each_cons, exec_bind. change (exec (mret ()) ?x) with x. apply IH.
  apply NoDup_cons in Hnd as [Hni Hnd].
  destruct (exec_mirror (RateLimit src rate rate (Some t)) Auto wall true s Hd Hj Hp)
    as (Hd' & Hj' & Hp' & Hcase); [done|].
  set (s' := exec (execute_and_journal _ _ _ _) s) in *.
  split_and!; [done..|]. intros k. specialize (Hk k).
  destruct Hcase as [[Hc Hrow]|(Hc & Hrow & Hnw & _)]; rewrite Hc, Hrow; clear Hc Hrow; unfold record_rows.
  - destruct k as [x|net]; [|done]. cbn [mirror_key_of]. revert Hk. rewrite decide_elem_of_cons.
    destruct (decide (x = src)) as [->|Hne].
    + intros [_ Ha]. rewrite decide_False, decide_True by done. by apply agree_refl.
    + rewrite (decide_False (P := KSrc src = KSrc x)) by congruence. done.
  - rewrite active_rollback by done. cbn [mirror_key_of]. destruct k as [x|net]; [|by rewrite decide_False].
    revert Hk. rewrite decide_elem_of_cons. destruct (decide (x = src)) as [->|Hne].
    + intros [Hn _]. rewrite decide_False, decide_True by done. by apply agree_refl.
    + rewrite (decide_False (P := KSrc src = KSrc x)) by congruence. done.
Qed.

Lemma mirror_owed_detection d (s : XdpManager) :
  mirrored s →
  ∃ new, eval (handle_detection d) (controller s)
    = (λ src, RateLimit src (default_rate_pps (controller s)) (default_rate_pps (controller s))
                (Some (d_target d))) <$> new ∧
    mirror_owed (default_rate_pps (controller s)) (d_target d) new
      (exec (on_controller (handle_detection d)) s).
Proof.
  intros [(Hd & Hj & Hp & Hf & _) Ha]. set (s1 := exec (on_controller (handle_detection d)) s).
  assert (controller s1 = exec (handle_detection d) (controller s)) as Hc by done.
  assert (∀ new, NoDup new →
    (∀ k, match k with
          | KSrc src => if decide (src ∈ new) then rate_limited (controller s) !! src = None ∧
              active_of (controller s1) k = Some (RateLimit src (default_rate_pps (controller s))
                (default_rate_pps (controller s)) (Some (d_target d)), Auto)
            else active_of (controller s1) k = active_of (controller s) k
          | KNet _ => active_of (controller s1) k = active_of (controller s) k end) →
    mirror_owed (default_rate_pps (controller s)) (d_target d) new s1) as Hintro.
  { intros new Hnd Hk. split_and!; [done..|]. intros k. specialize (Hk k). specialize (Ha k).
    change (row_of s1 k) with (row_of s k). destruct k as [src|net]; [|by rewrite Hk].
    case_decide; [|by rewrite Hk]. destruct Hk as [Hn Hs]. split; [|done].
    destruct Ha as [Ha _]. cbn [active_of] in Ha. rewrite Hn in Ha. apply eq_None_not_Some.
    rewrite Ha. by intros []. }
  revert Hintro. rewrite Hc. unfold eval, exec, handle_detection.
  destruct (any_contains (protected_prefixes (controller s)) (d_target d)).
  { intros Hi. exists []. split; [done|]. apply Hi; [constructor|]. intros []; by cbn. }
  destruct (any_contains (prefixes (controller s)) (d_target d)); cbn [negb].
  2: { intros Hi. exists []. split; [done|]. apply Hi; [constructor|]. intros []; by cbn. }
  intros Hi. destruct (xdp_limit_sources_spec (d_target d) (d_top_sources d) (controller s)) as (new & Hl & Hev).
  exists new. split; [exact Hev|]. destruct Hl as (_ & Hb & Hnd & Hn & Hr & _). apply Hi; [done|].
  unfold exec in Hb, Hr. intros [src|net]; cbn [active_of]; [|by rewrite Hb].
  rewrite Hr. case_decide; [|done]. split; [by apply Hn|done].
Qed.

(** The rate limits of [gone] are not in the controller any more. *)
Lemma mirror_clears gone wall (s : XdpManager) :
  removals_answered → disarmed s = false → xj_healthy (journal s) → pending_mirror s = [] →
  let s' := exec (for_each (ClearRate <$> gone) (λ a, execute_and_journal a Auto wall true;; mret ())) s in
  disarmed s' = false ∧ xj_healthy (journal s') ∧ pending_mirror s' = [] ∧ controller s' = controller s ∧
  ∀ k, row_of s' k = match k with
                     | KSrc src => if decide (src ∈ gone) then None else row_of s k
                     | KNet _ => row_of s k
                     end.
Proof.
  intros Hrm. revert s. induction gone as [|src gone IH]; intros s Hd Hj Hp s'; subst s'.
  { split_and!; [done..|]. by intros []. }
  rewrite fmap_cons, exec_for_each_cons, exec_bind. change (exec (mret ()) ?x) with x.
  destruct (exec_mirror (ClearRate src) Auto wall true s Hd Hj Hp I) as (Hd1 & Hj1 & Hp1 & Hcase).
  set (s1 := exec (execute_and_journal _ _ _ _) s) in *.
  destruct Hcase as [[Hc1 Hrow]|(_ & _ & _ & Hbad)]; [|by specialize (Hbad Hrm)].
  destruct (IH s1 Hd1 Hj1 Hp1) as (? & ? & ? & Hc & Hk). split_and!; [done..|congruence|].
  intros k. rewrite Hk, Hrow. unfold record_rows. cbn [mirror_key_of outcome is_install].
  destruct k as [x|net]; [|by rewrite decide_False]. rewrite decide_elem_of_cons.
  destruct (decide (x = src)) as [->|Hne].
  - rewrite (decide_True (P := KSrc src = KSrc src)) by done. by case_decide.
  - by rewrite (decide_False (P := KSrc src = KSrc x)) by congruence.
Qed.

Lemma rate_same {A} (m : M XdpManager A) rate :
  (∀ s, controller (exec m s) = controller s) →
  preserves (λ s, default_rate_pps (controller s) = rate) m.
Proof. intros Hm s Hs. by rewrite Hm. Qed.

Lemma rate_controller {A} (m : M XdpController A) rate :
  (∀ c, static (exec m c) = static c) →
  preserves (λ s : XdpManager, default_rate_pps (controller s) = rate) (on_controller m).
Proof.
  intros Hm s Hs. cbn. specialize (Hm (controller s)). unfold static in Hm. by simplify_eq.
Qed.

Lemma rate_bind {A B} (m : M XdpManager A) (f : A → M XdpManager B) rate :
  preserves (λ s, default_rate_pps (controller s) = rate) m →
  (∀ a, preserves (λ s, default_rate_pps (controller s) = rate) (f a)) →
  preserves (λ s, default_rate_pps (controller s) = rate) (m ≫= f).
Proof. intros Hm Hf. eapply triple_bind; [exact Hm|exact Hf]. Qed.

Ltac rate_tac := repeat first
  [ apply rate_bind; [|intros ?]
  | apply (triple_for_each (λ s : XdpManager, default_rate_pps (controller s) = _)); intros ? _
  | progress case_match | by apply rate_same ].

Lemma static_rollback a c : static (exec (rollback a) c) = static c.
Proof. by destruct a as [? ? ? []|?|?|?]. Qed.

Lemma rate_execute a o wall fresh rate :
  preserves (λ s, default_rate_pps (controller s) = rate) (execute_and_journal a o wall fresh).
Proof.
  unfold execute_and_journal. rate_tac; apply rate_controller, static_rollback.
Qed.

(** The configuration of the controller does not change. *)
Lemma rate_mop o rate : is_reapply o = false →
  preserves (λ s, default_rate_pps (controller s) = rate) (run_mop o).
Proof.
  destruct o as [ev wall|net wall|net wall|src wall|src p b wall| |rs|]; cbn [run_mop is_reapply];
    intros Hre; try done;
    unfold manager_on_detection, apply_add, apply_remove, apply_clear_rate, apply_rate_limit, tick,
      disarm, disarm_action, retry_pending_mirror, retry_pending_reapply, retry_mirror, retry_reapply;
    rate_tac; try apply rate_execute; apply rate_controller; intros c.
  all: try done; try apply static_rollback.
  all: first [ pose proof (xdp_static_op (OpDetect ev) c) as Hs
             | pose proof (xdp_static_op (OpBlock net) c) as Hs
             | pose proof (xdp_static_op (OpRate src p b) c) as Hs ];
    cbn [run_op] in Hs; by rewrite exec_bind in Hs.
Qed.

(** ** Operator requests *)

(** The part of [live] that concerns the journal. *)
Definition writable (s : XdpManager) : Prop :=
  disarmed s = false ∧ xj_healthy (journal s) ∧ pending_mirror s = [].

Lemma mirror_single a wall fresh c (s1 : XdpManager) :
  removals_answered → fits a → writable s1 →
  (∀ k, agree writes_ok (row_of s1 k) (active_of c k)) →
  (∀ k, active_of (controller s1) k = record_rows a Manual (active_of c) k) →
  (is_install a = true → fresh = bool_decide (active_of c (mirror_key_of a) = None)) →
  let s' := exec (execute_and_journal a Manual wall fresh) s1 in
  writable s' ∧ ∀ k, agree writes_ok (row_of s' k) (active_of (controller s') k).
Proof.
  intros Hrm Hf (Hd & Hj & Hp) Ha Hc Hfr s'. subst s'.
  destruct (exec_mirror a Manual wall fresh s1 Hd Hj Hp Hf) as (Hd' & Hj' & Hp' & Hcase).
  set (s' := exec _ s1) in *. split; [done|]. intros k. specialize (Ha k).
  destruct Hcase as [[-> ->]|(-> & -> & Hnw & Hi)].
  { rewrite Hc. unfold record_rows. case_decide; [by apply agree_refl|done]. }
  specialize (Hi Hrm). specialize (Hfr Hi). subst fresh. case_bool_decide as Hn.
  - rewrite active_rollback by done. rewrite Hc. unfold record_rows.
    case_decide as Hk; [|done]. by rewrite <-Hk, Hn, Hk in Ha.
  - rewrite Hc. unfold record_rows. case_decide as Hk; [|done]. rewrite <-Hk in Ha |- *.
    destruct Ha as [Ha _]. split; [|done]. rewrite Ha. unfold outcome. rewrite Hi.
    split; [by eexists|intros _]. destruct (active_of c (mirror_key_of a)); [by eexists|done].
Qed.

(** The operations of a manager in service, with rates the journal can hold. *)
Definition in_service (o : mop) : Prop :=
  match o with
  | XReapply _ | XDisarm => False
  | XRate _ p b _ => rate_fits p ∧ rate_fits b
  | _ => True
  end.

Definition followed (s : XdpManager) : Prop :=
  writable s ∧ ∀ k, agree writes_ok (row_of s k) (active_of (controller s) k).

Lemma followed_detect ev wall (s : XdpManager) :
  removals_answered → mirrored s → followed (exec (manager_on_detection ev wall) s).
Proof.
  intros Hrm Hm. unfold manager_on_detection. rewrite exec_bind.
  change (eval (on_controller (on_detection ev)) s) with (eval (on_detection ev) (controller s)).
  pose proof Hm as [(Hd & Hj & Hp & Hf & Hinv) Ha].
  assert (∀ d, followed (exec (for_each (eval (handle_detection d) (controller s))
      (λ a, execute_and_journal a Auto wall true;; mret ())) (exec (on_controller (handle_detection d)) s)))
    as Hdet.
  { intros d. destruct (mirror_owed_detection d s Hm) as (new & -> & Ho).
    apply (mirror_owed_loop _ _ _ wall) in Ho as (Hd' & Hj' & Hp' & _ & Hk); [|done].
    split; [done|]. intros k. specialize (Hk k). by destruct k. }
  destruct ev as [d|d|t at_]; [exact (Hdet d)|exact (Hdet d)|]. cbn [on_detection].
  assert (sources_ok (controller s)) as Hok by apply (Hinv t).
  destruct (xdp_handle_cleared_spec t (controller s) Hok) as (gone & Hev & _ & _ & _ & Hb & Hr & _).
  rewrite Hev. set (s1 := exec (on_controller (handle_cleared t)) s).
  destruct (mirror_clears gone wall s1 Hrm Hd Hj Hp) as (Hd' & Hj' & Hp' & Hc & Hk).
  split; [done|]. intros k. rewrite Hk, Hc. change (row_of s1 k) with (row_of s k).
  change (controller s1) with (exec (handle_cleared t) (controller s)). specialize (Ha k).
  destruct k as [src|net]; cbn [active_of] in *; [|by rewrite Hb]. rewrite Hr.
  case_decide; [by apply agree_refl|done].
Qed.

Lemma followed_add net wall (s : XdpManager) :
  removals_answered → mirrored s → followed (exec (apply_add net wall) s).
Proof.
  intros Hrm [(Hd & Hj & Hp & _) Ha]. unfold apply_add. rewrite exec_bind.
  change (exec (gets _) s) with s. change (eval (gets ?f) s) with (f s). cbv beta zeta.
  rewrite exec_bind.
  change (eval (on_controller (manual_block net)) s) with (eval (manual_block net) (controller s)).
  set (s1 := exec (on_controller (manual_block net)) s).
  assert (controller s1 = exec (manual_block net) (controller s)) as Hc by done.
  destruct (xdp_manual_block_cases net (controller s)) as [(e & -> & _ & He)|(-> & He)]; rewrite He in Hc.
  { rewrite exec_bind. split; [done|]. intros k.
    change (agree writes_ok (row_of s k) (active_of (controller s1) k)). by rewrite Hc. }
  rewrite exec_bind. change (exec (mret _) ?x) with x.
  apply (mirror_single (Block net) wall _ (controller s)); try done.
  - intros k. rewrite Hc. destruct k as [src|n]; unfold record_rows; cbn; [done|].
    destruct (decide (net = n)) as [->|Hne].
    + by rewrite decide_True, lookup_insert_eq.
    + rewrite decide_False by congruence. by rewrite lookup_insert_ne.
  - intros _. cbn. unfold is_blocked. destruct (blocked_nets (controller s) !! net); done.
Qed.

Lemma followed_rate src p b wall (s : XdpManager) :
  removals_answered → rate_fits p ∧ rate_fits b → mirrored s → followed (exec (apply_rate_limit src p b wall) s).
Proof.
  intros Hrm Hfit [(Hd & Hj & Hp & _) Ha]. unfold apply_rate_limit. rewrite exec_bind.
  change (exec (gets _) s) with s. change (eval (gets ?f) s) with (f s). cbv beta zeta.
  rewrite exec_bind.
  change (eval (on_controller (manual_rate_limit src p b)) s)
    with (eval (manual_rate_limit src p b) (controller s)).
  set (s1 := exec (on_controller (manual_rate_limit src p b)) s).
  assert (controller s1 = exec (manual_rate_limit src p b) (controller s)) as Hc by done.
  set (en := {| origin := Manual; pps := p; burst := b; victim := None |}).
  assert ((∃ e, eval (manual_rate_limit src p b) (controller s) = Err e ∧ controller s1 = controller s) ∨
    (eval (manual_rate_limit src p b) (controller s) = Ok (RateLimit src p b None) ∧
     controller s1 = set_state (<[src := en]> (rate_limited (controller s)))
       (blocked_nets (controller s)) (by_target (controller s)) (controller s)))
    as [(e & -> & He)|(-> & He)].
  { rewrite Hc. unfold eval, exec, manual_rate_limit. repeat case_match; eauto. }
  { split; [done|]. intros k.
    change (agree writes_ok (row_of s k) (active_of (controller s1) k)). by rewrite He. }
  rewrite exec_bind. change (exec (mret _) ?x) with x.
  apply (mirror_single (RateLimit src p b None) wall _ (controller s)); try done.
  - intros k. rewrite He. destruct k as [x|n]; unfold record_rows; cbn; [|done].
    destruct (decide (src = x)) as [->|Hne].
    + by rewrite decide_True, lookup_insert_eq.
    + rewrite decide_False by congruence. by rewrite lookup_insert_ne.
  - intros _. cbn. unfold is_rate_limited. destruct (rate_limited (controller s) !! src); done.
Qed.

(** A removal: the controller forgets the key of [a]. *)
Lemma followed_removal a wall (s s1 : XdpManager) :
  removals_answered → mirrored s → is_install a = false →
  disarmed s1 = disarmed s → journal s1 = journal s → pending_mirror s1 = pending_mirror s →
  (∀ k, active_of (controller s1) k = record_rows a Manual (active_of (controller s)) k) →
  followed (exec (execute_and_journal a Manual wall false) s1).
Proof.
  intros Hrm [(Hd & Hj & Hp & _) Ha] Hi Hd1 Hj1 Hp1 Hc.
  apply (mirror_single a wall false (controller s)); try done.
  - by destruct a.
  - split_and!; congruence.
  - intros k. unfold row_of. rewrite Hj1. apply Ha.
  - by rewrite Hi.
Qed.

Lemma active_unblock net c k :
  active_of (exec (manual_unblock net) c) k = record_rows (Unblock net) Manual (active_of c) k.
Proof.
  destruct k as [src|n]; [done|]. unfold record_rows. cbn [active_of mirror_key_of outcome is_install].
  change (blocked_nets (exec (manual_unblock net) c)) with (delete net (blocked_nets c)).
  destruct (decide (net = n)) as [->|Hne].
  - by rewrite decide_True, lookup_delete_eq.
  - rewrite decide_False by congruence. by rewrite lookup_delete_ne.
Qed.

Lemma active_clear_rate src c k :
  active_of (exec (manual_clear_rate src) c) k = record_rows (ClearRate src) Manual (active_of c) k.
Proof.
  destruct k as [x|n]; [|done]. unfold record_rows. cbn [active_of mirror_key_of outcome is_install].
  change (rate_limited (exec (manual_clear_rate src) c)) with (delete src (rate_limited c)).
  destruct (decide (src = x)) as [->|Hne].
  - by rewrite decide_True, lookup_delete_eq.
  - rewrite decide_False by congruence. by rewrite lookup_delete_ne.
Qed.

Lemma followed_remove net wall (s : XdpManager) :
  removals_answered → mirrored s → followed (exec (apply_remove net wall) s).
Proof.
  intros Hrm Hm. unfold apply_remove. rewrite exec_bind.
  set (s1 := exec (on_controller (manual_unblock net)) s).
  change (followed (exec (execute_and_journal (Unblock net) Manual wall false;; mret Applied) s1)).
  rewrite exec_bind. change (exec (mret Applied) ?x) with x. eapply followed_removal; try done.
  apply active_unblock.
Qed.

Lemma followed_clear_rate src wall (s : XdpManager) :
  removals_answered → mirrored s → followed (exec (apply_clear_rate src wall) s).
Proof.
  intros Hrm Hm. unfold apply_clear_rate. rewrite exec_bind.
  set (s1 := exec (on_controller (manual_clear_rate src)) s).
  change (followed (exec (execute_and_journal (ClearRate src) Manual wall false;; mret Applied) s1)).
  rewrite exec_bind. change (exec (mret Applied) ?x) with x. eapply followed_removal; try done.
  apply active_clear_rate.
Qed.

Lemma retry_reapply_view (s : XdpManager) :
  let s' := exec retry_pending_reapply s in
  controller s' = controller s ∧ journal s' = journal s ∧ pending_mirror s' = pending_mirror s ∧
  disarmed s' = disarmed s.
Proof.
  intros s'. subst s'. unfold retry_pending_reapply. rewrite exec_bind.
  change (eval (gets pending_reapply) s) with (pending_reapply s).
  destruct (pending_reapply s) as [|op ops] eqn:Hp; [done|]. rewrite exec_bind.
  apply (triple_for_each (λ s', controller s' = controller s ∧ journal s' = journal s ∧
    pending_mirror s' = pending_mirror s ∧ disarmed s' = disarmed s)); [|done].
  intros x _ s' Hs'. unfold retry_reapply, on_executor. msimp.
  destruct (current _ _); [|done]. msimp. by destruct (xdp_apply _ _) as [[] ?].
Qed.

Lemma followed_tick (s : XdpManager) : mirrored s → followed (exec tick s).
Proof.
  intros [(Hd & Hj & Hp & _) Ha]. unfold tick, retry_pending_mirror. rewrite !exec_bind.
  change (exec (gets _) s) with s. change (eval (gets pending_mirror) s) with (pending_mirror s).
  rewrite Hp. change (exec (mret ()) s) with s.
  destruct (retry_reapply_view s) as (Hc & Hj' & Hp' & Hd').
  split; [split_and!; congruence|]. intros k. unfold row_of. rewrite Hc, Hj'. apply Ha.
Qed.

(** The rows follow the controller through every operation in service. *)
Lemma xdp_mirrored_mop o : removals_answered → in_service o → preserves mirrored (run_mop o).
Proof.
  intros Hrm Ho s Hm. assert (followed (exec (run_mop o) s)) as [(? & ? & ?) Ha].
  { destruct o as [ev wall|net wall|net wall|src wall|src p b wall| |rs|]; cbn [run_mop];
      rewrite ?exec_bind; change (exec (mret ()) ?x) with x.
    - by apply followed_detect.
    - by apply followed_add.
    - by apply followed_remove.
    - by apply followed_clear_rate.
    - by apply followed_rate.
    - by apply followed_tick.
    - done.
    - done. }
  destruct Hm as [(_ & _ & _ & Hf & Hinv) _]. split; [split_and!; try done|done].
  - rewrite (rate_mop o (default_rate_pps (controller s))); [done| |done]. by destruct o.
  - apply minv_xdp_mop; [by destruct o|done].
Qed.

Lemma mirrored_mops os : removals_answered → Forall in_service os → preserves mirrored (run_mops os).
Proof.
  intros Hrm Hos. rewrite Forall_forall in Hos. apply (triple_for_each mirrored).
  intros o Ho. by apply xdp_mirrored_mop, Hos.
Qed.
End mirror.
