(* ===== verification/Bytes.v ===== *)
(** * Byte buffers and computations that can panic

    The wire codecs of the source read and write byte buffers. Indexing and
    slicing out of range, and [expect] on a failed conversion, panic; a [while]
    loop may in principle not end. Such a computation has three outcomes: a
    value, an error of the source's [Result], or [Panic], which also stands
    for an exhausted loop bound. The codecs' theorems show that [Panic] is not
    reached. *)
From stdpp Require Import prelude gmap sorting.
From S2P Require Import Prelude.

Open Scope Z_scope.

Inductive rust (E A : Type) : Type :=
| Ret (a : A)
| Fail_ (e : E)
| Panic.
#[global] Arguments Ret {E A} a.
#[global] Arguments Fail_ {E A} e.
#[global] Arguments Panic {E A}.

#[export] Instance rust_ret {E} : MRet (rust E) := λ A, Ret.
#[export] Instance rust_bind {E} : MBind (rust E) := λ A B f m,
  match m with Ret a => f a | Fail_ e => Fail_ e | Panic => Panic end.

(** The computation returns normally, with a value or an error. *)
Definition returns {E A} (m : rust E A) : Prop := m ≠ Panic.

(** [l[i]] *)
Definition index {E} (l : list Z) (i : nat) : rust E Z :=
  match l !! i with Some b => Ret b | None => Panic end.

(** [&l[a..b]] *)
Definition slice {E} (l : list Z) (a b : nat) : rust E (list Z) :=
  if (a <=? b)%nat && (b <=? length l)%nat then Ret (take (b - a) (drop a l)) else Panic.

(** [u8::try_from(n).expect(..)] and [u16::try_from(n).expect(..)]; a value
    known to fit is written as itself. *)
Definition u8_expect {E} (n : nat) : rust E Z :=
  if Z.of_nat n <=? u8_max then Ret (Z.of_nat n) else Panic.
Definition u16_expect {E} (n : nat) : rust E Z :=
  if Z.of_nat n <=? u16_max then Ret (Z.of_nat n) else Panic.

(** [u16::from_be_bytes([l[i], l[i + 1]])] and [u32::from_be_bytes] of four. *)
Definition index_u16 {E} (l : list Z) (i : nat) : rust E Z :=
  b0 ← index l i; b1 ← index l (i + 1); Ret (be_value [b0; b1]).
Definition index_u32 {E} (l : list Z) (i : nat) : rust E Z :=
  b0 ← index l i; b1 ← index l (i + 1); b2 ← index l (i + 2); b3 ← index l (i + 3);
  Ret (be_value [b0; b1; b2; b3]).

Section lemmas.
Context {E : Type}.

Lemma index_lt (l : list Z) i : (i < length l)%nat → ∃ b, index (E := E) l i = Ret b.
Proof. intros Hi. unfold index. destruct (lookup_lt_is_Some_2 l i Hi) as [b ->]. eauto. Qed.

Lemma slice_ok (l : list Z) a b :
  (a ≤ b)%nat → (b ≤ length l)%nat →
  slice (E := E) l a b = Ret (take (b - a) (drop a l)).
Proof. intros. unfold slice. by rewrite !(proj2 (Nat.leb_le _ _)) by done. Qed.

Lemma length_slice (l s : list Z) a b :
  slice (E := E) l a b = Ret s → length s = (b - a)%nat.
Proof.
  unfold slice. destruct (a <=? b)%nat eqn:Ha; [|done]. destruct (b <=? length l)%nat eqn:Hb; [|done].
  intros [= <-]. apply Nat.leb_le in Ha, Hb. rewrite length_take, length_drop. lia.
Qed.

Lemma index_u16_lt (l : list Z) i : (i + 1 < length l)%nat → ∃ b, index_u16 (E := E) l i = Ret b.
Proof.
  intros Hi. unfold index_u16. destruct (index_lt l i) as [b0 ->]; [lia|].
  destruct (index_lt l (i + 1)) as [b1 ->]; [lia|]. simpl. eauto.
Qed.

Lemma index_u32_lt (l : list Z) i : (i + 3 < length l)%nat → ∃ b, index_u32 (E := E) l i = Ret b.
Proof.
  intros Hi. unfold index_u32. destruct (index_lt l i) as [b0 ->]; [lia|].
  destruct (index_lt l (i + 1)) as [b1 ->]; [lia|]. destruct (index_lt l (i + 2)) as [b2 ->]; [lia|].
  destruct (index_lt l (i + 3)) as [b3 ->]; [lia|]. simpl. eauto.
Qed.

Lemma returns_bind {A B} (m : rust E A) (f : A → rust E B) :
  returns m → (∀ a, m = Ret a → returns (f a)) → returns (m ≫= f).
Proof. destruct m; simpl; unfold returns; auto; congruence. Qed.

(** The byte strings of fixed width, written out. *)
Lemma be_bytes_2 z : be_bytes 2 z = [(z / 256) mod 256; z mod 256].
Proof. unfold be_bytes. simpl. by rewrite Z.div_1_r. Qed.

Lemma be_bytes_4 z :
  be_bytes 4 z = [(z / 16777216) mod 256; (z / 65536) mod 256; (z / 256) mod 256; z mod 256].
Proof. unfold be_bytes. simpl. by rewrite Z.div_1_r. Qed.
End lemmas.

(** Runs a reader on a buffer whose leading bytes are known. *)
Ltac read_step :=
  first [ progress cbn [mbind rust_bind mret rust_ret]
        | match goal with
          | |- context [@index ?E ?l ?i] =>
              let H := fresh in
              destruct (index_lt (E := E) l i) as [? H]; [lia|]; rewrite H; clear H
          | |- context [@index_u16 ?E ?l ?i] =>
              let H := fresh in
              destruct (index_u16_lt (E := E) l i) as [? H]; [lia|]; rewrite H; clear H
          | |- context [@index_u32 ?E ?l ?i] =>
              let H := fresh in
              destruct (index_u32_lt (E := E) l i) as [? H]; [lia|]; rewrite H; clear H
          end ].
