(* ===== verification/BgpMessage.v ===== *)
(** * BGP message framing and control messages

    Model of [crates/blackwall-bgp/src/message.rs]: the header, OPEN,
    KEEPALIVE and NOTIFICATION, encoded and decoded. A byte is a [Z] between
    0 and 255; error texts are inductive reasons. *)
From stdpp Require Import prelude gmap sorting.
From S2P Require Import Prelude Bytes.

Open Scope Z_scope.

(** [BgpError::Decode], by reason. *)
Inductive DecodeError : Type :=
| NotificationTooShort | BufferTooShort | UnknownType | OpenTooShort | OptLenExceeds
| TruncatedParamHeader | TruncatedParamValue | TruncatedCapHeader | TruncatedCapValue
| ShortHeader | BadMarker | BadLength.

Record NotificationMsg := { code : Z; subcode : Z; data : list Z }.

Record OpenMsg := {
  asn : Z;
  hold_time : Z;
  router_id : Z;
  ipv4_unicast : bool;
  ipv6_unicast : bool;
  flowspec_v4 : bool;
  flowspec_v6 : bool;
}.

Inductive BgpMessage : Type :=
| Open (o : OpenMsg)
| Keepalive
| Update
| Notification (n : NotificationMsg).

Inductive MsgType : Type := MtOpen | MtUpdate | MtNotification | MtKeepalive.

Definition msg_code (t : MsgType) : Z :=
  match t with MtOpen => 1 | MtUpdate => 2 | MtNotification => 3 | MtKeepalive => 4 end.

Definition from_code (c : Z) : option MsgType :=
  if c =? 1 then Some MtOpen
  else if c =? 2 then Some MtUpdate
  else if c =? 3 then Some MtNotification
  else if c =? 4 then Some MtKeepalive
  else None.

Definition MARKER : list Z := replicate 16 255.
Definition HEADER_LEN : nat := 19.
Definition AS_TRANS : Z := 23456.
Definition CAP_4OCTET_AS : Z := 65.
Definition CAP_MP_BGP : Z := 1.

(** ** Encoding *)

Definition encode_header (msg_type : Z) (body : list Z) : rust DecodeError (list Z) :=
  let total := (HEADER_LEN + length body)%nat in
  len ← u16_expect total;
  Ret (MARKER ++ be_bytes 2 len ++ [msg_type] ++ body).

Definition encode_keepalive : rust DecodeError (list Z) :=
  encode_header (msg_code MtKeepalive) [].

Definition encode_notification (n : NotificationMsg) : rust DecodeError (list Z) :=
  encode_header (msg_code MtNotification) (code n :: subcode n :: data n).

(** An MP-BGP capability for one address family. *)
Definition mp_cap (enabled : bool) (afi safi : Z) : list Z :=
  if enabled then [CAP_MP_BGP; 4] ++ be_bytes 2 afi ++ [0; safi] else [].

Definition open_caps (o : OpenMsg) : list Z :=
  [CAP_4OCTET_AS; 4] ++ be_bytes 4 (asn o) ++
  mp_cap (ipv4_unicast o) 1 1 ++ mp_cap (ipv6_unicast o) 2 1 ++
  mp_cap (flowspec_v4 o) 1 133 ++ mp_cap (flowspec_v6 o) 2 133.

Definition encode_open (o : OpenMsg) : rust DecodeError (list Z) :=
  let caps := open_caps o in
  param_len ← u8_expect (length caps);
  let opt_params := [2; param_len] ++ caps in
  opt_param_len ← u8_expect (length opt_params);
  let my_as := if asn o <=? u16_max then asn o else AS_TRANS in
  encode_header (msg_code MtOpen)
    ([4] ++ be_bytes 2 my_as ++ be_bytes 2 (hold_time o) ++ be_bytes 4 (router_id o) ++
     [opt_param_len] ++ opt_params).

(** ** Decoding *)

Definition parse_header (bytes : list Z) : rust DecodeError (Z * nat) :=
  if (length bytes <? HEADER_LEN)%nat then Fail_ ShortHeader
  else
    m ← slice bytes 0 16;
    if negb (bool_decide (m = MARKER)) then Fail_ BadMarker
    else
      t ← index_u16 bytes 16;
      let total := Z.to_nat t in
      if negb ((HEADER_LEN <=? total)%nat && (total <=? 4096)%nat) then Fail_ BadLength
      else c ← index bytes 18; Ret (c, total).

Definition decode_notification (body : list Z) : rust DecodeError NotificationMsg :=
  if (length body <? 2)%nat then Fail_ NotificationTooShort
  else
    c ← index body 0; s ← index body 1; d ← slice body 2 (length body);
    Ret {| code := c; subcode := s; data := d |}.

(** What the walk over the optional parameters has found so far. *)
Record Caps := {
  asn_4octet : option Z;
  c_ipv4_unicast : bool;
  c_ipv6_unicast : bool;
  c_flowspec_v4 : bool;
  c_flowspec_v6 : bool;
}.

Definition no_caps : Caps := {|
  asn_4octet := None; c_ipv4_unicast := false; c_ipv6_unicast := false;
  c_flowspec_v4 := false; c_flowspec_v6 := false |}.

(** The inner [match] on a capability. *)
Definition take_cap (cap_code : Z) (cap_len : nat) (cap_value : list Z) (k : Caps)
    : rust DecodeError Caps :=
  if (cap_code =? CAP_4OCTET_AS) && (cap_len =? 4)%nat then
    a ← index_u32 cap_value 0;
    Ret {| asn_4octet := Some a; c_ipv4_unicast := c_ipv4_unicast k;
           c_ipv6_unicast := c_ipv6_unicast k; c_flowspec_v4 := c_flowspec_v4 k;
           c_flowspec_v6 := c_flowspec_v6 k |}
  else if (cap_code =? CAP_MP_BGP) && (cap_len =? 4)%nat then
    afi ← index_u16 cap_value 0;
    safi ← index cap_value 3;
    Ret {| asn_4octet := asn_4octet k;
           c_ipv4_unicast := c_ipv4_unicast k || ((afi =? 1) && (safi =? 1));
           c_ipv6_unicast := c_ipv6_unicast k || ((afi =? 2) && (safi =? 1));
           c_flowspec_v4 := c_flowspec_v4 k || ((afi =? 1) && (safi =? 133));
           c_flowspec_v6 := c_flowspec_v6 k || ((afi =? 2) && (safi =? 133)) |}
  else Ret k.

(** The inner [while]: the capabilities of one parameter, from offset [j]. *)
Fixpoint walk_caps (fuel : nat) (region : list Z) (j : nat) (k : Caps) : rust DecodeError Caps :=
  match fuel with
  | O => Panic
  | S fuel' =>
      if negb (j <? length region)%nat then Ret k
      else if (length region <? j + 2)%nat then Fail_ TruncatedCapHeader
      else
        cap_code ← index region j;
        cap_len ← index region (j + 1);
        let value_end := (j + 2 + Z.to_nat cap_len)%nat in
        if (length region <? value_end)%nat then Fail_ TruncatedCapValue
        else
          cap_value ← slice region (j + 2) value_end;
          k' ← take_cap cap_code (Z.to_nat cap_len) cap_value k;
          walk_caps fuel' region value_end k'
  end.

(** The outer [while]: the optional parameters, from offset [i]. *)
Fixpoint walk_params (fuel : nat) (region : list Z) (i : nat) (k : Caps) : rust DecodeError Caps :=
  match fuel with
  | O => Panic
  | S fuel' =>
      if negb (i <? length region)%nat then Ret k
      else if (length region <? i + 2)%nat then Fail_ TruncatedParamHeader
      else
        param_type ← index region i;
        param_len ← index region (i + 1);
        let value_end := (i + 2 + Z.to_nat param_len)%nat in
        if (length region <? value_end)%nat then Fail_ TruncatedParamValue
        else
          k' ← (if param_type =? 2 then
                  cap_region ← slice region (i + 2) value_end;
                  walk_caps (S (length cap_region)) cap_region 0 k
                else Ret k);
          walk_params fuel' region value_end k'
  end.

Definition decode_open (body : list Z) : rust DecodeError OpenMsg :=
  if (length body <? 10)%nat then Fail_ OpenTooShort
  else
    _version ← index body 0;
    my_as ← index_u16 body 1;
    hold ← index_u16 body 3;
    rid ← index_u32 body 5;
    opt_param_len ← index body 9;
    let opt_end := (10 + Z.to_nat opt_param_len)%nat in
    if (length body <? opt_end)%nat then Fail_ OptLenExceeds
    else
      opt_region ← slice body 10 opt_end;
      k ← walk_params (S (length opt_region)) opt_region 0 no_caps;
      Ret {| asn := default my_as (asn_4octet k); hold_time := hold; router_id := rid;
             ipv4_unicast := c_ipv4_unicast k; ipv6_unicast := c_ipv6_unicast k;
             flowspec_v4 := c_flowspec_v4 k; flowspec_v6 := c_flowspec_v6 k |}.

Definition decode_message (bytes : list Z) : rust DecodeError (BgpMessage * nat) :=
  h ← parse_header bytes;
  let '(msg_type, total_len) := h in
  if (length bytes <? total_len)%nat then Fail_ BufferTooShort
  else
    body ← slice bytes HEADER_LEN total_len;
    msg ← match from_code msg_type with
          | Some MtOpen => o ← decode_open body; Ret (Open o)
          | Some MtNotification => n ← decode_notification body; Ret (Notification n)
          | Some MtKeepalive => Ret Keepalive
          | Some MtUpdate => Ret Update
          | None => Fail_ UnknownType
          end;
    Ret (msg, total_len).

(** ** Decoding never panics *)

Lemma take_cap_returns c n v k : length v = n → returns (take_cap c n v k).
Proof.
  intros Hn. unfold take_cap, returns. destruct (c =? CAP_4OCTET_AS); cbn [andb].
  - destruct (n =? 4)%nat eqn:H4; [apply Nat.eqb_eq in H4; by repeat read_step|].
    destruct (c =? CAP_MP_BGP); done.
  - destruct (c =? CAP_MP_BGP); [|done]. cbn [andb].
    destruct (n =? 4)%nat eqn:H4; [|done]. apply Nat.eqb_eq in H4. by repeat read_step.
Qed.

Lemma walk_caps_returns fuel region j k :
  (j ≤ length region < j + fuel)%nat → returns (walk_caps fuel region j k).
Proof.
  unfold returns. revert j k. induction fuel as [|fuel IH]; intros j k Hf; cbn [walk_caps]; [lia|].
  destruct (Nat.ltb_spec j (length region)); cbn [negb]; [|done].
  destruct (Nat.ltb_spec (length region) (j + 2)); [done|].
  repeat read_step. set (n := Z.to_nat _). destruct (Nat.ltb_spec (length region) (j + 2 + n)); [done|].
  apply returns_bind; [by rewrite slice_ok by lia|]. intros v Hv%length_slice.
  apply returns_bind; [apply take_cap_returns; lia|]. intros k' _. apply IH. lia.
Qed.

Lemma walk_params_returns fuel region i k :
  (i ≤ length region < i + fuel)%nat → returns (walk_params fuel region i k).
Proof.
  unfold returns. revert i k. induction fuel as [|fuel IH]; intros i k Hf; cbn [walk_params]; [lia|].
  destruct (Nat.ltb_spec i (length region)); cbn [negb]; [|done].
  destruct (Nat.ltb_spec (length region) (i + 2)); [done|].
  repeat read_step. set (n := Z.to_nat _). destruct (Nat.ltb_spec (length region) (i + 2 + n)); [done|].
  apply returns_bind; [|intros k' _; apply IH; lia].
  destruct (_ =? 2); [|done]. apply returns_bind; [by rewrite slice_ok by lia|].
  intros v _. apply walk_caps_returns. lia.
Qed.

Lemma decode_open_returns body : returns (decode_open body).
Proof.
  unfold decode_open, returns. destruct (Nat.ltb_spec (length body) 10); [done|].
  repeat read_step. set (n := Z.to_nat _).
  destruct (Nat.ltb_spec (length body) (10 + n)); [done|].
  apply returns_bind; [by rewrite slice_ok by lia|]. intros v _.
  apply returns_bind; [apply walk_params_returns; lia|]. done.
Qed.

Lemma decode_notification_returns body : returns (decode_notification body).
Proof.
  unfold decode_notification, returns. destruct (Nat.ltb_spec (length body) 2); [done|].
  repeat read_step. by rewrite slice_ok by lia.
Qed.

Lemma parse_header_returns bytes :
  returns (parse_header bytes) ∧
  ∀ c n, parse_header bytes = Ret (c, n) → (HEADER_LEN ≤ n ≤ 4096)%nat.
Proof.
  unfold parse_header, returns, HEADER_LEN. destruct (Nat.ltb_spec (length bytes) 19); [done|].
  rewrite slice_ok by lia. cbn [mbind rust_bind]. case_bool_decide; cbn [negb]; [|done].
  repeat read_step. set (n := Z.to_nat _).
  destruct (Nat.leb_spec 19 n), (Nat.leb_spec n 4096); cbn [andb negb]; try done.
  repeat read_step. split; [done|]. intros ? ? [= <- <-]. lia.
Qed.

(** ** Encoding then decoding *)

Definition u16_ok (z : Z) : Prop := 0 ≤ z ≤ u16_max.
Definition u32_ok (z : Z) : Prop := 0 ≤ z ≤ u32_max.

(** The field widths of the source's types; a NOTIFICATION fits one message. *)
Definition msg_wf (m : BgpMessage) : Prop :=
  match m with
  | Open o => u32_ok (asn o) ∧ u16_ok (hold_time o) ∧ u32_ok (router_id o)
  | Keepalive => True
  | Update => False
  | Notification n => (length (data n) ≤ 4075)%nat
  end.

Definition encode_message (m : BgpMessage) : rust DecodeError (list Z) :=
  match m with
  | Open o => encode_open o
  | Keepalive => encode_keepalive
  | Update => Panic
  | Notification n => encode_notification n
  end.

Lemma encode_header_ok t body :
  Z.of_nat (length body) ≤ 65516 →
  encode_header t body
  = Ret (MARKER ++ be_bytes 2 (Z.of_nat (19 + length body)) ++ [t] ++ body).
Proof.
  intros Hl. unfold encode_header, u16_expect, HEADER_LEN.
  by rewrite (proj2 (Z.leb_le _ _)) by (unfold u16_max; lia).
Qed.

(** Framing: the header of an encoded message is parsed back, whatever follows. *)
Lemma decode_framed t body rest :
  (length body ≤ 4077)%nat →
  let bytes := MARKER ++ be_bytes 2 (Z.of_nat (19 + length body)) ++ [t] ++ body in
  decode_message (bytes ++ rest)
  = msg ← match from_code t with
          | Some MtOpen => o ← decode_open body; Ret (Open o)
          | Some MtNotification => n ← decode_notification body; Ret (Notification n)
          | Some MtKeepalive => Ret Keepalive
          | Some MtUpdate => Ret Update
          | None => Fail_ UnknownType
          end;
    Ret (msg, (19 + length body)%nat).
Proof.
  intros Hl bytes. subst bytes. unfold decode_message, parse_header.
  set (n := (19 + length body)%nat).
  assert (be_value (be_bytes 2 (Z.of_nat n)) = Z.of_nat n) as Hv
    by (apply be_value_be_bytes_small; change (256 ^ Z.of_nat 2) with 65536; lia).
  rewrite be_bytes_2 in Hv |- *.
  set (h := (Z.of_nat n / 256) mod 256) in *. set (l := Z.of_nat n mod 256) in *.
  assert (length ((MARKER ++ [h; l] ++ [t] ++ body) ++ rest) = (n + length rest)%nat) as Hlen
    by (rewrite !length_app; simpl; lia).
  rewrite Hlen. rewrite (proj2 (Nat.ltb_ge _ _)) by (unfold HEADER_LEN; lia).
  rewrite slice_ok by lia. cbn [mbind rust_bind]. simpl take.
  rewrite bool_decide_true by done. cbn [negb].
  unfold index_u16, index. simpl lookup. cbn [mbind rust_bind]. rewrite Hv, Nat2Z.id.
  rewrite !(proj2 (Nat.leb_le _ _)) by (unfold HEADER_LEN; lia).
  cbn [andb negb mbind rust_bind].
  rewrite (proj2 (Nat.ltb_ge _ _)) by lia.
  rewrite slice_ok by (unfold HEADER_LEN; lia). cbn [mbind rust_bind].
  assert (take (n - HEADER_LEN) (drop HEADER_LEN ((MARKER ++ [h; l] ++ [t] ++ body) ++ rest)) = body)
    as ->; [|done].
  simpl drop. replace (n - HEADER_LEN)%nat with (length body) by (unfold HEADER_LEN; lia).
  apply take_app_length.
Qed.

Lemma decode_notification_roundtrip n :
  decode_notification (code n :: subcode n :: data n) = Ret n.
Proof.
  unfold decode_notification. cbn [length]. rewrite (proj2 (Nat.ltb_ge _ _)) by lia.
  unfold index. simpl lookup. cbn [mbind rust_bind]. rewrite slice_ok by (simpl; lia).
  simpl. rewrite Nat.sub_0_r, firstn_all. by destruct n.
Qed.

(** The capabilities of an OPEN are read back. *)
Definition caps_of (o : OpenMsg) : Caps := {|
  asn_4octet := Some (asn o); c_ipv4_unicast := ipv4_unicast o;
  c_ipv6_unicast := ipv6_unicast o; c_flowspec_v4 := flowspec_v4 o;
  c_flowspec_v6 := flowspec_v6 o |}.

Lemma walk_open_caps o :
  u32_ok (asn o) → walk_caps (S (length (open_caps o))) (open_caps o) 0 no_caps = Ret (caps_of o).
Proof.
  intros Ha. unfold u32_ok, u32_max in Ha. destruct o as [a h r v4 v6 f4 f6]. cbn [asn] in Ha.
  assert (be_value (be_bytes 4 a) = a) as Hv
    by (apply be_value_be_bytes_small; change (256 ^ Z.of_nat 4) with 4294967296; lia).
  unfold open_caps, mp_cap, caps_of. cbn [asn ipv4_unicast ipv6_unicast flowspec_v4 flowspec_v6].
  rewrite be_bytes_4 in Hv |- *. rewrite !be_bytes_2.
  set (b0 := (a / 16777216) mod 256) in *. set (b1 := (a / 65536) mod 256) in *.
  set (b2 := (a / 256) mod 256) in *. set (b3 := a mod 256) in *.
  rewrite <-Hv. clearbody b0 b1 b2 b3. clear. by destruct v4, v6, f4, f6.
Qed.

Lemma length_open_caps o : (length (open_caps o) ≤ 30)%nat.
Proof.
  unfold open_caps, mp_cap. rewrite !length_app, length_be_bytes.
  destruct (ipv4_unicast o), (ipv6_unicast o), (flowspec_v4 o), (flowspec_v6 o);
    rewrite ?length_app, ?length_be_bytes; simpl; lia.
Qed.

Lemma walk_open_params o :
  u32_ok (asn o) →
  let params := [2; Z.of_nat (length (open_caps o))] ++ open_caps o in
  walk_params (S (length params)) params 0 no_caps = Ret (caps_of o).
Proof.
  intros Ha params. pose proof (length_open_caps o) as Hl.
  assert (length params = S (S (length (open_caps o)))) as Hlen by done.
  set (f := length params) at 1. assert (f = S (S (length (open_caps o)))) as Hf by done.
  clearbody f. cbn [walk_params]. rewrite Hlen.
  change (0 <? S (S ?n))%nat with true. change (S (S ?n) <? 0 + 2)%nat with false.
  cbn [negb Nat.add].
  change (index params 0) with (Ret (E := DecodeError) 2).
  change (index params 1) with (Ret (E := DecodeError) (Z.of_nat (length (open_caps o)))).
  cbn [mbind rust_bind]. rewrite Nat2Z.id, Nat.ltb_irrefl, slice_ok by (rewrite ?Hlen; lia).
  cbn [Z.eqb Pos.eqb mbind rust_bind].
  replace (take _ _) with (open_caps o) by (simpl; by rewrite ?Nat.sub_0_r, firstn_all).
  rewrite walk_open_caps by done. cbn [mbind rust_bind].
  rewrite Hf. cbn [walk_params]. by rewrite Hlen, Nat.ltb_irrefl.
Qed.

Lemma encode_open_ok o :
  let n := Z.of_nat (length (open_caps o)) in
  encode_open o = encode_header 1
    ([4] ++ be_bytes 2 (if asn o <=? u16_max then asn o else AS_TRANS) ++
     be_bytes 2 (hold_time o) ++ be_bytes 4 (router_id o) ++
     [n + 2] ++ [2; n] ++ open_caps o).
Proof.
  pose proof (length_open_caps o) as Hl. unfold encode_open, u8_expect.
  rewrite (proj2 (Z.leb_le (Z.of_nat _) _)) by (unfold u8_max; lia). cbn [mbind rust_bind].
  rewrite (proj2 (Z.leb_le (Z.of_nat _) _)) by (unfold u8_max; cbn [app length]; lia).
  cbn [mbind rust_bind]. do 6 f_equal. f_equal. cbn [app length]. lia.
Qed.

Lemma decode_open_roundtrip o :
  msg_wf (Open o) →
  ∃ body, encode_open o = encode_header 1 body ∧ (length body ≤ 42)%nat ∧
    decode_open body = Ret o.
Proof.
  intros (Ha & Hh & Hr). unfold u16_ok, u32_ok, u16_max, u32_max in *.
  pose proof (length_open_caps o) as Hl. eexists. split; [apply encode_open_ok|].
  pose proof (walk_open_params o Ha) as Hw. cbv zeta in Hw.
  set (n := Z.of_nat (length (open_caps o))) in *. set (params := [2; n] ++ open_caps o) in *.
  assert (length params = (2 + length (open_caps o))%nat) as Hlp by done.
  set (my_as := if asn o <=? _ then _ else _).
  assert (be_value (be_bytes 2 (hold_time o)) = hold_time o) as Hvh
    by (apply be_value_be_bytes_small; change (256 ^ Z.of_nat 2) with 65536; lia).
  assert (be_value (be_bytes 4 (router_id o)) = router_id o) as Hvr
    by (apply be_value_be_bytes_small; change (256 ^ Z.of_nat 4) with 4294967296; lia).
  rewrite !be_bytes_2, be_bytes_4 in *. split; [cbn [app length]; lia|].
  unfold decode_open.
  rewrite (proj2 (Nat.ltb_ge _ _)) by (simpl; lia).
  unfold index_u16, index_u32, index. cbn [lookup list_lookup app mbind rust_bind Nat.add].
  replace (Z.to_nat (n + 2)) with (length params) by lia.
  rewrite (proj2 (Nat.ltb_ge _ _)) by (simpl; lia).
  rewrite slice_ok by (simpl; lia). cbn [mbind rust_bind].
  change (drop 10 _) with params.
  replace (take _ params) with params by (symmetry; apply take_ge; lia).
  rewrite Hw, Hvh, Hvr. cbn [mbind rust_bind]. by destruct o.
Qed.

(** The control messages survive the wire: the encoders of OPEN, KEEPALIVE
    and NOTIFICATION do not panic, and a reader that finds the encoded message
    at the front of its stream, whatever follows, decodes the same message and
    advances by exactly its length. For an OPEN that covers 4-octet AS numbers
    and every combination of advertised address families. *)
Theorem bgp_message_roundtrip m rest :
  msg_wf m →
  ∃ bytes, encode_message m = Ret bytes ∧
    decode_message (bytes ++ rest) = Ret (m, length bytes).
Proof.
  intros Hm. destruct m as [o| | |n]; [| |done|]; cbn [encode_message].
  - destruct (decode_open_roundtrip o Hm) as (body & -> & Hl & Hd).
    rewrite encode_header_ok by lia. eexists. split; [done|].
    rewrite decode_framed by lia. cbn [from_code Z.eqb Pos.eqb]. rewrite Hd. cbn.
    by rewrite length_app, length_be_bytes.
  - eexists. split; [by apply encode_header_ok; simpl; lia|].
    rewrite decode_framed by (simpl; lia). done.
  - simpl in Hm. unfold encode_notification. rewrite encode_header_ok by (simpl; lia).
    eexists. split; [done|]. rewrite decode_framed by (simpl; lia).
    cbn [from_code msg_code Z.eqb Pos.eqb]. rewrite decode_notification_roundtrip. cbn.
    by rewrite length_app, length_be_bytes.
Qed.

(** Whatever bytes a peer sends, the decoder neither panics nor loops: it
    returns a message or an error; and a decoded message accounts for between
    19 and 4096 bytes that are present in the buffer, so a stream reader
    always advances and never past the data it has. *)
Theorem bgp_decode_total bytes :
  decode_message bytes ≠ Panic ∧
  ∀ m n, decode_message bytes = Ret (m, n) → (19 ≤ n ≤ 4096)%nat ∧ (n ≤ length bytes)%nat.
Proof.
  destruct (parse_header_returns bytes) as [Hr Hn]. unfold decode_message, HEADER_LEN in *.
  destruct (parse_header bytes) as [[t n]|e|] eqn:Hp; [|done|by destruct Hr].
  cbn [mbind rust_bind]. specialize (Hn t n eq_refl).
  destruct (Nat.ltb_spec (length bytes) n); [done|]. rewrite slice_ok by lia. cbn [mbind rust_bind].
  set (body := take _ _). pose proof (decode_open_returns body) as Ho.
  pose proof (decode_notification_returns body) as Hno. unfold returns in *.
  destruct (from_code t) as [[]|]; cbn [mbind rust_bind]; try done.
  - destruct (decode_open body); cbn; [|done|done]. split; [done|]. intros ? ? [= <- <-]. done.
  - split; [done|]. intros ? ? [= <- <-]. done.
  - destruct (decode_notification body); cbn; [|done|done]. split; [done|]. intros ? ? [= <- <-]. done.
  - split; [done|]. intros ? ? [= <- <-]. done.
Qed.

(** ** Examples *)

Definition ex_open_msg : OpenMsg := {|
  asn := 4200000001; hold_time := 90; router_id := 3405803777; ipv4_unicast := true;
  ipv6_unicast := true; flowspec_v4 := true; flowspec_v6 := false |}.

Lemma bgp_message_roundtrip_witness :
  ∃ bytes, encode_message (Open ex_open_msg) = Ret bytes ∧
    decode_message (bytes ++ [255; 255]) = Ret (Open ex_open_msg, length bytes).
Proof.
  apply (bgp_message_roundtrip (Open ex_open_msg) [255; 255]).
  repeat split; discriminate.
Defined.
