(* ===== verification/BgpUpdate.v ===== *)
(** * BGP UPDATE encoding

    Model of [crates/blackwall-bgp/src/update.rs]: the UPDATE messages that
    announce and withdraw a route. The reference is a receiver written from
    the standards the source names (RFC 4271, 4760, 1997, 8092): it parses an
    UPDATE into the prefixes it withdraws and the routes it announces. The
    theorems show that what the receiver reads is the route that was encoded. *)
From stdpp Require Import prelude gmap strings.
From S2P Require Import Prelude Net Float Executor Bytes BgpMessage.

Open Scope Z_scope.

Definition FLAG_WELL_KNOWN : Z := 64.
Definition FLAG_OPT_TRANS : Z := 192.
Definition FLAG_OPT_NON_TRANS : Z := 128.
Definition FLAG_EXTENDED_LEN : Z := 16.
Definition ATTR_ORIGIN : Z := 1.
Definition ATTR_AS_PATH : Z := 2.
Definition ATTR_NEXT_HOP : Z := 3.
Definition ATTR_COMMUNITIES : Z := 8.
Definition ATTR_MP_REACH_NLRI : Z := 14.
Definition ATTR_MP_UNREACH_NLRI : Z := 15.
Definition ATTR_EXTENDED_COMMUNITIES : Z := 16.
Definition ATTR_LARGE_COMMUNITIES : Z := 32.
Definition AFI_IPV6 : Z := 2.
Definition SAFI_UNICAST : Z := 1.

Section update.
Context `{IpNetLib}.

(** [usize::from(bits.div_ceil(8))] *)
Definition nbytes_of (bits : Z) : nat := Z.to_nat ((bits + 7) / 8).

Definition encode_nlri (p : IpNet) : rust DecodeError (list Z) :=
  let bits := net_prefix_len p in
  let addr_octets := ip_octets (net_addr (net_trunc p)) in
  s ← slice addr_octets 0 (nbytes_of bits);
  Ret ([bits] ++ s).

Definition push_attr (buf : list Z) (flags type_code : Z) (value : list Z)
    : rust DecodeError (list Z) :=
  if Z.of_nat (length value) <=? u8_max then
    Ret (buf ++ [flags; type_code; Z.of_nat (length value)] ++ value)
  else
    len ← u16_expect (length value);
    Ret (buf ++ [Z.lor flags FLAG_EXTENDED_LEN; type_code] ++ be_bytes 2 len ++ value).

(** The values of the two community attributes. *)
Definition communities_value (cs : list (Z * Z)) : list Z :=
  concat ((λ c, be_bytes 2 c.1 ++ be_bytes 2 c.2) <$> cs).
Definition large_communities_value (cs : list (Z * Z * Z)) : list Z :=
  concat ((λ c, be_bytes 4 c.1.1 ++ be_bytes 4 c.1.2 ++ be_bytes 4 c.2) <$> cs).

(** The community attributes, each only when there is a community. *)
Definition push_communities (attrs : list Z) (r : Route) : rust DecodeError (list Z) :=
  attrs ← match communities r with
          | [] => Ret attrs
          | cs => push_attr attrs FLAG_OPT_TRANS ATTR_COMMUNITIES (communities_value cs)
          end;
  match large_communities r with
  | [] => Ret attrs
  | cs => push_attr attrs FLAG_OPT_TRANS ATTR_LARGE_COMMUNITIES (large_communities_value cs)
  end.

Definition build_announce (r : Route) : rust DecodeError (list Z) :=
  match net_addr (prefix r), next_hop r with
  | V4 _, V4 nh =>
      attrs ← push_attr [] FLAG_WELL_KNOWN ATTR_ORIGIN [origin_wire (route_origin r)];
      attrs ← push_attr attrs FLAG_WELL_KNOWN ATTR_AS_PATH [];
      attrs ← push_attr attrs FLAG_WELL_KNOWN ATTR_NEXT_HOP (be_bytes 4 nh);
      attrs ← push_communities attrs r;
      nlri ← encode_nlri (prefix r);
      total_attr_len ← u16_expect (length attrs);
      encode_header 2 (be_bytes 2 0 ++ be_bytes 2 total_attr_len ++ attrs ++ nlri)
  | V6 _, V6 nh =>
      nlri ← encode_nlri (prefix r);
      let mp_reach_val :=
        be_bytes 2 AFI_IPV6 ++ [SAFI_UNICAST; 16] ++ be_bytes 16 nh ++ [0] ++ nlri in
      attrs ← push_attr [] FLAG_WELL_KNOWN ATTR_ORIGIN [origin_wire (route_origin r)];
      attrs ← push_attr attrs FLAG_WELL_KNOWN ATTR_AS_PATH [];
      attrs ← push_attr attrs FLAG_OPT_NON_TRANS ATTR_MP_REACH_NLRI mp_reach_val;
      attrs ← push_communities attrs r;
      total_attr_len ← u16_expect (length attrs);
      encode_header 2 (be_bytes 2 0 ++ be_bytes 2 total_attr_len ++ attrs)
  | _, _ => Panic
  end.

Definition build_withdraw (p : IpNet) : rust DecodeError (list Z) :=
  match net_addr p with
  | V4 _ =>
      nlri ← encode_nlri p;
      withdrawn_len ← u16_expect (length nlri);
      encode_header 2 (be_bytes 2 withdrawn_len ++ nlri ++ be_bytes 2 0)
  | V6 _ =>
      nlri ← encode_nlri p;
      let mp_unreach_val := be_bytes 2 AFI_IPV6 ++ [SAFI_UNICAST] ++ nlri in
      attrs ← push_attr [] FLAG_OPT_NON_TRANS ATTR_MP_UNREACH_NLRI mp_unreach_val;
      total_attr_len ← u16_expect (length attrs);
      encode_header 2 (be_bytes 2 0 ++ be_bytes 2 total_attr_len ++ attrs)
  end.

(** ** A receiver *)

Definition take_n (n : nat) (l : list Z) : option (list Z * list Z) :=
  if (n <=? length l)%nat then Some (take n l, drop n l) else None.
Definition take_u16 (l : list Z) : option (Z * list Z) :=
  match l with b0 :: b1 :: l' => Some (be_value [b0; b1], l') | _ => None end.

(** An address of a family from its leading octets, the others being zero. *)
Definition ip_of_octets (v4 : bool) (s : list Z) : IpAddr :=
  if v4 then V4 (be_value (s ++ replicate (4 - length s) 0))
  else V6 (be_value (s ++ replicate (16 - length s) 0)).

(** A list of prefixes, each a length in bits and as few octets as hold them. *)
Fixpoint parse_prefixes (fuel : nat) (v4 : bool) (l : list Z) : option (list IpNet) :=
  match l, fuel with
  | [], _ => Some []
  | _, O => None
  | bits :: l', S fuel' =>
      if bits <=? (if v4 then 32 else 128) then
        '(s, l'') ← take_n (nbytes_of bits) l';
        p ← net_new (ip_of_octets v4 s) bits;
        ps ← parse_prefixes fuel' v4 l'';
        Some (p :: ps)
      else None
  end.

(** A path attribute: its flags without the extended-length bit, type, value. *)
Fixpoint parse_attrs (fuel : nat) (l : list Z) : option (list (Z * Z * list Z)) :=
  match l, fuel with
  | [], _ => Some []
  | flags :: ty :: l', S fuel' =>
      '(n, l1) ← (if Z.testbit flags 4 then take_u16 l'
                  else match l' with b :: l'' => Some (b, l'') | [] => None end);
      '(v, l2) ← take_n (Z.to_nat n) l1;
      attrs ← parse_attrs fuel' l2;
      Some ((Z.land flags 239, ty, v) :: attrs)
  | _, _ => None
  end.

(** The flags each attribute must carry. *)
Definition attr_class (ty : Z) : Z :=
  if bool_decide (ty ∈ [1; 2; 3]) then 64
  else if bool_decide (ty ∈ [14; 15]) then 128
  else 192.

Fixpoint attr_value (ty : Z) (attrs : list (Z * Z * list Z)) : option (list Z) :=
  match attrs with
  | [] => None
  | (_, t, v) :: attrs' => if t =? ty then Some v else attr_value ty attrs'
  end.

Definition parse_origin (v : list Z) : option Origin :=
  match v with [0] => Some Igp | [1] => Some Egp | [2] => Some Incomplete | _ => None end.

Fixpoint parse_communities (v : list Z) : option (list (Z * Z)) :=
  match v with
  | [] => Some []
  | a :: b :: c :: d :: v' =>
      cs ← parse_communities v'; Some ((be_value [a; b], be_value [c; d]) :: cs)
  | _ => None
  end.

Fixpoint parse_large_communities (v : list Z) : option (list (Z * Z * Z)) :=
  match v with
  | [] => Some []
  | a :: b :: c :: d :: e :: f :: g :: h :: i :: j :: k :: l :: v' =>
      cs ← parse_large_communities v';
      Some ((be_value [a; b; c; d], be_value [e; f; g; h], be_value [i; j; k; l]) :: cs)
  | _ => None
  end.

(** The values of MP_REACH_NLRI and MP_UNREACH_NLRI, after the family: the next
    hop and the NLRI octets; the NLRI octets. *)
Definition parse_mp_reach (v : list Z) : option (Z * Z * list Z * list Z) :=
  '(afi, l) ← take_u16 v;
  match l with
  | safi :: nhlen :: l' =>
      '(nh, l'') ← take_n (Z.to_nat nhlen) l';
      match l'' with _reserved :: nlri => Some (afi, safi, nh, nlri) | [] => None end
  | _ => None
  end.

Definition parse_mp_unreach (v : list Z) : option (Z * Z * list Z) :=
  '(afi, l) ← take_u16 v;
  match l with safi :: nlri => Some (afi, safi, nlri) | [] => None end.

(** The three parts of an UPDATE body. *)
Definition parse_update (body : list Z)
    : option (list Z * list (Z * Z * list Z) * list Z) :=
  '(wl, l) ← take_u16 body;
  '(w, l) ← take_n (Z.to_nat wl) l;
  '(al, l) ← take_u16 l;
  '(a, nlri) ← take_n (Z.to_nat al) l;
  attrs ← parse_attrs (length a) a;
  if forallb (λ x : Z * Z * list Z, x.1.1 =? attr_class x.1.2) attrs then Some (w, attrs, nlri)
  else None.

(** The attributes of the routes of an UPDATE; AS_PATH is mandatory. *)
Definition parse_route (attrs : list (Z * Z * list Z)) (p : IpNet) (nh : IpAddr) : option Route :=
  o ← attr_value ATTR_ORIGIN attrs ≫= parse_origin;
  _path ← attr_value ATTR_AS_PATH attrs;
  cs ← parse_communities (default [] (attr_value ATTR_COMMUNITIES attrs));
  ls ← parse_large_communities (default [] (attr_value ATTR_LARGE_COMMUNITIES attrs));
  Some {| prefix := p; next_hop := nh; route_origin := o; communities := cs;
          large_communities := ls |}.

(** What a receiver of unicast routes takes from an UPDATE body: the prefixes
    withdrawn and the routes announced. *)
Definition receive_body (body : list Z) : option (list IpNet * list Route) :=
  '(w, attrs, nlri) ← parse_update body;
  withdrawn ← parse_prefixes (length w) true w;
  announced ← parse_prefixes (length nlri) true nlri;
  mp_withdrawn ← match attr_value ATTR_MP_UNREACH_NLRI attrs with
                 | None => Some []
                 | Some v =>
                     '(afi, safi, n) ← parse_mp_unreach v;
                     if (afi =? 2) && (safi =? 1) then parse_prefixes (length n) false n else None
                 end;
  mp_announced ← match attr_value ATTR_MP_REACH_NLRI attrs with
                 | None => Some []
                 | Some v =>
                     '(afi, safi, nh, n) ← parse_mp_reach v;
                     if (afi =? 2) && (safi =? 1) && (length nh =? 16)%nat then
                       ps ← parse_prefixes (length n) false n;
                       mapM (λ p, parse_route attrs p (V6 (be_value nh))) ps
                     else None
                 end;
  routes ← mapM (λ p, nh ← attr_value ATTR_NEXT_HOP attrs;
                      if (length nh =? 4)%nat then parse_route attrs p (V4 (be_value nh))
                      else None) announced;
  Some (withdrawn ++ mp_withdrawn, routes ++ mp_announced).

(** A receiver of the byte stream: exactly one UPDATE message. *)
Definition receive (bytes : list Z) : option (list IpNet * list Route) :=
  match decode_message bytes with
  | Ret (Update, n) => if (n =? length bytes)%nat then receive_body (drop HEADER_LEN bytes) else None
  | _ => None
  end.

(** ** Prefixes *)

Lemma take_be_bytes k n z :
  (k ≤ n)%nat → take k (be_bytes n z) = be_bytes k (z / 256 ^ Z.of_nat (n - k)).
Proof.
  revert n. induction k as [|k IH]; intros n Hk; [done|].
  destruct n as [|n]; [lia|]. change (be_bytes (S ?n) ?z)
    with ((z / 256 ^ Z.of_nat n) mod 256 :: be_bytes n z).
  cbn [take]. rewrite IH by lia. cbn [Nat.sub]. f_equal.
  rewrite Z.div_div, <-Z.pow_add_r by lia. do 3 f_equal. lia.
Qed.

Lemma be_value_replicate_0 k : be_value (replicate k 0) = 0.
Proof. induction k as [|k IH]; [done|]. cbn [replicate]. rewrite be_value_cons. lia. Qed.

(** The leading octets of an address whose other octets are zero. *)
Lemma be_value_take_pad n k z :
  (k ≤ n)%nat → 0 ≤ z < 256 ^ Z.of_nat n → z mod 256 ^ Z.of_nat (n - k) = 0 →
  be_value (take k (be_bytes n z) ++ replicate (n - k) 0) = z.
Proof.
  intros Hk Hz Hm. rewrite be_value_app, be_value_replicate_0, length_replicate, take_be_bytes by done.
  rewrite be_value_be_bytes_small.
  - rewrite Z.add_0_r. rewrite (Z.div_mod z (256 ^ Z.of_nat (n - k))) at 2 by lia. lia.
  - split; [apply Z.div_pos; lia|]. apply Z.div_lt_upper_bound; [lia|].
    rewrite <-Z.pow_add_r by lia.
    replace (Z.of_nat (n - k) + Z.of_nat k) with (Z.of_nat n) by lia. apply Hz.
Qed.

Lemma mask_to_bound bits n z : 0 ≤ n ≤ bits → 0 ≤ z < 2 ^ bits → 0 ≤ mask_to bits n z < 2 ^ bits.
Proof.
  intros Hn Hz. unfold mask_to. assert (0 < 2 ^ (bits - n)) by lia.
  pose proof (Z.mul_div_le z (2 ^ (bits - n))). pose proof (Z.div_pos z (2 ^ (bits - n))). nia.
Qed.

Lemma mask_to_octets (N k : nat) n z :
  0 ≤ n → n ≤ 8 * Z.of_nat k → (k ≤ N)%nat →
  mask_to (8 * Z.of_nat N) n z mod 256 ^ Z.of_nat (N - k) = 0.
Proof.
  intros H0 Hn Hk. unfold mask_to. change 256 with (2 ^ 8). rewrite <-Z.pow_mul_r by lia.
  replace (8 * Z.of_nat N - n) with (8 * Z.of_nat (N - k) + (8 * Z.of_nat k - n)) by lia.
  rewrite Z.pow_add_r by lia.
  replace (_ / _ * _) with (z / (2 ^ (8 * Z.of_nat (N - k)) * 2 ^ (8 * Z.of_nat k - n)) *
    2 ^ (8 * Z.of_nat k - n) * 2 ^ (8 * Z.of_nat (N - k))) by lia.
  by apply Z.mod_mul; lia.
Qed.

(** The octets a prefix is packed into. *)
Definition packed (p : IpNet) : list Z :=
  take (nbytes_of (net_prefix_len p)) (ip_octets (net_addr (net_trunc p))).

Lemma nbytes_of_spec n : 0 ≤ n →
  n ≤ 8 * Z.of_nat (nbytes_of n) < n + 8.
Proof.
  intros Hn. unfold nbytes_of. rewrite Z2Nat.id by (apply Z.div_pos; lia).
  pose proof (Z.mul_div_le (n + 7) 8). pose proof (Z.mul_succ_div_gt (n + 7) 8). lia.
Qed.

Lemma net_trunc_v4 p : ip_is_v4 (net_addr (net_trunc p)) = ip_is_v4 (net_addr p).
Proof. rewrite net_trunc_addr. by destruct (net_addr p). Qed.

Lemma nbytes_of_len p :
  (nbytes_of (net_prefix_len p) ≤ length (ip_octets (net_addr (net_trunc p))))%nat.
Proof.
  pose proof (net_len_bound p) as Hb. pose proof (nbytes_of_spec (net_prefix_len p) (proj1 Hb)) as Hn.
  rewrite length_ip_octets, net_trunc_addr. destruct (net_addr p); cbn [ip_bits ip_with] in *.
  - change (Z.to_nat (32 / 8)) with 4%nat. lia.
  - change (Z.to_nat (128 / 8)) with 16%nat. lia.
Qed.

Lemma length_packed p : length (packed p) = nbytes_of (net_prefix_len p).
Proof. unfold packed. rewrite length_take. pose proof (nbytes_of_len p). lia. Qed.

Lemma length_packed_le p :
  (length (packed p) ≤ if ip_is_v4 (net_addr p) then 4 else 16)%nat.
Proof.
  rewrite length_packed. pose proof (nbytes_of_len p) as Hl.
  rewrite length_ip_octets, net_trunc_addr in Hl. by destruct (net_addr p).
Qed.

Lemma encode_nlri_ok p : encode_nlri p = Ret (net_prefix_len p :: packed p).
Proof.
  unfold encode_nlri. pose proof (nbytes_of_len p). rewrite slice_ok by lia. cbn [mbind rust_bind].
  by rewrite drop_0, Nat.sub_0_r.
Qed.

(** The packed octets determine the network address. *)
Lemma ip_of_packed p :
  ip_wf (net_addr p) → ip_of_octets (ip_is_v4 (net_addr p)) (packed p) = net_addr (net_trunc p).
Proof.
  intros Hwf. pose proof (length_packed_le p) as Hle. pose proof (length_packed p) as Hlen.
  pose proof (net_len_bound p) as Hb. pose proof (nbytes_of_spec (net_prefix_len p) (proj1 Hb)) as Hn.
  unfold ip_of_octets. rewrite !Hlen in *. unfold packed. rewrite net_trunc_addr.
  unfold ip_wf in Hwf. destruct (net_addr p) as [z|z]; cbn [ip_is_v4 ip_with ip_octets ip_bits ip_val] in *;
    f_equal; apply be_value_take_pad; try done.
  - by apply mask_to_bound.
  - apply (mask_to_octets 4); lia.
  - by apply mask_to_bound.
  - apply (mask_to_octets 16); lia.
Qed.

Lemma parse_encoded_prefix p :
  ip_wf (net_addr p) →
  parse_prefixes (length (net_prefix_len p :: packed p)) (ip_is_v4 (net_addr p))
    (net_prefix_len p :: packed p) = Some [net_trunc p].
Proof.
  intros Hwf. cbn [length parse_prefixes]. pose proof (net_len_bound p) as Hb.
  rewrite (proj2 (Z.leb_le _ _)) by (destruct (net_addr p); simpl in *; lia).
  unfold take_n. rewrite length_packed, Nat.leb_refl. cbn [mbind option_bind].
  rewrite <-length_packed, firstn_all, drop_all, ip_of_packed by done.
  destruct (net_new_ok (net_addr (net_trunc p)) (net_prefix_len p)) as (q & -> & Ha & Hl).
  { rewrite net_trunc_addr. by destruct (net_addr p). }
  cbn [mbind option_bind].
  assert (q = net_trunc p) as -> by (apply net_ext; [done|by rewrite net_trunc_len]).
  by destruct (length (packed p)).
Qed.

(** ** Attributes *)

Definition attr_bytes (a : Z * Z * list Z) : list Z :=
  let '(f, t, v) := a in
  if Z.of_nat (length v) <=? u8_max then [f; t; Z.of_nat (length v)] ++ v
  else [Z.lor f FLAG_EXTENDED_LEN; t] ++ be_bytes 2 (Z.of_nat (length v)) ++ v.

Definition attr_ok (a : Z * Z * list Z) : Prop :=
  (a.1.1 = 64 ∨ a.1.1 = 128 ∨ a.1.1 = 192) ∧ Z.of_nat (length a.2) ≤ u16_max.

Lemma push_attr_ok buf f t v :
  Z.of_nat (length v) ≤ u16_max → push_attr buf f t v = Ret (buf ++ attr_bytes (f, t, v)).
Proof.
  intros Hv. unfold push_attr, attr_bytes, u16_expect. case_match; [done|].
  by rewrite (proj2 (Z.leb_le _ _)) by done.
Qed.

Lemma length_attr_bytes f t v : (length (attr_bytes (f, t, v)) ≤ 4 + length v)%nat.
Proof. unfold attr_bytes. case_match; rewrite !length_app, ?length_be_bytes; simpl; lia. Qed.

Lemma parse_attrs_step fuel a rest :
  attr_ok a →
  parse_attrs (S fuel) (attr_bytes a ++ rest) = attrs ← parse_attrs fuel rest; Some (a :: attrs).
Proof.
  destruct a as [[f t] v]. intros [Hf Hv]. cbn [fst snd] in *. unfold u16_max in Hv.
  assert (Z.testbit f 4 = false ∧ Z.testbit (Z.lor f FLAG_EXTENDED_LEN) 4 = true ∧
    Z.land f 239 = f ∧ Z.land (Z.lor f FLAG_EXTENDED_LEN) 239 = f) as (H1 & H2 & H3 & H4).
  { by destruct Hf as [->|[->| ->]]. }
  unfold attr_bytes. destruct (Z.leb_spec (Z.of_nat (length v)) u8_max); cbn [app parse_attrs].
  - rewrite H1, H3. cbn [mbind option_bind]. unfold take_n. rewrite Nat2Z.id, length_app.
    rewrite (proj2 (Nat.leb_le _ _)) by lia. cbn [mbind option_bind].
    by rewrite take_app_length, drop_app_length.
  - rewrite H2, H4, be_bytes_2. cbn [app take_u16 mbind option_bind].
    rewrite <-be_bytes_2, be_value_be_bytes_small
      by (change (256 ^ Z.of_nat 2) with 65536; lia).
    unfold take_n. rewrite Nat2Z.id, length_app.
    rewrite (proj2 (Nat.leb_le _ _)) by lia. cbn [mbind option_bind].
    by rewrite take_app_length, drop_app_length.
Qed.

Lemma parse_attrs_ok attrs fuel :
  Forall attr_ok attrs → (length attrs ≤ fuel)%nat →
  parse_attrs fuel (concat (attr_bytes <$> attrs)) = Some attrs.
Proof.
  intros Hok. revert fuel. induction Hok as [|a attrs Ha _ IH]; intros fuel Hf.
  - by destruct fuel.
  - destruct fuel as [|fuel]; simpl in Hf; [lia|]. cbn [fmap list_fmap concat].
    rewrite parse_attrs_step by done. by rewrite IH by lia.
Qed.

Lemma length_attrs_concat attrs :
  (length attrs ≤ length (concat (attr_bytes <$> attrs)))%nat.
Proof.
  induction attrs as [|[[f t] v] attrs IH]; [done|]. cbn [fmap list_fmap concat length].
  rewrite length_app. assert (1 ≤ length (attr_bytes (f, t, v)))%nat; [|simpl in *; lia].
  unfold attr_bytes. case_match; simpl; lia.
Qed.

(** ** Communities *)

Lemma parse_communities_value cs :
  Forall (λ c, u16_ok c.1 ∧ u16_ok c.2) cs → parse_communities (communities_value cs) = Some cs.
Proof.
  unfold communities_value, u16_ok, u16_max. induction 1 as [|[a b] cs [Ha Hb] _ IH]; [done|].
  cbn [fmap list_fmap concat fst snd] in *.
  rewrite !be_bytes_2. cbn [app parse_communities]. rewrite IH. cbn [mbind option_bind].
  rewrite <-!be_bytes_2, !be_value_be_bytes_small by (change (256 ^ Z.of_nat 2) with 65536; lia). done.
Qed.

Lemma parse_large_communities_value cs :
  Forall (λ c, u32_ok c.1.1 ∧ u32_ok c.1.2 ∧ u32_ok c.2) cs →
  parse_large_communities (large_communities_value cs) = Some cs.
Proof.
  unfold large_communities_value, u32_ok, u32_max.
  induction 1 as [|[[a b] c] cs (Ha & Hb & Hc) _ IH]; [done|].
  cbn [fmap list_fmap concat fst snd] in *.
  rewrite !be_bytes_4. cbn [app parse_large_communities]. rewrite IH. cbn [mbind option_bind].
  rewrite <-!be_bytes_4, !be_value_be_bytes_small
    by (change (256 ^ Z.of_nat 4) with 4294967296; lia). done.
Qed.

Lemma length_communities_value cs : length (communities_value cs) = (4 * length cs)%nat.
Proof.
  unfold communities_value. induction cs as [|c cs IH]; [done|]. cbn [fmap list_fmap concat length].
  rewrite !length_app, !length_be_bytes. simpl in *. lia.
Qed.

Lemma length_large_communities_value cs :
  length (large_communities_value cs) = (12 * length cs)%nat.
Proof.
  unfold large_communities_value. induction cs as [|c cs IH]; [done|].
  cbn [fmap list_fmap concat length]. rewrite !length_app, !length_be_bytes. simpl in *. lia.
Qed.

Definition community_attrs (r : Route) : list (Z * Z * list Z) :=
  (match communities r with
   | [] => [] | cs => [(FLAG_OPT_TRANS, ATTR_COMMUNITIES, communities_value cs)]
   end) ++
  (match large_communities r with
   | [] => [] | cs => [(FLAG_OPT_TRANS, ATTR_LARGE_COMMUNITIES, large_communities_value cs)]
   end).

(** The widths of the fields, one family for the prefix and the next hop, and
    communities that fit one message. *)
Definition route_wf (r : Route) : Prop :=
  ip_wf (net_addr (prefix r)) ∧ ip_wf (next_hop r) ∧
  ip_is_v4 (next_hop r) = ip_is_v4 (net_addr (prefix r)) ∧
  Forall (λ c, u16_ok c.1 ∧ u16_ok c.2) (communities r) ∧
  Forall (λ c, u32_ok c.1.1 ∧ u32_ok c.1.2 ∧ u32_ok c.2) (large_communities r) ∧
  (4 * length (communities r) + 12 * length (large_communities r) ≤ 4000)%nat.

Lemma community_attrs_ok r :
  (4 * length (communities r) + 12 * length (large_communities r) ≤ 4000)%nat →
  Forall attr_ok (community_attrs r) ∧
  (length (concat (attr_bytes <$> community_attrs r)) ≤ 4008)%nat.
Proof.
  intros Hl. unfold community_attrs.
  assert (∀ t v, (length v ≤ 4000)%nat → attr_ok (FLAG_OPT_TRANS, t, v)) as Hok.
  { intros t v Hv. unfold attr_ok, u16_max. cbn. split; [by auto|lia]. }
  pose proof (length_communities_value (communities r)) as Hc.
  pose proof (length_large_communities_value (large_communities r)) as Hlc.
  destruct (communities r) as [|c cs], (large_communities r) as [|l ls];
    cbn [app fmap list_fmap concat]; rewrite ?app_nil_r, ?length_app; (split;
      [rewrite ?Forall_cons, Forall_nil; split_and?; try done; apply Hok; lia|]).
  - simpl. lia.
  - pose proof (length_attr_bytes FLAG_OPT_TRANS ATTR_LARGE_COMMUNITIES
      (large_communities_value (l :: ls))). lia.
  - pose proof (length_attr_bytes FLAG_OPT_TRANS ATTR_COMMUNITIES
      (communities_value (c :: cs))). lia.
  - pose proof (length_attr_bytes FLAG_OPT_TRANS ATTR_LARGE_COMMUNITIES
      (large_communities_value (l :: ls))).
    pose proof (length_attr_bytes FLAG_OPT_TRANS ATTR_COMMUNITIES
      (communities_value (c :: cs))). lia.
Qed.

Lemma push_communities_ok attrs r :
  (4 * length (communities r) + 12 * length (large_communities r) ≤ 4000)%nat →
  push_communities attrs r = Ret (attrs ++ concat (attr_bytes <$> community_attrs r)).
Proof.
  intros Hl. destruct (community_attrs_ok r Hl) as [Hok _].
  unfold push_communities, community_attrs in *.
  destruct (communities r) as [|c cs], (large_communities r) as [|l ls];
    cbn [app fmap list_fmap concat mbind rust_bind] in *;
    rewrite ?Forall_cons in Hok; unfold attr_ok in Hok; cbn [fst snd] in Hok;
    rewrite ?push_attr_ok by tauto; cbn [mbind rust_bind]; rewrite ?push_attr_ok by tauto;
    by rewrite ?app_nil_r, ?app_assoc.
Qed.

(** ** The parts of an UPDATE *)

Lemma parse_update_ok w attrs nlri :
  Forall attr_ok attrs → forallb (λ x : Z * Z * list Z, x.1.1 =? attr_class x.1.2) attrs = true →
  (length w ≤ 4096)%nat → (length (concat (attr_bytes <$> attrs)) ≤ 4096)%nat →
  parse_update (be_bytes 2 (Z.of_nat (length w)) ++ w ++
    be_bytes 2 (Z.of_nat (length (concat (attr_bytes <$> attrs)))) ++
    concat (attr_bytes <$> attrs) ++ nlri) = Some (w, attrs, nlri).
Proof.
  intros Hok Hcl Hw Ha. set (ab := concat (attr_bytes <$> attrs)) in *.
  assert (∀ n l, (n ≤ 4096)%nat → take_u16 (be_bytes 2 (Z.of_nat n) ++ l) = Some (Z.of_nat n, l)) as Ht.
  { intros n l Hn. rewrite be_bytes_2. cbn [app take_u16]. rewrite <-be_bytes_2.
    rewrite be_value_be_bytes_small by (change (256 ^ Z.of_nat 2) with 65536; lia). done. }
  assert (∀ l l', take_n (Z.to_nat (Z.of_nat (length l))) (l ++ l') = Some (l, l')) as Hn.
  { intros l l'. unfold take_n. rewrite Nat2Z.id, length_app, (proj2 (Nat.leb_le _ _)) by lia.
    by rewrite take_app_length, drop_app_length. }
  unfold parse_update. rewrite Ht by done. cbn [mbind option_bind]. rewrite Hn. cbn [mbind option_bind].
  rewrite Ht by done. cbn [mbind option_bind]. rewrite Hn. cbn [mbind option_bind].
  unfold ab. rewrite parse_attrs_ok by (done || apply length_attrs_concat). cbn [mbind option_bind].
  by rewrite Hcl.
Qed.

Lemma receive_update body :
  (length body ≤ 4077)%nat →
  ∃ bytes, encode_header 2 body = Ret bytes ∧ receive bytes = receive_body body.
Proof.
  intros Hl. eexists. split; [apply encode_header_ok; lia|]. unfold receive.
  pose proof (decode_framed 2 body [] Hl) as Hd. cbv zeta in Hd. rewrite app_nil_r in Hd.
  rewrite Hd. cbn [from_code Z.eqb Pos.eqb mbind rust_bind].
  rewrite !length_app, length_be_bytes. cbn [length].
  by rewrite (proj2 (Nat.eqb_eq _ _)) by (simpl; lia).
Qed.

(** The attribute with the next hop. *)
Definition next_hop_attr (r : Route) : Z * Z * list Z :=
  match next_hop r with
  | V4 nh => (FLAG_WELL_KNOWN, ATTR_NEXT_HOP, be_bytes 4 nh)
  | V6 nh =>
      (FLAG_OPT_NON_TRANS, ATTR_MP_REACH_NLRI,
       be_bytes 2 AFI_IPV6 ++ [SAFI_UNICAST; 16] ++ be_bytes 16 nh ++ [0] ++
       net_prefix_len (prefix r) :: packed (prefix r))
  end.

(** The attributes of an announcement, in order. *)
Definition announce_attrs (r : Route) : list (Z * Z * list Z) :=
  [(FLAG_WELL_KNOWN, ATTR_ORIGIN, [origin_wire (route_origin r)]);
   (FLAG_WELL_KNOWN, ATTR_AS_PATH, []); next_hop_attr r] ++ community_attrs r.

Lemma announce_attrs_ok r :
  route_wf r →
  Forall attr_ok (announce_attrs r) ∧
  forallb (λ x : Z * Z * list Z, x.1.1 =? attr_class x.1.2) (announce_attrs r) = true ∧
  (length (concat (attr_bytes <$> announce_attrs r)) ≤ 4060)%nat.
Proof.
  intros (_ & _ & Hf & _ & _ & Hl). destruct (community_attrs_ok r Hl) as [Hok Hlen].
  pose proof (length_packed_le (prefix r)) as Hp.
  assert (Z.of_nat (length (packed (prefix r))) ≤ 16) as Hp'
    by (destruct (ip_is_v4 (net_addr (prefix r))); lia).
  unfold announce_attrs. split_and!.
  - apply Forall_app. split; [|done].
    rewrite !Forall_cons, Forall_nil; unfold attr_ok, u16_max; cbn [fst snd].
    unfold next_hop_attr.
    split_and!; try done; try (by auto); destruct (next_hop r); cbn [fst snd]; try (by auto);
      rewrite ?length_app, ?length_be_bytes; cbn [length];
      rewrite ?length_app, ?length_be_bytes; cbn [length]; lia.
  - rewrite forallb_app. apply andb_true_intro. split; [unfold next_hop_attr; by destruct (next_hop r)|].
    unfold community_attrs. by destruct (communities r), (large_communities r).
  - rewrite fmap_app, concat_app, length_app. cbn [fmap list_fmap concat].
    rewrite app_nil_r, !length_app. cbn [attr_bytes].
    assert (length (attr_bytes (next_hop_attr r)) ≤ 44)%nat as Hm.
    { unfold next_hop_attr. destruct (next_hop r); etransitivity; try apply length_attr_bytes;
        rewrite ?length_app, ?length_be_bytes; cbn [length];
        rewrite ?length_app, ?length_be_bytes; cbn [length]; lia. }
    simpl length at 1. simpl length at 1. lia.
Qed.

Lemma build_announce_ok r :
  route_wf r →
  build_announce r = encode_header 2 (be_bytes 2 0 ++
    be_bytes 2 (Z.of_nat (length (concat (attr_bytes <$> announce_attrs r)))) ++
    concat (attr_bytes <$> announce_attrs r) ++
    (if ip_is_v4 (net_addr (prefix r)) then net_prefix_len (prefix r) :: packed (prefix r) else [])).
Proof.
  intros Hwf. destruct (announce_attrs_ok r Hwf) as (Hok & _ & Hlen).
  destruct Hwf as (_ & _ & Hf & _ & _ & Hl). unfold build_announce, announce_attrs, next_hop_attr in *.
  rewrite encode_nlri_ok. rewrite fmap_app, concat_app in *.
  destruct (net_addr (prefix r)), (next_hop r) as [nh|nh]; try done; cbn [ip_is_v4];
    apply Forall_app in Hok as [Hok _]; rewrite !Forall_cons in Hok;
    destruct Hok as ((_ & H1) & (_ & H2) & (_ & H3) & _); cbn [snd] in H1, H2, H3;
    rewrite push_attr_ok by done; cbn [mbind rust_bind]; rewrite push_attr_ok by done;
    cbn [mbind rust_bind]; rewrite push_attr_ok by done; cbn [mbind rust_bind];
    rewrite push_communities_ok by done; cbn [mbind rust_bind];
    cbn [fmap list_fmap concat app] in *; rewrite ?app_nil_r, <-?app_assoc in *;
    unfold u16_expect; rewrite (proj2 (Z.leb_le _ _)) by (unfold u16_max; lia); done.
Qed.

(** The receiver's reading of the attributes. *)
Lemma parse_announced_route r p :
  route_wf r →
  parse_route (announce_attrs r) p (next_hop r)
  = Some {| prefix := p; next_hop := next_hop r; route_origin := route_origin r;
            communities := communities r; large_communities := large_communities r |}.
Proof.
  intros (_ & _ & _ & Hc & Hlc & _). apply parse_communities_value in Hc.
  apply parse_large_communities_value in Hlc.
  unfold parse_route, announce_attrs, next_hop_attr, community_attrs.
  assert (parse_origin [origin_wire (route_origin r)] = Some (route_origin r)) as Ho
    by (by destruct (route_origin r)).
  destruct (next_hop r); cbn [app attr_value];
    change (ATTR_ORIGIN =? ATTR_ORIGIN) with true; cbv iota; cbn [mbind option_bind];
    rewrite Ho; cbn [mbind option_bind];
    destruct (communities r) as [|c cs], (large_communities r) as [|l ls];
    cbn [app attr_value];
    repeat match goal with
    | |- context [if ?t =? ?u then _ else _] => first
        [change (t =? u) with true | change (t =? u) with false]; cbv iota
    end; cbn [mbind option_bind default]; unfold id; rewrite ?Hc; cbn [mbind option_bind];
    rewrite ?Hlc; done.
Qed.

Lemma announce_attr_values r :
  attr_value ATTR_MP_UNREACH_NLRI (announce_attrs r) = None ∧
  match next_hop r with
  | V4 nh => attr_value ATTR_NEXT_HOP (announce_attrs r) = Some (be_bytes 4 nh) ∧
             attr_value ATTR_MP_REACH_NLRI (announce_attrs r) = None
  | V6 nh => attr_value ATTR_MP_REACH_NLRI (announce_attrs r)
             = Some (be_bytes 2 AFI_IPV6 ++ [SAFI_UNICAST; 16] ++ be_bytes 16 nh ++ [0] ++
                     net_prefix_len (prefix r) :: packed (prefix r))
  end.
Proof.
  unfold announce_attrs, next_hop_attr, community_attrs.
  destruct (next_hop r), (communities r), (large_communities r); done.
Qed.

Lemma parse_mp_reach_ok nh nlri :
  parse_mp_reach (be_bytes 2 AFI_IPV6 ++ [SAFI_UNICAST; 16] ++ be_bytes 16 nh ++ [0] ++ nlri)
  = Some (2, 1, be_bytes 16 nh, nlri).
Proof.
  unfold parse_mp_reach. rewrite be_bytes_2. cbn [app take_u16 mbind option_bind].
  unfold take_n. rewrite length_app, length_be_bytes. cbn [length].
  rewrite (proj2 (Nat.leb_le _ _)) by lia. cbn [mbind option_bind].
  by rewrite take_app_length', drop_app_length' by (by rewrite length_be_bytes).
Qed.

(** An announced route arrives intact: for a route whose next hop is of
    its prefix's family and whose communities fit one message, the encoder
    does not panic, and a standards-following receiver of the bytes reads an
    UPDATE that withdraws nothing and announces exactly that route: the prefix
    with its host bits cleared, the next hop, the origin, and every standard
    and large community in order, for IPv4 and for IPv6. *)
Theorem bgp_announce_received r :
  route_wf r →
  ∃ bytes, build_announce r = Ret bytes ∧
    receive bytes
    = Some ([], [{| prefix := net_trunc (prefix r); next_hop := next_hop r;
                    route_origin := route_origin r; communities := communities r;
                    large_communities := large_communities r |}]).
Proof.
  intros Hwf. rewrite build_announce_ok by done.
  destruct (announce_attrs_ok r Hwf) as (Hok & Hcl & Hlen). pose proof Hwf as (Hp & Hn & Hf & _).
  pose proof (length_packed_le (prefix r)) as Hpl.
  set (nlri := if ip_is_v4 (net_addr (prefix r)) then _ else _).
  assert ((length nlri ≤ 5)%nat) as Hnl.
  { subst nlri. destruct (ip_is_v4 (net_addr (prefix r))); simpl; lia. }
  edestruct (receive_update (be_bytes 2 0 ++
    be_bytes 2 (Z.of_nat (length (concat (attr_bytes <$> announce_attrs r)))) ++
    concat (attr_bytes <$> announce_attrs r) ++ nlri)) as (bytes & -> & Hrx).
  { rewrite !length_app, !length_be_bytes. lia. }
  exists bytes. split; [done|]. rewrite Hrx. unfold receive_body.
  pose proof (parse_update_ok [] (announce_attrs r) nlri) as Hpu.
  cbn [length app] in Hpu. change (Z.of_nat 0) with 0 in Hpu. rewrite Hpu by (done || lia).
  cbn [mbind option_bind length parse_prefixes].
  destruct (announce_attr_values r) as [-> Hav]. cbn [mbind option_bind].
  pose proof (λ p, parse_announced_route r p Hwf) as Hr.
  pose proof (parse_encoded_prefix (prefix r) Hp) as Hpp.
  subst nlri. rewrite <-Hf in *. destruct (next_hop r) as [nh|nh] eqn:Hnh; cbn [ip_is_v4] in *.
  - destruct Hav as [Hnx Hre]. rewrite Hpp, Hre. cbn [mbind option_bind mapM].
    rewrite Hnx. cbn [mbind option_bind]. rewrite length_be_bytes. cbn [Nat.eqb].
    change (be_value (be_bytes 4 nh)) with (be_value (ip_octets (V4 nh))).
    rewrite ip_octets_val by done. cbn [ip_val]. by rewrite Hr.
  - cbn [mbind option_bind parse_prefixes length]. rewrite Hav, parse_mp_reach_ok.
    cbn [mbind option_bind Z.eqb Pos.eqb andb]. rewrite length_be_bytes. cbn [Nat.eqb].
    rewrite Hpp. cbn [mbind option_bind mapM].
    change (be_value (be_bytes 16 nh)) with (be_value (ip_octets (V6 nh))).
    rewrite ip_octets_val by done. cbn [ip_val]. by rewrite Hr.
Qed.

(** A withdrawal arrives intact: the receiver of the encoded UPDATE reads
    the withdrawal of exactly that prefix, host bits cleared, and nothing
    announced; so a withdrawal undoes the announcement of the same prefix. *)
Theorem bgp_withdraw_received p :
  ip_wf (net_addr p) →
  ∃ bytes, build_withdraw p = Ret bytes ∧ receive bytes = Some ([net_trunc p], []).
Proof.
  intros Hp. pose proof (length_packed_le p) as Hpl. pose proof (parse_encoded_prefix p Hp) as Hpp.
  unfold build_withdraw. rewrite encode_nlri_ok.
  set (nlri := net_prefix_len p :: packed p) in *.
  assert ((length nlri ≤ 17)%nat) as Hnl
    by (subst nlri; cbn [length]; destruct (ip_is_v4 (net_addr p)); lia).
  destruct (net_addr p) as [z|z]; cbn [mbind rust_bind ip_is_v4] in *.
  - unfold u16_expect. rewrite (proj2 (Z.leb_le _ _)) by (unfold u16_max; lia).
    cbn [mbind rust_bind].
    edestruct (receive_update (be_bytes 2 (Z.of_nat (length nlri)) ++ nlri ++ be_bytes 2 0))
      as (bytes & -> & Hrx); [rewrite !length_app, !length_be_bytes; lia|].
    exists bytes. split; [done|]. rewrite Hrx. unfold receive_body.
    pose proof (parse_update_ok nlri [] []) as Hpu. cbn [fmap list_fmap concat length app] in Hpu.
    change (Z.of_nat 0) with 0 in Hpu.
    rewrite app_nil_r in Hpu. rewrite Hpu by (done || (simpl; lia) || constructor).
    cbn [mbind option_bind]. by rewrite Hpp.
  - set (v := be_bytes 2 AFI_IPV6 ++ [SAFI_UNICAST] ++ nlri).
    assert ((length v ≤ 20)%nat) as Hv
      by (subst v; rewrite !length_app, length_be_bytes; cbn [length]; lia).
    rewrite push_attr_ok by (unfold u16_max; lia). cbn [mbind rust_bind app].
    pose proof (length_attr_bytes FLAG_OPT_NON_TRANS ATTR_MP_UNREACH_NLRI v) as Hab.
    unfold u16_expect. rewrite (proj2 (Z.leb_le _ _)) by (unfold u16_max; lia).
    cbn [mbind rust_bind].
    pose proof (parse_update_ok [] [(FLAG_OPT_NON_TRANS, ATTR_MP_UNREACH_NLRI, v)] []) as Hpu.
    cbn [fmap list_fmap concat length app] in Hpu. change (Z.of_nat 0) with 0 in Hpu.
    rewrite !app_nil_r in Hpu.
    edestruct receive_update as (bytes & -> & Hrx);
      [|exists bytes; split; [done|]; rewrite Hrx; unfold receive_body; rewrite Hpu].
    + rewrite !length_app, !length_be_bytes. lia.
    + cbn [mbind option_bind length parse_prefixes attr_value].
      change (ATTR_MP_UNREACH_NLRI =? ATTR_MP_UNREACH_NLRI) with true. cbv iota.
      unfold parse_mp_unreach, v. rewrite be_bytes_2. cbn [app take_u16 mbind option_bind].
      change (be_value _ =? 2) with true. cbn [andb Z.eqb Pos.eqb].
      change (SAFI_UNICAST =? 1) with true. cbv iota. by rewrite Hpp.
    + apply Forall_singleton. split; [by auto|]. unfold u16_max. cbn [snd]. lia.
    + done.
    + lia.
    + lia.
Qed.
End update.

(** ** Examples *)

#[local] Existing Instance RefNet.lib.

Definition ex_wire_route : Route := {|
  prefix := RefNet.net4 203 0 113 7 24; next_hop := ipv4 192 0 2 1; route_origin := Igp;
  communities := [(65535, 666)]; large_communities := [(65001, 1, 2)] |}.

(** The bytes of an IPv4 withdrawal. *)
Lemma ex_wire_withdraw :
  build_withdraw (RefNet.net4 203 0 113 7 24)
  = Ret (replicate 16 255 ++ [0; 27; 2; 0; 4; 24; 203; 0; 113; 0; 0]).
Proof. vm_refl. Qed.

Lemma ex_wire_net_wf : ip_wf (net_addr (RefNet.net4 203 0 113 7 24)).
Proof.
  assert (net_addr (RefNet.net4 203 0 113 7 24) = V4 3405803783) as -> by vm_refl.
  unfold ip_wf. simpl. lia.
Qed.

Lemma ex_wire_route_wf : route_wf ex_wire_route.
Proof.
  unfold route_wf. split_and!.
  - exact ex_wire_net_wf.
  - unfold ip_wf. simpl. unfold be_value. simpl. lia.
  - vm_refl.
  - apply Forall_singleton. split; split; discriminate.
  - apply Forall_singleton. split_and!; split; discriminate.
  - simpl. lia.
Qed.

Lemma bgp_announce_received_witness :
  ∃ bytes, build_announce ex_wire_route = Ret bytes ∧
    receive bytes
    = Some ([], [{| prefix := net_trunc (prefix ex_wire_route); next_hop := ipv4 192 0 2 1;
                    route_origin := Igp; communities := [(65535, 666)];
                    large_communities := [(65001, 1, 2)] |}]).
Proof. exact (bgp_announce_received ex_wire_route ex_wire_route_wf). Defined.

Lemma bgp_withdraw_received_witness :
  ∃ bytes, build_withdraw (RefNet.net4 203 0 113 7 24) = Ret bytes ∧
    receive bytes = Some ([net_trunc (RefNet.net4 203 0 113 7 24)], []).
Proof.
  apply (bgp_withdraw_received (RefNet.net4 203 0 113 7 24)). exact ex_wire_net_wf.
Defined.
