(* ===== verification/BgpFlowSpec.v ===== *)
(** * BGP FlowSpec encoding

    Model of [crates/blackwall-bgp/src/flowspec.rs]: the UPDATE messages that
    announce and withdraw a FlowSpec rule. As for unicast routes, the
    reference is a receiver written from the standards (RFC 8955 and 8956):
    what it reads of an announcement is the traffic the rule matches
    ([nlri_id]) and its rate, and of a withdrawal the same traffic. *)
From stdpp Require Import prelude gmap strings.
From Corelib Require Import SpecFloat.
From S2P Require Import Prelude Net Float Executor Bytes BgpMessage BgpUpdate.

Open Scope Z_scope.

Definition COMP_DST_PREFIX : Z := 1.
Definition COMP_IP_PROTO : Z := 3.
Definition COMP_DST_PORT : Z := 5.
Definition SAFI_FLOWSPEC : Z := 133.

Section flowspec.
Context `{IpNetLib}.

(** The operator byte and the low [len_bytes] octets of the value. *)
Definition push_numeric_eq (out : list Z) (value : Z) (len_bytes : nat) : list Z :=
  let len_field :=
    match len_bytes with 1%nat => 0 | 2%nat => 1 | 4%nat => 2 | _ => 3 end in
  let op := Z.lor (Z.lor 128 (Z.shiftl len_field 4)) 1 in
  out ++ [op] ++ drop (8 - len_bytes) (be_bytes 8 value).

Definition push_two_byte_len (out : list Z) (len : nat) : rust DecodeError (list Z) :=
  l ← u16_expect len;
  Ret (out ++ be_bytes 2 (Z.lor 61440 l)).

(** The components of the NLRI. *)
Definition flowspec_components (rule : FlowSpecRule) : rust DecodeError (list Z) :=
  let d := net_trunc (dst rule) in
  let bits := net_prefix_len d in
  let nbytes := nbytes_of bits in
  comps ← match net_addr d with
          | V4 a =>
              s ← slice (be_bytes 4 a) 0 nbytes;
              Ret ([COMP_DST_PREFIX; bits] ++ s)
          | V6 a =>
              s ← slice (be_bytes 16 a) 0 nbytes;
              Ret ([COMP_DST_PREFIX; bits; 0] ++ s)
          end;
  let comps := match protocol rule with
               | Some proto => push_numeric_eq (comps ++ [COMP_IP_PROTO]) proto 1
               | None => comps
               end in
  let comps := match dst_port rule with
               | Some port => push_numeric_eq (comps ++ [COMP_DST_PORT]) port
                                (if port <? 256 then 1%nat else 2%nat)
               | None => comps
               end in
  Ret comps.

Definition encode_flowspec_nlri (rule : FlowSpecRule) : rust DecodeError (list Z) :=
  comps ← flowspec_components rule;
  out ← (if Z.of_nat (length comps) <=? u8_max then
           if Z.of_nat (length comps) <? 240 then Ret [Z.of_nat (length comps)]
           else push_two_byte_len [] (length comps)
         else push_two_byte_len [] (length comps));
  Ret (out ++ comps).

Definition traffic_rate_community (rate : f32) : list Z :=
  [128; 6; 0; 0] ++ be_bytes 4 (f32_bits rate).

Definition afi_of (rule : FlowSpecRule) : Z :=
  match net_addr (dst rule) with V4 _ => 1 | V6 _ => 2 end.

Definition build_flowspec_announce (rule : FlowSpecRule) : rust DecodeError (list Z) :=
  nlri ← encode_flowspec_nlri rule;
  let 'TrafficRate rate := action rule in
  let mp_reach := be_bytes 2 (afi_of rule) ++ [SAFI_FLOWSPEC; 0; 0] ++ nlri in
  attrs ← push_attr [] FLAG_WELL_KNOWN ATTR_ORIGIN [origin_wire Igp];
  attrs ← push_attr attrs FLAG_WELL_KNOWN ATTR_AS_PATH [];
  attrs ← push_attr attrs FLAG_OPT_TRANS ATTR_EXTENDED_COMMUNITIES (traffic_rate_community rate);
  attrs ← push_attr attrs FLAG_OPT_NON_TRANS ATTR_MP_REACH_NLRI mp_reach;
  total_attr_len ← u16_expect (length attrs);
  encode_header 2 (be_bytes 2 0 ++ be_bytes 2 total_attr_len ++ attrs).

Definition build_flowspec_withdraw (rule : FlowSpecRule) : rust DecodeError (list Z) :=
  nlri ← encode_flowspec_nlri rule;
  let mp_unreach := be_bytes 2 (afi_of rule) ++ [SAFI_FLOWSPEC] ++ nlri in
  attrs ← push_attr [] FLAG_OPT_NON_TRANS ATTR_MP_UNREACH_NLRI mp_unreach;
  total_attr_len ← u16_expect (length attrs);
  encode_header 2 (be_bytes 2 0 ++ be_bytes 2 total_attr_len ++ attrs).

(** ** A receiver *)

(** The length of an NLRI: one octet below 240, else two. *)
Definition parse_nlri_len (l : list Z) : option (list Z) :=
  match l with
  | [] => None
  | b :: l' =>
      if b <? 240 then if b =? Z.of_nat (length l') then Some l' else None
      else match l' with
           | [] => None
           | b' :: l'' =>
               if Z.land b 15 * 256 + b' =? Z.of_nat (length l'') then Some l'' else None
           end
  end.

(** The destination-prefix component; an IPv6 one has an offset octet. *)
Definition parse_dst_component (v4 : bool) (l : list Z) : option (IpNet * list Z) :=
  match l with
  | 1 :: bits :: l' =>
      if bits <=? (if v4 then 32 else 128) then
        l' ← (if v4 then Some l' else match l' with 0 :: l'' => Some l'' | _ => None end);
        '(s, l'') ← take_n (nbytes_of bits) l';
        p ← net_new (ip_of_octets v4 s) bits;
        Some (p, l'')
      else None
  | _ => None
  end.

(** A component of type [ty] with a single equality test, if there is one:
    end-of-list, not and, [==], and a value of one, two, four or eight octets. *)
Definition parse_eq_component (ty : Z) (l : list Z) : option (option Z * list Z) :=
  match l with
  | t :: op :: l' =>
      if t =? ty then
        if Z.land op 207 =? 129 then
          '(s, l'') ← take_n (Z.to_nat (2 ^ Z.land (Z.shiftr op 4) 3)) l';
          Some (Some (be_value s), l'')
        else None
      else Some (None, l)
  | _ => Some (None, l)
  end.

Definition parse_flowspec_nlri (v4 : bool) (l : list Z)
    : option (IpNet * option Z * option Z) :=
  comps ← parse_nlri_len l;
  '(p, l) ← parse_dst_component v4 comps;
  '(proto, l) ← parse_eq_component 3 l;
  '(port, l) ← parse_eq_component 5 l;
  match l with [] => Some (p, proto, port) | _ => None end.

(** The traffic-rate extended community. *)
Definition parse_traffic_rate (v : list Z) : option f32 :=
  match v with
  | [128; 6; _; _; a; b; c; d] => Some (f32_of_bits (be_value [a; b; c; d]))
  | _ => None
  end.

Inductive FlowSpecUpdate : Type :=
| FsAnnounced (id : IpNet * option Z * option Z) (rate : f32)
| FsWithdrawn (id : IpNet * option Z * option Z).

(** The family of an AFI with the FlowSpec SAFI. *)
Definition flowspec_family (afi safi : Z) : option bool :=
  if negb (safi =? 133) then None
  else if afi =? 1 then Some true else if afi =? 2 then Some false else None.

Definition receive_flowspec_body (body : list Z) : option FlowSpecUpdate :=
  '(w, attrs, nlri) ← parse_update body;
  match w, nlri, attr_value ATTR_MP_REACH_NLRI attrs, attr_value ATTR_MP_UNREACH_NLRI attrs with
  | [], [], Some v, None =>
      '(afi, safi, nh, n) ← parse_mp_reach v;
      v4 ← flowspec_family afi safi;
      _origin ← attr_value ATTR_ORIGIN attrs ≫= parse_origin;
      _path ← attr_value ATTR_AS_PATH attrs;
      rate ← attr_value ATTR_EXTENDED_COMMUNITIES attrs ≫= parse_traffic_rate;
      id ← parse_flowspec_nlri v4 n;
      match nh with [] => Some (FsAnnounced id rate) | _ => None end
  | [], [], None, Some v =>
      '(afi, safi, n) ← parse_mp_unreach v;
      v4 ← flowspec_family afi safi;
      id ← parse_flowspec_nlri v4 n;
      Some (FsWithdrawn id)
  | _, _, _, _ => None
  end.

Definition receive_flowspec (bytes : list Z) : option FlowSpecUpdate :=
  match decode_message bytes with
  | Ret (Update, n) =>
      if (n =? length bytes)%nat then receive_flowspec_body (drop HEADER_LEN bytes) else None
  | _ => None
  end.

(** ** The NLRI *)

Lemma drop_be_bytes k n z : drop k (be_bytes n z) = be_bytes (n - k) z.
Proof.
  revert n. induction k as [|k IH]; intros n; [by rewrite Nat.sub_0_r|].
  destruct n as [|n]; [done|]. change (be_bytes (S n) z)
    with ((z / 256 ^ Z.of_nat n) mod 256 :: be_bytes n z). apply IH.
Qed.

(** The bytes of an equality component. *)
Definition eq_component (ty : Z) (o : option Z) : list Z :=
  match o with
  | None => []
  | Some v =>
      if v <? 256 then [ty; 129] ++ be_bytes 1 v else [ty; 145] ++ be_bytes 2 v
  end.

Definition dst_component (p : IpNet) : list Z :=
  [COMP_DST_PREFIX; net_prefix_len p] ++ (if ip_is_v4 (net_addr p) then [] else [0]) ++ packed p.

(** The widths of the fields. *)
Definition rule_wf (r : FlowSpecRule) : Prop :=
  ip_wf (net_addr (dst r)) ∧
  (∀ v, protocol r = Some v → 0 ≤ v ≤ u8_max) ∧ (∀ v, dst_port r = Some v → u16_ok v) ∧
  (let 'TrafficRate rate := action r in valid_binary 24 128 rate = true).

Lemma flowspec_components_ok r :
  rule_wf r →
  flowspec_components r
  = Ret (dst_component (dst r) ++ eq_component 3 (protocol r) ++ eq_component 5 (dst_port r)).
Proof.
  intros (_ & Hproto & Hport & _). unfold flowspec_components, dst_component.
  pose proof (nbytes_of_len (dst r)) as Hn.
  rewrite net_trunc_len. pose proof (net_trunc_v4 (dst r)) as Hf.
  assert (∀ l v, v ≤ u8_max → push_numeric_eq (l ++ [3]) v 1 = l ++ eq_component 3 (Some v)) as H3.
  { intros l v Hv. unfold push_numeric_eq, eq_component. rewrite drop_be_bytes, <-app_assoc.
    by rewrite (proj2 (Z.ltb_lt _ _)) by (unfold u8_max in Hv; lia). }
  assert (∀ l v, push_numeric_eq (l ++ [5]) v (if v <? 256 then 1%nat else 2%nat)
    = l ++ eq_component 5 (Some v)) as H5.
  { intros l v. unfold push_numeric_eq, eq_component. rewrite drop_be_bytes, <-app_assoc.
    by destruct (v <? 256). }
  rewrite <-Hf. unfold packed. destruct (net_addr (net_trunc (dst r))) as [a|a];
    cbn [ip_octets ip_is_v4] in *; rewrite slice_ok by lia; cbn [mbind rust_bind];
    rewrite drop_0, Nat.sub_0_r; change COMP_IP_PROTO with 3; change COMP_DST_PORT with 5;
    f_equal; destruct (protocol r) as [v|], (dst_port r) as [w|];
    rewrite ?H3 by (by apply Hproto); rewrite ?H5; cbn [eq_component];
    rewrite <-?app_assoc, ?app_nil_r; done.
Qed.

Lemma length_eq_component ty o : (length (eq_component ty o) ≤ 4)%nat.
Proof. destruct o as [v|]; simpl; [|lia]. case_match; simpl; lia. Qed.

Lemma length_dst_component p : (length (dst_component p) ≤ 19)%nat.
Proof.
  unfold dst_component. rewrite !length_app. pose proof (length_packed_le p).
  destruct (ip_is_v4 (net_addr p)); simpl; lia.
Qed.

Definition nlri_bytes (r : FlowSpecRule) : list Z :=
  let comps := dst_component (dst r) ++ eq_component 3 (protocol r) ++ eq_component 5 (dst_port r) in
  Z.of_nat (length comps) :: comps.

Lemma length_nlri_bytes r : (length (nlri_bytes r) ≤ 28)%nat.
Proof.
  unfold nlri_bytes. cbn [length]. rewrite !length_app.
  pose proof (length_dst_component (dst r)). pose proof (length_eq_component 3 (protocol r)).
  pose proof (length_eq_component 5 (dst_port r)). lia.
Qed.

Lemma encode_flowspec_nlri_ok r : rule_wf r → encode_flowspec_nlri r = Ret (nlri_bytes r).
Proof.
  intros Hwf. pose proof (length_nlri_bytes r) as Hl. unfold nlri_bytes in *. cbn [length] in Hl.
  unfold encode_flowspec_nlri. rewrite flowspec_components_ok by done. cbn [mbind rust_bind].
  rewrite (proj2 (Z.leb_le _ _)) by (unfold u8_max; lia).
  rewrite (proj2 (Z.ltb_lt _ _)) by lia. done.
Qed.

Lemma parse_dst_component_ok p rest :
  ip_wf (net_addr p) →
  parse_dst_component (ip_is_v4 (net_addr p)) (dst_component p ++ rest) = Some (net_trunc p, rest).
Proof.
  intros Hwf. unfold dst_component. pose proof (net_len_bound p) as Hb.
  pose proof (ip_of_packed p Hwf) as Hip. pose proof (net_trunc_addr p) as Ht.
  change COMP_DST_PREFIX with 1. cbn [app parse_dst_component].
  rewrite (proj2 (Z.leb_le _ _)) by (destruct (net_addr p); simpl in *; lia).
  assert (take_n (nbytes_of (net_prefix_len p)) (packed p ++ rest) = Some (packed p, rest)) as Htn.
  { unfold take_n. rewrite <-length_packed, length_app, (proj2 (Nat.leb_le _ _)) by lia.
    by rewrite take_app_length, drop_app_length. }
  assert (net_new (net_addr (net_trunc p)) (net_prefix_len p) = Some (net_trunc p)) as Hnew.
  { destruct (net_new_ok (net_addr (net_trunc p)) (net_prefix_len p)) as (q & -> & Ha & Hl).
    - rewrite Ht. by destruct (net_addr p).
    - f_equal. apply net_ext; [done|by rewrite net_trunc_len]. }
  destruct (ip_is_v4 (net_addr p)); cbn [app mbind option_bind]; rewrite Htn;
    cbn [mbind option_bind]; rewrite Hip, Hnew; done.
Qed.

Lemma parse_eq_component_ok ty o rest :
  (∀ v, o = Some v → u16_ok v) →
  (o = None → match rest with t :: _ => t ≠ ty | [] => True end) →
  parse_eq_component ty (eq_component ty o ++ rest) = Some (o, rest).
Proof.
  intros Hv Hn. destruct o as [v|]; cbn [eq_component app].
  - specialize (Hv v eq_refl). unfold u16_ok, u16_max in Hv.
    destruct (Z.ltb_spec v 256); cbn [app parse_eq_component]; rewrite Z.eqb_refl.
    + change (Z.land 129 207 =? 129) with true. cbv iota.
      change (Z.to_nat (2 ^ Z.land (Z.shiftr 129 4) 3)) with 1%nat.
      unfold take_n. rewrite length_app, length_be_bytes, (proj2 (Nat.leb_le _ _)) by lia.
      cbn [mbind option_bind].
      rewrite take_app_length', drop_app_length' by (by rewrite length_be_bytes).
      rewrite be_value_be_bytes_small by (change (256 ^ Z.of_nat 1) with 256; lia). done.
    + change (Z.land 145 207 =? 129) with true. cbv iota.
      change (Z.to_nat (2 ^ Z.land (Z.shiftr 145 4) 3)) with 2%nat.
      unfold take_n. rewrite length_app, length_be_bytes, (proj2 (Nat.leb_le _ _)) by lia.
      cbn [mbind option_bind].
      rewrite take_app_length', drop_app_length' by (by rewrite length_be_bytes).
      rewrite be_value_be_bytes_small by (change (256 ^ Z.of_nat 2) with 65536; lia). done.
  - specialize (Hn eq_refl). unfold parse_eq_component. destruct rest as [|t [|op rest]]; try done.
    by rewrite (proj2 (Z.eqb_neq _ _)).
Qed.

(** The NLRI is read back as the traffic it matches. *)
Lemma parse_nlri_bytes r :
  rule_wf r →
  parse_flowspec_nlri (ip_is_v4 (net_addr (dst r))) (nlri_bytes r) = Some (nlri_id r).
Proof.
  intros (Hwf & Hproto & Hport & _). pose proof (length_nlri_bytes r) as Hl.
  unfold nlri_bytes, parse_flowspec_nlri, parse_nlri_len in *. cbn [length] in Hl.
  rewrite (proj2 (Z.ltb_lt _ _)), Z.eqb_refl by lia. cbn [mbind option_bind].
  rewrite parse_dst_component_ok by done. cbn [mbind option_bind].
  rewrite parse_eq_component_ok; cbn [mbind option_bind].
  - rewrite <-(app_nil_r (eq_component 5 _)), parse_eq_component_ok by done. done.
  - intros v Hv%Hproto. unfold u16_ok, u8_max, u16_max in *. lia.
  - intros _. destruct (dst_port r); [|done]. cbn [eq_component]. by destruct (_ <? 256).
Qed.

(** ** The messages *)

Lemma receive_flowspec_update body :
  (length body ≤ 4077)%nat →
  ∃ bytes, encode_header 2 body = Ret bytes ∧ receive_flowspec bytes = receive_flowspec_body body.
Proof.
  intros Hl. eexists. split; [apply encode_header_ok; lia|]. unfold receive_flowspec.
  pose proof (decode_framed 2 body [] Hl) as Hd. cbv zeta in Hd. rewrite app_nil_r in Hd.
  rewrite Hd. cbn [from_code Z.eqb Pos.eqb mbind rust_bind].
  rewrite !length_app, length_be_bytes. cbn [length].
  by rewrite (proj2 (Nat.eqb_eq _ _)) by (simpl; lia).
Qed.

Lemma flowspec_family_afi r : flowspec_family (afi_of r) 133 = Some (ip_is_v4 (net_addr (dst r))).
Proof. unfold flowspec_family, afi_of. by destruct (net_addr (dst r)). Qed.

Lemma take_afi r l : take_u16 (be_bytes 2 (afi_of r) ++ l) = Some (afi_of r, l).
Proof. unfold afi_of. by destruct (net_addr (dst r)). Qed.

Lemma parse_traffic_rate_ok rate :
  valid_binary 24 128 rate = true → parse_traffic_rate (traffic_rate_community rate) = Some rate.
Proof.
  intros Hv. pose proof (f32_bits_bound rate Hv) as Hb. unfold traffic_rate_community.
  rewrite be_bytes_4. cbn [app parse_traffic_rate]. rewrite <-be_bytes_4.
  rewrite be_value_be_bytes_small by (change (256 ^ Z.of_nat 4) with (2 ^ 32); lia).
  by rewrite f32_of_bits_bits.
Qed.

Definition flowspec_attrs (r : FlowSpecRule) : list (Z * Z * list Z) :=
  let 'TrafficRate rate := action r in
  [(FLAG_WELL_KNOWN, ATTR_ORIGIN, [0]); (FLAG_WELL_KNOWN, ATTR_AS_PATH, []);
   (FLAG_OPT_TRANS, ATTR_EXTENDED_COMMUNITIES, traffic_rate_community rate);
   (FLAG_OPT_NON_TRANS, ATTR_MP_REACH_NLRI,
    be_bytes 2 (afi_of r) ++ [SAFI_FLOWSPEC; 0; 0] ++ nlri_bytes r)].

Lemma flowspec_attrs_ok r :
  Forall attr_ok (flowspec_attrs r) ∧
  forallb (λ x : Z * Z * list Z, x.1.1 =? attr_class x.1.2) (flowspec_attrs r) = true ∧
  (length (concat (attr_bytes <$> flowspec_attrs r)) ≤ 100)%nat.
Proof.
  pose proof (length_nlri_bytes r) as Hl. unfold flowspec_attrs. destruct (action r) as [rate].
  assert (length (traffic_rate_community rate) = 8%nat) as Ht
    by (unfold traffic_rate_community; by rewrite length_app, length_be_bytes).
  set (m := be_bytes 2 (afi_of r) ++ _).
  assert (length m ≤ 33)%nat as Hm
    by (subst m; rewrite !length_app, length_be_bytes; cbn [length]; lia).
  split_and!; [|done|].
  - rewrite !Forall_cons, Forall_nil. unfold attr_ok, u16_max. cbn [fst snd].
    split_and!; try (by auto); cbn [length]; lia.
  - cbn [fmap list_fmap concat]. rewrite app_nil_r, !length_app.
    pose proof (length_attr_bytes FLAG_WELL_KNOWN ATTR_ORIGIN [0]).
    pose proof (length_attr_bytes FLAG_WELL_KNOWN ATTR_AS_PATH []).
    pose proof (length_attr_bytes FLAG_OPT_TRANS ATTR_EXTENDED_COMMUNITIES
      (traffic_rate_community rate)).
    pose proof (length_attr_bytes FLAG_OPT_NON_TRANS ATTR_MP_REACH_NLRI m). cbn [length] in *. lia.
Qed.

Lemma build_flowspec_announce_ok r :
  rule_wf r →
  build_flowspec_announce r = encode_header 2 (be_bytes 2 0 ++
    be_bytes 2 (Z.of_nat (length (concat (attr_bytes <$> flowspec_attrs r)))) ++
    concat (attr_bytes <$> flowspec_attrs r)).
Proof.
  intros Hwf. destruct (flowspec_attrs_ok r) as (Hok & _ & Hlen).
  unfold build_flowspec_announce, flowspec_attrs in *. rewrite encode_flowspec_nlri_ok by done.
  destruct (action r) as [rate]. rewrite !Forall_cons in Hok. cbn [mbind rust_bind origin_wire].
  destruct Hok as ((_ & H1) & (_ & H2) & (_ & H3) & (_ & H4) & _). cbn [snd] in *.
  rewrite push_attr_ok by done. cbn [mbind rust_bind]. rewrite push_attr_ok by done.
  cbn [mbind rust_bind]. rewrite push_attr_ok by done. cbn [mbind rust_bind].
  rewrite push_attr_ok by done. cbn [mbind rust_bind].
  cbn [fmap list_fmap concat app] in *. rewrite ?app_nil_r, <-?app_assoc in *.
  unfold u16_expect. by rewrite (proj2 (Z.leb_le _ _)) by (unfold u16_max; lia).
Qed.

(** An announced FlowSpec rule arrives intact: the encoder does not panic
    and a standards-following receiver reads an announcement for exactly the
    traffic the rule matches, destination, protocol and port, each present or
    absent as in the rule, with exactly its rate; for IPv4 and IPv6. *)
Theorem flowspec_announce_received r :
  rule_wf r →
  ∃ bytes, build_flowspec_announce r = Ret bytes ∧
    receive_flowspec bytes
    = Some (FsAnnounced (nlri_id r) (let 'TrafficRate rate := action r in rate)).
Proof.
  intros Hwf. rewrite build_flowspec_announce_ok by done.
  destruct (flowspec_attrs_ok r) as (Hok & Hcl & Hlen).
  edestruct receive_flowspec_update as (bytes & -> & Hrx); [rewrite !length_app, !length_be_bytes; lia|].
  exists bytes. split; [done|]. rewrite Hrx. unfold receive_flowspec_body.
  pose proof (parse_update_ok [] (flowspec_attrs r) []) as Hpu.
  cbn [length app] in Hpu. change (Z.of_nat 0) with 0 in Hpu. rewrite app_nil_r in Hpu.
  rewrite Hpu by (done || lia). clear Hpu. cbn [mbind option_bind].
  pose proof (parse_nlri_bytes r Hwf) as Hn. destruct Hwf as (_ & _ & _ & Hv).
  unfold flowspec_attrs. destruct (action r) as [rate]. cbn [attr_value].
  repeat match goal with
  | |- context [if ?t =? ?u then _ else _] => first
      [change (t =? u) with true | change (t =? u) with false]; cbv iota
  end.
  unfold parse_mp_reach. rewrite take_afi. cbn [app mbind option_bind]. unfold take_n.
  change (Z.to_nat 0) with 0%nat. cbn [Nat.leb take drop mbind option_bind].
  change SAFI_FLOWSPEC with 133. rewrite flowspec_family_afi. cbn [parse_origin mbind option_bind].
  rewrite parse_traffic_rate_ok by done. cbn [mbind option_bind]. by rewrite Hn.
Qed.

(** A FlowSpec withdrawal names the traffic of the rule, whatever its
    action: the receiver reads the withdrawal of exactly the traffic that the
    announcement of any rule with the same match announced. *)
Theorem flowspec_withdraw_received r :
  rule_wf r →
  ∃ bytes, build_flowspec_withdraw r = Ret bytes ∧
    receive_flowspec bytes = Some (FsWithdrawn (nlri_id r)).
Proof.
  intros Hwf. pose proof (length_nlri_bytes r) as Hl. unfold build_flowspec_withdraw.
  rewrite encode_flowspec_nlri_ok by done. cbn [mbind rust_bind].
  set (v := be_bytes 2 (afi_of r) ++ [SAFI_FLOWSPEC] ++ nlri_bytes r).
  assert (length v ≤ 31)%nat as Hv
    by (subst v; rewrite !length_app, length_be_bytes; cbn [length]; lia).
  rewrite push_attr_ok by (unfold u16_max; lia). cbn [mbind rust_bind app].
  pose proof (length_attr_bytes FLAG_OPT_NON_TRANS ATTR_MP_UNREACH_NLRI v) as Hab.
  unfold u16_expect. rewrite (proj2 (Z.leb_le _ _)) by (unfold u16_max; lia).
  cbn [mbind rust_bind].
  edestruct receive_flowspec_update as (bytes & -> & Hrx); [rewrite !length_app, !length_be_bytes; lia|].
  exists bytes. split; [done|]. rewrite Hrx. unfold receive_flowspec_body.
  pose proof (parse_update_ok [] [(FLAG_OPT_NON_TRANS, ATTR_MP_UNREACH_NLRI, v)] []) as Hpu.
  cbn [fmap list_fmap concat length app] in Hpu. change (Z.of_nat 0) with 0 in Hpu.
  rewrite !app_nil_r in Hpu. rewrite Hpu; [|by apply Forall_singleton; split; [auto|
    unfold u16_max; cbn [snd]; lia]|done|lia|lia].
  cbn [mbind option_bind attr_value]. change (ATTR_MP_UNREACH_NLRI =? ATTR_MP_REACH_NLRI) with false.
  change (ATTR_MP_UNREACH_NLRI =? ATTR_MP_UNREACH_NLRI) with true. cbv iota.
  unfold parse_mp_unreach, v. rewrite take_afi. cbn [app mbind option_bind].
  change SAFI_FLOWSPEC with 133. rewrite flowspec_family_afi. cbn [mbind option_bind].
  by rewrite parse_nlri_bytes.
Qed.

(** The NLRI is the identity of a rule on the wire: two well-formed rules
    encode to the same NLRI exactly when they match the same traffic. *)
Theorem flowspec_nlri_identity r1 r2 :
  rule_wf r1 → rule_wf r2 → ip_is_v4 (net_addr (dst r1)) = ip_is_v4 (net_addr (dst r2)) →
  encode_flowspec_nlri r1 = encode_flowspec_nlri r2 ↔ nlri_id r1 = nlri_id r2.
Proof.
  intros H1 H2 Hf. rewrite !encode_flowspec_nlri_ok by done. split.
  - intros He. apply (f_equal (λ m, match m with Ret l => l | _ => [] end)) in He. cbv beta iota in He.
    pose proof (parse_nlri_bytes r1 H1) as P1. pose proof (parse_nlri_bytes r2 H2) as P2.
    rewrite Hf, He in P1. congruence.
  - unfold nlri_id. intros [= Hd Hp Hq]. f_equal. unfold nlri_bytes, dst_component, packed.
    rewrite Hp, Hq, Hf, Hd. by rewrite <-(net_trunc_len (dst r1)), Hd, net_trunc_len.
Qed.
End flowspec.

(** ** Examples *)

#[local] Existing Instance RefNet.lib.

Definition ex_wire_rule (port : Z) : FlowSpecRule := {|
  dst := RefNet.net4 203 0 113 7 32; protocol := Some 17; dst_port := Some port;
  action := TrafficRate f32_zero |}.

(** A one-octet and a two-octet port. *)
Lemma ex_wire_nlri :
  encode_flowspec_nlri (ex_wire_rule 53) = Ret [12; 1; 32; 203; 0; 113; 7; 3; 129; 17; 5; 129; 53] ∧
  encode_flowspec_nlri (ex_wire_rule 8080)
  = Ret [13; 1; 32; 203; 0; 113; 7; 3; 129; 17; 5; 145; 31; 144].
Proof. split; vm_refl. Qed.

Lemma ex_wire_rule_wf port : u16_ok port → rule_wf (ex_wire_rule port).
Proof.
  intros Hp. split_and!.
  - assert (net_addr (dst (ex_wire_rule port)) = V4 3405803783) as -> by vm_refl.
    unfold ip_wf. simpl. lia.
  - intros v [= <-]. unfold u8_max. lia.
  - by intros v [= <-].
  - done.
Qed.

Lemma flowspec_announce_received_witness :
  ∃ bytes, build_flowspec_announce (ex_wire_rule 53) = Ret bytes ∧
    receive_flowspec bytes = Some (FsAnnounced (nlri_id (ex_wire_rule 53)) f32_zero).
Proof.
  apply (flowspec_announce_received (ex_wire_rule 53)). apply ex_wire_rule_wf. split; discriminate.
Defined.

Lemma flowspec_withdraw_received_witness :
  ∃ bytes, build_flowspec_withdraw (ex_wire_rule 8080) = Ret bytes ∧
    receive_flowspec bytes = Some (FsWithdrawn (nlri_id (ex_wire_rule 8080))).
Proof.
  apply (flowspec_withdraw_received (ex_wire_rule 8080)). apply ex_wire_rule_wf. split; discriminate.
Defined.

Lemma flowspec_nlri_identity_witness :
  encode_flowspec_nlri (ex_wire_rule 53) = encode_flowspec_nlri (ex_wire_rule 54) ↔
  nlri_id (ex_wire_rule 53) = nlri_id (ex_wire_rule 54).
Proof.
  apply (flowspec_nlri_identity (ex_wire_rule 53) (ex_wire_rule 54)).
  - apply ex_wire_rule_wf. split; discriminate.
  - apply ex_wire_rule_wf. split; discriminate.
  - reflexivity.
Defined.
