(* ===== verification/BgpSession.v ===== *)
(** * The BGP session

    Model of [crates/blackwall-bgp/src/session_net.rs] and of the executor
    [crates/blackwall-rtbh/src/lib.rs] builds on its handle: the task that
    keeps one iBGP session up, the set of routes and FlowSpec rules it
    advertises, and the channel through which the mitigation managers feed it.

    The task is a state machine. A [Phase] is the point of [run] /
    [session_once] / [established_loop] at which the task waits, with the local
    variables alive there; an [Event] is what ends the wait (the outcome of the
    connect, bytes, an expired timer, a command) together with the outcomes of
    the writes made before the next wait. Any sequence of events is a run:
    whatever the scheduler, the peer and the network do is one of them.

    Everything written to the socket is kept as bytes. What the peer makes of
    them is computed by the receivers of [BgpUpdate] and [BgpFlowSpec], which
    are written from the standards and know nothing of this encoder. *)
From stdpp Require Import prelude gmap strings.
From S2P Require Import Prelude Net Float Executor Bytes BgpMessage BgpUpdate BgpFlowSpec.

Open Scope Z_scope.

(** ** Configuration *)

Record PeerConfig := {
  local_asn : Z;
  peer_asn : Z;
  peer_addr : IpAddr * Z;
  cfg_router_id : Z;
  cfg_hold_time : Z;
  md5 : option string;
  gtsm_hops : option Z;
  local_addr : option IpAddr;
}.

Inductive PeerConfigError : Type :=
| NotIbgp (local peer : Z)
| BadHoldTime (h : Z)
| BadGtsmHops.

Definition validate (c : PeerConfig) : result unit PeerConfigError :=
  if negb (local_asn c =? peer_asn c) then Err (NotIbgp (local_asn c) (peer_asn c))
  else if (cfg_hold_time c =? 1) || (cfg_hold_time c =? 2) then Err (BadHoldTime (cfg_hold_time c))
  else if bool_decide (gtsm_hops c = Some 0) then Err BadGtsmHops
  else Ok ().

(** The floor on the TTL of received packets that [set_gtsm] installs. *)
Definition gtsm_min_ttl (hops : Z) : Z := Z.max (256 - hops) 1.

(** ** Capability gating *)

Inductive AnnounceSafi : Type := Ipv4Unicast | Ipv6Unicast | FlowSpecV4 | FlowSpecV6.

Definition announce_allowed (peer : OpenMsg) (safi : AnnounceSafi) : bool :=
  match safi with
  | Ipv4Unicast => true
  | Ipv6Unicast => ipv6_unicast peer
  | FlowSpecV4 => flowspec_v4 peer
  | FlowSpecV6 => flowspec_v6 peer
  end.

Definition safi_label (safi : AnnounceSafi) : string :=
  match safi with
  | Ipv4Unicast => "ipv4_unicast"
  | Ipv6Unicast => "ipv6_unicast"
  | FlowSpecV4 => "flowspec_v4"
  | FlowSpecV6 => "flowspec_v6"
  end.

Record UnnegotiatedSkipCounts := {
  sk_flowspec_v4 : Z;
  sk_flowspec_v6 : Z;
  sk_ipv6_unicast : Z;
}.

(** [AtomicU64::fetch_add(1)] wraps around. *)
Definition atomic_incr (c : Z) : Z := (c + 1) mod 2 ^ 64.

Definition skip_record (safi : AnnounceSafi) (c : UnnegotiatedSkipCounts) : UnnegotiatedSkipCounts :=
  match safi with
  | FlowSpecV4 => {| sk_flowspec_v4 := atomic_incr (sk_flowspec_v4 c);
                     sk_flowspec_v6 := sk_flowspec_v6 c; sk_ipv6_unicast := sk_ipv6_unicast c |}
  | FlowSpecV6 => {| sk_flowspec_v4 := sk_flowspec_v4 c;
                     sk_flowspec_v6 := atomic_incr (sk_flowspec_v6 c);
                     sk_ipv6_unicast := sk_ipv6_unicast c |}
  | Ipv6Unicast => {| sk_flowspec_v4 := sk_flowspec_v4 c; sk_flowspec_v6 := sk_flowspec_v6 c;
                      sk_ipv6_unicast := atomic_incr (sk_ipv6_unicast c) |}
  | Ipv4Unicast => c
  end.

(** ** Timing *)

(** Milliseconds of [Duration::from_secs]. *)
Definition from_secs (s : Z) : Z := s * 1000.

(** [1u64.checked_shl(n)] is [None] from 64 on and drops the bits shifted out. *)
Definition backoff_delay (consecutive_failures : Z) : Z :=
  let secs := Z.min (if consecutive_failures <? 64 then 2 ^ consecutive_failures else u64_max) 30 in
  from_secs secs.

Definition READ_BUF_LIMIT : nat := Z.to_nat 65536.

(** The bound on the wait for the peer's confirmation. *)
Definition confirm_timeout (hold_secs : Z) : Z :=
  if hold_secs =? 0 then from_secs 240 else from_secs hold_secs.

Definition ka_interval (hold_secs : Z) : option Z :=
  if hold_secs =? 0 then None else Some (from_secs (Z.max (hold_secs / 3) 1)).

Definition hold_dur (hold_secs : Z) : option Z :=
  if hold_secs =? 0 then None else Some (from_secs hold_secs).

(** [d.map(|d| Instant::now() + d)] *)
Definition deadline (now : Z) (d : option Z) : option Z := (λ d, now + d) <$> d.

(** ** Outcomes *)

Inductive SessionOutcome : Type :=
| Reconnect (msg : string)
| CommandsExhausted.

(** How a piece of the session code ends: it goes on, it returns an outcome
    from [session_once], or an encoder panics. *)
Inductive Flow : Type :=
| Next
| Return (o : SessionOutcome)
| Unwind.

(** ** Framing

    The loop that consumes the complete messages at the front of the buffer,
    which the source has three times (handshake, confirmation, established),
    each with its own treatment of a message: [on_msg] says whether the loop
    goes on, with an updated local, or ends. *)
Inductive Turn (A R : Type) : Type :=
| Again (a : A)
| Leave (r : R).
#[global] Arguments Again {A R}.
#[global] Arguments Leave {A R}.

(** The loop breaks for want of bytes, or a message (or an error) ends it. *)
Inductive FrameEnd (A R : Type) : Type :=
| NeedMore (buf : list Z) (a : A)
| Ended (buf : list Z) (r : R).
#[global] Arguments NeedMore {A R}.
#[global] Arguments Ended {A R}.

Section framing.
Context {A R : Type}.
Variable on_err : R.
Variable on_panic : R.
Variable on_msg : BgpMessage → A → Turn A R.

Fixpoint frame_loop (fuel : nat) (buf : list Z) (a : A) : FrameEnd A R :=
  match fuel with
  | O => NeedMore buf a
  | S fuel =>
      if (length buf <? HEADER_LEN)%nat then NeedMore buf a
      else match parse_header buf with
           | Ret (_, total_len) =>
               if (length buf <? total_len)%nat then NeedMore buf a
               else match frame ← slice buf 0 total_len; decode_message frame with
                    | Ret (msg, _) =>
                        match on_msg msg a with
                        | Again a' => frame_loop fuel (drop total_len buf) a'
                        | Leave r => Ended (drop total_len buf) r
                        end
                    | Fail_ _ => Ended buf on_err
                    | Panic => Ended buf on_panic
                    end
           | Fail_ _ => Ended buf on_err
           | Panic => Ended buf on_panic
           end
  end.

(** Every message has at least one byte: the length of the buffer is enough. *)
Definition frames (buf : list Z) (a : A) : FrameEnd A R := frame_loop (length buf) buf a.
End framing.

(** ** The state of the task *)

Inductive SessionState : Type := Idle | Connecting | Established.

Section session.
Context `{IpNetLib} `{HashOrder}.

Definition for_route (p : IpNet) : AnnounceSafi :=
  match net_addr p with V4 _ => Ipv4Unicast | V6 _ => Ipv6Unicast end.

Definition for_flowspec (d : IpNet) : AnnounceSafi :=
  match net_addr d with V4 _ => FlowSpecV4 | V6 _ => FlowSpecV6 end.

Inductive SessionCommand : Type :=
| Announce (r : Route)
| Withdraw (p : IpNet)
| AnnounceFlowSpec (r : FlowSpecRule)
| WithdrawFlowSpec (r : FlowSpecRule).

(** Where the task waits. [AtConnect]: the TCP connect; [AtOpen]: a read, for
    the peer's OPEN; [AtConfirm]: a read bounded by [timeout], for the peer's
    confirmation; [AtEstablished]: the [select!]; [AtBackoff]: the sleep before
    a reconnect; [AtExit]: [run] has returned; [AtPanic]: the task panicked. *)
Inductive Phase : Type :=
| AtConnect
| AtOpen (buf : list Z)
| AtConfirm (buf : list Z) (peer_open : OpenMsg) (hold_secs : Z) (until : Z)
| AtEstablished (buf : list Z) (peer_open : OpenMsg) (hold_secs : Z)
    (ka_deadline hold_deadline : option Z)
| AtBackoff (until : Z)
| AtExit
| AtPanic.

(** [ss_queue] is the command channel in order of arrival. It holds 256
    commands; a sender that finds it full waits, and is served in order, so
    waiting senders are counted as queued (the task cannot exit while one
    waits: a waiting sender keeps the channel open).
    [ss_sent] is what was written on the current connection, one element per
    [write_all]; [ss_consumed], the commands taken from the channel so far, is
    not a variable of the program. *)
Record Session := mk_Session {
  ss_phase : Phase;
  ss_active : gmap IpNet Route;
  ss_active_flowspec : gmap (list Z) FlowSpecRule;
  ss_consecutive_failures : Z;
  ss_reconnects : Z;
  ss_state : SessionState;
  ss_skipped : UnnegotiatedSkipCounts;
  ss_queue : list SessionCommand;
  ss_closed : bool;
  ss_sent : list (list Z);
  ss_consumed : list SessionCommand;
}.

(** Assignments to one variable. *)
Definition set_phase ph s := mk_Session ph (ss_active s) (ss_active_flowspec s)
  (ss_consecutive_failures s) (ss_reconnects s) (ss_state s) (ss_skipped s) (ss_queue s)
  (ss_closed s) (ss_sent s) (ss_consumed s).
Definition set_active m s := mk_Session (ss_phase s) m (ss_active_flowspec s)
  (ss_consecutive_failures s) (ss_reconnects s) (ss_state s) (ss_skipped s) (ss_queue s)
  (ss_closed s) (ss_sent s) (ss_consumed s).
Definition set_active_flowspec m s := mk_Session (ss_phase s) (ss_active s) m
  (ss_consecutive_failures s) (ss_reconnects s) (ss_state s) (ss_skipped s) (ss_queue s)
  (ss_closed s) (ss_sent s) (ss_consumed s).
Definition set_failures n s := mk_Session (ss_phase s) (ss_active s) (ss_active_flowspec s)
  n (ss_reconnects s) (ss_state s) (ss_skipped s) (ss_queue s)
  (ss_closed s) (ss_sent s) (ss_consumed s).
Definition set_reconnects n s := mk_Session (ss_phase s) (ss_active s) (ss_active_flowspec s)
  (ss_consecutive_failures s) n (ss_state s) (ss_skipped s) (ss_queue s)
  (ss_closed s) (ss_sent s) (ss_consumed s).
Definition set_state st s := mk_Session (ss_phase s) (ss_active s) (ss_active_flowspec s)
  (ss_consecutive_failures s) (ss_reconnects s) st (ss_skipped s) (ss_queue s)
  (ss_closed s) (ss_sent s) (ss_consumed s).
Definition set_skipped c s := mk_Session (ss_phase s) (ss_active s) (ss_active_flowspec s)
  (ss_consecutive_failures s) (ss_reconnects s) (ss_state s) c (ss_queue s)
  (ss_closed s) (ss_sent s) (ss_consumed s).
Definition set_queue q s := mk_Session (ss_phase s) (ss_active s) (ss_active_flowspec s)
  (ss_consecutive_failures s) (ss_reconnects s) (ss_state s) (ss_skipped s) q
  (ss_closed s) (ss_sent s) (ss_consumed s).
Definition set_closed b s := mk_Session (ss_phase s) (ss_active s) (ss_active_flowspec s)
  (ss_consecutive_failures s) (ss_reconnects s) (ss_state s) (ss_skipped s) (ss_queue s)
  b (ss_sent s) (ss_consumed s).
Definition set_sent l s := mk_Session (ss_phase s) (ss_active s) (ss_active_flowspec s)
  (ss_consecutive_failures s) (ss_reconnects s) (ss_state s) (ss_skipped s) (ss_queue s)
  (ss_closed s) l (ss_consumed s).

(** Taking the first command off the channel. *)
Definition take_command c q s := mk_Session (ss_phase s) (ss_active s) (ss_active_flowspec s)
  (ss_consecutive_failures s) (ss_reconnects s) (ss_state s) (ss_skipped s) q
  (ss_closed s) (ss_sent s) (ss_consumed s ++ [c]).

(** What [spawn] starts: nothing queued, and [run] has published [Connecting]
    and waits for its first connect. *)
Definition spawned : Session := {|
  ss_phase := AtConnect; ss_active := ∅; ss_active_flowspec := ∅; ss_consecutive_failures := 0;
  ss_reconnects := 0; ss_state := Connecting;
  ss_skipped := {| sk_flowspec_v4 := 0; sk_flowspec_v6 := 0; sk_ipv6_unicast := 0 |};
  ss_queue := []; ss_closed := false; ss_sent := []; ss_consumed := [] |}.

Definition spawn (cfg : PeerConfig) : result Session PeerConfigError :=
  match validate cfg with Ok _ => Ok spawned | Err e => Err e end.

(** ** The handle *)

Inductive BgpSendError : Type := mk_BgpSendError.

Definition receiver_dropped (s : Session) : bool :=
  match ss_phase s with AtExit | AtPanic => true | _ => false end.

(** [Sender::send] *)
Definition send (c : SessionCommand) : M Session (result unit BgpSendError) := λ s,
  if receiver_dropped s then (Err mk_BgpSendError, s) else (Ok (), set_queue (ss_queue s ++ [c]) s).

Definition handle_announce (r : Route) : M Session (result unit BgpSendError) := send (Announce r).
Definition handle_withdraw (p : IpNet) : M Session (result unit BgpSendError) := send (Withdraw p).
Definition handle_announce_flowspec (r : FlowSpecRule) : M Session (result unit BgpSendError) :=
  send (AnnounceFlowSpec r).
Definition handle_withdraw_flowspec (r : FlowSpecRule) : M Session (result unit BgpSendError) :=
  send (WithdrawFlowSpec r).

(** [map_err] to the error of the executor trait. *)
Definition to_bgp_error (m : M Session (result unit BgpSendError)) : M Session (result unit BgpError) :=
  r ← m; mret (match r with Ok u => Ok u | Err _ => Err mk_BgpError end).

(** [impl BgpExecutor for BgpHandle] *)
#[export] Instance BgpHandle_exec : BgpExecutor Session := {|
  bgp_announce r := to_bgp_error (handle_announce r);
  bgp_withdraw p := to_bgp_error (handle_withdraw p);
  bgp_announce_flowspec r := to_bgp_error (handle_announce_flowspec r);
  bgp_withdraw_flowspec r := to_bgp_error (handle_withdraw_flowspec r);
|}.

(** ** The session task *)

(** [m] and then, unless it returned from [session_once], [k]. *)
Definition and_then (m k : M Session Flow) : M Session Flow :=
  f ← m; match f with Next => k | _ => mret f end.

(** A packet (or a key) built before it is used: an encoder that panics
    unwinds the task. *)
Definition with_packet (pkt : rust DecodeError (list Z)) (k : list Z → M Session Flow)
    : M Session Flow :=
  match pkt with Ret b => k b | _ => mret Unwind end.

(** [stream.write_all(pkt)], failing with [msg]; [ok] is its outcome. *)
Definition write_all (b : list Z) (ok : bool) (msg : string) : M Session Flow :=
  if ok then modify (λ s, set_sent (ss_sent s ++ [b]) s);; mret Next
  else mret (Return (Reconnect msg)).

(** The outcomes of the writes made between two waits, in order; those not
    listed succeed. *)
Definition ok1 (ws : list bool) : bool := default true (head ws).

Definition skip (safi : AnnounceSafi) : M Session unit :=
  modify (λ s, set_skipped (skip_record safi (ss_skipped s)) s).

(** [drain_commands]: one command of the channel, without a session. *)
Definition absorb (c : SessionCommand) : M Session Flow :=
  match c with
  | Announce r => modify (λ s, set_active (<[prefix r := r]> (ss_active s)) s);; mret Next
  | Withdraw p => modify (λ s, set_active (delete p (ss_active s)) s);; mret Next
  | AnnounceFlowSpec r =>
      with_packet (encode_flowspec_nlri r) (λ key,
        modify (λ s, set_active_flowspec (<[key := r]> (ss_active_flowspec s)) s);; mret Next)
  | WithdrawFlowSpec r =>
      with_packet (encode_flowspec_nlri r) (λ key,
        modify (λ s, set_active_flowspec (delete key (ss_active_flowspec s)) s);; mret Next)
  end.

Fixpoint drain_loop (q : list SessionCommand) : M Session Flow :=
  match q with
  | [] => mret Next
  | c :: q => modify (take_command c q);; and_then (absorb c) (drain_loop q)
  end.

Definition drain_commands : M Session Flow := q ← gets ss_queue; drain_loop q.

(** [run]: what follows the return of [session_once]. *)
Definition conclude (now : Z) (f : Flow) : M Session unit :=
  match f with
  | Next => mret ()
  | Unwind => modify (set_phase AtPanic)
  | Return (Reconnect _) =>
      modify (set_state Connecting);;
      modify (λ s, set_reconnects (atomic_incr (ss_reconnects s)) s);;
      modify (λ s, set_failures (sat_add u32_max (ss_consecutive_failures s) 1) s);;
      n ← gets ss_consecutive_failures;
      let delay := backoff_delay n in
      d ← drain_commands;
      match d with
      | Next => modify (set_phase (AtBackoff (now + delay)))
      | _ => modify (set_phase AtPanic)
      end
  | Return CommandsExhausted => modify (set_state Idle);; modify (set_phase AtExit)
  end.

(** *** The established session *)

Definition est_on_msg (now hold_secs : Z) (msg : BgpMessage) (hold_deadline : option Z)
    : Turn (option Z) Flow :=
  match msg with
  | Keepalive | Update => Again (deadline now (hold_dur hold_secs))
  | Notification n => Leave (Return (Reconnect "peer sent NOTIFICATION"))
  | Open _ => Again hold_deadline
  end.

(** The top of the loop of [established_loop], up to its [select!]. *)
Definition established_top (now : Z) (buf : list Z) (peer_open : OpenMsg) (hold_secs : Z)
    (ka_deadline hold_deadline : option Z) : M Session Flow :=
  match frames (Return (Reconnect "frame decode error")) Unwind (est_on_msg now hold_secs)
          buf hold_deadline with
  | NeedMore buf hold_deadline =>
      modify (set_phase (AtEstablished buf peer_open hold_secs ka_deadline hold_deadline));;
      mret Next
  | Ended _ f => mret f
  end.

(** The command arms of the [select!]. *)
Definition handle_command (peer_open : OpenMsg) (ok : bool) (c : SessionCommand) : M Session Flow :=
  match c with
  | Announce r =>
      let safi := for_route (prefix r) in
      if negb (announce_allowed peer_open safi) then
        skip safi;;
        modify (λ s, set_active (<[prefix r := r]> (ss_active s)) s);; mret Next
      else
        with_packet (build_announce r) (λ pkt,
          modify (λ s, set_active (<[prefix r := r]> (ss_active s)) s);;
          write_all pkt ok "announce write failed")
  | Withdraw p =>
      modify (λ s, set_active (delete p (ss_active s)) s);;
      let safi := for_route p in
      if negb (announce_allowed peer_open safi) then skip safi;; mret Next
      else with_packet (build_withdraw p) (λ pkt, write_all pkt ok "withdraw write failed")
  | AnnounceFlowSpec r =>
      with_packet (encode_flowspec_nlri r) (λ key,
        let safi := for_flowspec (dst r) in
        if negb (announce_allowed peer_open safi) then
          skip safi;;
          modify (λ s, set_active_flowspec (<[key := r]> (ss_active_flowspec s)) s);; mret Next
        else
          with_packet (build_flowspec_announce r) (λ pkt,
            modify (λ s, set_active_flowspec (<[key := r]> (ss_active_flowspec s)) s);;
            write_all pkt ok "FlowSpec announce write failed"))
  | WithdrawFlowSpec r =>
      with_packet (encode_flowspec_nlri r) (λ key,
        modify (λ s, set_active_flowspec (delete key (ss_active_flowspec s)) s);;
        let safi := for_flowspec (dst r) in
        if negb (announce_allowed peer_open safi) then skip safi;; mret Next
        else with_packet (build_flowspec_withdraw r) (λ pkt,
               write_all pkt ok "FlowSpec withdraw write failed"))
  end.

(** Step 5 of [session_once]: the active set is announced to a new peer. *)
Fixpoint reannounce (peer_open : OpenMsg) (rs : list Route) (ws : list bool) : M Session Flow :=
  match rs with
  | [] => mret Next
  | r :: rs =>
      let safi := for_route (prefix r) in
      if negb (announce_allowed peer_open safi) then skip safi;; reannounce peer_open rs ws
      else and_then (with_packet (build_announce r) (λ pkt,
                       write_all pkt (ok1 ws) "re-announce write failed"))
             (reannounce peer_open rs (tail ws))
  end.

Fixpoint reannounce_flowspec (peer_open : OpenMsg) (rs : list FlowSpecRule) (ws : list bool)
    : M Session Flow :=
  match rs with
  | [] => mret Next
  | r :: rs =>
      let safi := for_flowspec (dst r) in
      if negb (announce_allowed peer_open safi) then skip safi;; reannounce_flowspec peer_open rs ws
      else and_then (with_packet (build_flowspec_announce r) (λ pkt,
                       write_all pkt (ok1 ws) "FlowSpec re-announce write failed"))
             (reannounce_flowspec peer_open rs (tail ws))
  end.

(** The confirmation of the OPEN and the announcement of the active sets.
    [ws] and [ws'] are the outcomes of the writes of routes and of rules. *)
Definition announce_active (peer_open : OpenMsg) (ws ws' : list bool) : M Session Flow :=
  modify (set_failures 0);;
  modify (set_state Established);;
  routes ← gets (λ s, (hm_iter (ss_active s)).*2);
  rules ← gets (λ s, (hm_iter (ss_active_flowspec s)).*2);
  and_then (reannounce peer_open routes ws) (reannounce_flowspec peer_open rules ws').

(** From the peer's confirmation to the first [select!]. *)
Definition establish (now : Z) (buf : list Z) (peer_open : OpenMsg) (hold_secs : Z)
    (ws ws' : list bool) : M Session Flow :=
  and_then (announce_active peer_open ws ws')
    (established_top now buf peer_open hold_secs
       (deadline now (ka_interval hold_secs)) (deadline now (hold_dur hold_secs))).

(** *** The handshake *)

Definition confirm_on_msg (msg : BgpMessage) (u : unit) : Turn unit (result unit Flow) :=
  match msg with
  | Keepalive | Update => Leave (Ok ())
  | Notification _ => Leave (Err (Return (Reconnect "NOTIFICATION awaiting OpenConfirm")))
  | Open _ => Again ()
  end.

(** [await_peer_confirmation], up to its next read. *)
Definition await_confirmation (now : Z) (buf : list Z) (peer_open : OpenMsg) (hold_secs until : Z)
    (ws ws' : list bool) : M Session Flow :=
  match frames (Err (Return (Reconnect "decode error awaiting OpenConfirm"))) (Err Unwind)
          confirm_on_msg buf () with
  | NeedMore buf _ => modify (set_phase (AtConfirm buf peer_open hold_secs until));; mret Next
  | Ended buf (Ok _) => establish now buf peer_open hold_secs ws ws'
  | Ended _ (Err f) => mret f
  end.

Definition open_on_msg (msg : BgpMessage) (u : unit) : Turn unit (result OpenMsg Flow) :=
  match msg with
  | Open o => Leave (Ok o)
  | Notification _ => Leave (Err (Return (Reconnect "NOTIFICATION during handshake")))
  | Keepalive | Update => Again ()
  end.

(** [let _ = stream.write_all(..)]: the outcome is ignored. *)
Definition notify (code subcode : Z) (ok : bool) : M Session Flow :=
  with_packet (encode_notification {| code := code; subcode := subcode; data := [] |}) (λ pkt,
    write_all pkt ok "";; mret Next).

(** From the peer's OPEN to the wait for its confirmation. The first of [ws]
    is the outcome of the write of the reply to the OPEN. *)
Definition open_received (cfg : PeerConfig) (now : Z) (peer_open : OpenMsg) (buf : list Z)
    (ws ws' : list bool) : M Session Flow :=
  if negb (asn peer_open =? peer_asn cfg) then
    and_then (notify 2 2 (ok1 ws)) (mret (Return (Reconnect "peer ASN != configured")))
  else if (hold_time peer_open =? 1) || (hold_time peer_open =? 2) then
    and_then (notify 2 6 (ok1 ws))
      (mret (Return (Reconnect "peer proposed unacceptable hold time")))
  else
    let hold_secs := Z.min (cfg_hold_time cfg) (hold_time peer_open) in
    and_then (with_packet encode_keepalive (λ pkt,
                write_all pkt (ok1 ws) "send post-open KEEPALIVE failed"))
      (await_confirmation now buf peer_open hold_secs (now + confirm_timeout hold_secs)
         (tail ws) ws').

Definition local_open (cfg : PeerConfig) : OpenMsg := {|
  asn := local_asn cfg; hold_time := cfg_hold_time cfg; router_id := cfg_router_id cfg;
  ipv4_unicast := true; ipv6_unicast := true; flowspec_v4 := true; flowspec_v6 := true |}.

(** Steps 1 and 2 of [session_once]. *)
Definition connect (cfg : PeerConfig) (connected : bool) (ok : bool) : M Session Flow :=
  if negb connected then mret (Return (Reconnect "connect failed"))
  else
    modify (set_sent []);;
    and_then (with_packet (encode_open (local_open cfg)) (λ pkt,
                write_all pkt ok "send OPEN failed"))
      (modify (set_phase (AtOpen []));; mret Next).

(** What a read gives. *)
Inductive ReadResult : Type :=
| ReadErr
| ReadOk (bytes : list Z).

(** A read at each of the three waits that read. *)
Definition read_open (cfg : PeerConfig) (now : Z) (buf : list Z) (r : ReadResult)
    (ws ws' : list bool) : M Session Flow :=
  match r with
  | ReadErr => mret (Return (Reconnect "read error during handshake"))
  | ReadOk [] => mret (Return (Reconnect "peer closed connection during handshake"))
  | ReadOk bytes =>
      let buf := buf ++ bytes in
      if (READ_BUF_LIMIT <? length buf)%nat then mret (Return (Reconnect "read buffer overflow"))
      else match frames (Err (Return (Reconnect "decode error during handshake"))) (Err Unwind)
                   open_on_msg buf () with
           | NeedMore buf _ => modify (set_phase (AtOpen buf));; mret Next
           | Ended buf (Ok o) => open_received cfg now o buf ws ws'
           | Ended _ (Err f) => mret f
           end
  end.

Definition read_confirm (now : Z) (buf : list Z) (peer_open : OpenMsg) (hold_secs until : Z)
    (r : ReadResult) (ws ws' : list bool) : M Session Flow :=
  match r with
  | ReadErr => mret (Return (Reconnect "read error awaiting OpenConfirm"))
  | ReadOk [] => mret (Return (Reconnect "peer closed connection awaiting OpenConfirm"))
  | ReadOk bytes =>
      let buf := buf ++ bytes in
      if (READ_BUF_LIMIT <? length buf)%nat
      then mret (Return (Reconnect "read buffer overflow awaiting OpenConfirm"))
      else await_confirmation now buf peer_open hold_secs until ws ws'
  end.

Definition read_established (now : Z) (buf : list Z) (peer_open : OpenMsg) (hold_secs : Z)
    (ka_deadline hold_deadline : option Z) (r : ReadResult) : M Session Flow :=
  match r with
  | ReadErr => mret (Return (Reconnect "socket read error"))
  | ReadOk [] => mret (Return (Reconnect "peer closed connection"))
  | ReadOk bytes =>
      let buf := buf ++ bytes in
      if (READ_BUF_LIMIT <? length buf)%nat then mret (Return (Reconnect "read buffer overflow"))
      else established_top now buf peer_open hold_secs ka_deadline hold_deadline
  end.

Definition expired (now : Z) (d : option Z) : bool :=
  match d with Some t => t <=? now | None => false end.

(** The timer arms of the [select!], in their order. *)
Definition timers (now : Z) (buf : list Z) (peer_open : OpenMsg) (hold_secs : Z)
    (ka_deadline hold_deadline : option Z) (ok : bool) : M Session Flow :=
  if expired now ka_deadline then
    and_then (with_packet encode_keepalive (λ pkt, write_all pkt ok "keepalive write failed"))
      (established_top now buf peer_open hold_secs
         (deadline now (ka_interval hold_secs)) hold_deadline)
  else if expired now hold_deadline then
    and_then (notify 4 0 ok) (mret (Return (Reconnect "hold timer expired")))
  else mret Next.

(** The command arm: [commands.recv()]. *)
Definition receive_command (now : Z) (buf : list Z) (peer_open : OpenMsg) (hold_secs : Z)
    (ka_deadline hold_deadline : option Z) (ok : bool) : M Session Flow :=
  q ← gets ss_queue;
  match q with
  | [] => closed ← gets ss_closed; mret (if (closed : bool) then Return CommandsExhausted else Next)
  | c :: q =>
      modify (take_command c q);;
      and_then (handle_command peer_open ok c)
        (established_top now buf peer_open hold_secs ka_deadline hold_deadline)
  end.

(** ** Runs *)

Inductive Event : Type :=
| EvSend (c : SessionCommand)
| EvClose
| EvConnect (now : Z) (connected : bool) (ok : bool)
| EvRead (now : Z) (r : ReadResult) (ws ws' : list bool)
| EvTick (now : Z) (ok : bool)
| EvCommand (now : Z) (ok : bool).

(** The code run by the task on an event; an event the task does not wait for
    changes nothing. *)
Definition react (cfg : PeerConfig) (e : Event) : M Session unit :=
  ph ← gets ss_phase;
  match e, ph with
  | EvSend c, _ =>
      closed ← gets ss_closed;
      if (closed : bool) then mret () else _r ← send c; mret ()
  | EvClose, _ => modify (set_closed true)
  | EvConnect now connected ok, AtConnect => f ← connect cfg connected ok; conclude now f
  | EvRead now r ws ws', AtOpen buf => f ← read_open cfg now buf r ws ws'; conclude now f
  | EvRead now r ws ws', AtConfirm buf o h u =>
      f ← read_confirm now buf o h u r ws ws'; conclude now f
  | EvRead now r _ _, AtEstablished buf o h ka hd =>
      f ← read_established now buf o h ka hd r; conclude now f
  | EvTick now _, AtConfirm _ _ _ u =>
      if u <=? now
      then conclude now (Return (Reconnect "timed out waiting for peer OPEN confirmation"))
      else mret ()
  | EvTick now ok, AtEstablished buf o h ka hd => f ← timers now buf o h ka hd ok; conclude now f
  | EvTick now _, AtBackoff u => if u <=? now then modify (set_phase AtConnect) else mret ()
  | EvCommand now ok, AtEstablished buf o h ka hd =>
      f ← receive_command now buf o h ka hd ok; conclude now f
  | _, _ => mret ()
  end.

Definition run_from (cfg : PeerConfig) (s : Session) (evs : list Event) : Session :=
  foldl (λ s e, exec (react cfg e) s) s evs.
End session.
