(* ===== verification/BgpSessionSpec.v ===== *)
(** * What the BGP session delivers

    The contract of [BgpSession]: whatever the network, the peer and the
    scheduler do, the table a peer builds from the bytes of an established
    connection is the table the managers asked for, restricted to the families
    the peer negotiated. The proof is an invariant of the state machine; the
    peer is the standards-following receiver of [BgpUpdate] and
    [BgpFlowSpec]. *)
From stdpp Require Import prelude gmap strings.
From S2P Require Import Prelude Net Float Executor Bytes BgpMessage BgpUpdate BgpFlowSpec BgpSession.

Open Scope Z_scope.

Lemma Ret_inj {E A} (a b : A) : @Ret E A a = Ret b → a = b.
Proof. congruence. Qed.

(** ** Tables *)

(** Elements inserted one after the other, the accepted ones only. *)
Section learned.
Context {X K V : Type} `{Countable K} (key : X → K) (val : X → V) (ok : K → bool).

Definition learned (m : gmap K V) (xs : list X) : gmap K V :=
  foldl (λ m x, if ok (key x) then <[key x := val x]> m else m) m xs.

Lemma learned_other m xs k :
  k ∉ key <$> xs ∨ ok k = false → learned m xs !! k = m !! k.
Proof.
  revert m. induction xs as [|x xs IH]; intros m Hk; [done|]. cbn [learned foldl].
  fold (learned (if ok (key x) then <[key x := val x]> m else m) xs).
  rewrite fmap_cons, not_elem_of_cons in Hk.
  rewrite IH by (destruct Hk as [[]|]; auto). destruct (ok (key x)) eqn:Hx; [|done].
  apply lookup_insert_ne. intros <-. destruct Hk as [[? _]|]; congruence.
Qed.

Lemma learned_elem m xs x :
  NoDup (key <$> xs) → x ∈ xs → ok (key x) = true → learned m xs !! key x = Some (val x).
Proof.
  revert m. induction xs as [|y xs IH]; intros m Hnd Hx Hok; [by apply not_elem_of_nil in Hx|].
  cbn [learned foldl]. fold (learned (if ok (key y) then <[key y := val y]> m else m) xs).
  rewrite fmap_cons, NoDup_cons in Hnd. destruct Hnd as [Hy Hnd].
  apply elem_of_cons in Hx as [->|Hx]; [|by apply IH].
  rewrite learned_other by auto. by rewrite Hok, lookup_insert_eq.
Qed.
End learned.

Section spec.
Context `{IpNetLib} `{HashOrder}.

(** What the commands ask for, routes by prefix and rules by traffic. *)
Definition apply_route (m : gmap IpNet Route) (c : SessionCommand) : gmap IpNet Route :=
  match c with
  | Announce r => <[prefix r := r]> m
  | Withdraw p => delete p m
  | _ => m
  end.

Definition apply_rule {K} `{Countable K} (key : FlowSpecRule → K) (m : gmap K FlowSpecRule)
    (c : SessionCommand) : gmap K FlowSpecRule :=
  match c with
  | AnnounceFlowSpec r => <[key r := r]> m
  | WithdrawFlowSpec r => delete (key r) m
  | _ => m
  end.

Definition rib_of (cs : list SessionCommand) : gmap IpNet Route := foldl apply_route ∅ cs.
Definition rules_of {K} `{Countable K} (key : FlowSpecRule → K) (cs : list SessionCommand)
    : gmap K FlowSpecRule := foldl (apply_rule key) ∅ cs.

(** The session keeps the promise the managers rely on: its table is what the
    accepted commands ask for, taken or still queued. *)
#[export] Instance BgpHandle_spec : BgpSpec Session.
Proof.
  refine {| rib := λ s, rib_of (ss_consumed s ++ ss_queue s);
            fs_rib := λ s, rules_of nlri_id (ss_consumed s ++ ss_queue s) |};
    intros x s; unfold exec, eval; cbn; unfold to_bgp_error, handle_announce, handle_withdraw,
      handle_announce_flowspec, handle_withdraw_flowspec, send, mbind, M_bind, mret, M_ret;
    destruct (receiver_dropped s); cbn; [done| |done| |done| |done| |done| |done| |done| |done|];
    unfold rib_of, rules_of; by rewrite app_assoc, foldl_app.
Defined.

(** ** The peer's tables *)

Definition peer_learn (m : gmap IpNet Route) (b : list Z) : gmap IpNet Route :=
  match receive b with
  | Some (ws, rs) => foldl (λ m r, <[prefix r := r]> m) (foldl (λ m p, delete p m) m ws) rs
  | None => m
  end.

Definition peer_learn_rule (m : gmap (IpNet * option Z * option Z) f32) (b : list Z)
    : gmap (IpNet * option Z * option Z) f32 :=
  match receive_flowspec b with
  | Some (FsAnnounced id rate) => <[id := rate]> m
  | Some (FsWithdrawn id) => delete id m
  | None => m
  end.

Definition peer_rib (sent : list (list Z)) : gmap IpNet Route := foldl peer_learn ∅ sent.
Definition peer_rules (sent : list (list Z)) : gmap (IpNet * option Z * option Z) f32 :=
  foldl peer_learn_rule ∅ sent.

Definition rate_of (r : FlowSpecRule) : f32 := let 'TrafficRate rate := action r in rate.

Definition allowed (o : OpenMsg) (p : IpNet) : bool := announce_allowed o (for_route p).
Definition allowed_rule (o : OpenMsg) (id : IpNet * option Z * option Z) : bool :=
  announce_allowed o (for_flowspec id.1.1).

(** The peer's tables are the negotiated part of [routes] and [rules]. *)
Definition delivers (o : OpenMsg) (sent : list (list Z)) (routes : gmap IpNet Route)
    (rules : gmap (IpNet * option Z * option Z) FlowSpecRule) : Prop :=
  (∀ p, peer_rib sent !! p = if allowed o p then routes !! p else None) ∧
  (∀ id, peer_rules sent !! id = if allowed_rule o id then rate_of <$> rules !! id else None).

(** Nothing in the packet concerns a family the peer did not negotiate. *)
Definition negotiated (o : OpenMsg) (b : list Z) : Prop :=
  (∀ ws rs, receive b = Some (ws, rs) → ∀ p, p ∈ ws ++ (prefix <$> rs) → allowed o p = true) ∧
  (∀ id rate, receive_flowspec b = Some (FsAnnounced id rate) → allowed_rule o id = true) ∧
  (∀ id, receive_flowspec b = Some (FsWithdrawn id) → allowed_rule o id = true).

(** ** Packets *)

(** The widths of the fields, and no host bits in a prefix. *)
Definition cmd_wf (c : SessionCommand) : Prop :=
  match c with
  | Announce r => route_wf r ∧ net_trunc (prefix r) = prefix r
  | Withdraw p => ip_wf (net_addr p) ∧ net_trunc p = p
  | AnnounceFlowSpec r | WithdrawFlowSpec r => rule_wf r
  end.

Lemma control_packet t body b :
  t ≠ 2 → (length body ≤ 4077)%nat → encode_header t body = Ret b →
  receive b = None ∧ receive_flowspec b = None.
Proof.
  intros Ht Hl. rewrite encode_header_ok by lia. intros <-%Ret_inj.
  pose proof (decode_framed t body [] Hl) as Hd. cbv zeta in Hd. rewrite app_nil_r in Hd.
  unfold receive, receive_flowspec. rewrite Hd. unfold from_code.
  destruct (t =? 1); [by destruct (decode_open body)|]. destruct (Z.eqb_spec t 2); [done|].
  destruct (t =? 3); [by destruct (decode_notification body)|]. by destruct (t =? 4).
Qed.

Definition quiet (b : list Z) : Prop := receive b = None ∧ receive_flowspec b = None.

Lemma keepalive_packet : ∃ b, encode_keepalive = Ret b ∧ quiet b.
Proof.
  eexists. split; [by apply encode_header_ok; simpl; lia|].
  apply (control_packet 4 []); [done|simpl; lia|]. apply encode_header_ok. simpl. lia.
Qed.

Lemma notification_packet c sc :
  ∃ b, encode_notification {| code := c; subcode := sc; data := [] |} = Ret b ∧ quiet b.
Proof.
  eexists. split; [by apply encode_header_ok; simpl; lia|].
  apply (control_packet 3 [c; sc]); [done|simpl; lia|]. apply encode_header_ok. simpl. lia.
Qed.

Lemma open_packet o : ∃ b, encode_open o = Ret b ∧ quiet b.
Proof.
  pose proof (length_open_caps o). pose proof (encode_open_ok o) as He. cbv zeta in He.
  set (body := [4] ++ _) in He.
  assert (length body ≤ 60)%nat
    by (subst body; rewrite !length_app, !length_be_bytes; cbn [length]; lia).
  rewrite He. eexists. split; [apply encode_header_ok; lia|].
  apply (control_packet 1 body); [done|lia|]. apply encode_header_ok. lia.
Qed.

(** An UPDATE is read from its three parts. *)
Lemma update_packet w attrs nlri :
  Forall attr_ok attrs → forallb (λ x : Z * Z * list Z, x.1.1 =? attr_class x.1.2) attrs = true →
  (length w ≤ 100)%nat → (length nlri ≤ 100)%nat →
  (length (concat (attr_bytes <$> attrs)) ≤ 4060)%nat →
  (length w + length (concat (attr_bytes <$> attrs)) + length nlri ≤ 4073)%nat →
  ∀ b, encode_header 2 (be_bytes 2 (Z.of_nat (length w)) ++ w ++
    be_bytes 2 (Z.of_nat (length (concat (attr_bytes <$> attrs)))) ++
    concat (attr_bytes <$> attrs) ++ nlri) = Ret b →
  ∃ body, receive b = receive_body body ∧ receive_flowspec b = receive_flowspec_body body ∧
    parse_update body = Some (w, attrs, nlri).
Proof.
  intros Hok Hcl Hw Hn Ha Hl b. set (body := be_bytes 2 (Z.of_nat (length w)) ++ _). intros Hb.
  exists body.
  assert (length body ≤ 4077)%nat as Hbl
    by (subst body; rewrite !length_app, !length_be_bytes; lia).
  destruct (receive_update body Hbl) as (b1 & Hb1 & ->%symmetry).
  destruct (receive_flowspec_update body Hbl) as (b2 & Hb2 & ->%symmetry).
  rewrite Hb in Hb1, Hb2. apply Ret_inj in Hb1 as <-. apply Ret_inj in Hb2 as <-.
  split_and!; [done..|]. apply parse_update_ok; by lia || done.
Qed.

Lemma announce_packet r :
  cmd_wf (Announce r) →
  ∃ b, build_announce r = Ret b ∧ receive b = Some ([], [r]) ∧ receive_flowspec b = None.
Proof.
  intros [Hwf Ht]. destruct (bgp_announce_received r Hwf) as (b & Hb & Hr). exists b.
  split_and!; [done|by rewrite Hr, Ht; destruct r|].
  rewrite build_announce_ok in Hb by done.
  destruct (announce_attrs_ok r Hwf) as (Hok & Hcl & Hlen).
  pose proof (length_packed_le (prefix r)) as Hpl. destruct (announce_attr_values r) as [Hun Hre].
  destruct Hwf as (_ & _ & Hf & _). destruct (ip_is_v4 (net_addr (prefix r))) eqn:Hv.
  - destruct (update_packet [] (announce_attrs r) (net_prefix_len (prefix r) :: packed (prefix r))
                Hok Hcl) with (b := b) as (body & _ & -> & Hp); cbn [length]; try lia; [exact Hb|].
    unfold receive_flowspec_body. rewrite Hp. cbn [mbind option_bind].
    by destruct (attr_value ATTR_MP_REACH_NLRI _), (attr_value ATTR_MP_UNREACH_NLRI _).
  - destruct (update_packet [] (announce_attrs r) [] Hok Hcl) with (b := b) as (body & _ & -> & Hp);
      cbn [length]; try lia; [exact Hb|].
    unfold receive_flowspec_body. rewrite Hp. cbn [mbind option_bind]. rewrite Hun.
    destruct (next_hop r); [done|]. by rewrite Hre, parse_mp_reach_ok.
Qed.

(** A packet that only withdraws multiprotocol routes. *)
Lemma unreach_packet afi safi nlri b :
  0 ≤ afi ≤ u16_max → (length nlri ≤ 40)%nat →
  (attrs ← push_attr [] FLAG_OPT_NON_TRANS ATTR_MP_UNREACH_NLRI (be_bytes 2 afi ++ [safi] ++ nlri);
   total_attr_len ← u16_expect (length attrs);
   encode_header 2 (be_bytes 2 0 ++ be_bytes 2 total_attr_len ++ attrs)) = Ret b →
  ((safi =? 1) = false → receive b = None) ∧ ((safi =? 133) = false → receive_flowspec b = None).
Proof.
  intros Ha Hl. set (v := be_bytes 2 afi ++ [safi] ++ nlri).
  assert (length v ≤ 43)%nat as Hv
    by (subst v; rewrite !length_app, length_be_bytes; cbn [length]; lia).
  rewrite push_attr_ok by (unfold u16_max; lia). cbn [mbind rust_bind app].
  pose proof (length_attr_bytes FLAG_OPT_NON_TRANS ATTR_MP_UNREACH_NLRI v) as Hab.
  unfold u16_expect. rewrite (proj2 (Z.leb_le _ _)) by (unfold u16_max; lia).
  cbn [mbind rust_bind]. intros Hb.
  assert (parse_mp_unreach v = Some (afi, safi, nlri)) as Hm.
  { subst v. unfold parse_mp_unreach. rewrite be_bytes_2. cbn [app take_u16 mbind option_bind].
    rewrite <-be_bytes_2, be_value_be_bytes_small
      by (change (256 ^ Z.of_nat 2) with 65536; unfold u16_max in *; lia). done. }
  destruct (update_packet [] [(FLAG_OPT_NON_TRANS, ATTR_MP_UNREACH_NLRI, v)] []) with (b := b)
    as (body & -> & -> & Hp); cbn [fmap list_fmap concat length]; rewrite ?app_nil_r; try lia; try done.
  { apply Forall_singleton. split; [by auto|]. unfold u16_max. cbn [snd]. lia. }
  unfold receive_body, receive_flowspec_body. rewrite Hp.
  cbn [mbind option_bind length parse_prefixes attr_value].
  change (ATTR_MP_UNREACH_NLRI =? ATTR_MP_UNREACH_NLRI) with true.
  change (ATTR_MP_UNREACH_NLRI =? ATTR_MP_REACH_NLRI) with false. cbv iota.
  rewrite Hm. cbn [mbind option_bind]. unfold flowspec_family.
  split; intros ->; [by rewrite andb_false_r|done].
Qed.

Lemma withdraw_packet p :
  cmd_wf (Withdraw p) →
  ∃ b, build_withdraw p = Ret b ∧ receive b = Some ([p], []) ∧ receive_flowspec b = None.
Proof.
  intros [Hwf Ht]. destruct (bgp_withdraw_received p Hwf) as (b & Hb & Hr). exists b.
  rewrite Ht in Hr. split_and!; [done..|].
  pose proof (length_packed_le p) as Hpl. unfold build_withdraw in Hb. rewrite encode_nlri_ok in Hb.
  set (nlri := net_prefix_len p :: packed p) in *.
  destruct (net_addr p) as [z|z]; cbn [mbind rust_bind ip_is_v4] in *.
  - unfold u16_expect in Hb.
    rewrite (proj2 (Z.leb_le _ _)) in Hb by (unfold u16_max; subst nlri; cbn [length]; lia).
    cbn [mbind rust_bind] in Hb.
    destruct (update_packet nlri [] []) with (b := b) as (body & _ & -> & Hp);
      [constructor|done|subst nlri; cbn [length]; lia|simpl; lia..|subst nlri; simpl; lia| |].
    + rewrite app_nil_r. exact Hb.
    + unfold receive_flowspec_body. by rewrite Hp.
  - apply (unreach_packet AFI_IPV6 SAFI_UNICAST nlri b) in Hb as [_ Hb];
      [by apply Hb|unfold u16_max, AFI_IPV6; lia|subst nlri; cbn [length]; lia].
Qed.

Lemma afi_of_bounds r : 0 ≤ afi_of r ≤ u16_max.
Proof. unfold afi_of, u16_max. destruct (net_addr (dst r)); lia. Qed.

Lemma flowspec_withdraw_packet r :
  rule_wf r →
  ∃ b, build_flowspec_withdraw r = Ret b ∧ receive_flowspec b = Some (FsWithdrawn (nlri_id r)) ∧
    receive b = None.
Proof.
  intros Hwf. destruct (flowspec_withdraw_received r Hwf) as (b & Hb & Hr). exists b.
  split_and!; [done..|]. unfold build_flowspec_withdraw in Hb.
  rewrite encode_flowspec_nlri_ok in Hb by done. cbn [mbind rust_bind] in Hb.
  pose proof (length_nlri_bytes r).
  apply (unreach_packet (afi_of r) SAFI_FLOWSPEC (nlri_bytes r) b) in Hb as [Hb _];
    [by apply Hb|apply afi_of_bounds|lia].
Qed.

Lemma flowspec_announce_packet r :
  rule_wf r →
  ∃ b, build_flowspec_announce r = Ret b ∧
    receive_flowspec b = Some (FsAnnounced (nlri_id r) (rate_of r)) ∧ receive b = None.
Proof.
  intros Hwf. destruct (flowspec_announce_received r Hwf) as (b & Hb & Hr). exists b.
  split_and!; [done..|]. rewrite build_flowspec_announce_ok in Hb by done.
  destruct (flowspec_attrs_ok r) as (Hok & Hcl & Hlen).
  destruct (update_packet [] (flowspec_attrs r) [] Hok Hcl) with (b := b) as (body & -> & _ & Hp);
    rewrite ?app_nil_r; cbn [length]; try lia; [exact Hb|].
  unfold receive_body. rewrite Hp.
  cbn [mbind option_bind length parse_prefixes]. unfold flowspec_attrs.
  destruct (action r) as [rate]. cbn [attr_value].
  repeat match goal with
  | |- context [if ?t =? ?u then _ else _] => first
      [change (t =? u) with true | change (t =? u) with false]; cbv iota
  end.
  unfold parse_mp_reach. rewrite take_afi. cbn [app mbind option_bind]. unfold take_n.
  change (Z.to_nat 0) with 0%nat. cbn [Nat.leb take drop mbind option_bind].
  change (SAFI_FLOWSPEC =? 1) with false. by rewrite andb_false_r.
Qed.

(** ** The identity of a rule *)

(** The NLRI determines the family: an IPv6 destination has one more octet
    before its prefix, and the components that follow cannot make up for it. *)
Lemma nlri_bytes_family r1 r2 :
  nlri_bytes r1 = nlri_bytes r2 →
  ip_is_v4 (net_addr (dst r1)) = true → ip_is_v4 (net_addr (dst r2)) = true.
Proof.
  unfold nlri_bytes, dst_component. intros [= _ Hl Hc] Hv1. rewrite Hv1 in Hc. cbn [app] in Hc.
  destruct (ip_is_v4 (net_addr (dst r2))); [done|]. exfalso.
  assert (length (packed (dst r1)) = length (packed (dst r2))) as Hp
    by (by rewrite !length_packed, Hl).
  rewrite <-!app_assoc in Hc. pose proof (f_equal length Hc) as Hn. cbn [app length] in Hn.
  rewrite !length_app, Hp in Hn. apply (f_equal (drop (S (length (packed (dst r1)))))) in Hc.
  cbn [app] in Hc. rewrite skipn_cons, Hp, drop_app_length, <-Hp in Hc.
  rewrite <-Nat.add_1_r, drop_app_add in Hc.
  unfold eq_component in Hc, Hn.
  destruct (protocol r1) as [a|], (dst_port r1) as [b|], (protocol r2) as [c|], (dst_port r2) as [d|];
    repeat match type of Hc with context [?x <? 256] => destruct (x <? 256) end;
    cbn in Hc, Hn; first [discriminate Hc|lia].
Qed.

Lemma nlri_bytes_id r1 r2 :
  rule_wf r1 → rule_wf r2 → nlri_bytes r1 = nlri_bytes r2 ↔ nlri_id r1 = nlri_id r2.
Proof.
  intros H1 H2. assert (∀ f, f = ip_is_v4 (net_addr (dst r1)) → f = ip_is_v4 (net_addr (dst r2)) →
    nlri_bytes r1 = nlri_bytes r2 ↔ nlri_id r1 = nlri_id r2) as Hf.
  { intros f Hf1 Hf2. rewrite <-flowspec_nlri_identity by congruence.
    rewrite !encode_flowspec_nlri_ok by done. split; [by intros ->|apply Ret_inj]. }
  split; intros He.
  - apply (Hf (ip_is_v4 (net_addr (dst r1)))); [done| |done].
    destruct (ip_is_v4 (net_addr (dst r1))) eqn:Hv; symmetry.
    + by eapply nlri_bytes_family.
    + destruct (ip_is_v4 (net_addr (dst r2))) eqn:Hv2; [|done].
      by rewrite (nlri_bytes_family r2 r1 (eq_sym He) Hv2) in Hv.
  - apply (Hf (ip_is_v4 (net_addr (dst r1)))); [done| |done].
    injection He as Hd _ _. by rewrite <-!(net_trunc_v4 (dst _)), Hd.
Qed.

(** The rules a list of commands leaves, by NLRI and by traffic. *)
Lemma rules_of_ids cs r :
  Forall cmd_wf cs → rule_wf r →
  rules_of nlri_bytes cs !! nlri_bytes r = rules_of nlri_id cs !! nlri_id r.
Proof.
  intros Hcs Hr. induction cs as [|c cs IH] using rev_ind; [done|].
  apply Forall_app in Hcs as [Hcs Hc]. rewrite Forall_singleton in Hc. specialize (IH Hcs).
  unfold rules_of in *. rewrite !foldl_app. destruct c as [| |r'|r']; cbn; try done.
  - destruct (decide (nlri_id r' = nlri_id r)) as [He|He].
    + by rewrite (proj2 (nlri_bytes_id r' r Hc Hr) He), He, !lookup_insert_eq.
    + rewrite !lookup_insert_ne; [done|done|]. by rewrite nlri_bytes_id.
  - destruct (decide (nlri_id r' = nlri_id r)) as [He|He].
    + by rewrite (proj2 (nlri_bytes_id r' r Hc Hr) He), He, !lookup_delete_eq.
    + rewrite !lookup_delete_ne; [done|done|]. by rewrite nlri_bytes_id.
Qed.

(** Each entry is filed under its own key and came from a command. *)
Lemma rib_of_entries cs p r :
  Forall cmd_wf cs → rib_of cs !! p = Some r → prefix r = p ∧ cmd_wf (Announce r).
Proof.
  intros Hcs. induction cs as [|c cs IH] using rev_ind; [done|].
  apply Forall_app in Hcs as [Hcs Hc]. rewrite Forall_singleton in Hc. specialize (IH Hcs).
  unfold rib_of in *. rewrite foldl_app. destruct c; cbn; try done.
  - rewrite lookup_insert_Some. intros [[? ->]|[? ?]]; auto.
  - rewrite lookup_delete_Some. intros [? ?]. auto.
Qed.

Lemma rules_of_entries {K} `{Countable K} (key : FlowSpecRule → K) cs k r :
  Forall cmd_wf cs → rules_of key cs !! k = Some r → key r = k ∧ rule_wf r.
Proof.
  intros Hcs. induction cs as [|c cs IH] using rev_ind; [done|].
  apply Forall_app in Hcs as [Hcs Hc]. rewrite Forall_singleton in Hc. specialize (IH Hcs).
  unfold rules_of in *. rewrite foldl_app. destruct c; cbn; try done.
  - rewrite lookup_insert_Some. intros [[? ->]|[? ?]]; auto.
  - rewrite lookup_delete_Some. intros [? ?]. auto.
Qed.

(** ** Reasoning about the task

    A triple for the pieces of the task: from [P], the piece goes on with [Q],
    or returns from [session_once] with [B], and it never unwinds. *)
Definition flow (B P : Session → Prop) (m : M Session Flow) (Q : Session → Prop) : Prop :=
  ∀ s, P s → match eval m s with
             | Next => Q (exec m s)
             | Return _ => B (exec m s)
             | Unwind => False
             end.

Lemma flow_next B Q : flow B Q (mret Next) Q.
Proof. by intros s. Qed.

Lemma flow_return B P Q o : (∀ s, P s → B s) → flow B P (mret (Return o)) Q.
Proof. intros HB s. apply HB. Qed.

Lemma flow_then B P R Q m k : flow B P m R → flow B R k Q → flow B P (and_then m k) Q.
Proof.
  intros Hm Hk s Hs. specialize (Hm s Hs). unfold and_then. rewrite exec_bind, eval_bind.
  destruct (eval m s); [by apply Hk|done|done].
Qed.

Lemma flow_modify B P R Q f k :
  flow B R k Q → (∀ s, P s → R (f s)) → flow B P (modify f;; k) Q.
Proof.
  intros Hk Hf s Hs. rewrite exec_bind, eval_bind. apply Hk. by apply Hf.
Qed.

Lemma flow_gets {A} B P Q (f : Session → A) k :
  (∀ a, flow B (λ s, P s ∧ f s = a) (k a) Q) → flow B P (gets f ≫= k) Q.
Proof. intros Hk s Hs. rewrite exec_bind, eval_bind. by apply Hk. Qed.

Lemma flow_packet B P Q pkt b k :
  pkt = Ret b → flow B P (k b) Q → flow B P (with_packet pkt k) Q.
Proof. by intros ->. Qed.

Lemma flow_write B P Q b (ok : bool) msg :
  ok = true ∨ (∀ s, P s → B s) → (∀ s, P s → Q (set_sent (ss_sent s ++ [b]) s)) →
  flow B P (write_all b ok msg) Q.
Proof.
  intros HB HQ s Hs. unfold write_all. destruct ok; [|by destruct HB as [|HB]; [|apply HB]].
  rewrite exec_bind, eval_bind. by apply HQ.
Qed.

Lemma flow_pre B P P' m Q : flow B P m Q → (∀ s, P' s → P s) → flow B P' m Q.
Proof. intros Hm HP s Hs. by apply Hm, HP. Qed.

(** The framing loops end with a message or an error, never with a panic. *)
Lemma frame_loop_result {A R} (P : R → Prop) on_err on_panic
    (on_msg : BgpMessage → A → Turn A R) fuel buf a buf' r :
  P on_err → (∀ m a r, on_msg m a = Leave r → P r) →
  frame_loop on_err on_panic on_msg fuel buf a = Ended buf' r → P r.
Proof.
  intros He Hm. revert buf a. induction fuel as [|fuel IH]; intros buf a; [done|]. cbn [frame_loop].
  destruct (Nat.ltb_spec (length buf) HEADER_LEN); [done|].
  destruct (parse_header_returns buf) as [Hp _].
  destruct (parse_header buf) as [[c n]|e|] eqn:Hh; [|by intros [= _ <-]|by destruct Hp].
  destruct (Nat.ltb_spec (length buf) n); [done|].
  rewrite slice_ok by lia. cbn [mbind rust_bind].
  destruct (bgp_decode_total (take (n - 0) (drop 0 buf))) as [Hd _].
  destruct (decode_message _) as [[m k]|e|]; [|by intros [= _ <-]|by destruct Hd].
  destruct (on_msg m a) eqn:Hr; [apply IH|]. intros [= _ <-]. by eapply Hm.
Qed.

(** No complete message, and no broken header, at the front of the buffer. *)
Definition drained (buf : list Z) : Prop :=
  (length buf < HEADER_LEN)%nat ∨ ∃ c n, parse_header buf = Ret (c, n) ∧ (length buf < n)%nat.

Lemma frame_loop_drained {A R} on_err on_panic (on_msg : BgpMessage → A → Turn A R)
    fuel buf a buf' a' :
  (length buf ≤ fuel)%nat →
  frame_loop on_err on_panic on_msg fuel buf a = NeedMore buf' a' → drained buf'.
Proof.
  revert buf a. induction fuel as [|fuel IH]; intros buf a Hl; cbn [frame_loop].
  { intros [= <- _]. left. unfold HEADER_LEN. lia. }
  destruct (Nat.ltb_spec (length buf) HEADER_LEN) as [?|Hh]; [intros [= <- _]; by left|].
  destruct (parse_header_returns buf) as [_ Hn].
  destruct (parse_header buf) as [[c n]|e|] eqn:Hp; [|done..]. specialize (Hn c n eq_refl).
  destruct (Nat.ltb_spec (length buf) n); [intros [= <- _]; right; by eauto|].
  destruct (_ ≫= _) as [[m k]|e|]; [|done..]. destruct (on_msg m a); [|done].
  apply IH. rewrite length_drop. unfold HEADER_LEN in *. lia.
Qed.

(** Each turn of the loop takes a whole message from the buffer. *)
Lemma frame_loop_counts {R} (on_err on_panic : R) fuel buf k buf' n :
  frame_loop on_err on_panic (λ _ n, Again (S n)) fuel buf k = NeedMore buf' n →
  (HEADER_LEN * n + length buf' ≤ HEADER_LEN * k + length buf)%nat.
Proof.
  revert buf k. induction fuel as [|fuel IH]; intros buf k; cbn [frame_loop]; [by intros [= <- <-]|].
  destruct (Nat.ltb_spec (length buf) HEADER_LEN) as [?|Hh]; [by intros [= <- <-]|].
  destruct (parse_header_returns buf) as [_ Hn].
  destruct (parse_header buf) as [[c m]|e|] eqn:Hp; [|done..]. specialize (Hn c m eq_refl).
  destruct (Nat.ltb_spec (length buf) m); [by intros [= <- <-]|].
  destruct (_ ≫= _) as [[msg j]|e|]; [|done..]. intros Hl%IH. rewrite length_drop in Hl. lia.
Qed.

Lemma drained_length buf : drained buf → (length buf < 4096)%nat.
Proof.
  unfold drained, HEADER_LEN. intros [?|(c & n & Hp & ?)]; [lia|].
  destruct (parse_header_returns buf) as [_ Hn]. specialize (Hn c n Hp). lia.
Qed.

(** ** The invariant *)

(** The active sets are what the commands taken so far ask for. *)
Definition base (s : Session) : Prop :=
  Forall cmd_wf (ss_consumed s ++ ss_queue s) ∧
  ss_active s = rib_of (ss_consumed s) ∧
  ss_active_flowspec s = rules_of nlri_bytes (ss_consumed s).

(** The commands accepted so far, taken or queued. *)
Definition accepted (s : Session) : list SessionCommand := ss_consumed s ++ ss_queue s.

Definition calm (s : Session) : Prop := base s ∧ Forall quiet (ss_sent s).

Definition synced (o : OpenMsg) (s : Session) : Prop :=
  base s ∧
  delivers o (ss_sent s) (rib_of (ss_consumed s)) (rules_of nlri_id (ss_consumed s)) ∧
  Forall (negotiated o) (ss_sent s).

Definition inv (s : Session) : Prop :=
  match ss_phase s with
  | AtOpen buf | AtConfirm buf _ _ _ => calm s ∧ drained buf
  | AtEstablished buf o _ _ _ => synced o s ∧ drained buf
  | AtPanic => False
  | _ => base s
  end.

Lemma inv_base s : inv s → base s.
Proof. unfold inv, calm, synced. destruct (ss_phase s); tauto. Qed.

Lemma quiet_negotiated o b : quiet b → negotiated o b.
Proof. intros [Hr Hf]. unfold negotiated. rewrite Hr, Hf. done. Qed.

Lemma peer_quiet sent b :
  quiet b → peer_rib (sent ++ [b]) = peer_rib sent ∧ peer_rules (sent ++ [b]) = peer_rules sent.
Proof.
  intros [Hr Hf]. unfold peer_rib, peer_rules. rewrite !foldl_app. cbn.
  unfold peer_learn, peer_learn_rule. by rewrite Hr, Hf.
Qed.

Lemma peer_all_quiet sent : Forall quiet sent → peer_rib sent = ∅ ∧ peer_rules sent = ∅.
Proof.
  induction sent as [|b sent IH] using rev_ind; [done|].
  rewrite Forall_app, Forall_singleton. intros [Hs Hb].
  destruct (peer_quiet sent b Hb) as [-> ->]. auto.
Qed.

Lemma synced_quiet o s b : synced o s → quiet b → synced o (set_sent (ss_sent s ++ [b]) s).
Proof.
  intros (Hb & Hd & Hn) Hq. destruct (peer_quiet (ss_sent s) b Hq) as [Hr Hf].
  split_and!; [exact Hb| |].
  - unfold delivers in *. cbn [ss_sent set_sent ss_consumed]. by rewrite Hr, Hf.
  - cbn. rewrite Forall_app, Forall_singleton. split; [done|by apply quiet_negotiated].
Qed.

Lemma calm_quiet s b : calm s → quiet b → calm (set_sent (ss_sent s ++ [b]) s).
Proof.
  intros [Hb Hn] Hq. split; [exact Hb|]. cbn. by rewrite Forall_app, Forall_singleton.
Qed.

(** *** Taking a command *)

Definition taken (R : Session → Prop) (c : SessionCommand) (q : list SessionCommand) (s : Session)
    : Prop :=
  ∃ s0, R s0 ∧ ss_queue s0 = c :: q ∧ s = take_command c q s0.

Lemma rib_of_snoc cs c : rib_of (cs ++ [c]) = apply_route (rib_of cs) c.
Proof. unfold rib_of. by rewrite foldl_app. Qed.

Lemma rules_of_snoc {K} `{Countable K} (key : FlowSpecRule → K) cs c :
  rules_of key (cs ++ [c]) = apply_rule key (rules_of key cs) c.
Proof. unfold rules_of. by rewrite foldl_app. Qed.

Lemma taken_wf c q s0 : base s0 → ss_queue s0 = c :: q →
  cmd_wf c ∧ Forall cmd_wf ((ss_consumed s0 ++ [c]) ++ q).
Proof.
  intros (Hwf & _) Hq. rewrite Hq in Hwf. rewrite <-app_assoc. split; [|done].
  rewrite Forall_app, Forall_cons in Hwf. by destruct Hwf as (_ & ? & _).
Qed.

(** The active sets after a command. *)
Definition commanded (c : SessionCommand) (s0 s : Session) : Prop :=
  ss_consumed s = ss_consumed s0 ++ [c] ∧ ss_queue s = tail (ss_queue s0) ∧
  ss_active s = apply_route (ss_active s0) c ∧
  ss_active_flowspec s = apply_rule nlri_bytes (ss_active_flowspec s0) c.

Lemma base_commanded c q s0 s :
  base s0 → ss_queue s0 = c :: q → commanded c s0 s → base s ∧ ss_queue s = q.
Proof.
  intros Hb Hq (Hc & Hq' & Ha & Hf). destruct (taken_wf c q s0 Hb Hq) as [_ Hwf].
  destruct Hb as (_ & Ha0 & Hf0). rewrite Hq in Hq'. cbn in Hq'. unfold base.
  rewrite Hc, Hq', Ha, Hf, rib_of_snoc, rules_of_snoc, Ha0, Hf0. done.
Qed.

Lemma absorb_ok c q :
  flow (λ _, False) (taken base c q) (absorb c) (λ s, base s ∧ ss_queue s = q).
Proof.
  intros s (s0 & Hb & Hq & ->). pose proof (taken_wf c q s0 Hb Hq) as [Hc _].
  destruct c as [r|p|r|r]; cbn in Hc; cbn [absorb]; try rewrite (encode_flowspec_nlri_ok r Hc);
    cbn [with_packet]; rewrite exec_bind, eval_bind; cbn;
    (eapply base_commanded; [exact Hb|exact Hq|]); unfold commanded; cbn; by rewrite Hq.
Qed.

Lemma drain_loop_ok q :
  flow (λ _, False) (λ s, base s ∧ ss_queue s = q) (drain_loop q) base.
Proof.
  induction q as [|c q IH]; [by intros s [? _]|]. cbn [drain_loop].
  eapply flow_modify; [eapply flow_then; [apply (absorb_ok c q)|exact IH]|].
  intros s [Hb Hq]. by exists s.
Qed.

(** *** The end of a session *)

Lemma exec_modify {A} f (k : M Session A) s : exec (modify f;; k) s = exec k (f s).
Proof. done. Qed.

Lemma exec_gets {A B} (f : Session → A) (k : A → M Session B) s :
  exec (gets f ≫= k) s = exec (k (f s)) s.
Proof. done. Qed.

Lemma conclude_ok now f s :
  match f with Next => inv s | Return _ => base s | Unwind => False end →
  inv (exec (conclude now f) s).
Proof.
  destruct f as [|[msg|]|]; [done| |done|done]. intros Hb. unfold conclude.
  rewrite !exec_modify, exec_gets, exec_bind. set (s1 := set_failures _ _).
  assert (base s1) as Hb1 by exact Hb. unfold drain_commands.
  rewrite eval_bind, exec_bind.
  pose proof (drain_loop_ok (ss_queue s1) s1 (conj Hb1 eq_refl)) as Hd.
  change (eval (gets ss_queue) s1) with (ss_queue s1). change (exec (gets ss_queue) s1) with s1.
  destruct (eval (drain_loop (ss_queue s1)) s1); [exact Hd|done|done].
Qed.

Lemma concluded now P m s :
  flow base P m inv → P s → inv (exec (f ← m; conclude now f) s).
Proof. intros Hm Hs. rewrite exec_bind. apply conclude_ok, Hm, Hs. Qed.

(** *** The established session *)

Lemma established_top_ok now buf o h ka hd :
  flow base (synced o) (established_top now buf o h ka hd) inv.
Proof.
  unfold established_top, frames. destruct (frame_loop _ _ _ _ _ _) as [buf' hd'|buf' f] eqn:Hf.
  - apply (flow_modify base _ inv); [apply flow_next|]. intros s Hs.
    split; [exact Hs|by eapply frame_loop_drained].
  - assert (∃ r, f = Return r) as [r ->].
    { eapply (frame_loop_result (λ f, ∃ r, f = Return r)); [by eexists| |exact Hf].
      intros [] ? ?; cbn; intros [= <-]; by eexists. }
    apply flow_return. by intros s [? _].
Qed.

(** A packet brings the peer's tables up to date with a command. *)
Lemma synced_commanded o c q s0 s :
  synced o s0 → ss_queue s0 = c :: q → commanded c s0 s →
  (∀ p, peer_rib (ss_sent s) !! p
        = if allowed o p then apply_route (peer_rib (ss_sent s0)) c !! p else None) →
  (∀ id, peer_rules (ss_sent s) !! id
         = if allowed_rule o id
           then match c with
                | AnnounceFlowSpec r => <[nlri_id r := rate_of r]> (peer_rules (ss_sent s0)) !! id
                | WithdrawFlowSpec r => delete (nlri_id r) (peer_rules (ss_sent s0)) !! id
                | _ => peer_rules (ss_sent s0) !! id
                end
           else None) →
  Forall (negotiated o) (ss_sent s) → synced o s.
Proof.
  intros (Hb & [Hr Hf] & _) Hq Hc Hr' Hf' Hn.
  pose proof (base_commanded c q s0 s Hb Hq Hc) as [Hb' _]. destruct Hc as (Hc & _).
  split_and!; [exact Hb'| |exact Hn]. rewrite Hc, rib_of_snoc, rules_of_snoc. split.
  - intros p. rewrite Hr'. destruct (allowed o p) eqn:Ha; [|done].
    destruct c as [r|p'| |]; cbn; rewrite ?Hr, ?Ha; try done.
    + destruct (decide (prefix r = p)) as [->|]; [by rewrite !lookup_insert_eq|].
      rewrite !lookup_insert_ne by done. by rewrite Hr, Ha.
    + destruct (decide (p' = p)) as [->|]; [by rewrite !lookup_delete_eq|].
      rewrite !lookup_delete_ne by done. by rewrite Hr, Ha.
  - intros id. rewrite Hf'. destruct (allowed_rule o id) eqn:Ha; [|done].
    destruct c as [| |r|r]; cbn; rewrite ?Hf, ?Ha; try done.
    + destruct (decide (nlri_id r = id)) as [<-|]; [by rewrite !lookup_insert_eq|].
      rewrite !lookup_insert_ne by done. by rewrite Hf, Ha.
    + destruct (decide (nlri_id r = id)) as [<-|]; [by rewrite !lookup_delete_eq|].
      rewrite !lookup_delete_ne by done. by rewrite Hf, Ha.
Qed.

Definition cmd_allowed (o : OpenMsg) (c : SessionCommand) : bool :=
  match c with
  | Announce r => announce_allowed o (for_route (prefix r))
  | Withdraw p => announce_allowed o (for_route p)
  | AnnounceFlowSpec r | WithdrawFlowSpec r => announce_allowed o (for_flowspec (dst r))
  end.

Lemma allowed_rule_id o r : allowed_rule o (nlri_id r) = announce_allowed o (for_flowspec (dst r)).
Proof.
  unfold allowed_rule, nlri_id, for_flowspec. cbn [fst].
  pose proof (net_trunc_v4 (dst r)) as Hv. by destruct (net_addr (net_trunc _)), (net_addr (dst r)).
Qed.

(** What the receiver reads of the packet is the command. *)
Definition carries (c : SessionCommand) (b : list Z) : Prop :=
  match c with
  | Announce r => receive b = Some ([], [r]) ∧ receive_flowspec b = None
  | Withdraw p => receive b = Some ([p], []) ∧ receive_flowspec b = None
  | AnnounceFlowSpec r =>
      receive b = None ∧ receive_flowspec b = Some (FsAnnounced (nlri_id r) (rate_of r))
  | WithdrawFlowSpec r => receive b = None ∧ receive_flowspec b = Some (FsWithdrawn (nlri_id r))
  end.

Lemma synced_skip o c q s0 s :
  synced o s0 → ss_queue s0 = c :: q → commanded c s0 s → ss_sent s = ss_sent s0 →
  cmd_allowed o c = false → synced o s.
Proof.
  intros Hs Hq Hc Hsent Ha. eapply (synced_commanded o c q s0 s); [done..| | |].
  - intros p. rewrite Hsent. destruct (allowed o p) eqn:Hp; cycle 1.
    { destruct Hs as (_ & [Hr _] & _). by rewrite Hr, Hp. }
    destruct c as [r|p'| |]; cbn in Ha |- *; try done; symmetry.
    + apply lookup_insert_ne. intros <-. unfold allowed in Hp. congruence.
    + apply lookup_delete_ne. intros <-. unfold allowed in Hp. congruence.
  - intros id. rewrite Hsent. destruct (allowed_rule o id) eqn:Hp.
    + destruct c as [| |r|r]; cbn in Ha |- *; try done; symmetry.
      * apply lookup_insert_ne. intros <-. rewrite allowed_rule_id in Hp. congruence.
      * apply lookup_delete_ne. intros <-. rewrite allowed_rule_id in Hp. congruence.
    + destruct Hs as (_ & [_ Hf] & _). by rewrite Hf, Hp.
  - rewrite Hsent. apply Hs.
Qed.

Lemma synced_sent o c q s0 s b :
  synced o s0 → ss_queue s0 = c :: q → commanded c s0 s → ss_sent s = ss_sent s0 ++ [b] →
  carries c b → cmd_allowed o c = true → synced o s.
Proof.
  intros Hs Hq Hc Hsent Hb Ha. pose proof Hs as (_ & [Hr Hf] & Hn).
  eapply (synced_commanded o c q s0 s); [done..| | |]; rewrite Hsent.
  - intros p. unfold peer_rib. rewrite foldl_app. fold (peer_rib (ss_sent s0)). cbn [foldl].
    unfold peer_learn. destruct c as [r|p'|r|r]; cbn in Hb, Ha |- *; destruct Hb as [-> _];
      cbn; destruct (allowed o p) eqn:Hp; try done; try (by rewrite Hr, Hp).
    + rewrite lookup_insert_ne; [by rewrite Hr, Hp|]. intros <-. unfold allowed in Hp. congruence.
    + rewrite lookup_delete_ne; [by rewrite Hr, Hp|]. intros <-. unfold allowed in Hp. congruence.
  - intros id. unfold peer_rules. rewrite foldl_app. fold (peer_rules (ss_sent s0)). cbn [foldl].
    unfold peer_learn_rule. destruct c as [r|p'|r|r]; cbn in Hb, Ha |- *; destruct Hb as [_ ->];
      cbn; destruct (allowed_rule o id) eqn:Hp; try done; try (by rewrite Hf, Hp).
    + rewrite lookup_insert_ne; [by rewrite Hf, Hp|]. intros <-. rewrite allowed_rule_id in Hp. congruence.
    + rewrite lookup_delete_ne; [by rewrite Hf, Hp|]. intros <-. rewrite allowed_rule_id in Hp. congruence.
  - rewrite Forall_app, Forall_singleton. split; [done|].
    unfold negotiated. destruct c as [r|p'|r|r]; cbn in Hb, Ha; destruct Hb as [-> ->].
    + split_and!; [|done..]. intros ? ? [= <- <-] p. cbn. rewrite list_elem_of_singleton. by intros ->.
    + split_and!; [|done..]. intros ? ? [= <- <-] p. cbn. rewrite list_elem_of_singleton. by intros ->.
    + split_and!; [done| |done]. intros ? ? [= <- <-]. by rewrite allowed_rule_id.
    + split_and!; [done..|]. intros ? [= <-]. by rewrite allowed_rule_id.
Qed.

Definition handled (o : OpenMsg) (q acc : list SessionCommand) (s : Session) : Prop :=
  synced o s ∧ ss_queue s = q ∧ accepted s = acc.

(** One command, whether written, withheld or lost with the connection. *)
Lemma handle_command_ok B o (ok : bool) c q acc :
  ok = true ∨ (∀ s, base s → B s) →
  flow B (taken (λ s, synced o s ∧ accepted s = acc) c q) (handle_command o ok c)
    (handled o q acc).
Proof.
  intros HB s (s0 & [Hs Hacc] & Hq & ->). pose proof Hs as (Hb & _).
  assert (∀ s, commanded c s0 s → ss_queue s = q ∧ accepted s = acc) as Hrest.
  { intros s (Hc & Hq' & _). unfold accepted in *. rewrite Hc, Hq', <-Hacc, Hq. cbn.
    by rewrite <-app_assoc. }
  pose proof (taken_wf c q s0 Hb Hq) as [Hc _].
  assert (∀ s, commanded c s0 s → ss_sent s = ss_sent s0 → cmd_allowed o c = false →
    handled o q acc s) as Hskip by (intros; split; [by eapply synced_skip|auto]).
  assert (∀ s b, commanded c s0 s → ss_sent s = ss_sent s0 ++ [b] → carries c b →
    cmd_allowed o c = true → handled o q acc s) as Hsent
    by (intros; split; [by eapply synced_sent|auto]).
  assert (∀ s, commanded c s0 s → base s) as Hlost
    by (intros s Hcm; by eapply base_commanded).
  assert (∀ s, commanded c s0 s → ok = false → B s) as HB'
    by (intros s Hcm ->; destruct HB as [|HB]; [done|by apply HB, Hlost]).
  assert (∃ b, carries c b ∧ match c with
    | Announce r => build_announce r = Ret b | Withdraw p => build_withdraw p = Ret b
    | AnnounceFlowSpec r => build_flowspec_announce r = Ret b
    | WithdrawFlowSpec r => build_flowspec_withdraw r = Ret b end) as (b & Hcar & Hbuild).
  { destruct c as [r|p|r|r].
    - destruct (announce_packet r Hc) as (b & ? & ? & ?). by exists b.
    - destruct (withdraw_packet p Hc) as (b & ? & ? & ?). by exists b.
    - destruct (flowspec_announce_packet r Hc) as (b & ? & ? & ?). by exists b.
    - destruct (flowspec_withdraw_packet r Hc) as (b & ? & ? & ?). by exists b. }
  destruct c as [r|p|r|r]; cbn [handle_command cmd_allowed] in *;
    try rewrite (encode_flowspec_nlri_ok r Hc); cbn [with_packet];
    destruct (announce_allowed _ _); cbn [negb]; rewrite ?Hbuild; cbn [with_packet];
    unfold write_all; destruct ok; msimp;
    first [ eapply Hsent; [|reflexivity|exact Hcar|reflexivity]
          | apply Hskip; [|reflexivity|reflexivity] | apply HB'; [|reflexivity] ];
    unfold commanded; cbn; by rewrite Hq.
Qed.

(** *** Establishing a session *)

(** Nothing but the packets sent and the counters of skips has changed. *)
Definition same (s0 s : Session) : Prop :=
  ss_consumed s = ss_consumed s0 ∧ ss_queue s = ss_queue s0 ∧
  ss_consecutive_failures s = ss_consecutive_failures s0 ∧ ss_state s = ss_state s0.

(** [s] has sent the routes and rules of [m] and [f] and nothing else. *)
Definition sending (o : OpenMsg) (s0 : Session) (m : gmap IpNet Route)
    (f : gmap (IpNet * option Z * option Z) f32) (s : Session) : Prop :=
  base s ∧ same s0 s ∧ Forall (negotiated o) (ss_sent s) ∧
  peer_rib (ss_sent s) = m ∧ peer_rules (ss_sent s) = f.

Lemma reannounce_ok B o s0 m f rs ws :
  ws = [] ∨ (∀ s, base s → B s) →
  Forall (λ r, cmd_wf (Announce r)) rs →
  flow B (sending o s0 m f) (reannounce o rs ws)
    (sending o s0 (learned prefix id (allowed o) m rs) f).
Proof.
  intros HB Hrs. revert m ws HB. induction rs as [|r rs IH]; intros m ws HB; [apply flow_next|].
  apply Forall_cons in Hrs as [Hr Hrs]. cbn [reannounce learned foldl]. unfold allowed at 2.
  destruct (announce_allowed o (for_route (prefix r))) eqn:Ha; cbn [negb].
  - destruct (announce_packet r Hr) as (b & Hb & Hrx & Hfx).
    eapply flow_then; [eapply flow_packet; [exact Hb|]|apply IH; [done|destruct HB as [->|]; auto]].
    apply flow_write; [destruct HB as [->|HB]; [by left|right; intros s [? _]; auto]|]. intros s (Hbase & Hc & Hn & Hm & Hf).
    split_and!; cbn [ss_sent set_sent ss_consumed]; [exact Hbase|done| | |].
    + rewrite Forall_app, Forall_singleton. split; [done|]. unfold negotiated. rewrite Hrx, Hfx.
      split_and!; [|done..]. intros ? ? [= <- <-] p. cbn. rewrite list_elem_of_singleton. by intros ->.
    + unfold peer_rib in *. rewrite foldl_app, Hm. cbn. unfold peer_learn. by rewrite Hrx.
    + unfold peer_rules in *. rewrite foldl_app, Hf. cbn. unfold peer_learn_rule. by rewrite Hfx.
  - eapply flow_modify; [by apply IH|]. intros s Hs. exact Hs.
Qed.

Lemma reannounce_flowspec_ok B o s0 m f rs ws :
  ws = [] ∨ (∀ s, base s → B s) →
  Forall rule_wf rs →
  flow B (sending o s0 m f) (reannounce_flowspec o rs ws)
    (sending o s0 m (learned nlri_id rate_of (allowed_rule o) f rs)).
Proof.
  intros HB Hrs. revert f ws HB. induction rs as [|r rs IH]; intros f ws HB; [apply flow_next|].
  apply Forall_cons in Hrs as [Hr Hrs]. cbn [reannounce_flowspec learned foldl].
  rewrite allowed_rule_id.
  destruct (announce_allowed o (for_flowspec (dst r))) eqn:Ha; cbn [negb].
  - destruct (flowspec_announce_packet r Hr) as (b & Hb & Hfx & Hrx).
    eapply flow_then; [eapply flow_packet; [exact Hb|]|apply IH; [done|destruct HB as [->|]; auto]].
    apply flow_write; [destruct HB as [->|HB]; [by left|right; intros s [? _]; auto]|]. intros s (Hbase & Hc & Hn & Hm & Hf).
    split_and!; cbn [ss_sent set_sent ss_consumed]; [exact Hbase|done| | |].
    + rewrite Forall_app, Forall_singleton. split; [done|]. unfold negotiated. rewrite Hrx, Hfx.
      split_and!; [done| |done]. intros ? ? [= <- <-]. by rewrite allowed_rule_id.
    + unfold peer_rib in *. rewrite foldl_app, Hm. cbn. unfold peer_learn. by rewrite Hrx.
    + unfold peer_rules in *. rewrite foldl_app, Hf. cbn. unfold peer_learn_rule. by rewrite Hfx.
  - eapply flow_modify; [by apply IH|]. intros s Hs. exact Hs.
Qed.

(** Announcing the values of a map gives its negotiated part, in any order. *)
Lemma learned_values {X K K' V} `{Countable K, Countable K'} (key' : X → K') (key : X → K)
    (val : X → V) ok (m : gmap K' X) (d : gmap K X) k :
  (∀ k x, m !! k = Some x → key' x = k ∧ d !! key x = Some x) →
  (∀ k x, d !! k = Some x → key x = k ∧ m !! key' x = Some x) →
  learned key val ok ∅ (hm_iter m).*2 !! k = if ok k then val <$> d !! k else None.
Proof.
  intros Hm Hd.
  assert (∀ x, x ∈ (hm_iter m).*2 ↔ m !! key' x = Some x) as Hin.
  { intros x. rewrite list_elem_of_fmap. split.
    - intros ([k' x'] & -> & Hx%elem_of_hm_iter). cbn. by destruct (Hm k' x' Hx) as [-> _].
    - intros Hx. exists (key' x, x). split; [done|]. by apply elem_of_hm_iter. }
  assert (NoDup (key <$> (hm_iter m).*2)) as Hnd.
  { apply NoDup_fmap_2_strong.
    - intros x y [_ Hx]%Hin%Hm [_ Hy]%Hin%Hm Hxy. congruence.
    - apply (NoDup_fmap_1 key'). rewrite <-list_fmap_compose.
      erewrite (list_fmap_ext _ fst); [apply NoDup_hm_iter_fst|].
      intros i [k' x] Hi. cbn. by apply (Hm k' x), elem_of_hm_iter, (list_elem_of_lookup_2 _ i). }
  destruct (ok k) eqn:Hok; [|by rewrite learned_other by auto].
  destruct (d !! k) as [x|] eqn:Hx; cbn.
  - destruct (Hd k x Hx) as [<- Hx']. apply learned_elem; [done|by apply Hin|done].
  - rewrite learned_other; [done|]. left. intros (x & -> & Hk)%list_elem_of_fmap.
    apply Hin, Hm in Hk as [_ Hk]. congruence.
Qed.

Lemma rules_both cs r k :
  Forall cmd_wf cs → rules_of nlri_bytes cs !! k = Some r →
  nlri_bytes r = k ∧ rules_of nlri_id cs !! nlri_id r = Some r.
Proof.
  intros Hcs Hr. destruct (rules_of_entries _ _ _ _ Hcs Hr) as [<- Hwf].
  by rewrite <-rules_of_ids.
Qed.

Lemma rules_both' cs r k :
  Forall cmd_wf cs → rules_of nlri_id cs !! k = Some r →
  nlri_id r = k ∧ rules_of nlri_bytes cs !! nlri_bytes r = Some r.
Proof.
  intros Hcs Hr. destruct (rules_of_entries _ _ _ _ Hcs Hr) as [<- Hwf].
  by rewrite rules_of_ids.
Qed.

(** A new peer has been sent the active sets. *)
Lemma resynced o s0 routes rules s :
  base s0 → routes = (hm_iter (ss_active s0)).*2 → rules = (hm_iter (ss_active_flowspec s0)).*2 →
  sending o s0 (learned prefix id (allowed o) ∅ routes)
    (learned nlri_id rate_of (allowed_rule o) ∅ rules) s → synced o s.
Proof.
  intros (Hwf & Ha & Hru) -> -> (Hb & (Hc & _) & Hn & Hr & Hf). rewrite Ha in Hr. rewrite Hru in Hf.
  apply Forall_app in Hwf as [Hwf _]. set (cs := ss_consumed s0) in *.
  split_and!; [exact Hb| |exact Hn]. rewrite Hc. unfold delivers. rewrite Hr, Hf. split.
  - intros p. rewrite (learned_values prefix prefix id _ _ (rib_of cs)); [by rewrite option_fmap_id|..];
      intros k r Hk; destruct (rib_of_entries cs k r Hwf Hk) as [<- _]; done.
  - intros i. apply (learned_values nlri_bytes nlri_id rate_of).
    + intros k r. by apply rules_both.
    + intros k r. by apply rules_both'.
Qed.

(** The re-announcements of a session just confirmed. *)
Lemma reannounce_all_ok B o s0 ws ws' :
  base s0 → (ws = [] ∧ ws' = []) ∨ (∀ s, base s → B s) →
  flow B (sending o s0 ∅ ∅)
    (and_then (reannounce o (hm_iter (ss_active s0)).*2 ws)
       (reannounce_flowspec o (hm_iter (ss_active_flowspec s0)).*2 ws'))
    (λ s, synced o s ∧ same s0 s).
Proof.
  intros Hb HB. pose proof Hb as (Hwf & Ha & Hf). apply Forall_app in Hwf as [Hwf _].
  eapply flow_then; [apply reannounce_ok; [destruct HB as [[]|]; auto|]|].
  { rewrite Ha. apply Forall_forall. intros r ([k r'] & -> & Hr%elem_of_hm_iter)%list_elem_of_fmap.
    by eapply rib_of_entries. }
  intros s Hs. pose proof (reannounce_flowspec_ok B o s0
    (learned prefix id (allowed o) ∅ (hm_iter (ss_active s0)).*2) ∅
    (hm_iter (ss_active_flowspec s0)).*2 ws') as Hfl.
  assert (Forall rule_wf (hm_iter (ss_active_flowspec s0)).*2) as Hru.
  { rewrite Hf. apply Forall_forall. intros r ([k r'] & -> & Hr%elem_of_hm_iter)%list_elem_of_fmap.
    by eapply rules_of_entries. }
  specialize (Hfl ltac:(destruct HB as [[]|]; auto) Hru s Hs).
  destruct (eval _ s); [|done|done]. split; [by eapply resynced|apply Hfl].
Qed.

Lemma announce_active_ok B o s0 ws ws' :
  (ws = [] ∧ ws' = []) ∨ (∀ s, base s → B s) →
  flow B (λ s, calm s ∧ s = s0) (announce_active o ws ws')
    (λ s, synced o s ∧ same (set_state Established (set_failures 0 s0)) s).
Proof.
  intros HB s [[Hb Hq] ->]. set (s1 := set_state Established (set_failures 0 s0)).
  apply (reannounce_all_ok B o s1 ws ws' Hb HB). destruct (peer_all_quiet _ Hq).
  split_and!; [exact Hb|done..| | |]; [|done..].
  eapply Forall_impl; [exact Hq|]. intros b. apply quiet_negotiated.
Qed.

Lemma establish_ok now buf o h ws ws' : flow base calm (establish now buf o h ws ws') inv.
Proof.
  intros s Hs. apply (flow_then base (λ s', calm s' ∧ s' = s) (synced o) inv);
    [|apply established_top_ok|done].
  intros s1 Hs1. pose proof (announce_active_ok base o s ws ws' (or_intror (λ _ H, H)) s1 Hs1) as Ha.
  destruct (eval _ s1); [apply Ha|exact Ha..].
Qed.

(** *** The handshake *)

Lemma notify_ok P c sc ok :
  (∀ s b, P s → quiet b → P (set_sent (ss_sent s ++ [b]) s)) → flow base P (notify c sc ok) P.
Proof.
  intros HP s Hs. unfold notify. destruct (notification_packet c sc) as (b & -> & Hq).
  cbn [with_packet]. unfold write_all. destruct ok; msimp; [by apply HP|done].
Qed.

Lemma await_confirmation_ok now buf o h until ws ws' :
  flow base calm (await_confirmation now buf o h until ws ws') inv.
Proof.
  unfold await_confirmation, frames.
  destruct (frame_loop _ _ _ _ _ _) as [buf' u|buf' [u|f]] eqn:Hf.
  - apply (flow_modify base calm inv); [apply flow_next|]. intros s Hs.
    split; [exact Hs|by eapply frame_loop_drained].
  - apply establish_ok.
  - assert (∃ r, f = Return r) as [r ->].
    { refine (frame_loop_result (λ r, ∀ f, r = Err f → ∃ r, f = Return r)
        _ _ _ _ _ _ _ _ _ _ Hf f eq_refl); [intros ? [= <-]; by eexists|].
      intros [] ? ?; cbn; intros [= <-]; [done|done|]. intros ? [= <-]. by eexists. }
    apply flow_return. by intros s [? _].
Qed.

Lemma open_received_ok cfg now o buf ws ws' :
  flow base calm (open_received cfg now o buf ws ws') inv.
Proof.
  unfold open_received. destruct (negb _).
  { eapply flow_then; [apply notify_ok, calm_quiet|]. apply flow_return. by intros s [? _]. }
  destruct (_ || _).
  { eapply flow_then; [apply notify_ok, calm_quiet|]. apply flow_return. by intros s [? _]. }
  destruct keepalive_packet as (b & Hb & Hq).
  eapply flow_then; [eapply flow_packet; [exact Hb|]|apply await_confirmation_ok].
  apply flow_write; [right; by intros s [? _]|]. intros s Hs. by apply calm_quiet.
Qed.

Lemma connect_ok cfg connected ok : flow base base (connect cfg connected ok) inv.
Proof.
  unfold connect. destruct (negb connected); [by apply flow_return|].
  apply (flow_modify base base calm); [|intros s Hs; split; [exact Hs|constructor]].
  destruct (open_packet (local_open cfg)) as (b & Hb & Hq).
  apply (flow_then base calm calm).
  - eapply flow_packet; [exact Hb|]. apply flow_write; [right; by intros s [? _]|].
    intros s Hs. by apply calm_quiet.
  - apply (flow_modify base calm inv); [apply flow_next|]. intros s Hs.
    split; [exact Hs|]. left. unfold HEADER_LEN. simpl. lia.
Qed.

Lemma read_open_ok cfg now buf r ws ws' : flow base calm (read_open cfg now buf r ws ws') inv.
Proof.
  assert (∀ o, flow base calm (mret (Return o)) inv) as Hret
    by (intros o; apply flow_return; by intros s [? _]).
  unfold read_open, frames. destruct r as [|[|z bytes]]; [by apply Hret..|].
  destruct (_ <? _)%nat; [by apply Hret|].
  destruct (frame_loop _ _ _ _ _ _) as [buf' u|buf' [o|f]] eqn:Hf.
  - apply (flow_modify base calm inv); [apply flow_next|]. intros s Hs.
    split; [exact Hs|by eapply frame_loop_drained].
  - apply open_received_ok.
  - assert (∃ r, f = Return r) as [r ->]; [|apply Hret].
    refine (frame_loop_result (λ r, ∀ f, r = Err f → ∃ r, f = Return r)
      _ _ _ _ _ _ _ _ _ _ Hf f eq_refl); [intros ? [= <-]; by eexists|].
    intros [] ? ?; cbn; intros [= <-]; [done|]. intros ? [= <-]. by eexists.
Qed.

Lemma read_confirm_ok now buf o h u r ws ws' :
  flow base calm (read_confirm now buf o h u r ws ws') inv.
Proof.
  assert (∀ o, flow base calm (mret (Return o)) inv) as Hret
    by (intros ?; apply flow_return; by intros s [? _]).
  unfold read_confirm. destruct r as [|[|z bytes]]; [by apply Hret..|].
  destruct (_ <? _)%nat; [by apply Hret|]. apply await_confirmation_ok.
Qed.

(** *** The arms of the select *)

Lemma read_established_ok now buf o h ka hd r :
  flow base (synced o) (read_established now buf o h ka hd r) inv.
Proof.
  assert (∀ m, flow base (synced o) (mret (Return m)) inv) as Hret
    by (intros ?; apply flow_return; by intros s [? _]).
  unfold read_established. destruct r as [|[|z bytes]]; [by apply Hret..|].
  destruct (_ <? _)%nat; [by apply Hret|]. apply established_top_ok.
Qed.

Lemma timers_ok now buf o h ka hd ok :
  flow base (λ s, synced o s ∧ inv s) (timers now buf o h ka hd ok) inv.
Proof.
  unfold timers. destruct (expired now ka).
  { destruct keepalive_packet as (b & Hb & Hq).
    eapply flow_then; [eapply flow_packet; [exact Hb|]|apply established_top_ok].
    apply flow_write; [right; by intros s [[? _] _]|]. intros s [Hs _]. by apply synced_quiet. }
  destruct (expired now hd); [|by intros s [_ ?]].
  eapply flow_then; [eapply flow_pre; [apply (notify_ok (synced o)), synced_quiet|by intros s [? _]]|].
  apply flow_return. by intros s [? _].
Qed.

Lemma receive_command_ok now buf o h ka hd ok :
  flow base (λ s, synced o s ∧ inv s) (receive_command now buf o h ka hd ok) inv.
Proof.
  unfold receive_command. apply flow_gets. intros [|c q].
  - apply flow_gets. intros [].
    + apply flow_return. by intros s [[[[? _] _] _] _].
    + by intros s [[[_ ?] _] _].
  - apply (flow_modify base _ (taken (synced o) c q)).
    + intros s (s0 & Hs & Hq & ->).
      apply (flow_then base (taken (λ s, synced o s ∧ accepted s = accepted s0) c q)
               (handled o q (accepted s0)) inv); [| |by exists s0].
      * apply handle_command_ok. by right.
      * eapply flow_pre; [apply established_top_ok|]. by intros s [? _].
    + intros s [[Hs _] Hq]. by exists s.
Qed.

(** ** Every run keeps the invariant *)

Definition event_wf (e : Event) : Prop := match e with EvSend c => cmd_wf c | _ => True end.

Lemma send_inv c s : cmd_wf c → inv s → inv (exec (send c) s).
Proof.
  intros Hc Hi. unfold send, exec. destruct (receiver_dropped s) eqn:Hd; [done|]. cbn.
  assert (base s → base (set_queue (ss_queue s ++ [c]) s)) as Hbase.
  { intros (Hwf & Ha). split; [|exact Ha]. cbn. rewrite app_assoc, Forall_app, Forall_singleton. done. }
  unfold inv, receiver_dropped, calm, synced in *. cbn.
  destruct (ss_phase s); try done; intuition.
Qed.

Lemma react_inv cfg e s : event_wf e → inv s → inv (exec (react cfg e) s).
Proof.
  intros He Hi. unfold react. rewrite exec_gets. pose proof (inv_base s Hi) as Hb.
  destruct e as [c| |now cn ok|now r ws ws'|now ok|now ok].
  - rewrite exec_gets. destruct (ss_closed s); [done|]. rewrite exec_bind. by apply send_inv.
  - exact Hi.
  - destruct (ss_phase s) eqn:Hp; try done. eapply concluded; [apply connect_ok|done].
  - unfold inv in Hi. destruct (ss_phase s) eqn:Hp; try (change (inv s); unfold inv; by rewrite Hp).
    + eapply concluded; [apply read_open_ok|apply Hi].
    + eapply concluded; [apply read_confirm_ok|apply Hi].
    + eapply concluded; [apply read_established_ok|apply Hi].
  - destruct (ss_phase s) eqn:Hp; try done.
    + destruct (_ <=? _); [|done]. by apply conclude_ok.
    + eapply concluded; [apply timers_ok|]. split; [|done]. unfold inv in Hi. rewrite Hp in Hi. apply Hi.
    + destruct (_ <=? _); [|done]. exact Hb.
  - destruct (ss_phase s) eqn:Hp; try done.
    eapply concluded; [apply receive_command_ok|]. split; [|done].
    unfold inv in Hi. rewrite Hp in Hi. apply Hi.
Qed.

Lemma run_inv cfg evs s : Forall event_wf evs → inv s → inv (run_from cfg s evs).
Proof.
  intros Hevs. revert s. induction Hevs as [|e evs He Hevs IH]; intros s Hi; [done|].
  cbn. apply IH. by apply react_inv.
Qed.

Lemma spawned_inv : inv spawned.
Proof. unfold inv. cbn. split_and!; [constructor|done..]. Qed.

(** ** Segmentation *)

Lemma parse_header_app b d :
  (HEADER_LEN ≤ length b)%nat → parse_header (b ++ d) = parse_header b.
Proof.
  unfold HEADER_LEN. intros Hb. unfold parse_header, HEADER_LEN. rewrite length_app.
  rewrite !(proj2 (Nat.ltb_ge _ _)) by lia. rewrite !slice_ok by (rewrite ?length_app; lia).
  cbn [mbind rust_bind]. rewrite !drop_0, take_app_le by lia.
  unfold index_u16, index. by rewrite !lookup_app_l by (simpl; lia).
Qed.

Lemma whole_header m b :
  decode_message b = Ret (m, length b) →
  ∃ c, parse_header b = Ret (c, length b) ∧ (HEADER_LEN ≤ length b)%nat.
Proof.
  intros Hd. destruct (bgp_decode_total b) as [_ Hn]. specialize (Hn _ _ Hd).
  unfold decode_message in Hd. destruct (parse_header b) as [[c n]|e|]; [|done..].
  cbn [mbind rust_bind] in Hd. exists c. destruct (_ <? _)%nat; [done|].
  destruct (slice b HEADER_LEN n) as [body|e|]; [|done..]. cbn [mbind rust_bind] in Hd.
  destruct (match from_code c with Some MtOpen => _ | _ => _ end) as [msg|e|]; [|done..].
  cbn [mbind rust_bind] in Hd. injection Hd as _ ->. split; [done|]. unfold HEADER_LEN. lia.
Qed.

Section chunks.
Context {A R : Type} (on_err on_panic : R) (on_msg : BgpMessage → A → Turn A R).

Lemma frame_loop_fuel f1 f2 buf a :
  (length buf ≤ f1)%nat → (length buf ≤ f2)%nat →
  frame_loop on_err on_panic on_msg f1 buf a = frame_loop on_err on_panic on_msg f2 buf a.
Proof.
  revert f2 buf a. induction f1 as [|f1 IH]; intros f2 buf a H1 H2.
  { assert (buf = []) as -> by (apply length_zero_iff_nil; lia). by destruct f2. }
  destruct f2 as [|f2].
  { assert (buf = []) as -> by (apply length_zero_iff_nil; lia). done. }
  cbn [frame_loop]. destruct (Nat.ltb_spec (length buf) HEADER_LEN); [done|].
  destruct (parse_header_returns buf) as [_ Hn].
  destruct (parse_header buf) as [[c n]|e|]; [|done..]. specialize (Hn c n eq_refl).
  destruct (length buf <? n)%nat; [done|]. destruct (_ ≫= _) as [[m k]|e|]; [|done..].
  destruct (on_msg m a); [|done]. unfold HEADER_LEN in *. apply IH; rewrite length_drop; lia.
Qed.

(** How the peer's byte stream is cut into reads does not matter: reading it
    in two pieces is reading it at once. *)
Lemma frames_app b d a :
  frames on_err on_panic on_msg (b ++ d) a
  = match frames on_err on_panic on_msg b a with
    | NeedMore b' a' => frames on_err on_panic on_msg (b' ++ d) a'
    | Ended b' r => Ended (b' ++ d) r
    end.
Proof.
  unfold frames. remember (length b) as f eqn:Hf. assert (length b ≤ f)%nat as Hl by lia. clear Hf.
  revert b a Hl. induction f as [|f IH]; intros b a Hl; [done|]. cbn [frame_loop].
  destruct (Nat.ltb_spec (length b) HEADER_LEN) as [|Hh]; [done|].
  assert (∀ X, X = frame_loop on_err on_panic on_msg (S (length (b ++ d))) (b ++ d) a →
    frame_loop on_err on_panic on_msg (length (b ++ d)) (b ++ d) a = X) as Hs
    by (intros ? ->; apply frame_loop_fuel; lia).
  destruct (parse_header_returns b) as [_ Hn].
  destruct (parse_header b) as [[c n]|e|] eqn:Hp.
  2-3: apply Hs; cbn [frame_loop];
    rewrite (proj2 (Nat.ltb_ge (length (b ++ d)) _)) by (rewrite length_app; lia);
    by rewrite parse_header_app, Hp by done.
  specialize (Hn c n eq_refl). destruct (Nat.ltb_spec (length b) n) as [|Hbn]; [done|].
  apply Hs. cbn [frame_loop].
  rewrite !(proj2 (Nat.ltb_ge (length (b ++ d)) _)) by (rewrite length_app; lia).
  rewrite parse_header_app, Hp by done.
  rewrite !(proj2 (Nat.ltb_ge (length (b ++ d)) _)) by (rewrite length_app; lia).
  rewrite !slice_ok by (rewrite ?length_app; lia). cbn [mbind rust_bind].
  rewrite !drop_0, take_app_le by lia.
  destruct (decode_message _) as [[m k]|e|]; [|done..].
  rewrite drop_app_le by lia. destruct (on_msg m a); [|done]. unfold HEADER_LEN in *.
  rewrite <-IH by (rewrite length_drop; lia).
  apply frame_loop_fuel; rewrite !length_app, ?length_drop. all: lia.
Qed.

Lemma frames_drained buf a : drained buf → frames on_err on_panic on_msg buf a = NeedMore buf a.
Proof.
  unfold frames. intros Hd. destruct (length buf) eqn:Hl; [done|]. cbn [frame_loop]. rewrite Hl.
  destruct Hd as [Hd|(c & k & Hp & Hk)].
  - by rewrite (proj2 (Nat.ltb_lt _ _)) by lia.
  - rewrite Hp. destruct (_ <? _)%nat; [done|]. by rewrite (proj2 (Nat.ltb_lt _ _)) by lia.
Qed.

(** An encoded message at the front of the buffer is taken. *)
Lemma frames_message m b rest a :
  decode_message b = Ret (m, length b) →
  frames on_err on_panic on_msg (b ++ rest) a
  = match on_msg m a with
    | Again a' => frames on_err on_panic on_msg rest a'
    | Leave r => Ended rest r
    end.
Proof.
  intros Hd. destruct (whole_header m b Hd) as (c & Hp & Hn). rewrite frames_app.
  assert (frames on_err on_panic on_msg b a
          = match on_msg m a with Again a' => NeedMore [] a' | Leave r => Ended [] r end) as ->.
  { unfold frames. unfold HEADER_LEN in Hn. destruct (length b) as [|n] eqn:Hl; [lia|].
    cbn [frame_loop]. rewrite Hl, (proj2 (Nat.ltb_ge _ _)), Hp, Nat.ltb_irrefl
      by (unfold HEADER_LEN; lia).
    rewrite slice_ok by lia. cbn [mbind rust_bind]. rewrite drop_0, Nat.sub_0_r, <-Hl, firstn_all, Hd.
    rewrite drop_all. destruct (on_msg m a); [|done]. by destruct n. }
  by destruct (on_msg m a).
Qed.

(** C35: framing the peer's bytes terminates. Whatever the bytes and whatever is
    done with the messages, the decoder returns a message or an error; the
    loop over the buffer stops within as many turns as the buffer has bytes (so
    more fuel changes nothing), and what it leaves behind is less than one
    message; each message it hands on accounts for at least the 19 bytes of
    its header. *)
Theorem framing_terminates (buf : list Z) (a : A) :
  returns (decode_message buf) ∧
  (∀ fuel, (length buf ≤ fuel)%nat →
    frame_loop on_err on_panic on_msg fuel buf a = frames on_err on_panic on_msg buf a) ∧
  (∀ buf' a', frames on_err on_panic on_msg buf a = NeedMore buf' a' → drained buf') ∧
  (∀ buf' n, frames (R := R) on_err on_panic (λ _ n, Again (S n)) buf 0%nat = NeedMore buf' n →
    (HEADER_LEN * n + length buf' ≤ length buf)%nat).
Proof.
  split_and!.
  - apply bgp_decode_total.
  - intros fuel Hf. by apply frame_loop_fuel.
  - intros buf' a'. by apply frame_loop_drained.
  - intros buf' n Hn. apply frame_loop_counts in Hn. lia.
Qed.
End chunks.

(** A proper prefix of a message waits for the rest. *)
Lemma drained_prefix m p q :
  decode_message (p ++ q) = Ret (m, length (p ++ q)) → q ≠ [] → drained p.
Proof.
  intros Hd Hq. destruct (whole_header m _ Hd) as (c & Hp & _).
  destruct (decide (length p < HEADER_LEN)%nat) as [|Hl]; [by left|]. right. exists c, (length (p ++ q)).
  rewrite parse_header_app in Hp by lia. split; [done|]. rewrite length_app.
  destruct q; [done|]. simpl. lia.
Qed.

(** ** Catching up *)

Lemma established_top_drained now buf o h ka hd :
  drained buf →
  established_top now buf o h ka hd
  = (modify (set_phase (AtEstablished buf o h ka hd));; mret Next).
Proof. intros Hd. unfold established_top. by rewrite frames_drained. Qed.

(** The task takes one command; the write succeeds. *)
Lemma command_step cfg now s buf o h ka hd c q :
  inv s → ss_phase s = AtEstablished buf o h ka hd → ss_queue s = c :: q →
  let s' := exec (react cfg (EvCommand now true)) s in
  inv s' ∧ ss_phase s' = AtEstablished buf o h ka hd ∧ ss_queue s' = q ∧ accepted s' = accepted s.
Proof.
  intros Hi Hp Hq s'. split; [by apply react_inv|]. subst s'. unfold react.
  rewrite exec_gets, Hp, exec_bind. unfold receive_command. unfold inv in Hi. rewrite Hp in Hi.
  destruct Hi as [Hs Hd]. rewrite eval_bind, exec_bind.
  change (eval (gets ss_queue) s) with (ss_queue s). change (exec (gets ss_queue) s) with s.
  rewrite Hq. rewrite eval_bind, exec_bind. change (exec (modify _) s) with (take_command c q s).
  pose proof (handle_command_ok (λ _, False) o true c q (accepted s) (or_introl eq_refl)
    (take_command c q s)) as Hh.
  assert (taken (λ s0, synced o s0 ∧ accepted s0 = accepted s) c q (take_command c q s)) as Ht
    by (by exists s).
  specialize (Hh Ht). unfold and_then. rewrite eval_bind, exec_bind.
  destruct (eval (handle_command o true c) _); [|done..].
  rewrite established_top_drained by done. by destruct Hh as (_ & ? & ?).
Qed.

Lemma catch_up cfg now q s buf o h ka hd :
  inv s → ss_phase s = AtEstablished buf o h ka hd → ss_queue s = q →
  let s' := run_from cfg s (replicate (length q) (EvCommand now true)) in
  inv s' ∧ ss_phase s' = AtEstablished buf o h ka hd ∧ ss_queue s' = [] ∧ accepted s' = accepted s.
Proof.
  revert s. induction q as [|c q IH]; intros s Hi Hp Hq; [done|].
  destruct (command_step cfg now s buf o h ka hd c q Hi Hp Hq) as (Hi' & Hp' & Hq' & Ha).
  destruct (IH _ Hi' Hp' Hq') as (? & ? & ? & Ha'). cbn in *. by rewrite <-Ha.
Qed.

(** An established session with nothing queued has delivered everything. *)
Lemma inv_delivers s buf o h ka hd :
  inv s → ss_phase s = AtEstablished buf o h ka hd → ss_queue s = [] →
  delivers o (ss_sent s) (rib s) (fs_rib s).
Proof.
  intros Hi Hp Hq. unfold inv in Hi. rewrite Hp in Hi. destruct Hi as [(_ & Hd & _) _].
  unfold rib, fs_rib. cbn. by rewrite Hq, app_nil_r.
Qed.

(** ** Coming up *)

Definition reads (now : Z) (chunks : list (list Z)) : list Event :=
  (λ c, EvRead now (ReadOk c) [] []) <$> chunks.

(** What an acceptable OPEN is to this configuration. *)
Definition open_acceptable (cfg : PeerConfig) (o : OpenMsg) : Prop :=
  msg_wf (Open o) ∧ asn o = peer_asn cfg ∧ hold_time o ≠ 1 ∧ hold_time o ≠ 2.

Definition is_up (o : OpenMsg) (h : Z) (acc : list SessionCommand) (s : Session) : Prop :=
  inv s ∧ (∃ ka hd, ss_phase s = AtEstablished [] o h ka hd) ∧ ss_state s = Established ∧
  ss_consecutive_failures s = 0 ∧ accepted s = acc.

Lemma establish_up now o h s :
  calm s →
  let m := f ← establish now [] o h [] []; conclude now f in
  is_up o h (accepted s) (exec m s).
Proof.
  intros Hs m. assert (inv (exec m s)) as Hi by (eapply concluded; [apply establish_ok|done]).
  pose proof (announce_active_ok (λ _, False) o s [] [] (or_introl (conj eq_refl eq_refl)) s
    (conj Hs eq_refl)) as Ha.
  assert (exec m s = set_phase (AtEstablished [] o h (deadline now (ka_interval h))
    (deadline now (hold_dur h))) (exec (announce_active o [] []) s)) as He.
  { subst m. unfold establish, and_then. rewrite exec_bind, eval_bind, exec_bind.
    destruct (eval (announce_active o [] []) s); [|done..].
    by rewrite established_top_drained by (left; unfold HEADER_LEN; simpl; lia). }
  destruct (eval (announce_active o [] []) s); [|done..].
  destruct Ha as [_ (Hc & Hq & Hf & Hst)]. unfold is_up. split; [exact Hi|]. rewrite He.
  split_and!; [by eauto|exact Hst|exact Hf|]. unfold accepted.
  cbn [ss_consumed ss_queue set_phase]. by rewrite Hc, Hq.
Qed.

(** One read while waiting for the confirmation, and for the OPEN. *)
Lemma react_confirm cfg now s p o h u c :
  ss_phase s = AtConfirm p o h u → c ≠ [] → (length (p ++ c) ≤ 4096)%nat →
  exec (react cfg (EvRead now (ReadOk c) [] [])) s
  = exec (f ← await_confirmation now (p ++ c) o h u [] []; conclude now f) s.
Proof.
  intros Hp Hc Hl. unfold react. rewrite exec_gets, Hp. unfold read_confirm.
  destruct c as [|z c]; [done|]. by rewrite (proj2 (Nat.ltb_ge _ _)) by (unfold READ_BUF_LIMIT; lia).
Qed.

Lemma react_open cfg now s p c :
  ss_phase s = AtOpen p → c ≠ [] → (length (p ++ c) ≤ 4096)%nat →
  exec (react cfg (EvRead now (ReadOk c) [] [])) s
  = exec (f ← match frames (Err (Return (Reconnect "decode error during handshake"))) (Err Unwind)
                      open_on_msg (p ++ c) () with
              | NeedMore buf _ => modify (set_phase (AtOpen buf));; mret Next
              | Ended buf (Ok o) => open_received cfg now o buf [] []
              | Ended _ (Err f) => mret f
              end; conclude now f) s.
Proof.
  intros Hp Hc Hl. unfold react. rewrite exec_gets, Hp. unfold read_open.
  destruct c as [|z c]; [done|]. by rewrite (proj2 (Nat.ltb_ge _ _)) by (unfold READ_BUF_LIMIT; lia).
Qed.

Lemma concat_nil (chunks : list (list Z)) :
  Forall (λ c, c ≠ []) chunks → concat chunks = [] → chunks = [].
Proof. by intros [|[|z c] l ? ?]. Qed.

(** The peer's bytes, from the wait for its confirmation. *)
Lemma confirm_up cfg now o h u kb chunks s p :
  inv s → ss_phase s = AtConfirm p o h u → decode_message kb = Ret (Keepalive, length kb) →
  (length kb ≤ 4096)%nat → Forall (λ c, c ≠ []) chunks → p ++ concat chunks = kb →
  (length p < length kb)%nat →
  is_up o h (accepted s) (run_from cfg s (reads now chunks)).
Proof.
  intros Hi Hp Hk Hle Hne. revert s p Hi Hp. induction Hne as [|c chunks Hc Hne IH];
    intros s p Hi Hp Hcat Hlt; cbn [concat] in Hcat.
  { rewrite app_nil_r in Hcat. subst. lia. }
  change (is_up o h (accepted s) (run_from cfg
    (exec (react cfg (EvRead now (ReadOk c) [] [])) s) (reads now chunks))).
  assert (length (p ++ c) ≤ 4096)%nat as Hl by (subst kb; rewrite !length_app in *; lia).
  pose proof (react_inv cfg (EvRead now (ReadOk c) [] []) s I Hi) as Hi'.
  rewrite (react_confirm cfg now s p o h u c Hp Hc Hl) in Hi' |- *.
  rewrite app_assoc in Hcat. unfold inv in Hi. rewrite Hp in Hi. destruct Hi as [Hcalm _].
  unfold await_confirmation in *. destruct (concat chunks) as [|x rest] eqn:Hrest.
  - rewrite (concat_nil chunks Hne Hrest). rewrite app_nil_r in Hcat. rewrite Hcat.
    rewrite <-(app_nil_r kb), (frames_message _ _ _ _ _ _ _ Hk). cbn [confirm_on_msg].
    by apply establish_up.
  - assert (drained (p ++ c)) as Hd by (eapply drained_prefix; [by rewrite Hcat|done]).
    rewrite frames_drained in Hi' |- * by done.
    assert (length (p ++ c) < length kb)%nat as Hlt' by (rewrite <-Hcat, !length_app; simpl; lia).
    exact (IH _ (p ++ c) Hi' eq_refl Hcat Hlt').
Qed.

Lemma open_received_acceptable cfg now o buf s :
  open_acceptable cfg o →
  ∃ b, quiet b ∧
    exec (f ← open_received cfg now o buf [] []; conclude now f) s
    = exec (f ← await_confirmation now buf o (Z.min (cfg_hold_time cfg) (hold_time o))
              (now + confirm_timeout (Z.min (cfg_hold_time cfg) (hold_time o))) [] [];
            conclude now f) (set_sent (ss_sent s ++ [b]) s).
Proof.
  intros (_ & Ha & Hh1 & Hh2). destruct keepalive_packet as (b & Hb & Hq). exists b. split; [done|].
  unfold open_received. rewrite (proj2 (Z.eqb_eq _ _) Ha). cbn [negb].
  rewrite (proj2 (Z.eqb_neq _ _) Hh1), (proj2 (Z.eqb_neq _ _) Hh2). cbn [orb]. rewrite Hb. done.
Qed.

(** The peer's bytes, from the wait for its OPEN. *)
Lemma open_up cfg now o ob kb chunks s p :
  let h := Z.min (cfg_hold_time cfg) (hold_time o) in
  inv s → ss_phase s = AtOpen p → open_acceptable cfg o →
  decode_message ob = Ret (Open o, length ob) → decode_message kb = Ret (Keepalive, length kb) →
  (length ob + length kb ≤ 4096)%nat → Forall (λ c, c ≠ []) chunks →
  p ++ concat chunks = ob ++ kb → (length p < length ob)%nat →
  is_up o h (accepted s) (run_from cfg s (reads now chunks)).
Proof.
  intros h Hi Hp Ho Hob Hkb Hle Hne. revert s p Hi Hp. induction Hne as [|c chunks Hc Hne IH];
    intros s p Hi Hp Hcat Hlt; cbn [concat] in Hcat.
  { rewrite app_nil_r in Hcat. subst. rewrite length_app in Hlt. lia. }
  change (is_up o h (accepted s) (run_from cfg
    (exec (react cfg (EvRead now (ReadOk c) [] [])) s) (reads now chunks))).
  rewrite app_assoc in Hcat. pose proof (f_equal length Hcat) as Hl. rewrite !length_app in Hl.
  assert (length (p ++ c) ≤ 4096)%nat as Hl' by (rewrite length_app; lia).
  pose proof (react_inv cfg (EvRead now (ReadOk c) [] []) s I Hi) as Hi'.
  rewrite (react_open cfg now s p c Hp Hc Hl') in Hi' |- *.
  unfold inv in Hi. rewrite Hp in Hi. destruct Hi as [Hcalm _].
  destruct (decide (length (p ++ c) < length ob)%nat) as [Hs|Hs].
  - assert (drained (p ++ c)) as Hd.
    { apply app_eq_inv in Hcat as [(k & Hk & _)|(k & Hk & _)]; [rewrite Hk, length_app in Hs; lia|].
      apply (drained_prefix (Open o) _ k); [by rewrite <-Hk|]. intros ->.
      rewrite app_nil_r in Hk. rewrite Hk in Hs. lia. }
    rewrite frames_drained in Hi' |- * by done. exact (IH _ (p ++ c) Hi' eq_refl Hcat Hs).
  - assert (∃ k, p ++ c = ob ++ k ∧ k ++ concat chunks = kb) as (k & Hk & Hkc).
    { apply app_eq_inv in Hcat as [(k & Hk & Hk')|(k & Hk & Hk')]; [by exists k|].
      exists []. pose proof (f_equal length Hk) as Hl3. rewrite length_app in Hl3.
      destruct k; [|cbn [length] in Hl3; lia]. rewrite app_nil_r in *. by rewrite Hk, Hk'. }
    rewrite Hk, (frames_message _ _ _ _ _ _ _ Hob) in Hi' |- *. cbn [open_on_msg] in *.
    destruct (open_received_acceptable cfg now o k s Ho) as (b & Hq & He). rewrite He in Hi' |- *.
    pose proof (calm_quiet s b Hcalm Hq) as Hcalm'. change (accepted s) with
      (accepted (set_sent (ss_sent s ++ [b]) s)).
    set (s1 := set_sent _ s) in *. fold h in Hi' |- *. set (u := now + confirm_timeout h) in *.
    unfold await_confirmation in *. destruct (decide (length k < length kb)%nat) as [Hlk|Hlk].
    + assert (drained k) as Hd.
      { eapply (drained_prefix Keepalive k); [by rewrite Hkc|]. intros Hn. rewrite Hn, app_nil_r in Hkc.
        subst. lia. }
      rewrite frames_drained in Hi' |- * by done.
      refine (confirm_up cfg now o h u kb chunks _ k Hi' eq_refl Hkb _ Hne Hkc Hlk). lia.
    + assert (k = kb ∧ chunks = []) as [-> ->].
      { pose proof (f_equal length Hkc) as Hl2. rewrite length_app in Hl2.
        assert (concat chunks = []) as Hn by (apply length_zero_iff_nil; lia).
        rewrite Hn, app_nil_r in Hkc. split; [done|by apply concat_nil]. }
      rewrite <-(app_nil_r kb), (frames_message _ _ _ _ _ _ _ Hkb). cbn [confirm_on_msg].
      by apply establish_up.
Qed.

Lemma connect_step cfg now s :
  inv s → ss_phase s = AtConnect →
  let s' := exec (react cfg (EvConnect now true true)) s in
  inv s' ∧ ss_phase s' = AtOpen [] ∧ accepted s' = accepted s.
Proof.
  intros Hi Hp s'. split; [by apply react_inv|]. subst s'. unfold react.
  rewrite exec_gets, Hp. unfold connect. destruct (open_packet (local_open cfg)) as (b & -> & _). done.
Qed.

Lemma handshake_length o ob kb :
  msg_wf (Open o) → encode_open o = Ret ob → encode_keepalive = Ret kb →
  (length ob + length kb ≤ 4096)%nat.
Proof.
  intros Hw. destruct (decode_open_roundtrip o Hw) as (body & -> & Hl & _).
  rewrite encode_header_ok by lia. unfold encode_keepalive.
  rewrite encode_header_ok by (simpl; lia). intros <-%Ret_inj <-%Ret_inj.
  rewrite !length_app, !length_be_bytes. unfold MARKER. rewrite !length_replicate. cbn [length]. lia.
Qed.

(** ** Theorems *)




(** The wait for the peer's OPEN has no bound: a session whose peer has
    accepted the connection and stays silent never leaves that wait, however
    much time passes and whatever is asked of it; only bytes, the end of the
    stream or an error of the socket end it. No command is taken meanwhile. *)
Theorem open_wait_unbounded cfg s buf evs :
  ss_phase s = AtOpen buf →
  Forall (λ e, match e with EvRead _ _ _ _ => False | _ => True end) evs →
  ss_phase (run_from cfg s evs) = AtOpen buf ∧
  ss_consumed (run_from cfg s evs) = ss_consumed s ∧ ss_state (run_from cfg s evs) = ss_state s.
Proof.
  intros Hp Hevs. revert s Hp. induction Hevs as [|e evs He Hevs IH]; intros s Hp; [done|].
  change (run_from cfg s (e :: evs)) with (run_from cfg (exec (react cfg e) s) evs).
  assert (ss_phase (exec (react cfg e) s) = AtOpen buf ∧
    ss_consumed (exec (react cfg e) s) = ss_consumed s ∧
    ss_state (exec (react cfg e) s) = ss_state s) as (Hp' & <- & <-); [|by apply IH].
  unfold react. rewrite exec_gets, Hp. destruct e; try done.
  rewrite exec_gets. destruct (ss_closed s); [done|]. unfold send, receiver_dropped.
  rewrite exec_bind. unfold exec at 2 4 6. by rewrite Hp.
Qed.
End spec.

(** ** Examples *)

#[local] Existing Instance RefNet.lib.
#[local] Existing Instance RefNet.order.

Definition ex_cfg : PeerConfig := {|
  local_asn := 65001; peer_asn := 65001; peer_addr := (ipv4 192 0 2 1, 179);
  cfg_router_id := 3221225986; cfg_hold_time := 90; md5 := None; gtsm_hops := Some 1;
  local_addr := None |}.

(** A peer that did not negotiate FlowSpec. *)
Definition ex_peer : OpenMsg := {|
  asn := 65001; hold_time := 30; router_id := 3221225985; ipv4_unicast := true;
  ipv6_unicast := true; flowspec_v4 := false; flowspec_v6 := false |}.

Definition ex_host_route : Route := {|
  prefix := host_prefix (ipv4 203 0 113 7); next_hop := ipv4 192 0 2 1; route_origin := Igp;
  communities := [(65535, 666)]; large_communities := [] |}.

Definition ex_bytes (m : rust DecodeError (list Z)) : list Z :=
  match m with Ret b => b | _ => [] end.
Definition ex_open_bytes : list Z := ex_bytes (encode_open ex_peer).
Definition ex_keepalive_bytes : list Z := ex_bytes encode_keepalive.

(** A connect that fails and a route announced meanwhile. *)
Definition ex_outage : list Event :=
  [EvConnect 0 false true; EvSend (Announce ex_host_route);
   EvSend (AnnounceFlowSpec (ex_wire_rule 53)); EvTick 2000 true].

Lemma ex_outage_wf : Forall event_wf ex_outage.
Proof.
  unfold ex_outage. rewrite !Forall_cons, Forall_nil. split_and!; [done| | |done|done].
  - split; [|apply net_trunc_host]. unfold route_wf. split_and!.
    + assert (net_addr (prefix ex_host_route) = V4 3405803783) as -> by vm_refl.
      unfold ip_wf. simpl. lia.
    + unfold ip_wf. simpl. unfold be_value. simpl. lia.
    + vm_refl.
    + apply Forall_singleton. split; split; discriminate.
    + constructor.
    + simpl. lia.
  - apply ex_wire_rule_wf. split; discriminate.
Qed.

(** The first wait after a failed connect is two seconds. *)
Lemma ex_first_backoff :
  ss_phase (run_from ex_cfg spawned [EvConnect 0 false true]) = AtBackoff 2000 ∧
  backoff_delay 0 = 1000 ∧ backoff_delay 4 = 16000 ∧ backoff_delay 5 = 30000.
Proof. done. Qed.

Lemma ex_valid : validate ex_cfg = Ok () ∧ gtsm_min_ttl 1 = 255.
Proof. done. Qed.

Lemma ex_acceptable : open_acceptable ex_cfg ex_peer.
Proof. unfold open_acceptable, msg_wf, u32_ok, u16_ok, u32_max, u16_max. simpl. lia. Qed.




Lemma open_wait_unbounded_witness :
  let s := run_from ex_cfg spawned [EvConnect 0 true true] in
  ss_phase (run_from ex_cfg s [EvTick 86400000 true; EvSend (Announce ex_host_route)]) = AtOpen [].
Proof.
  apply (open_wait_unbounded ex_cfg (run_from ex_cfg spawned [EvConnect 0 true true]) []).
  - reflexivity.
  - rewrite !Forall_cons, Forall_nil. done.
Defined.
