(* ===== verification/Detector.v ===== *)
(** * The threshold detector

    Model of [crates/blackwall-flow/src/detector.rs] and [agents.rs]: sampled
    packets are accumulated per destination, and each tick turns the rates of
    the window into a stream of [Opened], [Updated] and [Cleared] events. The
    reference is an automaton per target that accepts exactly the streams the
    mitigation planes rely on. *)
From stdpp Require Import prelude gmap strings.
From S2P Require Import Prelude Net Float Core Flow.

Open Scope Z_scope.

(** ** Standard library *)

(** [slice::sort_by]: a stable sort, elements in increasing [cmp] order. *)
Fixpoint insert_by {A} (cmp : A → A → comparison) (x : A) (l : list A) : list A :=
  match l with
  | [] => [x]
  | y :: l' => match cmp x y with Gt => y :: insert_by cmp x l' | _ => x :: l end
  end.

Definition sort_by {A} (cmp : A → A → comparison) (l : list A) : list A :=
  foldr (insert_by cmp) [] l.

(** [Iterator::max_by_key]: the last of the maximal elements. *)
Definition max_by_key {A} (key : A → Z) (l : list A) : option A :=
  match l with
  | [] => None
  | x :: l' => Some (foldl (λ m y, if key y <? key m then m else y) x l')
  end.

(** [*m.entry(k).or_insert(0) += 1] on a map of [u64] counters. *)
Definition bump {K} `{Countable K} (k : K) (m : gmap K Z) : gmap K Z :=
  <[k := (default 0 (m !! k) + 1) mod 2 ^ 64]> m.

(** [*m.entry(k).or_insert(0) = entry.saturating_add(n)] on a map of [u128] sums. *)
Definition accumulate {K} `{Countable K} (k : K) (n : Z) (m : gmap K Z) : gmap K Z :=
  <[k := sat_add u128_max (default 0 (m !! k)) n]> m.

(** ** Agents *)

Record AgentInfo := { ai_name : string; ai_expected_sampling : Z }.

Definition AgentRegistry : Type := gmap IpAddr AgentInfo.

Definition from_entries (entries : list PopEntry) : AgentRegistry :=
  foldl (λ m e, <[pe_agent e := {| ai_name := pe_name e; ai_expected_sampling := pe_sampling e |}]> m)
    ∅ entries.

Definition agent_name (r : AgentRegistry) (agent : IpAddr) : string :=
  match r !! agent with Some i => ai_name i | None => "unknown" end.

Definition expected_sampling (r : AgentRegistry) (agent : IpAddr) : option Z :=
  ai_expected_sampling <$> r !! agent.

(** ** State *)

Record Sample := {
  s_ts_ms : Z;
  s_src : IpAddr;
  s_dst_port : Z;
  s_proto : Z;
  s_est_packets : Z;
  s_est_bytes : Z;
  s_agent : IpAddr;
}.

Record DstState := {
  samples : list Sample;
  open : bool;
  first_seen_ms : Z;
  last_over_ms : Z;
}.

Record DetectorConfig := {
  cfg_pps_threshold : f64;
  cfg_bps_threshold : f64;
  cfg_window_ms : Z;
  cfg_hold_down_ms : Z;
  cfg_min_samples : nat;
  cfg_max_sampling_factor : Z;
}.

Record AgentStat := {
  as_pop : string;
  as_last_seen_ms : Z;
  as_mismatches : Z;
  as_near_ceiling : Z;
}.

Section detector.
Context `{IpNetLib} `{HashOrder}.

Record ThresholdDetector := {
  prefixes : list IpNet;
  pps_threshold : f64;
  bps_threshold : f64;
  window_ms : Z;
  hold_down_ms : Z;
  min_samples : nat;
  max_sampling_factor : Z;
  dst_states : gmap IpAddr DstState;
  agents : AgentRegistry;
  agent_last_seen : gmap IpAddr Z;
  sampling_mismatches : gmap IpAddr Z;
  sampling_near_ceiling : gmap IpAddr Z;
  unknown_agent_observations : Z;
  min_sample_suppressed : Z;
  detections_opened : Z;
  detections_cleared : Z;
}.

Definition detector_new (ps : list IpNet) (cfg : DetectorConfig) (ags : AgentRegistry)
    : ThresholdDetector := {|
  prefixes := ps; pps_threshold := cfg_pps_threshold cfg; bps_threshold := cfg_bps_threshold cfg;
  window_ms := cfg_window_ms cfg; hold_down_ms := cfg_hold_down_ms cfg;
  min_samples := cfg_min_samples cfg;
  max_sampling_factor := Z.max (cfg_max_sampling_factor cfg) 4;
  dst_states := ∅; agents := ags; agent_last_seen := ∅; sampling_mismatches := ∅;
  sampling_near_ceiling := ∅; unknown_agent_observations := 0; min_sample_suppressed := 0;
  detections_opened := 0; detections_cleared := 0 |}.

(** Field updates: the agent bookkeeping, and the destinations with the counters. *)
Definition set_agents_seen (seen mism near : gmap IpAddr Z) (unknown : Z) (d : ThresholdDetector)
    : ThresholdDetector := {|
  prefixes := prefixes d; pps_threshold := pps_threshold d; bps_threshold := bps_threshold d;
  window_ms := window_ms d; hold_down_ms := hold_down_ms d; min_samples := min_samples d;
  max_sampling_factor := max_sampling_factor d; dst_states := dst_states d; agents := agents d;
  agent_last_seen := seen; sampling_mismatches := mism; sampling_near_ceiling := near;
  unknown_agent_observations := unknown; min_sample_suppressed := min_sample_suppressed d;
  detections_opened := detections_opened d; detections_cleared := detections_cleared d |}.

Definition set_dsts (m : gmap IpAddr DstState) (suppressed opened cleared : Z)
    (d : ThresholdDetector) : ThresholdDetector := {|
  prefixes := prefixes d; pps_threshold := pps_threshold d; bps_threshold := bps_threshold d;
  window_ms := window_ms d; hold_down_ms := hold_down_ms d; min_samples := min_samples d;
  max_sampling_factor := max_sampling_factor d; dst_states := m; agents := agents d;
  agent_last_seen := agent_last_seen d; sampling_mismatches := sampling_mismatches d;
  sampling_near_ceiling := sampling_near_ceiling d;
  unknown_agent_observations := unknown_agent_observations d;
  min_sample_suppressed := suppressed; detections_opened := opened;
  detections_cleared := cleared |}.

Definition set_states (m : gmap IpAddr DstState) (d : ThresholdDetector) : ThresholdDetector :=
  set_dsts m (min_sample_suppressed d) (detections_opened d) (detections_cleared d) d.

(** ** Observations *)

(** The direction-aware clamp of a known agent's reported rate: the rate used,
    whether it counts as a mismatch, and whether it is near the ceiling. *)
Definition clamp_rate (factor expected reported : Z) : Z * bool * bool :=
  let lo := expected / 4 in
  let ceiling := sat_mul u32_max expected factor in
  if reported <? lo then (expected, true, false)
  else if sat_mul u32_max expected 4 <? reported then
    let trusted := Z.min reported ceiling in
    (trusted, true, ceiling / 2 <=? trusted)
  else (reported, false, false).

(** The liveness and sampling bookkeeping; returns the effective rate. *)
Definition effective_rate (obs : FlowObservation) (now : Z) : M ThresholdDetector Z := λ d,
  match expected_sampling (agents d) (o_agent obs) with
  | Some expected =>
      let '(rate, mismatch, near) :=
        clamp_rate (max_sampling_factor d) expected (o_sampling_rate obs) in
      (rate,
       set_agents_seen
         (<[o_agent obs := now]> (agent_last_seen d))
         (if mismatch then bump (o_agent obs) (sampling_mismatches d) else sampling_mismatches d)
         (if near then bump (o_agent obs) (sampling_near_ceiling d) else sampling_near_ceiling d)
         (unknown_agent_observations d) d)
  | None =>
      (o_sampling_rate obs,
       set_agents_seen (agent_last_seen d) (sampling_mismatches d) (sampling_near_ceiling d)
         (u64_sat_add (unknown_agent_observations d) 1) d)
  end.

Definition observe (obs : FlowObservation) (now : Z) : M ThresholdDetector unit :=
  rate ← effective_rate obs now;
  modify (λ d,
    if negb (any_contains (prefixes d) (o_dst obs)) then d
    else
      let entry := default {| samples := []; open := false; first_seen_ms := 0; last_over_ms := 0 |}
                     (dst_states d !! o_dst obs) in
      let sample := {| s_ts_ms := now; s_src := o_src obs; s_dst_port := o_dst_port obs;
                       s_proto := o_proto obs; s_est_packets := rate;
                       s_est_bytes := rate * o_frame_len obs; s_agent := o_agent obs |} in
      set_states
        (<[o_dst obs := {| samples := samples entry ++ [sample]; open := open entry;
                           first_seen_ms := first_seen_ms entry;
                           last_over_ms := last_over_ms entry |}]> (dst_states d)) d).

(** ** Building a detection *)

Definition f64_1000 : f64 := f64_of_int 1000.
Definition f64_8 : f64 := f64_of_int 8.

Definition window_secs (d : ThresholdDetector) : f64 :=
  f64_div (f64_of_int (Z.max (window_ms d) 1)) f64_1000.

Definition source_block (src : IpAddr) : IpNet :=
  match src with
  | V4 a => match net_new (V4 a) 24 with
            | Some n => net_trunc n | None => expect (net_new (V4 a) 32) end
  | V6 a => match net_new (V6 a) 48 with
            | Some n => net_trunc n | None => expect (net_new (V6 a) 128) end
  end.

(** The samples' packets summed by a key. *)
Definition sum_by {K} `{Countable K} (key : Sample → K) (ss : list Sample) : gmap K Z :=
  foldl (λ m s, accumulate (key s) (s_est_packets s) m) ∅ ss.

(** Descending order of a count, as [sort_by_key(|e| Reverse(e.1))]. *)
Definition by_count_desc {K} (a b : K * Z) : comparison := (b.2 ?= a.2).

Definition top_rates {K} `{Countable K} (n : nat) (secs : f64) (m : gmap K Z) : list (K * f64) :=
  (λ e : K * Z, (e.1, f64_div (f64_of_int e.2) secs)) <$> take n (sort_by by_count_desc (hm_iter m)).

Definition build_detection (d : ThresholdDetector) (target : IpAddr) (pps bps : f64)
    (ss : list Sample) (first last : Z) : Detection :=
  let secs := window_secs d in
  let pop_pkts := foldl (λ m s,
    let e := default (0, 0) (m !! s_agent s) in
    <[s_agent s := (sat_add u128_max e.1 (s_est_packets s),
                    sat_add u128_max e.2 (s_est_bytes s))]> m) (∅ : gmap IpAddr (Z * Z)) ss in
  let pops := (λ e : IpAddr * (Z * Z),
    {| pc_pop := agent_name (agents d) e.1;
       pc_est_pps := f64_div (f64_of_int e.2.1) secs;
       pc_est_bps := f64_div (f64_mul (f64_of_int e.2.2) f64_8) secs |}) <$> hm_iter pop_pkts in
  let blocks := (λ e : IpNet * Z, (e.1, f64_div (f64_of_int e.2) secs))
    <$> hm_iter (sum_by (λ s, source_block (s_src s)) ss) in
  let r := f64_max (f64_div pps (pps_threshold d)) (f64_div bps (bps_threshold d)) in
  {| d_target := target; d_kind := Volumetric; d_observed_pps := pps; d_observed_bps := bps;
     d_proto := default 0 (fst <$> max_by_key snd (hm_iter (sum_by s_proto ss)));
     d_top_sources := top_rates 3 secs (sum_by s_src ss);
     d_top_ports := top_rates 3 secs (sum_by s_dst_port ss);
     d_pops := sort_by (λ a b, f64_partial_cmp_or_eq (pc_est_pps b) (pc_est_pps a)) pops;
     d_top_source_blocks := take 5 (sort_by (λ a b, f64_partial_cmp_or_eq b.2 a.2) blocks);
     d_severity := if f64_geb r (f64_of_int 10) then Critical
                   else if f64_geb r (f64_of_int 2) then High else Warning;
     d_first_seen_ms := first; d_last_seen_ms := last |}.

(** ** Ticks *)

(** [s.ts_ms + window_ms > now_ms], at [u64] width. *)
Definition in_window (d : ThresholdDetector) (now : Z) (s : Sample) : bool :=
  now <? (s_ts_ms s + window_ms d) mod 2 ^ 64.

Definition est_pps (d : ThresholdDetector) (ss : list Sample) : f64 :=
  f64_div (f64_of_int (foldl (λ acc s, sat_add u128_max acc (s_est_packets s)) 0 ss)) (window_secs d).
Definition est_bps (d : ThresholdDetector) (ss : list Sample) : f64 :=
  f64_div (f64_mul (f64_of_int (foldl (λ acc s, sat_add u128_max acc (s_est_bytes s)) 0 ss)) f64_8)
    (window_secs d).

Definition rate_over (d : ThresholdDetector) (ss : list Sample) : bool :=
  f64_gtb (est_pps d ss) (pps_threshold d) || f64_gtb (est_bps d ss) (bps_threshold d).

(** What one iteration of the loop over the destinations does. *)
Record DstOutcome := {
  do_state : DstState;
  do_events : list DetectionEvent;
  do_remove : bool;
  do_suppressed : Z;
  do_opened : Z;
  do_cleared : Z;
}.

Definition tick_dst (d : ThresholdDetector) (now : Z) (dst : IpAddr) (st : DstState) : DstOutcome :=
  let ss := retain (in_window d now) (samples st) in
  let st1 := {| samples := ss; open := open st; first_seen_ms := first_seen_ms st;
                last_over_ms := last_over_ms st |} in
  let keep := {| do_state := st1; do_events := []; do_remove := false; do_suppressed := 0;
                 do_opened := 0; do_cleared := 0 |} in
  let clear := {| do_state := st1; do_events := [Cleared dst now]; do_remove := true;
                  do_suppressed := 0; do_opened := 0; do_cleared := 1 |} in
  let held := hold_down_ms d <=? u64_sat_sub now (last_over_ms st) in
  match ss with
  | [] => if open st && held then clear else keep
  | _ =>
      let over := rate_over d ss && (min_samples d <=? length ss)%nat in
      let suppressed := if rate_over d ss && negb over then 1 else 0 in
      if over then
        if open st then
          {| do_state := {| samples := ss; open := true; first_seen_ms := first_seen_ms st;
                            last_over_ms := now |};
             do_events := [Updated (build_detection d dst (est_pps d ss) (est_bps d ss) ss
                                      (first_seen_ms st) now)];
             do_remove := false; do_suppressed := suppressed; do_opened := 0; do_cleared := 0 |}
        else
          {| do_state := {| samples := ss; open := true; first_seen_ms := now;
                            last_over_ms := now |};
             do_events := [Opened (build_detection d dst (est_pps d ss) (est_bps d ss) ss now now)];
             do_remove := false; do_suppressed := suppressed; do_opened := 1; do_cleared := 0 |}
      else
        let o := if open st && held then clear else keep in
        {| do_state := do_state o; do_events := do_events o; do_remove := do_remove o;
           do_suppressed := suppressed; do_opened := do_opened o; do_cleared := do_cleared o |}
  end.

Definition tick (now : Z) : M ThresholdDetector (list DetectionEvent) := λ d,
  let outs := (λ ks : IpAddr * DstState, (ks.1, tick_dst d now ks.1 ks.2)) <$> hm_iter (dst_states d) in
  let m := foldl (λ m ko, <[ko.1 := do_state ko.2]> m) (dst_states d) outs in
  let m := foldl (λ m k, delete k m) m
             (omap (λ ko : IpAddr * DstOutcome, if do_remove ko.2 then Some ko.1 else None) outs) in
  let total f := foldl (λ n ko, u64_sat_add n (f (ko : IpAddr * DstOutcome).2)) 0 outs in
  (concat ((λ ko, do_events ko.2) <$> outs),
   set_dsts m (u64_sat_add (min_sample_suppressed d) (total do_suppressed))
     (u64_sat_add (detections_opened d) (total do_opened))
     (u64_sat_add (detections_cleared d) (total do_cleared)) d).

Definition agent_stats (d : ThresholdDetector) : list AgentStat :=
  (λ al : IpAddr * Z,
     {| as_pop := agent_name (agents d) al.1; as_last_seen_ms := al.2;
        as_mismatches := default 0 (sampling_mismatches d !! al.1);
        as_near_ceiling := default 0 (sampling_near_ceiling d !! al.1) |})
  <$> hm_iter (agent_last_seen d).

(** ** Runs *)

Inductive det_op : Type := DObserve (obs : FlowObservation) (now : Z) | DTick (now : Z).

Definition run_det (o : det_op) : M ThresholdDetector (list DetectionEvent) :=
  match o with
  | DObserve obs now => observe obs now;; mret []
  | DTick now => tick now
  end.

(** A detector reached from a new one, with all the events it has emitted. *)
Inductive det_reach (ps : list IpNet) (cfg : DetectorConfig) (ags : AgentRegistry)
    : list DetectionEvent → ThresholdDetector → Prop :=
| det_reach_new : det_reach ps cfg ags [] (detector_new ps cfg ags)
| det_reach_op evs d o :
    det_reach ps cfg ags evs d →
    det_reach ps cfg ags (evs ++ eval (run_det o) d) (exec (run_det o) d).

(** ** The reference automaton

    Per target: [Opened] starts an episode, [Updated] continues it with the
    same first-seen time, [Cleared] ends it, no sooner than the hold-down after
    the last [Opened] or [Updated]. The state has, per open target, the
    first-seen and the last-over time. *)
Definition accept (hold : Z) (m : gmap IpAddr (Z * Z)) (ev : DetectionEvent)
    : option (gmap IpAddr (Z * Z)) :=
  match ev with
  | Opened d =>
      match m !! d_target d with
      | None => Some (<[d_target d := (d_first_seen_ms d, d_last_seen_ms d)]> m)
      | Some _ => None
      end
  | Updated d =>
      match m !! d_target d with
      | Some (first, _) =>
          if first =? d_first_seen_ms d then Some (<[d_target d := (first, d_last_seen_ms d)]> m)
          else None
      | None => None
      end
  | Cleared t at_ms =>
      match m !! t with
      | Some (_, last) => if hold <=? u64_sat_sub at_ms last then Some (delete t m) else None
      | None => None
      end
  end.

Definition accept_all (hold : Z) (m : gmap IpAddr (Z * Z)) (evs : list DetectionEvent)
    : option (gmap IpAddr (Z * Z)) :=
  foldl (λ o ev, o ≫= λ m, accept hold m ev) (Some m) evs.

(** The abstraction of a destination and of the detector. *)
Definition episode (st : DstState) : option (Z * Z) :=
  if open st then Some (first_seen_ms st, last_over_ms st) else None.
Definition episodes (d : ThresholdDetector) : gmap IpAddr (Z * Z) := omap episode (dst_states d).

Definition outcome_episode (o : DstOutcome) : option (Z * Z) :=
  if do_remove o then None else episode (do_state o).

Lemma accept_all_app hold m evs evs' :
  accept_all hold m (evs ++ evs') = accept_all hold m evs ≫= λ m', accept_all hold m' evs'.
Proof.
  unfold accept_all. rewrite foldl_app. destruct (foldl _ (Some m) evs) as [m'|]; [done|]. simpl.
  induction evs' as [|ev evs' IH]; [done|]. exact IH.
Qed.

(** One destination's events move the automaton from its episode before to
    its episode after. *)
Lemma accept_tick_dst d now t st m :
  m !! t = episode st →
  accept_all (hold_down_ms d) m (do_events (tick_dst d now t st))
  = Some (partial_alter (λ _, outcome_episode (tick_dst d now t st)) t m).
Proof.
  intros Hm. unfold tick_dst. set (ss := retain _ _).
  set (over := rate_over d ss && (min_samples d <=? length ss)%nat).
  set (held := hold_down_ms d <=? u64_sat_sub now (last_over_ms st)).
  assert (∀ e, m !! t = e → Some m = Some (partial_alter (λ _, e) t m)) as Hsame.
  { intros e <-. by rewrite partial_alter_self. }
  unfold episode in Hm. destruct ss as [|s ss'] eqn:Hss; [|destruct over];
    destruct (open st) eqn:Ho; try destruct held eqn:Hh;
    unfold accept_all, outcome_episode, episode; cbn [foldl mbind option_bind accept do_events do_remove
      do_state andb open first_seen_ms last_over_ms build_detection d_target d_first_seen_ms
      d_last_seen_ms]; rewrite ?Ho, ?Hm; try (by apply Hsame); try done.
  - unfold held in Hh. by rewrite Hh.
  - by rewrite Z.eqb_refl.
  - by rewrite Z.eqb_refl.
  - unfold held in Hh. by rewrite Hh.
Qed.

(** The loop over destinations with distinct addresses. *)
Lemma accept_tick_loop d now L m :
  NoDup L.*1 → (∀ t st, (t, st) ∈ L → m !! t = episode st) →
  ∃ m', accept_all (hold_down_ms d) m
          (concat ((λ ko, do_events ko.2) <$> ((λ ks, (ks.1, tick_dst d now ks.1 ks.2)) <$> L)))
        = Some m' ∧
    (∀ t st, (t, st) ∈ L → m' !! t = outcome_episode (tick_dst d now t st)) ∧
    (∀ t, t ∉ L.*1 → m' !! t = m !! t).
Proof.
  revert m. induction L as [|[t st] L IH]; intros m Hnd Hm.
  { exists m. split_and!; [done|set_solver|done]. }
  cbn [fmap list_fmap fst] in Hnd. apply NoDup_cons in Hnd as [Ht Hnd].
  cbn [fmap list_fmap concat fst snd]. rewrite accept_all_app, accept_tick_dst by (apply Hm; by left).
  cbn [mbind option_bind].
  destruct (IH (partial_alter (λ _, outcome_episode (tick_dst d now t st)) t m)) as (m' & He & Hin & Hout);
    [done| |].
  - intros t' st' Hin'. rewrite lookup_partial_alter_ne; [apply Hm; by right|].
    intros ->. apply Ht, list_elem_of_fmap. by exists (t', st').
  - exists m'. split_and!; [exact He| |].
    + intros t' st' [[= -> ->]|Hin']%elem_of_cons; [|by apply Hin].
      rewrite Hout by done. by rewrite lookup_partial_alter_eq.
    + intros t' [Hne Hni]%not_elem_of_cons. rewrite Hout by done. by rewrite lookup_partial_alter_ne.
Qed.

(** Writing back the values of a list of distinct keys. *)
Lemma foldl_insert_lookup {K V A} `{Countable K} (f : A → V) (l : list (K * A)) (m : gmap K V) k :
  NoDup l.*1 →
  (∀ a, (k, a) ∈ l → foldl (λ m ka, <[ka.1 := f ka.2]> m) m l !! k = Some (f a)) ∧
  (k ∉ l.*1 → foldl (λ m ka, <[ka.1 := f ka.2]> m) m l !! k = m !! k).
Proof.
  revert m. induction l as [|[k' a'] l IH]; intros m Hnd; [set_solver|].
  cbn [fmap list_fmap fst snd foldl] in *. apply NoDup_cons in Hnd as [Hk Hnd].
  destruct (IH (<[k' := f a']> m) Hnd) as [Hin Hout]. split.
  - intros a [[= -> ->]|Ha]%elem_of_cons; [|by apply Hin]. rewrite Hout by done. apply lookup_insert_eq.
  - intros [Hne Hni]%not_elem_of_cons. rewrite Hout by done. by rewrite lookup_insert_ne.
Qed.

Lemma tick_lookup d now t :
  dst_states (exec (tick now) d) !! t
  = st ← dst_states d !! t;
    let o := tick_dst d now t st in if do_remove o then None else Some (do_state o).
Proof.
  unfold exec, tick. cbn [snd set_dsts dst_states]. set (outs := _ <$> hm_iter _).
  assert (outs.*1 = (hm_iter (dst_states d)).*1) as Hk.
  { unfold outs. rewrite <-list_fmap_compose. by apply list_fmap_ext. }
  assert (NoDup outs.*1) as Hnd by (rewrite Hk; apply NoDup_hm_iter_fst).
  assert (∀ o, (t, o) ∈ outs ↔ ∃ st, dst_states d !! t = Some st ∧ o = tick_dst d now t st) as Hin.
  { intros o. unfold outs. rewrite list_elem_of_fmap. split.
    - intros ([t' st] & [= -> ->] & Hin%elem_of_hm_iter). eauto.
    - intros (st & Hst & ->). exists (t, st). split; [done|]. by apply elem_of_hm_iter. }
  destruct (foldl_insert_lookup do_state outs (dst_states d) t Hnd) as [Hl1 Hl2].
  rewrite delete_all_lookup. destruct (dst_states d !! t) as [st|] eqn:Hst; cbn [mbind option_bind].
  - set (o := tick_dst d now t st). assert ((t, o) ∈ outs) as Ho by (apply Hin; eauto).
    case_decide as Hrm.
    + apply elem_of_omap in Hrm as ([t' o'] & Ho' & Hr). cbn in Hr.
      destruct (do_remove o') eqn:Hrm; [|done]. injection Hr as ->.
      apply Hin in Ho' as (st' & [= <-] & ->). subst o. by rewrite Hrm.
    + rewrite (Hl1 o Ho). destruct (do_remove o) eqn:Hro; [|done].
      destruct Hrm. apply elem_of_omap. exists (t, o). cbn. by rewrite Hro.
  - assert (t ∉ outs.*1) as Hni.
    { rewrite list_elem_of_fmap. intros ([t' o] & -> & Ho). apply Hin in Ho as (st & ? & _). done. }
    rewrite Hl2 by done. by case_decide.
Qed.

(** Observations leave the episodes alone, and only touch a monitored destination. *)
Lemma observe_static obs now d :
  let d' := exec (observe obs now) d in
  prefixes d' = prefixes d ∧ hold_down_ms d' = hold_down_ms d ∧ agents d' = agents d ∧
  max_sampling_factor d' = max_sampling_factor d ∧
  (∀ t st', dst_states d' !! t = Some st' →
     (any_contains (prefixes d) t = true ∨ dst_states d !! t = Some st') ∧
     episode st' = dst_states d !! t ≫= episode) ∧
  (∀ t, dst_states d' !! t = None → dst_states d !! t = None).
Proof.
  intros d'. subst d'. unfold observe. rewrite exec_bind.
  set (d1 := exec (effective_rate obs now) d). set (rate := eval (effective_rate obs now) d).
  assert (prefixes d1 = prefixes d ∧ hold_down_ms d1 = hold_down_ms d ∧ agents d1 = agents d ∧
    max_sampling_factor d1 = max_sampling_factor d ∧ dst_states d1 = dst_states d)
    as (Hp & Hh & Ha & Hf & Hd).
  { unfold d1, exec, effective_rate. destruct (expected_sampling _ _); [|done].
    by destruct (clamp_rate _ _ _) as [[? ?] ?]. }
  unfold exec, modify. cbn [snd]. rewrite Hp.
  destruct (any_contains (prefixes d) (o_dst obs)) eqn:Hc; cbn [negb].
  2: { rewrite Hd. split_and!; try done. intros t st' Hst. rewrite Hst. split; [by right|done]. }
  cbn [set_states set_dsts prefixes hold_down_ms agents max_sampling_factor dst_states].
  rewrite Hp, Hh, Ha, Hf, Hd. split_and!; try done.
  - intros t st' Hst. apply lookup_insert_Some in Hst as [[<- <-]|[Hne Hst]].
    + split; [by left|]. destruct (dst_states d !! o_dst obs); done.
    + rewrite Hst. split; [by right|done].
  - intros t Hst. apply lookup_insert_None in Hst as [Hst _]. done.
Qed.

Lemma episodes_lookup d t : episodes d !! t = dst_states d !! t ≫= episode.
Proof. apply lookup_omap. Qed.

Lemma episodes_observe obs now d : episodes (exec (observe obs now) d) = episodes d.
Proof.
  apply map_eq. intros t. rewrite !episodes_lookup.
  destruct (observe_static obs now d) as (_ & _ & _ & _ & Hs & Hn).
  destruct (dst_states (exec (observe obs now) d) !! t) as [st'|] eqn:Ht.
  - destruct (Hs t st' Ht) as [_ <-]. done.
  - by rewrite (Hn t Ht).
Qed.

Lemma accept_tick d now :
  accept_all (hold_down_ms d) (episodes d) (eval (tick now) d) = Some (episodes (exec (tick now) d)).
Proof.
  destruct (accept_tick_loop d now (hm_iter (dst_states d)) (episodes d)) as (m' & He & Hin & Hout).
  - apply NoDup_hm_iter_fst.
  - intros t st Hst%elem_of_hm_iter. by rewrite episodes_lookup, Hst.
  - etransitivity; [exact He|]. f_equal. apply map_eq. intros t.
    rewrite episodes_lookup, tick_lookup. destruct (dst_states d !! t) as [st|] eqn:Hst.
    + rewrite (Hin t st) by (by apply elem_of_hm_iter). cbn [mbind option_bind].
      unfold outcome_episode. by destruct (do_remove _).
    + rewrite Hout, episodes_lookup, Hst; [done|].
      rewrite list_elem_of_fmap. intros ([t' st] & -> & Hin'%elem_of_hm_iter). cbn in Hst. congruence.
Qed.

Lemma run_det_static o d :
  prefixes (exec (run_det o) d) = prefixes d ∧ hold_down_ms (exec (run_det o) d) = hold_down_ms d ∧
  agents (exec (run_det o) d) = agents d ∧
  max_sampling_factor (exec (run_det o) d) = max_sampling_factor d.
Proof.
  destruct o as [obs now|now]; [|done]. cbn [run_det]. rewrite exec_bind.
  change (exec (mret []) ?x) with x. destruct (observe_static obs now d) as (? & ? & ? & ? & _). done.
Qed.

Lemma det_episodes ps cfg ags evs d :
  det_reach ps cfg ags evs d →
  accept_all (cfg_hold_down_ms cfg) ∅ evs = Some (episodes d) ∧ hold_down_ms d = cfg_hold_down_ms cfg.
Proof.
  induction 1 as [|evs d o _ [IH Hh]].
  - by split.
  - split; [|by destruct (run_det_static o d) as (_ & -> & _)].
    rewrite accept_all_app, IH. cbn [mbind option_bind]. destruct o as [obs now|now]; cbn [run_det].
    + rewrite eval_bind, exec_bind. change (exec (mret []) ?x) with x.
      change (eval (mret []) ?x) with ([] : list DetectionEvent). by rewrite episodes_observe.
    + rewrite <-Hh. apply accept_tick.
Qed.

(** C10: the detector's event stream is well-formed, whatever is observed and
    whenever it ticks: the automaton of attack episodes accepts every stream
    it emits, and ends in exactly the episodes the detector holds open. So for
    each target an [Opened] comes first, [Updated] only occurs while open and
    keeps the first-seen time, and [Cleared] ends an open episode no sooner
    than the hold-down after its last [Opened] or [Updated]. *)
Theorem det_stream_accepted ps cfg ags evs d :
  det_reach ps cfg ags evs d → accept_all (cfg_hold_down_ms cfg) ∅ evs = Some (episodes d).
Proof. apply det_episodes. Qed.

(** ** What each event means *)

(** The samples of a destination inside the window, and being over threshold. *)
Definition windowed (d : ThresholdDetector) (now : Z) (st : DstState) : list Sample :=
  retain (in_window d now) (samples st).

Definition over (d : ThresholdDetector) (now : Z) (st : DstState) : Prop :=
  windowed d now st ≠ [] ∧ rate_over d (windowed d now st) = true ∧
  (min_samples d ≤ length (windowed d now st))%nat.

Definition held (d : ThresholdDetector) (now : Z) (st : DstState) : Prop :=
  hold_down_ms d ≤ u64_sat_sub now (last_over_ms st).

(** The three cases of an iteration. *)
Lemma tick_dst_cases d now t st :
  let o := tick_dst d now t st in
  let alarm first := build_detection d t (est_pps d (windowed d now st))
                       (est_bps d (windowed d now st)) (windowed d now st) first now in
  (over d now st ∧ do_remove o = false ∧
   do_events o = [if open st then Updated (alarm (first_seen_ms st)) else Opened (alarm now)]) ∨
  (¬ over d now st ∧ open st = true ∧ held d now st ∧ do_remove o = true ∧
   do_events o = [Cleared t now]) ∨
  (¬ over d now st ∧ ¬ (open st = true ∧ held d now st) ∧ do_remove o = false ∧ do_events o = []).
Proof.
  intros o alarm. subst o alarm. unfold tick_dst, over, held, windowed.
  set (ss := retain _ _). destruct (Z.leb_spec (hold_down_ms d) (u64_sat_sub now (last_over_ms st)));
    (destruct ss as [|s ss'];
     [|destruct (rate_over d (s :: ss')) eqn:Hr;
       destruct (Nat.leb_spec (min_samples d) (length (s :: ss')))]);
    destruct (open st) eqn:Ho; cbn [andb negb do_events do_remove];
    first [left; by split_and! | right; left; split_and!; (done || tauto || lia || (intros (_ & ? & ?); (done || lia)))
          | right; right; split_and!; try done; (tauto || lia || (intros (_ & ? & ?); (done || lia)) || (intros [? ?]; (done || lia)))].
Qed.

Lemma elem_of_tick_events d now ev :
  ev ∈ eval (tick now) d ↔
  ∃ t st, dst_states d !! t = Some st ∧ ev ∈ do_events (tick_dst d now t st).
Proof.
  unfold eval, tick. cbn [fst]. rewrite list_elem_of_In, in_concat. split.
  - intros (l & Hl & Hev). apply list_elem_of_In in Hl, Hev.
    apply list_elem_of_fmap in Hl as ([t o] & -> & Ho).
    apply list_elem_of_fmap in Ho as ([t' st] & [= -> ->] & Hst%elem_of_hm_iter). eauto.
  - intros (t & st & Hst & Hev). exists (do_events (tick_dst d now t st)).
    split; apply list_elem_of_In; [|done]. apply list_elem_of_fmap.
    exists (t, tick_dst d now t st). split; [done|]. apply list_elem_of_fmap.
    exists (t, st). split; [done|]. by apply elem_of_hm_iter.
Qed.

Lemma tick_events_target d now t st ev :
  ev ∈ do_events (tick_dst d now t st) → event_target ev = t.
Proof.
  destruct (tick_dst_cases d now t st) as [(_ & _ & ->)|[(_ & _ & _ & _ & ->)|(_ & _ & _ & ->)]];
    intros Hev; [apply list_elem_of_singleton in Hev as ->..|by apply not_elem_of_nil in Hev];
    [by destruct (open st)|done].
Qed.

Lemma det_reach_monitored ps cfg ags evs d t st :
  det_reach ps cfg ags evs d → dst_states d !! t = Some st → any_contains ps t = true.
Proof.
  intros Hr. cut (prefixes d = ps ∧ ∀ t st, dst_states d !! t = Some st → any_contains ps t = true);
    [intros [_ Hc]; by apply Hc|]. clear t st.
  induction Hr as [|evs d o _ [Hp IH]].
  - split; [done|]. intros t st. cbn. by rewrite lookup_empty.
  - destruct (run_det_static o d) as [Hp' _]. split; [congruence|]. intros t st.
    destruct o as [obs now|now]; cbn [run_det].
    + rewrite exec_bind. change (exec (mret []) ?x) with x. intros Hst.
      destruct (observe_static obs now d) as (_ & _ & _ & _ & Hs & _).
      destruct (Hs t st Hst) as [[Hc|Hold] _]; [congruence|by eapply IH].
    + rewrite tick_lookup. destruct (dst_states d !! t) eqn:Hst; [|done]. intros _. by eapply IH.
Qed.

Lemma tick_dst_alarm d now t st a :
  Opened a ∈ do_events (tick_dst d now t st) ∨ Updated a ∈ do_events (tick_dst d now t st) →
  over d now st ∧ a = build_detection d t (est_pps d (windowed d now st))
    (est_bps d (windowed d now st)) (windowed d now st)
    (if open st then first_seen_ms st else now) now.
Proof.
  destruct (tick_dst_cases d now t st) as [(Ho & _ & ->)|[(_ & _ & _ & _ & ->)|(_ & _ & _ & ->)]];
    rewrite ?list_elem_of_singleton, ?elem_of_nil; [|by intros [[=]|[=]]|by intros [[]|[]]].
  destruct (open st); intros [[=]|[=]]; by subst.
Qed.

Lemma tick_dst_cleared d now t st at_ms :
  Cleared t at_ms ∈ do_events (tick_dst d now t st) ↔
  at_ms = now ∧ open st = true ∧ ¬ over d now st ∧ held d now st.
Proof.
  destruct (tick_dst_cases d now t st)
    as [(Ho & _ & ->)|[(Hn & Ho & Hh & _ & ->)|(_ & Hn & _ & ->)]];
    rewrite ?list_elem_of_singleton, ?elem_of_nil; [destruct (open st)|..]; naive_solver.
Qed.

(** C36: an alarm is raised exactly when it should be. At a tick, [Opened] or
    [Updated] is emitted for a target exactly when the target is monitored,
    has enough samples in the window and their estimated packet or bit rate
    exceeds its threshold, and the event reports those rates; [Cleared] is
    emitted exactly for an open target that is not over threshold and whose
    hold-down has passed; and a destination's state is dropped exactly when it
    is cleared. *)
Theorem det_alarm_exact ps cfg ags evs d now :
  det_reach ps cfg ags evs d →
  let evs' := eval (tick now) d in
  (∀ t, (∃ a, (Opened a ∈ evs' ∨ Updated a ∈ evs') ∧ d_target a = t ∧ d_last_seen_ms a = now) ↔
     any_contains ps t = true ∧ ∃ st, dst_states d !! t = Some st ∧ over d now st) ∧
  (∀ a, Opened a ∈ evs' ∨ Updated a ∈ evs' → ∃ st, dst_states d !! d_target a = Some st ∧
     d_observed_pps a = est_pps d (windowed d now st) ∧
     d_observed_bps a = est_bps d (windowed d now st)) ∧
  (∀ t at_ms, Cleared t at_ms ∈ evs' ↔ at_ms = now ∧ ∃ st, dst_states d !! t = Some st ∧
     open st = true ∧ ¬ over d now st ∧ held d now st) ∧
  (∀ t, dst_states (exec (tick now) d) !! t = None ↔
     dst_states d !! t = None ∨ Cleared t now ∈ evs').
Proof.
  intros Hr evs'. subst evs'. setoid_rewrite elem_of_tick_events. split_and!.
  - intros t. split.
    + intros (a & [(t' & st & Hst & Hev)|(t' & st & Hst & Hev)] & Ht & _);
        pose proof (tick_events_target _ _ _ _ _ Hev) as Heq; cbn in Heq;
        destruct (tick_dst_alarm d now t' st a) as [Ho _]; try tauto;
        (split; [rewrite <-Ht, Heq; by eapply det_reach_monitored|]); exists st; by rewrite <-Ht, Heq.
    + intros (_ & st & Hst & Ho). destruct (tick_dst_cases d now t st)
        as [(_ & _ & Hev)|[(? & _)|(? & _)]]; [|done..].
      destruct (open st); eexists.
      * split; [right; exists t, st; rewrite Hev; split; [done|by apply list_elem_of_singleton]|done].
      * split; [left; exists t, st; rewrite Hev; split; [done|by apply list_elem_of_singleton]|done].
  - intros a [(t' & st & Hst & Hev)|(t' & st & Hst & Hev)]; exists st;
      destruct (tick_dst_alarm d now t' st a) as [_ ->]; by auto.
  - intros t at_ms. split.
    + intros (t' & st & Hst & Hev). pose proof (tick_events_target _ _ _ _ _ Hev) as Heq.
      cbn in Heq. subst t'. apply tick_dst_cleared in Hev as (? & ? & ? & ?). eauto 10.
    + intros (-> & st & Hst & Ho & Hn & Hh). exists t, st. split; [done|]. by apply tick_dst_cleared.
  - intros t. rewrite tick_lookup. destruct (dst_states d !! t) as [st|] eqn:Hst; cbn [mbind option_bind];
      [|split; [by left|done]].
    assert (do_remove (tick_dst d now t st) = true ↔ Cleared t now ∈ do_events (tick_dst d now t st)) as Hrm.
    { rewrite tick_dst_cleared. destruct (tick_dst_cases d now t st)
        as [(? & -> & _)|[(? & ? & ? & -> & _)|(? & ? & -> & _)]]; naive_solver. }
    split.
    + destruct (do_remove _); [|done]. intros _. right. exists t, st. split; [done|by apply Hrm].
    + intros [?|(t' & st' & Hst' & Hev)]; [done|].
      pose proof (tick_events_target _ _ _ _ _ Hev) as Heq. cbn in Heq. subst t'.
      rewrite Hst in Hst'. injection Hst' as <-. by rewrite (proj2 Hrm Hev).
Qed.

(** ** Agents *)

Lemma clamp_rate_spec factor expected reported :
  4 ≤ factor → 0 ≤ expected ≤ u32_max → 0 ≤ reported →
  let '(rate, mismatch, near) := clamp_rate factor expected reported in
  expected / 4 ≤ rate ≤ sat_mul u32_max expected factor ∧
  (mismatch = false ↔ expected / 4 ≤ reported ≤ sat_mul u32_max expected 4) ∧
  (mismatch = false → rate = reported) ∧
  (near = true → mismatch = true).
Proof.
  intros Hf He Hr. unfold clamp_rate, sat_mul.
  assert (0 ≤ expected / 4 ≤ expected) as Hq by (split; [apply Z.div_pos; lia|apply Z.div_le_upper_bound; lia]).
  destruct (Z.ltb_spec reported (expected / 4)); [|destruct (Z.ltb_spec (Z.min u32_max (expected * 4)) reported)].
  - split_and!; try done; nia.
  - split_and!; try done; nia.
  - split_and!; try done; nia.
Qed.

Lemma dom_bump (k : IpAddr) m : dom (bump k m) = {[k]} ∪ dom m.
Proof. apply dom_insert_L. Qed.

(** The sampling sanity check is safe against what agents report. The
    bookkeeping maps only ever have entries for configured agents, whatever
    agent addresses the datagrams carry. And the rate used for a configured
    agent is never below a quarter of its expected rate nor above the
    ceiling, and is the reported one exactly as long as that is within a
    factor of four. *)
Theorem det_sampling_safe ps cfg ags evs d :
  det_reach ps cfg ags evs d →
  dom (agent_last_seen d) ⊆ dom ags ∧ dom (sampling_mismatches d) ⊆ dom ags ∧
  dom (sampling_near_ceiling d) ⊆ dom ags ∧
  (∀ obs now expected,
     expected_sampling ags (o_agent obs) = Some expected → 0 ≤ expected ≤ u32_max →
     0 ≤ o_sampling_rate obs →
     let rate := eval (effective_rate obs now) d in
     expected / 4 ≤ rate ≤ sat_mul u32_max expected (Z.max (cfg_max_sampling_factor cfg) 4) ∧
     (expected / 4 ≤ o_sampling_rate obs ≤ sat_mul u32_max expected 4 →
      rate = o_sampling_rate obs)).
Proof.
  intros Hr. cut (agents d = ags ∧ max_sampling_factor d = Z.max (cfg_max_sampling_factor cfg) 4 ∧
    dom (agent_last_seen d) ⊆ dom ags ∧ dom (sampling_mismatches d) ⊆ dom ags ∧
    dom (sampling_near_ceiling d) ⊆ dom ags).
  { intros (Ha & Hf & ? & ? & ?). split_and!; [done..|]. intros obs now expected He Hex Hrep rate.
    subst rate. unfold eval, effective_rate. rewrite Ha, He, Hf.
    pose proof (clamp_rate_spec (Z.max (cfg_max_sampling_factor cfg) 4) expected (o_sampling_rate obs))
      as Hc. destruct (clamp_rate _ _ _) as [[rate mism] near]. cbn [fst].
    destruct Hc as (Hb & Hm & Hu & _); [lia..|]. split; [done|]. intros Hband. by apply Hu, Hm. }
  induction Hr as [|evs d o _ (Ha & Hf & H1 & H2 & H3)]; [cbn; split_and!; (done || set_solver)|].
  destruct (run_det_static o d) as (_ & _ & Ha' & Hf'). split_and!; [congruence..| | |];
    (destruct o as [obs now|now]; [|done]); cbn [run_det]; unfold observe;
    rewrite !exec_bind; change (exec (mret []) ?x) with x; unfold exec, modify; cbn [snd];
    unfold effective_rate, expected_sampling; rewrite Ha;
    (destruct (ags !! o_agent obs) as [i|] eqn:Hi; cbn [fmap option_fmap option_map];
     [assert (o_agent obs ∈ dom ags) by (apply elem_of_dom; by eexists);
      destruct (clamp_rate _ _ _) as [[rate []] []]; cbn [snd]|]);
    cbn [snd prefixes set_agents_seen]; destruct (any_contains _ _);
    cbn [negb set_states set_dsts set_agents_seen agent_last_seen sampling_mismatches sampling_near_ceiling];
    rewrite ?dom_bump, ?dom_insert_L; set_solver.
Qed.
End detector.

(** ** Examples *)

#[local] Existing Instance RefNet.lib.
#[local] Existing Instance RefNet.order.

Definition det_ex_cfg : DetectorConfig := {|
  cfg_pps_threshold := f64_of_int 1000; cfg_bps_threshold := f64_of_int 1000000000;
  cfg_window_ms := 10000; cfg_hold_down_ms := 30000; cfg_min_samples := 2;
  cfg_max_sampling_factor := 16 |}.
Definition det_ex_agents : AgentRegistry :=
  from_entries [{| pe_name := "fra1"; pe_agent := ipv4 10 0 0 1; pe_sampling := 10000 |}].
Definition det_ex_prefixes : list IpNet := [RefNet.net4 203 0 113 0 24].
Definition det_ex_target : IpAddr := ipv4 203 0 113 7.
Definition det_ex_obs : FlowObservation := {|
  o_src := ipv4 198 51 100 1; o_dst := det_ex_target; o_proto := 17; o_src_port := 53;
  o_dst_port := 80; o_frame_len := 1400; o_sampling_rate := 10000; o_tcp_flags := 0;
  o_agent := ipv4 10 0 0 1 |}.
Definition det_ex_new : ThresholdDetector := detector_new det_ex_prefixes det_ex_cfg det_ex_agents.

(** Two samples of 10,000 packets in ten seconds: 2,000 packets per second. *)
Definition det_ex_seen : ThresholdDetector :=
  exec (run_det (DObserve det_ex_obs 2000)) (exec (run_det (DObserve det_ex_obs 1000)) det_ex_new).

Lemma det_ex_reach : det_reach det_ex_prefixes det_ex_cfg det_ex_agents [] det_ex_seen.
Proof.
  assert (∀ d now, det_reach det_ex_prefixes det_ex_cfg det_ex_agents [] d →
    det_reach det_ex_prefixes det_ex_cfg det_ex_agents [] (exec (run_det (DObserve det_ex_obs now)) d))
    as Hobs.
  { intros d now Hd. apply (det_reach_op _ _ _ _ _ (DObserve det_ex_obs now)) in Hd.
    cbn [run_det] in *. by rewrite eval_bind in Hd. }
  apply Hobs, Hobs, det_reach_new.
Qed.

(** The life of an episode: opened, updated, below threshold but held, cleared. *)
Lemma det_ex_episode :
  (λ ev, match ev with Opened _ => 1 | Updated _ => 2 | Cleared _ _ => 3 end) <$>
    (eval (tick 3000) det_ex_seen ++
     eval (tick 4000) (exec (tick 3000) det_ex_seen) ++
     eval (tick 15000) (exec (tick 4000) (exec (tick 3000) det_ex_seen)) ++
     eval (tick 34000) (exec (tick 15000) (exec (tick 4000) (exec (tick 3000) det_ex_seen))))
  = [1; 2; 3].
Proof. vm_refl. Qed.

Lemma det_stream_accepted_witness :
  accept_all 30000 ∅ ([] ++ eval (run_det (DTick 3000)) det_ex_seen)
  = Some (episodes (exec (run_det (DTick 3000)) det_ex_seen)).
Proof.
  apply (det_stream_accepted det_ex_prefixes det_ex_cfg det_ex_agents).
  apply det_reach_op. exact det_ex_reach.
Defined.

Lemma det_alarm_exact_witness :
  (∃ a, (Opened a ∈ eval (tick 3000) det_ex_seen ∨ Updated a ∈ eval (tick 3000) det_ex_seen) ∧
     d_target a = det_ex_target ∧ d_last_seen_ms a = 3000) ↔
  any_contains det_ex_prefixes det_ex_target = true ∧
  ∃ st, dst_states det_ex_seen !! det_ex_target = Some st ∧ over det_ex_seen 3000 st.
Proof.
  apply (det_alarm_exact det_ex_prefixes det_ex_cfg det_ex_agents [] det_ex_seen 3000 det_ex_reach).
Defined.

Lemma det_sampling_safe_witness : dom (agent_last_seen det_ex_seen) ⊆ dom det_ex_agents.
Proof.
  apply (det_sampling_safe det_ex_prefixes det_ex_cfg det_ex_agents [] det_ex_seen det_ex_reach).
Defined.
