(* ===== verification/Select.v ===== *)
(** * Mitigation selection and routing

    Model of [crates/blackwall-flow/src/select.rs] and [sink.rs]: a newly
    opened detection becomes FlowSpec rules or a blackhole, and the sink
    forwards it to the manager of the chosen plane over a bounded channel.
    Logging sinks are not modelled. *)
From stdpp Require Import prelude gmap strings.
From S2P Require Import Prelude Net Float Flow Detector.

Open Scope Z_scope.

Section select.
Context `{IpNetLib}.

Inductive Mitigation : Type :=
| FlowSpec (rules : list FlowRule)
| Rtbh.

Record SelectionConfig := {
  concentration : f64;
  max_flows : nat;
  rate : f32;
}.

(** The loop over the ports by decreasing weight. *)
Fixpoint choose (cfg : SelectionConfig) (ports : list (Z * f64)) (chosen : list Z) (cumulative : f64)
    : option (list Z) :=
  match ports with
  | [] => None
  | (port, weight) :: ports' =>
      if (max_flows cfg <=? length chosen)%nat then None
      else
        let chosen := chosen ++ [port] in
        let cumulative := f64_add cumulative weight in
        if f64_geb cumulative (concentration cfg) then Some chosen
        else choose cfg ports' chosen cumulative
  end.

(** The named ports by decreasing weight. *)
Definition ranked_ports (d : Detection) : list (Z * f64) :=
  sort_by (λ a b : Z * f64, f64_total_cmp b.2 a.2)
    (retain (λ pw : Z * f64, negb (pw.1 =? 0)) (d_top_ports d)).

Definition select (d : Detection) (cfg : SelectionConfig) : Mitigation :=
  if (d_proto d =? 0) || bool_decide (d_top_ports d = []) ||
     forallb (λ pw : Z * f64, pw.1 =? 0) (d_top_ports d)
  then Rtbh
  else if bool_decide (retain (λ pw : Z * f64, negb (pw.1 =? 0)) (d_top_ports d) = []) then Rtbh
  else
    match choose cfg (ranked_ports d) [] f64_zero with
    | Some chosen =>
        FlowSpec ((λ p, {| fr_dst := d_target d; fr_proto := d_proto d; fr_dst_port := p;
                           fr_rate := rate cfg |}) <$> chosen)
    | None => Rtbh
    end.

(** ** The selecting sink *)

Inductive FlowMitigationEvent : Type :=
| FmOpen (target : IpAddr) (rules : list FlowRule)
| FmUpdate (target : IpAddr)
| FmClear (target : IpAddr).

(** A bounded [mpsc] channel seen by its sender. *)
Record Channel (A : Type) := { queued : list A; capacity : nat; closed : bool }.
#[global] Arguments queued {A}.
#[global] Arguments capacity {A}.
#[global] Arguments closed {A}.

(** [try_send]: [false] when the channel is full or closed. *)
Definition try_send {A} (x : A) : M (Channel A) bool := λ c,
  if closed c || (capacity c <=? length (queued c))%nat then (false, c)
  else (true, {| queued := queued c ++ [x]; capacity := capacity c; closed := closed c |}).

Record SelectorSink := {
  flowspec_tx : Channel FlowMitigationEvent;
  rtbh_tx : Channel DetectionEvent;
  sel_cfg : SelectionConfig;
}.

Definition send_flowspec (ev : FlowMitigationEvent) : M SelectorSink unit := modify (λ s,
  {| flowspec_tx := exec (try_send ev) (flowspec_tx s); rtbh_tx := rtbh_tx s; sel_cfg := sel_cfg s |}).
Definition send_rtbh (ev : DetectionEvent) : M SelectorSink unit := modify (λ s,
  {| flowspec_tx := flowspec_tx s; rtbh_tx := exec (try_send ev) (rtbh_tx s); sel_cfg := sel_cfg s |}).

Definition handle (ev : DetectionEvent) : M SelectorSink unit :=
  cfg ← gets sel_cfg;
  match ev with
  | Opened d =>
      match select d cfg with
      | FlowSpec rules => send_flowspec (FmOpen (d_target d) rules)
      | Rtbh => send_rtbh (Opened d)
      end
  | Updated d => send_flowspec (FmUpdate (d_target d));; send_rtbh (Updated d)
  | Cleared t at_ms => send_flowspec (FmClear t);; send_rtbh (Cleared t at_ms)
  end.

(** ** Selection *)

(** The cumulative weight of the first [k] ports. *)
Definition cum (l : list (Z * f64)) (k : nat) : f64 := foldl f64_add f64_zero (take k l).*2.

Lemma choose_spec cfg ports done chosen :
  choose cfg ports (done.*1) (foldl f64_add f64_zero done.*2) = Some chosen ↔
  ∃ k, (0 < k ≤ length ports)%nat ∧ (length done + k ≤ max_flows cfg)%nat ∧
    chosen = (done ++ take k ports).*1 ∧
    f64_geb (cum (done ++ ports) (length done + k)) (concentration cfg) = true ∧
    ∀ j, (0 < j < k)%nat →
      f64_geb (cum (done ++ ports) (length done + j)) (concentration cfg) = false.
Proof.
  revert done chosen. induction ports as [|[p w] ports IH]; intros done chosen; cbn [choose].
  { split; [done|]. intros (k & Hk & _). simpl in Hk. lia. }
  rewrite length_fmap.
  assert (foldl f64_add f64_zero (done ++ [(p, w)]).*2
          = f64_add (foldl f64_add f64_zero done.*2) w) as Hf by (by rewrite fmap_app, foldl_app).
  assert (∀ n, cum (done ++ (p, w) :: ports) (length done + S n)
               = cum ((done ++ [(p, w)]) ++ ports) (length (done ++ [(p, w)]) + n)) as Hcum.
  { intros n. unfold cum. rewrite <-app_assoc, length_app. cbn [length app]. do 3 f_equal. lia. }
  assert (cum (done ++ (p, w) :: ports) (length done + 1)
          = f64_add (foldl f64_add f64_zero done.*2) w) as Hc1.
  { unfold cum. rewrite <-Hf. by rewrite take_app_add. }
  specialize (IH (done ++ [(p, w)])). rewrite Hf, fmap_app in IH. cbn [fmap list_fmap fst] in IH.
  destruct (Nat.leb_spec (max_flows cfg) (length done)) as [Hmax|Hmax].
  { split; [done|]. intros (k & Hk & Hle & _). lia. }
  destruct (f64_geb (f64_add _ _) (concentration cfg)) eqn:Hge.
  - split.
    + intros [= <-]. exists 1%nat. rewrite Hc1. split_and!; [simpl; lia|simpl; lia|lia| |done|lia].
      by rewrite fmap_app.
    + intros (k & Hk & Hle & -> & Hgk & Hmin). destruct (decide (k = 1%nat)) as [->|].
      * by rewrite fmap_app.
      * specialize (Hmin 1%nat). rewrite Hc1, Hge in Hmin. by discriminate Hmin; lia.
  - rewrite IH. split.
    + intros (k & Hk & Hle & -> & Hgk & Hmin). exists (S k). rewrite length_app in Hle. cbn [length] in *.
      split_and!; [lia|lia|lia|by rewrite <-app_assoc|by rewrite Hcum|].
      intros j Hj. destruct j as [|[|j]]; [lia|by rewrite Hc1|]. rewrite Hcum. apply Hmin. lia.
    + intros (k & Hk & Hle & -> & Hgk & Hmin). destruct k as [|[|k]]; [lia|by rewrite Hc1, Hge in Hgk|].
      exists (S k). rewrite length_app. cbn [length] in *. rewrite Hcum in Hgk.
      split_and!; [lia|lia|lia|by rewrite <-app_assoc|by rewrite length_app in Hgk|].
      intros j Hj. specialize (Hmin (S j)). rewrite Hcum, length_app in Hmin. apply Hmin. lia.
Qed.

(** Selection is exact. FlowSpec is chosen exactly when the protocol is
    known and some number of the heaviest named ports, at most [max_flows],
    reaches the concentration; the rules are then for the smallest such
    number of ports, each with the victim, the protocol and the configured
    rate, and none for port 0. In every other case the victim is blackholed. *)
Theorem select_exact d cfg rules :
  select d cfg = FlowSpec rules ↔
  d_proto d ≠ 0 ∧
  ∃ k, (0 < k ≤ length (ranked_ports d))%nat ∧ (k ≤ max_flows cfg)%nat ∧
    f64_geb (cum (ranked_ports d) k) (concentration cfg) = true ∧
    (∀ j, (0 < j < k)%nat → f64_geb (cum (ranked_ports d) j) (concentration cfg) = false) ∧
    rules = (λ pw : Z * f64, {| fr_dst := d_target d; fr_proto := d_proto d; fr_dst_port := pw.1;
                                fr_rate := rate cfg |}) <$> take k (ranked_ports d).
Proof.
  assert (∀ chosen, choose cfg (ranked_ports d) [] f64_zero = Some chosen ↔
    ∃ k, (0 < k ≤ length (ranked_ports d))%nat ∧ (k ≤ max_flows cfg)%nat ∧
      chosen = (take k (ranked_ports d)).*1 ∧
      f64_geb (cum (ranked_ports d) k) (concentration cfg) = true ∧
      ∀ j, (0 < j < k)%nat → f64_geb (cum (ranked_ports d) j) (concentration cfg) = false) as Hch
    by (intros chosen; apply (choose_spec cfg (ranked_ports d) [])).
  assert (retain (λ pw : Z * f64, negb (pw.1 =? 0)) (d_top_ports d) = [] → ranked_ports d = []) as Hnil.
  { intros He. unfold ranked_ports. by rewrite He. }
  assert (forallb (λ pw : Z * f64, pw.1 =? 0) (d_top_ports d) = true → ranked_ports d = []) as Hall.
  { intros Hf. apply Hnil. clear -Hf. induction (d_top_ports d) as [|pw l IH]; [done|]. cbn in Hf.
    apply andb_prop in Hf as [H1 H2]. unfold retain in *. rewrite filter_cons, decide_False; [by apply IH|].
    by rewrite H1. }
  unfold select. destruct (Z.eqb_spec (d_proto d) 0); cbn [orb]; [naive_solver|].
  case_bool_decide as He; cbn [orb].
  { split; [done|]. intros (_ & k & Hk & _). rewrite Hnil in Hk by (by rewrite He). simpl in Hk. lia. }
  destruct (forallb _ _) eqn:Hf.
  { split; [done|]. intros (_ & k & Hk & _). rewrite Hall in Hk by done. simpl in Hk. lia. }
  case_bool_decide as Hr.
  { split; [done|]. intros (_ & k & Hk & _). rewrite Hnil in Hk by done. simpl in Hk. lia. }
  destruct (choose cfg (ranked_ports d) [] f64_zero) as [chosen|].
  - destruct (proj1 (Hch chosen) eq_refl) as (k & Hk & Hle & -> & Hg & Hmin). split.
    + intros [= <-]. split; [done|]. exists k. split_and!; try done; try lia. by rewrite <-list_fmap_compose.
    + intros (_ & k' & Hk' & Hle' & Hg' & Hmin' & ->).
      assert (k = k') as ->.
      { destruct (Nat.lt_total k k') as [Hlt|[?|Hlt]]; [|done|].
        - rewrite Hmin' in Hg by lia. done.
        - rewrite Hmin in Hg' by lia. done. }
      by rewrite <-list_fmap_compose.
  - split; [done|]. intros (_ & k & Hk & Hle & Hg & Hmin & _).
    discriminate (proj2 (Hch (take k (ranked_ports d)).*1)). exists k. done.
Qed.

(** An opened detection reaches exactly one plane; the other events both. *)
Lemma sink_opened_one_plane d s :
  let s' := exec (handle (Opened d)) s in
  match select d (sel_cfg s) with
  | FlowSpec _ => rtbh_tx s' = rtbh_tx s
  | Rtbh => flowspec_tx s' = flowspec_tx s
  end.
Proof.
  unfold handle. rewrite exec_bind. change (eval (gets sel_cfg) s) with (sel_cfg s).
  by destruct (select d (sel_cfg s)).
Qed.
End select.

(** ** A detection of the detector

    Four flows of 10,000 packets, each to a port of its own: no port has more
    than a quarter of the attack. *)

#[local] Existing Instance RefNet.lib.
#[local] Existing Instance RefNet.order.

Definition sel_ex_obs (port : Z) : FlowObservation := {|
  o_src := ipv4 198 51 100 1; o_dst := det_ex_target; o_proto := 17; o_src_port := 53;
  o_dst_port := port; o_frame_len := 1400; o_sampling_rate := 10000; o_tcp_flags := 0;
  o_agent := ipv4 10 0 0 1 |}.
Definition sel_ex_events : list DetectionEvent :=
  eval (tick 3000) (exec (for_each [80; 81; 82; 83] (λ p, observe (sel_ex_obs p) 1000)) det_ex_new).
(** Eighty per cent, at most three flows. *)
Definition sel_ex_cfg : SelectionConfig := {|
  concentration := f64_div (f64_of_int 8) (f64_of_int 10); max_flows := 3; rate := f32_zero |}.

(** The concentration threshold is not a fraction in practice: [select]
    compares it with the cumulative port weights, which the detector reports
    in packets per second, so an attack spread evenly over four ports, with
    the threshold at eighty per cent, is answered with a single rule for one
    of the ports, which leaves three quarters of it through. *)
Theorem select_weights_absolute :
  match sel_ex_events with
  | [Opened d] => match select d sel_ex_cfg with
                  | FlowSpec rules => Some (length rules, length (d_top_ports d))
                  | Rtbh => None
                  end
  | _ => None
  end = Some (1%nat, 3%nat).
Proof. vm_refl. Qed.
