(* ===== verification/Sflow.v ===== *)
(** * The sFlow v5 decoder

    [crates/blackwall-flow/src/sflow.rs]: the bounds-checked cursor, the
    datagram envelope, regular and expanded flow samples and raw-header
    records. The packet parser of the [etherparse] crate is third-party code
    and is the field of the class [EtherParse]; the theorems hold for every
    parser. The loops run over counts the datagram declares (up to [2^32]);
    their bound is the length of the buffer, which is enough because every
    round consumes at least eight bytes. *)
From stdpp Require Import prelude gmap sorting strings.
From S2P Require Import Prelude Net Float Flow Bytes.

Open Scope Z_scope.

(** [FlowError] ([error.rs]); the message texts are not modelled. *)
Inductive FlowError : Type := Decode | Io.

(** What the decoder reads of [etherparse]'s sliced packet. *)
Inductive LaxNetSlice : Type :=
| Ipv4 (source_addr destination_addr protocol : Z)
| Ipv6 (source_addr destination_addr payload_ip_number : Z)
| Arp.

Record TcpSlice := {
  tcp_source_port : Z; tcp_destination_port : Z;
  fin : bool; syn : bool; rst : bool; psh : bool;
  ack : bool; urg : bool; ece : bool; cwr : bool;
}.

Inductive TransportSlice : Type :=
| Udp (source_port destination_port : Z)
| Tcp (tcp : TcpSlice)
| Icmpv4
| Icmpv6.

Record LaxSlicedPacket := {
  net : option LaxNetSlice;
  transport : option TransportSlice;
}.

(** [LaxSlicedPacket::from_ethernet]; [None] is an error. *)
Class EtherParse := { from_ethernet : list Z → option LaxSlicedPacket }.

(** ** The cursor *)

Record Cursor := { buf : list Z; pos : nat }.

Definition cursor_new (b : list Z) : Cursor := {| buf := b; pos := 0 |}.

(** [usize::checked_add]. *)
Definition checked_add (a b : nat) : option nat :=
  if Z.of_nat (a + b) <=? u64_max then Some (a + b)%nat else None.

(** [l.get(a..b)]. *)
Definition get_range (l : list Z) (a b : nat) : option (list Z) :=
  if (a <=? b)%nat && (b <=? length l)%nat then Some (take (b - a) (drop a l)) else None.

Definition read_u32 (cur : Cursor) : rust FlowError (Z * Cursor) :=
  match checked_add (pos cur) 4 with
  | None => Fail_ Decode
  | Some end_ =>
      match get_range (buf cur) (pos cur) end_ with
      | None => Fail_ Decode
      | Some bytes => v ← index_u32 bytes 0; Ret (v, {| buf := buf cur; pos := end_ |})
      end
  end.

Definition cursor_take (n : nat) (cur : Cursor) : rust FlowError (list Z * Cursor) :=
  match checked_add (pos cur) n with
  | None => Fail_ Decode
  | Some end_ =>
      match get_range (buf cur) (pos cur) end_ with
      | None => Fail_ Decode
      | Some s => Ret (s, {| buf := buf cur; pos := end_ |})
      end
  end.

(** The framing shared by samples and records: a type, a length and that many
    bytes. *)
Definition read_frame (cur : Cursor) : rust FlowError (Z * list Z * Cursor) :=
  '(ty, cur) ← read_u32 cur;
  '(len, cur) ← read_u32 cur;
  '(body, cur) ← cursor_take (Z.to_nat len) cur;
  Ret (ty, body, cur).

Section sflow.
Context `{EtherParse}.

(** [Result::ok] under [?] in a function that returns an [Option]. *)
Definition ok {A} (r : rust FlowError A) : rust unit A :=
  match r with Ret a => Ret a | Fail_ _ => Fail_ () | Panic => Panic end.

Definition tcp_flags_byte (tcp : TcpSlice) : Z :=
  let f := 0 in
  let f := if fin tcp then Z.lor f 1 else f in
  let f := if syn tcp then Z.lor f 2 else f in
  let f := if rst tcp then Z.lor f 4 else f in
  let f := if psh tcp then Z.lor f 8 else f in
  let f := if ack tcp then Z.lor f 16 else f in
  let f := if urg tcp then Z.lor f 32 else f in
  let f := if ece tcp then Z.lor f 64 else f in
  let f := if cwr tcp then Z.lor f 128 else f in
  f.

(** The observation of a captured header. *)
Definition observe_header (header_bytes : list Z) (frame_len sampling_rate : Z) (agent : IpAddr)
    : option FlowObservation :=
  sliced ← from_ethernet header_bytes;
  n ← net sliced;
  '(src, dst, proto) ←
    match n with
    | Ipv4 s d p => Some (V4 s, V4 d, p)
    | Ipv6 s d p => Some (V6 s, V6 d, p)
    | Arp => None
    end;
  let '(src_port, dst_port, tcp_flags) :=
    match transport sliced with
    | Some (Udp sp dp) => (sp, dp, 0)
    | Some (Tcp tcp) => (tcp_source_port tcp, tcp_destination_port tcp, tcp_flags_byte tcp)
    | _ => (0, 0, 0)
    end in
  Some {| o_src := src; o_dst := dst; o_proto := proto; o_src_port := src_port;
          o_dst_port := dst_port; o_frame_len := frame_len; o_sampling_rate := sampling_rate;
          o_tcp_flags := tcp_flags; o_agent := agent |}.

(** An [Option] result is a [rust unit]: [None] is [Fail_ ()]. *)
Definition decode_raw_header_record (body : list Z) (sampling_rate : Z) (agent : IpAddr)
    : rust unit FlowObservation :=
  let cur := cursor_new body in
  '(header_protocol, cur) ← ok (read_u32 cur);
  '(frame_len, cur) ← ok (read_u32 cur);
  '(_, cur) ← ok (read_u32 cur);
  '(header_length, cur) ← ok (read_u32 cur);
  '(header_bytes, cur) ← ok (cursor_take (Z.to_nat header_length) cur);
  if negb (header_protocol =? 1) then Fail_ ()
  else match observe_header header_bytes frame_len sampling_rate agent with
       | Some obs => Ret obs
       | None => Fail_ ()
       end.

(** The loop over the records of a sample. [out] is the vector the decoder
    appends to; it keeps what was pushed before an error. *)
Fixpoint read_records (fuel : nat) (num_records : Z) (cur : Cursor) (sampling_rate : Z)
    (agent : IpAddr) (out : list FlowObservation) : list FlowObservation * rust FlowError unit :=
  if num_records <=? 0 then (out, Ret ())
  else
    match fuel with
    | O => (out, Panic)
    | S fuel =>
        match read_frame cur with
        | Fail_ e => (out, Fail_ e)
        | Panic => (out, Panic)
        | Ret (record_type, record_body, cur) =>
            if negb (Z.land record_type 4095 =? 1) then
              read_records fuel (num_records - 1) cur sampling_rate agent out
            else
              match decode_raw_header_record record_body sampling_rate agent with
              | Ret obs => read_records fuel (num_records - 1) cur sampling_rate agent (out ++ [obs])
              | Fail_ _ => read_records fuel (num_records - 1) cur sampling_rate agent out
              | Panic => (out, Panic)
              end
        end
    end.

(** The fixed part of a sample: the sampling rate, the record count and the
    cursor at the first record. *)
Definition flow_sample_header (body : list Z) : rust FlowError (Z * Z * Cursor) :=
  let cur := cursor_new body in
  '(_, cur) ← read_u32 cur;
  '(_, cur) ← read_u32 cur;
  '(sampling_rate, cur) ← read_u32 cur;
  '(_, cur) ← read_u32 cur;
  '(_, cur) ← read_u32 cur;
  '(_, cur) ← read_u32 cur;
  '(_, cur) ← read_u32 cur;
  '(num_records, cur) ← read_u32 cur;
  Ret (sampling_rate, num_records, cur).

Definition expanded_sample_header (body : list Z) : rust FlowError (Z * Z * Cursor) :=
  let cur := cursor_new body in
  '(_, cur) ← read_u32 cur;
  '(_, cur) ← read_u32 cur;
  '(_, cur) ← read_u32 cur;
  '(sampling_rate, cur) ← read_u32 cur;
  '(_, cur) ← read_u32 cur;
  '(_, cur) ← read_u32 cur;
  '(_, cur) ← read_u32 cur;
  '(_, cur) ← read_u32 cur;
  '(_, cur) ← read_u32 cur;
  '(_, cur) ← read_u32 cur;
  '(num_records, cur) ← read_u32 cur;
  Ret (sampling_rate, num_records, cur).

Definition sample_records (hdr : rust FlowError (Z * Z * Cursor)) (fuel : nat) (agent : IpAddr)
    (out : list FlowObservation) : list FlowObservation * rust FlowError unit :=
  match hdr with
  | Ret (rate, n, cur) => read_records fuel n cur rate agent out
  | Fail_ e => (out, Fail_ e)
  | Panic => (out, Panic)
  end.

Definition decode_flow_sample (body : list Z) (agent : IpAddr) (out : list FlowObservation)
    : list FlowObservation * rust FlowError unit :=
  sample_records (flow_sample_header body) (length body) agent out.

Definition decode_expanded_flow_sample (body : list Z) (agent : IpAddr) (out : list FlowObservation)
    : list FlowObservation * rust FlowError unit :=
  sample_records (expanded_sample_header body) (length body) agent out.

(** The loop over the samples; [sample_errors += 1] panics on [u32] overflow. *)
Fixpoint read_samples (fuel : nat) (num_samples : Z) (cur : Cursor) (agent : IpAddr)
    (observations : list FlowObservation) (sample_errors : Z)
    : rust FlowError (list FlowObservation * Z) :=
  if num_samples <=? 0 then Ret (observations, sample_errors)
  else
    match fuel with
    | O => Panic
    | S fuel =>
        '(sample_type, sample_body, cur) ← read_frame cur;
        let next := read_samples fuel (num_samples - 1) cur agent in
        let counted (p : list FlowObservation * rust FlowError unit) :=
          match p.2 with
          | Ret _ => next p.1 sample_errors
          | Fail_ _ =>
              if sample_errors <? u32_max then next p.1 (sample_errors + 1) else Panic
          | Panic => Panic
          end in
        let format := Z.land sample_type 4095 in
        if format =? 1 then counted (decode_flow_sample sample_body agent observations)
        else if format =? 3 then counted (decode_expanded_flow_sample sample_body agent observations)
        else next observations sample_errors
    end.

Definition read_agent (cur : Cursor) : rust FlowError (IpAddr * Cursor) :=
  '(agent_addr_type, cur) ← read_u32 cur;
  if agent_addr_type =? 1 then
    '(b, cur) ← cursor_take 4 cur;
    b0 ← index b 0; b1 ← index b 1; b2 ← index b 2; b3 ← index b 3;
    Ret (ipv4 b0 b1 b2 b3, cur)
  else if agent_addr_type =? 2 then
    '(b, cur) ← cursor_take 16 cur;
    Ret (V6 (be_value b), cur)
  else Fail_ Decode.

Definition decode_datagram (bytes : list Z) : rust FlowError (list FlowObservation * Z) :=
  let cur := cursor_new bytes in
  '(_, cur) ← read_u32 cur;
  '(agent, cur) ← read_agent cur;
  '(_, cur) ← read_u32 cur;
  '(_, cur) ← read_u32 cur;
  '(_, cur) ← read_u32 cur;
  '(num_samples, cur) ← read_u32 cur;
  read_samples (length bytes) num_samples cur agent [] 0.

(** ** The cursor never leaves its buffer *)

(** A read from [cur] that succeeds moves at least [k] bytes forward within the
    same buffer; it does not panic. *)
Definition advances {E A} (cur : Cursor) (k : nat) (r : rust E (A * Cursor)) : Prop :=
  match r with
  | Ret (_, cur') => buf cur' = buf cur ∧ (pos cur + k ≤ pos cur')%nat ∧ (pos cur' ≤ length (buf cur))%nat
  | Fail_ _ => True
  | Panic => False
  end.

Lemma advances_bind {E A B} cur k1 k2 (m : rust E (A * Cursor)) (f : A * Cursor → rust E (B * Cursor)) :
  advances cur k1 m →
  (∀ a c, (pos c ≤ length (buf c))%nat → advances c k2 (f (a, c))) →
  advances cur (k1 + k2) (m ≫= f).
Proof.
  destruct m as [[a c]| |]; [|done|done]. cbn [mbind rust_bind advances]. intros (Hb & Hk & Hl) Hf.
  specialize (Hf a c). rewrite Hb in Hf. specialize (Hf Hl). unfold advances in *.
  destruct (f (a, c)) as [[b c']| |]; [|done|done]. destruct Hf as (Hb' & ? & Hl').
  rewrite Hb in Hl'. split; [congruence|]. lia.
Qed.

Lemma advances_ret {E A} (a : A) cur :
  (pos cur ≤ length (buf cur))%nat → advances cur 0 (Ret (E := E) (a, cur)).
Proof. intros. split; [done|]. lia. Qed.

Lemma advances_ok {A} cur k (r : rust FlowError (A * Cursor)) :
  advances cur k r → advances cur k (ok r).
Proof. by destruct r. Qed.

Lemma get_range_spec l a b s :
  get_range l a b = Some s → (a ≤ b ≤ length l)%nat ∧ length s = (b - a)%nat ∧ s = take (b - a) (drop a l).
Proof.
  unfold get_range. destruct (Nat.leb_spec a b); [|done]. destruct (Nat.leb_spec b (length l)); [|done].
  intros [= <-]. rewrite length_take, length_drop. split_and!; [lia..|done].
Qed.

Lemma read_u32_advances cur : advances cur 4 (read_u32 cur).
Proof.
  unfold read_u32, checked_add. destruct (_ <=? _); [|done].
  destruct (get_range _ _ _) as [l|] eqn:Hg; [|done]. apply get_range_spec in Hg as (? & Hl & _).
  destruct (index_u32_lt (E := FlowError) l 0) as [v ->]; [lia|]. simpl. split; [done|]. lia.
Qed.

Lemma cursor_take_advances n cur : advances cur n (cursor_take n cur).
Proof.
  unfold cursor_take, checked_add. destruct (_ <=? _); [|done]. destruct (get_range _ _ _) eqn:Hg; [|done].
  apply get_range_spec in Hg as (? & Hl & _). split; [done|]. simpl. lia.
Qed.

Lemma read_frame_advances cur : advances cur 8 (read_frame cur).
Proof.
  unfold read_frame. apply (advances_bind _ 4 4); [apply read_u32_advances|]. intros ty c _.
  apply (advances_bind _ 4 0); [apply read_u32_advances|]. intros len c' _.
  pose proof (cursor_take_advances (Z.to_nat len) c') as Ht. unfold advances in *.
  destruct (cursor_take _ _) as [[b c'']| |]; [|done|done]. cbn. destruct Ht as (? & ? & ?).
  split; [done|]. lia.
Qed.

(** The body of a frame lies between the cursor's two positions. *)
Lemma read_frame_body cur ty body cur' :
  read_frame cur = Ret (ty, body, cur') → (pos cur' = pos cur + 8 + length body)%nat.
Proof.
  unfold read_frame. assert (∀ c v c', read_u32 c = Ret (v, c') → (pos c' = pos c + 4)%nat) as Hu.
  { intros c v c'. unfold read_u32, checked_add. destruct (_ <=? _); [|done].
    destruct (get_range _ _ _) as [l|]; [|done]. destruct (index_u32 l 0); [|done|done]. by intros [= _ <-]. }
  destruct (read_u32 cur) as [[? c1]| |] eqn:H1; [|done|done]. cbn [mbind rust_bind].
  destruct (read_u32 c1) as [[len c2]| |] eqn:H2; [|done|done]. cbn [mbind rust_bind].
  apply Hu in H1, H2. unfold cursor_take, checked_add. destruct (_ <=? _); [|done].
  destruct (get_range _ _ _) as [l|] eqn:Hg; [|done]. apply get_range_spec in Hg as (? & Hl & _).
  cbn [mbind rust_bind]. intros [= <- <- <-]. simpl. lia.
Qed.

Lemma flow_sample_header_advances body :
  advances (cursor_new body) 32 (flow_sample_header body).
Proof.
  unfold flow_sample_header. change 32%nat with (4 + (4 + (4 + (4 + (4 + (4 + (4 + (4 + 0))))))))%nat.
  do 8 (apply advances_bind; [apply read_u32_advances|intros ? ? ?]). by apply advances_ret.
Qed.

Lemma expanded_sample_header_advances body :
  advances (cursor_new body) 44 (expanded_sample_header body).
Proof.
  unfold expanded_sample_header.
  change 44%nat with (4 + (4 + (4 + (4 + (4 + (4 + (4 + (4 + (4 + (4 + (4 + 0)))))))))))%nat.
  do 11 (apply advances_bind; [apply read_u32_advances|intros ? ? ?]). by apply advances_ret.
Qed.

(** The computation produced a value. *)
Definition is_Ret {E A} (m : rust E A) : Prop := match m with Ret _ => True | _ => False end.

(** A record decodes without panicking, and one that yields an observation has
    at least sixteen bytes. *)
Lemma decode_raw_returns body rate agent :
  decode_raw_header_record body rate agent ≠ Panic ∧
  (is_Ret (decode_raw_header_record body rate agent) → (16 ≤ length body)%nat).
Proof.
  set (f := λ p : list Z * Z * Z * Cursor, let '(b, fl, pr, c) := p in
    if negb (pr =? 1) then Fail_ ()
    else match observe_header b fl rate agent with Some o => Ret o | None => Fail_ () end).
  set (m := '(pr, c) ← ok (read_u32 (cursor_new body)); '(fl, c) ← ok (read_u32 c);
    '(_, c) ← ok (read_u32 c); '(hl, c) ← ok (read_u32 c);
    '(b, c) ← ok (cursor_take (Z.to_nat hl) c); Ret (b, fl, pr, c)).
  assert (advances (cursor_new body) 16 m) as Hm.
  { change 16%nat with (4 + (4 + (4 + (4 + (0 + 0)))))%nat.
    do 4 (apply advances_bind; [apply advances_ok, read_u32_advances|intros ? ? ?]).
    apply advances_bind; [|intros ? ? ?; by apply advances_ret].
    apply advances_ok. pose proof (cursor_take_advances (Z.to_nat a2) c2) as Ht.
    unfold advances in *. destruct (cursor_take _ _) as [[]| |]; [|done|done].
    destruct Ht as (? & ? & ?). split; [done|]. lia. }
  assert (decode_raw_header_record body rate agent = m ≫= f) as ->.
  { unfold decode_raw_header_record, m, f.
    repeat (case_match; cbn [mbind rust_bind]; [|done|done]; try case_match).
    all: repeat (match goal with |- context [ok ?r] => destruct (ok r) as [[]| |] end;
      cbn [mbind rust_bind]; [|done|done]); done. }
  destruct m as [[[[b fl] pr] c]| |]; [|done|done]. destruct Hm as (_ & ? & Hl). simpl in Hl.
  cbn [mbind rust_bind f]. split; [|intros _; lia]. repeat case_match; done.
Qed.

(** ** The loops *)

(** The vector is only appended to, and nothing else depends on it. *)
Lemma read_records_out fuel n cur rate agent out :
  read_records fuel n cur rate agent out
  = (out ++ (read_records fuel n cur rate agent []).1, (read_records fuel n cur rate agent []).2).
Proof.
  revert n cur out. induction fuel as [|fuel IH]; intros n cur out; simpl.
  - case_match; simpl; by rewrite app_nil_r.
  - destruct (n <=? 0); [simpl; by rewrite app_nil_r|].
    destruct (read_frame cur) as [[[ty body] c]| |]; [|simpl; by rewrite app_nil_r..].
    destruct (negb _); [by rewrite IH|].
    destruct (decode_raw_header_record body rate agent) as [o| |]; [|by rewrite IH|simpl; by rewrite app_nil_r].
    rewrite (IH _ _ (out ++ [o])), (IH _ _ [o]). simpl. by rewrite <- app_assoc.
Qed.

Lemma sample_records_out hdr fuel agent out :
  sample_records hdr fuel agent out
  = (out ++ (sample_records hdr fuel agent []).1, (sample_records hdr fuel agent []).2).
Proof.
  destruct hdr as [[[r n] c]| |]; simpl; [apply read_records_out|by rewrite app_nil_r..].
Qed.

(** Records are read without panicking; each observation stands for at least
    24 bytes of the buffer. *)
Lemma read_records_bound fuel n cur rate agent :
  (pos cur ≤ length (buf cur))%nat → (length (buf cur) < pos cur + fuel)%nat →
  (read_records fuel n cur rate agent []).2 ≠ Panic ∧
  (24 * length (read_records fuel n cur rate agent []).1 + pos cur ≤ length (buf cur))%nat.
Proof.
  revert n cur. induction fuel as [|fuel IH]; intros n cur Hp Hf; [lia|]. simpl.
  destruct (n <=? 0); [simpl; split; [done|lia]|].
  pose proof (read_frame_advances cur) as Ha. pose proof (read_frame_body cur) as Hb.
  destruct (read_frame cur) as [[[ty body] c]| |]; [|simpl; split; [done|lia]|done].
  destruct Ha as (Hbuf & ? & ?). specialize (Hb _ _ _ eq_refl).
  destruct (IH (n - 1) c) as [IH1 IH2]; [rewrite Hbuf; lia..|]. rewrite Hbuf in IH2.
  destruct (negb _); [split; [done|lia]|].
  destruct (decode_raw_returns body rate agent) as [Hr Hl].
  destruct (decode_raw_header_record body rate agent) as [o| |]; [|split; [done|lia]|done].
  specialize (Hl I). rewrite read_records_out. simpl. split; [done|lia].
Qed.

Lemma sample_records_bound hdr k body agent :
  (0 < k)%nat → advances (cursor_new body) k hdr →
  (sample_records hdr (length body) agent []).2 ≠ Panic ∧
  (24 * length (sample_records hdr (length body) agent []).1 ≤ length body)%nat.
Proof.
  intros Hk. destruct hdr as [[[r n] c]| |]; simpl; [|split; [done|lia]|done].
  intros (Hb & ? & ?). destruct (read_records_bound (length body) n c r agent) as [? Hl]; [rewrite Hb; lia..|].
  rewrite Hb in Hl. split; [done|lia].
Qed.

(** What one sample contributes on its own: its observations and whether it is
    counted as an error. *)
Definition sample_result (agent : IpAddr) (s : Z * list Z) : list FlowObservation * rust FlowError unit :=
  let format := Z.land s.1 4095 in
  if format =? 1 then decode_flow_sample s.2 agent []
  else if format =? 3 then decode_expanded_flow_sample s.2 agent []
  else ([], Ret ()).

Definition is_err {E A} (m : rust E A) : bool := match m with Fail_ _ => true | _ => false end.

Lemma sample_result_bound agent s :
  (sample_result agent s).2 ≠ Panic ∧ (24 * length (sample_result agent s).1 ≤ length s.2)%nat.
Proof.
  unfold sample_result, decode_flow_sample, decode_expanded_flow_sample.
  repeat case_match; [| |simpl; split; [done|lia]].
  - apply (sample_records_bound _ 32); [lia|]. apply flow_sample_header_advances.
  - apply (sample_records_bound _ 44); [lia|]. apply expanded_sample_header_advances.
Qed.

(** One round of the sample loop. *)
Lemma read_samples_step fuel n cur agent obs errs :
  0 < n → 0 ≤ errs → errs + n ≤ u32_max →
  read_samples (S fuel) n cur agent obs errs
  = ('(ty, body, cur) ← read_frame cur;
     let r := sample_result agent (ty, body) in
     read_samples fuel (n - 1) cur agent (obs ++ r.1) (errs + Z.b2z (is_err r.2))).
Proof.
  intros Hn He Hs. cbn [read_samples]. rewrite (proj2 (Z.leb_gt n 0)) by lia.
  destruct (read_frame cur) as [[[ty body] c]| |]; [|done|done]. cbn [mbind rust_bind].
  unfold sample_result. cbn [fst snd].
  destruct (sample_result_bound agent (ty, body)) as [Hp _]. unfold sample_result in Hp. cbn [fst snd] in Hp.
  unfold decode_flow_sample, decode_expanded_flow_sample in *.
  destruct (Z.land ty 4095 =? 1); [|destruct (Z.land ty 4095 =? 3)].
  3: { simpl. by rewrite app_nil_r, Z.add_0_r. }
  all: rewrite sample_records_out; cbn [fst snd].
  all: destruct (sample_records _ (length body) agent []) as [o r]; cbn [fst snd] in *.
  all: destruct r; cbn [is_err Z.b2z]; [by rewrite Z.add_0_r| |done].
  all: by rewrite (proj2 (Z.ltb_lt errs u32_max)) by lia.
Qed.

Lemma read_samples_bound fuel n cur agent obs errs :
  (pos cur ≤ length (buf cur))%nat → (length (buf cur) < pos cur + fuel)%nat →
  0 ≤ errs → errs + n ≤ u32_max → errs ≤ u32_max →
  match read_samples fuel n cur agent obs errs with
  | Ret (obs', errs') =>
      errs ≤ errs' ≤ u32_max ∧
      24 * Z.of_nat (length obs') + 8 * errs' + Z.of_nat (pos cur)
      ≤ 24 * Z.of_nat (length obs) + 8 * errs + Z.of_nat (length (buf cur))
  | Fail_ _ => True
  | Panic => False
  end.
Proof.
  revert n cur obs errs. induction fuel as [|fuel IH]; intros n cur obs errs Hp Hf H0 Hn Hm; [lia|].
  destruct (Z.leb_spec n 0) as [Hz|Hz].
  { cbn [read_samples]. rewrite (proj2 (Z.leb_le n 0)) by done. lia. }
  rewrite read_samples_step by lia.
  pose proof (read_frame_advances cur) as Ha. pose proof (read_frame_body cur) as Hb.
  destruct (read_frame cur) as [[[ty body] c]| |]; [|done|done]. cbn [mbind rust_bind]. cbv zeta.
  destruct Ha as (Hbuf & ? & ?). specialize (Hb _ _ _ eq_refl).
  destruct (sample_result_bound agent (ty, body)) as [_ Hl]. cbn [snd] in Hl.
  set (r := sample_result agent (ty, body)) in *.
  assert (0 ≤ Z.b2z (is_err r.2) ≤ 1) by (destruct (is_err r.2); simpl; lia).
  specialize (IH (n - 1) c (obs ++ r.1) (errs + Z.b2z (is_err r.2))). rewrite Hbuf in IH.
  specialize (IH ltac:(lia) ltac:(lia) ltac:(lia) ltac:(lia) ltac:(lia)).
  destruct (read_samples _ _ _ _ _ _) as [[o e]| |]; [|done|done].
  rewrite length_app in IH. lia.
Qed.

Lemma read_u32_bound cur v cur' :
  bytes_ok (buf cur) → read_u32 cur = Ret (v, cur') → 0 ≤ v ≤ u32_max.
Proof.
  intros Hok. unfold read_u32. destruct (checked_add _ _) as [e|] eqn:Hc; [|done].
  destruct (get_range _ _ _) as [l|] eqn:Hg; [|done]. apply get_range_spec in Hg as (_ & _ & ->).
  assert (bytes_ok (take (e - pos cur) (drop (pos cur) (buf cur)))) as Hl
    by (apply Forall_take, Forall_drop, Hok).
  unfold index_u32, index. set (l := take _ _) in *. intros Hr.
  destruct (l !! 0%nat) as [b0|] eqn:E0; [|done]. destruct (l !! (0 + 1)%nat) as [b1|] eqn:E1; [|done].
  destruct (l !! (0 + 2)%nat) as [b2|] eqn:E2; [|done]. destruct (l !! (0 + 3)%nat) as [b3|] eqn:E3; [|done].
  cbn [mbind rust_bind] in Hr. simplify_eq.
  assert (bytes_ok [b0; b1; b2; b3]) as Hb.
  { do 4 (apply Forall_cons_2; [by eapply (Forall_lookup_1 _ l)|]). apply Forall_nil_2. }
  apply be_value_bound in Hb. change (256 ^ Z.of_nat (length [b0; b1; b2; b3])) with 4294967296 in Hb.
  unfold u32_max. lia.
Qed.

Lemma read_agent_advances cur : advances cur 4 (read_agent cur).
Proof.
  unfold read_agent. apply (advances_bind _ 4 0); [apply read_u32_advances|]. intros ty c _.
  destruct (ty =? 1); [|destruct (ty =? 2); [|done]].
  - pose proof (cursor_take_advances 4 c) as Ht.
    destruct (cursor_take 4 c) as [[b c']| |] eqn:Hc; [|done|done]. cbn [mbind rust_bind].
    assert (length b = 4%nat).
    { revert Hc. unfold cursor_take, checked_add. destruct (_ <=? _); [|done].
      destruct (get_range _ _ _) as [l|] eqn:Hg; [|done]. apply get_range_spec in Hg as (? & Hl & _).
      intros [= <- <-]. lia. }
    repeat read_step. destruct Ht as (? & ? & ?). split; [done|lia].
  - pose proof (cursor_take_advances 16 c) as Ht.
    destruct (cursor_take 16 c) as [[b c']| |]; [|done|done]. cbn. destruct Ht as (? & ? & ?).
    split; [done|lia].
Qed.

(** Whatever datagram arrives, decoding it neither panics nor runs past
    the buffer, and its work is bounded by the datagram's length and not by
    the counts it declares: the decoder returns an error or a list of
    observations, each of which stands for at least 24 bytes of the datagram,
    and an error count that fits its [u32], each counted sample standing for at
    least 8 bytes. *)
Theorem sflow_decode_total bytes :
  bytes_ok bytes →
  decode_datagram bytes ≠ Panic ∧
  ∀ obs errs, decode_datagram bytes = Ret (obs, errs) →
    0 ≤ errs ≤ u32_max ∧
    24 * Z.of_nat (length obs) + 8 * errs ≤ Z.of_nat (length bytes).
Proof.
  intros Hok. set (m := '(_, cur) ← read_u32 (cursor_new bytes); '(agent, cur) ← read_agent cur;
    '(_, cur) ← read_u32 cur; '(_, cur) ← read_u32 cur; '(_, cur) ← read_u32 cur; Ret (agent, cur)).
  assert (decode_datagram bytes = ('(agent, cur) ← m; '(n, cur) ← read_u32 cur;
    read_samples (length bytes) n cur agent [] 0)) as ->.
  { unfold decode_datagram, m.
    destruct (read_u32 _) as [[? c]| |]; [|done|done]. cbn [mbind rust_bind].
    destruct (read_agent c) as [[? c1]| |]; [|done|done]. cbn [mbind rust_bind].
    destruct (read_u32 c1) as [[? c2]| |]; [|done|done]. cbn [mbind rust_bind].
    destruct (read_u32 c2) as [[? c3]| |]; [|done|done]. cbn [mbind rust_bind].
    by destruct (read_u32 c3) as [[]| |]. }
  assert (advances (cursor_new bytes) 20 m) as Hm.
  { change 20%nat with (4 + (4 + (4 + (4 + (4 + 0)))))%nat.
    apply advances_bind; [apply read_u32_advances|intros ? ? ?].
    apply advances_bind; [apply read_agent_advances|intros ? ? ?].
    do 3 (apply advances_bind; [apply read_u32_advances|intros ? ? ?]). by apply advances_ret. }
  destruct m as [[agent cur]| |]; [|done|done]. destruct Hm as (Hb & ? & ?). cbn [mbind rust_bind].
  pose proof (read_u32_advances cur) as Hu. pose proof (read_u32_bound cur) as Hv.
  destruct (read_u32 cur) as [[n c]| |]; [|done|done]. destruct Hu as (Hb' & ? & Hl).
  rewrite Hb in *. specialize (Hv _ _ Hok eq_refl). cbn [mbind rust_bind buf cursor_new pos] in *.
  pose proof (read_samples_bound (length bytes) n c agent [] 0) as Hs. rewrite Hb' in Hs.
  specialize (Hs ltac:(lia) ltac:(lia) ltac:(lia) ltac:(lia) ltac:(unfold u32_max; lia)).
  destruct (read_samples _ _ _ _ _ _) as [[o e]| |]; [|done|done]. simpl in Hs.
  split; [done|]. intros ? ? [= <- <-]. lia.
Qed.

(** ** The sFlow v5 wire format

    A reference encoder of the datagrams an agent sends, after the sFlow v5
    specification: regular and expanded flow samples with raw-header and other
    records, and samples of any other kind or content. *)

Inductive sf_record : Type :=
| RawHeader (protocol frame_len stripped : Z) (header pad : list Z)
| OtherRecord (ty : Z) (body : list Z).

Inductive sf_sample : Type :=
| FlowSample (seq source_id rate pool drops input output : Z) (rs : list sf_record)
| ExpandedSample (seq ds_class ds_index rate pool drops in_fmt in_val out_fmt out_val : Z)
    (rs : list sf_record)
| OtherSample (ty : Z) (body : list Z).

Record sf_datagram := {
  sf_version : Z; sf_agent : IpAddr; sf_sub_agent : Z; sf_sequence : Z; sf_uptime : Z;
  sf_samples : list sf_sample;
}.

Definition frame_bytes (ty : Z) (body : list Z) : list Z :=
  be_bytes 4 ty ++ be_bytes 4 (Z.of_nat (length body)) ++ body.

Definition record_frame (r : sf_record) : Z * list Z :=
  match r with
  | RawHeader protocol frame_len stripped header pad =>
      (1, be_bytes 4 protocol ++ be_bytes 4 frame_len ++ be_bytes 4 stripped ++
          be_bytes 4 (Z.of_nat (length header)) ++ header ++ pad)
  | OtherRecord ty body => (ty, body)
  end.

Definition frames_bytes (fs : list (Z * list Z)) : list Z := fs ≫= λ f, frame_bytes f.1 f.2.

Definition records_bytes (rs : list sf_record) : list Z :=
  be_bytes 4 (Z.of_nat (length rs)) ++ frames_bytes (record_frame <$> rs).

Definition sample_frame (s : sf_sample) : Z * list Z :=
  match s with
  | FlowSample seq source_id rate pool drops input output rs =>
      (1, be_bytes 4 seq ++ be_bytes 4 source_id ++ be_bytes 4 rate ++ be_bytes 4 pool ++
          be_bytes 4 drops ++ be_bytes 4 input ++ be_bytes 4 output ++ records_bytes rs)
  | ExpandedSample seq ds_class ds_index rate pool drops in_fmt in_val out_fmt out_val rs =>
      (3, be_bytes 4 seq ++ be_bytes 4 ds_class ++ be_bytes 4 ds_index ++ be_bytes 4 rate ++
          be_bytes 4 pool ++ be_bytes 4 drops ++ be_bytes 4 in_fmt ++ be_bytes 4 in_val ++
          be_bytes 4 out_fmt ++ be_bytes 4 out_val ++ records_bytes rs)
  | OtherSample ty body => (ty, body)
  end.

Definition datagram_bytes (d : sf_datagram) : list Z :=
  be_bytes 4 (sf_version d) ++ be_bytes 4 (if ip_is_v4 (sf_agent d) then 1 else 2) ++
  ip_octets (sf_agent d) ++ be_bytes 4 (sf_sub_agent d) ++ be_bytes 4 (sf_sequence d) ++
  be_bytes 4 (sf_uptime d) ++ be_bytes 4 (Z.of_nat (length (sf_samples d))) ++
  frames_bytes (sample_frame <$> sf_samples d).

(** What an agent's records and samples report. *)
Definition record_obs (rate : Z) (agent : IpAddr) (r : sf_record) : list FlowObservation :=
  match r with
  | RawHeader protocol frame_len _ header _ =>
      if protocol =? 1 then option_list (observe_header header frame_len rate agent) else []
  | OtherRecord _ _ => []
  end.

Definition sample_obs (agent : IpAddr) (s : sf_sample) : list FlowObservation :=
  match s with
  | FlowSample _ _ rate _ _ _ _ rs | ExpandedSample _ _ _ rate _ _ _ _ _ _ rs =>
      rs ≫= record_obs rate agent
  | OtherSample ty body => (sample_result agent (ty, body)).1
  end.

Definition sample_bad (agent : IpAddr) (s : sf_sample) : bool :=
  match s with
  | OtherSample ty body => is_err (sample_result agent (ty, body)).2
  | _ => false
  end.

Definition u32_ok (z : Z) : Prop := 0 ≤ z ≤ u32_max.

Definition record_wf (r : sf_record) : Prop :=
  match r with
  | RawHeader protocol frame_len _ _ _ => u32_ok protocol ∧ u32_ok frame_len
  | OtherRecord ty _ => u32_ok ty ∧ Z.land ty 4095 ≠ 1
  end.

Definition sample_wf (s : sf_sample) : Prop :=
  match s with
  | FlowSample _ _ rate _ _ _ _ rs | ExpandedSample _ _ _ rate _ _ _ _ _ _ rs =>
      u32_ok rate ∧ Forall record_wf rs
  | OtherSample ty _ => u32_ok ty
  end.

Definition datagram_wf (d : sf_datagram) : Prop :=
  ip_wf (sf_agent d) ∧ Forall sample_wf (sf_samples d) ∧
  Z.of_nat (length (datagram_bytes d)) ≤ u32_max.

(** ** Reading what was written *)

(** The cursor after [pre], with [rest] to read. *)
Definition cursor_at (pre rest : list Z) : Cursor := {| buf := pre ++ rest; pos := length pre |}.

Definition fits (pre rest : list Z) : Prop := Z.of_nat (length pre + length rest) ≤ u32_max.

Lemma cursor_new_at b : cursor_new b = cursor_at [] b.
Proof. done. Qed.

Lemma cursor_take_at n pre l rest :
  length l = n → fits pre (l ++ rest) →
  cursor_take n (cursor_at pre (l ++ rest)) = Ret (l, cursor_at (pre ++ l) rest).
Proof.
  intros <- Hf. unfold fits, u32_max in Hf. rewrite length_app in Hf.
  unfold cursor_take, checked_add, cursor_at, u64_max. cbn [buf pos].
  rewrite (proj2 (Z.leb_le _ _)) by lia. unfold get_range.
  rewrite (proj2 (Nat.leb_le _ _)) by lia. rewrite (proj2 (Nat.leb_le _ _)) by (rewrite !length_app; lia).
  cbn [andb]. rewrite drop_app_length, take_app_length' by lia.
  by rewrite <- app_assoc, length_app.
Qed.

Lemma read_u32_mod pre v rest :
  fits pre (be_bytes 4 v ++ rest) →
  read_u32 (cursor_at pre (be_bytes 4 v ++ rest))
  = Ret (be_value (be_bytes 4 v), cursor_at (pre ++ be_bytes 4 v) rest).
Proof.
  intros Hf. pose proof (cursor_take_at 4 pre (be_bytes 4 v) rest (length_be_bytes 4 v) Hf) as Ht.
  revert Ht. unfold cursor_take, read_u32. destruct (checked_add _ 4) as [e|]; [|done].
  destruct (get_range _ _ e) as [l|]; [|done]. intros Ht.
  assert (l = be_bytes 4 v) as -> by congruence.
  assert ({| buf := buf (cursor_at pre (be_bytes 4 v ++ rest)); pos := e |}
    = cursor_at (pre ++ be_bytes 4 v) rest) as -> by congruence.
  by rewrite be_bytes_4.
Qed.

Lemma bind_read_u32 {A} pre v rest (f : Z * Cursor → rust FlowError A) :
  fits pre (be_bytes 4 v ++ rest) →
  read_u32 (cursor_at pre (be_bytes 4 v ++ rest)) ≫= f
  = f (be_value (be_bytes 4 v), cursor_at (pre ++ be_bytes 4 v) rest).
Proof. intros. by rewrite read_u32_mod. Qed.

Lemma bind_ok_read_u32 {A} pre v rest (f : Z * Cursor → rust unit A) :
  fits pre (be_bytes 4 v ++ rest) →
  ok (read_u32 (cursor_at pre (be_bytes 4 v ++ rest))) ≫= f
  = f (be_value (be_bytes 4 v), cursor_at (pre ++ be_bytes 4 v) rest).
Proof. intros. by rewrite read_u32_mod. Qed.

Lemma be_value_u32 v : u32_ok v → be_value (be_bytes 4 v) = v.
Proof.
  intros Hv. apply be_value_be_bytes_small. change (256 ^ Z.of_nat 4) with 4294967296.
  unfold u32_ok, u32_max in Hv. lia.
Qed.

(** Consumes the next field, whatever its value. *)
Ltac fit :=
  match goal with
  | Hf : fits _ _ |- _ =>
      unfold fits in Hf |- *; rewrite ?length_app, ?length_be_bytes in Hf;
      rewrite ?length_app, ?length_be_bytes; cbn [length] in *; lia
  end.
Ltac read_field := first [rewrite bind_read_u32 by fit | rewrite bind_ok_read_u32 by fit]; cbv beta iota.

Lemma read_frame_at pre ty body rest :
  u32_ok ty → fits pre (frame_bytes ty body ++ rest) →
  read_frame (cursor_at pre (frame_bytes ty body ++ rest))
  = Ret (ty, body, cursor_at (pre ++ frame_bytes ty body) rest).
Proof.
  unfold frame_bytes, read_frame. rewrite <- !app_assoc. intros Ht Hf.
  do 2 read_field. rewrite (be_value_u32 ty) by done.
  rewrite be_value_u32 by (unfold u32_ok; fit). rewrite Nat2Z.id, cursor_take_at; [|done|fit].
  cbn [mbind rust_bind]. by rewrite <- !app_assoc.
Qed.

Lemma decode_raw_at protocol frame_len stripped header pad rate agent :
  let r := RawHeader protocol frame_len stripped header pad in
  record_wf r → fits [] (record_frame r).2 →
  decode_raw_header_record (record_frame r).2 rate agent
  = match record_obs rate agent r with o :: _ => Ret o | [] => Fail_ () end.
Proof.
  cbn [record_frame snd record_wf]. intros [Hp Hf] Hl.
  unfold decode_raw_header_record. rewrite cursor_new_at. do 4 read_field.
  rewrite (be_value_u32 (Z.of_nat _)), Nat2Z.id by (unfold u32_ok; fit).
  rewrite cursor_take_at; [|done|fit].
  cbn [mbind rust_bind ok]. rewrite !be_value_u32 by done. unfold record_obs.
  destruct (protocol =? 1); [|reflexivity]. cbn [negb].
  destruct (observe_header header frame_len rate agent); reflexivity.
Qed.

(** ** The datagram *)

Lemma frames_bytes_cons f fs : frames_bytes (f :: fs) = frame_bytes f.1 f.2 ++ frames_bytes fs.
Proof. reflexivity. Qed.

Lemma length_frame_bytes ty body : length (frame_bytes ty body) = (8 + length body)%nat.
Proof. unfold frame_bytes. rewrite !length_app, !length_be_bytes. lia. Qed.

Lemma frames_bytes_length fs : (length fs ≤ length (frames_bytes fs))%nat.
Proof.
  induction fs as [|f fs IH]; [done|]. rewrite frames_bytes_cons, length_app, length_frame_bytes.
  cbn [length]. lia.
Qed.

Lemma read_records_at fuel pre rs rate agent :
  Forall record_wf rs → fits pre (frames_bytes (record_frame <$> rs)) → (length rs < fuel)%nat →
  read_records fuel (Z.of_nat (length rs)) (cursor_at pre (frames_bytes (record_frame <$> rs))) rate agent []
  = (rs ≫= record_obs rate agent, Ret ()).
Proof.
  intros Hwf. revert fuel pre. induction Hwf as [|r rs Hr _ IH]; intros fuel pre Hf Hl.
  { by destruct fuel. }
  destruct fuel as [|fuel]; [simpl in Hl; lia|]. rewrite fmap_cons, frames_bytes_cons in *.
  assert (fits (pre ++ frame_bytes (record_frame r).1 (record_frame r).2)
            (frames_bytes (record_frame <$> rs))) as Hf' by fit.
  assert (u32_ok (record_frame r).1) as Ht.
  { destruct r; simpl in *; [unfold u32_ok, u32_max; lia|tauto]. }
  cbn [read_records length]. rewrite (proj2 (Z.leb_gt _ _)) by lia.
  rewrite read_frame_at by done. replace (Z.of_nat (S (length rs)) - 1) with (Z.of_nat (length rs)) by lia.
  specialize (IH fuel _ Hf' ltac:(cbn [length] in Hl; lia)).
  rewrite bind_cons. destruct r as [pr fl st hd pad|ty body].
  - change (negb (Z.land (record_frame (RawHeader pr fl st hd pad)).1 4095 =? 1)) with false.
    cbv iota. rewrite decode_raw_at; [|done|].
    2: { clear -Hf. unfold fits in *. rewrite length_app, length_frame_bytes in Hf. cbn [length]. lia. }
    destruct (record_obs rate agent (RawHeader pr fl st hd pad)) as [|o l] eqn:Ho; [apply IH|].
    rewrite read_records_out. rewrite IH.
    assert (l = []) as ->; [|reflexivity]. clear -Ho. simpl in Ho. destruct (pr =? 1); [|discriminate].
    destruct (observe_header hd fl rate agent); simpl in Ho; congruence.
  - simpl in Hr. cbn [record_frame fst snd] in *.
    rewrite (proj2 (Z.eqb_neq _ _)) by tauto. cbn [negb]. apply IH.
Qed.

Lemma sample_records_at rate n rs (pre body : list Z) agent :
  Forall record_wf rs → u32_ok rate → n = Z.of_nat (length rs) →
  fits pre (frames_bytes (record_frame <$> rs)) →
  length body = (length pre + length (frames_bytes (record_frame <$> rs)))%nat → (0 < length pre)%nat →
  sample_records (Ret (be_value (be_bytes 4 rate), be_value (be_bytes 4 n),
    cursor_at pre (frames_bytes (record_frame <$> rs)))) (length body) agent []
  = (rs ≫= record_obs rate agent, Ret ()).
Proof.
  intros Hwf Hr -> Hf Hl Hp. cbn [sample_records].
  pose proof (frames_bytes_length (record_frame <$> rs)) as Hn. rewrite length_fmap in Hn.
  rewrite (be_value_u32 rate) by done. rewrite be_value_u32 by (unfold u32_ok; fit).
  apply read_records_at; [done|done|lia].
Qed.

Lemma sample_result_at (agent : IpAddr) (s : sf_sample) :
  sample_wf s → fits [] (sample_frame s).2 →
  (sample_result agent (sample_frame s)).1 = sample_obs agent s ∧
  is_err (sample_result agent (sample_frame s)).2 = sample_bad agent s.
Proof.
  destruct s as [? ? rate ? ? ? ? rs|? ? ? rate ? ? ? ? ? ? rs|ty body]; [| |done].
  all: intros [Hr Hwf] Hf; cbn [sample_frame snd] in Hf; unfold records_bytes in Hf.
  all: match goal with |- context [sample_result ?agent ?f] =>
      enough (sample_result agent f = (rs ≫= record_obs rate agent, Ret ())) as -> by done end.
  - unfold sample_result. change (Z.land (sample_frame _).1 4095 =? 1) with true. cbv iota.
    cbn [sample_frame snd]. unfold decode_flow_sample, flow_sample_header, records_bytes.
    rewrite cursor_new_at. do 8 read_field.
    apply sample_records_at; [done..|fit| |]; rewrite ?length_app, ?length_be_bytes; cbn [length]; lia.
  - unfold sample_result. change (Z.land (sample_frame _).1 4095 =? 1) with false.
    change (Z.land (sample_frame _).1 4095 =? 3) with true. cbv iota.
    cbn [sample_frame snd]. unfold decode_expanded_flow_sample, expanded_sample_header, records_bytes.
    rewrite cursor_new_at. do 11 read_field.
    apply sample_records_at; [done..|fit| |]; rewrite ?length_app, ?length_be_bytes; cbn [length]; lia.
Qed.

Lemma read_samples_at fuel pre ss agent obs errs :
  Forall sample_wf ss → fits pre (frames_bytes (sample_frame <$> ss)) → (length ss < fuel)%nat →
  0 ≤ errs → errs + Z.of_nat (length ss) ≤ u32_max →
  read_samples fuel (Z.of_nat (length ss)) (cursor_at pre (frames_bytes (sample_frame <$> ss))) agent obs errs
  = Ret (obs ++ (ss ≫= sample_obs agent), errs + Z.of_nat (length (filter (sample_bad agent) ss))).
Proof.
  intros Hwf. revert fuel pre obs errs. induction Hwf as [|s ss Hs _ IH]; intros fuel pre obs errs Hf Hl He Hm.
  { destruct fuel; cbn; by rewrite app_nil_r, Z.add_0_r. }
  destruct fuel as [|fuel]; [simpl in Hl; lia|]. rewrite fmap_cons, frames_bytes_cons in *.
  assert (fits (pre ++ frame_bytes (sample_frame s).1 (sample_frame s).2)
            (frames_bytes (sample_frame <$> ss))) as Hf' by fit.
  assert (fits [] (sample_frame s).2) as Hb.
  { clear -Hf. unfold fits in *. rewrite length_app, length_frame_bytes in Hf. cbn [length]. lia. }
  assert (u32_ok (sample_frame s).1) as Ht by (destruct s; simpl in *; unfold u32_ok, u32_max in *; lia).
  destruct (sample_result_at agent s Hs Hb) as [Ho Hbad]. cbn [length] in *.
  rewrite read_samples_step by lia. rewrite read_frame_at by done. cbn [mbind rust_bind]. cbv zeta.
  rewrite <- surjective_pairing, Ho, Hbad.
  replace (Z.of_nat (S (length ss)) - 1) with (Z.of_nat (length ss)) by lia.
  assert (0 ≤ Z.b2z (sample_bad agent s) ≤ 1) by (destruct (sample_bad agent s); simpl; lia).
  rewrite IH by (done || lia). rewrite bind_cons, <- app_assoc, filter_cons.
  do 2 f_equal. case_decide as Hd; destruct (sample_bad agent s); cbn [Is_true] in Hd;
    cbn [length Z.b2z]; first [lia | tauto].
Qed.

Lemma read_agent_at pre a rest :
  let l := be_bytes 4 (if ip_is_v4 a then 1 else 2) ++ ip_octets a in
  ip_wf a → fits pre (l ++ rest) →
  read_agent (cursor_at pre (l ++ rest)) = Ret (a, cursor_at (pre ++ l) rest).
Proof.
  cbv zeta. rewrite <- app_assoc. intros Ha Hf. unfold read_agent.
  pose proof (length_ip_octets a) as Hl. pose proof (ip_octets_val a Ha) as Hv.
  read_field. rewrite be_value_u32 by (unfold u32_ok, u32_max; destruct (ip_is_v4 a); lia).
  destruct a as [z|z]; cbn [ip_is_v4] in *; cbv iota.
  - change (1 =? 1) with true. cbv iota. rewrite cursor_take_at; [|done|fit].
    cbn [mbind rust_bind]. unfold ip_octets in Hv |- *. rewrite (be_bytes_4 z) in *.
    unfold index. cbn [lookup list_lookup mbind rust_bind]. unfold ipv4. rewrite Hv, <- app_assoc.
    reflexivity.
  - change (2 =? 1) with false. change (2 =? 2) with true. cbv iota.
    rewrite cursor_take_at; [|done|fit]. cbn [mbind rust_bind]. rewrite <- app_assoc. by rewrite Hv.
Qed.

Lemma bind_read_agent {A} pre a rest (f : IpAddr * Cursor → rust FlowError A) :
  let l := be_bytes 4 (if ip_is_v4 a then 1 else 2) ++ ip_octets a in
  ip_wf a → fits pre (l ++ rest) →
  read_agent (cursor_at pre (l ++ rest)) ≫= f = f (a, cursor_at (pre ++ l) rest).
Proof. cbv zeta. intros. by rewrite read_agent_at. Qed.

(** C38: the observations of a datagram are exactly those its samples report.
    For every agent address, every mix of regular and expanded flow samples
    with raw-header and other records, and every mix with samples of other
    formats or with arbitrary bytes as a body, decoding the agent's encoding
    yields, in order, the observations of the well-formed samples with their
    own sampling rate, frame length and agent, together with what an arbitrary
    body yields when decoded alone: a malformed sample is counted and neither
    loses nor shifts what follows it. *)
Theorem sflow_datagram_decoded d :
  datagram_wf d →
  decode_datagram (datagram_bytes d)
  = Ret (sf_samples d ≫= sample_obs (sf_agent d),
         Z.of_nat (length (filter (sample_bad (sf_agent d)) (sf_samples d)))).
Proof.
  intros (Ha & Hs & Hl). assert (fits [] (datagram_bytes d)) as Hf by exact Hl.
  unfold decode_datagram. set (n := length (datagram_bytes d)) in *. rewrite cursor_new_at.
  assert (length (sf_samples d) + 4 ≤ n)%nat as Hn.
  { unfold n, datagram_bytes. rewrite !length_app, !length_be_bytes.
    pose proof (frames_bytes_length (sample_frame <$> sf_samples d)) as H1. rewrite length_fmap in H1. lia. }
  unfold datagram_bytes in Hf |- *. read_field.
  rewrite (app_assoc (be_bytes 4 (if ip_is_v4 (sf_agent d) then 1 else 2)) (ip_octets (sf_agent d))) in Hf |- *.
  rewrite bind_read_agent by (done || fit). cbv beta iota. do 4 read_field.
  rewrite be_value_u32 by (unfold u32_ok; lia).
  rewrite read_samples_at by (done || fit || lia). reflexivity.
Qed.
End sflow.

(** ** Examples *)

(** A packet parser for Ethernet II frames with an option-less IPv4 header and
    UDP, enough to evaluate the decoder. *)
Module RefEther.
Definition field (l : list Z) (a n : nat) : Z := be_value (take n (drop a l)).

Definition parse (l : list Z) : option LaxSlicedPacket :=
  if (length l <? 14)%nat then None
  else if (field l 12 2 =? 2048) && (34 <=? length l)%nat then
    Some {| net := Some (Ipv4 (field l 26 4) (field l 30 4) (field l 23 1));
            transport := if (field l 23 1 =? 17) && (42 <=? length l)%nat
                         then Some (Udp (field l 34 2) (field l 36 2)) else None |}
  else Some {| net := None; transport := None |}.

Definition lib : EtherParse := {| from_ethernet := parse |}.
End RefEther.

Section examples.
#[local] Existing Instance RefEther.lib.

(** A UDP packet from 198.51.100.9:12345 to 203.0.113.7:53, cut off after its
    UDP header. *)
Definition sf_ex_header : list Z :=
  replicate 12 1 ++ [8; 0] ++ [69; 0; 0; 36; 0; 0; 0; 0; 64; 17; 0; 0] ++
  [198; 51; 100; 9] ++ [203; 0; 113; 7] ++ be_bytes 2 12345 ++ be_bytes 2 53 ++ [0; 16; 0; 0].

(** A flow sample with that packet and another record, a sample cut short, and
    an expanded sample with the packet again. *)
Definition sf_ex_datagram : sf_datagram := {|
  sf_version := 5; sf_agent := ipv4 192 0 2 1; sf_sub_agent := 0; sf_sequence := 9; sf_uptime := 100;
  sf_samples := [
    FlowSample 1 2 1000 4 0 6 7 [RawHeader 1 1500 4 sf_ex_header [0; 0]; OtherRecord 1001 [1; 2; 3; 4]];
    OtherSample 1 [0; 0; 0; 1; 9];
    ExpandedSample 1 0 2 4000 4 0 0 6 0 7 [RawHeader 1 60 4 sf_ex_header []]] |}.

Lemma sf_ex_wf : datagram_wf sf_ex_datagram.
Proof.
  split; [vm_compute; split; [discriminate|reflexivity]|]. split; [|vm_compute; discriminate].
  repeat constructor; try (vm_compute; discriminate).
Qed.

Definition sf_ex_obs (len rate : Z) : FlowObservation := {|
  o_src := ipv4 198 51 100 9; o_dst := ipv4 203 0 113 7; o_proto := 17; o_src_port := 12345;
  o_dst_port := 53; o_frame_len := len; o_sampling_rate := rate; o_tcp_flags := 0;
  o_agent := ipv4 192 0 2 1 |}.

Lemma sflow_datagram_decoded_witness :
  decode_datagram (datagram_bytes sf_ex_datagram) = Ret ([sf_ex_obs 1500 1000; sf_ex_obs 60 4000], 1).
Proof.
  etransitivity; [exact (sflow_datagram_decoded sf_ex_datagram sf_ex_wf)|]. vm_compute. reflexivity.
Defined.

Lemma sflow_decode_total_witness :
  decode_datagram (replicate 40 255) ≠ Panic.
Proof.
  apply (sflow_decode_total (replicate 40 255)). apply Forall_replicate. unfold byte_ok. lia.
Defined.
End examples.
