(* ===== verification/Cookie.v ===== *)
(** * SYN cookies

    [crates/blackwall-cookie/src/lib.rs], the core shared by the user-space
    responder and the eBPF program, and its wrappers in
    [crates/blackwall-deception/src/cookie.rs]. SipHash-2-4 is the [siphasher]
    crate, third-party code: it is the field of the class [SipHash], of which
    the program relies only on the width of its result. *)
From stdpp Require Import prelude gmap sorting.
From S2P Require Import Prelude Net Bytes.

Open Scope Z_scope.

(** [SipHasher24::new_with_keys(k0, k1).hash(bytes)], a [u64]. *)
Class SipHash := {
  siphash : Z → Z → list Z → Z;
  siphash_u64 : ∀ k0 k1 m, 0 ≤ siphash k0 k1 m ≤ u64_max;
}.

Definition MSS_TABLE : list Z := [216; 536; 1200; 1360; 1400; 1440; 1460; 8960].
Definition COUNTER_SHIFT : Z := 6.
Definition HASH_MASK : Z := 2097151.
Definition MAX_TUPLE_BUF : nat := 16 + 2 + 16 + 2 + 8 + 1.

(** The loop over [MSS_TABLE.iter().enumerate()], from index [i]. *)
Fixpoint mss_scan (client_mss : Z) (i : nat) (table : list Z) (idx : Z) : Z :=
  match table with
  | [] => idx
  | mss :: table => mss_scan client_mss (S i) table (if mss <=? client_mss then Z.of_nat i else idx)
  end.

Definition mss_index_for (client_mss : Z) : Z := mss_scan client_mss 0 MSS_TABLE 0.

Definition decode_mss_index (cookie : Z) : Z := Z.land (Z.shiftr cookie 21) 7.

(** [buf[pos..pos + s.len()].copy_from_slice(s)], and the advanced position. *)
Definition copy_at (b : list Z * nat) (s : list Z) : rust unit (list Z * nat) :=
  let '(buf, pos) := b in
  if (pos + length s <=? length buf)%nat
  then Ret (take pos buf ++ s ++ drop (pos + length s) buf, (pos + length s)%nat)
  else Panic.

Section cookie.
Context `{SipHash}.

Definition cookie_for_slot (key_k0 key_k1 : Z) (src_octets : list Z) (src_port : Z)
    (dst_octets : list Z) (dst_port mss_index t : Z) : rust unit Z :=
  b ← copy_at (replicate MAX_TUPLE_BUF 0, 0%nat) src_octets;
  b ← copy_at b (be_bytes 2 src_port);
  b ← copy_at b dst_octets;
  b ← copy_at b (be_bytes 2 dst_port);
  b ← copy_at b (be_bytes 8 t);
  '(buf, pos) ← copy_at b [mss_index];
  msg ← slice buf 0 pos;
  let hash := siphash key_k0 key_k1 msg in
  let t_low := Z.land t 255 in
  let hash_low := Z.land hash HASH_MASK in
  Ret (Z.lor (Z.lor (Z.shiftl t_low 24) (Z.shiftl (Z.land mss_index 7) 21)) hash_low).

(** [MSS_TABLE[usize::from(i)]]. *)
Definition mss_at (i : Z) : rust unit Z := index MSS_TABLE (Z.to_nat i).

Definition make_cookie_raw (key_k0 key_k1 : Z) (src_octets : list Z) (src_port : Z)
    (dst_octets : list Z) (dst_port client_mss now_secs : Z) : rust unit (Z * Z) :=
  let mss_index := mss_index_for client_mss in
  mss_used ← mss_at mss_index;
  let t := Z.shiftr now_secs COUNTER_SHIFT in
  cookie ← cookie_for_slot key_k0 key_k1 src_octets src_port dst_octets dst_port mss_index t;
  Ret (cookie, mss_used).

(** [wrapping_sub(1)] at 32 and 64 bits. *)
Definition wrapping_pred (max z : Z) : Z := (z - 1) mod (max + 1).

(** The loop over the accepted time slots. *)
Fixpoint check_slots (key_k0 key_k1 : Z) (src_octets : list Z) (src_port : Z)
    (dst_octets : list Z) (dst_port mss_index cookie : Z) (slots : list Z) : rust unit (option Z) :=
  match slots with
  | [] => Ret None
  | t :: slots =>
      expected ← cookie_for_slot key_k0 key_k1 src_octets src_port dst_octets dst_port mss_index t;
      if expected =? cookie then mss ← mss_at mss_index; Ret (Some mss)
      else check_slots key_k0 key_k1 src_octets src_port dst_octets dst_port mss_index cookie slots
  end.

Definition check_cookie_raw (key_k0 key_k1 : Z) (src_octets : list Z) (src_port : Z)
    (dst_octets : list Z) (dst_port ack_seq now_secs : Z) : rust unit (option Z) :=
  let cookie := wrapping_pred u32_max ack_seq in
  let mss_index := decode_mss_index cookie in
  let t_now := Z.shiftr now_secs COUNTER_SHIFT in
  check_slots key_k0 key_k1 src_octets src_port dst_octets dst_port mss_index cookie
    [t_now; wrapping_pred u64_max t_now].

(** ** The wrappers of the deception tier *)

(** The 16 secret bytes. *)
Definition CookieKey : Type := list Z.

Definition to_u64_pair (key : CookieKey) : Z * Z :=
  (be_value (reverse (take 8 key)), be_value (reverse (take 8 (drop 8 key)))).

Record ConnTuple := { ct_src : IpAddr; ct_src_port : Z; ct_dst : IpAddr; ct_dst_port : Z }.

(** The address's octets, as the prefix of the buffer it fills. *)
Definition ip_addr_octets (a : IpAddr) : list Z := ip_octets a.

Definition make_cookie (key : CookieKey) (tuple : ConnTuple) (client_mss now_secs : Z)
    : rust unit (Z * Z) :=
  let '(k0, k1) := to_u64_pair key in
  make_cookie_raw k0 k1 (ip_addr_octets (ct_src tuple)) (ct_src_port tuple)
    (ip_addr_octets (ct_dst tuple)) (ct_dst_port tuple) client_mss now_secs.

Definition check_cookie (key : CookieKey) (tuple : ConnTuple) (ack_seq now_secs : Z)
    : rust unit (option Z) :=
  let '(k0, k1) := to_u64_pair key in
  check_cookie_raw k0 k1 (ip_addr_octets (ct_src tuple)) (ct_src_port tuple)
    (ip_addr_octets (ct_dst tuple)) (ct_dst_port tuple) ack_seq now_secs.

(** ** The cookie as a function of the tuple, the slot and the MSS index *)

Definition cookie_message (src : list Z) (sp : Z) (dst : list Z) (dp i t : Z) : list Z :=
  src ++ be_bytes 2 sp ++ dst ++ be_bytes 2 dp ++ be_bytes 8 t ++ [i].

Definition cookie_word (i t hash : Z) : Z :=
  Z.lor (Z.lor (Z.shiftl (Z.land t 255) 24) (Z.shiftl (Z.land i 7) 21)) (Z.land hash HASH_MASK).

(** The scratch buffer once [p] has been written. *)
Definition filled (p : list Z) : list Z * nat :=
  (p ++ replicate (MAX_TUPLE_BUF - length p) 0, length p).

Lemma copy_at_filled p s :
  (length p + length s ≤ MAX_TUPLE_BUF)%nat → copy_at (filled p) s = Ret (filled (p ++ s)).
Proof.
  intros Hl. unfold copy_at, filled. rewrite length_app, length_replicate.
  rewrite (proj2 (Nat.leb_le _ _)) by lia. rewrite take_app_length.
  rewrite drop_app_ge by lia. replace (length p + length s - length p)%nat with (length s) by lia.
  rewrite drop_replicate, length_app, <- app_assoc.
  by replace (MAX_TUPLE_BUF - length p - length s)%nat with (MAX_TUPLE_BUF - (length p + length s))%nat by lia.
Qed.

Lemma cookie_for_slot_eq k0 k1 src sp dst dp i t :
  (length src + length dst ≤ 32)%nat →
  cookie_for_slot k0 k1 src sp dst dp i t
  = Ret (cookie_word i t (siphash k0 k1 (cookie_message src sp dst dp i t))).
Proof.
  intros Hl. unfold cookie_for_slot.
  change (replicate MAX_TUPLE_BUF 0, 0%nat) with (filled []).
  do 6 (rewrite copy_at_filled
    by (rewrite ?length_app, ?length_be_bytes; cbn [length]; unfold MAX_TUPLE_BUF; lia);
    cbn [mbind rust_bind app]).
  unfold filled. rewrite slice_ok by (rewrite ?length_app; lia). cbn [mbind rust_bind].
  rewrite drop_0, Nat.sub_0_r, take_app_length. unfold cookie_message. by rewrite <- !app_assoc.
Qed.

Lemma mss_index_for_bound m : 0 ≤ mss_index_for m ≤ 7.
Proof. unfold mss_index_for, MSS_TABLE. cbn [mss_scan]. repeat case_match; lia. Qed.

(** The chosen entry is the largest that does not exceed the client's MSS, or
    the first when all do. *)
Lemma mss_index_for_spec m i v :
  mss_index_for m = i → MSS_TABLE !! Z.to_nat i = Some v →
  (v ≤ m ∨ i = 0) ∧ ∀ w, w ∈ MSS_TABLE → w ≤ m → w ≤ v.
Proof.
  intros <-. unfold mss_index_for, MSS_TABLE. cbn [mss_scan]. intros Hv.
  repeat (case_match; [|]); simplify_eq/=; (split; [lia|]); intros w Hw;
    repeat (apply elem_of_cons in Hw as [->|Hw]; [lia|]); by apply elem_of_nil in Hw.
Qed.

Lemma mss_index_for_table i v :
  0 ≤ i ≤ 7 → MSS_TABLE !! Z.to_nat i = Some v → mss_index_for v = i.
Proof.
  intros Hi Hv. assert (i = 0 ∨ i = 1 ∨ i = 2 ∨ i = 3 ∨ i = 4 ∨ i = 5 ∨ i = 6 ∨ i = 7) as Hc by lia.
  destruct_or! Hc; subst i; simpl in Hv; simplify_eq; reflexivity.
Qed.

Lemma mss_at_ok i : 0 ≤ i ≤ 7 → ∃ v, mss_at i = Ret v ∧ MSS_TABLE !! Z.to_nat i = Some v.
Proof.
  intros Hi. unfold mss_at, index.
  destruct (lookup_lt_is_Some_2 MSS_TABLE (Z.to_nat i)) as [v Hv]; [simpl; lia|].
  rewrite Hv. eauto.
Qed.

(** *** The bits of a cookie *)

Lemma decode_cookie_word i t hash : 0 ≤ i ≤ 7 → decode_mss_index (cookie_word i t hash) = i.
Proof.
  intros Hi. unfold decode_mss_index, cookie_word.
  change HASH_MASK with (Z.ones 21). change 255 with (Z.ones 8). change 7 with (Z.ones 3) at 1 2.
  transitivity (Z.land i (Z.ones 3)); [|rewrite Z.land_ones by lia; apply Z.mod_small; simpl; lia].
  apply Z.bits_inj'. intros n Hn. rewrite !Z.land_spec, Z.shiftr_spec, !Z.lor_spec by lia.
  rewrite !Z.shiftl_spec, !Z.land_spec, !Z.testbit_ones by lia.
  destruct (Z.ltb_spec n 3); [|by rewrite !andb_false_r, ?andb_false_l].
  rewrite (Z.testbit_neg_r t) by lia. rewrite andb_false_l, orb_false_l.
  replace (n + 21 <? 21) with false by (symmetry; apply Z.ltb_ge; lia).
  rewrite !andb_false_r, orb_false_r. replace (n + 21 - 21) with n by lia.
  destruct (Z.testbit i n); simpl; [|done].
  rewrite (proj2 (Z.leb_le 0 n)), (proj2 (Z.ltb_lt n 3)) by lia. done.
Qed.

Lemma decode_mss_index_bound c : 0 ≤ decode_mss_index c ≤ 7.
Proof.
  assert (decode_mss_index c = Z.shiftr c 21 mod 2 ^ 3) as -> by (apply (Z.land_ones _ 3); lia).
  pose proof (Z.mod_pos_bound (Z.shiftr c 21) (2 ^ 3)). lia.
Qed.

Lemma lor_bound n a b : 0 ≤ n → 0 ≤ a < 2 ^ n → 0 ≤ b < 2 ^ n → 0 ≤ Z.lor a b < 2 ^ n.
Proof.
  intros Hn Ha Hb. split; [apply Z.lor_nonneg; lia|].
  destruct (Z.eq_dec (Z.lor a b) 0) as [->|H0]; [lia|].
  assert (0 < Z.lor a b) by (assert (0 ≤ Z.lor a b) by (apply Z.lor_nonneg; lia); lia).
  apply Z.log2_lt_pow2; [done|]. rewrite Z.log2_lor by lia.
  assert (∀ x, 0 ≤ x < 2 ^ n → 0 < Z.lor a b → Z.log2 x < n ∨ n = 0) as Hlog.
  { intros x Hx _. destruct (Z.eq_dec x 0) as [->|]; [rewrite Z.log2_nonpos by lia; lia|].
    left. apply Z.log2_lt_pow2; lia. }
  destruct (Z.eq_dec n 0) as [->|]; [simpl in *; assert (a = 0) by lia; assert (b = 0) by lia; by subst|].
  destruct (Hlog a), (Hlog b); lia.
Qed.

Lemma cookie_word_bound i t hash : 0 ≤ hash → 0 ≤ cookie_word i t hash ≤ u32_max.
Proof.
  intros Hh. unfold cookie_word, u32_max.
  change HASH_MASK with (Z.ones 21). change 255 with (Z.ones 8). change 7 with (Z.ones 3).
  rewrite !Z.land_ones, !Z.shiftl_mul_pow2 by lia.
  pose proof (Z.mod_pos_bound t (2 ^ 8)). pose proof (Z.mod_pos_bound i (2 ^ 3)).
  pose proof (Z.mod_pos_bound hash (2 ^ 21)).
  assert (0 ≤ Z.lor (Z.lor (t mod 2 ^ 8 * 2 ^ 24) (i mod 2 ^ 3 * 2 ^ 21)) (hash mod 2 ^ 21) < 2 ^ 32); [|lia].
  apply lor_bound; [lia| |lia]. apply lor_bound; lia.
Qed.

(** ** Minting and checking *)

Definition slot (now_secs : Z) : Z := Z.shiftr now_secs COUNTER_SHIFT.

Lemma check_slots_spec k0 k1 src sp dst dp i v cookie slots :
  (length src + length dst ≤ 32)%nat → mss_at i = Ret v →
  ∃ o, check_slots k0 k1 src sp dst dp i cookie slots = Ret o ∧
    ∀ m, o = Some m ↔ m = v ∧ ∃ t, t ∈ slots ∧
      cookie_word i t (siphash k0 k1 (cookie_message src sp dst dp i t)) = cookie.
Proof.
  intros Hl Hv. induction slots as [|t slots (o & Ho & Hs)]; cbn [check_slots].
  { eexists. split; [done|]. intros m. split; [done|]. intros (_ & t & Ht & _). by apply elem_of_nil in Ht. }
  rewrite cookie_for_slot_eq by done. cbn [mbind rust_bind].
  destruct (Z.eqb_spec (cookie_word i t (siphash k0 k1 (cookie_message src sp dst dp i t))) cookie) as [He|He].
  - rewrite Hv. eexists. split; [done|]. intros m. split; [|by intros [-> _]].
    intros [= <-]. split; [done|]. exists t. split; [left|done].
  - exists o. split; [done|]. intros m. rewrite Hs. split; intros (-> & t' & Ht & Hw); (split; [done|]).
    + exists t'. split; [by right|done].
    + apply elem_of_cons in Ht as [->|Ht]; [done|]. by exists t'.
Qed.

Lemma length_octets a : (length (ip_addr_octets a) ≤ 16)%nat.
Proof. unfold ip_addr_octets. rewrite length_ip_octets. destruct a; vm_compute; lia. Qed.

Lemma make_cookie_eq key tuple client_mss now :
  ∃ v, MSS_TABLE !! Z.to_nat (mss_index_for client_mss) = Some v ∧
    make_cookie key tuple client_mss now
    = Ret (cookie_word (mss_index_for client_mss) (slot now)
        (siphash (to_u64_pair key).1 (to_u64_pair key).2
          (cookie_message (ip_addr_octets (ct_src tuple)) (ct_src_port tuple)
            (ip_addr_octets (ct_dst tuple)) (ct_dst_port tuple) (mss_index_for client_mss) (slot now))), v).
Proof.
  destruct (mss_at_ok (mss_index_for client_mss) (mss_index_for_bound _)) as (v & Hm & Hv).
  exists v. split; [done|]. unfold make_cookie, make_cookie_raw. destruct (to_u64_pair key) as [k0 k1].
  rewrite Hm. cbn [mbind rust_bind fst snd].
  pose proof (length_octets (ct_src tuple)). pose proof (length_octets (ct_dst tuple)).
  by rewrite cookie_for_slot_eq by lia.
Qed.

Lemma check_cookie_spec key tuple ack now :
  let c := wrapping_pred u32_max ack in
  let i := decode_mss_index c in
  ∃ o, check_cookie key tuple ack now = Ret o ∧
    ∀ m, o = Some m ↔ MSS_TABLE !! Z.to_nat i = Some m ∧
      ∃ t, t ∈ [slot now; wrapping_pred u64_max (slot now)] ∧
        cookie_word i t (siphash (to_u64_pair key).1 (to_u64_pair key).2
          (cookie_message (ip_addr_octets (ct_src tuple)) (ct_src_port tuple)
            (ip_addr_octets (ct_dst tuple)) (ct_dst_port tuple) i t)) = c.
Proof.
  intros c i. assert (0 ≤ i ≤ 7) as Hi by apply decode_mss_index_bound.
  destruct (mss_at_ok i Hi) as (v & Hm & Hv). unfold check_cookie. destruct (to_u64_pair key) as [k0 k1].
  pose proof (length_octets (ct_src tuple)). pose proof (length_octets (ct_dst tuple)).
  destruct (check_slots_spec k0 k1 (ip_addr_octets (ct_src tuple)) (ct_src_port tuple)
    (ip_addr_octets (ct_dst tuple)) (ct_dst_port tuple) i v c
    [slot now; wrapping_pred u64_max (slot now)]) as (o & Ho & Hs); [lia|done|].
  exists o. split; [exact Ho|]. intros m. rewrite Hs, Hv. cbn [fst snd].
  split; intros [He ?]; (split; [congruence|done]).
Qed.

Lemma slot_bound now :
  64 ≤ now ≤ u64_max → 1 ≤ slot now ∧ wrapping_pred u64_max (slot now) = slot now - 1.
Proof.
  intros Hnow. assert (1 ≤ slot now < 2 ^ 58) as Hs.
  { unfold slot, COUNTER_SHIFT, u64_max in *. rewrite Z.shiftr_div_pow2 by lia.
    pose proof (Z.div_le_lower_bound now (2 ^ 6) 1). pose proof (Z.div_lt_upper_bound now (2 ^ 6) (2 ^ 58)). lia. }
  split; [lia|]. unfold wrapping_pred. apply Z.mod_small. unfold u64_max. lia.
Qed.

(** A cookie minted in the current slot or the one before is accepted. *)
Lemma check_cookie_minted key tuple client_mss minted ack now m :
  64 ≤ now ≤ u64_max → slot minted = slot now ∨ slot minted = slot now - 1 →
  make_cookie key tuple client_mss minted = Ret (wrapping_pred u32_max ack, m) →
  check_cookie key tuple ack now = Ret (Some m).
Proof.
  intros Hnow Ht Hmk. destruct (check_cookie_spec key tuple ack now) as (o & -> & Hs).
  f_equal. apply Hs. destruct (slot_bound now Hnow) as [_ ->].
  destruct (make_cookie_eq key tuple client_mss minted) as (v & Hv & He). rewrite He in Hmk.
  injection Hmk as Hw ->. rewrite <- Hw.
  rewrite decode_cookie_word by apply mss_index_for_bound. split; [done|].
  exists (slot minted). split; [|done]. destruct Ht as [->| ->]; [left|right; left].
Qed.

(** C15: the responder accepts exactly the cookies it could have minted
    recently. For every key, connection tuple, acknowledgment number and time
    (past the first 64 seconds of uptime), [check_cookie] does not panic, and
    returns an MSS [m] if and only if [make_cookie], for the same key and tuple
    and some client MSS, produces the sequence number before the acknowledged
    one and advertises [m] at some moment of the current 64-second slot or of
    the one before. In particular every handshake completed within its slot or
    the next is accepted, with the MSS that was advertised. *)
Theorem cookie_check_exact key tuple ack now :
  64 ≤ now ≤ u64_max →
  check_cookie key tuple ack now ≠ Panic ∧
  ∀ m, check_cookie key tuple ack now = Ret (Some m) ↔
    ∃ client_mss minted, 0 ≤ minted ∧ (slot minted = slot now ∨ slot minted = slot now - 1) ∧
      make_cookie key tuple client_mss minted = Ret (wrapping_pred u32_max ack, m).
Proof.
  intros Hnow. destruct (check_cookie_spec key tuple ack now) as (o & Ho & Hs).
  split; [by rewrite Ho|]. intros m. destruct (slot_bound now Hnow) as [Hpos Hp].
  split; [|intros (cm & minted & _ & Ht & Hmk); by eapply check_cookie_minted].
  rewrite Ho. intros [= Hm]. apply Hs in Hm as (Hv & t & Ht & Hw). rewrite Hp in Ht.
  set (c := wrapping_pred u32_max ack) in *. set (i := decode_mss_index c) in *.
  assert (0 ≤ i ≤ 7) as Hi by apply decode_mss_index_bound.
  assert (t = slot now ∨ t = slot now - 1) as Ht'.
  { apply elem_of_cons in Ht as [|Ht]; [by left|]. apply elem_of_cons in Ht as [|Ht]; [by right|by apply elem_of_nil in Ht]. }
  exists m, (t * 64). assert (slot (t * 64) = t) as Hst.
  { unfold slot, COUNTER_SHIFT. rewrite Z.shiftr_div_pow2 by lia. apply Z.div_mul. lia. }
  rewrite Hst. split_and!; [lia|done|].
  destruct (make_cookie_eq key tuple m (t * 64)) as (v & Hv' & ->).
  rewrite Hst, (mss_index_for_table i m Hi Hv) in *. do 2 f_equal; [done|congruence].
Qed.

Definition tuple_wf (c : ConnTuple) : Prop :=
  ip_wf (ct_src c) ∧ ip_wf (ct_dst c) ∧ ip_is_v4 (ct_src c) = ip_is_v4 (ct_dst c) ∧
  0 ≤ ct_src_port c ≤ u16_max ∧ 0 ≤ ct_dst_port c ≤ u16_max.

(** The bytes hashed for a connection. *)
Definition tuple_message (c : ConnTuple) (i t : Z) : list Z :=
  cookie_message (ip_addr_octets (ct_src c)) (ct_src_port c)
    (ip_addr_octets (ct_dst c)) (ct_dst_port c) i t.

Lemma be_bytes_inj n a b :
  0 ≤ a < 256 ^ Z.of_nat n → 0 ≤ b < 256 ^ Z.of_nat n → be_bytes n a = be_bytes n b → a = b.
Proof.
  intros Ha Hb Hab. rewrite <- (be_value_be_bytes_small n a Ha), <- (be_value_be_bytes_small n b Hb).
  by rewrite Hab.
Qed.

(** A cookie authenticates everything it should. The cookie of a
    connection is the keyed hash of a message, truncated and packed with the
    slot and the MSS index, and that message determines the client address and
    port, the server address and port, the slot and the MSS index: two
    connections of well-formed addresses, or the same connection at two slots
    or MSS indices, never hash the same bytes. *)
Theorem cookie_binds_connection key c1 c2 i1 i2 t1 t2 :
  tuple_wf c1 → tuple_wf c2 → 0 ≤ t1 ≤ u64_max → 0 ≤ t2 ≤ u64_max →
  (let '(k0, k1) := to_u64_pair key in
   cookie_for_slot k0 k1 (ip_addr_octets (ct_src c1)) (ct_src_port c1)
     (ip_addr_octets (ct_dst c1)) (ct_dst_port c1) i1 t1
   = Ret (cookie_word i1 t1 (siphash k0 k1 (tuple_message c1 i1 t1)))) ∧
  (tuple_message c1 i1 t1 = tuple_message c2 i2 t2 → c1 = c2 ∧ i1 = i2 ∧ t1 = t2).
Proof.
  intros (Hs1 & Hd1 & Hf1 & Hp1 & Hq1) (Hs2 & Hd2 & Hf2 & Hp2 & Hq2) Ht1 Ht2.
  unfold u16_max, u64_max in *. split.
  { destruct (to_u64_pair key) as [k0 k1]. pose proof (length_octets (ct_src c1)).
    pose proof (length_octets (ct_dst c1)). apply cookie_for_slot_eq. lia. }
  intros Hm. unfold tuple_message, cookie_message, ip_addr_octets in Hm.
  assert (ip_is_v4 (ct_src c1) = ip_is_v4 (ct_src c2)) as Hfam.
  { apply (f_equal length) in Hm. rewrite !length_app, !length_be_bytes, !length_ip_octets in Hm.
    destruct (ct_src c1), (ct_dst c1), (ct_src c2), (ct_dst c2); done. }
  assert (∀ a b, ip_is_v4 a = ip_is_v4 b → length (ip_octets a) = length (ip_octets b)) as Hl
    by (intros [] []; rewrite !length_ip_octets; done).
  apply app_inj_1 in Hm as [Hsrc Hm]; [|by apply Hl].
  apply app_inj_1 in Hm as [Hsp Hm]; [|by rewrite !length_be_bytes].
  apply app_inj_1 in Hm as [Hdst Hm]; [|apply Hl; congruence].
  apply app_inj_1 in Hm as [Hdp Hm]; [|by rewrite !length_be_bytes].
  apply app_inj_1 in Hm as [Ht Hi]; [|by rewrite !length_be_bytes].
  apply ip_octets_inj in Hsrc; [|done..]. apply ip_octets_inj in Hdst; [|done|done|congruence].
  apply be_bytes_inj in Hsp; [|change (256 ^ Z.of_nat 2) with 65536; lia..].
  apply be_bytes_inj in Hdp; [|change (256 ^ Z.of_nat 2) with 65536; lia..].
  apply be_bytes_inj in Ht; [|change (256 ^ Z.of_nat 8) with 18446744073709551616; lia..].
  split_and!; [|congruence|done]. destruct c1, c2; simpl in *; congruence.
Qed.
End cookie.

(** ** Examples *)

(** A keyed sum in place of SipHash, to evaluate the model. *)
Module RefHash.
#[local] Program Instance lib : SipHash := {|
  siphash k0 k1 m := (k0 * 31 + k1 * 17 + foldl (λ acc b, acc * 257 + b) 7 m) mod 18446744073709551616
|}.
Next Obligation.
  intros k0 k1 m. unfold u64_max.
  pose proof (Z.mod_pos_bound (k0 * 31 + k1 * 17 + foldl (λ acc b, acc * 257 + b) 7 m) 18446744073709551616).
  lia.
Qed.
End RefHash.

Section examples.
#[local] Existing Instance RefHash.lib.

Definition ck_ex_key : CookieKey := [1; 2; 3; 4; 5; 6; 7; 8; 9; 10; 11; 12; 13; 14; 15; 16].
Definition ck_ex_tuple : ConnTuple := {|
  ct_src := ipv4 198 51 100 9; ct_src_port := 40000; ct_dst := ipv4 203 0 113 7; ct_dst_port := 22 |}.

(** A cookie minted at second 1000 for MSS 1450 and returned at second 1060, in
    the next slot. *)
Definition ck_ex_cookie : Z :=
  match make_cookie ck_ex_key ck_ex_tuple 1450 1000 with Ret (c, _) => c | _ => 0 end.

Lemma cookie_check_exact_witness :
  64 ≤ 1060 ≤ u64_max ∧
  check_cookie ck_ex_key ck_ex_tuple (ck_ex_cookie + 1) 1060 = Ret (Some 1440) ∧
  check_cookie ck_ex_key ck_ex_tuple (ck_ex_cookie + 1) 1160 = Ret None.
Proof.
  split; [unfold u64_max; lia|]. split; [|vm_compute; reflexivity].
  apply (cookie_check_exact ck_ex_key ck_ex_tuple (ck_ex_cookie + 1) 1060); [unfold u64_max; lia|].
  exists 1450, 1000. split_and!; [lia|right; reflexivity|vm_compute; reflexivity].
Defined.

Lemma cookie_binds_connection_witness :
  tuple_message ck_ex_tuple 5 15 ≠ tuple_message ck_ex_tuple 5 16.
Proof.
  assert (tuple_wf ck_ex_tuple) as Hwf
    by (unfold tuple_wf, ip_wf, u16_max; vm_compute; intuition discriminate).
  intros Hm. destruct (cookie_binds_connection ck_ex_key ck_ex_tuple ck_ex_tuple 5 5 15 16) as [_ Hb];
    [done|done|unfold u64_max; lia|unfold u64_max; lia|].
  by destruct (Hb Hm) as (_ & _ & ?).
Defined.
End examples.
