(* ===== verification/Packet.v ===== *)
(** * Stateless reply packets

    [crates/blackwall-deception/src/transport/packet.rs]: the requests the
    stateless responder recognises and the ICMP, TCP and UDP replies it
    builds. Header parsing, serialisation and checksums are the [etherparse]
    crate, third-party code: its header structs are data, its functions are
    the fields of the class [EtherHeaders] with the documented behaviour the
    builders rely on (writing a header and parsing it back gives the header,
    headers have their wire lengths, a parsed packet contains its headers and
    payload). [RefHeaders] implements the class for the standard wire formats,
    so the laws are satisfiable and the builders evaluate. *)
From stdpp Require Import prelude gmap sorting.
From S2P Require Import Prelude Net Bytes.

Open Scope Z_scope.

(** ** Header structs *)

Record Ipv4Header := {
  ip4_dscp : Z; ip4_ecn : Z; ip4_total_len : Z; ip4_identification : Z;
  ip4_dont_fragment : bool; ip4_more_fragments : bool; ip4_fragment_offset : Z;
  ip4_time_to_live : Z; ip4_protocol : Z; ip4_header_checksum : Z;
  ip4_source : Z; ip4_destination : Z; ip4_options : list Z;
}.

Record Ipv6Header := {
  ip6_traffic_class : Z; ip6_flow_label : Z; ip6_payload_length : Z; ip6_next_header : Z;
  ip6_hop_limit : Z; ip6_source : Z; ip6_destination : Z;
}.

Record TcpHeader := {
  tcp_source_port : Z; tcp_destination_port : Z; sequence_number : Z; acknowledgment_number : Z;
  tcp_ns : bool; tcp_fin : bool; tcp_syn : bool; tcp_rst : bool; tcp_psh : bool; tcp_ack : bool;
  tcp_urg : bool; tcp_ece : bool; tcp_cwr : bool;
  window_size : Z; tcp_checksum : Z; urgent_pointer : Z; tcp_options : list Z;
}.

Record UdpHeader := {
  udp_source_port : Z; udp_destination_port : Z; udp_length : Z; udp_checksum : Z;
}.

Record IcmpEchoHeader := { echo_id : Z; echo_seq : Z }.

(** The message types the responder looks at; [Unknown4]/[Unknown6] stand for
    the others. *)
Inductive Icmpv4Type : Type := EchoRequest4 (e : IcmpEchoHeader) | EchoReply4 (e : IcmpEchoHeader) | Unknown4.
Inductive Icmpv6Type : Type := EchoRequest6 (e : IcmpEchoHeader) | EchoReply6 (e : IcmpEchoHeader) | Unknown6.

Record Icmpv4Header := { icmp4_type : Icmpv4Type; icmp4_checksum : Z }.
Record Icmpv6Header := { icmp6_type : Icmpv6Type; icmp6_checksum : Z }.

(** [NetHeaders], without the extension headers the code ignores. *)
Inductive NetHeaders : Type := NetIpv4 (h : Ipv4Header) | NetIpv6 (h : Ipv6Header) | NetArp.

Inductive TransportHeader : Type :=
| TUdp (h : UdpHeader) | TTcp (h : TcpHeader) | TIcmpv4 (h : Icmpv4Header) | TIcmpv6 (h : Icmpv6Header).

Record PacketHeaders := {
  ph_net : option NetHeaders;
  ph_transport : option TransportHeader;
  ph_payload : list Z;
}.

Inductive TcpOptionElement : Type := MaximumSegmentSize (mss : Z) | OtherOption.

Definition u16_ok (z : Z) : Prop := 0 ≤ z ≤ u16_max.
Definition u32_ok (z : Z) : Prop := 0 ≤ z ≤ u32_max.

(** The values the struct's fields can hold. *)
Definition tcp_wf (h : TcpHeader) : Prop :=
  u16_ok (tcp_source_port h) ∧ u16_ok (tcp_destination_port h) ∧ u32_ok (sequence_number h) ∧
  u32_ok (acknowledgment_number h) ∧ u16_ok (window_size h) ∧ u16_ok (tcp_checksum h) ∧
  u16_ok (urgent_pointer h) ∧ length (tcp_options h) ∈ [0; 4; 8; 12; 16; 20; 24; 28; 32; 36; 40]%nat.
Definition udp_wf (h : UdpHeader) : Prop :=
  u16_ok (udp_source_port h) ∧ u16_ok (udp_destination_port h) ∧ u16_ok (udp_length h) ∧
  u16_ok (udp_checksum h).
Definition echo_wf (e : IcmpEchoHeader) : Prop := u16_ok (echo_id e) ∧ u16_ok (echo_seq e).

Definition transport_wf (t : TransportHeader) : Prop :=
  match t with
  | TUdp h => udp_wf h
  | TTcp h => tcp_wf h
  | TIcmpv4 h =>
      u16_ok (icmp4_checksum h) ∧
      match icmp4_type h with EchoRequest4 e | EchoReply4 e => echo_wf e | Unknown4 => True end
  | TIcmpv6 h =>
      u16_ok (icmp6_checksum h) ∧
      match icmp6_type h with EchoRequest6 e | EchoReply6 e => echo_wf e | Unknown6 => True end
  end.

Definition ip4_small (h : Ipv4Header) : Prop :=
  0 ≤ ip4_dscp h < 64 ∧ 0 ≤ ip4_ecn h < 4 ∧ u16_ok (ip4_identification h).
Definition ip4_wf (h : Ipv4Header) : Prop :=
  ip4_small h ∧ 0 ≤ ip4_time_to_live h ≤ u8_max ∧ 0 ≤ ip4_protocol h ≤ u8_max ∧
  ip_wf (V4 (ip4_source h)) ∧ ip_wf (V4 (ip4_destination h)).
Definition ip6_wf (h : Ipv6Header) : Prop :=
  0 ≤ ip6_traffic_class h ≤ u8_max ∧ 0 ≤ ip6_flow_label h < 2 ^ 20 ∧ u16_ok (ip6_payload_length h) ∧
  0 ≤ ip6_next_header h ≤ u8_max ∧ 0 ≤ ip6_hop_limit h ≤ u8_max ∧
  ip_wf (V6 (ip6_source h)) ∧ ip_wf (V6 (ip6_destination h)).
Definition net_wf (n : NetHeaders) : Prop :=
  match n with NetIpv4 h => ip4_wf h | NetIpv6 h => ip6_wf h | NetArp => True end.

(** IP protocol numbers of the transports. *)
Definition proto_number (t : TransportHeader) : Z :=
  match t with TTcp _ => 6 | TUdp _ => 17 | TIcmpv4 _ => 1 | TIcmpv6 _ => 58 end.

(** The bytes of the shortest possible headers of a packet. *)
Definition net_min_len (n : NetHeaders) : nat :=
  match n with NetIpv4 _ => 20 | NetIpv6 _ => 40 | NetArp => 0 end.
Definition transport_min_len (t : TransportHeader) : nat :=
  match t with TTcp _ => 20 | _ => 8 end.

(** The transports a reply carries. *)
Definition writable (t : TransportHeader) (payload : list Z) : Prop :=
  match t with
  | TUdp h => udp_length h = 8 + Z.of_nat (length payload)
  | TTcp h => True
  | TIcmpv4 h => icmp4_type h ≠ Unknown4
  | TIcmpv6 h => icmp6_type h ≠ Unknown6
  end.

(** An IPv4 header without options, of a packet that is not a fragment. *)
Definition ip4_plain (h : Ipv4Header) : Prop :=
  ip4_options h = [] ∧ ip4_more_fragments h = false ∧ ip4_fragment_offset h = 0.

Definition set_header_checksum (c : Z) (h : Ipv4Header) : Ipv4Header := {|
  ip4_dscp := ip4_dscp h; ip4_ecn := ip4_ecn h; ip4_total_len := ip4_total_len h;
  ip4_identification := ip4_identification h; ip4_dont_fragment := ip4_dont_fragment h;
  ip4_more_fragments := ip4_more_fragments h; ip4_fragment_offset := ip4_fragment_offset h;
  ip4_time_to_live := ip4_time_to_live h; ip4_protocol := ip4_protocol h;
  ip4_header_checksum := c; ip4_source := ip4_source h; ip4_destination := ip4_destination h;
  ip4_options := ip4_options h |}.

(** [TcpHeader::new]: everything else is zero. *)
Definition tcp_header (sp dp seq ackn : Z) (fin syn psh ack : bool) (window c : Z) (opts : list Z)
    : TcpHeader := {|
  tcp_source_port := sp; tcp_destination_port := dp; sequence_number := seq;
  acknowledgment_number := ackn; tcp_ns := false; tcp_fin := fin; tcp_syn := syn; tcp_rst := false;
  tcp_psh := psh; tcp_ack := ack; tcp_urg := false; tcp_ece := false; tcp_cwr := false;
  window_size := window; tcp_checksum := c; urgent_pointer := 0; tcp_options := opts |}.

(** ** The functions of [etherparse] *)
Class EtherHeaders := {
  (** [PacketHeaders::from_ip_slice]; [None] is an error. *)
  from_ip_slice : list Z → option PacketHeaders;
  (** [Ipv4Header::new(payload_len, ttl, protocol, source, destination)]. *)
  ipv4_new : Z → Z → Z → Z → Z → option Ipv4Header;
  calc_header_checksum : Ipv4Header → Z;
  ipv4_write : Ipv4Header → option (list Z);
  ipv6_write : Ipv6Header → option (list Z);
  (** [TcpHeader::new(source_port, destination_port, sequence_number, window_size)]. *)
  tcp_new : Z → Z → Z → Z → TcpHeader;
  (** The option bytes of [set_options], and [options_iterator] over them. *)
  tcp_encode_options : list TcpOptionElement → option (list Z);
  tcp_options_iterator : list Z → list (option TcpOptionElement);
  calc_checksum_ipv4 : TcpHeader → Ipv4Header → list Z → option Z;
  calc_checksum_ipv6 : TcpHeader → Ipv6Header → list Z → option Z;
  tcp_write : TcpHeader → option (list Z);
  (** [UdpHeader::with_ipv4_checksum(source_port, destination_port, ip, payload)]. *)
  udp_with_ipv4_checksum : Z → Z → Ipv4Header → list Z → option UdpHeader;
  udp_with_ipv6_checksum : Z → Z → Ipv6Header → list Z → option UdpHeader;
  udp_write : UdpHeader → option (list Z);
  icmpv4_with_checksum : Icmpv4Type → list Z → Icmpv4Header;
  icmpv6_with_checksum : Icmpv6Type → Z → Z → list Z → option Icmpv6Header;
  icmpv4_write : Icmpv4Header → option (list Z);
  icmpv6_write : Icmpv6Header → option (list Z);

  (** The fields of a parsed packet have their types' values, and the packet
      contains its headers and its payload. *)
  parsed_wf : ∀ p h, from_ip_slice p = Some h →
    (∀ n, ph_net h = Some n → net_wf n) ∧ (∀ t, ph_transport h = Some t → transport_wf t);
  parsed_length : ∀ p h n t, from_ip_slice p = Some h → ph_net h = Some n → ph_transport h = Some t →
    (net_min_len n + transport_min_len t + length (ph_payload h) ≤ length p)%nat;
  (** A fresh IPv4 header, for payloads that fit. *)
  ipv4_new_ok : ∀ len ttl proto src dst, 0 ≤ len ≤ 65515 → ∃ h,
    ipv4_new len ttl proto src dst = Some h ∧ ip4_small h ∧ ip4_plain h ∧ ip4_total_len h = len + 20 ∧
    ip4_time_to_live h = ttl ∧ ip4_protocol h = proto ∧ ip4_source h = src ∧ ip4_destination h = dst;
  ipv4_new_err : ∀ len ttl proto src dst, 65515 < len → ipv4_new len ttl proto src dst = None;
  tcp_new_eq : ∀ sp dp seq window,
    tcp_new sp dp seq window = tcp_header sp dp seq 0 false false false false window 0 [];
  (** A single MSS option takes four bytes and is read back. *)
  mss_option : ∀ m, u16_ok m → ∃ o, tcp_encode_options [MaximumSegmentSize m] = Some o ∧
    length o = 4%nat ∧ tcp_options_iterator o = [Some (MaximumSegmentSize m)];
  (** Checksums are [u16]s, computed for segments within the length limit. *)
  header_checksum_u16 : ∀ h, u16_ok (calc_header_checksum h);
  tcp_checksum4_ok : ∀ t h p, Z.of_nat (20 + length (tcp_options t) + length p) ≤ 65515 →
    ∃ c, calc_checksum_ipv4 t h p = Some c ∧ u16_ok c;
  tcp_checksum6_ok : ∀ t h p, Z.of_nat (20 + length (tcp_options t) + length p) ≤ u16_max →
    ∃ c, calc_checksum_ipv6 t h p = Some c ∧ u16_ok c;
  udp_checksum4_ok : ∀ sp dp h p, Z.of_nat (8 + length p) ≤ u16_max →
    ∃ c, u16_ok c ∧ udp_with_ipv4_checksum sp dp h p = Some {|
      udp_source_port := sp; udp_destination_port := dp;
      udp_length := 8 + Z.of_nat (length p); udp_checksum := c |};
  udp_checksum6_ok : ∀ sp dp h p, Z.of_nat (8 + length p) ≤ u16_max →
    ∃ c, u16_ok c ∧ udp_with_ipv6_checksum sp dp h p = Some {|
      udp_source_port := sp; udp_destination_port := dp;
      udp_length := 8 + Z.of_nat (length p); udp_checksum := c |};
  icmp4_checksum_ok : ∀ ty p,
    icmp4_type (icmpv4_with_checksum ty p) = ty ∧ u16_ok (icmp4_checksum (icmpv4_with_checksum ty p));
  icmp6_checksum_ok : ∀ ty s d p, Z.of_nat (8 + length p) ≤ u32_max →
    ∃ c, u16_ok c ∧ icmpv6_with_checksum ty s d p = Some {| icmp6_type := ty; icmp6_checksum := c |};
  (** Headers are written at their wire lengths and layouts. *)
  ipv4_write_ok : ∀ h, ip4_plain h → ∃ b, ipv4_write h = Some b ∧ length b = 20%nat ∧
    (∃ b0, b !! 0%nat = Some b0 ∧ Z.shiftr b0 4 = 4) ∧
    take 4 (drop 16 b) = be_bytes 4 (ip4_destination h);
  ipv6_write_ok : ∀ h, ip6_wf h → ∃ b, ipv6_write h = Some b ∧ length b = 40%nat ∧
    (∃ b0, b !! 0%nat = Some b0 ∧ Z.shiftr b0 4 = 6) ∧ b !! 6%nat = Some (ip6_next_header h) ∧
    take 16 (drop 8 b) = be_bytes 16 (ip6_source h) ∧
    take 16 (drop 24 b) = be_bytes 16 (ip6_destination h);
  tcp_write_ok : ∀ h, tcp_wf h → ∃ b, tcp_write h = Some b ∧ length b = (20 + length (tcp_options h))%nat;
  udp_write_ok : ∀ h, ∃ b, udp_write h = Some b ∧ length b = 8%nat;
  icmpv4_write_ok : ∀ h, icmp4_type h ≠ Unknown4 → ∃ b, icmpv4_write h = Some b ∧ length b = 8%nat;
  icmpv6_write_ok : ∀ h, icmp6_type h ≠ Unknown6 → ∃ b, icmpv6_write h = Some b ∧ length b = 8%nat;
  (** Writing and parsing back. *)
  parse_written4 : ∀ h t p hb tb, ip4_wf h → ip4_plain h → u16_ok (ip4_header_checksum h) →
    transport_wf t → writable t p → ip4_protocol h = proto_number t →
    (match t with TIcmpv6 _ => False | _ => True end) →
    ipv4_write h = Some hb →
    match t with
    | TTcp x => tcp_write x | TUdp x => udp_write x
    | TIcmpv4 x => icmpv4_write x | TIcmpv6 x => icmpv6_write x
    end = Some tb →
    ip4_total_len h = Z.of_nat (20 + length tb + length p) → u16_ok (ip4_total_len h) →
    from_ip_slice (hb ++ tb ++ p)
    = Some {| ph_net := Some (NetIpv4 h); ph_transport := Some t; ph_payload := p |};
  parse_written6 : ∀ h t p hb tb, ip6_wf h → transport_wf t → writable t p →
    ip6_next_header h = proto_number t →
    (match t with TIcmpv4 _ => False | _ => True end) →
    ipv6_write h = Some hb →
    match t with
    | TTcp x => tcp_write x | TUdp x => udp_write x
    | TIcmpv4 x => icmpv4_write x | TIcmpv6 x => icmpv6_write x
    end = Some tb →
    ip6_payload_length h = Z.of_nat (length tb + length p) →
    from_ip_slice (hb ++ tb ++ p)
    = Some {| ph_net := Some (NetIpv6 h); ph_transport := Some t; ph_payload := p |};
}.

Definition STATELESS_WINDOW : Z := 65535.
Definition DEFAULT_CLIENT_MSS : Z := 1460.
Definition ETH_HEADER_LEN : nat := 14.
Definition ETHERTYPE_IPV4 : list Z := [8; 0].

Section packet.
Context `{EtherHeaders}.

(** [net.ipv4_ref()] and [net.ipv6_ref()]. *)
Definition ipv4_ref (n : NetHeaders) : option Ipv4Header :=
  match n with NetIpv4 h => Some h | _ => None end.
Definition ipv6_ref (n : NetHeaders) : option Ipv6Header :=
  match n with NetIpv6 h => Some h | _ => None end.

(** [u16::try_from(n).ok()]. *)
Definition try_u16 (n : nat) : option Z :=
  if Z.of_nat n <=? u16_max then Some (Z.of_nat n) else None.

(** [header_len()] of the headers the builders measure. *)
Definition tcp_header_len (h : TcpHeader) : nat := 20 + length (tcp_options h).
Definition icmp_header_len : nat := 8.

(** ** Requests *)

Record TcpRequestInfo := {
  tr_src : IpAddr; tr_src_port : Z; tr_dst : IpAddr; tr_dst_port : Z;
  tr_syn : bool; tr_ack : bool; tr_ack_seq : Z; tr_client_mss : Z;
}.

(** The [find_map] over the options. *)
Fixpoint find_mss (opts : list (option TcpOptionElement)) : option Z :=
  match opts with
  | [] => None
  | Some (MaximumSegmentSize mss) :: _ => Some mss
  | _ :: opts => find_mss opts
  end.

Definition parse_tcp_request (request : list Z) : option TcpRequestInfo :=
  headers ← from_ip_slice request;
  net ← ph_net headers;
  '(src, dst) ←
    match ipv4_ref net with
    | Some ip4 => Some (V4 (ip4_source ip4), V4 (ip4_destination ip4))
    | None =>
        match ipv6_ref net with
        | Some ip6 => Some (V6 (ip6_source ip6), V6 (ip6_destination ip6))
        | None => None
        end
    end;
  transport ← ph_transport headers;
  tcp ← match transport with TTcp h => Some h | _ => None end;
  let client_mss := default DEFAULT_CLIENT_MSS (find_mss (tcp_options_iterator (tcp_options tcp))) in
  Some {| tr_src := src; tr_src_port := tcp_source_port tcp; tr_dst := dst;
          tr_dst_port := tcp_destination_port tcp; tr_syn := tcp_syn tcp; tr_ack := tcp_ack tcp;
          tr_ack_seq := acknowledgment_number tcp; tr_client_mss := client_mss |}.

Record UdpRequestInfo := { ur_dst_port : Z; ur_payload_len : nat }.

Definition parse_udp_request (request : list Z) : option UdpRequestInfo :=
  headers ← from_ip_slice request;
  net ← ph_net headers;
  if negb (bool_decide (is_Some (ipv4_ref net))) && negb (bool_decide (is_Some (ipv6_ref net))) then None
  else
    transport ← ph_transport headers;
    udp ← match transport with TUdp h => Some h | _ => None end;
    Some {| ur_dst_port := udp_destination_port udp; ur_payload_len := length (ph_payload headers) |}.

(** ** Echo replies *)

Definition icmp_echo_reply (request : list Z) : option (list Z) :=
  headers ← from_ip_slice request;
  net ← ph_net headers;
  ip_hdr ← ipv4_ref net;
  transport ← ph_transport headers;
  icmp4 ← match transport with TIcmpv4 h => Some h | _ => None end;
  echo_hdr ← match icmp4_type icmp4 with EchoRequest4 e => Some e | _ => None end;
  let payload := ph_payload headers in
  let reply_icmp := icmpv4_with_checksum (EchoReply4 echo_hdr) payload in
  payload_len ← try_u16 (icmp_header_len + length payload);
  reply_ip ← ipv4_new payload_len (ip4_time_to_live ip_hdr) (ip4_protocol ip_hdr)
    (ip4_destination ip_hdr) (ip4_source ip_hdr);
  let reply_ip := set_header_checksum (calc_header_checksum reply_ip) reply_ip in
  ip_bytes ← ipv4_write reply_ip;
  icmp_bytes ← icmpv4_write reply_icmp;
  Some (ip_bytes ++ icmp_bytes ++ payload).

(** [swapped_ipv6_reply]; [icmpv6_echo_reply] builds the same header in place. *)
Definition swapped_ipv6_reply (ip6 : Ipv6Header) (payload_length : Z) : Ipv6Header := {|
  ip6_traffic_class := ip6_traffic_class ip6; ip6_flow_label := ip6_flow_label ip6;
  ip6_payload_length := payload_length; ip6_next_header := ip6_next_header ip6;
  ip6_hop_limit := ip6_hop_limit ip6; ip6_source := ip6_destination ip6;
  ip6_destination := ip6_source ip6 |}.

Definition icmpv6_echo_reply (request : list Z) : option (list Z) :=
  headers ← from_ip_slice request;
  net ← ph_net headers;
  ip_hdr ← ipv6_ref net;
  transport ← ph_transport headers;
  icmp6 ← match transport with TIcmpv6 h => Some h | _ => None end;
  echo_hdr ← match icmp6_type icmp6 with EchoRequest6 e => Some e | _ => None end;
  let payload := ph_payload headers in
  reply_icmp ← icmpv6_with_checksum (EchoReply6 echo_hdr) (ip6_destination ip_hdr)
    (ip6_source ip_hdr) payload;
  payload_len ← try_u16 (icmp_header_len + length payload);
  let reply_ip := swapped_ipv6_reply ip_hdr payload_len in
  ip_bytes ← ipv6_write reply_ip;
  icmp_bytes ← icmpv6_write reply_icmp;
  Some (ip_bytes ++ icmp_bytes ++ payload).

(** ** TCP replies *)

Definition set_tcp_checksum (c : Z) (h : TcpHeader) : TcpHeader := {|
  tcp_source_port := tcp_source_port h; tcp_destination_port := tcp_destination_port h;
  sequence_number := sequence_number h; acknowledgment_number := acknowledgment_number h;
  tcp_ns := tcp_ns h; tcp_fin := tcp_fin h; tcp_syn := tcp_syn h; tcp_rst := tcp_rst h;
  tcp_psh := tcp_psh h; tcp_ack := tcp_ack h; tcp_urg := tcp_urg h; tcp_ece := tcp_ece h;
  tcp_cwr := tcp_cwr h; window_size := window_size h; tcp_checksum := c;
  urgent_pointer := urgent_pointer h; tcp_options := tcp_options h |}.

Definition write_ipv4_tcp (ip4 : Ipv4Header) (tcp : TcpHeader) (payload : list Z) : option (list Z) :=
  c ← calc_checksum_ipv4 tcp ip4 payload;
  let tcp := set_tcp_checksum c tcp in
  let ip4 := set_header_checksum (calc_header_checksum ip4) ip4 in
  ip_bytes ← ipv4_write ip4;
  tcp_bytes ← tcp_write tcp;
  Some (ip_bytes ++ tcp_bytes ++ payload).

Definition write_ipv6_tcp (ip6 : Ipv6Header) (tcp : TcpHeader) (payload : list Z) : option (list Z) :=
  c ← calc_checksum_ipv6 tcp ip6 payload;
  let tcp := set_tcp_checksum c tcp in
  ip_bytes ← ipv6_write ip6;
  tcp_bytes ← tcp_write tcp;
  Some (ip_bytes ++ tcp_bytes ++ payload).

(** Assignment to the flags and the acknowledgment number, and
    [set_options]. *)
Definition set_reply_flags (fin syn psh ack : bool) (ackn : Z) (h : TcpHeader) : TcpHeader := {|
  tcp_source_port := tcp_source_port h; tcp_destination_port := tcp_destination_port h;
  sequence_number := sequence_number h; acknowledgment_number := ackn;
  tcp_ns := tcp_ns h; tcp_fin := fin || tcp_fin h; tcp_syn := syn || tcp_syn h; tcp_rst := tcp_rst h;
  tcp_psh := psh || tcp_psh h; tcp_ack := ack || tcp_ack h; tcp_urg := tcp_urg h; tcp_ece := tcp_ece h;
  tcp_cwr := tcp_cwr h; window_size := window_size h; tcp_checksum := tcp_checksum h;
  urgent_pointer := urgent_pointer h; tcp_options := tcp_options h |}.

Definition set_options (opts : list TcpOptionElement) (h : TcpHeader) : option TcpHeader :=
  o ← tcp_encode_options opts;
  Some {|
    tcp_source_port := tcp_source_port h; tcp_destination_port := tcp_destination_port h;
    sequence_number := sequence_number h; acknowledgment_number := acknowledgment_number h;
    tcp_ns := tcp_ns h; tcp_fin := tcp_fin h; tcp_syn := tcp_syn h; tcp_rst := tcp_rst h;
    tcp_psh := tcp_psh h; tcp_ack := tcp_ack h; tcp_urg := tcp_urg h; tcp_ece := tcp_ece h;
    tcp_cwr := tcp_cwr h; window_size := window_size h; tcp_checksum := tcp_checksum h;
    urgent_pointer := urgent_pointer h; tcp_options := o |}.

(** [u32::wrapping_add]. *)
Definition wrapping_add32 (a b : Z) : Z := (a + b) mod (u32_max + 1).

Definition tcp_syn_ack (request : list Z) (cookie_seq mss : Z) : option (list Z) :=
  headers ← from_ip_slice request;
  net ← ph_net headers;
  transport ← ph_transport headers;
  tcp ← match transport with TTcp h => Some h | _ => None end;
  if negb (tcp_syn tcp) || tcp_ack tcp then None
  else
    let reply_tcp := tcp_new (tcp_destination_port tcp) (tcp_source_port tcp) cookie_seq STATELESS_WINDOW in
    let reply_tcp :=
      set_reply_flags false true false true (wrapping_add32 (sequence_number tcp) 1) reply_tcp in
    reply_tcp ← set_options [MaximumSegmentSize mss] reply_tcp;
    match ipv4_ref net with
    | Some ip4 =>
        let payload_len := Z.of_nat (tcp_header_len reply_tcp) in
        reply_ip4 ← ipv4_new payload_len (ip4_time_to_live ip4) (ip4_protocol ip4)
          (ip4_destination ip4) (ip4_source ip4);
        write_ipv4_tcp reply_ip4 reply_tcp []
    | None =>
        match ipv6_ref net with
        | Some ip6 =>
            let payload_len := Z.of_nat (tcp_header_len reply_tcp) in
            write_ipv6_tcp (swapped_ipv6_reply ip6 payload_len) reply_tcp []
        | None => None
        end
    end.

Definition tcp_banner_fin (ack_request banner : list Z) : option (list Z) :=
  headers ← from_ip_slice ack_request;
  net ← ph_net headers;
  transport ← ph_transport headers;
  tcp ← match transport with TTcp h => Some h | _ => None end;
  if negb (tcp_ack tcp) then None
  else
    client_payload_len ←
      (if Z.of_nat (length (ph_payload headers)) <=? u32_max
       then Some (Z.of_nat (length (ph_payload headers))) else None);
    let reply_seq := acknowledgment_number tcp in
    let reply_ack := wrapping_add32 (sequence_number tcp) client_payload_len in
    let reply_tcp := tcp_new (tcp_destination_port tcp) (tcp_source_port tcp) reply_seq STATELESS_WINDOW in
    let reply_tcp := set_reply_flags true false true true reply_ack reply_tcp in
    match ipv4_ref net with
    | Some ip4 =>
        payload_len ← try_u16 (tcp_header_len reply_tcp + length banner);
        reply_ip4 ← ipv4_new payload_len (ip4_time_to_live ip4) (ip4_protocol ip4)
          (ip4_destination ip4) (ip4_source ip4);
        write_ipv4_tcp reply_ip4 reply_tcp banner
    | None =>
        match ipv6_ref net with
        | Some ip6 =>
            payload_len ← try_u16 (tcp_header_len reply_tcp + length banner);
            write_ipv6_tcp (swapped_ipv6_reply ip6 payload_len) reply_tcp banner
        | None => None
        end
    end.

(** ** UDP replies *)

Definition udp_response (request payload : list Z) : option (list Z) :=
  headers ← from_ip_slice request;
  net ← ph_net headers;
  transport ← ph_transport headers;
  udp ← match transport with TUdp h => Some h | _ => None end;
  let request_payload_len := length (ph_payload headers) in
  if (request_payload_len =? 0)%nat then None
  else
    let reply_len := Nat.min (length payload) request_payload_len in
    let reply_payload := take reply_len payload in
    match ipv4_ref net with
    | Some ip4 =>
        udp_len ← try_u16 (8 + length reply_payload);
        reply_ip4 ← ipv4_new udp_len (ip4_time_to_live ip4) (ip4_protocol ip4)
          (ip4_destination ip4) (ip4_source ip4);
        reply_udp ← udp_with_ipv4_checksum (udp_destination_port udp) (udp_source_port udp)
          reply_ip4 reply_payload;
        let reply_ip4 := set_header_checksum (calc_header_checksum reply_ip4) reply_ip4 in
        ip_bytes ← ipv4_write reply_ip4;
        udp_bytes ← udp_write reply_udp;
        Some (ip_bytes ++ udp_bytes ++ reply_payload)
    | None =>
        match ipv6_ref net with
        | Some ip6 =>
            udp_len ← try_u16 (8 + length reply_payload);
            let reply_ip6 := swapped_ipv6_reply ip6 udp_len in
            reply_udp ← udp_with_ipv6_checksum (udp_destination_port udp) (udp_source_port udp)
              reply_ip6 reply_payload;
            ip_bytes ← ipv6_write reply_ip6;
            udp_bytes ← udp_write reply_udp;
            Some (ip_bytes ++ udp_bytes ++ reply_payload)
        | None => None
        end
    end.

(** Slicing past the length check of the first line does not fail, so the
    slices are written directly. *)
Definition udp_l2_response (frame payload : list Z) : option (list Z) :=
  if (length frame <? ETH_HEADER_LEN)%nat then None
  else if negb (bool_decide (take 2 (drop 12 frame) = ETHERTYPE_IPV4)) then None
  else
    let ip_request := drop ETH_HEADER_LEN frame in
    ip_reply ← udp_response ip_request payload;
    Some (take 6 (drop 6 frame) ++ take 6 frame ++ ETHERTYPE_IPV4 ++ ip_reply).

(** ** Replies on the wire *)

Definition transport_write (t : TransportHeader) : option (list Z) :=
  match t with
  | TTcp x => tcp_write x | TUdp x => udp_write x
  | TIcmpv4 x => icmpv4_write x | TIcmpv6 x => icmpv6_write x
  end.

(** The IP header names the transport directly, without extension headers in
    between, and the transport exists for the IP version. *)
Definition carries (n : NetHeaders) (t : TransportHeader) : Prop :=
  match n, t with
  | NetIpv4 _, TIcmpv6 _ | NetIpv6 _, TIcmpv4 _ => False
  | NetIpv4 h, _ => ip4_protocol h = proto_number t
  | NetIpv6 h, _ => ip6_next_header h = proto_number t
  | NetArp, _ => False
  end.

(** [r] is the header of an answer to [n]: the addresses are swapped and the
    rest of what identifies the packet is kept. *)
Definition answers (n r : NetHeaders) : Prop :=
  match n, r with
  | NetIpv4 a, NetIpv4 b =>
      ip4_source b = ip4_destination a ∧ ip4_destination b = ip4_source a ∧
      ip4_protocol b = ip4_protocol a ∧ ip4_time_to_live b = ip4_time_to_live a
  | NetIpv6 a, NetIpv6 b =>
      ip6_source b = ip6_destination a ∧ ip6_destination b = ip6_source a ∧
      ip6_next_header b = ip6_next_header a ∧ ip6_hop_limit b = ip6_hop_limit a ∧
      ip6_traffic_class b = ip6_traffic_class a ∧ ip6_flow_label b = ip6_flow_label a
  | _, _ => False
  end.

(** The bytes of an IP header for [r]: its version, its destination and, for
    IPv6, its next header and source are where the senders look for them. *)
Definition ip_layout (r : NetHeaders) (b : list Z) : Prop :=
  length b = net_min_len r ∧
  match r with
  | NetIpv4 h => (∃ b0, b !! 0%nat = Some b0 ∧ Z.shiftr b0 4 = 4) ∧
      take 4 (drop 16 b) = be_bytes 4 (ip4_destination h)
  | NetIpv6 h => (∃ b0, b !! 0%nat = Some b0 ∧ Z.shiftr b0 4 = 6) ∧
      b !! 6%nat = Some (ip6_next_header h) ∧
      take 16 (drop 8 b) = be_bytes 16 (ip6_source h) ∧
      take 16 (drop 24 b) = be_bytes 16 (ip6_destination h)
  | NetArp => False
  end.

(** A complete reply to a packet with network header [n]: an IP header that
    answers [n], the transport and the payload, which parses back as such when
    the IP header names the transport. *)
Definition reply_packet (n : NetHeaders) (t : TransportHeader) (p reply : list Z) : Prop :=
  ∃ r hb tb, reply = hb ++ tb ++ p ∧ answers n r ∧ ip_layout r hb ∧
    length tb = match t with TTcp h => (20 + length (tcp_options h))%nat | _ => 8%nat end ∧
    (carries n t → from_ip_slice reply
      = Some {| ph_net := Some r; ph_transport := Some t; ph_payload := p |}).

Lemma transport_write_ok t :
  transport_wf t →
  match t with TIcmpv4 h => icmp4_type h ≠ Unknown4 | TIcmpv6 h => icmp6_type h ≠ Unknown6 | _ => True end →
  ∃ tb, transport_write t = Some tb ∧
    length tb = match t with TTcp h => (20 + length (tcp_options h))%nat | _ => 8%nat end.
Proof.
  destruct t; simpl; intros Hw Hk; [apply udp_write_ok|by apply tcp_write_ok|by apply icmpv4_write_ok|by apply icmpv6_write_ok].
Qed.

(** The IPv4 header of a reply. *)
Lemma ipv4_reply ip4 len :
  ip4_wf ip4 → 0 ≤ len ≤ 65515 →
  ∃ h hb, ipv4_new len (ip4_time_to_live ip4) (ip4_protocol ip4) (ip4_destination ip4) (ip4_source ip4) = Some h ∧
    ipv4_write (set_header_checksum (calc_header_checksum h) h) = Some hb ∧
    ∀ t tb p, transport_wf t → writable t p → transport_write t = Some tb →
      len = Z.of_nat (length tb + length p) →
      reply_packet (NetIpv4 ip4) t p (hb ++ tb ++ p).
Proof.
  intros (_ & Httl & Hpr & Hs & Hd) Hlen.
  destruct (ipv4_new_ok len (ip4_time_to_live ip4) (ip4_protocol ip4) (ip4_destination ip4) (ip4_source ip4) Hlen)
    as (h & Hn & Hsm & Hpl & Htl & Ht & Hp & Hs' & Hd').
  set (h' := set_header_checksum (calc_header_checksum h) h).
  assert (ip4_plain h') as Hpl' by exact Hpl.
  destruct (ipv4_write_ok h' Hpl') as (hb & Hw & Hl & Hb0 & Hdst).
  exists h, hb. split; [done|]. split; [done|]. intros t tb p Hwf Hwr Htw Hlen'.
  assert (length tb = match t with TTcp h => (20 + length (tcp_options h))%nat | _ => 8%nat end) as Htb.
  { destruct (transport_write_ok t Hwf) as (tb' & Htw' & ?); [by destruct t|]. congruence. }
  exists (NetIpv4 h'), hb, tb. split; [done|]. split; [done|]. split; [done|]. split; [done|].
  intros Hc. apply parse_written4; try done.
  - unfold ip4_wf. change (ip4_small h') with (ip4_small h).
    change (ip4_time_to_live h') with (ip4_time_to_live h). change (ip4_protocol h') with (ip4_protocol h).
    change (ip4_source h') with (ip4_source h). change (ip4_destination h') with (ip4_destination h).
    rewrite Ht, Hp, Hs', Hd'. done.
  - apply header_checksum_u16.
  - change (ip4_protocol h') with (ip4_protocol h). rewrite Hp. by destruct t.
  - by destruct t.
  - change (ip4_total_len h') with (ip4_total_len h). rewrite Htl. lia.
  - change (ip4_total_len h') with (ip4_total_len h). unfold u16_ok, u16_max. lia.
Qed.

(** The IPv6 header of a reply. *)
Lemma ipv6_reply ip6 len :
  ip6_wf ip6 → 0 ≤ len ≤ u16_max →
  ∃ hb, ipv6_write (swapped_ipv6_reply ip6 len) = Some hb ∧
    ∀ t tb p, transport_wf t → writable t p → transport_write t = Some tb →
      len = Z.of_nat (length tb + length p) →
      reply_packet (NetIpv6 ip6) t p (hb ++ tb ++ p).
Proof.
  intros (? & ? & ? & ? & ? & ? & ?) Hlen. set (r := swapped_ipv6_reply ip6 len).
  assert (ip6_wf r) as Hr by done. destruct (ipv6_write_ok r Hr) as (hb & Hw & Hl & Hb0 & Hnh & Hs & Hd).
  exists hb. split; [done|]. intros t tb p Hwf Hwr Htw Hlen'.
  assert (length tb = match t with TTcp h => (20 + length (tcp_options h))%nat | _ => 8%nat end) as Htb.
  { destruct (transport_write_ok t Hwf) as (tb' & Htw' & ?); [by destruct t|]. congruence. }
  exists (NetIpv6 r), hb, tb. do 4 (split; [done|]).
  intros Hc. apply parse_written6; try done; by destruct t.
Qed.

(** ** The builders *)

Lemma tcp_reply4 ip4 t p :
  ip4_wf ip4 → tcp_wf t → Z.of_nat (tcp_header_len t + length p) ≤ 65515 →
  ∃ c reply,
    (h ← ipv4_new (Z.of_nat (tcp_header_len t + length p)) (ip4_time_to_live ip4) (ip4_protocol ip4)
       (ip4_destination ip4) (ip4_source ip4);
     write_ipv4_tcp h t p) = Some reply ∧
    reply_packet (NetIpv4 ip4) (TTcp (set_tcp_checksum c t)) p reply.
Proof.
  intros Hip Ht Hl. unfold tcp_header_len in *.
  destruct (ipv4_reply ip4 (Z.of_nat (20 + length (tcp_options t) + length p)) Hip)
    as (h & hb & Hn & Hw & Hr); [lia|].
  destruct (tcp_checksum4_ok t h p) as (c & Hc & Hcu); [lia|].
  assert (tcp_wf (set_tcp_checksum c t)) as Hwf
    by (unfold tcp_wf in *; simpl; intuition).
  destruct (transport_write_ok (TTcp (set_tcp_checksum c t)) Hwf I) as (tb & Htb & Hlb).
  exists c, (hb ++ tb ++ p). rewrite Hn. cbn [mbind option_bind]. unfold write_ipv4_tcp.
  rewrite Hc. cbn [mbind option_bind]. rewrite Hw. cbn [mbind option_bind].
  cbn [transport_write] in Htb. rewrite Htb. split; [done|].
  apply Hr; [done|done|done|]. simpl in Hlb. lia.
Qed.

Lemma tcp_reply6 ip6 t p :
  ip6_wf ip6 → tcp_wf t → Z.of_nat (tcp_header_len t + length p) ≤ u16_max →
  ∃ c reply,
    write_ipv6_tcp (swapped_ipv6_reply ip6 (Z.of_nat (tcp_header_len t + length p))) t p = Some reply ∧
    reply_packet (NetIpv6 ip6) (TTcp (set_tcp_checksum c t)) p reply.
Proof.
  intros Hip Ht Hl. unfold tcp_header_len in *.
  destruct (ipv6_reply ip6 (Z.of_nat (20 + length (tcp_options t) + length p)) Hip)
    as (hb & Hw & Hr); [lia|].
  destruct (tcp_checksum6_ok t (swapped_ipv6_reply ip6 (Z.of_nat (20 + length (tcp_options t) + length p))) p)
    as (c & Hc & Hcu); [lia|].
  assert (tcp_wf (set_tcp_checksum c t)) as Hwf by (unfold tcp_wf in *; simpl; intuition).
  destruct (transport_write_ok (TTcp (set_tcp_checksum c t)) Hwf I) as (tb & Htb & Hlb).
  exists c, (hb ++ tb ++ p). unfold write_ipv6_tcp.
  rewrite Hc. cbn [mbind option_bind]. rewrite Hw. cbn [mbind option_bind].
  cbn [transport_write] in Htb. rewrite Htb. split; [done|].
  apply Hr; [done|done|done|]. simpl in Hlb. lia.
Qed.

Lemma wrapping_add32_ok a b : u32_ok (wrapping_add32 a b).
Proof.
  unfold wrapping_add32, u32_ok, u32_max. pose proof (Z.mod_pos_bound (a + b) (4294967295 + 1)). lia.
Qed.

(** A reply header the builders assemble is well formed. *)
Lemma tcp_header_wf sp dp seq ackn fin syn psh ack opts :
  u16_ok sp → u16_ok dp → u32_ok seq → u32_ok ackn →
  length opts ∈ [0; 4; 8; 12; 16; 20; 24; 28; 32; 36; 40]%nat →
  tcp_wf (tcp_header sp dp seq ackn fin syn psh ack STATELESS_WINDOW 0 opts).
Proof.
  intros. unfold tcp_wf, tcp_header; simpl. unfold STATELESS_WINDOW, u16_ok, u16_max in *.
  split_and!; try lia; done.
Qed.

Lemma tcp_syn_ack_spec request h n t cookie_seq mss :
  from_ip_slice request = Some h → ph_net h = Some n → n ≠ NetArp → ph_transport h = Some (TTcp t) →
  tcp_syn t = true → tcp_ack t = false → u32_ok cookie_seq → u16_ok mss →
  ∃ c o reply, tcp_syn_ack request cookie_seq mss = Some reply ∧
    tcp_options_iterator o = [Some (MaximumSegmentSize mss)] ∧
    reply_packet n (TTcp (tcp_header (tcp_destination_port t) (tcp_source_port t) cookie_seq
      (wrapping_add32 (sequence_number t) 1) false true false true STATELESS_WINDOW c o)) [] reply.
Proof.
  intros Hp Hn Harp Ht Hsyn Hack Hc Hm. destruct (parsed_wf _ _ Hp) as [Hnw Htw].
  specialize (Hnw _ Hn). specialize (Htw _ Ht). unfold tcp_syn_ack.
  rewrite Hp. cbn [mbind option_bind]. rewrite Hn, Ht. cbn [mbind option_bind]. rewrite Hsyn, Hack. cbn [negb orb].
  destruct (mss_option mss Hm) as (o & Ho & Hlo & Hio). rewrite tcp_new_eq. unfold set_options. rewrite Ho.
  cbn [mbind option_bind].
  set (t' := tcp_header (tcp_destination_port t) (tcp_source_port t) cookie_seq
    (wrapping_add32 (sequence_number t) 1) false true false true STATELESS_WINDOW 0 o).
  assert (tcp_wf t') as Hwf.
  { destruct Htw as (? & ? & _). apply tcp_header_wf; [done..|apply wrapping_add32_ok|].
    rewrite Hlo. do 1 right. left. }
  assert (tcp_header_len t' + length (@nil Z) = 24)%nat as Hl by (unfold tcp_header_len; simpl; lia).
  destruct n as [ip4|ip6|]; [| |done]; cbn [ipv4_ref ipv6_ref].
  - destruct (tcp_reply4 ip4 t' [] Hnw Hwf) as (c & reply & Hr & Hpk); [lia|].
    exists c, o, reply. rewrite Nat.add_0_r in Hr. split; [exact Hr|]. by split.
  - destruct (tcp_reply6 ip6 t' [] Hnw Hwf) as (c & reply & Hr & Hpk); [unfold u16_max; lia|].
    exists c, o, reply. rewrite Nat.add_0_r in Hr. split; [exact Hr|]. by split.
Qed.

Lemma tcp_banner_fin_spec request h n t banner :
  from_ip_slice request = Some h → ph_net h = Some n → n ≠ NetArp → ph_transport h = Some (TTcp t) →
  tcp_ack t = true → Z.of_nat (length (ph_payload h)) ≤ u32_max → Z.of_nat (20 + length banner) ≤ 65515 →
  ∃ c reply, tcp_banner_fin request banner = Some reply ∧
    reply_packet n (TTcp (tcp_header (tcp_destination_port t) (tcp_source_port t) (acknowledgment_number t)
      (wrapping_add32 (sequence_number t) (Z.of_nat (length (ph_payload h))))
      true false true true STATELESS_WINDOW c [])) banner reply.
Proof.
  intros Hp Hn Harp Ht Hack Hpl Hb. destruct (parsed_wf _ _ Hp) as [Hnw Htw].
  specialize (Hnw _ Hn). specialize (Htw _ Ht). unfold tcp_banner_fin.
  rewrite Hp. cbn [mbind option_bind]. rewrite Hn, Ht. cbn [mbind option_bind]. rewrite Hack. cbn [negb].
  rewrite (proj2 (Z.leb_le _ _) Hpl). cbn [mbind option_bind]. rewrite tcp_new_eq.
  set (t' := tcp_header (tcp_destination_port t) (tcp_source_port t) (acknowledgment_number t)
    (wrapping_add32 (sequence_number t) (Z.of_nat (length (ph_payload h)))) true false true true STATELESS_WINDOW 0 []).
  change (set_reply_flags _ _ _ _ _ _) with t'.
  assert (tcp_wf t') as Hwf.
  { destruct Htw as (? & ? & ? & ? & _). apply tcp_header_wf; [done..|apply wrapping_add32_ok|left]. }
  assert (tcp_header_len t' = 20%nat) as Hl by done.
  assert (try_u16 (tcp_header_len t' + length banner)
    = Some (Z.of_nat (tcp_header_len t' + length banner))) as Htry.
  { unfold try_u16. rewrite (proj2 (Z.leb_le _ _)); [done|]. unfold u16_max. lia. }
  destruct n as [ip4|ip6|]; [| |done]; cbn [ipv4_ref ipv6_ref]; rewrite Htry; cbn [mbind option_bind].
  - destruct (tcp_reply4 ip4 t' banner Hnw Hwf) as (c & reply & Hr & Hpk); [lia|].
    exists c, reply. by split.
  - destruct (tcp_reply6 ip6 t' banner Hnw Hwf) as (c & reply & Hr & Hpk); [unfold u16_max; lia|].
    exists c, reply. by split.
Qed.

(** A reply of the UDP reflector: to a UDP request with a payload, from the
    port asked to the port that asked, with as much of [payload] as the request
    was long. *)
Definition udp_answer (request payload reply : list Z) : Prop :=
  ∃ h n u c, from_ip_slice request = Some h ∧ ph_net h = Some n ∧ ph_transport h = Some (TUdp u) ∧
    ph_payload h ≠ [] ∧
    let p := take (length (ph_payload h)) payload in
    reply_packet n (TUdp {| udp_source_port := udp_destination_port u;
      udp_destination_port := udp_source_port u; udp_length := 8 + Z.of_nat (length p);
      udp_checksum := c |}) p reply.

Lemma reply_packet_length n t p reply :
  reply_packet n t p reply → length reply = (net_min_len n +
    match t with TTcp h => 20 + length (tcp_options h) | _ => 8 end + length p)%nat.
Proof.
  intros (r & hb & tb & -> & Ha & [Hl _] & Htb & _). rewrite !length_app, Hl, Htb.
  destruct n, r; simpl in *; try done; lia.
Qed.

Lemma take_min_len (l : list Z) k : take (Nat.min (length l) k) l = take k l.
Proof.
  destruct (Nat.le_gt_cases k (length l)); [by rewrite Nat.min_r|].
  rewrite Nat.min_l by lia. by rewrite !take_ge by lia.
Qed.

Lemma udp_response_answers request payload reply :
  udp_response request payload = Some reply → udp_answer request payload reply.
Proof.
  unfold udp_response, udp_answer. destruct (from_ip_slice request) as [h|] eqn:Hp; [|done]. cbn [mbind option_bind].
  destruct (parsed_wf _ _ Hp) as [Hnw Htw].
  destruct (ph_net h) as [n|] eqn:Hn; [|done]. cbn [mbind option_bind]. specialize (Hnw _ eq_refl).
  destruct (ph_transport h) as [[u| | |]|] eqn:Ht; [|done..]. cbn [mbind option_bind].
  specialize (Htw _ eq_refl). destruct Htw as (Hsp & Hdp & _ & _).
  destruct (Nat.eqb_spec (length (ph_payload h)) 0) as [|H0]; [done|].
  assert (ph_payload h ≠ []) as Hne by (intros He; by rewrite He in H0).
  rewrite take_min_len. set (p := take _ payload). unfold try_u16.
  destruct (Z.leb_spec (Z.of_nat (8 + length p)) u16_max) as [Hl|]; [|by destruct n].
  assert (∀ c, u16_ok c → transport_wf (TUdp {| udp_source_port := udp_destination_port u;
      udp_destination_port := udp_source_port u; udp_length := 8 + Z.of_nat (length p); udp_checksum := c |})) as Hwf.
  { intros c Hc. unfold transport_wf, udp_wf, u16_ok in *. simpl. lia. }
  destruct n as [ip4|ip6|]; [| |done]; cbn [ipv4_ref ipv6_ref mbind option_bind].
  - destruct (Z.leb_spec (Z.of_nat (8 + length p)) 65515) as [Hl'|Hl'];
      [|by rewrite ipv4_new_err by done].
    destruct (ipv4_reply ip4 (Z.of_nat (8 + length p)) Hnw) as (r & hb & -> & Hw & Hr); [lia|].
    cbn [mbind option_bind].
    destruct (udp_checksum4_ok (udp_destination_port u) (udp_source_port u) r p Hl) as (c & Hc & ->).
    cbn [mbind option_bind]. rewrite Hw. cbn [mbind option_bind].
    destruct (transport_write_ok _ (Hwf c Hc) I) as (tb & Htb & Hlb). cbn [transport_write] in Htb. rewrite Htb.
    cbn [mbind option_bind]. intros [= <-]. exists h, (NetIpv4 ip4), u, c. do 4 (split; [done|]).
    apply Hr; [by apply Hwf|done|done|lia].
  - destruct (ipv6_reply ip6 (Z.of_nat (8 + length p)) Hnw) as (hb & Hw & Hr); [lia|].
    destruct (udp_checksum6_ok (udp_destination_port u) (udp_source_port u)
      (swapped_ipv6_reply ip6 (Z.of_nat (8 + length p))) p Hl) as (c & Hc & ->).
    cbn [mbind option_bind]. rewrite Hw. cbn [mbind option_bind].
    destruct (transport_write_ok _ (Hwf c Hc) I) as (tb & Htb & Hlb). cbn [transport_write] in Htb. rewrite Htb.
    cbn [mbind option_bind]. intros [= <-]. exists h, (NetIpv6 ip6), u, c. do 4 (split; [done|]).
    apply Hr; [by apply Hwf|done|done|lia].
Qed.

Lemma udp_answer_length request payload reply :
  udp_answer request payload reply → (length reply ≤ length request)%nat.
Proof.
  intros (h & n & u & c & Hp & Hn & Ht & _ & Hr). apply reply_packet_length in Hr.
  pose proof (parsed_length _ _ _ _ Hp Hn Ht) as Hl. simpl in Hl, Hr. rewrite length_take in Hr. lia.
Qed.

(** The UDP reflector cannot be used to amplify. Whatever request and
    banner, on the IP path and on the Ethernet path, every reply is at most as
    long as the request that caused it, goes back to the address, port and (on
    Ethernet) MAC that sent it from those it was sent to, and its payload is
    the banner cut to the length of the request's payload; a request without
    payload is not answered. *)
Theorem udp_no_amplification request payload :
  (∀ reply, udp_response request payload = Some reply →
     (length reply ≤ length request)%nat ∧ udp_answer request payload reply) ∧
  (∀ reply, udp_l2_response request payload = Some reply →
     (length reply ≤ length request)%nat ∧
     take 6 reply = take 6 (drop 6 request) ∧ take 6 (drop 6 reply) = take 6 request ∧
     take 2 (drop 12 reply) = ETHERTYPE_IPV4 ∧
     udp_answer (drop 14 request) payload (drop 14 reply)).
Proof.
  split; intros reply.
  - intros Hr%udp_response_answers. split; [by eapply udp_answer_length|done].
  - unfold udp_l2_response, ETH_HEADER_LEN. destruct (Nat.ltb_spec (length request) 14); [done|].
    destruct (bool_decide _); [|done]. cbn [negb].
    destruct (udp_response (drop 14 request) payload) as [ip|] eqn:Hr; [|done]. cbn [mbind option_bind].
    intros [= <-]. apply udp_response_answers in Hr. pose proof (udp_answer_length _ _ _ Hr) as Hl.
    rewrite length_drop in Hl.
    assert (length (take 6 (drop 6 request)) = 6%nat) as H1 by (rewrite length_take, length_drop; lia).
    assert (length (take 6 request) = 6%nat) as H2 by (rewrite length_take; lia).
    split; [rewrite !length_app, H1, H2; simpl; lia|].
    split; [by rewrite take_app_length' by done|].
    split; [by rewrite drop_app_length', take_app_length' by done|].
    assert (drop 12 (take 6 (drop 6 request) ++ take 6 request ++ 8 :: 0 :: ip) = 8 :: 0 :: ip) as H3.
    { rewrite app_assoc, drop_app_length'; [done|]. rewrite length_app. lia. }
    split; [by rewrite H3|].
    match goal with |- udp_answer _ _ (drop 14 ?l) =>
      replace (drop 14 l) with (drop 2 (drop 12 l)) by (by rewrite drop_drop) end.
    by rewrite H3.
Qed.

(** ** Echo replies *)

(** The packet is an echo request of its IP version. *)
Definition echo_request (h : PacketHeaders) (n : NetHeaders) (e : IcmpEchoHeader) : Prop :=
  ph_net h = Some n ∧
  match n with
  | NetIpv4 _ => ∃ i, ph_transport h = Some (TIcmpv4 i) ∧ icmp4_type i = EchoRequest4 e
  | NetIpv6 _ => ∃ i, ph_transport h = Some (TIcmpv6 i) ∧ icmp6_type i = EchoRequest6 e
  | NetArp => False
  end.

Definition echo_reply_header (n : NetHeaders) (e : IcmpEchoHeader) (c : Z) : TransportHeader :=
  match n with
  | NetIpv6 _ => TIcmpv6 {| icmp6_type := EchoReply6 e; icmp6_checksum := c |}
  | _ => TIcmpv4 {| icmp4_type := EchoReply4 e; icmp4_checksum := c |}
  end.

Lemma icmp_echo_reply_spec request h ip4 e :
  from_ip_slice request = Some h → echo_request h (NetIpv4 ip4) e →
  Z.of_nat (8 + length (ph_payload h)) ≤ 65515 →
  ∃ c reply, icmp_echo_reply request = Some reply ∧
    reply_packet (NetIpv4 ip4) (echo_reply_header (NetIpv4 ip4) e c) (ph_payload h) reply.
Proof.
  intros Hp (Hn & i & Ht & He) Hl. destruct (parsed_wf _ _ Hp) as [Hnw Htw].
  specialize (Hnw _ Hn). specialize (Htw _ Ht). unfold icmp_echo_reply.
  rewrite Hp. cbn [mbind option_bind]. rewrite Hn. cbn [mbind option_bind ipv4_ref]. rewrite Ht.
  cbn [mbind option_bind]. rewrite He. cbn [mbind option_bind]. unfold try_u16, icmp_header_len.
  rewrite (proj2 (Z.leb_le _ _)) by (unfold u16_max; lia). cbn [mbind option_bind].
  set (p := ph_payload h) in *.
  destruct (ipv4_reply ip4 (Z.of_nat (8 + length p)) Hnw) as (r & hb & -> & Hw & Hr); [lia|].
  cbn [mbind option_bind]. rewrite Hw. cbn [mbind option_bind].
  destruct (icmp4_checksum_ok (EchoReply4 e) p) as [Hty Hc].
  set (ih := icmpv4_with_checksum (EchoReply4 e) p) in *.
  assert (transport_wf (TIcmpv4 ih)) as Hwf.
  { simpl in Htw |- *. rewrite He in Htw. rewrite Hty. by destruct Htw. }
  destruct (transport_write_ok (TIcmpv4 ih) Hwf) as (tb & Htb & Hlb); [by rewrite Hty|].
  cbn [transport_write] in Htb. rewrite Htb. cbn [mbind option_bind].
  exists (icmp4_checksum ih), (hb ++ tb ++ p). split; [done|].
  assert (echo_reply_header (NetIpv4 ip4) e (icmp4_checksum ih) = TIcmpv4 ih) as ->
    by (simpl; rewrite <- Hty; by destruct ih).
  apply Hr; [done|simpl; by rewrite Hty|done|lia].
Qed.

Lemma icmpv6_echo_reply_spec request h ip6 e :
  from_ip_slice request = Some h → echo_request h (NetIpv6 ip6) e →
  Z.of_nat (8 + length (ph_payload h)) ≤ 65515 →
  ∃ c reply, icmpv6_echo_reply request = Some reply ∧
    reply_packet (NetIpv6 ip6) (echo_reply_header (NetIpv6 ip6) e c) (ph_payload h) reply.
Proof.
  intros Hp (Hn & i & Ht & He) Hl. destruct (parsed_wf _ _ Hp) as [Hnw Htw].
  specialize (Hnw _ Hn). specialize (Htw _ Ht). unfold icmpv6_echo_reply.
  rewrite Hp. cbn [mbind option_bind]. rewrite Hn. cbn [mbind option_bind ipv6_ref]. rewrite Ht.
  cbn [mbind option_bind]. rewrite He. cbn [mbind option_bind]. set (p := ph_payload h) in *.
  destruct (icmp6_checksum_ok (EchoReply6 e) (ip6_destination ip6) (ip6_source ip6) p) as (c & Hc & ->);
    [unfold u32_max; lia|].
  cbn [mbind option_bind]. unfold try_u16, icmp_header_len.
  rewrite (proj2 (Z.leb_le _ _)) by (unfold u16_max; lia). cbn [mbind option_bind].
  destruct (ipv6_reply ip6 (Z.of_nat (8 + length p)) Hnw) as (hb & Hw & Hr); [unfold u16_max; lia|].
  rewrite Hw. cbn [mbind option_bind].
  assert (transport_wf (echo_reply_header (NetIpv6 ip6) e c)) as Hwf.
  { simpl in Htw |- *. rewrite He in Htw. by destruct Htw. }
  destruct (transport_write_ok _ Hwf) as (tb & Htb & Hlb); [done|].
  cbn [transport_write echo_reply_header] in Htb. rewrite Htb. cbn [mbind option_bind].
  exists c, (hb ++ tb ++ p). split; [done|]. apply Hr; [done|done|done|simpl in Hlb; lia].
Qed.

(** ** Every reply answers its request *)

(** [reply] is a reply packet to the packet [request]. *)
Definition replies (request reply : list Z) : Prop :=
  ∃ h n t p, from_ip_slice request = Some h ∧ ph_net h = Some n ∧ reply_packet n t p reply.

Lemma tcp_syn_ack_replies request cookie_seq mss reply :
  u32_ok cookie_seq → u16_ok mss →
  tcp_syn_ack request cookie_seq mss = Some reply → replies request reply.
Proof.
  intros Hc Hm Hr. pose proof (tcp_syn_ack_spec request) as Hs. unfold tcp_syn_ack in Hr.
  destruct (from_ip_slice request) as [h|] eqn:Hp; [|done]. cbn [mbind option_bind] in Hr.
  destruct (ph_net h) as [n|] eqn:Hn; [|done]. destruct (ph_transport h) as [[|t| |]|] eqn:Ht; [done| |done..].
  cbn [mbind option_bind] in Hr. destruct (tcp_syn t) eqn:Hsyn; [|done]. destruct (tcp_ack t) eqn:Hack; [done|].
  destruct n as [ip4|ip6|].
  3: { cbn [negb orb] in Hr. destruct (set_options _ _); done. }
  all: destruct (Hs h _ t cookie_seq mss eq_refl Hn ltac:(done) Ht Hsyn Hack Hc Hm) as (c & o & r & Hr' & _ & Hk);
    unfold tcp_syn_ack in Hr'; rewrite Hp in Hr'; cbn [mbind option_bind] in Hr'; rewrite Hn, Ht in Hr';
    cbn [mbind option_bind] in Hr'; rewrite Hsyn, Hack in Hr'.
  all: assert (r = reply) as -> by congruence; do 4 eexists; split_and!; [done|done|exact Hk].
Qed.

Lemma tcp_banner_fin_replies request banner reply :
  tcp_banner_fin request banner = Some reply → replies request reply.
Proof.
  unfold tcp_banner_fin. destruct (from_ip_slice request) as [h|] eqn:Hp; [|done]. cbn [mbind option_bind].
  destruct (parsed_wf _ _ Hp) as [Hnw Htw].
  destruct (ph_net h) as [n|] eqn:Hn; [|done]. specialize (Hnw _ eq_refl).
  destruct (ph_transport h) as [[|t| |]|] eqn:Ht; [done| |done..]. specialize (Htw _ eq_refl).
  cbn [mbind option_bind]. destruct (negb _); [done|]. destruct (_ <=? u32_max); [|done].
  cbn [mbind option_bind]. rewrite tcp_new_eq.
  set (t' := set_reply_flags _ _ _ _ _ _).
  assert (tcp_wf t') as Hwf.
  { destruct Htw as (? & ? & ? & ? & _). apply (tcp_header_wf _ _ _ _ true false true true []);
      [done..|apply wrapping_add32_ok|left]. }
  unfold try_u16. destruct (Z.leb_spec (Z.of_nat (tcp_header_len t' + length banner)) u16_max) as [Hl|];
    [|by destruct n]. cbn [mbind option_bind].
  destruct n as [ip4|ip6|]; [| |done]; cbn [ipv4_ref ipv6_ref].
  - destruct (Z.leb_spec (Z.of_nat (tcp_header_len t' + length banner)) 65515) as [Hl'|Hl'].
    2: { by rewrite ipv4_new_err. }
    destruct (tcp_reply4 ip4 t' banner Hnw Hwf Hl') as (c & r & -> & Hk). intros [= <-]. do 4 eexists. split_and!; [done|done|exact Hk].
  - destruct (tcp_reply6 ip6 t' banner Hnw Hwf Hl) as (c & r & -> & Hk). intros [= <-]. do 4 eexists. split_and!; [done|done|exact Hk].
Qed.

Lemma udp_response_replies request payload reply :
  udp_response request payload = Some reply → replies request reply.
Proof.
  intros (h & n & u & c & Hp & Hn & Ht & _ & Hk)%udp_response_answers. cbv zeta in Hk. do 4 eexists. split_and!; [done|done|exact Hk].
Qed.

Lemma icmp_echo_reply_replies request reply :
  icmp_echo_reply request = Some reply → replies request reply.
Proof.
  intros Hr. pose proof Hr as Hr0. unfold icmp_echo_reply in Hr.
  destruct (from_ip_slice request) as [h|] eqn:Hp; [|done]. cbn [mbind option_bind] in Hr.
  destruct (ph_net h) as [[ip4| |]|] eqn:Hn; [|done..]. cbn [mbind option_bind ipv4_ref] in Hr.
  destruct (ph_transport h) as [[| |i|]|] eqn:Ht; [done|done| |done..]. cbn [mbind option_bind] in Hr.
  destruct (icmp4_type i) as [e| |] eqn:He; [|done..].
  destruct (Z.leb_spec (Z.of_nat (8 + length (ph_payload h))) 65515) as [Hl|Hl].
  - destruct (icmp_echo_reply_spec request h ip4 e Hp) as (c & r & Hr' & Hk); [split; eauto|done|].
    assert (r = reply) as -> by congruence. do 4 eexists. split_and!; [done|done|exact Hk].
  - cbn [mbind option_bind] in Hr. unfold try_u16, icmp_header_len in Hr. destruct (_ <=? u16_max); [|done].
    cbn [mbind option_bind] in Hr. by rewrite ipv4_new_err in Hr.
Qed.

Lemma icmpv6_echo_reply_replies request reply :
  icmpv6_echo_reply request = Some reply → replies request reply.
Proof.
  unfold icmpv6_echo_reply.
  destruct (from_ip_slice request) as [h|] eqn:Hp; [|done]. cbn [mbind option_bind].
  destruct (parsed_wf _ _ Hp) as [Hnw Htw].
  destruct (ph_net h) as [[|ip6|]|] eqn:Hn; [done| |done..]. specialize (Hnw _ eq_refl). cbn [mbind option_bind ipv6_ref].
  destruct (ph_transport h) as [[| | |i]|] eqn:Ht; [done..| |done]. specialize (Htw _ eq_refl). cbn [mbind option_bind].
  destruct (icmp6_type i) as [e| |] eqn:He; [|done..]. cbn [mbind option_bind]. set (p := ph_payload h) in *.
  destruct (icmpv6_with_checksum _ _ _ _) as [ih|] eqn:Hih; [|done]. cbn [mbind option_bind].
  unfold try_u16, icmp_header_len. destruct (Z.leb_spec (Z.of_nat (8 + length p)) u16_max) as [Hl|]; [|done].
  cbn [mbind option_bind].
  destruct (icmp6_checksum_ok (EchoReply6 e) (ip6_destination ip6) (ip6_source ip6) p) as (c & Hc & Hih');
    [unfold u16_max, u32_max in *; lia|]. assert (ih = {| icmp6_type := EchoReply6 e; icmp6_checksum := c |}) as -> by congruence.
  destruct (ipv6_reply ip6 (Z.of_nat (8 + length p)) Hnw) as (hb & -> & Hr); [lia|]. cbn [mbind option_bind].
  assert (transport_wf (echo_reply_header (NetIpv6 ip6) e c)) as Hwf.
  { simpl in Htw |- *. rewrite He in Htw. by destruct Htw. }
  destruct (transport_write_ok _ Hwf) as (tb & Htb & Hlb); [done|].
  cbn [transport_write echo_reply_header] in Htb. rewrite Htb. cbn [mbind option_bind]. intros [= <-].
  exists h, (NetIpv6 ip6), (echo_reply_header (NetIpv6 ip6) e c), p. split_and!; [done..|].
  apply Hr; [done|done|done|simpl in Hlb; lia].
Qed.
End packet.
