(* ===== verification/RefHeaders.v ===== *)
(** * A reference implementation of the packet headers

    The standard wire formats of IPv4 (without options), IPv6 (with at most a
    destination-options header in front of TCP), TCP, UDP and the ICMP echo messages, with a parser and
    a writer for each. It implements [EtherHeaders], which shows that the laws
    assumed of the [etherparse] crate can hold together and lets the reply
    builders be evaluated on concrete packets. Checksums are left zero. *)
From stdpp Require Import prelude gmap sorting.
From S2P Require Import Prelude Net Bytes Packet.

Open Scope Z_scope.

Module RefHeaders.

(** ** Fields *)

Definition u8 (b : Z) : Z := b mod 256.
Definition u16 (a b : Z) : Z := be_value [u8 a; u8 b].
Definition u32 (a b c d : Z) : Z := be_value [u8 a; u8 b; u8 c; u8 d].
Definition u128 (l : list Z) : Z := be_value (u8 <$> take 16 l).

Lemma u8_ok b : byte_ok (u8 b).
Proof. apply Z.mod_pos_bound. lia. Qed.

Lemma u16_bound a b : u16_ok (u16 a b).
Proof.
  unfold u16, u16_ok, u16_max.
  pose proof (be_value_bound [u8 a; u8 b] ltac:(repeat apply Forall_cons_2; auto using u8_ok, Forall_nil_2)) as H.
  change (256 ^ Z.of_nat (length _)) with 65536 in H. lia.
Qed.

Lemma u32_bound a b c d : u32_ok (u32 a b c d).
Proof.
  unfold u32, u32_ok, u32_max.
  pose proof (be_value_bound [u8 a; u8 b; u8 c; u8 d]
    ltac:(repeat apply Forall_cons_2; auto using u8_ok, Forall_nil_2)) as H.
  change (256 ^ Z.of_nat (length _)) with 4294967296 in H. lia.
Qed.

Lemma u128_bound l : ip_wf (V6 (u128 l)).
Proof.
  unfold u128, ip_wf. simpl ip_bits. simpl ip_val.
  assert (bytes_ok (u8 <$> take 16 l)) as Hb
    by (apply Forall_fmap; apply Forall_forall; intros; apply u8_ok).
  pose proof (be_value_bound _ Hb) as [H1 H2]. split; [done|]. eapply Z.lt_le_trans; [done|].
  transitivity (256 ^ 16); [|done]. apply Z.pow_le_mono_r; [lia|].
  rewrite length_fmap, length_take. lia.
Qed.

Lemma u8_id b : 0 ≤ b ≤ u8_max → u8 b = b.
Proof. intros. apply Z.mod_small. unfold u8_max in *. lia. Qed.

(** The bytes a field was written as give the field back. *)
Lemma u16_bytes z : u16_ok z → u16 ((z / 256) mod 256) (z mod 256) = z.
Proof.
  intros Hz. unfold u16, u8. rewrite !Z.mod_mod by lia. rewrite <- be_bytes_2.
  apply be_value_be_bytes_small. change (256 ^ Z.of_nat 2) with 65536. unfold u16_ok, u16_max in Hz. lia.
Qed.

Lemma u32_bytes z :
  u32_ok z →
  u32 ((z / 16777216) mod 256) ((z / 65536) mod 256) ((z / 256) mod 256) (z mod 256) = z.
Proof.
  intros Hz. unfold u32, u8. rewrite !Z.mod_mod by lia. rewrite <- be_bytes_4.
  apply be_value_be_bytes_small. change (256 ^ Z.of_nat 4) with 4294967296. unfold u32_ok, u32_max in Hz. lia.
Qed.

Lemma u128_bytes z l : ip_wf (V6 z) → u128 (be_bytes 16 z ++ l) = z.
Proof.
  intros Hz. unfold u128. rewrite take_app_length' by (by rewrite length_be_bytes).
  assert (u8 <$> be_bytes 16 z = be_bytes 16 z) as ->.
  { pose proof (be_bytes_ok 16 z) as Hb. induction Hb as [|b t Hb _ IH]; [done|]. rewrite fmap_cons, IH.
    f_equal. apply u8_id. unfold byte_ok, u8_max in *. lia. }
  apply be_value_be_bytes_small. exact Hz.
Qed.

(** ** Transports *)

Definition flag (bit : Z) (b : bool) : Z := if b then 2 ^ bit else 0.

Definition tcp_ser (h : TcpHeader) : list Z :=
  be_bytes 2 (tcp_source_port h) ++ be_bytes 2 (tcp_destination_port h) ++
  be_bytes 4 (sequence_number h) ++ be_bytes 4 (acknowledgment_number h) ++
  [(5 + Z.of_nat (length (tcp_options h)) / 4) * 16 + flag 0 (tcp_ns h);
   flag 0 (tcp_fin h) + flag 1 (tcp_syn h) + flag 2 (tcp_rst h) + flag 3 (tcp_psh h) +
   flag 4 (tcp_ack h) + flag 5 (tcp_urg h) + flag 6 (tcp_ece h) + flag 7 (tcp_cwr h)] ++
  be_bytes 2 (window_size h) ++ be_bytes 2 (tcp_checksum h) ++ be_bytes 2 (urgent_pointer h) ++
  tcp_options h.

Definition tcp_parse (l : list Z) : option (TransportHeader * list Z) :=
  match l with
  | p0 :: p1 :: q0 :: q1 :: s0 :: s1 :: s2 :: s3 :: a0 :: a1 :: a2 :: a3 :: off :: fl ::
      w0 :: w1 :: c0 :: c1 :: g0 :: g1 :: rest =>
      let words := u8 off / 16 in
      let n := Z.to_nat (4 * (words - 5)) in
      if (5 <=? words) && (n <=? length rest)%nat then
        Some (TTcp {|
          tcp_source_port := u16 p0 p1; tcp_destination_port := u16 q0 q1;
          sequence_number := u32 s0 s1 s2 s3; acknowledgment_number := u32 a0 a1 a2 a3;
          tcp_ns := Z.testbit off 0; tcp_fin := Z.testbit fl 0; tcp_syn := Z.testbit fl 1;
          tcp_rst := Z.testbit fl 2; tcp_psh := Z.testbit fl 3; tcp_ack := Z.testbit fl 4;
          tcp_urg := Z.testbit fl 5; tcp_ece := Z.testbit fl 6; tcp_cwr := Z.testbit fl 7;
          window_size := u16 w0 w1; tcp_checksum := u16 c0 c1; urgent_pointer := u16 g0 g1;
          tcp_options := take n rest |}, drop n rest)
      else None
  | _ => None
  end.

Definition udp_ser (h : UdpHeader) : list Z :=
  be_bytes 2 (udp_source_port h) ++ be_bytes 2 (udp_destination_port h) ++
  be_bytes 2 (udp_length h) ++ be_bytes 2 (udp_checksum h).

Definition udp_parse (l : list Z) : option (TransportHeader * list Z) :=
  match l with
  | p0 :: p1 :: q0 :: q1 :: l0 :: l1 :: c0 :: c1 :: rest =>
      Some (TUdp {| udp_source_port := u16 p0 p1; udp_destination_port := u16 q0 q1;
                    udp_length := u16 l0 l1; udp_checksum := u16 c0 c1 |}, rest)
  | _ => None
  end.

Definition echo_ser (ty c : Z) (e : IcmpEchoHeader) : list Z :=
  [ty; 0] ++ be_bytes 2 c ++ be_bytes 2 (echo_id e) ++ be_bytes 2 (echo_seq e).

Definition echo_parse (v4 : bool) (l : list Z) : option (TransportHeader * list Z) :=
  match l with
  | ty :: _ :: c0 :: c1 :: i0 :: i1 :: s0 :: s1 :: rest =>
      let e := {| echo_id := u16 i0 i1; echo_seq := u16 s0 s1 |} in
      Some (if v4
            then TIcmpv4 {| icmp4_type := if ty =? 8 then EchoRequest4 e
                                          else if ty =? 0 then EchoReply4 e else Unknown4;
                            icmp4_checksum := u16 c0 c1 |}
            else TIcmpv6 {| icmp6_type := if ty =? 128 then EchoRequest6 e
                                          else if ty =? 129 then EchoReply6 e else Unknown6;
                            icmp6_checksum := u16 c0 c1 |}, rest)
  | _ => None
  end.

Definition icmp4_ser (h : Icmpv4Header) : option (list Z) :=
  match icmp4_type h with
  | EchoRequest4 e => Some (echo_ser 8 (icmp4_checksum h) e)
  | EchoReply4 e => Some (echo_ser 0 (icmp4_checksum h) e)
  | Unknown4 => None
  end.
Definition icmp6_ser (h : Icmpv6Header) : option (list Z) :=
  match icmp6_type h with
  | EchoRequest6 e => Some (echo_ser 128 (icmp6_checksum h) e)
  | EchoReply6 e => Some (echo_ser 129 (icmp6_checksum h) e)
  | Unknown6 => None
  end.

Definition transport_ser (t : TransportHeader) : option (list Z) :=
  match t with
  | TTcp x => Some (tcp_ser x) | TUdp x => Some (udp_ser x)
  | TIcmpv4 x => icmp4_ser x | TIcmpv6 x => icmp6_ser x
  end.

Definition transport_parse (v4 : bool) (proto : Z) (l : list Z) : option (TransportHeader * list Z) :=
  if proto =? 6 then tcp_parse l
  else if proto =? 17 then udp_parse l
  else if v4 && (proto =? 1) then echo_parse true l
  else if negb v4 && (proto =? 58) then echo_parse false l
  else if negb v4 && (proto =? 60) then
    match l with
    | 6 :: 0 :: _ :: _ :: _ :: _ :: _ :: _ :: rest => tcp_parse rest
    | _ => None
    end
  else None.

Lemma tcp_roundtrip h p : tcp_wf h → tcp_parse (tcp_ser h ++ p) = Some (TTcp h, p).
Proof.
  intros (Hsp & Hdp & Hs & Ha & Hw & Hc & Hu & Ho). unfold tcp_ser. rewrite !be_bytes_2, !be_bytes_4.
  cbn [app]. unfold tcp_parse.
  set (off := (5 + _) * 16 + _). set (fl := flag 0 (tcp_fin h) + _ + _ + _ + _ + _ + _ + _).
  assert (u8 off / 16 = 5 + Z.of_nat (length (tcp_options h)) / 4 ∧
    Z.to_nat (4 * (u8 off / 16 - 5)) = length (tcp_options h) ∧ Z.testbit off 0 = tcp_ns h) as (Hw1 & Hn & Hns).
  { unfold off. repeat (apply elem_of_cons in Ho as [->|Ho]; [by destruct (tcp_ns h); vm_compute|]).
    by apply elem_of_nil in Ho. }
  rewrite Hn, (proj2 (Z.leb_le 5 _)) by (rewrite Hw1; apply Z.le_sub_le_add_l; simpl; apply Z.div_pos; lia).
  rewrite (proj2 (Nat.leb_le _ _)) by (rewrite length_app; lia). cbn [andb].
  rewrite take_app_length, drop_app_length, Hns, !u16_bytes, !u32_bytes by done.
  do 3 f_equal. destruct h as [? ? ? ? ns fin syn rst psh ack urg ece cwr ? ? ? ?]. simpl in *. unfold fl.
  by destruct fin, syn, rst, psh, ack, urg, ece, cwr.
Qed.

Lemma udp_roundtrip h p : udp_wf h → udp_parse (udp_ser h ++ p) = Some (TUdp h, p).
Proof.
  intros (? & ? & ? & ?). unfold udp_ser. rewrite !be_bytes_2. cbn [app udp_parse].
  rewrite !u16_bytes by done. by destruct h.
Qed.

(** A transport survives the wire. *)
Lemma transport_roundtrip v4 t tb p :
  transport_wf t → match t with TIcmpv4 _ => v4 = true | TIcmpv6 _ => v4 = false | _ => True end →
  transport_ser t = Some tb → transport_parse v4 (proto_number t) (tb ++ p) = Some (t, p).
Proof.
  intros Hwf Hv Ht. destruct t as [h|h|h|h]; cbn [proto_number transport_ser] in *; unfold transport_parse.
  - injection Ht as <-. by apply udp_roundtrip.
  - injection Ht as <-. by apply tcp_roundtrip.
  - subst v4. destruct h as [[e|e|] c]; unfold icmp4_ser in Ht; simpl in Ht; simplify_eq;
      destruct Hwf as [? [? ?]]; unfold echo_ser; rewrite !be_bytes_2; simpl; rewrite !u16_bytes by done;
      by destruct e.
  - subst v4. destruct h as [[e|e|] c]; unfold icmp6_ser in Ht; simpl in Ht; simplify_eq;
      destruct Hwf as [? [? ?]]; unfold echo_ser; rewrite !be_bytes_2; simpl; rewrite !u16_bytes by done;
      by destruct e.
Qed.

(** What is parsed is well formed and was present. *)
Lemma tcp_parse_ok l t p :
  tcp_parse l = Some (t, p) → transport_wf t ∧ (transport_min_len t + length p ≤ length l)%nat.
Proof.
  unfold tcp_parse. intros Hp. do 20 (destruct l as [|? l]; [done|]). cbv zeta in Hp.
  match type of Hp with context [u8 ?o / 16] => set (w := u8 o / 16) in *;
    assert (w ≤ 15) as Hw by (unfold w, u8; pose proof (Z.mod_pos_bound o 256); apply Z.lt_succ_r;
      apply Z.div_lt_upper_bound; lia) end.
  destruct (5 <=? w) eqn:H5; [|done]. destruct (_ <=? length l)%nat eqn:Hn; [|done].
  apply Z.leb_le in H5. apply Nat.leb_le in Hn. cbn [andb] in Hp. injection Hp as <- <-.
  split; [|simpl; rewrite length_drop; lia].
  unfold transport_wf, tcp_wf. cbn. split_and!; try apply u16_bound; try apply u32_bound.
  rewrite length_take, Nat.min_l by done.
  assert (w = 5 ∨ w = 6 ∨ w = 7 ∨ w = 8 ∨ w = 9 ∨ w = 10 ∨ w = 11 ∨ w = 12 ∨ w = 13 ∨ w = 14 ∨ w = 15)
    as Hc by lia.
  clearbody w. destruct_or! Hc; subst w; vm_compute; repeat constructor.
Qed.

Lemma transport_parse_ok v4 proto l t p :
  transport_parse v4 proto l = Some (t, p) →
  transport_wf t ∧ (transport_min_len t + length p ≤ length l)%nat.
Proof.
  unfold transport_parse. destruct (proto =? 6); [apply tcp_parse_ok|].
  assert (∀ a0 a1 a2 a3 a4 a5 a6 a7 rest, tcp_parse rest = Some (t, p) → transport_wf t ∧
    (transport_min_len t + length p ≤ length (a0 :: a1 :: a2 :: a3 :: a4 :: a5 :: a6 :: a7 :: rest : list Z))%nat) as Hopt.
  { intros a0 a1 a2 a3 a4 a5 a6 a7 rest Hp. apply tcp_parse_ok in Hp as [? ?]. split; [done|simpl; lia]. }
  unfold udp_parse, echo_parse. intros Hp.
  destruct (proto =? 17); [|destruct (v4 && _); [|destruct (negb v4 && (proto =? 58)); [|destruct (negb v4 && _)]]].
  4: { repeat case_match; simplify_eq. by apply Hopt. }
  all: repeat case_match; simplify_eq; simpl; split; try lia; unfold udp_wf, echo_wf;
    split_and!; first [apply u16_bound | apply u32_bound | done].
Qed.

(** ** IP headers *)

Definition ip4_ser (h : Ipv4Header) : list Z :=
  [69; ip4_dscp h * 4 + ip4_ecn h] ++ be_bytes 2 (ip4_total_len h) ++
  be_bytes 2 (ip4_identification h) ++
  [flag 6 (ip4_dont_fragment h) + flag 5 (ip4_more_fragments h); ip4_fragment_offset h;
   ip4_time_to_live h; ip4_protocol h] ++
  be_bytes 2 (ip4_header_checksum h) ++ be_bytes 4 (ip4_source h) ++ be_bytes 4 (ip4_destination h).

Definition ip6_ser (h : Ipv6Header) : list Z :=
  [96 + ip6_traffic_class h / 16; ip6_traffic_class h mod 16 * 16 + ip6_flow_label h / 65536;
   (ip6_flow_label h / 256) mod 256; ip6_flow_label h mod 256] ++
  be_bytes 2 (ip6_payload_length h) ++ [ip6_next_header h; ip6_hop_limit h] ++
  be_bytes 16 (ip6_source h) ++ be_bytes 16 (ip6_destination h).

Definition headers_of (n : NetHeaders) (t : option (TransportHeader * list Z)) (rest : list Z)
    : PacketHeaders :=
  match t with
  | Some (t, p) => {| ph_net := Some n; ph_transport := Some t; ph_payload := p |}
  | None => {| ph_net := Some n; ph_transport := None; ph_payload := rest |}
  end.

(** IPv4 packets that are not fragments. *)
Definition parse4 (l : list Z) : option PacketHeaders :=
  match l with
  | b0 :: tos :: t0 :: t1 :: i0 :: i1 :: fr :: off :: ttl :: proto :: c0 :: c1 ::
      s0 :: s1 :: s2 :: s3 :: d0 :: d1 :: d2 :: d3 :: rest =>
      if (b0 =? 69) && negb (Z.testbit fr 5) && (off =? 0) then
        let h := {|
          ip4_dscp := u8 tos / 4; ip4_ecn := u8 tos mod 4; ip4_total_len := u16 t0 t1;
          ip4_identification := u16 i0 i1; ip4_dont_fragment := Z.testbit fr 6;
          ip4_more_fragments := false; ip4_fragment_offset := 0; ip4_time_to_live := u8 ttl;
          ip4_protocol := u8 proto; ip4_header_checksum := u16 c0 c1; ip4_source := u32 s0 s1 s2 s3;
          ip4_destination := u32 d0 d1 d2 d3; ip4_options := [] |} in
        Some (headers_of (NetIpv4 h) (transport_parse true (u8 proto) rest) rest)
      else None
  | _ => None
  end.

Definition parse6 (l : list Z) : option PacketHeaders :=
  match l with
  | v0 :: v1 :: v2 :: v3 :: l0 :: l1 :: nh :: hop :: rest =>
      if (u8 v0 / 16 =? 6) && (32 <=? length rest)%nat then
        let h := {|
          ip6_traffic_class := u8 v0 mod 16 * 16 + u8 v1 / 16;
          ip6_flow_label := u8 v1 mod 16 * 65536 + u16 v2 v3;
          ip6_payload_length := u16 l0 l1; ip6_next_header := u8 nh; ip6_hop_limit := u8 hop;
          ip6_source := u128 rest; ip6_destination := u128 (drop 16 rest) |} in
        Some (headers_of (NetIpv6 h) (transport_parse false (u8 nh) (drop 32 rest)) (drop 32 rest))
      else None
  | _ => None
  end.

Definition parse (l : list Z) : option PacketHeaders :=
  match parse4 l with Some h => Some h | None => parse6 l end.

Definition encode_options (opts : list TcpOptionElement) : option (list Z) :=
  match opts with [MaximumSegmentSize m] => Some ([2; 4] ++ be_bytes 2 m) | _ => None end.

Definition options_iterator (l : list Z) : list (option TcpOptionElement) :=
  match l with 2 :: 4 :: a :: b :: _ => [Some (MaximumSegmentSize (u16 a b))] | _ => [] end.

Definition new4 (len ttl proto src dst : Z) : option Ipv4Header :=
  if len <=? 65515 then
    Some {| ip4_dscp := 0; ip4_ecn := 0; ip4_total_len := len + 20; ip4_identification := 0;
            ip4_dont_fragment := true; ip4_more_fragments := false; ip4_fragment_offset := 0;
            ip4_time_to_live := ttl; ip4_protocol := proto; ip4_header_checksum := 0;
            ip4_source := src; ip4_destination := dst; ip4_options := [] |}
  else None.

Lemma ip4_roundtrip h t tb p :
  ip4_wf h → ip4_plain h → u16_ok (ip4_header_checksum h) → u16_ok (ip4_total_len h) →
  transport_parse true (ip4_protocol h) (tb ++ p) = Some (t, p) →
  parse (ip4_ser h ++ tb ++ p)
  = Some {| ph_net := Some (NetIpv4 h); ph_transport := Some t; ph_payload := p |}.
Proof.
  intros ((Hds & Hec & Hid) & Httl & Hpr & Hs & Hd) (Ho & Hm & Hf) Hc Htl Ht.
  unfold ip_wf in Hs, Hd. simpl in Hs, Hd. unfold parse, ip4_ser. rewrite !be_bytes_2, !be_bytes_4, Hm, Hf. cbn [app].
  unfold parse4. change (69 =? 69) with true. change (0 =? 0) with true.
  assert (Z.testbit (flag 6 (ip4_dont_fragment h) + flag 5 false) 5 = false ∧
    Z.testbit (flag 6 (ip4_dont_fragment h) + flag 5 false) 6 = ip4_dont_fragment h) as [-> ->]
    by (by destruct (ip4_dont_fragment h)).
  cbn [andb negb]. rewrite (u8_id (ip4_protocol h)), Ht by done. cbn [headers_of].
  rewrite !u16_bytes, !u32_bytes, (u8_id (ip4_time_to_live h)) by (done || (unfold u32_ok, u32_max; lia)).
  rewrite (u8_id (ip4_dscp h * 4 + ip4_ecn h)) by (unfold u8_max; lia).
  rewrite (Z.div_add_l _ 4), (Z.div_small (ip4_ecn h)), Z.add_0_r by lia.
  rewrite Z.add_comm, Z.mod_add, (Z.mod_small (ip4_ecn h)) by lia.
  do 4 f_equal. destruct h. simpl in *. by subst.
Qed.

Lemma ip6_roundtrip h t tb p :
  ip6_wf h → transport_parse false (ip6_next_header h) (tb ++ p) = Some (t, p) →
  parse (ip6_ser h ++ tb ++ p)
  = Some {| ph_net := Some (NetIpv6 h); ph_transport := Some t; ph_payload := p |}.
Proof.
  intros (Htc & Hfl & Hl & Hnh & Hhop & Hs & Hd) Ht. unfold u8_max in *.
  set (tc := ip6_traffic_class h) in *. set (fl := ip6_flow_label h) in *.
  assert (0 ≤ tc / 16 ≤ 15 ∧ 0 ≤ tc mod 16 ≤ 15 ∧ tc = 16 * (tc / 16) + tc mod 16) as (Ha & Hb & Htc')
    by (pose proof (Z.div_mod tc 16); pose proof (Z.mod_pos_bound tc 16);
        pose proof (Z.div_pos tc 16); lia).
  assert (0 ≤ fl / 65536 ≤ 15 ∧ fl = 65536 * (fl / 65536) + fl mod 65536) as (Hc & Hfl')
    by (pose proof (Z.div_mod fl 65536); pose proof (Z.mod_pos_bound fl 65536);
        pose proof (Z.div_pos fl 65536); lia).
  assert (∀ a b, 0 ≤ b ≤ 15 → (a * 16 + b) / 16 = a ∧ (a * 16 + b) mod 16 = b) as Hq.
  { intros a b Hab. split; symmetry; [apply (Z.div_unique _ _ a b)|apply (Z.mod_unique _ _ a b)]; lia. }
  destruct (Hq 6 (tc / 16) Ha) as [Hv Hv']. destruct (Hq (tc mod 16) (fl / 65536) Hc) as [Hx Hx'].
  change (6 * 16) with 96 in *.
  assert (u16 ((fl / 256) mod 256) (fl mod 256) = fl mod 65536) as Hlo.
  { unfold u16, u8. rewrite !Z.mod_mod, <- be_bytes_2, be_value_be_bytes by lia. done. }
  unfold parse, ip6_ser. fold tc fl. rewrite !be_bytes_2. cbn [app].
  assert (∀ l, parse4 (96 + tc / 16 :: l) = None) as ->.
  { intros l. unfold parse4. do 19 (destruct l as [|? l]; [done|]).
    by rewrite (proj2 (Z.eqb_neq (96 + tc / 16) 69)) by lia. }
  unfold parse6. rewrite (u8_id (96 + tc / 16)), (u8_id (tc mod 16 * 16 + _)) by (unfold u8_max; lia).
  rewrite Hv, Hv', Hx, Hx', Hlo, !u16_bytes, (u8_id (ip6_next_header h)), (u8_id (ip6_hop_limit h)) by done.
  rewrite (proj2 (Nat.leb_le _ _)) by (rewrite !length_app, !length_be_bytes; lia).
  change (6 =? 6) with true. cbn [andb]. rewrite <- !app_assoc, u128_bytes by done.
  rewrite (drop_app_length' (be_bytes 16 (ip6_source h))) by (by rewrite length_be_bytes).
  rewrite u128_bytes by done.
  rewrite (app_assoc (be_bytes 16 (ip6_source h))), drop_app_length'
    by (by rewrite length_app, !length_be_bytes).
  rewrite Ht. cbn [headers_of]. do 4 f_equal. destruct h. unfold tc, fl in *. simpl in *. f_equal; lia.
Qed.

Lemma headers_of_ok n v4 proto rest h len :
  headers_of n (transport_parse v4 proto rest) rest = h → net_wf n →
  (net_min_len n + length rest ≤ len)%nat →
  (∀ n', ph_net h = Some n' → net_wf n') ∧ (∀ t, ph_transport h = Some t → transport_wf t) ∧
  ∀ n' t, ph_net h = Some n' → ph_transport h = Some t →
    (net_min_len n' + transport_min_len t + length (ph_payload h) ≤ len)%nat.
Proof.
  intros <- Hn Hl. destruct (transport_parse v4 proto rest) as [[t p]|] eqn:Ht; cbn [headers_of ph_net ph_transport ph_payload].
  - apply transport_parse_ok in Ht as [Hwf Hlen]. split; [by intros ? [= <-]|]. split; [by intros ? [= <-]|].
    intros ? ? [= <-] [= <-]. lia.
  - by split; [intros ? [= <-]|].
Qed.

Lemma parse_ok l h :
  parse l = Some h →
  (∀ n, ph_net h = Some n → net_wf n) ∧ (∀ t, ph_transport h = Some t → transport_wf t) ∧
  ∀ n t, ph_net h = Some n → ph_transport h = Some t →
    (net_min_len n + transport_min_len t + length (ph_payload h) ≤ length l)%nat.
Proof.
  assert (∀ b, 0 ≤ u8 b ≤ u8_max) as Hb by (intros b; pose proof (u8_ok b) as Ho; unfold byte_ok, u8_max in *; lia).
  assert (∀ a b c d, 0 ≤ u32 a b c d < 2 ^ 32) as H4
    by (intros; pose proof (u32_bound a b c d) as Ho; unfold u32_ok, u32_max in *; lia).
  unfold parse. destruct (parse4 l) as [h4|] eqn:H4'; intros Hp.
  - injection Hp as <-. unfold parse4 in H4'. do 20 (destruct l as [|? l]; [done|]).
    destruct (_ && _ && _); [|done]. injection H4' as <-. eapply headers_of_ok; [done| |simpl; lia].
    unfold net_wf, ip4_wf, ip4_small, ip_wf; cbn [ip4_dscp ip4_ecn ip4_identification ip4_time_to_live
      ip4_protocol ip4_source ip4_destination ip_val ip_bits].
    split_and!; try apply Hb; try apply H4; try apply u16_bound;
      try (apply Z.mod_pos_bound; lia); try (apply Z.div_pos; [apply Hb|lia]).
    apply Z.div_lt_upper_bound; [lia|]. eapply Z.le_lt_trans; [apply Hb|]. unfold u8_max. lia.
  - unfold parse6 in Hp. do 8 (destruct l as [|? l]; [done|]).
    destruct (_ =? 6); [|done]. destruct (32 <=? length l)%nat eqn:Hl; [|done]. apply Nat.leb_le in Hl.
    cbn [andb] in Hp. injection Hp as <-. eapply headers_of_ok; [done| |simpl; rewrite length_drop; lia].
    assert (∀ b, 0 ≤ u8 b / 16 ≤ 15 ∧ 0 ≤ u8 b mod 16 ≤ 15) as Hd.
    { intros b. specialize (Hb b). unfold u8_max in Hb. pose proof (Z.div_mod (u8 b) 16).
      pose proof (Z.mod_pos_bound (u8 b) 16). pose proof (Z.div_pos (u8 b) 16). lia. }
    unfold net_wf, ip6_wf; cbn [ip6_traffic_class ip6_flow_label ip6_payload_length ip6_next_header
      ip6_hop_limit ip6_source ip6_destination].
    pose proof (Hd z) as [? ?]. pose proof (Hd z0) as [? ?]. pose proof (u16_bound z1 z2) as Hu.
    unfold u16_ok, u16_max, u8_max in Hu |- *.
    split_and!; try apply Hb; try apply u128_bound; try apply u16_bound; try lia.
    all: change (2 ^ 20) with 1048576; lia.
Qed.

Lemma ip4_ser_layout h :
  length (ip4_ser h) = 20%nat ∧ ip4_ser h !! 0%nat = Some 69 ∧
  take 4 (drop 16 (ip4_ser h)) = be_bytes 4 (ip4_destination h).
Proof. unfold ip4_ser. by rewrite !be_bytes_2, !be_bytes_4. Qed.

Lemma ip6_ser_layout h :
  ip6_wf h →
  length (ip6_ser h) = 40%nat ∧ (∃ b0, ip6_ser h !! 0%nat = Some b0 ∧ Z.shiftr b0 4 = 6) ∧
  ip6_ser h !! 6%nat = Some (ip6_next_header h) ∧
  take 16 (drop 8 (ip6_ser h)) = be_bytes 16 (ip6_source h) ∧
  take 16 (drop 24 (ip6_ser h)) = be_bytes 16 (ip6_destination h).
Proof.
  intros (Htc & _). unfold u8_max in Htc.
  set (d := ip6_destination h). set (b := be_bytes 16 (ip6_source h)).
  assert (length b = 16%nat) as Hb by apply length_be_bytes.
  assert (∃ l, ip6_ser h = l ++ b ++ be_bytes 16 d ∧ length l = 8%nat ∧ l !! 0%nat = Some (96 + ip6_traffic_class h / 16) ∧
    l !! 6%nat = Some (ip6_next_header h)) as (l & -> & Hl & H0 & H6).
  { eexists (_ :: _ :: _ :: _ :: _ :: _ :: _ :: [_]). unfold ip6_ser. rewrite be_bytes_2. by cbn [app]. }
  split; [rewrite !length_app, Hb, Hl, length_be_bytes; lia|].
  split. { exists (96 + ip6_traffic_class h / 16). split; [by apply lookup_app_l_Some|].
    rewrite Z.shiftr_div_pow2 by lia. symmetry. apply (Z.div_unique _ _ 6 (ip6_traffic_class h / 16)); [|lia].
    left. split; [apply Z.div_pos; lia|]. apply Z.div_lt_upper_bound; lia. }
  split; [by apply lookup_app_l_Some|]. split.
  - rewrite drop_app_length' by done. by rewrite take_app_length' by done.
  - rewrite app_assoc, drop_app_length' by (rewrite length_app; lia).
    rewrite take_ge; [done|]. rewrite length_be_bytes. lia.
Qed.

#[export] Program Instance lib : EtherHeaders := {|
  from_ip_slice := parse;
  ipv4_new := new4;
  calc_header_checksum _ := 0;
  ipv4_write h := Some (ip4_ser h);
  ipv6_write h := Some (ip6_ser h);
  tcp_new sp dp seq window := tcp_header sp dp seq 0 false false false false window 0 [];
  tcp_encode_options := encode_options;
  tcp_options_iterator := options_iterator;
  calc_checksum_ipv4 _ _ _ := Some 0;
  calc_checksum_ipv6 _ _ _ := Some 0;
  tcp_write h := Some (tcp_ser h);
  udp_with_ipv4_checksum sp dp _ p := Some {|
    udp_source_port := sp; udp_destination_port := dp;
    udp_length := 8 + Z.of_nat (length p); udp_checksum := 0 |};
  udp_with_ipv6_checksum sp dp _ p := Some {|
    udp_source_port := sp; udp_destination_port := dp;
    udp_length := 8 + Z.of_nat (length p); udp_checksum := 0 |};
  udp_write h := Some (udp_ser h);
  icmpv4_with_checksum ty _ := {| icmp4_type := ty; icmp4_checksum := 0 |};
  icmpv6_with_checksum ty _ _ _ := Some {| icmp6_type := ty; icmp6_checksum := 0 |};
  icmpv4_write := icmp4_ser;
  icmpv6_write := icmp6_ser;
|}.
Next Obligation. intros p h (? & ? & _)%parse_ok. done. Qed.
Next Obligation. intros p h n t (_ & _ & Hl)%parse_ok. apply Hl. Qed.
Next Obligation.
  intros len ttl proto src dst Hl. unfold new4. rewrite (proj2 (Z.leb_le _ _)) by lia.
  eexists. split; [done|]. unfold ip4_small, ip4_plain, u16_ok, u16_max; simpl. split_and!; done || lia.
Qed.
Next Obligation. intros. unfold new4. by rewrite (proj2 (Z.leb_gt _ _)) by lia. Qed.
Next Obligation. done. Qed.
Next Obligation.
  intros m Hm. eexists. split; [done|]. rewrite be_bytes_2. split; [done|]. simpl. by rewrite u16_bytes.
Qed.
Next Obligation. done. Qed.
Next Obligation. intros. by exists 0. Qed.
Next Obligation. intros. by exists 0. Qed.
Next Obligation. intros. by exists 0. Qed.
Next Obligation. intros. by exists 0. Qed.
Next Obligation. done. Qed.
Next Obligation. intros. by exists 0. Qed.
Next Obligation.
  intros h Hp. destruct (ip4_ser_layout h) as (? & ? & ?). eexists. split; [done|]. split; [done|].
  split; [|done]. by exists 69.
Qed.
Next Obligation. intros h Hh. eexists. split; [done|]. by apply ip6_ser_layout. Qed.
Next Obligation.
  intros h Hh. eexists. split; [done|]. unfold tcp_ser. rewrite !be_bytes_2, !be_bytes_4. simpl. lia.
Qed.
Next Obligation. intros h. eexists. split; [done|]. unfold udp_ser. by rewrite !be_bytes_2. Qed.
Next Obligation.
  intros [[]] Hh; simpl in *; try done; eexists; (split; [done|]); unfold echo_ser; by rewrite !be_bytes_2.
Qed.
Next Obligation.
  intros [[]] Hh; simpl in *; try done; eexists; (split; [done|]); unfold echo_ser; by rewrite !be_bytes_2.
Qed.
Next Obligation.
  intros h t p hb tb Hh Hpl Hc Ht _ Hpr Hk [= <-] Hw _ Htl. apply ip4_roundtrip; try done. rewrite Hpr.
  apply transport_roundtrip; [done|by destruct t|by destruct t].
Qed.
Next Obligation.
  intros h t p hb tb Hh Ht _ Hpr Hk [= <-] Hw _. apply ip6_roundtrip; try done. rewrite Hpr.
  apply transport_roundtrip; [done|by destruct t|by destruct t].
Qed.
End RefHeaders.
