(* ===== verification/Nfqueue.v ===== *)
(** * The stateless responder

    [crates/blackwall-deception/src/transport/nfqueue.rs] and its counters in
    [metrics.rs]: the dispatch of a queued packet to the SYN-cookie state
    machine, the UDP reflector or the echo responders, the choice of raw
    socket for a reply, and the verdict on the packet. The kernel's answer to a
    send is the parameter [kernel], which may depend on everything sent so far;
    a packet and the clock are the input of one round of the loop of [run].
    The assembly of the [sendmsg] call itself ([send_v6_l4]) is foreign-function
    code and appears as the datagram handed to the kernel. *)
From stdpp Require Import prelude gmap sorting.
From S2P Require Import Prelude Net Bytes Cookie Packet RefHeaders.

Open Scope Z_scope.

Inductive DeceptionError : Type := EIo | EProtocol.

Inductive Verdict : Type := Drop | Accept.

Inductive RawSocket : Type := SockV4 | SockV6Tcp | SockV6Udp | SockV6Icmp.

(** A datagram handed to the kernel: the socket, the pinned source (IPv6), the
    destination, and the bytes (for IPv6 without the IP header, which the
    kernel builds). *)
Record Sent := { via : RawSocket; from : option IpAddr; to : IpAddr; bytes : list Z }.

Record StatelessMetrics := {
  syn_cookies_sent : Z; acks_validated : Z; acks_rejected : Z; udp_responses : Z;
}.

Definition metrics_new : StatelessMetrics := {|
  syn_cookies_sent := 0; acks_validated := 0; acks_rejected := 0; udp_responses := 0 |}.

(** [fetch_add(1)] wraps. *)
Definition fetch_inc (z : Z) : Z := (z + 1) mod (u64_max + 1).

Record Responder := {
  metrics : StatelessMetrics;
  drop_log_seen : Z;
  log_lines : Z;
  sent : list Sent;
}.

Definition responder_new : Responder := {|
  metrics := metrics_new; drop_log_seen := 0; log_lines := 0; sent := [] |}.

Definition on_metrics (f : StatelessMetrics → StatelessMetrics) (s : Responder) : Responder := {|
  metrics := f (metrics s); drop_log_seen := drop_log_seen s; log_lines := log_lines s; sent := sent s |}.

(** A fallible computation on the responder. *)
Definition RM (A : Type) : Type := Responder → rust DeceptionError A * Responder.
#[export] Instance rm_ret : MRet RM := λ A a s, (Ret a, s).
#[export] Instance rm_bind : MBind RM := λ A B f m s,
  match m s with
  | (Ret a, s') => f a s'
  | (Fail_ e, s') => (Fail_ e, s')
  | (Panic, s') => (Panic, s')
  end.

Definition fail {A} (e : DeceptionError) : RM A := λ s, (Fail_ e, s).
Definition lift {E A} (r : rust E A) : RM A := λ s,
  (match r with Ret a => Ret a | Fail_ _ | Panic => Panic end, s).
Definition update (f : Responder → Responder) : RM unit := λ s, (Ret (), f s).

Definition record_syn_cookie_sent : RM unit := update (on_metrics (λ m, {|
  syn_cookies_sent := fetch_inc (syn_cookies_sent m); acks_validated := acks_validated m;
  acks_rejected := acks_rejected m; udp_responses := udp_responses m |})).
Definition record_ack_validated : RM unit := update (on_metrics (λ m, {|
  syn_cookies_sent := syn_cookies_sent m; acks_validated := fetch_inc (acks_validated m);
  acks_rejected := acks_rejected m; udp_responses := udp_responses m |})).
Definition record_ack_rejected : RM unit := update (on_metrics (λ m, {|
  syn_cookies_sent := syn_cookies_sent m; acks_validated := acks_validated m;
  acks_rejected := fetch_inc (acks_rejected m); udp_responses := udp_responses m |})).
Definition record_udp_response : RM unit := update (on_metrics (λ m, {|
  syn_cookies_sent := syn_cookies_sent m; acks_validated := acks_validated m;
  acks_rejected := acks_rejected m; udp_responses := fetch_inc (udp_responses m) |})).

Definition DROP_LOG_SAMPLE : Z := 1024.

Definition should_sample_drop_log (seen : Z) : bool := seen mod DROP_LOG_SAMPLE =? 0.

Definition drop_and_log (s : Responder) : Responder :=
  let seen := drop_log_seen s in
  {| metrics := metrics s; drop_log_seen := fetch_inc seen;
     log_lines := if should_sample_drop_log seen then log_lines s + 1 else log_lines s;
     sent := sent s |}.

(** [clock_gettime]'s seconds, or [None] when it fails. *)
Definition monotonic_secs (clock : option Z) : Z :=
  match clock with Some tv_sec => if 0 <=? tv_sec then tv_sec else 0 | None => 0 end.

Section responder.
Context `{EtherHeaders} `{SipHash}.
Context (cookie_key : CookieKey) (banners : Z → list Z) (kernel : list Sent → Sent → bool).

Definition transmit (d : Sent) : RM unit := λ s,
  if kernel (sent s) d
  then (Ret (), {| metrics := metrics s; drop_log_seen := drop_log_seen s; log_lines := log_lines s;
                   sent := sent s ++ [d] |})
  else (Fail_ EIo, s).

Definition send_raw4 (buf : list Z) : RM unit :=
  if (length buf <? 20)%nat then fail EProtocol
  else
    b16 ← lift (E := unit) (index buf 16); b17 ← lift (E := unit) (index buf 17);
    b18 ← lift (E := unit) (index buf 18); b19 ← lift (E := unit) (index buf 19);
    transmit {| via := SockV4; from := None; to := ipv4 b16 b17 b18 b19; bytes := buf |}.

Definition socket_for (next_header : Z) : option RawSocket :=
  if next_header =? 6 then Some SockV6Tcp
  else if next_header =? 17 then Some SockV6Udp
  else if next_header =? 58 then Some SockV6Icmp
  else None.

Definition send_raw6 (buf : list Z) : RM unit :=
  if (length buf <? 40)%nat then fail EProtocol
  else
    next_header ← lift (E := unit) (index buf 6);
    src ← lift (E := unit) (slice buf 8 24);
    dst ← lift (E := unit) (slice buf 24 40);
    l4 ← lift (E := unit) (slice buf 40 (length buf));
    match socket_for next_header with
    | Some sock => transmit {| via := sock; from := Some (V6 (be_value src)); to := V6 (be_value dst);
                               bytes := l4 |}
    | None => fail EProtocol
    end.

Definition send_reply (reply : list Z) : RM unit :=
  match (λ b, Z.shiftr b 4) <$> head reply with
  | Some 4 => send_raw4 reply
  | Some 6 => send_raw6 reply
  | _ => mret ()
  end.

Definition handle_tcp (pkt : list Z) (info : TcpRequestInfo) (clock : option Z) : RM Verdict :=
  let now_secs := monotonic_secs clock in
  let tuple := {| ct_src := tr_src info; ct_src_port := tr_src_port info;
                  ct_dst := tr_dst info; ct_dst_port := tr_dst_port info |} in
  if tr_syn info && negb (tr_ack info) then
    '(cookie_seq, mss) ← lift (make_cookie cookie_key tuple (tr_client_mss info) now_secs);
    match tcp_syn_ack pkt cookie_seq mss with
    | Some reply => send_reply reply ;; record_syn_cookie_sent
    | None => mret ()
    end ;;
    mret Drop
  else if tr_ack info && negb (tr_syn info) then
    valid ← lift (check_cookie cookie_key tuple (tr_ack_seq info) now_secs);
    match valid with
    | Some _ =>
        record_ack_validated ;;
        let banner := banners (tr_dst_port info) in
        match tcp_banner_fin pkt banner with
        | Some reply => send_reply reply
        | None => mret ()
        end
    | None => record_ack_rejected
    end ;;
    mret Drop
  else mret Drop.

Definition handle_udp (pkt : list Z) (info : UdpRequestInfo) : RM Verdict :=
  let banner := banners (ur_dst_port info) in
  match udp_response pkt banner with
  | Some reply => send_reply reply ;; record_udp_response
  | None => mret ()
  end ;;
  mret Drop.

(** [r.unwrap_or_else(|e| drop_and_log(kind, &e))]. *)
Definition or_drop (m : RM Verdict) : RM Verdict := λ s,
  match m s with
  | (Fail_ _, s') => (Ret Drop, drop_and_log s')
  | r => r
  end.

(** [if let Err(e) = send_reply(..) { drop_and_log(kind, &e); } Verdict::Drop]. *)
Definition send_or_log (reply : list Z) : RM Verdict := λ s,
  match send_reply reply s with
  | (Ret _, s') => (Ret Drop, s')
  | (Fail_ _, s') => (Ret Drop, drop_and_log s')
  | (Panic, s') => (Panic, s')
  end.

(** One round of the loop of [run]: a packet to its verdict. *)
Definition handle_packet (pkt : list Z) (clock : option Z) : RM Verdict :=
  match parse_tcp_request pkt with
  | Some info => or_drop (handle_tcp pkt info clock)
  | None =>
      match parse_udp_request pkt with
      | Some info => or_drop (handle_udp pkt info)
      | None =>
          match (λ b, Z.shiftr b 4) <$> head pkt with
          | Some 4 =>
              match icmp_echo_reply pkt with
              | Some reply => send_or_log reply
              | None => mret Accept
              end
          | Some 6 =>
              match icmpv6_echo_reply pkt with
              | Some reply => send_or_log reply
              | None => mret Accept
              end
          | _ => mret Accept
          end
      end
  end.

(** The loop over the queue. *)
Fixpoint run (queue : list (list Z * option Z)) : RM (list Verdict) :=
  match queue with
  | [] => mret []
  | (pkt, clock) :: queue =>
      v ← handle_packet pkt clock; vs ← run queue; mret (v :: vs)
  end.

(** ** Sending a reply *)

Definition net_src (n : NetHeaders) : option IpAddr :=
  match n with
  | NetIpv4 h => Some (V4 (ip4_source h)) | NetIpv6 h => Some (V6 (ip6_source h)) | NetArp => None
  end.
Definition net_dst (n : NetHeaders) : option IpAddr :=
  match n with
  | NetIpv4 h => Some (V4 (ip4_destination h)) | NetIpv6 h => Some (V6 (ip6_destination h)) | NetArp => None
  end.

(** The datagram that carries [reply], an answer to a packet with header [n]:
    to the packet's source and, for IPv6, from its destination, through the
    socket of the packet's next header if there is one. *)
Definition datagram (n : NetHeaders) (reply : list Z) : option Sent :=
  match n with
  | NetIpv4 h => Some {| via := SockV4; from := None; to := V4 (ip4_source h); bytes := reply |}
  | NetIpv6 h =>
      sock ← socket_for (ip6_next_header h);
      Some {| via := sock; from := Some (V6 (ip6_destination h)); to := V6 (ip6_source h);
              bytes := drop 40 reply |}
  | NetArp => None
  end.

Definition send_datagram (o : option Sent) : RM unit :=
  match o with Some d => transmit d | None => fail EProtocol end.

Lemma lift_index (l : list Z) i b s : l !! i = Some b → lift (E := unit) (index l i) s = (Ret b, s).
Proof. intros Hb. unfold lift, index. by rewrite Hb. Qed.

Lemma lift_slice (l : list Z) a b s :
  (a ≤ b ≤ length l)%nat → lift (E := unit) (slice l a b) s = (Ret (take (b - a) (drop a l)), s).
Proof. intros Hb. unfold lift. by rewrite slice_ok by lia. Qed.

Lemma slice_app_l (hb l : list Z) a n :
  (a + n ≤ length hb)%nat → take n (drop a (hb ++ l)) = take n (drop a hb).
Proof. intros Hl. rewrite drop_app_le by lia. rewrite take_app_le; [done|]. rewrite length_drop. lia. Qed.

Lemma send_reply_packet n t p reply s :
  net_wf n → reply_packet n t p reply → send_reply reply s = send_datagram (datagram n reply) s.
Proof.
  intros Hwf (r & hb & tb & -> & Ha & [Hl Hlay] & Htb & _). set (rest := tb ++ p).
  destruct n as [a|a|], r as [b|b|]; try done; unfold net_min_len in Hl.
  - destruct Hwf as (_ & _ & _ & Hs & _). destruct Hlay as ((b0 & Hb0 & Hv) & Hdst). destruct Ha as (_ & Hd & _).
    assert (head (hb ++ rest) = Some b0) as Hh by (destruct hb; [done|]; simpl in *; congruence).
    unfold send_reply. rewrite Hh.
    change ((λ b, Z.shiftr b 4) <$> Some b0) with (Some (Z.shiftr b0 4)). rewrite Hv. cbv iota. unfold send_raw4.
    rewrite (proj2 (Nat.ltb_ge _ _)) by (rewrite length_app; lia).
    assert (∃ b16 b17 b18 b19, hb !! 16%nat = Some b16 ∧ hb !! 17%nat = Some b17 ∧ hb !! 18%nat = Some b18 ∧
      hb !! 19%nat = Some b19 ∧ ipv4 b16 b17 b18 b19 = V4 (ip4_source a)) as (b16 & b17 & b18 & b19 & H1 & H2 & H3 & H4 & He).
    { do 20 (destruct hb as [|? hb]; [done|]). destruct hb; [|done]. simpl in Hdst.
      do 4 eexists. do 4 (split; [reflexivity|]). unfold ipv4. rewrite Hdst, Hd.
      f_equal. exact (ip_octets_val (V4 (ip4_source a)) Hs). }
    unfold mbind at 1, rm_bind at 1.
    rewrite (lift_index _ _ _ _ (lookup_app_l_Some hb rest 16 b16 H1)).
    unfold mbind at 1, rm_bind at 1. rewrite (lift_index _ _ _ _ (lookup_app_l_Some hb rest 17 b17 H2)).
    unfold mbind at 1, rm_bind at 1. rewrite (lift_index _ _ _ _ (lookup_app_l_Some hb rest 18 b18 H3)).
    unfold mbind at 1, rm_bind at 1. rewrite (lift_index _ _ _ _ (lookup_app_l_Some hb rest 19 b19 H4)).
    by rewrite He.
  - destruct Hwf as (_ & _ & _ & _ & _ & Hs & Hds). destruct Hlay as ((b0 & Hb0 & Hv) & Hnh & Hsrc & Hdst).
    destruct Ha as (Hs' & Hd' & Hn' & _).
    assert (head (hb ++ rest) = Some b0) as Hh by (destruct hb; [done|]; simpl in *; congruence).
    unfold send_reply. rewrite Hh.
    change ((λ b, Z.shiftr b 4) <$> Some b0) with (Some (Z.shiftr b0 4)). rewrite Hv. cbv iota. unfold send_raw6.
    rewrite (proj2 (Nat.ltb_ge _ _)) by (rewrite length_app; lia).
    unfold mbind at 1, rm_bind at 1.
    rewrite (lift_index _ _ _ _ (lookup_app_l_Some hb rest 6 _ Hnh)).
    unfold mbind at 1, rm_bind at 1. rewrite lift_slice by (rewrite length_app; lia).
    unfold mbind at 1, rm_bind at 1. rewrite lift_slice by (rewrite length_app; lia).
    unfold mbind at 1, rm_bind at 1. rewrite lift_slice by (rewrite length_app; lia).
    change (24 - 8)%nat with 16%nat. change (40 - 24)%nat with 16%nat.
    rewrite !slice_app_l by lia. rewrite Hsrc, Hdst, Hs', Hd', Hn'.
    rewrite (take_ge (drop 40 _)) by (rewrite length_drop; lia).
    pose proof (ip_octets_val (V6 (ip6_source a)) Hs) as Hvs. pose proof (ip_octets_val (V6 (ip6_destination a)) Hds) as Hvd.
    unfold ip_octets, ip_val in Hvs, Hvd. rewrite Hvs, Hvd. cbn [datagram mbind].
    by destruct (socket_for (ip6_next_header a)).
Qed.

(** ** Where replies go *)

(** The datagram answers [pkt]: it goes to the packet's source, from its
    destination. *)
Definition routed (pkt : list Z) (d : Sent) : Prop :=
  ∃ h n, from_ip_slice pkt = Some h ∧ ph_net h = Some n ∧ net_src n = Some (to d) ∧
    match from d with None => via d = SockV4 | Some a => net_dst n = Some a end.

(** A computation that does not panic and sends at most one datagram, a reply
    to [pkt]. *)
Definition answers_once {A} (pkt : list Z) (s : Responder) (r : rust DeceptionError A * Responder) : Prop :=
  r.1 ≠ Panic ∧ (sent r.2 = sent s ∨ ∃ d, sent r.2 = sent s ++ [d] ∧ routed pkt d).

Lemma send_reply_answers pkt reply s : replies pkt reply → answers_once pkt s (send_reply reply s).
Proof.
  intros (h & n & t & p & Hp & Hn & Hk). destruct (parsed_wf _ _ Hp) as [Hnw _].
  rewrite (send_reply_packet n t p) by eauto. unfold answers_once.
  destruct (datagram n reply) as [d|] eqn:Hd; cbn [send_datagram]; [|by split; [|left]].
  unfold transmit. destruct (kernel (sent s) d); [|by split; [|left]].
  split; [done|]. right. exists d. split; [done|]. exists h, n. do 2 (split; [done|]).
  destruct n as [a|a|]; simpl in Hd; [by simplify_eq| |done].
  destruct (socket_for _); simpl in Hd; by simplify_eq.
Qed.

Lemma answers_once_update {A} pkt s (m : RM A) f :
  (∀ s, sent (f s) = sent s) → answers_once pkt s (m s) →
  answers_once pkt s ((m ;; update f) s).
Proof.
  intros Hf [Hp Hs]. unfold answers_once, mbind, rm_bind in *.
  destruct (m s) as [[a|e|] s']; [|done|done]. simpl in *. split; [done|]. by rewrite Hf.
Qed.

Lemma answers_once_ret {A B} pkt s (m : RM A) (b : B) :
  answers_once pkt s (m s) → answers_once pkt s ((m ;; mret b) s).
Proof.
  intros [Hp Hs]. unfold answers_once, mbind, rm_bind in *. by destruct (m s) as [[a|e|] s'].
Qed.

Lemma answers_once_pre {A} pkt f (m : RM A) s :
  (∀ s, sent (f s) = sent s) → (∀ s, answers_once pkt s (m s)) →
  answers_once pkt s ((update f ;; m) s).
Proof.
  intros Hf Hm. change ((update f ;; m) s) with (m (f s)). unfold answers_once. rewrite <- (Hf s). apply Hm.
Qed.

Lemma answers_once_none {A} pkt s (a : A) : answers_once pkt s (Ret a, s).
Proof. split; [done|by left]. Qed.

Lemma make_cookie_ok tuple m now :
  ∃ c v, make_cookie cookie_key tuple m now = Ret (c, v) ∧ u32_ok c ∧ u16_ok v.
Proof.
  destruct (make_cookie_eq cookie_key tuple m now) as (v & Hv & ->).
  eexists _, v. split; [done|]. split; [apply cookie_word_bound, siphash_u64|].
  apply list_elem_of_lookup_2 in Hv. unfold u16_ok, u16_max.
  repeat (apply elem_of_cons in Hv as [->|Hv]; [lia|]). by apply elem_of_nil in Hv.
Qed.

Lemma handle_tcp_answers pkt info clock s :
  answers_once pkt s (handle_tcp pkt info clock s).
Proof.
  unfold handle_tcp. destruct (tr_syn info && negb (tr_ack info)).
  - set (tuple := {| ct_src := _ |}).
    destruct (make_cookie_ok tuple (tr_client_mss info) (monotonic_secs clock)) as (c & v & Hm & Hc & Hv).
    unfold mbind at 1, rm_bind at 1, lift at 1. rewrite Hm. apply answers_once_ret.
    destruct (tcp_syn_ack pkt c v) as [reply|] eqn:Hr; [|apply answers_once_none].
    apply answers_once_update; [done|]. apply send_reply_answers. by eapply tcp_syn_ack_replies.
  - destruct (tr_ack info && negb (tr_syn info)); [|apply answers_once_none].
    set (tuple := {| ct_src := _ |}).
    destruct (check_cookie_spec cookie_key tuple (tr_ack_seq info) (monotonic_secs clock)) as (o & Ho & _).
    unfold mbind at 1, rm_bind at 1, lift at 1. rewrite Ho. apply answers_once_ret.
    destruct o as [m|]; [|split; [done|by left]].
    apply answers_once_pre; [done|]. intros s'. destruct (tcp_banner_fin _ _) as [reply|] eqn:Hr; [|apply answers_once_none].
    apply send_reply_answers. by eapply tcp_banner_fin_replies.
Qed.

Lemma handle_udp_answers pkt info s : answers_once pkt s (handle_udp pkt info s).
Proof.
  unfold handle_udp. apply answers_once_ret.
  destruct (udp_response _ _) as [reply|] eqn:Hr; [|apply answers_once_none].
  apply answers_once_update; [done|]. apply send_reply_answers. by eapply udp_response_replies.
Qed.

Lemma or_drop_answers pkt m s :
  answers_once pkt s (m s) → (∀ v s', m s = (Ret v, s') → v = Drop) →
  answers_once pkt s (or_drop m s) ∧ (or_drop m s).1 = Ret Drop.
Proof.
  unfold answers_once, or_drop. intros [Hp Hs] Hv.
  destruct (m s) as [[v|e|] s'] eqn:Hm; [|by repeat split|done].
  split; [done|]. simpl. by rewrite (Hv v s').
Qed.

Lemma send_or_log_answers pkt reply s :
  replies pkt reply → answers_once pkt s (send_or_log reply s) ∧ (send_or_log reply s).1 = Ret Drop.
Proof.
  intros Hr. pose proof (send_reply_answers pkt reply s Hr) as [Hp Hs]. unfold send_or_log, answers_once.
  by destruct (send_reply reply s) as [[v|e|] s'].
Qed.

Lemma bind_drop {A} (m : RM A) s v s' : (m ;; mret Drop) s = (Ret v, s') → v = Drop.
Proof. unfold mbind, rm_bind. destruct (m s) as [[]]; by intros [= <- <-]. Qed.

Lemma handle_tcp_drop pkt info clock s v s' : handle_tcp pkt info clock s = (Ret v, s') → v = Drop.
Proof.
  unfold handle_tcp. destruct (_ && _).
  - unfold mbind at 1, rm_bind at 1. destruct (lift _ s) as [[[c m]| |] s1]; [|done|done]. apply bind_drop.
  - destruct (_ && _); [|by intros [= <- <-]].
    unfold mbind at 1, rm_bind at 1. destruct (lift _ s) as [[o| |] s1]; [|done|done]. apply bind_drop.
Qed.


(** An IPv6 SYN that reaches the responder behind an extension header (its
    next header is not TCP, UDP or ICMPv6 although the packet carries TCP) is
    never answered: the SYN-ACK is built with the request's next header, for
    which there is no raw socket, so the send fails and only the failure
    counter moves. *)
Theorem nfq_extension_header_unanswered pkt h ip6 t clock s :
  from_ip_slice pkt = Some h → ph_net h = Some (NetIpv6 ip6) → ph_transport h = Some (TTcp t) →
  tcp_syn t = true → tcp_ack t = false → socket_for (ip6_next_header ip6) = None →
  handle_packet pkt clock s = (Ret Drop, drop_and_log s).
Proof.
  intros Hp Hn Ht Hsyn Hack Hso. unfold handle_packet, parse_tcp_request.
  rewrite Hp. cbn [mbind option_bind]. rewrite Hn. cbn [mbind option_bind ipv4_ref ipv6_ref]. rewrite Ht.
  cbn [mbind option_bind]. unfold or_drop, handle_tcp. cbn [tr_syn tr_ack]. rewrite Hsyn, Hack. cbn [andb negb].
  set (tuple := {| ct_src := _ |}). set (mss := default _ _). cbn [tr_client_mss].
  destruct (make_cookie_ok tuple mss (monotonic_secs clock)) as (c & v & Hm & Hc & Hv).
  unfold mbind at 1, rm_bind at 1, lift at 1. rewrite Hm.
  destruct (tcp_syn_ack_spec pkt h (NetIpv6 ip6) t c v Hp Hn ltac:(done) Ht Hsyn Hack Hc Hv)
    as (k & o & reply & -> & _ & Hr).
  unfold mbind at 1, rm_bind at 1. unfold mbind at 1, rm_bind at 1.
  destruct (parsed_wf _ _ Hp) as [Hnw _]. rewrite (send_reply_packet _ _ _ _ s (Hnw _ Hn) Hr).
  cbn [datagram]. by rewrite Hso.
Qed.

(** ** The handshake *)

Definition same_flow (n1 n2 : NetHeaders) (t1 t2 : TcpHeader) : Prop :=
  net_src n1 = net_src n2 ∧ net_dst n1 = net_dst n2 ∧
  tcp_source_port t1 = tcp_source_port t2 ∧ tcp_destination_port t1 = tcp_destination_port t2.

(** The packet carries the TCP segment [t] directly over the IP header [n]. *)
Definition tcp_packet (pkt : list Z) (n : NetHeaders) (t : TcpHeader) (payload : list Z) : Prop :=
  from_ip_slice pkt = Some {| ph_net := Some n; ph_transport := Some (TTcp t); ph_payload := payload |} ∧
  carries n (TTcp t).

(** The tuple the responder derives from a segment. *)
Definition tuple_of (n : NetHeaders) (t : TcpHeader) : ConnTuple := {|
  ct_src := default inhabitant (net_src n); ct_src_port := tcp_source_port t;
  ct_dst := default inhabitant (net_dst n); ct_dst_port := tcp_destination_port t |}.

Lemma tuple_of_flow n1 n2 t1 t2 : same_flow n1 n2 t1 t2 → tuple_of n1 t1 = tuple_of n2 t2.
Proof. intros (Hs & Hd & Hsp & Hdp). unfold tuple_of. by rewrite Hs, Hd, Hsp, Hdp. Qed.

Lemma parse_tcp_packet pkt n t p :
  tcp_packet pkt n t p →
  parse_tcp_request pkt = Some {|
    tr_src := ct_src (tuple_of n t); tr_src_port := tcp_source_port t;
    tr_dst := ct_dst (tuple_of n t); tr_dst_port := tcp_destination_port t;
    tr_syn := tcp_syn t; tr_ack := tcp_ack t; tr_ack_seq := acknowledgment_number t;
    tr_client_mss := default DEFAULT_CLIENT_MSS (find_mss (tcp_options_iterator (tcp_options t))) |}.
Proof.
  intros [Hp Hc]. unfold parse_tcp_request. rewrite Hp. cbn [mbind option_bind ph_net ph_transport].
  by destruct n.
Qed.

Lemma datagram_tcp pkt n t p reply : tcp_packet pkt n t p → ∃ d, datagram n reply = Some d.
Proof.
  intros [_ Hc]. destruct n as [a|a|]; simpl in *; [eauto| |done]. rewrite Hc. simpl. eauto.
Qed.

Lemma wrapping_pred_add seq : u32_ok seq → wrapping_pred u32_max (wrapping_add32 seq 1) = seq.
Proof.
  intros Hs. unfold wrapping_pred, wrapping_add32. unfold u32_ok in Hs.
  rewrite Zminus_mod_idemp_l. replace (seq + 1 - 1) with seq by lia. apply Z.mod_small. lia.
Qed.

(** The reply that left for the packet: it parses as [t'] with [payload], from
    and to the swapped addresses. *)
Definition replied (n : NetHeaders) (t' : TcpHeader) (payload : list Z) (s s' : Responder) : Prop :=
  ∃ d reply r, sent s' = sent s ++ [d] ∧ datagram n reply = Some d ∧ answers n r ∧
    from_ip_slice reply
    = Some {| ph_net := Some r; ph_transport := Some (TTcp t'); ph_payload := payload |}.

(** Sending such a reply when the kernel takes every datagram. *)
Lemma send_replied pkt n t p t' payload reply s :
  (∀ l d, kernel l d = true) → tcp_packet pkt n t p → reply_packet n (TTcp t') payload reply →
  ∃ s', send_reply reply s = (Ret (), s') ∧ metrics s' = metrics s ∧ replied n t' payload s s'.
Proof.
  intros Hk Hp Hr. destruct (datagram_tcp pkt n t p reply Hp) as [d Hd]. destruct Hp as [Hp Hc].
  destruct (parsed_wf _ _ Hp) as [Hnw _]. rewrite (send_reply_packet n (TTcp t') payload) by eauto.
  rewrite Hd. cbn [send_datagram]. unfold transmit. rewrite Hk. eexists. split; [done|]. split; [done|].
  destruct Hr as (r & hb & tb & Hb & Ha & _ & _ & Hf). exists d, reply, r. repeat split; [done|done|].
  apply Hf. destruct n; exact Hc || done.
Qed.

Lemma syn_answered pkt n t p clock s :
  (∀ l d, kernel l d = true) → tcp_packet pkt n t p → tcp_syn t = true → tcp_ack t = false →
  ∃ seq mss c o s', u32_ok seq ∧
    make_cookie cookie_key (tuple_of n t)
      (default DEFAULT_CLIENT_MSS (find_mss (tcp_options_iterator (tcp_options t)))) (monotonic_secs clock)
    = Ret (seq, mss) ∧
    tcp_options_iterator o = [Some (MaximumSegmentSize mss)] ∧
    handle_packet pkt clock s = (Ret Drop, s') ∧
    syn_cookies_sent (metrics s') = fetch_inc (syn_cookies_sent (metrics s)) ∧
    replied n (tcp_header (tcp_destination_port t) (tcp_source_port t) seq
      (wrapping_add32 (sequence_number t) 1) false true false true STATELESS_WINDOW c o) [] s s'.
Proof.
  intros Hk Hp Hsyn Hack. pose proof Hp as [Hf Hc]. set (m := default _ _).
  destruct (make_cookie_ok (tuple_of n t) m (monotonic_secs clock)) as (seq & mss & Hm & Hu & Hv).
  destruct (tcp_syn_ack_spec pkt _ n t seq mss Hf eq_refl) as (c & o & reply & Hr & Ho & Hpk);
    [by destruct n|done..|].
  destruct (send_replied pkt n t p _ [] reply s Hk Hp Hpk) as (s' & Hs & Hme & Hrep).
  exists seq, mss, c, o. eexists. do 3 (split; [done|]). unfold handle_packet.
  rewrite (parse_tcp_packet pkt n t p Hp). unfold or_drop, handle_tcp.
  cbn [tr_syn tr_ack tr_src tr_src_port tr_dst tr_dst_port tr_client_mss]. rewrite Hsyn, Hack. cbn [andb negb].
  change {| ct_src := ct_src (tuple_of n t); ct_src_port := _; ct_dst := _; ct_dst_port := _ |} with (tuple_of n t).
  unfold mbind at 1, rm_bind at 1, lift at 1. fold m. rewrite Hm.
  rewrite Hr. unfold mbind at 1, rm_bind at 1. unfold mbind at 1, rm_bind at 1. rewrite Hs.
  split; [reflexivity|]. split; [by rewrite <- Hme|]. exact Hrep.
Qed.

(** A client can complete a connection with the stateless responder, which
    keeps nothing about it in between. When the kernel takes the datagrams, a
    SYN is answered with one SYN-ACK to its sender, over IPv4 or IPv6, with the
    ports swapped, the client's sequence number plus one acknowledged and a
    single MSS option; and whatever has happened since, an ACK of the same flow
    that acknowledges the sequence number of that SYN-ACK, in the same
    64-second slot or the next, is counted as validated and answered with
    exactly one segment that carries the banner of the port with PSH, ACK and
    FIN at the sequence number the client expects. *)
Theorem nfq_handshake pkt1 n1 t1 p1 now1 s1 :
  (∀ l d, kernel l d = true) → tcp_packet pkt1 n1 t1 p1 → tcp_syn t1 = true → tcp_ack t1 = false →
  0 ≤ now1 →
  ∃ seq mss c o s2,
    handle_packet pkt1 (Some now1) s1 = (Ret Drop, s2) ∧
    syn_cookies_sent (metrics s2) = fetch_inc (syn_cookies_sent (metrics s1)) ∧
    tcp_options_iterator o = [Some (MaximumSegmentSize mss)] ∧
    replied n1 (tcp_header (tcp_destination_port t1) (tcp_source_port t1) seq
      (wrapping_add32 (sequence_number t1) 1) false true false true STATELESS_WINDOW c o) [] s1 s2 ∧
    ∀ pkt2 n2 t2 p2 now2 s3,
      tcp_packet pkt2 n2 t2 p2 → same_flow n1 n2 t1 t2 → tcp_syn t2 = false → tcp_ack t2 = true →
      acknowledgment_number t2 = wrapping_add32 seq 1 →
      64 ≤ now2 ≤ u64_max → (slot now2 = slot now1 ∨ slot now2 = slot now1 + 1) →
      Z.of_nat (length p2) ≤ u32_max → Z.of_nat (20 + length (banners (tcp_destination_port t1))) ≤ 65515 →
      ∃ c' s4, handle_packet pkt2 (Some now2) s3 = (Ret Drop, s4) ∧
        acks_validated (metrics s4) = fetch_inc (acks_validated (metrics s3)) ∧
        acks_rejected (metrics s4) = acks_rejected (metrics s3) ∧
        replied n2 (tcp_header (tcp_destination_port t2) (tcp_source_port t2) (wrapping_add32 seq 1)
          (wrapping_add32 (sequence_number t2) (Z.of_nat (length p2))) true false true true STATELESS_WINDOW c' [])
          (banners (tcp_destination_port t1)) s3 s4.
Proof.
  intros Hk Hp1 Hsyn1 Hack1 Hnow1.
  destruct (syn_answered pkt1 n1 t1 p1 (Some now1) s1 Hk Hp1 Hsyn1 Hack1)
    as (seq & mss & c & o & s2 & Hu & Hm & Ho & Hh & Hc & Hr).
  exists seq, mss, c, o, s2. do 4 (split; [done|]).
  intros pkt2 n2 t2 p2 now2 s3 Hp2 Hfl Hsyn2 Hack2 Hseq Hnow2 Hslot Hpl Hban.
  assert (monotonic_secs (Some now1) = now1 ∧ monotonic_secs (Some now2) = now2) as [Ht1 Ht2].
  { unfold monotonic_secs. by rewrite !(proj2 (Z.leb_le _ _)) by lia. }
  rewrite Ht1, (tuple_of_flow _ _ _ _ Hfl) in Hm.
  assert (check_cookie cookie_key (tuple_of n2 t2) (acknowledgment_number t2) now2 = Ret (Some mss)) as Hck.
  { eapply check_cookie_minted; [done| |rewrite Hseq, wrapping_pred_add by done; exact Hm]. lia. }
  pose proof Hp2 as [Hf2 Hc2]. destruct Hfl as (_ & _ & _ & Hdp). rewrite Hdp in Hban |- *.
  destruct (tcp_banner_fin_spec pkt2 _ n2 t2 (banners (tcp_destination_port t2)) Hf2 eq_refl)
    as (c' & reply & Hrp & Hpk); [by destruct n2|done..|].
  destruct (send_replied pkt2 n2 t2 p2 _ _ reply (on_metrics (λ m, {|
    syn_cookies_sent := syn_cookies_sent m; acks_validated := fetch_inc (acks_validated m);
    acks_rejected := acks_rejected m; udp_responses := udp_responses m |}) s3) Hk Hp2 Hpk)
    as (s4 & Hs & Hme & Hrep).
  exists c', s4. unfold handle_packet. rewrite (parse_tcp_packet pkt2 n2 t2 p2 Hp2). unfold or_drop, handle_tcp.
  cbn [tr_syn tr_ack tr_src tr_src_port tr_dst tr_dst_port tr_ack_seq]. rewrite Hsyn2, Hack2. cbn [andb negb].
  change {| ct_src := ct_src (tuple_of n2 t2); ct_src_port := _; ct_dst := _; ct_dst_port := _ |} with (tuple_of n2 t2).
  unfold mbind at 1, rm_bind at 1, lift at 1. rewrite Ht2, Hck.
  unfold mbind at 1, rm_bind at 1. unfold record_ack_validated, update, mbind at 1, rm_bind at 1.
  rewrite Hrp, Hs. split; [reflexivity|]. rewrite Hme. split; [reflexivity|]. split; [reflexivity|].
  rewrite <- Hseq. exact Hrep.
Qed.
End responder.

(** ** Examples *)

Section examples.
#[local] Existing Instance RefHash.lib.
#[local] Existing Instance RefHeaders.lib.

Definition nfq_ex_banner (port : Z) : list Z := [83; 83; 72; 45; 50; 46; 48].
Definition nfq_ex_kernel (l : list Sent) (d : Sent) : bool := true.

Definition nfq_ex_ip4 (len : Z) : Ipv4Header := {|
  ip4_dscp := 0; ip4_ecn := 0; ip4_total_len := len; ip4_identification := 7;
  ip4_dont_fragment := true; ip4_more_fragments := false; ip4_fragment_offset := 0;
  ip4_time_to_live := 60; ip4_protocol := 6; ip4_header_checksum := 0;
  ip4_source := 3325256713; ip4_destination := 3405803783; ip4_options := [] |}.

(** A SYN from 198.51.100.9:40000 to 203.0.113.7:22 and an ACK of the same
    flow. *)
Definition nfq_ex_syn_tcp : TcpHeader := tcp_header 40000 22 5000 0 false true false false 64000 0 [2; 4; 5; 180].
Definition nfq_ex_ack_tcp (ackn : Z) : TcpHeader := tcp_header 40000 22 5001 ackn false false false true 64000 0 [].
Definition nfq_ex_syn : list Z := RefHeaders.ip4_ser (nfq_ex_ip4 44) ++ RefHeaders.tcp_ser nfq_ex_syn_tcp.
Definition nfq_ex_ack (ackn : Z) : list Z :=
  RefHeaders.ip4_ser (nfq_ex_ip4 40) ++ RefHeaders.tcp_ser (nfq_ex_ack_tcp ackn).

Lemma nfq_ex_syn_packet : tcp_packet nfq_ex_syn (NetIpv4 (nfq_ex_ip4 44)) nfq_ex_syn_tcp [].
Proof. split; [vm_refl|reflexivity]. Qed.

(** A handshake within two slots, and a stray ACK. *)
Definition nfq_ex_cookie : Z :=
  match make_cookie ck_ex_key ck_ex_tuple 1460 1000 with Ret (c, _) => c | _ => 0 end.

Lemma nfq_ex_run :
  (λ '(r, s), (r, metrics s, length (sent s)))
    (run ck_ex_key nfq_ex_banner nfq_ex_kernel
       [(nfq_ex_syn, Some 1000); (nfq_ex_ack (nfq_ex_cookie + 1), Some 1050); (nfq_ex_ack 77, Some 1050)]
       responder_new)
  = (Ret [Drop; Drop; Drop],
     {| syn_cookies_sent := 1; acks_validated := 1; acks_rejected := 1; udp_responses := 0 |}, 2%nat).
Proof. vm_refl. Qed.

Lemma nfq_handshake_witness :
  ∃ s, handle_packet ck_ex_key nfq_ex_banner nfq_ex_kernel nfq_ex_syn (Some 1000) responder_new
       = (Ret Drop, s) ∧ syn_cookies_sent (metrics s) = 1.
Proof.
  destruct (nfq_handshake ck_ex_key nfq_ex_banner nfq_ex_kernel nfq_ex_syn (NetIpv4 (nfq_ex_ip4 44))
    nfq_ex_syn_tcp [] 1000 responder_new) as (seq & mss & c & o & s & Hh & Hm & _);
    [reflexivity|exact nfq_ex_syn_packet|reflexivity|reflexivity|lia|].
  exists s. split; [exact Hh|exact Hm].
Defined.

(** An IPv6 SYN whose IP header announces destination options. *)
Definition nfq_ex_ip6 : Ipv6Header := {|
  ip6_traffic_class := 0; ip6_flow_label := 0; ip6_payload_length := 32; ip6_next_header := 60;
  ip6_hop_limit := 64; ip6_source := 1; ip6_destination := 2 |}.
Definition nfq_ex_syn6 : list Z :=
  RefHeaders.ip6_ser nfq_ex_ip6 ++ [6; 0; 1; 4; 0; 0; 0; 0] ++ RefHeaders.tcp_ser nfq_ex_syn_tcp.

Lemma nfq_extension_header_unanswered_witness :
  handle_packet ck_ex_key nfq_ex_banner nfq_ex_kernel nfq_ex_syn6 (Some 1000) responder_new
  = (Ret Drop, drop_and_log responder_new).
Proof.
  apply (nfq_extension_header_unanswered ck_ex_key nfq_ex_banner nfq_ex_kernel nfq_ex_syn6
    {| ph_net := Some (NetIpv6 nfq_ex_ip6); ph_transport := Some (TTcp nfq_ex_syn_tcp); ph_payload := [] |}
    nfq_ex_ip6 nfq_ex_syn_tcp); [vm_refl|reflexivity..].
Defined.
End examples.
