(* ===== verification/XdpMaps.v ===== *)
(** * The maps shared with the XDP program

    The plain-data layouts of [crates/blackwall-xdp-common/src/lib.rs] and the
    key encodings of [crates/blackwall-xdp/src/keys.rs], the contract between
    the user-space control plane and the in-kernel program. The kernel's
    longest-prefix-match trie is not part of the program: it is the class
    [LpmTrie], with the lookup rule its documentation gives. *)
From stdpp Require Import prelude gmap sorting.
From S2P Require Import Prelude Net Bytes Cookie.

Open Scope Z_scope.

Definition REASON_PASS : Z := 0.
Definition REASON_BLOCKLIST : Z := 1.
Definition REASON_RATELIMIT : Z := 2.
Definition REASON_SYNCOOKIE : Z := 3.
Definition REASON_REDIRECT : Z := 4.
Definition REASON_SYNCOOKIE_TXCAPPED : Z := 5.
Definition REASON_COUNT : Z := 6.

Record LpmKeyV4 := { prefixlen4 : Z; addr4 : list Z }.
Record LpmKeyV6 := { prefixlen6 : Z; addr6 : list Z }.

Record RateBucket := { rb_tokens : Z; rb_last_ns : Z; rb_rate_pps : Z; rb_burst : Z }.

Record TxBucket := { tx_tokens : Z; tx_last_ns : Z; tx_rate_pps : Z }.

Record Stat := { packets : Z; stat_bytes : Z }.

Record CookieKeyValue := { ckv_k0 : Z; ckv_k1 : Z }.

Definition CAP_SNAP_LEN : nat := 96.

Record CaptureRecord := {
  timestamp_ns : Z; cr_reason : Z; cr_verdict : Z; pkt_len : Z; cap_len : Z;
}.

(** Only the [cap_len] valid bytes of the snapshot buffer. *)
Record CaptureFrame := { cf_header : CaptureRecord; cf_data : list Z }.

Definition lpm_key_v4 (prefixlen : Z) (addr : list Z) : LpmKeyV4 :=
  {| prefixlen4 := prefixlen; addr4 := addr |}.
Definition lpm_key_v6 (prefixlen : Z) (addr : list Z) : LpmKeyV6 :=
  {| prefixlen6 := prefixlen; addr6 := addr |}.

(** ** Key encodings *)

Inductive LpmKey : Type := KeyV4 (k : LpmKeyV4) | KeyV6 (k : LpmKeyV6).

Section keys.
Context `{IpNetLib}.

(** [n.network()]: the address with the host bits cleared. *)
Definition lpm_key (net : IpNet) : LpmKey :=
  let network := net_addr (net_trunc net) in
  match network with
  | V4 _ => KeyV4 (lpm_key_v4 (net_prefix_len net) (ip_octets network))
  | V6 _ => KeyV6 (lpm_key_v6 (net_prefix_len net) (ip_octets network))
  end.
End keys.

Definition host_lpm_key (addr : IpAddr) : LpmKey :=
  match addr with
  | V4 _ => KeyV4 (lpm_key_v4 32 (ip_octets addr))
  | V6 _ => KeyV6 (lpm_key_v6 128 (ip_octets addr))
  end.

Definition encode_cookie_key (key : list Z) : CookieKeyValue := {|
  ckv_k0 := be_value (reverse (take 8 key)); ckv_k1 := be_value (reverse (take 8 (drop 8 key))) |}.

(** The two tiers split the secret the same way. *)
Lemma encode_cookie_key_pair key :
  (ckv_k0 (encode_cookie_key key), ckv_k1 (encode_cookie_key key)) = to_u64_pair key.
Proof. done. Qed.

(** ** The kernel's trie *)

(** An entry [(len, octets)] covers an address when their first [len] bits
    agree. *)
Definition lpm_covers (width : Z) (e : Z * list Z) (addr : list Z) : Prop :=
  0 ≤ e.1 ≤ width ∧ be_value e.2 / 2 ^ (width - e.1) = be_value addr / 2 ^ (width - e.1).

Class LpmTrie := {
  trie : Type;
  (** [get] with a full-length key; [None] when no entry matches. *)
  lpm_get : trie → list Z → option Z;
  (** The installed entries. *)
  lpm_entries : trie → list (Z * list Z);
  (** A lookup finds an entry exactly when one covers the address (it returns
      the longest). *)
  lpm_get_spec : ∀ t addr,
    lpm_get t addr ≠ None ↔ ∃ e, e ∈ lpm_entries t ∧ lpm_covers (8 * Z.of_nat (length addr)) e addr;
}.

(** A list of entries, searched for a covering one. *)
Module RefTrie.
Definition covers (e : Z * list Z) (addr : list Z) : bool :=
  let width := 8 * Z.of_nat (length addr) in
  (0 <=? e.1) && (e.1 <=? width) &&
  (be_value e.2 / 2 ^ (width - e.1) =? be_value addr / 2 ^ (width - e.1)).

#[export] Program Instance lib : LpmTrie := {|
  trie := list (Z * list Z);
  lpm_get t addr := if existsb (λ e, covers e addr) t then Some 1 else None;
  lpm_entries t := t;
|}.
Next Obligation.
  intros t addr. simpl. destruct (existsb _ t) eqn:He.
  - split; [|done]. intros _. apply existsb_exists in He as (e & Hin & Hc). exists e.
    split; [by apply list_elem_of_In|]. unfold covers, lpm_covers in *. lia.
  - split; [done|]. intros (e & Hin & Hc). exfalso. apply not_true_iff_false in He. apply He.
    apply existsb_exists. exists e. split; [by apply list_elem_of_In|].
    unfold covers, lpm_covers in *. lia.
Qed.
End RefTrie.

Section covers.
Context `{IpNetLib} `{LpmTrie}.

(** A prefix encoded with [lpm_key] covers exactly the addresses it contains. *)
Lemma lpm_key_covers net a :
  ip_wf a → ip_wf (net_addr net) → ip_is_v4 (net_addr net) = ip_is_v4 a →
  lpm_covers (ip_bits a) (net_prefix_len net, ip_octets (net_addr (net_trunc net))) (ip_octets a)
  ↔ net_contains net a = true.
Proof.
  intros Ha Hn Hf. pose proof (net_len_bound net) as Hl. pose proof (net_trunc_addr net) as Ht.
  assert (ip_bits (net_addr net) = ip_bits a) as Hb by (destruct (net_addr net), a; done).
  assert (0 ≤ ip_val (net_addr net)) by (unfold ip_wf in Hn; lia).
  rewrite Hb in *. set (k := ip_bits a - net_prefix_len net).
  assert (0 < 2 ^ k) by (apply Z.pow_pos_nonneg; lia).
  assert (ip_val (net_addr (net_trunc net)) = ip_val (net_addr net) / 2 ^ k * 2 ^ k) as Hv.
  { rewrite Ht. unfold mask_to. by destruct (net_addr net). }
  assert (ip_wf (net_addr (net_trunc net))) as Hw.
  { unfold ip_wf in *. rewrite Hv.
    assert (ip_bits (net_addr (net_trunc net)) = ip_bits a) as -> by (rewrite Ht, <- Hb; by destruct (net_addr net)).
    rewrite Hb in Hn. pose proof (Z.mul_div_le (ip_val (net_addr net)) (2 ^ k)).
    pose proof (Z.div_pos (ip_val (net_addr net)) (2 ^ k)). nia. }
  unfold lpm_covers. cbn [fst snd]. rewrite !ip_octets_val, Hv by done. fold k.
  rewrite Z.div_mul, net_contains_spec by lia. fold k. intuition.
Qed.
End covers.
