(* ===== verification/XdpDataplane.v ===== *)
(** * The user-space side of the XDP maps

    Model of [crates/blackwall-xdp/src/dataplane.rs], which writes the maps the
    in-kernel program reads, and of the part of [src/bin/blackwalld/src/main.rs]
    that arms the SYN-cookie fast path. The maps themselves are the kernel's:
    the tries are the class [LpmTrie] with the writes of [LpmWrite], the hash
    maps are finite maps, and any system call may fail, as a script says.

    The theorem of this file is that arming is safe: whichever write fails, the
    port gate is open only when the key, the prefixes and the transmit budget
    are in place. *)
From stdpp Require Import prelude gmap strings.
From S2P Require Import Prelude Net Bytes Flow XdpControl XdpManager XdpMaps.

Open Scope Z_scope.

(** No bit after the prefix is set. *)
Definition canonical (e : Z * list Z) : Prop :=
  be_value e.2 mod 2 ^ (8 * Z.of_nat (length e.2) - e.1) = 0.

(** Writes to the kernel's trie: an insertion adds or replaces an entry, a
    removal finds it or fails. Keys that agree up to the length of their prefix
    are one key; for canonical keys that is equality. *)
Class LpmWrite `{LpmTrie} := {
  lpm_empty : trie;
  lpm_insert : Z * list Z → trie → trie;
  lpm_remove : Z * list Z → trie → option trie;
  lpm_empty_entries : lpm_entries lpm_empty = [];
  lpm_insert_entries : ∀ e t, canonical e → Forall canonical (lpm_entries t) →
    ∀ x, x ∈ lpm_entries (lpm_insert e t) ↔ x = e ∨ x ∈ lpm_entries t;
  lpm_remove_entries : ∀ e t, canonical e → Forall canonical (lpm_entries t) →
    match lpm_remove e t with
    | Some t' => ∀ x, x ∈ lpm_entries t' ↔ x ∈ lpm_entries t ∧ x ≠ e
    | None => e ∉ lpm_entries t
    end;
}.

Inductive XdpError : Type := Load_ | Attach_ | Map_.

Section dataplane.
Context `{IpNetLib} `{LpmWrite} (nr_cpus : nat).

(** The maps, and the outcomes of the system calls to come: a call with no
    outcome left succeeds. *)
Record DataplaneMaps := mk_Maps {
  block_v4 : trie;
  block_v6 : trie;
  rate : gmap (list Z) (list RateBucket);
  cookie_key : option CookieKeyValue;
  protect_v4 : trie;
  protect_v6 : trie;
  protect_port : gset Z;
  redirect_port : gset Z;
  xsks : gmap Z Z;
  tx_budget : list TxBucket;
  script : list bool;
}.

(** The maps of a program that was just attached. *)
Definition maps_new (l : list bool) : DataplaneMaps := {|
  block_v4 := lpm_empty; block_v6 := lpm_empty; rate := ∅; cookie_key := None; protect_v4 := lpm_empty;
  protect_v6 := lpm_empty; protect_port := ∅; redirect_port := ∅; xsks := ∅;
  tx_budget := replicate nr_cpus {| tx_tokens := 0; tx_last_ns := 0; tx_rate_pps := 0 |}; script := l |}.

Definition set_blocks (b4 b6 : trie) (m : DataplaneMaps) : DataplaneMaps :=
  mk_Maps b4 b6 (rate m) (cookie_key m) (protect_v4 m) (protect_v6 m) (protect_port m) (redirect_port m)
    (xsks m) (tx_budget m) (script m).
Definition set_rates (r : gmap (list Z) (list RateBucket)) (m : DataplaneMaps) : DataplaneMaps :=
  mk_Maps (block_v4 m) (block_v6 m) r (cookie_key m) (protect_v4 m) (protect_v6 m) (protect_port m)
    (redirect_port m) (xsks m) (tx_budget m) (script m).
Definition set_cookie (k : CookieKeyValue) (m : DataplaneMaps) : DataplaneMaps :=
  mk_Maps (block_v4 m) (block_v6 m) (rate m) (Some k) (protect_v4 m) (protect_v6 m) (protect_port m)
    (redirect_port m) (xsks m) (tx_budget m) (script m).
Definition set_protect (p4 p6 : trie) (m : DataplaneMaps) : DataplaneMaps :=
  mk_Maps (block_v4 m) (block_v6 m) (rate m) (cookie_key m) p4 p6 (protect_port m) (redirect_port m)
    (xsks m) (tx_budget m) (script m).
Definition set_ports (p r : gset Z) (m : DataplaneMaps) : DataplaneMaps :=
  mk_Maps (block_v4 m) (block_v6 m) (rate m) (cookie_key m) (protect_v4 m) (protect_v6 m) p r (xsks m)
    (tx_budget m) (script m).
Definition set_xsk (x : gmap Z Z) (m : DataplaneMaps) : DataplaneMaps :=
  mk_Maps (block_v4 m) (block_v6 m) (rate m) (cookie_key m) (protect_v4 m) (protect_v6 m) (protect_port m)
    (redirect_port m) x (tx_budget m) (script m).
Definition set_budget (l : list TxBucket) (m : DataplaneMaps) : DataplaneMaps :=
  mk_Maps (block_v4 m) (block_v6 m) (rate m) (cookie_key m) (protect_v4 m) (protect_v6 m) (protect_port m)
    (redirect_port m) (xsks m) l (script m).
Definition set_script (l : list bool) (m : DataplaneMaps) : DataplaneMaps :=
  mk_Maps (block_v4 m) (block_v6 m) (rate m) (cookie_key m) (protect_v4 m) (protect_v6 m) (protect_port m)
    (redirect_port m) (xsks m) (tx_budget m) l.

(** A system call: [f] is its effect, [None] an error it reports itself. *)
Definition syscall (f : DataplaneMaps → option DataplaneMaps) : M DataplaneMaps (result unit XdpError) := λ m,
  let m' := set_script (tail (script m)) m in
  if default true (head (script m)) then
    match f m' with Some m'' => (Ok (), m'') | None => (Err Map_, m') end
  else (Err Map_, m').

(** [m?] followed by [k], also [and_then]. *)
Definition and_then {A B} (m : M DataplaneMaps (result A XdpError)) (k : A → M DataplaneMaps (result B XdpError))
    : M DataplaneMaps (result B XdpError) :=
  r ← m; match r with Ok a => k a | Err e => mret (Err e) end.

Definition rate_key (addr : IpAddr) : list Z :=
  match addr with
  | V4 _ => ip_octets addr ++ replicate 12 0
  | V6 _ => ip_octets addr
  end.

Definition block (net : IpNet) : M DataplaneMaps (result unit XdpError) :=
  match lpm_key net with
  | KeyV4 k => syscall (λ m, Some (set_blocks (lpm_insert (prefixlen4 k, addr4 k) (block_v4 m)) (block_v6 m) m))
  | KeyV6 k => syscall (λ m, Some (set_blocks (block_v4 m) (lpm_insert (prefixlen6 k, addr6 k) (block_v6 m)) m))
  end.

Definition unblock (net : IpNet) : M DataplaneMaps (result unit XdpError) :=
  match lpm_key net with
  | KeyV4 k => syscall (λ m, t ← lpm_remove (prefixlen4 k, addr4 k) (block_v4 m); Some (set_blocks t (block_v6 m) m))
  | KeyV6 k => syscall (λ m, t ← lpm_remove (prefixlen6 k, addr6 k) (block_v6 m); Some (set_blocks (block_v4 m) t m))
  end.

(** The number of CPUs is read from a file, which may fail. *)
Definition rate_limit (addr : IpAddr) (pps burst : Z) : M DataplaneMaps (result unit XdpError) :=
  let bucket := {| rb_tokens := burst; rb_last_ns := 0; rb_rate_pps := pps; rb_burst := burst |} in
  and_then (syscall Some) (λ _,
    syscall (λ m, Some (set_rates (<[rate_key addr := replicate nr_cpus bucket]> (rate m)) m))).

Definition clear_rate_limit (addr : IpAddr) : M DataplaneMaps (result unit XdpError) :=
  syscall (λ m,
    if decide (is_Some (rate m !! rate_key addr)) then Some (set_rates (delete (rate_key addr) (rate m)) m)
    else None).

Definition set_cookie_key (key : list Z) : M DataplaneMaps (result unit XdpError) :=
  syscall (λ m, Some (set_cookie (encode_cookie_key key) m)).

Definition set_syn_cookie_tx_cap (pps : Z) : M DataplaneMaps (result unit XdpError) :=
  let bucket := {| tx_tokens := pps; tx_last_ns := 0; tx_rate_pps := pps |} in
  and_then (syscall Some) (λ _, syscall (λ m, Some (set_budget (replicate nr_cpus bucket) m))).

Definition protect_prefix (net : IpNet) : M DataplaneMaps (result unit XdpError) :=
  match lpm_key net with
  | KeyV4 k => syscall (λ m, Some (set_protect (lpm_insert (prefixlen4 k, addr4 k) (protect_v4 m)) (protect_v6 m) m))
  | KeyV6 k => syscall (λ m, Some (set_protect (protect_v4 m) (lpm_insert (prefixlen6 k, addr6 k) (protect_v6 m)) m))
  end.

Fixpoint set_protected_prefixes (prefixes : list IpNet) : M DataplaneMaps (result unit XdpError) :=
  match prefixes with
  | [] => mret (Ok ())
  | net :: prefixes => and_then (protect_prefix net) (λ _, set_protected_prefixes prefixes)
  end.

Fixpoint set_protected_ports (ports : list Z) : M DataplaneMaps (result unit XdpError) :=
  match ports with
  | [] => mret (Ok ())
  | port :: ports =>
      and_then (syscall (λ m, Some (set_ports ({[port]} ∪ protect_port m) (redirect_port m) m)))
        (λ _, set_protected_ports ports)
  end.

Fixpoint set_redirect_ports (ports : list Z) : M DataplaneMaps (result unit XdpError) :=
  match ports with
  | [] => mret (Ok ())
  | port :: ports =>
      and_then (syscall (λ m, Some (set_ports (protect_port m) ({[port]} ∪ redirect_port m) m)))
        (λ _, set_redirect_ports ports)
  end.

Definition register_xsk (queue_id socket_fd : Z) : M DataplaneMaps (result unit XdpError) :=
  syscall (λ m, Some (set_xsk (<[queue_id := socket_fd]> (xsks m)) m)).

(** [impl XdpExecutor for XdpDataplane] *)
#[export] Instance XdpDataplane_executor : XdpExecutor DataplaneMaps := {|
  xdp_apply a :=
    r ← match a with
        | Block net => block net
        | Unblock net => unblock net
        | RateLimit src pps burst _ => rate_limit src pps burst
        | ClearRate src => clear_rate_limit src
        end;
    mret match r with Ok u => Ok u | Err _ => Err mk_XdpExecError end;
|}.

(** The arming of the fast path by the daemon. *)
Definition activate (secret : list Z) (prefixes : list IpNet) (tx_cap : Z) (ports : list Z)
    : M DataplaneMaps (result unit XdpError) :=
  and_then (set_cookie_key secret) (λ _,
  and_then (set_protected_prefixes prefixes) (λ _,
  and_then (set_syn_cookie_tx_cap tx_cap) (λ _,
  set_protected_ports ports))).

(** ** Reasoning about sequences of system calls *)

(** From [P], [m] ends in [Q] when it succeeds and in [R] when it fails. *)
Definition hoare {A} (P : DataplaneMaps → Prop) (m : M DataplaneMaps (result A XdpError))
    (Q R : DataplaneMaps → Prop) : Prop :=
  ∀ s, P s → match eval m s with Ok _ => Q (exec m s) | Err _ => R (exec m s) end.

Lemma hoare_and_then {A B} P (m : M DataplaneMaps (result A XdpError))
    (k : A → M DataplaneMaps (result B XdpError)) Q1 Q R :
  hoare P m Q1 R → (∀ a, hoare Q1 (k a) Q R) → hoare P (and_then m k) Q R.
Proof.
  intros Hm Hk s Hs. unfold and_then. rewrite eval_bind, exec_bind. specialize (Hm s Hs).
  destruct (eval m s) as [a|]; [by apply Hk|done].
Qed.

Lemma hoare_ret P : hoare P (mret (Ok ())) P P.
Proof. by intros s Hs. Qed.

(** [P] does not look at the outcomes to come. *)
Definition stable (P : DataplaneMaps → Prop) : Prop := ∀ l m, P m → P (set_script l m).

Lemma hoare_syscall P (f : DataplaneMaps → option DataplaneMaps) (Q : DataplaneMaps → Prop) :
  stable P → (∀ m m', P m → f m = Some m' → Q m') → hoare P (syscall f) Q P.
Proof.
  intros Hst Hf s Hs. unfold syscall, eval, exec. specialize (Hst (tail (script s)) s Hs).
  destruct (default true _); [|done]. destruct (f _) as [m'|] eqn:He; [|done]. exact (Hf _ _ Hst He).
Qed.

Lemma hoare_weaken {A} P (m : M DataplaneMaps (result A XdpError)) (Q R Q' R' : DataplaneMaps → Prop) :
  hoare P m Q R → (∀ s, Q s → Q' s) → (∀ s, R s → R' s) → hoare P m Q' R'.
Proof.
  intros Hm HQ HR s Hs. specialize (Hm s Hs). destruct (eval m s); auto.
Qed.

(** ** Arming *)

Definition key_of (net : IpNet) : Z * list Z :=
  (net_prefix_len net, ip_octets (net_addr (net_trunc net))).

Lemma lpm_key_of net :
  lpm_key net = (if ip_is_v4 (net_addr net) then KeyV4 (lpm_key_v4 (key_of net).1 (key_of net).2)
                 else KeyV6 (lpm_key_v6 (key_of net).1 (key_of net).2)).
Proof. unfold lpm_key. pose proof (net_trunc_addr net) as Ht. destruct (net_addr net); simpl in *; by rewrite Ht. Qed.

Lemma ip_octets_bits a : 8 * Z.of_nat (length (ip_octets a)) = ip_bits a.
Proof. rewrite length_ip_octets. by destruct a. Qed.

Lemma key_of_canonical net : ip_wf (net_addr net) → canonical (key_of net).
Proof.
  intros Hw. unfold canonical, key_of. cbn [fst snd]. pose proof (net_len_bound net) as Hl.
  set (k := ip_bits (net_addr net) - net_prefix_len net).
  assert (0 < 2 ^ k) by (apply Z.pow_pos_nonneg; lia).
  assert (ip_bits (net_addr (net_trunc net)) = ip_bits (net_addr net)) as Hb.
  { rewrite net_trunc_addr. by destruct (net_addr net). }
  assert (ip_val (net_addr (net_trunc net)) = ip_val (net_addr net) / 2 ^ k * 2 ^ k) as Hv.
  { rewrite net_trunc_addr. unfold mask_to. by destruct (net_addr net). }
  assert (ip_wf (net_addr (net_trunc net))) as Hw'.
  { unfold ip_wf in *. rewrite Hb, Hv. pose proof (Z.mul_div_le (ip_val (net_addr net)) (2 ^ k)).
    pose proof (Z.div_pos (ip_val (net_addr net)) (2 ^ k)). nia. }
  rewrite ip_octets_bits, ip_octets_val, Hb, Hv by done. fold k. by apply Z.mod_mul; lia.
Qed.

(** The two tries hold the keys of [K], each in the trie of its family. *)
Definition holds (K : LpmKey → Prop) (t4 t6 : trie) : Prop :=
  (∀ e, e ∈ lpm_entries t4 ↔ K (KeyV4 (lpm_key_v4 e.1 e.2))) ∧
  (∀ e, e ∈ lpm_entries t6 ↔ K (KeyV6 (lpm_key_v6 e.1 e.2))).

(** Keys that were encoded from prefixes. *)
Definition encoded (K : LpmKey → Prop) : Prop :=
  ∀ k, K k → ∃ net, ip_wf (net_addr net) ∧ k = lpm_key net.

Lemma holds_canonical K t4 t6 :
  encoded K → holds K t4 t6 → Forall canonical (lpm_entries t4) ∧ Forall canonical (lpm_entries t6).
Proof.
  intros HK [H4 H6]. rewrite !Forall_forall.
  split; intros [len addr] He; [apply H4 in He|apply H6 in He]; apply HK in He as (net & Hw & He);
    rewrite lpm_key_of in He; destruct (ip_is_v4 (net_addr net)); try done; injection He as Hl Ha;
    cbn [fst snd] in Hl, Ha; subst; by apply (key_of_canonical net).
Qed.

Lemma holds_insert K t4 t6 net :
  encoded K → ip_wf (net_addr net) → holds K t4 t6 →
  match lpm_key net with
  | KeyV4 k => holds (λ x, x = lpm_key net ∨ K x) (lpm_insert (prefixlen4 k, addr4 k) t4) t6
  | KeyV6 k => holds (λ x, x = lpm_key net ∨ K x) t4 (lpm_insert (prefixlen6 k, addr6 k) t6)
  end.
Proof.
  intros HK Hw Hh. destruct (holds_canonical _ _ _ HK Hh) as [Hc4 Hc6]. destruct Hh as [H4 H6].
  pose proof (key_of_canonical net Hw) as Hc. rewrite lpm_key_of. destruct (key_of net) as [len addr].
  destruct (ip_is_v4 (net_addr net)); cbn [prefixlen4 addr4 prefixlen6 addr6 lpm_key_v4 lpm_key_v6 fst snd];
    split; intros [l a]; cbn [fst snd].
  - rewrite lpm_insert_entries, H4 by done. unfold lpm_key_v4. naive_solver.
  - rewrite H6. naive_solver.
  - rewrite H4. naive_solver.
  - rewrite lpm_insert_entries, H6 by done. unfold lpm_key_v6. naive_solver.
Qed.

Lemma holds_remove K t4 t6 net :
  encoded K → ip_wf (net_addr net) → holds K t4 t6 →
  match lpm_key net with
  | KeyV4 k => match lpm_remove (prefixlen4 k, addr4 k) t4 with
               | Some t => holds (λ x, K x ∧ x ≠ lpm_key net) t t6
               | None => ¬ K (lpm_key net) end
  | KeyV6 k => match lpm_remove (prefixlen6 k, addr6 k) t6 with
               | Some t => holds (λ x, K x ∧ x ≠ lpm_key net) t4 t
               | None => ¬ K (lpm_key net) end
  end.
Proof.
  intros HK Hw Hh. destruct (holds_canonical _ _ _ HK Hh) as [Hc4 Hc6]. destruct Hh as [H4 H6].
  pose proof (key_of_canonical net Hw) as Hc. rewrite lpm_key_of. destruct (key_of net) as [len addr].
  destruct (ip_is_v4 (net_addr net)); cbn [prefixlen4 addr4 prefixlen6 addr6 lpm_key_v4 lpm_key_v6 fst snd].
  - pose proof (lpm_remove_entries (len, addr) t4 Hc Hc4) as Hr.
    destruct (lpm_remove (len, addr) t4) as [t|]; [|by rewrite H4 in Hr].
    split; intros [l a]; cbn [fst snd]; [rewrite Hr, H4|rewrite H6]; unfold lpm_key_v4, lpm_key_v6; naive_solver.
  - pose proof (lpm_remove_entries (len, addr) t6 Hc Hc6) as Hr.
    destruct (lpm_remove (len, addr) t6) as [t|]; [|by rewrite H6 in Hr].
    split; intros [l a]; cbn [fst snd]; [rewrite H4|rewrite Hr, H6]; unfold lpm_key_v4, lpm_key_v6; naive_solver.
Qed.

(** The keys of a list of prefixes. *)
Definition keys_of (nets : list IpNet) (k : LpmKey) : Prop := ∃ n, n ∈ nets ∧ lpm_key n = k.

Lemma keys_of_encoded nets : Forall (λ n, ip_wf (net_addr n)) nets → encoded (keys_of nets).
Proof.
  rewrite Forall_forall. intros Hw k (n & Hn & <-). exists n. split; [by apply Hw|done].
Qed.

Lemma holds_ext K K' t4 t6 : (∀ k, K k ↔ K' k) → holds K t4 t6 → holds K' t4 t6.
Proof. intros HK [H4 H6]. split; intros e; by rewrite <-HK. Qed.

(** ** Arming *)

Section arming.
Context (secret : list Z) (prefixes : list IpNet) (tx_cap : Z) (ports : list Z).

Definition closed (m : DataplaneMaps) : Prop := protect_port m = ∅.

(** All that the port gate protects is in place. *)
Definition ready (m : DataplaneMaps) : Prop :=
  cookie_key m = Some (encode_cookie_key secret) ∧
  holds (keys_of prefixes) (protect_v4 m) (protect_v6 m) ∧
  tx_budget m = replicate nr_cpus {| tx_tokens := tx_cap; tx_last_ns := 0; tx_rate_pps := tx_cap |}.

Lemma arm_prefixes nets done :
  Forall (λ n, ip_wf (net_addr n)) (done ++ nets) →
  hoare (λ m, closed m ∧ cookie_key m = Some (encode_cookie_key secret) ∧
              holds (keys_of done) (protect_v4 m) (protect_v6 m))
    (set_protected_prefixes nets)
    (λ m, closed m ∧ cookie_key m = Some (encode_cookie_key secret) ∧
          holds (keys_of (done ++ nets)) (protect_v4 m) (protect_v6 m))
    closed.
Proof.
  revert done. induction nets as [|net nets IH]; intros done Hw; cbn [set_protected_prefixes].
  { rewrite app_nil_r. intros s Hs. exact Hs. }
  apply Forall_app in Hw as Hw'. destruct Hw' as [Hd Hn]. apply Forall_cons in Hn as [Hnet Hn].
  eapply hoare_and_then; [|intros _; rewrite (cons_middle net done nets), app_assoc; apply IH;
    rewrite <-app_assoc; exact Hw].
  unfold protect_prefix.
  assert (∀ m, holds (keys_of done) (protect_v4 m) (protect_v6 m) → match lpm_key net with
    | KeyV4 k => holds (keys_of (done ++ [net])) (lpm_insert (prefixlen4 k, addr4 k) (protect_v4 m)) (protect_v6 m)
    | KeyV6 k => holds (keys_of (done ++ [net])) (protect_v4 m) (lpm_insert (prefixlen6 k, addr6 k) (protect_v6 m))
    end) as Hins.
  { intros m Hh. pose proof (holds_insert _ _ _ net (keys_of_encoded done Hd) Hnet Hh) as Hi.
    assert (∀ k, k = lpm_key net ∨ keys_of done k ↔ keys_of (done ++ [net]) k) as Hk.
    { intros k. unfold keys_of. setoid_rewrite elem_of_app. setoid_rewrite list_elem_of_singleton. naive_solver. }
    destruct (lpm_key net); exact (holds_ext _ _ _ _ Hk Hi). }
  destruct (lpm_key net) as [k|k];
    (eapply hoare_weaken; [apply hoare_syscall|intros m Hm; exact Hm|by intros m (? & _)]);
    try (intros l m Hm; exact Hm); intros m m' (Hc & Hk & Hh) [= <-];
    (split; [exact Hc|split; [exact Hk|exact (Hins m Hh)]]).
Qed.

Lemma arm_ports l admitted :
  hoare (λ m, ready m ∧ protect_port m = list_to_set admitted) (set_protected_ports l)
    (λ m, ready m ∧ protect_port m = list_to_set (admitted ++ l))
    (λ m, ready m ∧ protect_port m ⊆ list_to_set (admitted ++ l)).
Proof.
  revert admitted. induction l as [|p l IH]; intros admitted; cbn [set_protected_ports].
  { rewrite app_nil_r. by intros s Hs. }
  rewrite (cons_middle p admitted l), app_assoc.
  eapply hoare_and_then; [|intros _; apply (IH (admitted ++ [p]))].
  eapply hoare_weaken; [apply hoare_syscall|intros m Hm; exact Hm|].
  - intros k m Hm. exact Hm.
  - intros m m' [Hr Hp] [= <-]. split; [exact Hr|]. cbn. rewrite Hp, list_to_set_app_L. set_solver.
  - intros m [Hr Hp]. split; [exact Hr|]. rewrite Hp, !list_to_set_app_L. set_solver.
Qed.

Lemma arm_cap :
  hoare (λ m, closed m ∧ cookie_key m = Some (encode_cookie_key secret) ∧
              holds (keys_of prefixes) (protect_v4 m) (protect_v6 m))
    (set_syn_cookie_tx_cap tx_cap)
    (λ m, ready m ∧ protect_port m = list_to_set []) closed.
Proof.
  unfold set_syn_cookie_tx_cap. eapply hoare_and_then; [|intros _].
  - eapply hoare_weaken; [apply hoare_syscall|intros m Hm; exact Hm|intros m Hm; exact (proj1 Hm)].
    + intros k m Hm. exact Hm.
    + intros m m' Hm [= <-]. exact Hm.
  - eapply hoare_weaken; [apply hoare_syscall|intros m Hm; exact Hm|intros m Hm; exact (proj1 Hm)].
    + intros k m Hm. exact Hm.
    + intros m m' (Hc & Hk & Hh) [= <-]. split; [|exact Hc]. split; [exact Hk|]. by split; [exact Hh|].
Qed.

Lemma arm_all :
  Forall (λ n, ip_wf (net_addr n)) prefixes →
  hoare (λ m, closed m ∧ holds (keys_of []) (protect_v4 m) (protect_v6 m))
    (activate secret prefixes tx_cap ports)
    (λ m, ready m ∧ protect_port m = list_to_set ports)
    (λ m, (closed m ∨ ready m) ∧ protect_port m ⊆ list_to_set ports).
Proof.
  intros Hw. unfold activate.
  assert (∀ m, closed m → (closed m ∨ ready m) ∧ protect_port m ⊆ list_to_set ports) as Hcl.
  { intros m Hm. split; [by left|]. unfold closed in Hm. rewrite Hm. set_solver. }
  eapply hoare_and_then; [|intros _; eapply hoare_and_then; [|intros _; eapply hoare_and_then]].
  - eapply hoare_weaken; [apply (hoare_syscall _ _ (λ m, closed m ∧
      cookie_key m = Some (encode_cookie_key secret) ∧ holds (keys_of []) (protect_v4 m) (protect_v6 m)))| |].
    + intros k m Hm. exact Hm.
    + intros m m' [Hc Hh] [= <-]. split; [exact Hc|split; [done|exact Hh]].
    + intros m Hm. exact Hm.
    + intros m [Hm _]. by apply Hcl.
  - eapply hoare_weaken; [apply (arm_prefixes prefixes []); exact Hw|intros m Hm; exact Hm|exact Hcl].
  - eapply hoare_weaken; [exact arm_cap|intros m Hm; exact Hm|exact Hcl].
  - intros _. eapply hoare_weaken; [apply (arm_ports ports [])|intros m Hm; exact Hm|].
    intros m [Hr Hp]. split; [by right|exact Hp].
Qed.

(** Arming the SYN-cookie fast path is safe at every step. Whichever system
    call of the sequence fails, the gate admits a port only when the cookie key
    is the shared secret, the protected prefixes are exactly the configured
    ones, and the transmit budget of every CPU is the configured one; and when
    the sequence succeeds, the gate admits exactly the configured ports. *)
Theorem cookie_arming_safe l :
  Forall (λ n, ip_wf (net_addr n)) prefixes →
  let m := exec (activate secret prefixes tx_cap ports) (maps_new l) in
  (protect_port m ≠ ∅ → ready m) ∧ (∀ p, p ∈ protect_port m → p ∈ ports) ∧
  (eval (activate secret prefixes tx_cap ports) (maps_new l) = Ok () →
     ready m ∧ ∀ p, p ∈ ports → p ∈ protect_port m).
Proof.
  intros Hw m.
  assert (closed (maps_new l) ∧
    holds (keys_of []) (protect_v4 (maps_new l)) (protect_v6 (maps_new l))) as Hnew.
  { split; [done|]. split; intros e; cbn; rewrite lpm_empty_entries, elem_of_nil; (split; [done|]);
      by intros (n & ?%elem_of_nil & _). }
  pose proof (arm_all Hw (maps_new l) Hnew) as Ha. fold m in Ha.
  destruct (eval (activate _ _ _ _) _) as [[]|] eqn:He.
  - destruct Ha as [Hr Hp]. rewrite Hp. split_and!; [done|set_solver..].
  - destruct Ha as [[Hc|Hr] Hp]; split_and!; try done; set_solver.
Qed.
End arming.
End dataplane.

(** The key of the rate map does not tell an IPv4 address from the IPv6 address
    that begins with its octets. *)
Lemma rate_key_families_collide :
  rate_key (ipv4 10 1 2 3) = rate_key (V6 (be_value ([10; 1; 2; 3] ++ replicate 12 0))).
Proof. vm_refl. Qed.

(** The list of entries of [RefTrie], written. *)
Module RefTrieWrite.
#[local] Existing Instance RefTrie.lib.

#[export] Program Instance lib : LpmWrite := {|
  lpm_empty := ([] : list (Z * list Z));
  lpm_insert e t := e :: filter (λ x, x ≠ e) (t : list (Z * list Z));
  lpm_remove e t := if decide (e ∈ (t : list (Z * list Z))) then Some (filter (λ x, x ≠ e) t) else None;
|}.
Next Obligation. done. Qed.
Next Obligation.
  intros e t _ _ x. cbn. rewrite elem_of_cons, list_elem_of_filter. destruct (decide (x = e)); naive_solver.
Qed.
Next Obligation.
  intros e t _ _. cbn. case_decide; [|done]. intros x. rewrite list_elem_of_filter. naive_solver.
Qed.
End RefTrieWrite.
