(* ===== verification/Ebpf.v ===== *)
(** * The XDP program

    [crates/blackwall-xdp-ebpf/src/main.rs]: the in-kernel filter that runs on
    every received frame, on one CPU. The frame is a byte buffer the program
    rewrites in place; [Xdp] holds it together with the maps the program
    writes (this CPU's rate buckets, counters and mint budget, and the capture
    ring), [Config] the maps only user space writes. A fallible function of the
    source ([Result<_, ()>]) is a computation of the monad [X], which keeps the
    changes made before a failure, as the program does. The header structs of
    the [network_types] crate are the standard wire layouts and appear as the
    offsets of the fields read. The kernel's clock, ring buffer and socket map
    are parameters. *)
From stdpp Require Import prelude gmap sorting.
From S2P Require Import Prelude Net Bytes Cookie XdpMaps.

Open Scope Z_scope.

(** [xdp_action]. *)
Definition XDP_DROP : Z := 1.
Definition XDP_PASS : Z := 2.
Definition XDP_TX : Z := 3.
Definition XDP_REDIRECT : Z := 4.

(** Packet offsets. *)
Definition OFF_MAC_DST : nat := 0.
Definition OFF_MAC_SRC : nat := 6.
Definition OFF_IP : nat := 14.
Definition OFF_IP_CHECK : nat := OFF_IP + 10.
Definition OFF_IP_SRC : nat := OFF_IP + 12.
Definition OFF_IP_DST : nat := OFF_IP + 16.
Definition OFF_TCP : nat := OFF_IP + 20.
Definition OFF_TCP_SRCPORT : nat := OFF_TCP.
Definition OFF_TCP_DSTPORT : nat := OFF_TCP + 2.
Definition OFF_UDP_DSTPORT : nat := OFF_TCP + 2.
Definition OFF_TCP_SEQ : nat := OFF_TCP + 4.
Definition OFF_TCP_CHECK : nat := OFF_TCP + 16.
Definition OFF_TCP_OPTS : nat := OFF_TCP + 20.
Definition OFF_IP6 : nat := 14.
Definition OFF_IP6_SRC : nat := OFF_IP6 + 8.
Definition OFF_IP6_DST : nat := OFF_IP6 + 24.
Definition OFF_TCP6 : nat := OFF_IP6 + 40.
Definition OFF_TCP6_SRCPORT : nat := OFF_TCP6.
Definition OFF_TCP6_DSTPORT : nat := OFF_TCP6 + 2.
Definition OFF_TCP6_SEQ : nat := OFF_TCP6 + 4.
Definition OFF_TCP6_CHECK : nat := OFF_TCP6 + 16.
Definition OFF_TCP6_OPTS : nat := OFF_TCP6 + 20.

Definition TCP_FLAGS_SYN_ACK : Z := 18.
Definition SYNACK_WINDOW : Z := 65535.
Definition DEFAULT_CLIENT_MSS : Z := 1460.
Definition MAX_TCP_OPTS : nat := 40.
Definition MAX_TCP_SEG : nat := 64.
Definition NS_PER_SEC : Z := 1000000000.
Definition TX_BUDGET_BURST_MAX : Z := 1000000.

(** ** State *)

Record Config `{LpmTrie} := {
  BLOCK_V4 : trie;
  BLOCK_V6 : trie;
  PROTECT_V4 : trie;
  PROTECT_V6 : trie;
  PROTECT_PORT : gset Z;
  REDIRECT_PORT : gset Z;
  COOKIE_KEY : option CookieKeyValue;
  CAPTURE_ENABLED : option Z;
}.

Record Xdp := {
  frame : list Z;
  RATE : gmap (list Z) RateBucket;
  STATS : gmap Z Stat;
  TX_BUDGET : option TxBucket;
  CAPTURE : list CaptureFrame;
  ktime_calls : nat;
}.

Definition set_frame (f : list Z) (s : Xdp) : Xdp := {|
  frame := f; RATE := RATE s; STATS := STATS s; TX_BUDGET := TX_BUDGET s; CAPTURE := CAPTURE s;
  ktime_calls := ktime_calls s |}.
Definition set_rate (r : gmap (list Z) RateBucket) (s : Xdp) : Xdp := {|
  frame := frame s; RATE := r; STATS := STATS s; TX_BUDGET := TX_BUDGET s; CAPTURE := CAPTURE s;
  ktime_calls := ktime_calls s |}.
Definition set_stats (m : gmap Z Stat) (s : Xdp) : Xdp := {|
  frame := frame s; RATE := RATE s; STATS := m; TX_BUDGET := TX_BUDGET s; CAPTURE := CAPTURE s;
  ktime_calls := ktime_calls s |}.
Definition set_tx (b : TxBucket) (s : Xdp) : Xdp := {|
  frame := frame s; RATE := RATE s; STATS := STATS s; TX_BUDGET := Some b; CAPTURE := CAPTURE s;
  ktime_calls := ktime_calls s |}.
Definition push_capture (c : CaptureFrame) (s : Xdp) : Xdp := {|
  frame := frame s; RATE := RATE s; STATS := STATS s; TX_BUDGET := TX_BUDGET s;
  CAPTURE := CAPTURE s ++ [c]; ktime_calls := ktime_calls s |}.
Definition tick_clock (s : Xdp) : Xdp := {|
  frame := frame s; RATE := RATE s; STATS := STATS s; TX_BUDGET := TX_BUDGET s; CAPTURE := CAPTURE s;
  ktime_calls := S (ktime_calls s) |}.

(** [Result<A, ()>] on the state; [None] is [Err(())]. *)
Definition X (A : Type) : Type := Xdp → option A * Xdp.
#[export] Instance x_ret : MRet X := λ A a s, (Some a, s).
#[export] Instance x_bind : MBind X := λ A B f m s,
  match m s with (Some a, s') => f a s' | (None, s') => (None, s') end.
Definition err {A} : X A := λ s, (None, s).
Definition act (f : Xdp → Xdp) : X unit := λ s, (Some (), f s).
Definition reads {A} (f : Xdp → A) : X A := λ s, (Some (f s), s).

(** [if let Ok(a) = m { k(a) } else { rest }]. *)
Definition if_ok {A B} (m : X A) (k : A → X B) (rest : X B) : X B := λ s,
  match m s with (Some a, s') => k a s' | (None, s') => rest s' end.

(** ** Packet access *)

(** [ptr_at::<T>(ctx, offset)] for a type of [n] bytes: the bytes there. *)
Definition ptr_at (offset n : nat) : X (list Z) := λ s,
  if (length (frame s) <? offset + n)%nat then (None, s)
  else (Some (take n (drop offset (frame s))), s).

Definition load_u8 (offset : nat) : X Z := λ s,
  match frame s !! offset with Some b => (Some b, s) | None => (None, s) end.

Definition store_u8 (offset : nat) (value : Z) : X unit := λ s,
  if (length (frame s) <? offset + 1)%nat then (None, s)
  else (Some (), set_frame (<[offset := Z.land value 255]> (frame s)) s).

Definition load_be16 (offset : nat) : X Z :=
  hi ← load_u8 offset; lo ← load_u8 (offset + 1); mret (Z.lor (Z.shiftl hi 8) lo).

Definition store_be16 (offset : nat) (value : Z) : X unit :=
  store_u8 offset (Z.shiftr value 8) ;; store_u8 (offset + 1) (Z.land value 255).

Definition load_be32 (offset : nat) : X Z :=
  hi ← load_be16 offset; lo ← load_be16 (offset + 2); mret (Z.lor (Z.shiftl hi 16) lo).

Definition store_be32 (offset : nat) (value : Z) : X unit :=
  store_be16 offset (Z.shiftr value 16) ;; store_be16 (offset + 2) (Z.land value 65535).

Definition load_addr16 (offset : nat) : X (list Z) := ptr_at offset 16.

(** [u32] addition. *)
Definition add32 (a b : Z) : Z := (a + b) mod (u32_max + 1).

(** The sum over consecutive big-endian words of an array. *)
Fixpoint sum_words (l : list Z) (sum : Z) : Z :=
  match l with
  | a :: b :: l => sum_words l (add32 sum (be_value [a; b]))
  | _ => sum
  end.

Definition sum_addr16 (addr : list Z) : Z := sum_words addr 0.

(** The loop of [swap_bytes], from [k] on. *)
Fixpoint swap_from (n k a b : nat) : X unit :=
  match n with
  | O => mret ()
  | S n =>
      x ← load_u8 (a + k); y ← load_u8 (b + k);
      store_u8 (a + k) y ;; store_u8 (b + k) x ;; swap_from n (S k) a b
  end.

Definition swap_bytes (n a b : nat) : X unit := swap_from n 0 a b.

Definition fold_checksum (sum : Z) : Z :=
  let sum := add32 (Z.land sum 65535) (Z.shiftr sum 16) in
  let sum := add32 (Z.land sum 65535) (Z.shiftr sum 16) in
  65535 - sum mod 65536.

Section program.
Context `{SipHash} `{LpmTrie} (cfg : Config).
(** The value of the [n]-th call of [bpf_ktime_get_ns], whether the ring has
    room, the frame's receive queue, and [XskMap::redirect]. *)
Context (ktime : nat → Z) (ring_has_room : list CaptureFrame → bool).
Context (rx_queue_index : Z) (xsk_redirect : Z → option Z).

Definition bpf_ktime_get_ns : X Z := λ s, (Some (ktime (ktime_calls s)), tick_clock s).

Definition count (reason bytes : Z) : X unit := act (λ s,
  match STATS s !! reason with
  | Some st => set_stats (<[reason := {| packets := (packets st + 1) mod (u64_max + 1);
                                         stat_bytes := (stat_bytes st + bytes) mod (u64_max + 1) |}]> (STATS s)) s
  | None => s
  end).

Definition capture_enabled : bool :=
  match CAPTURE_ENABLED cfg with Some v => negb (v =? 0) | None => false end.

(** [snapshot_bytes::<N>]: [bpf_xdp_load_bytes] fails on a shorter frame. *)
Definition snapshot_bytes (n : nat) (s : Xdp) : bool := (n <=? length (frame s))%nat.

Definition capture (reason verdict frame_len : Z) : X unit := λ s,
  if negb capture_enabled then (Some (), s)
  else if negb (ring_has_room (CAPTURE s)) then (Some (), s)
  else
    let cap := if snapshot_bytes CAP_SNAP_LEN s then CAP_SNAP_LEN
               else if snapshot_bytes 64 s then 64%nat
               else if snapshot_bytes 32 s then 32%nat
               else if snapshot_bytes 20 s then 20%nat
               else if snapshot_bytes 14 s then 14%nat
               else 0%nat in
    if (cap =? 0)%nat then (Some (), s)
    else
      (now ← bpf_ktime_get_ns;
       act (push_capture {|
         cf_header := {| timestamp_ns := now; cr_reason := reason; cr_verdict := verdict;
                         pkt_len := frame_len mod (u32_max + 1); cap_len := Z.of_nat cap |};
         cf_data := take cap (frame s) |})) s.

Definition cookie_keys : X (Z * Z) :=
  match COOKIE_KEY cfg with Some v => mret (ckv_k0 v, ckv_k1 v) | None => err end.

Definition parse_mss (opts_off : nat) : X Z :=
  kind ← load_u8 opts_off;
  len ← load_u8 (opts_off + 1);
  if (kind =? 2) && (len =? 4) then load_be16 (opts_off + 2) else mret DEFAULT_CLIENT_MSS.

(** The NOP padding loop, [n] more rounds from [k] on. *)
Fixpoint pad_from (n k opts_off options_len : nat) : X unit :=
  match n with
  | O => mret ()
  | S n =>
      if (options_len <=? k)%nat then mret ()
      else store_u8 (opts_off + k) 1 ;; pad_from n (S k) opts_off options_len
  end.

Definition write_mss_option (opts_off options_len : nat) (mss : Z) : X unit :=
  store_u8 opts_off 2 ;;
  store_u8 (opts_off + 1) 4 ;;
  store_be16 (opts_off + 2) mss ;;
  pad_from (MAX_TCP_OPTS - 4) 4 opts_off options_len.

Definition ipv4_checksum : X Z :=
  bytes ← ptr_at OFF_IP 20; mret (fold_checksum (sum_words bytes 0)).

Definition blocked_v4 (addr : list Z) : bool := bool_decide (is_Some (lpm_get (BLOCK_V4 cfg) addr)).
Definition blocked_v6 (addr : list Z) : bool := bool_decide (is_Some (lpm_get (BLOCK_V6 cfg) addr)).
Definition protected_v4 (dst : list Z) : bool := bool_decide (is_Some (lpm_get (PROTECT_V4 cfg) dst)).
Definition protected_v6 (dst : list Z) : bool := bool_decide (is_Some (lpm_get (PROTECT_V6 cfg) dst)).
Definition protected_port (port : Z) : bool := bool_decide (port ∈ PROTECT_PORT cfg).
Definition redirect_port (port : Z) : bool := bool_decide (port ∈ REDIRECT_PORT cfg).

(** ** Token buckets *)

Definition mul64 (a b : Z) : Z := (a * b) mod (u64_max + 1).

(** Refill and take one token: the bucket after, and whether one was taken. *)
Definition take_token (now : Z) (b : RateBucket) : bool * RateBucket :=
  let elapsed_ns := Z.max 0 (now - rb_last_ns b) in
  let refill := mul64 elapsed_ns (rb_rate_pps b) / NS_PER_SEC in
  let tokens := Z.min (u64_sat_add (rb_tokens b) refill) (rb_burst b) in
  let b' t := {| rb_tokens := t; rb_last_ns := now; rb_rate_pps := rb_rate_pps b; rb_burst := rb_burst b |} in
  if tokens =? 0 then (false, b' tokens) else (true, b' (tokens - 1)).

Definition check_rate (src : list Z) (now : Z) : X bool := λ s,
  match RATE s !! src with
  | Some b =>
      let '(ok, b') := take_token now b in (Some (negb ok), set_rate (<[src := b']> (RATE s)) s)
  | None => (Some false, s)
  end.

Definition over_rate (src : list Z) : X bool := now ← bpf_ktime_get_ns; check_rate src now.

Definition tx_budget_ok (now : Z) : X bool := λ s,
  match TX_BUDGET s with
  | None => (Some true, s)
  | Some b =>
      if tx_rate_pps b =? 0 then (Some true, s)
      else
        let elapsed_ns := Z.max 0 (now - tx_last_ns b) in
        let burst := Z.min (mul64 (tx_rate_pps b) 2) TX_BUDGET_BURST_MAX in
        let refill := mul64 elapsed_ns (tx_rate_pps b) / NS_PER_SEC in
        let tokens := Z.min (u64_sat_add (tx_tokens b) refill) burst in
        let b' t := {| tx_tokens := t; tx_last_ns := now; tx_rate_pps := tx_rate_pps b |} in
        if tokens =? 0 then (Some false, set_tx (b' tokens) s)
        else (Some true, set_tx (b' (tokens - 1)) s)
  end.

(** ** The SYN-cookie fast path *)

Definition frame_len : X Z := reads (λ s, Z.of_nat (length (frame s))).

(** The lookup of byte [i] of a header that was bounds-checked. *)
Definition byte_at (l : list Z) (i : nat) : Z := default 0 (l !! i).
Definition be16_at (l : list Z) (i : nat) : Z := be_value [byte_at l i; byte_at l (i + 1)].

(** [cookie core] calls: a panic of the core would abort the program; it has
    none (see [cookie_for_slot_eq]). *)
Definition mint (k0 k1 : Z) (src : list Z) (src_port : Z) (dst : list Z) (dst_port client_mss now_secs : Z)
    : X (Z * Z) :=
  match make_cookie_raw k0 k1 src src_port dst dst_port client_mss now_secs with
  | Ret r => mret r
  | _ => err
  end.

Definition compute_cookie_v6 (k0 k1 : Z) : X (Z * Z) :=
  now ← bpf_ktime_get_ns;
  let now_secs := now / NS_PER_SEC in
  src ← load_addr16 OFF_IP6_SRC;
  dst ← load_addr16 OFF_IP6_DST;
  src_port ← load_be16 OFF_TCP6_SRCPORT;
  dst_port ← load_be16 OFF_TCP6_DSTPORT;
  client_mss ← parse_mss OFF_TCP6_OPTS;
  mint k0 k1 src src_port dst dst_port client_mss now_secs.

(** The analytic TCP checksum: [addr_sum] is the sum of the two addresses. *)
Definition synack_checksum (addr_sum dst_port src_port cookie_seq ack : Z) (doff options_len seg_len : nat)
    (mss : Z) : Z :=
  let sum := add32 addr_sum 6 in
  let sum := add32 sum (Z.of_nat seg_len) in
  let sum := add32 sum dst_port in
  let sum := add32 sum src_port in
  let sum := add32 sum (add32 (Z.shiftr cookie_seq 16) (Z.land cookie_seq 65535)) in
  let sum := add32 sum (add32 (Z.shiftr ack 16) (Z.land ack 65535)) in
  let sum := add32 sum (Z.lor (Z.shiftl (Z.of_nat doff) 12) 18) in
  let sum := add32 sum SYNACK_WINDOW in
  let sum := add32 sum 516 in
  let sum := add32 sum mss in
  let nop_words := ((options_len - 4) / 2)%nat in
  let sum := add32 sum (Z.of_nat nop_words * 257) in
  fold_checksum sum.

(** The budget gate: the packet is counted as capped when it is refused. *)
Definition budget_gate (now_ns : Z) : X unit :=
  ok ← tx_budget_ok now_ns;
  if negb ok then len ← frame_len; count REASON_SYNCOOKIE_TXCAPPED len ;; err else mret ().

(** What the fast path reads of a SYN before it changes anything. *)
Record Syn := {
  syn_src : list Z; syn_src_port : Z; syn_dst : list Z; syn_dst_port : Z;
  syn_doff : nat; syn_seq : Z;
}.

Definition tcp_hdr_len (y : Syn) : nat := syn_doff y * 4.
Definition options_len (y : Syn) : nat := tcp_hdr_len y - 20.

(** The guards on the TCP header length, shared by the two versions:
    [total] is the length the IP header announces for [20 + fixed] bytes of
    headers and the segment. *)
Definition length_guard (doff fixed total : nat) : bool :=
  let tcp_hdr_len := (doff * 4)%nat in
  let options_len := (tcp_hdr_len - 20)%nat in
  negb (doff <? 5)%nat && negb ((options_len <? 4)%nat || (MAX_TCP_OPTS <? options_len)%nat) &&
  (total =? fixed + tcp_hdr_len)%nat && negb (MAX_TCP_SEG <? tcp_hdr_len)%nat.

Definition read_syn_v4 : X Syn :=
  ip ← ptr_at OFF_IP 20;
  let ihl := Z.land (byte_at ip 0) 15 in
  let proto := byte_at ip 9 in
  if negb (ihl =? 5) || negb (proto =? 6) then err
  else
    let ip_total := Z.to_nat (be16_at ip 2) in
    tcp ← ptr_at OFF_TCP 20;
    let is_syn := Z.testbit (byte_at tcp 13) 1 in
    let is_ack := Z.testbit (byte_at tcp 13) 4 in
    if negb is_syn || is_ack then err
    else
      d0 ← load_u8 OFF_IP_DST; d1 ← load_u8 (OFF_IP_DST + 1);
      d2 ← load_u8 (OFF_IP_DST + 2); d3 ← load_u8 (OFF_IP_DST + 3);
      let dst := [d0; d1; d2; d3] in
      dst_port ← load_be16 OFF_TCP_DSTPORT;
      if negb (protected_port dst_port) || negb (protected_v4 dst) then err
      else
        let doff := Z.to_nat (Z.shiftr (byte_at tcp 12) 4) in
        if negb (length_guard doff 20 ip_total) then err
        else
          s0 ← load_u8 OFF_IP_SRC; s1 ← load_u8 (OFF_IP_SRC + 1);
          s2 ← load_u8 (OFF_IP_SRC + 2); s3 ← load_u8 (OFF_IP_SRC + 3);
          src_port ← load_be16 OFF_TCP_SRCPORT;
          client_seq ← load_be32 OFF_TCP_SEQ;
          mret {| syn_src := [s0; s1; s2; s3]; syn_src_port := src_port; syn_dst := dst;
                  syn_dst_port := dst_port; syn_doff := doff; syn_seq := client_seq |}.

(** The stores into the TCP header at [tcp] and the options after it. *)
Definition write_synack (tcp : nat) (y : Syn) (cookie_seq ack mss : Z) : X unit :=
  store_u8 (tcp + 12) (Z.shiftl (Z.of_nat (syn_doff y)) 4) ;;
  store_be32 (tcp + 4) cookie_seq ;;
  store_be32 (tcp + 8) ack ;;
  store_u8 (tcp + 13) TCP_FLAGS_SYN_ACK ;;
  store_be16 (tcp + 14) SYNACK_WINDOW ;;
  store_be16 (tcp + 18) 0 ;;
  write_mss_option (tcp + 20) (options_len y) mss.

(** The in-place SYN to SYN-ACK surgery. *)
Definition reply_v4 (y : Syn) (cookie_seq mss : Z) : X Z :=
  let ack := add32 (syn_seq y) 1 in
  swap_bytes 6 OFF_MAC_DST OFF_MAC_SRC ;;
  swap_bytes 4 OFF_IP_SRC OFF_IP_DST ;;
  swap_bytes 2 OFF_TCP_SRCPORT OFF_TCP_DSTPORT ;;
  write_synack OFF_TCP y cookie_seq ack mss ;;
  store_be16 OFF_IP_CHECK 0 ;;
  ip_check ← ipv4_checksum;
  store_be16 OFF_IP_CHECK ip_check ;;
  let addr_sum := sum_words (syn_src y ++ syn_dst y) 0 in
  store_be16 OFF_TCP_CHECK
    (synack_checksum addr_sum (syn_dst_port y) (syn_src_port y) cookie_seq ack
       (syn_doff y) (options_len y) (tcp_hdr_len y) mss) ;;
  mret XDP_TX.

Definition try_synack_v4 : X Z :=
  y ← read_syn_v4;
  client_mss ← parse_mss OFF_TCP_OPTS;
  '(k0, k1) ← cookie_keys;
  now_ns ← bpf_ktime_get_ns;
  let now_secs := now_ns / NS_PER_SEC in
  budget_gate now_ns ;;
  '(cookie_seq, mss) ← mint k0 k1 (syn_src y) (syn_src_port y) (syn_dst y) (syn_dst_port y)
    client_mss now_secs;
  reply_v4 y cookie_seq mss.

(** The source address is not read before the cookie is computed; [syn_src] is
    left empty. *)
Definition read_syn_v6 : X Syn :=
  ip ← ptr_at OFF_IP6 40;
  let next_hdr := byte_at ip 6 in
  if negb (next_hdr =? 6) then err
  else
    let payload_len := Z.to_nat (be16_at ip 4) in
    tcp ← ptr_at OFF_TCP6 20;
    let is_syn := Z.testbit (byte_at tcp 13) 1 in
    let is_ack := Z.testbit (byte_at tcp 13) 4 in
    if negb is_syn || is_ack then err
    else
      dst_port ← load_be16 OFF_TCP6_DSTPORT;
      if negb (protected_port dst_port) then err
      else
        dst ← load_addr16 OFF_IP6_DST;
        if negb (protected_v6 dst) then err
        else
          let doff := Z.to_nat (Z.shiftr (byte_at tcp 12) 4) in
          if negb (length_guard doff 0 payload_len) then err
          else
            src_port ← load_be16 OFF_TCP6_SRCPORT;
            client_seq ← load_be32 OFF_TCP6_SEQ;
            mret {| syn_src := []; syn_src_port := src_port; syn_dst := dst;
                    syn_dst_port := dst_port; syn_doff := doff; syn_seq := client_seq |}.

Definition reply_v6 (y : Syn) (cookie_seq mss : Z) : X Z :=
  let ack := add32 (syn_seq y) 1 in
  swap_bytes 6 OFF_MAC_DST OFF_MAC_SRC ;;
  swap_bytes 16 OFF_IP6_SRC OFF_IP6_DST ;;
  swap_bytes 2 OFF_TCP6_SRCPORT OFF_TCP6_DSTPORT ;;
  write_synack OFF_TCP6 y cookie_seq ack mss ;;
  a ← load_addr16 OFF_IP6_SRC;
  b ← load_addr16 OFF_IP6_DST;
  let addr_sum := add32 (sum_addr16 a) (sum_addr16 b) in
  store_be16 OFF_TCP6_CHECK
    (synack_checksum addr_sum (syn_dst_port y) (syn_src_port y) cookie_seq ack
       (syn_doff y) (options_len y) (tcp_hdr_len y) mss) ;;
  mret XDP_TX.

Definition try_synack_v6 : X Z :=
  y ← read_syn_v6;
  '(k0, k1) ← cookie_keys;
  now_ns ← bpf_ktime_get_ns;
  budget_gate now_ns ;;
  '(cookie_seq, mss) ← compute_cookie_v6 k0 k1;
  reply_v6 y cookie_seq mss.

(** ** The filter *)

Definition try_redirect_udp_v4 : X Z :=
  ip ← ptr_at OFF_IP 20;
  let ihl := Z.land (byte_at ip 0) 15 in
  let proto := byte_at ip 9 in
  if negb (ihl =? 5) || negb (proto =? 17) then err
  else
    dst_port ← load_be16 OFF_UDP_DSTPORT;
    if negb (redirect_port dst_port) then err
    else mret (default XDP_PASS (xsk_redirect rx_queue_index)).

(** [count], [capture] and the verdict. *)
Definition decide_as (reason action len : Z) : X Z :=
  count reason len ;; capture reason action len ;; mret action.

(** The blocklist and the rate limit of a source, then [rest]. *)
Definition screen (blocked : bool) (key16 : list Z) (len : Z) (rest : X Z) : X Z :=
  if blocked then decide_as REASON_BLOCKLIST XDP_DROP len
  else
    over ← over_rate key16;
    if (over : bool) then decide_as REASON_RATELIMIT XDP_DROP len else rest.

Definition try_filter : X Z :=
  len ← frame_len;
  eth ← ptr_at 0 14;
  let ethertype := be16_at eth 12 in
  let pass := decide_as REASON_PASS XDP_PASS len in
  if ethertype =? 2048 then
    ip ← ptr_at OFF_IP 20;
    let src := take 4 (drop 12 ip) in
    screen (blocked_v4 src) (src ++ replicate 12 0) len
      (if_ok try_redirect_udp_v4 (λ action, decide_as REASON_REDIRECT action len)
        (if_ok try_synack_v4 (λ action, decide_as REASON_SYNCOOKIE action len) pass))
  else if ethertype =? 34525 then
    ip ← ptr_at OFF_IP 40;
    let src := take 16 (drop 8 ip) in
    screen (blocked_v6 src) src len
      (if_ok try_synack_v6 (λ action, decide_as REASON_SYNCOOKIE action len) pass)
  else pass.

Definition xdp_filter (s : Xdp) : Z * Xdp :=
  let '(r, s') := try_filter s in (default XDP_PASS r, s').
End program.
