(* ===== verification/EbpfRate.v ===== *)
(** * The token buckets of the XDP program

    The per-source limiter ([over_rate]) and the global SYN-ACK budget
    ([tx_budget_ok]) of [crates/blackwall-xdp-ebpf/src/main.rs] over sequences
    of packets: what a bucket admits at most, and what it fails to admit. *)
From stdpp Require Import prelude gmap sorting.
From S2P Require Import Prelude Net Bytes Cookie XdpMaps Ebpf.

Open Scope Z_scope.

(** The verdicts of a bucket for packets at the given times. *)
Fixpoint admits (b : RateBucket) (times : list Z) : list bool :=
  match times with
  | [] => []
  | now :: times => let '(ok, b') := take_token now b in ok :: admits b' times
  end.

Definition admitted (l : list bool) : Z := Z.of_nat (length (filter (λ x, x = true) l)).

Lemma admitted_cons x l : admitted (x :: l) = (if x then 1 else 0) + admitted l.
Proof. unfold admitted. rewrite filter_cons. destruct x; simpl; lia. Qed.

Definition bucket_wf (b : RateBucket) : Prop :=
  0 ≤ rb_tokens b ≤ u64_max ∧ 0 ≤ rb_last_ns b ∧ 0 ≤ rb_rate_pps b ∧ 0 ≤ rb_burst b ≤ u64_max.

(** The clock does not run backwards from [t]. *)
Fixpoint monotone_from (t : Z) (times : list Z) : Prop :=
  match times with [] => True | u :: times => t ≤ u ∧ monotone_from u times end.

Fixpoint last_time (t : Z) (times : list Z) : Z :=
  match times with [] => t | u :: times => last_time u times end.

(** One packet: the tokens spent and kept are covered by the tokens there were
    and the time that passed. *)
Lemma take_token_spec now b :
  bucket_wf b → rb_last_ns b ≤ now →
  let '(ok, b') := take_token now b in
  bucket_wf b' ∧ rb_last_ns b' = now ∧ rb_rate_pps b' = rb_rate_pps b ∧ rb_burst b' = rb_burst b ∧
  rb_tokens b' + (if ok then 1 else 0) ≤ rb_burst b ∧
  NS_PER_SEC * (rb_tokens b' + if ok then 1 else 0)
  ≤ NS_PER_SEC * rb_tokens b + (now - rb_last_ns b) * rb_rate_pps b.
Proof.
  intros (Ht & Hl & Hr & Hb) Hn. unfold take_token, mul64, u64_sat_add, sat_add.
  rewrite Z.max_r by lia. set (p := (now - rb_last_ns b) * rb_rate_pps b).
  assert (0 ≤ p) by (unfold p; nia).
  assert (0 ≤ p mod (u64_max + 1) ≤ p) as [? ?].
  { unfold u64_max. split; [apply Z.mod_pos_bound; lia|apply Z.mod_le; lia]. }
  set (r := p mod (u64_max + 1) / NS_PER_SEC).
  assert (0 ≤ r ∧ NS_PER_SEC * r ≤ p) as [? ?].
  { unfold r, NS_PER_SEC. split; [apply Z.div_pos; lia|].
    pose proof (Z.mul_div_le (p mod (u64_max + 1)) 1000000000). lia. }
  set (t := Z.min _ (rb_burst b)). assert (0 ≤ t ≤ rb_burst b ∧ t ≤ rb_tokens b + r) as [? ?].
  { unfold t, u64_max in *. lia. }
  unfold NS_PER_SEC, u64_max in *. destruct (Z.eqb_spec t 0); unfold bucket_wf; simpl; unfold u64_max; lia.
Qed.

(** What a bucket admits over a monotone sequence of packets. *)
Lemma admits_bound b t times :
  bucket_wf b → rb_last_ns b ≤ t → monotone_from t times →
  NS_PER_SEC * admitted (admits b (t :: times))
  ≤ NS_PER_SEC * rb_tokens b + (last_time t times - rb_last_ns b) * rb_rate_pps b.
Proof.
  revert b t. induction times as [|u times IH]; intros b t Hwf Hl Hm; cbn [admits last_time];
    pose proof (take_token_spec t b Hwf Hl) as Hs; destruct (take_token t b) as [ok b'];
    destruct Hs as (Hwf' & Hl' & Hr' & _ & _ & Ht); rewrite admitted_cons.
  - unfold admitted, NS_PER_SEC in *. simpl. destruct Hwf' as (? & _). destruct ok; lia.
  - destruct Hm as [Hu Hm]. specialize (IH b' u Hwf' ltac:(lia) Hm). cbn [admits] in IH.
    rewrite Hr', Hl' in IH. unfold NS_PER_SEC in *. destruct ok; lia.
Qed.

(** The first packet caps the tokens at the burst. *)
Lemma admits_burst_bound b t times :
  bucket_wf b → rb_last_ns b ≤ t → monotone_from t times →
  NS_PER_SEC * admitted (admits b (t :: times))
  ≤ NS_PER_SEC * rb_burst b + (last_time t times - t) * rb_rate_pps b.
Proof.
  intros Hwf Hl Hm. cbn [admits]. pose proof (take_token_spec t b Hwf Hl) as Hs.
  destruct (take_token t b) as [ok b']. destruct Hs as (Hwf' & Hl' & Hr' & Hb' & Hbu & Ht).
  rewrite admitted_cons. destruct times as [|u times].
  - unfold admitted, NS_PER_SEC in *. simpl. destruct Hwf' as (? & _). destruct ok; lia.
  - destruct Hm as [Hu Hm]. pose proof (admits_bound b' u times Hwf' ltac:(lia) Hm) as Hrest.
    cbn [last_time]. rewrite Hr', Hl' in Hrest. unfold NS_PER_SEC in *. destruct ok; lia.
Qed.

(** A bucket without tokens refilled by less than one token at a time. *)
Fixpoint gaps_below (rate t : Z) (times : list Z) : Prop :=
  match times with
  | [] => True
  | u :: times => t ≤ u ∧ (u - t) * rate < NS_PER_SEC ∧ gaps_below rate u times
  end.

Lemma admits_starved b times :
  bucket_wf b → rb_tokens b = 0 → gaps_below (rb_rate_pps b) (rb_last_ns b) times →
  admitted (admits b times) = 0.
Proof.
  revert b. induction times as [|u times IH]; intros b Hwf H0 Hg; [done|].
  destruct Hg as (Hu & Hg & Hgs). pose proof (take_token_spec u b Hwf Hu) as Hs. cbn [admits].
  destruct (take_token u b) as [ok b']. destruct Hs as (Hwf' & Hl' & Hr' & _ & _ & Ht).
  assert (0 ≤ rb_tokens b') by apply Hwf'. unfold NS_PER_SEC in *.
  destruct ok; [lia|]. rewrite admitted_cons, IH; [done|done|lia|by rewrite Hr', Hl'].
Qed.


(** Packets of one source at the given times, through the per-source check:
    whether each goes on. *)
Fixpoint pass_source (src : list Z) (times : list Z) (s : Xdp) : list bool :=
  match times with
  | [] => []
  | now :: times =>
      let '(over, s') := check_rate src now s in
      negb (default false over) :: pass_source src times s'
  end.

(** SYNs at the given times, through the global budget: whether each may be
    answered. *)
Fixpoint pass_budget (times : list Z) (s : Xdp) : list bool :=
  match times with
  | [] => []
  | now :: times =>
      let '(ok, s') := tx_budget_ok now s in default false ok :: pass_budget times s'
  end.

Lemma pass_source_admits src times s b :
  RATE s !! src = Some b → pass_source src times s = admits b times.
Proof.
  revert s b. induction times as [|t times IH]; intros s b Hb; [done|]. cbn [pass_source admits].
  unfold check_rate. rewrite Hb. destruct (take_token t b) as [ok b'] eqn:E. cbn [default id negb].
  rewrite negb_involutive. f_equal. apply IH. apply lookup_insert_eq.
Qed.

(** The budget seen as a source's bucket. *)
Definition budget_bucket (b : TxBucket) : RateBucket := {|
  rb_tokens := tx_tokens b; rb_last_ns := tx_last_ns b; rb_rate_pps := tx_rate_pps b;
  rb_burst := Z.min (mul64 (tx_rate_pps b) 2) TX_BUDGET_BURST_MAX |}.

Lemma pass_budget_admits times s b :
  TX_BUDGET s = Some b → tx_rate_pps b ≠ 0 → pass_budget times s = admits (budget_bucket b) times.
Proof.
  revert s b. induction times as [|t times IH]; intros s b Hb Hr; [done|]. cbn [pass_budget admits].
  unfold tx_budget_ok, take_token. rewrite Hb. rewrite (proj2 (Z.eqb_neq _ _) Hr).
  cbn [budget_bucket rb_tokens rb_last_ns rb_rate_pps rb_burst].
  destruct (_ =? 0); cbn [default id]; f_equal;
    exact (IH (set_tx {| tx_tokens := _; tx_last_ns := t; tx_rate_pps := tx_rate_pps b |} s) _ eq_refl Hr).
Qed.

(** C37: the rate limiter never admits more than it promises. Over any sequence
    of packets of a source on one CPU, at times that do not run backwards, the
    source's bucket lets through at most its burst plus its rate times the time
    from the first packet to the last, and at most the tokens it held plus its
    rate times the time since the last refill; although the refill product is
    computed modulo [2^64]. *)
Theorem rate_limit_conforms src b t times s :
  RATE s !! src = Some b → bucket_wf b → rb_last_ns b ≤ t → monotone_from t times →
  let n := admitted (pass_source src (t :: times) s) in
  NS_PER_SEC * n ≤ NS_PER_SEC * rb_burst b + (last_time t times - t) * rb_rate_pps b ∧
  NS_PER_SEC * n ≤ NS_PER_SEC * rb_tokens b + (last_time t times - rb_last_ns b) * rb_rate_pps b.
Proof.
  intros Hb Hwf Hl Hm. cbv zeta. rewrite (pass_source_admits _ _ _ b Hb).
  split; [by apply admits_burst_bound|by apply admits_bound].
Qed.

(** The cap on in-kernel SYN-ACKs is a hard ceiling. Once user space has
    configured a rate, over any sequence of SYNs on one CPU the program answers
    at most two seconds' worth of budget (and never more than a million), plus
    the rate times the time from the first SYN to the last; whatever the state
    of the slot, which starts with a refill time of zero. *)
Theorem synack_budget_conforms b t times s :
  TX_BUDGET s = Some b → 0 < tx_rate_pps b ≤ u64_max → 0 ≤ tx_tokens b ≤ u64_max →
  0 ≤ tx_last_ns b ≤ t → monotone_from t times →
  NS_PER_SEC * admitted (pass_budget (t :: times) s)
  ≤ NS_PER_SEC * Z.min (2 * tx_rate_pps b) TX_BUDGET_BURST_MAX + (last_time t times - t) * tx_rate_pps b.
Proof.
  intros Hb Hr Ht Hl Hm. rewrite (pass_budget_admits _ _ b Hb) by lia.
  assert (0 ≤ mul64 (tx_rate_pps b) 2 ≤ 2 * tx_rate_pps b) as Hm2.
  { unfold mul64, u64_max. split; [apply Z.mod_pos_bound; lia|rewrite Z.mul_comm; apply Z.mod_le; lia]. }
  etrans; [apply admits_burst_bound; [|simpl; lia|done]|].
  { unfold bucket_wf. simpl. unfold TX_BUDGET_BURST_MAX, u64_max in *. lia. }
  simpl. unfold NS_PER_SEC, TX_BUDGET_BURST_MAX in *. lia.
Qed.

(** A source that sends faster than its rate is starved, not limited. Once
    its bucket is empty and every further packet comes less than one token's
    time after the one before, the source gets nothing through, for as long as
    it goes on: every packet resets the refill time and the fraction of a token
    it earned is rounded away. The same holds of the SYN-ACK budget. *)
Theorem empty_bucket_starves src b s times :
  RATE s !! src = Some b → bucket_wf b → rb_tokens b = 0 →
  gaps_below (rb_rate_pps b) (rb_last_ns b) times →
  admitted (pass_source src times s) = 0 ∧
  ∀ tb, TX_BUDGET s = Some tb → 0 < tx_rate_pps tb → tx_tokens tb = 0 → 0 ≤ tx_last_ns tb →
    gaps_below (tx_rate_pps tb) (tx_last_ns tb) times → admitted (pass_budget times s) = 0.
Proof.
  intros Hb Hwf H0 Hg. rewrite (pass_source_admits _ _ _ b Hb). split; [by apply admits_starved|].
  intros tb Htb Hr Ht Hl Hg'. rewrite (pass_budget_admits _ _ tb Htb) by lia.
  apply admits_starved; [|done..]. unfold bucket_wf, budget_bucket, mul64, TX_BUDGET_BURST_MAX, u64_max. simpl.
  pose proof (Z.mod_pos_bound (tx_rate_pps tb * 2) (18446744073709551615 + 1)). lia.
Qed.

Definition rate_ex_state (rb : RateBucket) (tb : TxBucket) : Xdp := {|
  frame := []; RATE := {[ [192; 0; 2; 7] ++ replicate 12 0 := rb ]}; STATS := ∅; TX_BUDGET := Some tb;
  CAPTURE := []; ktime_calls := 0 |}.

(** Ten packets per second, a burst of three, six packets within 300 ms: the
    burst and two more go through. *)
Lemma rate_limit_conforms_witness :
  let b := {| rb_tokens := 3; rb_last_ns := 0; rb_rate_pps := 10; rb_burst := 3 |} in
  let s := rate_ex_state b {| tx_tokens := 0; tx_last_ns := 0; tx_rate_pps := 0 |} in
  let times := [0; 0; 0; 150000000; 300000000] in
  let n := admitted (pass_source ([192; 0; 2; 7] ++ replicate 12 0) (0 :: times) s) in
  n = 5 ∧ NS_PER_SEC * n ≤ NS_PER_SEC * rb_burst b + (last_time 0 times - 0) * rb_rate_pps b.
Proof.
  intros b s times n. split; [vm_refl|].
  refine (proj1 (rate_limit_conforms _ b 0 times s _ _ _ _)); [done| |vm_compute; done|vm_compute].
  { unfold bucket_wf, u64_max. simpl. lia. }
  repeat split; discriminate.
Defined.

Lemma synack_budget_conforms_witness :
  let tb := {| tx_tokens := 0; tx_last_ns := 0; tx_rate_pps := 1 |} in
  let s := rate_ex_state {| rb_tokens := 0; rb_last_ns := 0; rb_rate_pps := 0; rb_burst := 0 |} tb in
  let times := [90000000001; 90000000002; 91000000002] in
  let n := admitted (pass_budget (90000000000 :: times) s) in
  n = 3 ∧
  NS_PER_SEC * n ≤ NS_PER_SEC * Z.min (2 * 1) TX_BUDGET_BURST_MAX + (last_time 90000000000 times - 90000000000) * 1.
Proof.
  intros tb s times n. split; [vm_refl|].
  refine (synack_budget_conforms tb 90000000000 times s _ _ _ _ _); [done|vm_compute|vm_compute|vm_compute|vm_compute];
    repeat split; discriminate.
Defined.

(** A limit of a hundred packets per second: a source that sends a hundred and
    fifty gets none through. *)
Lemma empty_bucket_starves_witness :
  let b := {| rb_tokens := 0; rb_last_ns := 0; rb_rate_pps := 100; rb_burst := 10 |} in
  let s := rate_ex_state b {| tx_tokens := 0; tx_last_ns := 0; tx_rate_pps := 100 |} in
  let times := (λ k, 6666666 * Z.of_nat k) <$> seq 1 300 in
  rb_tokens b = 0 ∧ admitted (pass_source ([192; 0; 2; 7] ++ replicate 12 0) times s) = 0.
Proof.
  intros b s times. split; [done|].
  refine (proj1 (empty_bucket_starves _ b s times _ _ _ _)); [done| |done|vm_compute; repeat split; discriminate].
  unfold bucket_wf, u64_max. simpl. lia.
Defined.
