(* ===== verification/EbpfReply.v ===== *)
(** * The in-place SYN-ACK rewrite

    What [reply_v4] and [reply_v6] of the XDP program make of the frame of a
    SYN: the exact bytes, and that the checksums written into them are the ones
    a receiver accepts. *)
From stdpp Require Import prelude gmap sorting.
From S2P Require Import Prelude Net Bytes Cookie XdpMaps Ebpf.

Open Scope Z_scope.

(** ** Running the stores *)

Lemma x_bind_ok {A B} (m : X A) (k : A → X B) s a s' : m s = (Some a, s') → (m ≫= k) s = k a s'.
Proof. intros Hm. unfold mbind, x_bind. by rewrite Hm. Qed.

Lemma land_255 b : byte_ok b → Z.land b 255 = b.
Proof. intros Hb. change 255 with (Z.ones 8). rewrite Z.land_ones by lia. by apply Z.mod_small. Qed.

Lemma store_u8_at P x R o v s :
  frame s = P ++ x :: R → o = length P → store_u8 o v s = (Some (), set_frame (P ++ Z.land v 255 :: R) s).
Proof.
  intros Hf ->. unfold store_u8. rewrite Hf, length_app. cbn [length].
  rewrite (proj2 (Nat.ltb_ge _ _)) by lia. do 2 f_equal. by rewrite <- (Nat.add_0_r (length P)), insert_app_r.
Qed.

Lemma load_u8_at P x R o s : frame s = P ++ x :: R → o = length P → load_u8 o s = (Some x, s).
Proof. intros Hf ->. unfold load_u8. rewrite Hf. by rewrite list_lookup_middle. Qed.

Lemma store_be16_at P x y R o v s :
  frame s = P ++ x :: y :: R → o = length P → 0 ≤ v ≤ u16_max →
  store_be16 o v s = (Some (), set_frame (P ++ be_bytes 2 v ++ R) s).
Proof.
  intros Hf Ho Hv. unfold store_be16.
  rewrite (x_bind_ok _ _ _ _ _ (store_u8_at P x (y :: R) o _ s Hf Ho)).
  rewrite (store_u8_at (P ++ [Z.land (Z.shiftr v 8) 255]) y R)
    by (rewrite ?length_app; simpl; rewrite <- ?app_assoc; done || lia).
  rewrite be_bytes_2. rewrite <- app_assoc. cbn [app set_frame frame]. unfold u16_max in Hv.
  change 255 with (Z.ones 8). by rewrite !Z.land_ones, Z.shiftr_div_pow2, Z.mod_mod by lia.
Qed.

Lemma store_be32_at P x y z w R o v s :
  frame s = P ++ x :: y :: z :: w :: R → o = length P → 0 ≤ v ≤ u32_max →
  store_be32 o v s = (Some (), set_frame (P ++ be_bytes 4 v ++ R) s).
Proof.
  intros Hf Ho Hv. unfold store_be32, u32_max in *.
  assert (0 ≤ Z.shiftr v 16 ≤ u16_max) as Hh.
  { rewrite Z.shiftr_div_pow2 by lia. unfold u16_max.
    pose proof (Z.div_pos v (2 ^ 16)). pose proof (Z.div_lt_upper_bound v (2 ^ 16) (2 ^ 16)). lia. }
  assert (0 ≤ Z.land v 65535 ≤ u16_max) as Hl.
  { change 65535 with (Z.ones 16). rewrite Z.land_ones by lia. unfold u16_max.
    pose proof (Z.mod_pos_bound v (2 ^ 16)). lia. }
  rewrite (x_bind_ok _ _ _ _ _ (store_be16_at P x y (z :: w :: R) o _ s Hf Ho Hh)).
  rewrite (store_be16_at (P ++ be_bytes 2 (Z.shiftr v 16)) z w R)
    by (rewrite ?length_app, ?length_be_bytes; simpl; rewrite <- ?app_assoc; done || lia).
  rewrite !be_bytes_2, be_bytes_4. rewrite <- app_assoc. cbn [app set_frame frame].
  rewrite Z.shiftr_div_pow2 by lia. change 65535 with (Z.ones 16). rewrite Z.land_ones by lia.
  assert (v / 2 ^ 16 / 256 = v / 16777216) as -> by (rewrite Z.div_div by lia; done).
  assert (v mod 2 ^ 16 / 256 mod 256 = v / 256 mod 256) as -> by (Z.div_mod_to_equations; lia).
  assert ((v mod 2 ^ 16) mod 256 = v mod 256) as -> by (Z.div_mod_to_equations; lia).
  done.
Qed.

(** Two disjoint ranges of the frame change places. *)
Lemma swap_from_at n : ∀ k a b P A Q B R s,
  frame s = P ++ A ++ Q ++ B ++ R → bytes_ok A → bytes_ok B → length A = n → length B = n →
  (a + k = length P)%nat → (b + k = length P + n + length Q)%nat →
  swap_from n k a b s = (Some (), set_frame (P ++ B ++ Q ++ A ++ R) s).
Proof.
  induction n as [|n IH]; intros k a b P A Q B R s Hf HA HB La Lb Ha Hb.
  { destruct A, B; [|done..]. destruct s. simpl in *. by subst. }
  destruct A as [|x A]; [done|]. destruct B as [|y B]; [done|]. injection La as La. injection Lb as Lb.
  apply Forall_cons in HA as [Hx HA]. apply Forall_cons in HB as [Hy HB].
  cbn [swap_from]. rewrite (x_bind_ok _ _ _ x s) by (by eapply load_u8_at).
  rewrite (x_bind_ok _ _ _ y s).
  2:{ eapply (load_u8_at (P ++ x :: A ++ Q)); [rewrite Hf; by rewrite <- app_assoc; simpl; rewrite <- app_assoc|].
      rewrite length_app. cbn [length]. rewrite length_app. lia. }
  rewrite (x_bind_ok _ _ _ () (set_frame (P ++ y :: A ++ Q ++ y :: B ++ R) s)).
  2:{ erewrite (store_u8_at P x); [by rewrite land_255|exact Hf|lia]. }
  rewrite (x_bind_ok _ _ _ () (set_frame (P ++ y :: A ++ Q ++ x :: B ++ R) s)).
  2:{ erewrite (store_u8_at (P ++ y :: A ++ Q) y (B ++ R)).
      - rewrite land_255 by done. by rewrite <- app_assoc; simpl; rewrite <- app_assoc.
      - cbn [set_frame frame]. by rewrite <- app_assoc; simpl; rewrite <- app_assoc.
      - rewrite length_app. cbn [length]. rewrite length_app. lia. }
  erewrite (IH (S k) a b (P ++ [y]) A (Q ++ [x]) B R); try done.
  - by rewrite <- !app_assoc.
  - by rewrite <- !app_assoc.
  - rewrite length_app. simpl. lia.
  - rewrite !length_app. simpl. lia.
Qed.

Lemma swap_bytes_at n a b P A B R s :
  frame s = P ++ A ++ B ++ R → bytes_ok A → bytes_ok B → length A = n → length B = n →
  a = length P → b = (length P + n)%nat →
  swap_bytes n a b s = (Some (), set_frame (P ++ B ++ A ++ R) s).
Proof.
  intros Hf HA HB La Lb -> ->. unfold swap_bytes. by apply (swap_from_at n 0 _ _ P A [] B R);
    rewrite ?Nat.add_0_r; simpl; rewrite ?Nat.add_0_r.
Qed.

Lemma pad_from_at n : ∀ k o m P opts R s,
  frame s = P ++ opts ++ R → (length P = o + k)%nat → (length opts + k = m)%nat → (length opts ≤ n)%nat →
  pad_from n k o m s = (Some (), set_frame (P ++ replicate (length opts) 1 ++ R) s).
Proof.
  induction n as [|n IH]; intros k o m P opts R s Hf HP Hm Hn.
  { destruct opts; [|simpl in Hn; lia]. destruct s. simpl in *. by subst. }
  cbn [pad_from]. destruct opts as [|x opts].
  { rewrite (proj2 (Nat.leb_le _ _)) by (simpl in Hm; lia). destruct s. simpl in *. by subst. }
  cbn [length] in *. rewrite (proj2 (Nat.leb_gt _ _)) by lia.
  rewrite (x_bind_ok _ _ _ () (set_frame (P ++ 1 :: opts ++ R) s)).
  2:{ by erewrite (store_u8_at P x). }
  rewrite (IH (S k) o m (P ++ [1]) opts R).
  - by rewrite <- !app_assoc.
  - by rewrite <- !app_assoc.
  - rewrite length_app. simpl. lia.
  - lia.
  - lia.
Qed.

Lemma frame_set f s : frame (set_frame f s) = f.
Proof. done. Qed.

Lemma set_frame_set f g s : set_frame f (set_frame g s) = set_frame f s.
Proof. done. Qed.

(** The options the program writes: MSS, then NOPs. *)
Definition mss_options (n : nat) (mss : Z) : list Z := [2; 4] ++ be_bytes 2 mss ++ replicate (n - 4) 1.

Lemma write_mss_option_at P opts R o n mss s :
  frame s = P ++ opts ++ R → o = length P → length opts = n → (4 ≤ n ≤ 40)%nat → 0 ≤ mss ≤ u16_max →
  write_mss_option o n mss s = (Some (), set_frame (P ++ mss_options n mss ++ R) s).
Proof.
  intros Hf -> Hn Hb Hm. destruct opts as [|x0 [|x1 [|x2 [|x3 opts]]]]; [simpl in Hn; lia..|].
  unfold write_mss_option, mss_options. cbn [app] in *.
  rewrite (x_bind_ok _ _ _ _ _ (store_u8_at P _ _ _ _ _ Hf eq_refl)).
  rewrite (x_bind_ok _ _ _ () (set_frame (P ++ 2 :: 4 :: x2 :: x3 :: opts ++ R) s)).
  2:{ erewrite (store_u8_at (P ++ [2]) x1); [|rewrite <- app_assoc; done|rewrite length_app; simpl; lia].
      by rewrite <- app_assoc. }
  rewrite (x_bind_ok _ _ _ () (set_frame (P ++ 2 :: 4 :: be_bytes 2 mss ++ opts ++ R) s)).
  2:{ erewrite (store_be16_at (P ++ [2; 4]) x2 x3); [|rewrite <- app_assoc; done|rewrite length_app; simpl; lia|done].
      by rewrite <- app_assoc. }
  rewrite (pad_from_at _ 4 (length P) n (P ++ [2; 4] ++ be_bytes 2 mss) opts R).
  - rewrite set_frame_set, <- !app_assoc. cbn [app length] in *. by replace (n - 4)%nat with (length opts) by lia.
  - rewrite frame_set, <- !app_assoc. done.
  - rewrite !length_app, length_be_bytes. simpl. lia.
  - cbn [length] in Hn. lia.
  - cbn [length] in Hn. unfold MAX_TCP_OPTS. lia.
Qed.

(** The TCP header the program writes, its checksum aside. *)
Definition synack_header (ports : list Z) (cookie_seq ack : Z) (doff : nat) (check : list Z) : list Z :=
  ports ++ be_bytes 4 cookie_seq ++ be_bytes 4 ack ++
  [Z.of_nat doff * 16; TCP_FLAGS_SYN_ACK; 255; 255] ++ check ++ [0; 0].

(** Stores into a header [L] that starts at the end of [P]. *)
Lemma store_u8_in P L k o v s :
  frame s = P ++ L → o = (length P + k)%nat → (k < length L)%nat →
  store_u8 o v s = (Some (), set_frame (P ++ <[k := Z.land v 255]> L) s).
Proof.
  intros Hf -> Hk. unfold store_u8. rewrite Hf, length_app.
  rewrite (proj2 (Nat.ltb_ge _ _)) by lia. by rewrite insert_app_r.
Qed.

Lemma store_be16_in P Q x y R o v s :
  frame s = P ++ Q ++ x :: y :: R → o = (length P + length Q)%nat → 0 ≤ v ≤ u16_max →
  store_be16 o v s = (Some (), set_frame (P ++ Q ++ be_bytes 2 v ++ R) s).
Proof.
  intros Hf ->. rewrite app_assoc in Hf. rewrite <- length_app, (app_assoc P Q). by apply store_be16_at with x y.
Qed.

Lemma store_be32_in P Q x y z w R o v s :
  frame s = P ++ Q ++ x :: y :: z :: w :: R → o = (length P + length Q)%nat → 0 ≤ v ≤ u32_max →
  store_be32 o v s = (Some (), set_frame (P ++ Q ++ be_bytes 4 v ++ R) s).
Proof.
  intros Hf ->. rewrite app_assoc in Hf. rewrite <- length_app, (app_assoc P Q). by apply store_be32_at with x y z w.
Qed.

Lemma write_synack_at P p0 p1 p2 p3 q0 q1 q2 q3 a0 a1 a2 a3 d fl w0 w1 c0 c1 u0 u1 opts R y cookie ack mss s :
  frame s = P ++ [p0; p1; p2; p3; q0; q1; q2; q3; a0; a1; a2; a3; d; fl; w0; w1; c0; c1; u0; u1] ++ opts ++ R →
  length opts = options_len y → (4 ≤ options_len y ≤ 40)%nat → (syn_doff y ≤ 15)%nat →
  0 ≤ cookie ≤ u32_max → 0 ≤ ack ≤ u32_max → 0 ≤ mss ≤ u16_max →
  write_synack (length P) y cookie ack mss s
  = (Some (), set_frame (P ++ synack_header [p0; p1; p2; p3] cookie ack (syn_doff y) [c0; c1] ++
      mss_options (options_len y) mss ++ R) s).
Proof.
  intros Hf Ho Hb Hd Hc Ha Hm. unfold write_synack.
  assert (∃ b0 b1 b2 b3, be_bytes 4 cookie = [b0; b1; b2; b3]) as (b0 & b1 & b2 & b3 & Eb)
    by (rewrite be_bytes_4; eauto).
  assert (∃ e0 e1 e2 e3, be_bytes 4 ack = [e0; e1; e2; e3]) as (e0 & e1 & e2 & e3 & Ee)
    by (rewrite be_bytes_4; eauto).
  assert (Z.land (Z.shiftl (Z.of_nat (syn_doff y)) 4) 255 = Z.of_nat (syn_doff y) * 16) as Ed.
  { rewrite Z.shiftl_mul_pow2 by lia. apply land_255. unfold byte_ok. lia. }
  rewrite (x_bind_ok _ _ _ _ _ (store_u8_in P _ 12 _ _ _ Hf eq_refl ltac:(simpl; lia))), Ed.
  cbn [app insert list_insert].
  erewrite x_bind_ok by (apply (store_be32_in P [p0; p1; p2; p3] q0 q1 q2 q3); done). rewrite Eb, set_frame_set. cbn [app].
  erewrite x_bind_ok by (apply (store_be32_in P [p0; p1; p2; p3; b0; b1; b2; b3] a0 a1 a2 a3); done).
  rewrite Ee, set_frame_set. cbn [app].
  erewrite x_bind_ok by (eapply (store_u8_in P _ 13); [done|done|simpl; lia]).
  rewrite set_frame_set. cbn [app insert list_insert].
  erewrite x_bind_ok by (eapply (store_be16_in P [p0; p1; p2; p3; b0; b1; b2; b3; e0; e1; e2; e3; _; _]); [done|done|];
    unfold SYNACK_WINDOW, u16_max; lia).
  rewrite set_frame_set, be_bytes_2. cbn [app].
  erewrite x_bind_ok by (eapply (store_be16_in P [p0; p1; p2; p3; b0; b1; b2; b3; e0; e1; e2; e3; _; _; _; _; _; _]);
    [done|done|]; unfold u16_max; lia).
  rewrite set_frame_set, be_bytes_2. cbn [app].
  unfold synack_header. rewrite Eb, Ee. cbn [app].
  match goal with |- write_mss_option _ _ _ (set_frame (P ++ ?l) _) = _ => set (L := l) end.
  rewrite (write_mss_option_at (P ++ take 20 L) opts R).
  - subst L. cbn [take]. rewrite set_frame_set, <- app_assoc. done.
  - subst L. cbn [take frame set_frame]. rewrite <- app_assoc. done.
  - rewrite length_app. subst L. done.
  - done.
  - lia.
  - done.
Qed.

(** ** Internet checksums

    A receiver adds the 16-bit words with end-around carry, the checksum field
    included, and accepts when the result is all ones (RFC 1071). *)

Definition oc_add (a b : Z) : Z := let s := a + b in if 65535 <? s then s - 65535 else s.

Fixpoint oc_sum (l : list Z) (acc : Z) : Z :=
  match l with
  | a :: b :: l => oc_sum l (oc_add acc (be_value [a; b]))
  | _ => acc
  end.

Definition checksum_ok (l : list Z) : bool := oc_sum l 0 =? 65535.

(** The plain sum of the words. *)
Fixpoint wsum (l : list Z) : Z :=
  match l with a :: b :: l => be_value [a; b] + wsum l | _ => 0 end.

Lemma be_pair a b : be_value [a; b] = a * 256 + b.
Proof. done. Qed.

Lemma pair_ind (P : list Z → Prop) :
  P [] → (∀ a, P [a]) → (∀ a b l, P l → P (a :: b :: l)) → ∀ l, P l.
Proof.
  intros H0 H1 H2. enough (∀ l, P l ∧ ∀ a, P (a :: l)) as Hl by (intros l; apply Hl).
  induction l as [|b l [IH1 IH2]]; split; auto.
Qed.

Lemma wsum_app l1 l2 : Nat.even (length l1) = true → wsum (l1 ++ l2) = wsum l1 + wsum l2.
Proof.
  induction l1 as [| |a b l1 IH] using pair_ind; [done|done|]. intros He. cbn [wsum app].
  rewrite IH by done. lia.
Qed.

Lemma wsum_bound l : bytes_ok l → 0 ≤ wsum l ≤ 65535 * Z.of_nat (length l).
Proof.
  induction l as [|a|a b l IH] using pair_ind; intros Hl; [simpl; lia|simpl; lia|].
  apply Forall_cons in Hl as [Ha Hl]. apply Forall_cons in Hl as [Hb Hl].
  specialize (IH Hl). cbn [wsum length]. rewrite be_pair. unfold byte_ok in *. lia.
Qed.

Lemma oc_add_spec a b :
  0 ≤ a ≤ 65535 → 0 ≤ b ≤ 65535 →
  0 ≤ oc_add a b ≤ 65535 ∧ (∃ k, a + b = oc_add a b + 65535 * k) ∧ (0 < a + b → 0 < oc_add a b).
Proof.
  intros Ha Hb. unfold oc_add. destruct (Z.ltb_spec 65535 (a + b)).
  - split_and!; [lia|lia|exists 1; lia|lia].
  - split_and!; [lia|lia|exists 0; lia|lia].
Qed.

Lemma oc_sum_spec l : ∀ acc, bytes_ok l → 0 ≤ acc ≤ 65535 →
  0 ≤ oc_sum l acc ≤ 65535 ∧ (∃ k, acc + wsum l = oc_sum l acc + 65535 * k) ∧
  (0 < acc + wsum l → 0 < oc_sum l acc).
Proof.
  induction l as [|a|a b l IH] using pair_ind; intros acc Hl Hacc;
    [simpl; split_and!; [lia..|exists 0; lia|lia]|simpl; split_and!; [lia..|exists 0; lia|lia]|].
  apply Forall_cons in Hl as [Ha Hl]. apply Forall_cons in Hl as [Hb Hl]. cbn [oc_sum wsum].
  assert (0 ≤ be_value [a; b] ≤ 65535) as Hw by (rewrite be_pair; unfold byte_ok in *; lia).
  destruct (oc_add_spec acc (be_value [a; b]) Hacc Hw) as (Hr & [k Hk] & Hp).
  destruct (IH (oc_add acc (be_value [a; b])) Hl Hr) as (Hr' & [k' Hk'] & Hp').
  pose proof (wsum_bound l Hl). split_and!; [lia|lia|exists (k + k'); lia|lia].
Qed.

Lemma checksum_ok_spec l : bytes_ok l → 0 < wsum l → wsum l mod 65535 = 0 → checksum_ok l = true.
Proof.
  intros Hl Hp Hm. destruct (oc_sum_spec l 0 Hl ltac:(lia)) as (Hr & [k Hk] & Hs).
  apply Z.eqb_eq. apply Z.mod_divide in Hm as [m Hm]; [|done]. lia.
Qed.

Lemma sum_words_eq l : ∀ acc,
  bytes_ok l → 0 ≤ acc → acc + 65535 * Z.of_nat (length l) ≤ u32_max → sum_words l acc = acc + wsum l.
Proof.
  induction l as [|a|a b l IH] using pair_ind; intros acc Hl Ha Hb; [simpl; lia|simpl; lia|].
  apply Forall_cons in Hl as [Hx Hl]. apply Forall_cons in Hl as [Hy Hl]. cbn [sum_words wsum length] in *.
  assert (0 ≤ be_value [a; b] ≤ 65535) as Hw by (rewrite be_pair; unfold byte_ok in *; lia).
  assert (add32 acc (be_value [a; b]) = acc + be_value [a; b]) as He.
  { unfold add32. apply Z.mod_small. lia. }
  rewrite IH by (try done; rewrite He; lia). lia.
Qed.

Lemma land_ffff x : Z.land x 65535 = x mod 65536.
Proof. apply (Z.land_ones x 16). lia. Qed.

Lemma shiftr_16 x : Z.shiftr x 16 = x / 65536.
Proof. apply (Z.shiftr_div_pow2 x 16). lia. Qed.

(** The folded sum, added to what was summed, is a multiple of 65535. *)
Lemma fold_checksum_spec s :
  0 ≤ s ≤ u32_max →
  0 ≤ fold_checksum s ≤ 65535 ∧ (s + fold_checksum s) mod 65535 = 0 ∧ 0 < s + fold_checksum s.
Proof.
  intros Hs. unfold fold_checksum, add32, u32_max in *.
  rewrite !land_ffff, !shiftr_16.
  rewrite (Z.mod_small (s mod 65536 + s / 65536)) by (Z.div_mod_to_equations; lia).
  set (t := s mod 65536 + s / 65536). assert (0 ≤ t ≤ 131070 ∧ (s = 0 → t = 0)) by (unfold t; Z.div_mod_to_equations; lia).
  assert (∃ k, s = t + 65535 * k) as [k Hk] by (exists (s / 65536); unfold t; Z.div_mod_to_equations; lia).
  rewrite (Z.mod_small (t mod 65536 + t / 65536)) by (Z.div_mod_to_equations; lia).
  set (u := t mod 65536 + t / 65536). assert (0 ≤ u ≤ 65535 ∧ (t = 0 → u = 0)) by (unfold u; Z.div_mod_to_equations; lia).
  assert (∃ k, t = u + 65535 * k) as [k' Hk'] by (exists (t / 65536); unfold u; Z.div_mod_to_equations; lia).
  rewrite (Z.mod_small u) by lia. split_and!; [lia|lia| |lia].
  apply Z.mod_divide; [lia|]. exists (k + k' + 1). lia.
Qed.

Lemma wsum_be2 v : 0 ≤ v ≤ u16_max → wsum (be_bytes 2 v) = v.
Proof. intros Hv. rewrite be_bytes_2. cbn [wsum]. rewrite be_pair. unfold u16_max in *. Z.div_mod_to_equations; lia. Qed.

Lemma wsum_be4 v : 0 ≤ v ≤ u32_max → wsum (be_bytes 4 v) = v / 65536 + v mod 65536.
Proof.
  intros Hv. rewrite be_bytes_4. cbn [wsum]. rewrite !be_pair. unfold u32_max in *.
  assert (v / 65536 = v / 16777216 * 256 + v / 65536 mod 256) as Hh.
  { change 16777216 with (65536 * 256). rewrite <- Z.div_div by lia. Z.div_mod_to_equations; lia. }
  assert (v / 16777216 mod 256 = v / 16777216) as -> by (Z.div_mod_to_equations; lia).
  assert (v mod 65536 = v / 256 mod 256 * 256 + v mod 256) as -> by (Z.div_mod_to_equations; lia). lia.
Qed.

Lemma wsum_nops k : wsum (replicate (2 * k) 1) = 257 * Z.of_nat k.
Proof.
  induction k as [|k IH]; [done|]. replace (2 * S k)%nat with (S (S (2 * k))) by lia.
  cbn [replicate wsum]. rewrite IH, be_pair. lia.
Qed.

Lemma bytes_ok_app l1 l2 : bytes_ok (l1 ++ l2) ↔ bytes_ok l1 ∧ bytes_ok l2.
Proof. apply Forall_app. Qed.

Lemma mss_options_ok n mss : bytes_ok (mss_options n mss).
Proof.
  unfold mss_options. rewrite !bytes_ok_app. split_and!; [|apply be_bytes_ok|].
  - repeat constructor; unfold byte_ok; lia.
  - apply Forall_replicate. unfold byte_ok. lia.
Qed.

Lemma synack_header_ok ports c a doff ck :
  bytes_ok ports → bytes_ok ck → (doff ≤ 15)%nat → bytes_ok (synack_header ports c a doff ck).
Proof.
  intros Hp Hck Hd. unfold synack_header. rewrite !bytes_ok_app.
  split_and!; try done; try apply be_bytes_ok; repeat constructor; unfold byte_ok, TCP_FLAGS_SYN_ACK; lia.
Qed.

(** The sum of the segment with [ck] in its checksum field. *)
Definition segment_sum (dp sp c a : Z) (doff n : nat) (mss : Z) : Z :=
  dp + sp + (c / 65536 + c mod 65536) + (a / 65536 + a mod 65536) +
  (Z.of_nat doff * 4096 + 18) + 65535 + 516 + mss + 257 * Z.of_nat ((n - 4) / 2).

Lemma segment_wsum dp sp c a doff k ck mss :
  0 ≤ dp ≤ u16_max → 0 ≤ sp ≤ u16_max → 0 ≤ c ≤ u32_max → 0 ≤ a ≤ u32_max → 0 ≤ mss ≤ u16_max →
  length ck = 2%nat →
  wsum (synack_header (be_bytes 2 dp ++ be_bytes 2 sp) c a doff ck ++ mss_options (4 + 2 * k) mss)
  = segment_sum dp sp c a doff (4 + 2 * k) mss + wsum ck.
Proof.
  intros Hdp Hsp Hc Ha Hm Lck. unfold synack_header, mss_options.
  rewrite <- !app_assoc.
  rewrite (wsum_app (be_bytes 2 dp)), (wsum_app (be_bytes 2 sp)), (wsum_app (be_bytes 4 c)), (wsum_app (be_bytes 4 a))
    by (by rewrite length_be_bytes).
  rewrite (wsum_app [Z.of_nat doff * 16; _; _; _]), (wsum_app ck), (wsum_app [0; 0]), (wsum_app [2; 4]) by (by rewrite ?Lck).
  rewrite (wsum_app (be_bytes 2 mss)) by (by rewrite length_be_bytes).
  replace (4 + 2 * k - 4)%nat with (2 * k)%nat by lia.
  rewrite wsum_nops, !wsum_be2, !wsum_be4 by done. unfold segment_sum.
  replace (4 + 2 * k - 4)%nat with (2 * k)%nat by lia. rewrite (Nat.mul_comm 2 k), Nat.div_mul by lia.
  cbn [wsum]. rewrite !be_pair. unfold TCP_FLAGS_SYN_ACK. lia.
Qed.

Lemma synack_checksum_eq addr_sum dp sp c a doff n mss :
  0 ≤ addr_sum ≤ 10000000 → 0 ≤ dp ≤ u16_max → 0 ≤ sp ≤ u16_max → 0 ≤ c ≤ u32_max → 0 ≤ a ≤ u32_max →
  0 ≤ mss ≤ u16_max → (doff ≤ 15)%nat → (n ≤ 40)%nat →
  synack_checksum addr_sum dp sp c a doff n (doff * 4) mss
  = fold_checksum (addr_sum + 6 + Z.of_nat (doff * 4) + segment_sum dp sp c a doff n mss).
Proof.
  intros Hs Hdp Hsp Hc Ha Hm Hd Hn. unfold synack_checksum. f_equal. rewrite !land_ffff, !shiftr_16.
  assert (Z.lor (Z.shiftl (Z.of_nat doff) 12) 18 = Z.of_nat doff * 4096 + 18) as ->.
  { do 16 (destruct doff as [|doff]; [reflexivity|]). lia. }
  assert (0 ≤ c / 65536 ≤ 65535 ∧ 0 ≤ c mod 65536 ≤ 65535) by (unfold u32_max in *; Z.div_mod_to_equations; lia).
  assert (0 ≤ a / 65536 ≤ 65535 ∧ 0 ≤ a mod 65536 ≤ 65535) by (unfold u32_max in *; Z.div_mod_to_equations; lia).
  assert ((n - 4) / 2 ≤ 18)%nat by (apply Nat.Div0.div_le_upper_bound; lia).
  unfold add32, segment_sum, SYNACK_WINDOW, u32_max, u16_max in *.
  repeat match goal with |- context [?x mod (?y + 1)] =>
    lazymatch x with context [Z.modulo _ (_ + 1)] => fail | _ => rewrite (Z.mod_small x (y + 1)) by lia end end.
  lia.
Qed.

(** A pseudo-header [P] and the segment the program writes sum up to all ones. *)
Lemma segment_checksum_ok P addr_sum dp sp c a doff n mss :
  bytes_ok P → Nat.even (length P) = true → wsum P = addr_sum + 6 + Z.of_nat (doff * 4) →
  0 ≤ addr_sum ≤ 10000000 → 0 ≤ dp ≤ u16_max → 0 ≤ sp ≤ u16_max → 0 ≤ c ≤ u32_max → 0 ≤ a ≤ u32_max →
  0 ≤ mss ≤ u16_max → (6 ≤ doff ≤ 15)%nat → n = (doff * 4 - 20)%nat →
  let ck := synack_checksum addr_sum dp sp c a doff n (doff * 4) mss in
  checksum_ok (P ++ synack_header (be_bytes 2 dp ++ be_bytes 2 sp) c a doff (be_bytes 2 ck) ++ mss_options n mss) = true
  ∧ 0 ≤ ck ≤ u16_max.
Proof.
  intros HP Hev HwP Hs Hdp Hsp Hc Ha Hm Hd Hn ck.
  assert (∃ k, n = 4 + 2 * k ∧ k ≤ 18)%nat as (k & -> & Hk) by (exists (doff * 2 - 12)%nat; lia).
  subst ck. rewrite synack_checksum_eq by lia.
  set (t := _ + segment_sum dp sp c a doff _ mss).
  assert (0 ≤ t ≤ u32_max) as Ht.
  { unfold t, segment_sum, u32_max, u16_max in *.
    assert (0 ≤ c / 65536 ≤ 65535 ∧ 0 ≤ c mod 65536 ≤ 65535) by (Z.div_mod_to_equations; lia).
    assert (0 ≤ a / 65536 ≤ 65535 ∧ 0 ≤ a mod 65536 ≤ 65535) by (Z.div_mod_to_equations; lia).
    assert ((4 + 2 * k - 4) / 2 ≤ 18)%nat by (apply Nat.Div0.div_le_upper_bound; lia). lia. }
  destruct (fold_checksum_spec t Ht) as (Hf & Hmod & Hpos). split; [|exact Hf].
  assert (wsum (P ++ synack_header (be_bytes 2 dp ++ be_bytes 2 sp) c a doff (be_bytes 2 (fold_checksum t)) ++
    mss_options (4 + 2 * k) mss) = t + fold_checksum t) as Hw.
  { rewrite wsum_app by done.
    rewrite segment_wsum, HwP by (done || apply length_be_bytes).
    rewrite wsum_be2 by exact Hf. unfold t. lia. }
  apply checksum_ok_spec; [|lia|by rewrite Hw].
  rewrite !bytes_ok_app. split_and!; [done| |apply mss_options_ok].
  apply synack_header_ok; [rewrite bytes_ok_app; split; apply be_bytes_ok|apply be_bytes_ok|lia].
Qed.

(** An IPv4 header whose checksum is computed over the rest. *)
Lemma ip_checksum_ok A B :
  bytes_ok A → bytes_ok B → length A = 10%nat → length B = 8%nat →
  let ck := fold_checksum (sum_words (A ++ [0; 0] ++ B) 0) in
  checksum_ok (A ++ be_bytes 2 ck ++ B) = true ∧ 0 ≤ ck ≤ u16_max.
Proof.
  intros HA HB LA LB ck. assert (bytes_ok (A ++ [0; 0] ++ B)) as Hz.
  { rewrite !bytes_ok_app. split_and!; try done. repeat constructor; unfold byte_ok; lia. }
  assert (length (A ++ [0; 0] ++ B) = 20%nat) as Lz by (rewrite !length_app, LA, LB; done).
  pose proof (wsum_bound _ Hz) as Hb. rewrite Lz in Hb.
  assert (ck = fold_checksum (wsum A + wsum B)) as ->.
  { unfold ck. rewrite sum_words_eq by (try done; rewrite ?Lz; unfold u32_max; lia).
    rewrite !wsum_app by (by rewrite ?LA). done. }
  rewrite !wsum_app in Hb by (by rewrite ?LA). cbn [wsum] in Hb.
  destruct (fold_checksum_spec (wsum A + wsum B)) as (Hf & Hmod & Hpos).
  { unfold u32_max. change (be_value [0; 0]) with 0 in Hb. lia. }
  split; [|exact Hf].
  assert (wsum (A ++ be_bytes 2 (fold_checksum (wsum A + wsum B)) ++ B)
    = wsum A + wsum B + fold_checksum (wsum A + wsum B)) as Hw.
  { rewrite !wsum_app by (by rewrite ?LA, ?length_be_bytes). rewrite wsum_be2 by exact Hf. lia. }
  apply checksum_ok_spec; [|lia|by rewrite Hw].
  rewrite !bytes_ok_app. split_and!; try done. apply be_bytes_ok.
Qed.

(** ** The whole rewrite *)

Ltac lens := rewrite ?length_app, ?length_be_bytes; cbn [length]; lia.
Ltac assoc :=
  cbn [set_frame frame drop]; repeat (progress (rewrite <- ?app_assoc; cbn [app])); done.

Lemma ptr_at_ok P L R o n s :
  frame s = P ++ L ++ R → o = length P → n = length L → ptr_at o n s = (Some L, s).
Proof.
  intros Hf -> ->. unfold ptr_at. rewrite Hf, !length_app, (proj2 (Nat.ltb_ge _ _)) by lia.
  by rewrite drop_app_length, take_app_length.
Qed.

(** The checksum field of the TCP header [synack_header]. *)
Lemma store_check P ports c a doff c0 c1 R o v s :
  frame s = P ++ synack_header ports c a doff [c0; c1] ++ R → length ports = 4%nat →
  o = (length P + 16)%nat → 0 ≤ v ≤ u16_max →
  store_be16 o v s = (Some (), set_frame (P ++ synack_header ports c a doff (be_bytes 2 v) ++ R) s).
Proof.
  intros Hf Lp Ho Hv. unfold synack_header in *. rewrite <- !app_assoc in Hf. cbn [app] in Hf.
  rewrite (store_be16_at (P ++ ports ++ be_bytes 4 c ++ be_bytes 4 a ++ [Z.of_nat doff * 16; TCP_FLAGS_SYN_ACK; 255; 255])
    c0 c1 (0 :: 0 :: R)); [|rewrite Hf; by rewrite <- !app_assoc|lens|done].
  by rewrite <- !app_assoc.
Qed.

Lemma add32_bound a b : 0 ≤ add32 a b ≤ u32_max.
Proof. unfold add32, u32_max. pose proof (Z.mod_pos_bound (a + b) (4294967295 + 1)). lia. Qed.

Section reply.
Context (A B : list Z) (p0 p1 p2 p3 q0 q1 q2 q3 a0 a1 a2 a3 d fl w0 w1 c0 c1 u0 u1 : Z) (opts R : list Z).
Context (y : Syn) (cookie mss : Z) (s : Xdp).

(** The TCP header of the SYN, and its sequence number and options as read. *)
Definition syn_header : list Z :=
  [p0; p1; p2; p3; q0; q1; q2; q3; a0; a1; a2; a3; d; fl; w0; w1; c0; c1; u0; u1].

Context (LA : length A = 6%nat) (LB : length B = 6%nat) (HA : bytes_ok A) (HB : bytes_ok B).
Context (Hsp : bytes_ok [p0; p1]) (Hdp : bytes_ok [p2; p3]).
Context (Hdoff : (6 ≤ syn_doff y ≤ 15)%nat) (Lopts : length opts = options_len y).
Context (Hcookie : 0 ≤ cookie ≤ u32_max) (Hmss : 0 ≤ mss ≤ u16_max).

Let ack : Z := add32 (syn_seq y) 1.

Lemma options_bound : (4 ≤ options_len y ≤ 40)%nat.
Proof. unfold options_len, tcp_hdr_len. lia. Qed.

Lemma reply_v4_at M k0 k1 S D :
  frame s = A ++ B ++ M ++ [k0; k1] ++ S ++ D ++ syn_header ++ opts ++ R →
  length M = 12%nat → bytes_ok M → length S = 4%nat → length D = 4%nat → bytes_ok S → bytes_ok D →
  let check := synack_checksum (sum_words (syn_src y ++ syn_dst y) 0) (syn_dst_port y) (syn_src_port y)
    cookie ack (syn_doff y) (options_len y) (tcp_hdr_len y) mss in
  0 ≤ check ≤ u16_max →
  reply_v4 y cookie mss s = (Some XDP_TX, set_frame (B ++ A ++ M ++
    be_bytes 2 (fold_checksum (sum_words (drop 2 M ++ [0; 0] ++ D ++ S) 0)) ++ D ++ S ++
    synack_header [p2; p3; p0; p1] cookie ack (syn_doff y) (be_bytes 2 check) ++
    mss_options (options_len y) mss ++ R) s).
Proof.
  intros Hf LM HM LS LD HS HD check Hcheck. unfold reply_v4.
  pose proof options_bound as Hob. pose proof (add32_bound (syn_seq y) 1) as Hab.
  erewrite x_bind_ok by (apply (swap_bytes_at 6 _ _ [] A B); [exact Hf|done..|]; rewrite ?LA; done).
  erewrite x_bind_ok by (apply (swap_bytes_at 4 _ _ (B ++ A ++ M ++ [k0; k1]) S D (syn_header ++ opts ++ R));
    [assoc|done..|unfold OFF_IP_SRC, OFF_IP; lens|unfold OFF_IP_DST, OFF_IP; lens]).
  erewrite x_bind_ok by (apply (swap_bytes_at 2 _ _ (B ++ A ++ M ++ [k0; k1] ++ D ++ S) [p0; p1] [p2; p3]
    (drop 4 syn_header ++ opts ++ R));
    [unfold syn_header; assoc|done..|unfold OFF_TCP_SRCPORT, OFF_TCP, OFF_IP; lens|
     unfold OFF_TCP_DSTPORT, OFF_TCP, OFF_IP; lens]).
  rewrite !set_frame_set. replace OFF_TCP with (length (B ++ A ++ M ++ [k0; k1] ++ D ++ S))
    by (unfold OFF_TCP, OFF_IP; lens).
  erewrite x_bind_ok by (apply (write_synack_at _ p2 p3 p0 p1 q0 q1 q2 q3 a0 a1 a2 a3 d fl w0 w1 c0 c1 u0 u1 opts R);
    [unfold syn_header; assoc|done || lia..]).
  set (hdr := synack_header [p2; p3; p0; p1] cookie ack (syn_doff y)).
  set (T := mss_options (options_len y) mss ++ R). rewrite set_frame_set.
  erewrite x_bind_ok by (apply (store_be16_at (B ++ A ++ M) k0 k1 (D ++ S ++ hdr [c0; c1] ++ T));
    [assoc|unfold OFF_IP_CHECK, OFF_IP; lens|unfold u16_max; lia]).
  rewrite set_frame_set. change (be_bytes 2 0) with [0; 0].
  set (ip := drop 2 M ++ [0; 0] ++ D ++ S).
  assert (ipv4_checksum (set_frame ((B ++ A ++ M) ++ [0; 0] ++ D ++ S ++ hdr [c0; c1] ++ T) s)
    = (Some (fold_checksum (sum_words ip 0)), set_frame ((B ++ A ++ M) ++ [0; 0] ++ D ++ S ++ hdr [c0; c1] ++ T) s)) as Hck.
  { unfold ipv4_checksum. erewrite x_bind_ok; [done|].
    apply (ptr_at_ok (B ++ A ++ take 2 M) ip (hdr [c0; c1] ++ T)).
    - cbn [set_frame frame]. rewrite <- (take_drop 2 M) at 1. unfold ip. assoc.
    - unfold OFF_IP. rewrite !length_app, length_take. lia.
    - unfold ip. rewrite !length_app, length_drop. cbn [length]. lia. }
  rewrite (x_bind_ok _ _ _ _ _ Hck).
  destruct (ip_checksum_ok (drop 2 M) (D ++ S)) as [_ Hipb]; [by apply Forall_drop|by apply Forall_app|
    rewrite length_drop; lia|lens|].
  erewrite x_bind_ok by (apply (store_be16_at (B ++ A ++ M) 0 0 (D ++ S ++ hdr [c0; c1] ++ T));
    [assoc|unfold OFF_IP_CHECK, OFF_IP; lens|exact Hipb]).
  rewrite set_frame_set.
  erewrite x_bind_ok by (apply (store_check (B ++ A ++ M ++ be_bytes 2 (fold_checksum (sum_words ip 0)) ++ D ++ S)
    [p2; p3; p0; p1] cookie ack (syn_doff y) c0 c1 T); [assoc|done|unfold OFF_TCP_CHECK, OFF_TCP, OFF_IP; lens|exact Hcheck]).
  rewrite set_frame_set. unfold mret, x_ret, T. fold hdr. repeat (progress (rewrite <- ?app_assoc; cbn [app])). done.
Qed.

Lemma reply_v6_at M S D :
  frame s = A ++ B ++ M ++ S ++ D ++ syn_header ++ opts ++ R →
  length M = 10%nat → length S = 16%nat → length D = 16%nat → bytes_ok S → bytes_ok D →
  let check := synack_checksum (add32 (sum_addr16 D) (sum_addr16 S)) (syn_dst_port y) (syn_src_port y)
    cookie ack (syn_doff y) (options_len y) (tcp_hdr_len y) mss in
  0 ≤ check ≤ u16_max →
  reply_v6 y cookie mss s = (Some XDP_TX, set_frame (B ++ A ++ M ++ D ++ S ++
    synack_header [p2; p3; p0; p1] cookie ack (syn_doff y) (be_bytes 2 check) ++
    mss_options (options_len y) mss ++ R) s).
Proof.
  intros Hf LM LS LD HS HD check Hcheck. unfold reply_v6.
  pose proof options_bound as Hob. pose proof (add32_bound (syn_seq y) 1) as Hab.
  erewrite x_bind_ok by (apply (swap_bytes_at 6 _ _ [] A B); [exact Hf|done..|]; rewrite ?LA; done).
  erewrite x_bind_ok by (apply (swap_bytes_at 16 _ _ (B ++ A ++ M) S D (syn_header ++ opts ++ R));
    [assoc|done..|unfold OFF_IP6_SRC, OFF_IP6; lens|unfold OFF_IP6_DST, OFF_IP6; lens]).
  erewrite x_bind_ok by (apply (swap_bytes_at 2 _ _ (B ++ A ++ M ++ D ++ S) [p0; p1] [p2; p3]
    (drop 4 syn_header ++ opts ++ R));
    [unfold syn_header; assoc|done..|unfold OFF_TCP6_SRCPORT, OFF_TCP6, OFF_IP6; lens|
     unfold OFF_TCP6_DSTPORT, OFF_TCP6, OFF_IP6; lens]).
  rewrite !set_frame_set. replace OFF_TCP6 with (length (B ++ A ++ M ++ D ++ S))
    by (unfold OFF_TCP6, OFF_IP6; lens).
  erewrite x_bind_ok by (apply (write_synack_at _ p2 p3 p0 p1 q0 q1 q2 q3 a0 a1 a2 a3 d fl w0 w1 c0 c1 u0 u1 opts R);
    [unfold syn_header; assoc|done || lia..]).
  set (hdr := synack_header [p2; p3; p0; p1] cookie ack (syn_doff y)).
  set (T := mss_options (options_len y) mss ++ R). rewrite set_frame_set.
  erewrite x_bind_ok by (apply (ptr_at_ok (B ++ A ++ M) D (S ++ hdr [c0; c1] ++ T));
    [assoc|unfold OFF_IP6_SRC, OFF_IP6; lens|done]).
  erewrite x_bind_ok by (apply (ptr_at_ok (B ++ A ++ M ++ D) S (hdr [c0; c1] ++ T));
    [assoc|unfold OFF_IP6_DST, OFF_IP6; lens|done]).
  erewrite x_bind_ok by (apply (store_check (B ++ A ++ M ++ D ++ S)
    [p2; p3; p0; p1] cookie ack (syn_doff y) c0 c1 T); [assoc|done|unfold OFF_TCP6_CHECK, OFF_TCP6, OFF_IP6; lens|exact Hcheck]).
  rewrite set_frame_set. unfold mret, x_ret, T. fold hdr. repeat (progress (rewrite <- ?app_assoc; cbn [app])). done.
Qed.
End reply.
