(* ===== verification/EbpfFilter.v ===== *)
(** * SYNs and SYN-ACKs as byte ranges of a frame

    What [read_syn_v4] and [read_syn_v6] of the XDP program establish about a
    frame, and the frame [reply_v4] and [reply_v6] turn it into, both in terms
    of byte ranges of the frame received. *)
From stdpp Require Import prelude gmap sorting.
From S2P Require Import Prelude Net Bytes Cookie XdpMaps Ebpf EbpfReply.

Open Scope Z_scope.

(** [n] bytes of [f] from [a] on. *)
Definition sl (a n : nat) (f : list Z) : list Z := take n (drop a f).

Lemma x_bind_some {A B} (m : X A) (k : A → X B) s b s' :
  (m ≫= k) s = (Some b, s') → ∃ a s1, m s = (Some a, s1) ∧ k a s1 = (Some b, s').
Proof. unfold mbind, x_bind. destruct (m s) as [[a|] s1]; [eauto|done]. Qed.

Lemma ptr_at_some o n s l s' :
  ptr_at o n s = (Some l, s') → s' = s ∧ l = sl o n (frame s) ∧ (o + n ≤ length (frame s))%nat.
Proof. unfold ptr_at. destruct (Nat.ltb_spec (length (frame s)) (o + n)); [done|]. intros [= <- <-]. auto. Qed.

Lemma load_u8_some o s b s' : load_u8 o s = (Some b, s') → s' = s ∧ frame s !! o = Some b.
Proof. unfold load_u8. destruct (frame s !! o) eqn:E; [|done]. intros [= <- <-]. done. Qed.

Lemma load_u8_ok o s b : frame s !! o = Some b → load_u8 o s = (Some b, s).
Proof. intros Hb. unfold load_u8. by rewrite Hb. Qed.

(** A shifted value and low bits below it. *)
Lemma lor_shift n a b : 0 ≤ n → 0 ≤ b < 2 ^ n → Z.lor (Z.shiftl a n) b = a * 2 ^ n + b.
Proof.
  intros Hn Hb. assert (Z.land (Z.shiftl a n) b = 0) as Hl.
  { apply Z.bits_inj'. intros k Hk. rewrite Z.land_spec, Z.shiftl_spec, Z.bits_0 by lia.
    destruct (Z.lt_ge_cases k n); [by rewrite Z.testbit_neg_r by lia|].
    rewrite <- (Z.mod_small b (2 ^ n)), Z.mod_pow2_bits_high by lia. apply andb_false_r. }
  rewrite <- Z.lxor_lor, <- Z.add_nocarry_lxor by done. by rewrite Z.shiftl_mul_pow2.
Qed.

Lemma load_be16_val o s a b :
  frame s !! o = Some a → frame s !! (o + 1)%nat = Some b → byte_ok b →
  load_be16 o s = (Some (be_value [a; b]), s).
Proof.
  intros Ha Hb Hok. unfold load_be16. rewrite (x_bind_ok _ _ _ _ _ (load_u8_ok _ _ _ Ha)).
  rewrite (x_bind_ok _ _ _ _ _ (load_u8_ok _ _ _ Hb)). unfold mret, x_ret.
  rewrite be_pair, (lor_shift 8) by (done || lia). done.
Qed.

Lemma load_be32_val o s a b c d :
  frame s !! o = Some a → frame s !! (o + 1)%nat = Some b → frame s !! (o + 2)%nat = Some c →
  frame s !! (o + 3)%nat = Some d → byte_ok b → byte_ok c → byte_ok d →
  load_be32 o s = (Some (be_value [a; b; c; d]), s).
Proof.
  intros Ha Hb Hc Hd ???. unfold load_be32. rewrite (x_bind_ok _ _ _ _ _ (load_be16_val o s a b Ha Hb ltac:(done))).
  rewrite (x_bind_ok _ _ _ _ _ (load_be16_val (o + 2) s c d Hc ltac:(by rewrite <- Nat.add_assoc) ltac:(done))).
  unfold mret, x_ret. rewrite (lor_shift 16); [|lia|rewrite be_pair; unfold byte_ok in *; lia].
  change [a; b; c; d] with ([a; b] ++ [c; d]). rewrite be_value_app. done.
Qed.

Lemma sl_1 o f a : f !! o = Some a → sl o 1 f = [a].
Proof. intros Ha. unfold sl. by rewrite (drop_S f a o Ha). Qed.

Lemma sl_S o n f a : f !! o = Some a → sl o (S n) f = a :: sl (S o) n f.
Proof. intros Ha. unfold sl. by rewrite (drop_S f a o Ha). Qed.

Lemma sl_2 o f a b : f !! o = Some a → f !! (o + 1)%nat = Some b → sl o 2 f = [a; b].
Proof. rewrite Nat.add_1_r. intros Ha Hb. by rewrite (sl_S o 1 f a), (sl_1 (S o) f b). Qed.

Lemma sl_4 o f a b c d :
  f !! o = Some a → f !! (o + 1)%nat = Some b → f !! (o + 2)%nat = Some c → f !! (o + 3)%nat = Some d →
  sl o 4 f = [a; b; c; d].
Proof.
  replace (o + 1)%nat with (S o) by lia. replace (o + 2)%nat with (S (S o)) by lia.
  replace (o + 3)%nat with (S (S (S o))) by lia. intros Ha Hb Hc Hd.
  by rewrite (sl_S o 3 f a), (sl_S (S o) 2 f b), (sl_S (S (S o)) 1 f c), (sl_1 _ f d).
Qed.

Lemma byte_at_sl o n f i : (i < n)%nat → byte_at (sl o n f) i = byte_at f (o + i).
Proof. intros Hi. unfold byte_at, sl. by rewrite lookup_take_lt, lookup_drop. Qed.

Lemma load_be16_some o s v s' :
  bytes_ok (frame s) → load_be16 o s = (Some v, s') → s' = s ∧ v = be_value (sl o 2 (frame s)).
Proof.
  intros Hok Hr. pose proof Hr as Hr'. unfold load_be16 in Hr'.
  apply x_bind_some in Hr' as (a & s1 & Ha & Hr'). apply load_u8_some in Ha as [-> Ha].
  apply x_bind_some in Hr' as (b & s2 & Hb & _). apply load_u8_some in Hb as [-> Hb].
  rewrite (load_be16_val o s a b Ha Hb) in Hr by (by eapply Forall_lookup_1).
  injection Hr as <- <-. by rewrite (sl_2 _ _ _ _ Ha Hb).
Qed.

Lemma load_be32_some o s v s' :
  bytes_ok (frame s) → load_be32 o s = (Some v, s') → s' = s ∧ v = be_value (sl o 4 (frame s)).
Proof.
  intros Hok Hr. pose proof Hr as Hr'. unfold load_be32, load_be16 in Hr'.
  apply x_bind_some in Hr' as (hi & s1 & Hhi & Hr').
  apply x_bind_some in Hhi as (a & s2 & Ha & Hhi). apply load_u8_some in Ha as [-> Ha].
  apply x_bind_some in Hhi as (b & s2 & Hb & Hhi). apply load_u8_some in Hb as [-> Hb]. injection Hhi as _ <-.
  apply x_bind_some in Hr' as (lo & s1 & Hlo & _).
  apply x_bind_some in Hlo as (c & s2 & Hc & Hlo). apply load_u8_some in Hc as [-> Hc].
  apply x_bind_some in Hlo as (d & s2 & Hd & _). apply load_u8_some in Hd as [-> Hd].
  rewrite <- Nat.add_assoc in Hd.
  rewrite (load_be32_val o s a b c d) in Hr by (done || by eapply Forall_lookup_1).
  injection Hr as <- <-. by rewrite (sl_4 _ _ _ _ _ _ Ha Hb Hc Hd).
Qed.

(** Runs the reads of a computation that succeeded. *)
Ltac run_reads H :=
  repeat match type of H with
  | (load_u8 _ ≫= _) _ = (Some _, _) =>
      let b := fresh "b" in let s1 := fresh in let Hb := fresh "Hb" in
      apply x_bind_some in H as (b & s1 & Hb & H); apply load_u8_some in Hb as [-> Hb]
  | (load_be16 _ ≫= _) _ = (Some _, _) =>
      let v := fresh "v" in let s1 := fresh in let Hv := fresh "Hv" in
      apply x_bind_some in H as (v & s1 & Hv & H); apply load_be16_some in Hv as [-> ->]; [|done]
  | (load_be32 _ ≫= _) _ = (Some _, _) =>
      let v := fresh "v" in let s1 := fresh in let Hv := fresh "Hv" in
      apply x_bind_some in H as (v & s1 & Hv & H); apply load_be32_some in Hv as [-> ->]; [|done]
  | (ptr_at _ _ ≫= _) _ = (Some _, _) =>
      let l := fresh "l" in let s1 := fresh in let Hl := fresh "Hl" in
      apply x_bind_some in H as (l & s1 & Hl & H); apply ptr_at_some in Hl as (-> & -> & Hl)
  | (load_addr16 _ ≫= _) _ = (Some _, _) => unfold load_addr16 in H at 1
  end.

Lemma be16_at_sl o n f i :
  (i + 1 < n)%nat → (o + n ≤ length f)%nat → be16_at (sl o n f) i = be_value (sl (o + i) 2 f).
Proof.
  intros Hi Hl. unfold be16_at. rewrite !byte_at_sl, Nat.add_assoc by lia.
  destruct (lookup_lt_is_Some_2 f (o + i)) as [a Ha]; [lia|].
  destruct (lookup_lt_is_Some_2 f (o + i + 1)) as [b Hb]; [lia|].
  unfold byte_at. by rewrite Ha, Hb, (sl_2 _ _ _ _ Ha Hb).
Qed.

Lemma bytes_ok_sl o n f : bytes_ok f → bytes_ok (sl o n f).
Proof. intros Hf. apply Forall_take, Forall_drop, Hf. Qed.

Lemma length_sl o n f : (o + n ≤ length f)%nat → length (sl o n f) = n.
Proof. intros Hl. unfold sl. rewrite length_take, length_drop. lia. Qed.

Lemma be_value_sl2 o f : bytes_ok f → 0 ≤ be_value (sl o 2 f) ≤ u16_max.
Proof.
  intros Hf. pose proof (be_value_bound _ (bytes_ok_sl o 2 f Hf)) as Hb. unfold u16_max.
  assert (length (sl o 2 f) ≤ 2)%nat by (unfold sl; rewrite length_take; lia).
  destruct (length (sl o 2 f)) as [|[|[|]]]; [..|lia]; simpl in Hb; lia.
Qed.

Lemma byte_at_ok f i : bytes_ok f → byte_ok (byte_at f i).
Proof.
  intros Hf. unfold byte_at. destruct (f !! i) eqn:E; [by eapply Forall_lookup_1|unfold byte_ok; simpl; lia].
Qed.

Lemma drop_sl a n b f : (a + n = b)%nat → drop a f = sl a n f ++ drop b f.
Proof. intros <-. unfold sl. by rewrite <- drop_drop, take_drop. Qed.

Lemma sl_sl a n b m f : (b + m ≤ n)%nat → sl b m (sl a n f) = sl (a + b) m f.
Proof.
  intros Hb. unfold sl. rewrite <- drop_drop, skipn_firstn_comm, take_take. by rewrite Nat.min_l by lia.
Qed.

Lemma sl_app P X Y a n : length P = a → length X = n → sl a n (P ++ X ++ Y) = X.
Proof. intros <- <-. unfold sl. by rewrite drop_app_length, take_app_length. Qed.

(** Twenty bytes, named. *)
Lemma split_20 (l : list Z) :
  length l = 20%nat → ∃ p0 p1 p2 p3 q0 q1 q2 q3 a0 a1 a2 a3 d fl w0 w1 c0 c1 u0 u1,
    l = syn_header p0 p1 p2 p3 q0 q1 q2 q3 a0 a1 a2 a3 d fl w0 w1 c0 c1 u0 u1.
Proof. intros Hl. do 20 (destruct l as [|? l]; [done|]). destruct l; [|done]. repeat eexists. Qed.

Section filter.
Context `{SipHash} `{LpmTrie} (cfg : Config).

(** A SYN whose TCP header starts at [tcp], read as [y]. *)
Record syn_at (tcp : nat) (f : list Z) (y : Syn) : Prop := {
  syn_at_len : (tcp + 20 ≤ length f)%nat;
  syn_at_src_port : syn_src_port y = be_value (sl tcp 2 f);
  syn_at_dst_port : syn_dst_port y = be_value (sl (tcp + 2) 2 f);
  syn_at_seq : syn_seq y = be_value (sl (tcp + 4) 4 f);
  syn_at_doff : Z.of_nat (syn_doff y) = Z.shiftr (byte_at f (tcp + 12)) 4;
  syn_at_opts : (6 ≤ syn_doff y ≤ 15)%nat;
  syn_at_syn : Z.testbit (byte_at f (tcp + 13)) 1 = true;
  syn_at_not_ack : Z.testbit (byte_at f (tcp + 13)) 4 = false;
  syn_at_port : syn_dst_port y ∈ PROTECT_PORT cfg;
}.

Lemma length_guard_doff doff fixed total :
  length_guard doff fixed total = true → (6 ≤ doff ≤ 15)%nat ∧ total = (fixed + doff * 4)%nat.
Proof.
  unfold length_guard, MAX_TCP_OPTS, MAX_TCP_SEG. intros Hg.
  repeat (apply andb_true_iff in Hg as [Hg ?]). rewrite !negb_true_iff in *.
  rewrite orb_false_iff, !Nat.ltb_ge in *. rewrite Nat.eqb_eq in *. lia.
Qed.

Lemma read_syn_v4_some s y s' :
  bytes_ok (frame s) → read_syn_v4 cfg s = (Some y, s') →
  s' = s ∧ syn_at 34 (frame s) y ∧ syn_src y = sl 26 4 (frame s) ∧ syn_dst y = sl 30 4 (frame s) ∧
  is_Some (lpm_get (PROTECT_V4 cfg) (syn_dst y)) ∧ byte_at (frame s) 23 = 6 ∧
  be_value (sl 16 2 (frame s)) = Z.of_nat (20 + tcp_hdr_len y).
Proof.
  intros Hok. unfold read_syn_v4. intros Hr.
  run_reads Hr. destruct (negb _ || negb _) eqn:Hproto; [done|].
  apply orb_false_iff in Hproto as [_ Hproto]. apply negb_false_iff, Z.eqb_eq in Hproto.
  run_reads Hr. destruct (negb _ || _) eqn:Hsyn; [done|].
  run_reads Hr. destruct (negb _ || negb _) eqn:Hprot; [done|].
  destruct (negb (length_guard _ _ _)) eqn:Hg; [done|].
  run_reads Hr. unfold mret, x_ret in Hr. injection Hr as <- <-.
  apply orb_false_iff in Hsyn as [Hs Ha]. apply orb_false_iff in Hprot as [Hp Hd].
  apply negb_false_iff, length_guard_doff in Hg as [Hg1 Hg2]. apply negb_false_iff in Hs, Hp, Hd.
  apply bool_decide_eq_true in Hp, Hd.
  rewrite !byte_at_sl in * by lia. rewrite be16_at_sl in Hg2 by lia.
  change (OFF_TCP + 12)%nat with (34 + 12)%nat in *. pose proof (byte_at_ok _ (34 + 12) Hok) as Hb46.
  pose proof (be_value_sl2 16 _ Hok). split; [done|].
  split; [split|]; cbn [syn_src_port syn_dst_port syn_seq syn_doff syn_dst syn_src]; try done.
  - rewrite Z2Nat.id; [done|]. apply Z.shiftr_nonneg. apply Hb46.
  - rewrite <- (sl_4 _ _ _ _ _ _ Hb3 Hb4 Hb5 Hb6). split_and!; try done.
    + by rewrite <- (sl_4 _ _ _ _ _ _ Hb Hb0 Hb1 Hb2).
    + unfold tcp_hdr_len. cbn [syn_doff]. rewrite <- Hg2. rewrite Z2Nat.id; [done|apply H1].
Qed.

Lemma read_syn_v6_some s y s' :
  bytes_ok (frame s) → read_syn_v6 cfg s = (Some y, s') →
  s' = s ∧ syn_at 54 (frame s) y ∧ syn_dst y = sl 38 16 (frame s) ∧
  is_Some (lpm_get (PROTECT_V6 cfg) (syn_dst y)) ∧
  be_value (sl 18 2 (frame s)) = Z.of_nat (tcp_hdr_len y).
Proof.
  intros Hok. unfold read_syn_v6. intros Hr.
  run_reads Hr. destruct (negb _); [done|].
  run_reads Hr. destruct (negb _ || _) eqn:Hsyn; [done|].
  run_reads Hr. destruct (negb (protected_port _ _)) eqn:Hp; [done|].
  run_reads Hr. destruct (negb (protected_v6 _ _)) eqn:Hd; [done|].
  destruct (negb (length_guard _ _ _)) eqn:Hg; [done|].
  run_reads Hr. unfold mret, x_ret in Hr. injection Hr as <- <-.
  apply orb_false_iff in Hsyn as [Hs Ha].
  apply negb_false_iff, length_guard_doff in Hg as [Hg1 Hg2]. apply negb_false_iff in Hs, Hp, Hd.
  apply bool_decide_eq_true in Hp, Hd.
  rewrite !byte_at_sl in * by lia. rewrite be16_at_sl in Hg2 by lia.
  change (OFF_TCP6 + 12)%nat with (54 + 12)%nat in *. pose proof (byte_at_ok _ (54 + 12) Hok) as Hb46.
  pose proof (be_value_sl2 18 _ Hok). split; [done|].
  split; [split|]; cbn [syn_src_port syn_dst_port syn_seq syn_doff syn_dst syn_src]; try done.
  - rewrite Z2Nat.id; [done|]. apply Z.shiftr_nonneg. apply Hb46.
  - split_and!; try done. unfold tcp_hdr_len. cbn [syn_doff]. rewrite <- (Nat.add_0_l (_ * 4)), <- Hg2.
    rewrite Z2Nat.id; [done|apply H1].
Qed.

(** ** What is sent back

    The frame that answers the SYN [y] of [f]: MAC addresses, IP addresses and
    ports exchanged, the cookie as sequence number, the SYN's sequence number
    acknowledged, and the options replaced; the rest is the SYN's. *)
Definition synack_frame_v4 (f : list Z) (y : Syn) (cookie mss : Z) (ip_check tcp_check : list Z) : list Z :=
  sl 6 6 f ++ sl 0 6 f ++ sl 12 12 f ++ ip_check ++ sl 30 4 f ++ sl 26 4 f ++
  synack_header (sl 36 2 f ++ sl 34 2 f) cookie (add32 (syn_seq y) 1) (syn_doff y) tcp_check ++
  mss_options (options_len y) mss ++ drop (34 + tcp_hdr_len y) f.

Definition synack_frame_v6 (f : list Z) (y : Syn) (cookie mss : Z) (tcp_check : list Z) : list Z :=
  sl 6 6 f ++ sl 0 6 f ++ sl 12 10 f ++ sl 38 16 f ++ sl 22 16 f ++
  synack_header (sl 56 2 f ++ sl 54 2 f) cookie (add32 (syn_seq y) 1) (syn_doff y) tcp_check ++
  mss_options (options_len y) mss ++ drop (54 + tcp_hdr_len y) f.

(** The pseudo-headers of RFC 793 and RFC 8200. *)
Definition pseudo_v4 (src dst : list Z) (len : nat) : list Z :=
  src ++ dst ++ [0; 6] ++ be_bytes 2 (Z.of_nat len).
Definition pseudo_v6 (src dst : list Z) (len : nat) : list Z :=
  src ++ dst ++ be_bytes 4 (Z.of_nat len) ++ [0; 0; 0; 6].

Lemma length_synack_header ports c a doff ck :
  length ports = 4%nat → length ck = 2%nat → length (synack_header ports c a doff ck) = 20%nat.
Proof. intros Hp Hc. unfold synack_header. rewrite !length_app, !length_be_bytes, Hp, Hc. done. Qed.

Lemma length_mss_options n mss : (4 ≤ n)%nat → length (mss_options n mss) = n.
Proof. intros Hn. unfold mss_options. rewrite !length_app, length_be_bytes, length_replicate. cbn [length]. lia. Qed.

Lemma ports_bytes o f : bytes_ok f → (o + 2 ≤ length f)%nat → sl o 2 f = be_bytes 2 (be_value (sl o 2 f)).
Proof.
  intros Hf Hl. rewrite <- (length_sl o 2 f Hl) at 2. by rewrite be_bytes_be_value by (by apply bytes_ok_sl).
Qed.

(** The segment, below a pseudo-header for the same addresses. *)
Lemma segment_valid P tcp f y addr_sum cookie mss :
  bytes_ok f → syn_at tcp f y → bytes_ok P → Nat.even (length P) = true →
  wsum P = addr_sum + 6 + Z.of_nat (tcp_hdr_len y) → 0 ≤ addr_sum ≤ 10000000 →
  0 ≤ cookie ≤ u32_max → 0 ≤ mss ≤ u16_max →
  let ck := synack_checksum addr_sum (syn_dst_port y) (syn_src_port y) cookie (add32 (syn_seq y) 1)
    (syn_doff y) (options_len y) (tcp_hdr_len y) mss in
  0 ≤ ck ≤ u16_max ∧
  checksum_ok (P ++ synack_header (sl (tcp + 2) 2 f ++ sl tcp 2 f) cookie (add32 (syn_seq y) 1) (syn_doff y)
    (be_bytes 2 ck) ++ mss_options (options_len y) mss) = true.
Proof.
  intros Hok [Hl Hsp Hdp _ _ Ho _ _ _] HP Hev HwP Has Hc Hm. cbv zeta.
  rewrite (ports_bytes (tcp + 2) f), (ports_bytes tcp f), <- Hsp, <- Hdp by (done || lia).
  destruct (segment_checksum_ok P addr_sum (syn_dst_port y) (syn_src_port y) cookie (add32 (syn_seq y) 1)
    (syn_doff y) (options_len y) mss) as [Hv Hb]; try done.
  - rewrite Hdp. by apply be_value_sl2.
  - rewrite Hsp. by apply be_value_sl2.
  - apply add32_bound.
Qed.

(** The bytes of a SYN's TCP header at [tcp], named. *)
Lemma tcp_split f tcp n :
  (tcp + 20 + n ≤ length f)%nat →
  ∃ p0 p1 p2 p3 q0 q1 q2 q3 a0 a1 a2 a3 d fl w0 w1 c0 c1 u0 u1,
    sl tcp 2 f = [p0; p1] ∧ sl (tcp + 2) 2 f = [p2; p3] ∧
    drop tcp f = syn_header p0 p1 p2 p3 q0 q1 q2 q3 a0 a1 a2 a3 d fl w0 w1 c0 c1 u0 u1 ++
      sl (tcp + 20) n f ++ drop (tcp + (20 + n)) f.
Proof.
  intros Hl. destruct (split_20 (sl tcp 20 f)) as
    (p0 & p1 & p2 & p3 & q0 & q1 & q2 & q3 & a0 & a1 & a2 & a3 & d & fl & w0 & w1 & c0 & c1 & u0 & u1 & Hh);
    [apply length_sl; lia|].
  do 20 eexists. rewrite <- (Nat.add_0_r tcp) at 1. rewrite <- (sl_sl tcp 20 0 2), <- (sl_sl tcp 20 2 2), Hh by lia.
  split; [done|]. split; [done|].
  by rewrite (drop_sl tcp 20 (tcp + 20)), Hh, (drop_sl (tcp + 20) n (tcp + (20 + n))) by lia.
Qed.

Lemma wsum_pair_addr a b n f :
  bytes_ok f → (a + n ≤ length f)%nat → (b + n ≤ length f)%nat → (n ≤ 16)%nat → Nat.even n = true →
  sum_words (sl a n f ++ sl b n f) 0 = wsum (sl a n f) + wsum (sl b n f) ∧
  0 ≤ wsum (sl a n f) ≤ 1048560 ∧ 0 ≤ wsum (sl b n f) ≤ 1048560.
Proof.
  intros Hok Ha Hb Hn He. pose proof (wsum_bound _ (bytes_ok_sl a n f Hok)) as Hwa.
  pose proof (wsum_bound _ (bytes_ok_sl b n f Hok)) as Hwb. rewrite length_sl in Hwa, Hwb by lia.
  split; [|lia]. rewrite sum_words_eq, wsum_app; [lia|by rewrite length_sl|
    apply bytes_ok_app; split; by apply bytes_ok_sl|lia|rewrite length_app, !length_sl by lia; unfold u32_max; lia].
Qed.

Ltac sl_lens := rewrite ?length_app, ?length_sl by lia; lia.

Lemma synack_v4_slices f y cookie mss ck tck :
  (54 ≤ length f)%nat → (6 ≤ syn_doff y ≤ 15)%nat → length ck = 2%nat → length tck = 2%nat →
  let f' := synack_frame_v4 f y cookie mss ck tck in
  sl 14 20 f' = sl 14 10 f ++ ck ++ sl 30 4 f ++ sl 26 4 f ∧
  sl 26 4 f' = sl 30 4 f ∧ sl 30 4 f' = sl 26 4 f ∧
  sl 34 (tcp_hdr_len y) f'
  = synack_header (sl 36 2 f ++ sl 34 2 f) cookie (add32 (syn_seq y) 1) (syn_doff y) tck ++
    mss_options (options_len y) mss.
Proof.
  intros Hl Hd Hc Ht f'. set (hdr := synack_header _ _ _ _ _).
  assert (length hdr = 20%nat) as Lh by (apply length_synack_header; [rewrite length_app, !length_sl by lia|]; done).
  assert (length (mss_options (options_len y) mss) = options_len y) as Lo
    by (apply length_mss_options; unfold options_len, tcp_hdr_len; lia).
  assert (sl 12 12 f = sl 12 2 f ++ sl 14 10 f) as E12.
  { unfold sl at 1. rewrite (drop_sl 12 2 14), take_app by lia. rewrite length_sl, take_ge by (rewrite ?length_sl; lia). done. }
  set (R := drop (34 + tcp_hdr_len y) f). unfold f', synack_frame_v4. fold hdr R. rewrite E12. split_and!.
  - etrans; [|apply (sl_app (sl 6 6 f ++ sl 0 6 f ++ sl 12 2 f) (sl 14 10 f ++ ck ++ sl 30 4 f ++ sl 26 4 f)
      (hdr ++ mss_options (options_len y) mss ++ R))]; [by rewrite <- !app_assoc|sl_lens..].
  - etrans; [|apply (sl_app (sl 6 6 f ++ sl 0 6 f ++ sl 12 2 f ++ sl 14 10 f ++ ck) (sl 30 4 f)
      (sl 26 4 f ++ hdr ++ mss_options (options_len y) mss ++ R))]; [by rewrite <- !app_assoc|sl_lens..].
  - etrans; [|apply (sl_app (sl 6 6 f ++ sl 0 6 f ++ sl 12 2 f ++ sl 14 10 f ++ ck ++ sl 30 4 f) (sl 26 4 f)
      (hdr ++ mss_options (options_len y) mss ++ R))]; [by rewrite <- !app_assoc|sl_lens..].
  - etrans; [|apply (sl_app (sl 6 6 f ++ sl 0 6 f ++ sl 12 2 f ++ sl 14 10 f ++ ck ++ sl 30 4 f ++ sl 26 4 f)
      (hdr ++ mss_options (options_len y) mss) R)]; [by rewrite <- !app_assoc|sl_lens|].
    rewrite length_app, Lh, Lo. unfold options_len, tcp_hdr_len. lia.
Qed.

Lemma reply_v4_sends s y cookie mss :
  let f := frame s in
  bytes_ok f → syn_at 34 f y → syn_src y = sl 26 4 f → syn_dst y = sl 30 4 f →
  (34 + tcp_hdr_len y ≤ length f)%nat → 0 ≤ cookie ≤ u32_max → 0 ≤ mss ≤ u16_max →
  ∃ ip_check tcp_check, length ip_check = 2%nat ∧ length tcp_check = 2%nat ∧
    let f' := synack_frame_v4 f y cookie mss ip_check tcp_check in
    reply_v4 y cookie mss s = (Some XDP_TX, set_frame f' s) ∧
    checksum_ok (sl 14 20 f') = true ∧
    checksum_ok (pseudo_v4 (sl 26 4 f') (sl 30 4 f') (tcp_hdr_len y) ++ sl 34 (tcp_hdr_len y) f') = true.
Proof.
  intros f Hok Hsyn Hsrc Hdst Hlen Hc Hm. destruct Hsyn as [Hl Hsp Hdp Hsq Hdo Ho Hs Ha Hp].
  assert (tcp_hdr_len y = 20 + options_len y)%nat as Hn by (unfold options_len, tcp_hdr_len; lia).
  destruct (tcp_split f 34 (options_len y)) as
    (p0 & p1 & p2 & p3 & q0 & q1 & q2 & q3 & a0 & a1 & a2 & a3 & d & fl & w0 & w1 & c0 & c1 & u0 & u1 & E34 & E36 & Hh);
    [lia|].
  assert (∃ k0 k1, sl 24 2 f = [k0; k1]) as (k0 & k1 & E24).
  { pose proof (length_sl 24 2 f ltac:(lia)) as L. destruct (sl 24 2 f) as [|? [|? [|]]]; try done. eauto. }
  assert (f = sl 0 6 f ++ sl 6 6 f ++ sl 12 12 f ++ [k0; k1] ++ sl 26 4 f ++ sl 30 4 f ++
    syn_header p0 p1 p2 p3 q0 q1 q2 q3 a0 a1 a2 a3 d fl w0 w1 c0 c1 u0 u1 ++
    sl 54 (options_len y) f ++ drop (34 + tcp_hdr_len y) f) as Hf.
  { rewrite Hn, <- E24. rewrite <- (drop_0 f) at 1. rewrite (drop_sl 0 6 6), (drop_sl 6 6 12),
      (drop_sl 12 12 24), (drop_sl 24 2 26), (drop_sl 26 4 30), (drop_sl 30 4 34), Hh by lia. done. }
  assert (drop 2 (sl 12 12 f) = sl 14 10 f) as E14 by (unfold sl; by rewrite skipn_firstn_comm, drop_drop).
  destruct (ip_checksum_ok (sl 14 10 f) (sl 30 4 f ++ sl 26 4 f)) as [Hipok Hipb];
    [by apply bytes_ok_sl|apply bytes_ok_app; split; by apply bytes_ok_sl|by apply length_sl; lia|
     rewrite length_app, !length_sl by lia; done|].
  destruct (wsum_pair_addr 26 30 4 f) as (Hsum & Hws & Hwd); [done|lia..|done|].
  rewrite <- Hsrc, <- Hdst in Hsum at 1.
  destruct (segment_valid (pseudo_v4 (sl 30 4 f) (sl 26 4 f) (tcp_hdr_len y)) 34 f y
    (sum_words (syn_src y ++ syn_dst y) 0) cookie mss) as [Htb Htok]; try done; try lia.
  { unfold pseudo_v4. rewrite !bytes_ok_app. split_and!; try (by apply bytes_ok_sl); [|apply be_bytes_ok].
    repeat constructor; unfold byte_ok; lia. }
  { unfold pseudo_v4. rewrite !length_app, !length_sl, length_be_bytes by lia. done. }
  { unfold pseudo_v4. rewrite Hsum, !wsum_app, wsum_be2
      by (rewrite ?length_sl by lia; done || (unfold u16_max, tcp_hdr_len; lia)).
    cbn [wsum]. rewrite be_pair. lia. }
  set (ick := fold_checksum _) in Hipok, Hipb. set (tck := synack_checksum _ _ _ _ _ _ _ _ _) in Htb, Htok.
  exists (be_bytes 2 ick), (be_bytes 2 tck). split; [|split]; [apply length_be_bytes|apply length_be_bytes|]. cbv zeta.
  destruct (synack_v4_slices f y cookie mss (be_bytes 2 ick) (be_bytes 2 tck)
    ltac:(lia) Ho (length_be_bytes 2 _) (length_be_bytes 2 _))
    as (-> & -> & -> & ->).
  split; [|split; [exact Hipok|exact Htok]].
  erewrite (reply_v4_at (sl 0 6 f) (sl 6 6 f) p0 p1 p2 p3 q0 q1 q2 q3 a0 a1 a2 a3 d fl w0 w1 c0 c1 u0 u1);
    try exact Hf; try exact Htb; try (by apply bytes_ok_sl); try (by apply length_sl; lia); try done.
  - unfold synack_frame_v4. change (34 + 2)%nat with 36%nat in E36. rewrite E14, E34, E36. done.
  - rewrite <- E34. by apply bytes_ok_sl.
  - rewrite <- E36. by apply bytes_ok_sl.
Qed.

Lemma synack_v6_slices f y cookie mss tck :
  (74 ≤ length f)%nat → (6 ≤ syn_doff y ≤ 15)%nat → length tck = 2%nat →
  let f' := synack_frame_v6 f y cookie mss tck in
  sl 22 16 f' = sl 38 16 f ∧ sl 38 16 f' = sl 22 16 f ∧
  sl 54 (tcp_hdr_len y) f'
  = synack_header (sl 56 2 f ++ sl 54 2 f) cookie (add32 (syn_seq y) 1) (syn_doff y) tck ++
    mss_options (options_len y) mss.
Proof.
  intros Hl Hd Ht f'. set (hdr := synack_header _ _ _ _ _).
  assert (length hdr = 20%nat) as Lh by (apply length_synack_header; [rewrite length_app, !length_sl by lia|]; done).
  assert (length (mss_options (options_len y) mss) = options_len y) as Lo
    by (apply length_mss_options; unfold options_len, tcp_hdr_len; lia).
  set (R := drop (54 + tcp_hdr_len y) f). unfold f', synack_frame_v6. fold hdr R. split_and!.
  - etrans; [|apply (sl_app (sl 6 6 f ++ sl 0 6 f ++ sl 12 10 f) (sl 38 16 f)
      (sl 22 16 f ++ hdr ++ mss_options (options_len y) mss ++ R))]; [by rewrite <- !app_assoc|sl_lens..].
  - etrans; [|apply (sl_app (sl 6 6 f ++ sl 0 6 f ++ sl 12 10 f ++ sl 38 16 f) (sl 22 16 f)
      (hdr ++ mss_options (options_len y) mss ++ R))]; [by rewrite <- !app_assoc|sl_lens..].
  - etrans; [|apply (sl_app (sl 6 6 f ++ sl 0 6 f ++ sl 12 10 f ++ sl 38 16 f ++ sl 22 16 f)
      (hdr ++ mss_options (options_len y) mss) R)]; [by rewrite <- !app_assoc|sl_lens|].
    rewrite length_app, Lh, Lo. unfold options_len, tcp_hdr_len. lia.
Qed.

Lemma reply_v6_sends s y cookie mss :
  let f := frame s in
  bytes_ok f → syn_at 54 f y → (54 + tcp_hdr_len y ≤ length f)%nat →
  0 ≤ cookie ≤ u32_max → 0 ≤ mss ≤ u16_max →
  ∃ tcp_check, length tcp_check = 2%nat ∧
    let f' := synack_frame_v6 f y cookie mss tcp_check in
    reply_v6 y cookie mss s = (Some XDP_TX, set_frame f' s) ∧
    checksum_ok (pseudo_v6 (sl 22 16 f') (sl 38 16 f') (tcp_hdr_len y) ++ sl 54 (tcp_hdr_len y) f') = true.
Proof.
  intros f Hok Hsyn Hlen Hc Hm. destruct Hsyn as [Hl Hsp Hdp Hsq Hdo Ho Hs Ha Hp].
  assert (tcp_hdr_len y = 20 + options_len y)%nat as Hn by (unfold options_len, tcp_hdr_len; lia).
  destruct (tcp_split f 54 (options_len y)) as
    (p0 & p1 & p2 & p3 & q0 & q1 & q2 & q3 & a0 & a1 & a2 & a3 & d & fl & w0 & w1 & c0 & c1 & u0 & u1 & E34 & E36 & Hh);
    [lia|].
  assert (f = sl 0 6 f ++ sl 6 6 f ++ sl 12 10 f ++ sl 22 16 f ++ sl 38 16 f ++
    syn_header p0 p1 p2 p3 q0 q1 q2 q3 a0 a1 a2 a3 d fl w0 w1 c0 c1 u0 u1 ++
    sl 74 (options_len y) f ++ drop (54 + tcp_hdr_len y) f) as Hf.
  { rewrite Hn. rewrite <- (drop_0 f) at 1. rewrite (drop_sl 0 6 6), (drop_sl 6 6 12),
      (drop_sl 12 10 22), (drop_sl 22 16 38), (drop_sl 38 16 54), Hh by lia. done. }
  assert (add32 (sum_addr16 (sl 38 16 f)) (sum_addr16 (sl 22 16 f)) = wsum (sl 38 16 f) + wsum (sl 22 16 f) ∧
    0 ≤ wsum (sl 38 16 f) ≤ 1048560 ∧ 0 ≤ wsum (sl 22 16 f) ≤ 1048560) as (Hsum & Hwd & Hws).
  { destruct (wsum_pair_addr 38 22 16 f) as (_ & Hd & Hs'); [done|lia..|done|]. split; [|done].
    unfold sum_addr16. rewrite !sum_words_eq by (try (by apply bytes_ok_sl); rewrite ?length_sl by lia; unfold u32_max; lia).
    unfold add32, u32_max. rewrite Z.mod_small by lia. lia. }
  destruct (segment_valid (pseudo_v6 (sl 38 16 f) (sl 22 16 f) (tcp_hdr_len y)) 54 f y
    (add32 (sum_addr16 (sl 38 16 f)) (sum_addr16 (sl 22 16 f))) cookie mss) as [Htb Htok]; try done; try lia.
  { unfold pseudo_v6. rewrite !bytes_ok_app. split_and!; try (by apply bytes_ok_sl); [apply be_bytes_ok|].
    repeat constructor; unfold byte_ok; lia. }
  { unfold pseudo_v6. rewrite !length_app, !length_sl, length_be_bytes by lia. done. }
  { unfold pseudo_v6. rewrite Hsum, !wsum_app, wsum_be4
      by (rewrite ?length_sl, ?length_be_bytes by lia; done || (unfold u32_max, tcp_hdr_len; lia)).
    rewrite Z.div_small, Z.mod_small by (unfold tcp_hdr_len; lia). cbn [wsum]. rewrite !be_pair. lia. }
  set (tck := synack_checksum _ _ _ _ _ _ _ _ _) in Htb, Htok.
  exists (be_bytes 2 tck). split; [apply length_be_bytes|]. cbv zeta.
  destruct (synack_v6_slices f y cookie mss (be_bytes 2 tck) ltac:(lia) Ho (length_be_bytes 2 _)) as (-> & -> & ->).
  split; [|exact Htok].
  erewrite (reply_v6_at (sl 0 6 f) (sl 6 6 f) p0 p1 p2 p3 q0 q1 q2 q3 a0 a1 a2 a3 d fl w0 w1 c0 c1 u0 u1);
    try exact Hf; try exact Htb; try (by apply bytes_ok_sl); try (by apply length_sl; lia); try done.
  - unfold synack_frame_v6. change (54 + 2)%nat with 56%nat in E36. rewrite E34, E36. done.
  - rewrite <- E34. by apply bytes_ok_sl.
  - rewrite <- E36. by apply bytes_ok_sl.
Qed.
End filter.
