(* ===== verification/EbpfVerdict.v ===== *)
(** * The stages of the XDP program composed

    Which frames [xdp_filter] drops, answers and passes, on every path through
    [try_filter], and that its answers open connections the user-space
    responder accepts. *)
From stdpp Require Import prelude gmap sorting.
From S2P Require Import Prelude Net Bytes Cookie XdpMaps Ebpf EbpfReply EbpfFilter.

Open Scope Z_scope.

(** ** Computations that only read the frame *)

Class Reader {A} (m : X A) : Prop := {
  reader_state : ∀ s, (m s).2 = s;
  reader_frame : ∀ s s', frame s = frame s' → (m s).1 = (m s').1;
}.

#[export] Instance reader_bind {A B} (m : X A) (k : A → X B) :
  Reader m → (∀ a, Reader (k a)) → Reader (m ≫= k).
Proof.
  intros Hm Hk. split.
  - intros s. unfold mbind, x_bind. pose proof (reader_state (m := m) s) as Hs.
    destruct (m s) as [[a|] s1]; simpl in *; subst; [apply (Hk a)|done].
  - intros s s' Hf. unfold mbind, x_bind. pose proof (reader_state (m := m) s). pose proof (reader_state (m := m) s').
    pose proof (reader_frame (m := m) s s' Hf) as He.
    destruct (m s) as [[a|] s1], (m s') as [[a'|] s1']; simplify_eq/=; [by apply (Hk a')|done].
Qed.
#[export] Instance reader_ret {A} (a : A) : Reader (mret a).
Proof. by split. Qed.
#[export] Instance reader_err {A} : Reader (@err A).
Proof. by split. Qed.
#[export] Instance reader_if {A} (b : bool) (m1 m2 : X A) :
  Reader m1 → Reader m2 → Reader (if b then m1 else m2).
Proof. by destruct b. Qed.
#[export] Instance reader_load_u8 o : Reader (load_u8 o).
Proof.
  split; [|intros s s' Hf]; unfold load_u8; [intros s|rewrite Hf]; by destruct (_ !! _).
Qed.
#[export] Instance reader_ptr_at o n : Reader (ptr_at o n).
Proof.
  split; [|intros s s' Hf]; unfold ptr_at; [intros s|rewrite Hf]; by destruct (_ <? _)%nat.
Qed.
#[export] Instance reader_load_be16 o : Reader (load_be16 o).
Proof. unfold load_be16. apply _. Qed.
#[export] Instance reader_load_be32 o : Reader (load_be32 o).
Proof. unfold load_be32. apply _. Qed.
#[export] Instance reader_load_addr16 o : Reader (load_addr16 o).
Proof. unfold load_addr16. apply _. Qed.
#[export] Instance reader_parse_mss o : Reader (parse_mss o).
Proof. unfold parse_mss. apply _. Qed.
#[export] Instance reader_read_syn_v4 `{LpmTrie} cfg : Reader (read_syn_v4 cfg).
Proof. unfold read_syn_v4. apply _. Qed.
#[export] Instance reader_read_syn_v6 `{LpmTrie} cfg : Reader (read_syn_v6 cfg).
Proof. unfold read_syn_v6. apply _. Qed.
#[export] Instance reader_try_redirect_udp_v4 `{LpmTrie} cfg q x : Reader (try_redirect_udp_v4 cfg q x).
Proof. unfold try_redirect_udp_v4. apply _. Qed.

(** A reader's result, on any state with the same frame. *)
Lemma reader_run {A} (m : X A) `{!Reader m} s s' :
  frame s' = frame s → m s' = ((m s).1, s').
Proof.
  intros Hf. rewrite (surjective_pairing (m s')). by rewrite reader_state, (reader_frame s' s).
Qed.

Section verdict.
Context `{SipHash} `{LpmTrie} (cfg : Config).
Context (ktime : nat → Z) (ring_has_room : list CaptureFrame → bool).
Context (rx_queue_index : Z) (xsk_redirect : Z → option Z).

Abbreviation decide_as := (decide_as cfg ktime ring_has_room).
Abbreviation xdp_filter := (xdp_filter cfg ktime ring_has_room rx_queue_index xsk_redirect).

(** Counting and capturing leave the frame alone. *)
Lemma decide_as_spec reason action len s :
  ∃ s', decide_as reason action len s = (Some action, s') ∧ frame s' = frame s.
Proof.
  unfold Ebpf.decide_as, count, capture, act, bpf_ktime_get_ns. unfold mbind, x_bind, mret, x_ret.
  destruct (STATS s !! reason); repeat case_match; simplify_eq/=; eauto.
Qed.

(** ** The cookie *)

Definition conn (src : IpAddr) (dst : IpAddr) (y : Syn) : ConnTuple := {|
  ct_src := src; ct_src_port := syn_src_port y; ct_dst := dst; ct_dst_port := syn_dst_port y |}.

(** Accepted by the responder for the 64-second slot of [now] and the next. *)
Definition accepted (key : list Z) (tuple : ConnTuple) (now cookie mss : Z) : Prop :=
  ∀ t, 64 ≤ t ≤ u64_max → slot now = slot t ∨ slot now = slot t - 1 →
    check_cookie key tuple (add32 cookie 1) t = Ret (Some mss).

Lemma mint_accepted key tuple client_mss now s :
  ∃ cookie mss,
    mint (ckv_k0 (encode_cookie_key key)) (ckv_k1 (encode_cookie_key key)) (ip_octets (ct_src tuple))
      (ct_src_port tuple) (ip_octets (ct_dst tuple)) (ct_dst_port tuple) client_mss now s
    = (Some (cookie, mss), s) ∧
    0 ≤ cookie ≤ u32_max ∧ 0 ≤ mss ≤ u16_max ∧ accepted key tuple now cookie mss.
Proof.
  destruct (make_cookie_eq key tuple client_mss now) as (v & Hv & Hmk).
  set (c := cookie_word _ _ _) in Hmk. exists c, v.
  assert (0 ≤ c ≤ u32_max) as Hc by (apply cookie_word_bound, siphash_u64).
  split_and!; [| |lia|..].
  - unfold mint. pose proof (encode_cookie_key_pair key) as Hp. unfold make_cookie in Hmk. rewrite <- Hp in Hmk.
    unfold ip_addr_octets in Hmk. by rewrite Hmk.
  - lia.
  - apply list_elem_of_lookup_2 in Hv. unfold MSS_TABLE in Hv.
    repeat (apply elem_of_cons in Hv as [->|Hv]; [lia|]). by apply elem_of_nil in Hv.
  - apply list_elem_of_lookup_2 in Hv. unfold MSS_TABLE, u16_max in *.
    repeat (apply elem_of_cons in Hv as [->|Hv]; [lia|]). by apply elem_of_nil in Hv.
  - intros t Ht Hs. eapply check_cookie_minted; [done|exact Hs|]. rewrite Hmk. do 2 f_equal.
    unfold wrapping_pred, add32. rewrite Zminus_mod_idemp_l. rewrite Z.mod_small by lia. lia.
Qed.

(** ** The gates *)

(** Whether the source's bucket lets the packet through. *)
Definition rate_admits (src : list Z) (s : Xdp) : bool :=
  match RATE s !! src with Some b => (take_token (ktime (ktime_calls s)) b).1 | None => true end.

Lemma over_rate_spec src s :
  ∃ s1, over_rate ktime src s = (Some (negb (rate_admits src s)), s1) ∧
    frame s1 = frame s ∧ TX_BUDGET s1 = TX_BUDGET s ∧ ktime_calls s1 = S (ktime_calls s).
Proof.
  unfold over_rate, bpf_ktime_get_ns, check_rate, rate_admits, mbind, x_bind. cbn [tick_clock RATE].
  destruct (RATE s !! src) as [b|]; [|by eexists]. destruct (take_token _ b). by eexists.
Qed.

(** Whether the SYN-ACK budget lets a SYN be answered at [now]. *)
Definition budget_allows (now : Z) (s : Xdp) : bool := default false (tx_budget_ok now s).1.

Lemma budget_allows_ext now s s' : TX_BUDGET s' = TX_BUDGET s → budget_allows now s' = budget_allows now s.
Proof. intros He. unfold budget_allows, tx_budget_ok. rewrite He. repeat case_match; done. Qed.

Lemma budget_gate_spec now s :
  ∃ s1, budget_gate now s = (if budget_allows now s then Some () else None, s1) ∧
    frame s1 = frame s ∧ ktime_calls s1 = ktime_calls s.
Proof.
  unfold budget_gate, budget_allows. assert (∃ b s1, tx_budget_ok now s = (Some b, s1) ∧ frame s1 = frame s ∧
    ktime_calls s1 = ktime_calls s) as (b & s1 & Hb & Hf & Hk).
  { unfold tx_budget_ok. repeat case_match; by eexists _, _. }
  rewrite (x_bind_ok _ _ _ _ _ Hb), Hb. cbn [fst default id]. destruct b; [by eexists|].
  unfold frame_len, reads, count, act, err, mbind, x_bind. cbn [negb].
  destruct (STATS s1 !! _); eexists; (split; [done|]); done.
Qed.

Lemma parse_mss_ok o s : (o + 4 ≤ length (frame s))%nat → ∃ m, parse_mss o s = (Some m, s).
Proof.
  intros Hl. unfold parse_mss.
  destruct (lookup_lt_is_Some_2 (frame s) o) as [a Ha]; [lia|].
  destruct (lookup_lt_is_Some_2 (frame s) (o + 1)) as [b Hb]; [lia|].
  rewrite (x_bind_ok _ _ _ _ _ (load_u8_ok _ _ _ Ha)), (x_bind_ok _ _ _ _ _ (load_u8_ok _ _ _ Hb)).
  destruct (_ && _); [|by eexists].
  destruct (lookup_lt_is_Some_2 (frame s) (o + 2)) as [c Hc]; [lia|].
  destruct (lookup_lt_is_Some_2 (frame s) (o + 2 + 1)) as [d Hd]; [lia|].
  unfold load_be16. rewrite (x_bind_ok _ _ _ _ _ (load_u8_ok _ _ _ Hc)), (x_bind_ok _ _ _ _ _ (load_u8_ok _ _ _ Hd)).
  by eexists.
Qed.

Lemma load_be16_ok o s :
  bytes_ok (frame s) → (o + 2 ≤ length (frame s))%nat → load_be16 o s = (Some (be_value (sl o 2 (frame s))), s).
Proof.
  intros Hok Hl. destruct (lookup_lt_is_Some_2 (frame s) o) as [a Ha]; [lia|].
  destruct (lookup_lt_is_Some_2 (frame s) (o + 1)) as [b Hb]; [lia|].
  rewrite (sl_2 _ _ _ _ Ha Hb). by apply load_be16_val; [..|eapply Forall_lookup_1].
Qed.

Lemma load_addr16_ok o s : (o + 16 ≤ length (frame s))%nat → load_addr16 o s = (Some (sl o 16 (frame s)), s).
Proof. intros Hl. unfold load_addr16, ptr_at, sl. by rewrite (proj2 (Nat.ltb_ge _ _)) by lia. Qed.

Lemma octets_sl4 o f : bytes_ok f → (o + 4 ≤ length f)%nat → ip_octets (V4 (be_value (sl o 4 f))) = sl o 4 f.
Proof.
  intros Hf Hl. cbn [ip_octets]. rewrite <- (length_sl o 4 f Hl) at 1. by apply be_bytes_be_value, bytes_ok_sl.
Qed.

Lemma octets_sl16 o f : bytes_ok f → (o + 16 ≤ length f)%nat → ip_octets (V6 (be_value (sl o 16 f))) = sl o 16 f.
Proof.
  intros Hf Hl. cbn [ip_octets]. rewrite <- (length_sl o 16 f Hl) at 1. by apply be_bytes_be_value, bytes_ok_sl.
Qed.

(** ** Answers *)

(** The frame [f'] answers the SYN [y] of [f] with the given cookie. *)
Definition answers_v4 (f : list Z) (y : Syn) (cookie mss : Z) (f' : list Z) : Prop :=
  (∃ ip_check tcp_check, length ip_check = 2%nat ∧ length tcp_check = 2%nat ∧
    f' = synack_frame_v4 f y cookie mss ip_check tcp_check) ∧
  checksum_ok (sl 14 20 f') = true ∧
  checksum_ok (pseudo_v4 (sl 26 4 f') (sl 30 4 f') (tcp_hdr_len y) ++ sl 34 (tcp_hdr_len y) f') = true.

Definition answers_v6 (f : list Z) (y : Syn) (cookie mss : Z) (f' : list Z) : Prop :=
  (∃ tcp_check, length tcp_check = 2%nat ∧ f' = synack_frame_v6 f y cookie mss tcp_check) ∧
  checksum_ok (pseudo_v6 (sl 22 16 f') (sl 38 16 f') (tcp_hdr_len y) ++ sl 54 (tcp_hdr_len y) f') = true.

Lemma try_synack_v4_answers key s y :
  let now := ktime (ktime_calls s) in
  bytes_ok (frame s) → (read_syn_v4 cfg s).1 = Some y → (34 + tcp_hdr_len y ≤ length (frame s))%nat →
  COOKIE_KEY cfg = Some (encode_cookie_key key) → budget_allows now s = true →
  ∃ s1 cookie mss, try_synack_v4 cfg ktime s = (Some XDP_TX, s1) ∧
    answers_v4 (frame s) y cookie mss (frame s1) ∧
    accepted key (conn (V4 (be_value (syn_src y))) (V4 (be_value (syn_dst y))) y) (now / NS_PER_SEC) cookie mss.
Proof.
  intros now Hok Hr Hl Hkey Hbud. pose proof (reader_run (read_syn_v4 cfg) s s eq_refl) as Hrun. rewrite Hr in Hrun.
  destruct (read_syn_v4_some cfg s y s Hok Hrun) as (_ & Hsyn & Hsrc & Hdst & _ & _ & _).
  pose proof (syn_at_len _ _ _ _ Hsyn). pose proof (syn_at_opts _ _ _ _ Hsyn).
  unfold try_synack_v4. rewrite (x_bind_ok _ _ _ _ _ Hrun).
  destruct (parse_mss_ok OFF_TCP_OPTS s) as [cm Hcm]; [unfold OFF_TCP_OPTS, OFF_TCP, OFF_IP, tcp_hdr_len in *; lia|].
  rewrite (x_bind_ok _ _ _ _ _ Hcm). unfold cookie_keys. rewrite Hkey.
  rewrite (x_bind_ok _ _ _ (ckv_k0 (encode_cookie_key key), ckv_k1 (encode_cookie_key key)) s) by done.
  rewrite (x_bind_ok _ _ _ now (tick_clock s)) by done.
  destruct (budget_gate_spec now (tick_clock s)) as (s1 & Hg & Hf1 & Hk1).
  rewrite (budget_allows_ext now s) in Hg by done. rewrite Hbud in Hg. rewrite (x_bind_ok _ _ _ _ _ Hg).
  set (tuple := conn _ _ _).
  destruct (mint_accepted key tuple cm (now / NS_PER_SEC) s1) as (cookie & mss & Hm & Hc & Hms & Hacc).
  rewrite (x_bind_ok _ _ _ (cookie, mss) s1).
  2:{ rewrite <- Hm. unfold tuple, conn. cbn [ct_src ct_dst ct_src_port ct_dst_port].
      rewrite Hsrc, Hdst, !octets_sl4 by (done || lia). done. }
  change (frame (tick_clock s)) with (frame s) in Hf1. rewrite <- Hf1 in Hok, Hsyn, Hsrc, Hdst, Hl.
  destruct (reply_v4_sends cfg s1 y cookie mss Hok Hsyn Hsrc Hdst Hl Hc Hms) as (ick & tck & Hi & Ht & Hrep & Hv1 & Hv2).
  eexists _, cookie, mss. split; [exact Hrep|]. rewrite frame_set. rewrite Hf1 in *. split; [|done].
  split; [by exists ick, tck|done].
Qed.

Lemma try_synack_v6_answers key s y :
  let now := ktime (ktime_calls s) in
  bytes_ok (frame s) → (read_syn_v6 cfg s).1 = Some y → (54 + tcp_hdr_len y ≤ length (frame s))%nat →
  COOKIE_KEY cfg = Some (encode_cookie_key key) → budget_allows now s = true →
  ∃ s1 cookie mss, try_synack_v6 cfg ktime s = (Some XDP_TX, s1) ∧
    answers_v6 (frame s) y cookie mss (frame s1) ∧
    accepted key (conn (V6 (be_value (sl 22 16 (frame s)))) (V6 (be_value (syn_dst y))) y)
      (ktime (S (ktime_calls s)) / NS_PER_SEC) cookie mss.
Proof.
  intros now Hok Hr Hl Hkey Hbud. pose proof (reader_run (read_syn_v6 cfg) s s eq_refl) as Hrun. rewrite Hr in Hrun.
  destruct (read_syn_v6_some cfg s y s Hok Hrun) as (_ & Hsyn & Hdst & _ & _).
  pose proof (syn_at_len _ _ _ _ Hsyn). pose proof (syn_at_opts _ _ _ _ Hsyn).
  unfold try_synack_v6. rewrite (x_bind_ok _ _ _ _ _ Hrun). unfold cookie_keys. rewrite Hkey.
  rewrite (x_bind_ok _ _ _ (ckv_k0 (encode_cookie_key key), ckv_k1 (encode_cookie_key key)) s) by done.
  rewrite (x_bind_ok _ _ _ now (tick_clock s)) by done.
  destruct (budget_gate_spec now (tick_clock s)) as (s1 & Hg & Hf1 & Hk1).
  rewrite (budget_allows_ext now s) in Hg by done. rewrite Hbud in Hg. rewrite (x_bind_ok _ _ _ _ _ Hg).
  cbn [tick_clock ktime_calls frame] in Hf1, Hk1. rewrite <- Hf1 in Hok, Hsyn, Hdst, Hl, H1 |- *.
  set (tuple := conn _ _ _). set (s2 := tick_clock s1).
  destruct (parse_mss_ok OFF_TCP6_OPTS s2) as [cm Hcm];
    [unfold OFF_TCP6_OPTS, OFF_TCP6, OFF_IP6, tcp_hdr_len in *; cbn [s2 tick_clock frame]; lia|].
  destruct (mint_accepted key tuple cm (ktime (ktime_calls s1) / NS_PER_SEC) s2) as (cookie & mss & Hm & Hc & Hms & Hacc).
  assert (compute_cookie_v6 ktime (ckv_k0 (encode_cookie_key key)) (ckv_k1 (encode_cookie_key key)) s1
    = (Some (cookie, mss), s2)) as Hcc.
  { unfold compute_cookie_v6. rewrite (x_bind_ok _ _ _ (ktime (ktime_calls s1)) s2) by done.
    rewrite (x_bind_ok _ _ _ _ _ (load_addr16_ok OFF_IP6_SRC s2 ltac:(unfold OFF_IP6_SRC, OFF_IP6; simpl; lia))).
    rewrite (x_bind_ok _ _ _ _ _ (load_addr16_ok OFF_IP6_DST s2 ltac:(unfold OFF_IP6_DST, OFF_IP6; simpl; lia))).
    rewrite (x_bind_ok _ _ _ _ _ (load_be16_ok OFF_TCP6_SRCPORT s2 Hok ltac:(unfold OFF_TCP6_SRCPORT, OFF_TCP6, OFF_IP6; simpl; lia))).
    rewrite (x_bind_ok _ _ _ _ _ (load_be16_ok OFF_TCP6_DSTPORT s2 Hok ltac:(unfold OFF_TCP6_DSTPORT, OFF_TCP6, OFF_IP6; simpl; lia))).
    rewrite (x_bind_ok _ _ _ _ _ Hcm), <- Hm. unfold tuple, conn. cbn [ct_src ct_dst ct_src_port ct_dst_port].
    rewrite Hdst, !octets_sl16 by (done || lia).
    by rewrite (syn_at_src_port _ _ _ _ Hsyn), (syn_at_dst_port _ _ _ _ Hsyn). }
  rewrite (x_bind_ok _ _ _ _ _ Hcc).
  destruct (reply_v6_sends cfg s2 y cookie mss Hok Hsyn Hl Hc Hms) as (tck & Ht & Hrep & Hv).
  eexists _, cookie, mss. split; [exact Hrep|]. rewrite frame_set. rewrite Hk1 in Hacc. split; [|done].
  split; [by exists tck|done].
Qed.

(** ** The filter *)

Abbreviation screen := (screen cfg ktime ring_has_room).

Lemma screen_drop blocked key len rest s :
  blocked = true ∨ rate_admits key s = false →
  ∃ s', screen blocked key len rest s = (Some XDP_DROP, s') ∧ frame s' = frame s.
Proof.
  intros Hd. unfold Ebpf.screen. destruct blocked; [apply decide_as_spec|]. destruct Hd as [|Hd]; [done|].
  destruct (over_rate_spec key s) as (s1 & Ho & Hf & _). rewrite (x_bind_ok _ _ _ _ _ Ho), Hd. cbn [negb].
  destruct (decide_as_spec REASON_RATELIMIT XDP_DROP len s1) as (s2 & ? & ?). exists s2. split; [done|congruence].
Qed.

Lemma screen_pass key len rest s :
  rate_admits key s = true →
  ∃ s1, screen false key len rest s = rest s1 ∧
    frame s1 = frame s ∧ TX_BUDGET s1 = TX_BUDGET s ∧ ktime_calls s1 = S (ktime_calls s).
Proof.
  intros Hd. unfold Ebpf.screen. destruct (over_rate_spec key s) as (s1 & Ho & Hf & Ht & Hk).
  rewrite (x_bind_ok _ _ _ _ _ Ho), Hd. by exists s1.
Qed.

(** After the screening. *)
Definition pass (len : Z) : X Z := decide_as REASON_PASS XDP_PASS len.
Definition rest_v4 (len : Z) : X Z :=
  if_ok (try_redirect_udp_v4 cfg rx_queue_index xsk_redirect) (λ action, decide_as REASON_REDIRECT action len)
    (if_ok (try_synack_v4 cfg ktime) (λ action, decide_as REASON_SYNCOOKIE action len) (pass len)).
Definition rest_v6 (len : Z) : X Z :=
  if_ok (try_synack_v6 cfg ktime) (λ action, decide_as REASON_SYNCOOKIE action len) (pass len).

(** The source address of a frame that holds a complete IP header. *)
Definition frame_source (f : list Z) : option IpAddr :=
  if (length f <? 14)%nat then None
  else if be_value (sl 12 2 f) =? 2048 then
    if (length f <? 34)%nat then None else Some (V4 (be_value (sl 26 4 f)))
  else if be_value (sl 12 2 f) =? 34525 then
    if (length f <? 54)%nat then None else Some (V6 (be_value (sl 22 16 f)))
  else None.

Definition rate_key (a : IpAddr) : list Z :=
  match a with V4 _ => ip_octets a ++ replicate 12 0 | V6 _ => ip_octets a end.

Definition blocked (a : IpAddr) : bool :=
  match a with V4 _ => blocked_v4 cfg (ip_octets a) | V6 _ => blocked_v6 cfg (ip_octets a) end.

Definition rest (a : IpAddr) (len : Z) : X Z := match a with V4 _ => rest_v4 len | V6 _ => rest_v6 len end.

Lemma ptr_at_in o n s : (o + n ≤ length (frame s))%nat → ptr_at o n s = (Some (sl o n (frame s)), s).
Proof. intros Hl. unfold ptr_at, sl. by rewrite (proj2 (Nat.ltb_ge _ _)) by lia. Qed.

Lemma ptr_at_out o n s : (length (frame s) < o + n)%nat → ptr_at o n s = (None, s).
Proof. intros Hl. unfold ptr_at. by rewrite (proj2 (Nat.ltb_lt _ _)) by lia. Qed.

Lemma x_bind_err {A B} (m : X A) (k : A → X B) s s' : m s = (None, s') → (m ≫= k) s = (None, s').
Proof. intros Hm. unfold mbind, x_bind. by rewrite Hm. Qed.

Lemma xdp_filter_ip s a :
  bytes_ok (frame s) → frame_source (frame s) = Some a →
  let len := Z.of_nat (length (frame s)) in
  xdp_filter s = let '(r, s') := screen (blocked a) (rate_key a) len (rest a len) s in (default XDP_PASS r, s').
Proof.
  intros Hok. unfold frame_source, Ebpf.xdp_filter, try_filter.
  destruct (Nat.ltb_spec (length (frame s)) 14); [done|]. cbv zeta.
  rewrite (x_bind_ok _ _ _ (Z.of_nat (length (frame s))) s) by done.
  rewrite (x_bind_ok _ _ _ _ _ (ptr_at_in 0 14 s ltac:(lia))), (be16_at_sl 0 14 _ 12) by lia. cbn [Nat.add].
  destruct (_ =? 2048).
  - destruct (Nat.ltb_spec (length (frame s)) 34); [done|]. intros [= <-].
    rewrite (x_bind_ok _ _ _ _ _ (ptr_at_in OFF_IP 20 s ltac:(unfold OFF_IP; lia))).
    change (take 4 (drop 12 ?l)) with (sl 12 4 l). rewrite (sl_sl OFF_IP 20 12 4) by lia.
    unfold blocked, rate_key, rest, rest_v4, pass. rewrite octets_sl4 by (done || lia). done.
  - destruct (_ =? 34525); [|done]. destruct (Nat.ltb_spec (length (frame s)) 54); [done|]. intros [= <-].
    rewrite (x_bind_ok _ _ _ _ _ (ptr_at_in OFF_IP 40 s ltac:(unfold OFF_IP; lia))).
    change (take 16 (drop 8 ?l)) with (sl 8 16 l). rewrite (sl_sl OFF_IP 40 8 16) by lia.
    unfold blocked, rate_key, rest, rest_v6, pass. rewrite octets_sl16 by (done || lia). done.
Qed.

Lemma xdp_filter_other s : frame_source (frame s) = None → ∃ s', xdp_filter s = (XDP_PASS, s') ∧ frame s' = frame s.
Proof.
  unfold frame_source, Ebpf.xdp_filter, try_filter. rewrite (x_bind_ok _ _ _ (Z.of_nat (length (frame s))) s) by done.
  destruct (Nat.ltb_spec (length (frame s)) 14).
  { intros _. rewrite (x_bind_err _ _ _ _ (ptr_at_out 0 14 s ltac:(lia))). by eexists. }
  rewrite (x_bind_ok _ _ _ _ _ (ptr_at_in 0 14 s ltac:(lia))), (be16_at_sl 0 14 _ 12) by lia. cbn [Nat.add].
  destruct (_ =? 2048); [|destruct (_ =? 34525)].
  - destruct (Nat.ltb_spec (length (frame s)) 34); [|done]. intros _.
    rewrite (x_bind_err _ _ _ _ (ptr_at_out OFF_IP 20 s ltac:(unfold OFF_IP; lia))). by eexists.
  - destruct (Nat.ltb_spec (length (frame s)) 54); [|done]. intros _.
    rewrite (x_bind_err _ _ _ _ (ptr_at_out OFF_IP 40 s ltac:(unfold OFF_IP; lia))). by eexists.
  - intros _. destruct (decide_as_spec REASON_PASS XDP_PASS (Z.of_nat (length (frame s))) s) as (s' & -> & Hf). by eexists.
Qed.

(** A SYN that the fast path may answer. *)
Definition answerable (a : IpAddr) (s : Xdp) : Prop :=
  is_Some (COOKIE_KEY cfg) ∧
  match a with
  | V4 _ => is_Some (read_syn_v4 cfg s).1
  | V6 _ => is_Some (read_syn_v6 cfg s).1
  end.

Lemma try_synack_v4_some s r s' :
  try_synack_v4 cfg ktime s = (Some r, s') → r = XDP_TX ∧ answerable (V4 0) s.
Proof.
  unfold try_synack_v4. intros Hr. apply x_bind_some in Hr as (y & s1 & Hy & Hr).
  apply x_bind_some in Hr as (cm & s2 & _ & Hr). apply x_bind_some in Hr as ([k0 k1] & s3 & Hk & Hr).
  apply x_bind_some in Hr as (now & s4 & _ & Hr). apply x_bind_some in Hr as (u & s5 & _ & Hr).
  apply x_bind_some in Hr as ([c m] & s6 & _ & Hr). split.
  - unfold reply_v4 in Hr. do 8 (apply x_bind_some in Hr as (? & ? & _ & Hr)). by injection Hr.
  - unfold cookie_keys in Hk. split; [by destruct (COOKIE_KEY cfg)|]. by rewrite Hy.
Qed.

Lemma try_synack_v6_some s r s' :
  try_synack_v6 cfg ktime s = (Some r, s') → r = XDP_TX ∧ answerable (V6 0) s.
Proof.
  unfold try_synack_v6. intros Hr. apply x_bind_some in Hr as (y & s1 & Hy & Hr).
  apply x_bind_some in Hr as ([k0 k1] & s3 & Hk & Hr).
  apply x_bind_some in Hr as (now & s4 & _ & Hr). apply x_bind_some in Hr as (u & s5 & _ & Hr).
  apply x_bind_some in Hr as ([c m] & s6 & _ & Hr). split.
  - unfold reply_v6 in Hr. do 7 (apply x_bind_some in Hr as (? & ? & _ & Hr)). by injection Hr.
  - unfold cookie_keys in Hk. split; [by destruct (COOKIE_KEY cfg)|]. by rewrite Hy.
Qed.

Lemma answerable_ext a s s' : frame s' = frame s → answerable a s' → answerable a s.
Proof.
  intros Hf [Hk Ha]. split; [done|].
  destruct a; [rewrite (reader_frame s s' (eq_sym Hf))|rewrite (reader_frame s s' (eq_sym Hf))]; done.
Qed.

Lemma rest_verdict a len s :
  (∀ q v, xsk_redirect q = Some v → v = XDP_REDIRECT) →
  ∃ r s', rest a len s = (Some r, s') ∧ r ≠ XDP_DROP ∧ (r = XDP_TX → answerable a s).
Proof.
  intros Hx. assert (∀ m, (∀ s r s', m s = (Some r, s') → r = XDP_TX ∧ answerable a s) →
    ∃ r s', if_ok m (λ action, decide_as REASON_SYNCOOKIE action len) (pass len) s = (Some r, s') ∧
      r ≠ XDP_DROP ∧ (r = XDP_TX → answerable a s)) as Hsyn.
  { intros m Hm. unfold if_ok. destruct (m s) as [[v|] s1] eqn:E.
    - destruct (Hm _ _ _ E) as [-> Ha]. destruct (decide_as_spec REASON_SYNCOOKIE XDP_TX len s1) as (s2 & -> & _).
      eexists _, _. split; [done|]. by split.
    - unfold pass. destruct (decide_as_spec REASON_PASS XDP_PASS len s1) as (s2 & -> & _).
      eexists _, _. split; [done|]. by split. }
  destruct a as [z|z]; cbn [rest].
  - unfold rest_v4, if_ok at 1.
    rewrite (reader_run (try_redirect_udp_v4 cfg rx_queue_index xsk_redirect) s s eq_refl).
    destruct (try_redirect_udp_v4 _ _ _ s) as [[v|] s0] eqn:E; cbn [fst].
    + destruct (decide_as_spec REASON_REDIRECT v len s) as (s2 & -> & _).
      assert (v = default XDP_PASS (xsk_redirect rx_queue_index)) as ->.
      { unfold try_redirect_udp_v4 in E. apply x_bind_some in E as (? & ? & _ & E). case_match; [done|].
        apply x_bind_some in E as (? & ? & _ & E). case_match; [done|]. by injection E. }
      destruct (xsk_redirect rx_queue_index) as [w|] eqn:Ew; [rewrite (Hx _ _ Ew)|];
        (eexists _, _; split; [done|]; by split).
    + apply Hsyn, try_synack_v4_some.
  - apply Hsyn, try_synack_v6_some.
Qed.

(** ** The block list the control plane installs *)

Section block_list.
Context `{IpNetLib}.

(** The two tries hold the encoded keys of [nets], and nothing else. *)
Definition block_list (nets : list IpNet) : Prop :=
  (∀ e, e ∈ lpm_entries (BLOCK_V4 cfg) ↔ ∃ n, n ∈ nets ∧ lpm_key n = KeyV4 (lpm_key_v4 e.1 e.2)) ∧
  (∀ e, e ∈ lpm_entries (BLOCK_V6 cfg) ↔ ∃ n, n ∈ nets ∧ lpm_key n = KeyV6 (lpm_key_v6 e.1 e.2)).

Lemma lpm_key_family n :
  lpm_key n = (if ip_is_v4 (net_addr n)
    then KeyV4 (lpm_key_v4 (net_prefix_len n) (ip_octets (net_addr (net_trunc n))))
    else KeyV6 (lpm_key_v6 (net_prefix_len n) (ip_octets (net_addr (net_trunc n))))).
Proof. unfold lpm_key. pose proof (net_trunc_addr n) as Ht. destruct (net_addr n); simpl in *; by rewrite Ht. Qed.

Lemma blocked_spec nets a :
  block_list nets → (∀ n, n ∈ nets → ip_wf (net_addr n)) → ip_wf a →
  blocked a = true ↔ ∃ n, n ∈ nets ∧ net_contains n a = true.
Proof.
  intros [H4 H6] Hw Ha.
  assert (∀ t, (∀ e, e ∈ lpm_entries t ↔ ∃ n, n ∈ nets ∧ ip_is_v4 (net_addr n) = ip_is_v4 a ∧
      (net_prefix_len n, ip_octets (net_addr (net_trunc n))) = e) →
    bool_decide (is_Some (lpm_get t (ip_octets a))) = true ↔ ∃ n, n ∈ nets ∧ net_contains n a = true) as Hgen.
  { intros t Ht. rewrite bool_decide_eq_true, <- not_eq_None_Some, lpm_get_spec, length_ip_octets.
    assert (8 * Z.of_nat (Z.to_nat (ip_bits a / 8)) = ip_bits a) as -> by (by destruct a). split.
    - intros (e & He & Hc). apply Ht in He as (n & Hn & Hf & <-). exists n. split; [done|].
      by apply lpm_key_covers; auto.
    - intros (n & Hn & Hc). pose proof (proj1 (net_contains_spec _ _) Hc) as [Hf _].
      eexists. split; [apply Ht; exists n; done|]. apply lpm_key_covers; auto. }
  destruct a as [z|z]; apply Hgen; intros [p o]; [rewrite H4|rewrite H6]; cbn [fst snd ip_is_v4];
    split; intros (n & Hn & He); exists n; (split; [done|]); rewrite lpm_key_family in *.
  - destruct (ip_is_v4 (net_addr n)); [|done]. by injection He as -> ->.
  - destruct He as [-> [= -> ->]]. done.
  - destruct (ip_is_v4 (net_addr n)); [done|]. by injection He as -> ->.
  - destruct He as [-> [= -> ->]]. done.
Qed.

Lemma frame_source_wf f a : bytes_ok f → frame_source f = Some a → ip_wf a.
Proof.
  intros Hf. unfold frame_source, ip_wf. repeat case_match; try done; intros [= <-]; cbn [ip_val ip_bits].
  - pose proof (be_value_bound _ (bytes_ok_sl 26 4 f Hf)) as Hb. rewrite length_sl in Hb; [done|].
    rewrite Nat.ltb_ge in *. lia.
  - pose proof (be_value_bound _ (bytes_ok_sl 22 16 f Hf)) as Hb. rewrite length_sl in Hb; [done|].
    rewrite Nat.ltb_ge in *. lia.
Qed.

Lemma drops_spec nets s :
  block_list nets → (∀ n, n ∈ nets → ip_wf (net_addr n)) →
  (∀ q v, xsk_redirect q = Some v → v = XDP_REDIRECT) → bytes_ok (frame s) →
  ((xdp_filter s).1 = XDP_DROP ↔ ∃ a, frame_source (frame s) = Some a ∧
    ((∃ n, n ∈ nets ∧ net_contains n a = true) ∨ rate_admits (rate_key a) s = false)) ∧
  ((xdp_filter s).1 = XDP_DROP → frame (xdp_filter s).2 = frame s).
Proof.
  intros Hb Hw Hx Hok. destruct (frame_source (frame s)) as [a|] eqn:Hs.
  2:{ destruct (xdp_filter_other s Hs) as (s' & -> & Hf). split; [split; [done|]|done]. by intros (a & ? & _). }
  rewrite (xdp_filter_ip s a Hok Hs). set (len := Z.of_nat _).
  pose proof (blocked_spec nets a Hb Hw (frame_source_wf _ _ Hok Hs)) as Hbl.
  destruct (blocked a) eqn:Eb; [|destruct (rate_admits (rate_key a) s) eqn:Er].
  - destruct (screen_drop true (rate_key a) len (rest a len) s (or_introl eq_refl)) as (s' & -> & Hf).
    split; [|done]. split; [|done]. intros _. exists a. split; [done|]. left. by apply Hbl.
  - destruct (screen_pass (rate_key a) len (rest a len) s Er) as (s1 & -> & _).
    destruct (rest_verdict a len s1 Hx) as (r & s' & -> & Hr & _). split; [|done]. split; [done|].
    intros (a' & [= <-] & [Hc|Hc]); [by apply Hbl in Hc|congruence].
  - destruct (screen_drop false (rate_key a) len (rest a len) s (or_intror Er)) as (s' & -> & Hf).
    split; [|done]. split; [|done]. intros _. exists a. auto.
Qed.

(** C9: the program drops exactly what it was told to. When user space has
    installed the prefixes [nets] in the block list (with its own key
    encoding), a frame is dropped if and only if it carries a complete IP
    header whose source address is contained in one of [nets], or whose
    source's token bucket has no token left. A dropped frame is not changed. *)
Theorem xdp_drops_exactly nets s :
  block_list nets → (∀ n, n ∈ nets → ip_wf (net_addr n)) →
  (∀ q v, xsk_redirect q = Some v → v = XDP_REDIRECT) → bytes_ok (frame s) →
  ((xdp_filter s).1 = XDP_DROP ↔ ∃ a, frame_source (frame s) = Some a ∧
    ((∃ n, n ∈ nets ∧ net_contains n a = true) ∨ rate_admits (rate_key a) s = false)) ∧
  ((xdp_filter s).1 = XDP_DROP → frame (xdp_filter s).2 = frame s).
Proof. apply drops_spec. Qed.
End block_list.

(** ** Answering SYNs *)

Lemma redirect_not_tcp s :
  byte_at (frame s) 23 = 6 → try_redirect_udp_v4 cfg rx_queue_index xsk_redirect s = (None, s).
Proof.
  intros Hp. unfold try_redirect_udp_v4. destruct (Nat.le_gt_cases (OFF_IP + 20) (length (frame s))) as [Hl|Hl].
  - rewrite (x_bind_ok _ _ _ _ _ (ptr_at_in _ _ _ Hl)), !byte_at_sl by lia.
    change (OFF_IP + 9)%nat with 23%nat. rewrite Hp, orb_true_r. done.
  - by rewrite (x_bind_err _ _ _ _ (ptr_at_out _ _ _ Hl)).
Qed.

(** C6: the program answers every SYN it is configured to answer, correctly,
    over IPv4. Let a frame that carries an Ethernet and an IPv4 header come from
    a source that is neither blocked nor over its rate, let the program read a
    SYN to a protected address and port out of it (no IP options, TCP options of
    4 to 40 bytes, no data) whose TCP header lies within the frame, and let a
    cookie key be installed and the budget not be used up. Then the verdict is
    [XDP_TX] and the frame has become the SYN-ACK for that SYN: addresses and
    ports exchanged at all three layers, the cookie as sequence number, the
    SYN's sequence number plus one acknowledged, an MSS option padded with NOPs
    of the same length, and IP and TCP checksums that a receiver verifies. The
    responder in user space, given the same secret, accepts the ACK that
    completes the handshake during the cookie's time slot and the next, with
    the MSS that was sent. *)
Theorem xdp_answers_syn_v4 key s y src :
  let now := ktime (S (ktime_calls s)) in
  bytes_ok (frame s) → frame_source (frame s) = Some (V4 src) →
  blocked (V4 src) = false → rate_admits (rate_key (V4 src)) s = true →
  (read_syn_v4 cfg s).1 = Some y → (34 + tcp_hdr_len y ≤ length (frame s))%nat →
  COOKIE_KEY cfg = Some (encode_cookie_key key) → budget_allows now s = true →
  ∃ s' cookie mss, xdp_filter s = (XDP_TX, s') ∧ answers_v4 (frame s) y cookie mss (frame s') ∧
    accepted key (conn (V4 src) (V4 (be_value (syn_dst y))) y) (now / NS_PER_SEC) cookie mss.
Proof.
  intros now Hok Hs Hb Hr Hy Hl Hk Hbud. rewrite (xdp_filter_ip s _ Hok Hs), Hb. set (len := Z.of_nat _).
  destruct (screen_pass (rate_key (V4 src)) len (rest (V4 src) len) s Hr) as (s1 & -> & Hf & Ht & Hc).
  pose proof (reader_run (read_syn_v4 cfg) s s eq_refl) as Hrun. rewrite Hy in Hrun.
  destruct (read_syn_v4_some cfg s y s Hok Hrun) as (_ & _ & Hsrc & _ & _ & Hp & _).
  assert (src = be_value (syn_src y)) as ->.
  { rewrite Hsrc. unfold frame_source in Hs. repeat case_match; congruence. }
  cbn [rest]. unfold rest_v4, if_ok at 1. rewrite redirect_not_tcp by (by rewrite Hf). unfold if_ok.
  destruct (try_synack_v4_answers key s1 y) as (s2 & cookie & mss & -> & Hans & Hacc); rewrite ?Hf; try done.
  { by rewrite (reader_frame s1 s Hf). }
  { rewrite Hc, (budget_allows_ext _ s) by done. exact Hbud. }
  destruct (decide_as_spec REASON_SYNCOOKIE XDP_TX len s2) as (s3 & -> & Hf3).
  exists s3, cookie, mss. rewrite Hf3. rewrite Hf, Hc in *. done.
Qed.

(** The same over IPv6, where the TCP checksum covers the IPv6
    pseudo-header and there is no header checksum. *)
Theorem xdp_answers_syn_v6 key s y src :
  let now := ktime (S (ktime_calls s)) in
  bytes_ok (frame s) → frame_source (frame s) = Some (V6 src) →
  blocked (V6 src) = false → rate_admits (rate_key (V6 src)) s = true →
  (read_syn_v6 cfg s).1 = Some y → (54 + tcp_hdr_len y ≤ length (frame s))%nat →
  COOKIE_KEY cfg = Some (encode_cookie_key key) → budget_allows now s = true →
  ∃ s' cookie mss, xdp_filter s = (XDP_TX, s') ∧ answers_v6 (frame s) y cookie mss (frame s') ∧
    accepted key (conn (V6 src) (V6 (be_value (syn_dst y))) y) (ktime (S (S (ktime_calls s))) / NS_PER_SEC) cookie mss.
Proof.
  intros now Hok Hs Hb Hr Hy Hl Hk Hbud. rewrite (xdp_filter_ip s _ Hok Hs), Hb. set (len := Z.of_nat _).
  destruct (screen_pass (rate_key (V6 src)) len (rest (V6 src) len) s Hr) as (s1 & -> & Hf & Ht & Hc).
  assert (src = be_value (sl 22 16 (frame s))) as ->.
  { unfold frame_source in Hs. repeat case_match; congruence. }
  cbn [rest]. unfold rest_v6, if_ok.
  destruct (try_synack_v6_answers key s1 y) as (s2 & cookie & mss & -> & Hans & Hacc); rewrite ?Hf; try done.
  { by rewrite (reader_frame s1 s Hf). }
  { rewrite Hc, (budget_allows_ext _ s) by done. exact Hbud. }
  destruct (decide_as_spec REASON_SYNCOOKIE XDP_TX len s2) as (s3 & -> & Hf3).
  exists s3, cookie, mss. rewrite Hf3. rewrite Hf, Hc in *. done.
Qed.

Lemma transmits_spec s :
  (∀ q v, xsk_redirect q = Some v → v = XDP_REDIRECT) → bytes_ok (frame s) → (xdp_filter s).1 = XDP_TX →
  is_Some (COOKIE_KEY cfg) ∧
  ∃ a y, frame_source (frame s) = Some a ∧ blocked a = false ∧ rate_admits (rate_key a) s = true ∧
    syn_dst_port y ∈ PROTECT_PORT cfg ∧
    match a with
    | V4 _ => syn_at cfg 34 (frame s) y ∧ syn_dst y = sl 30 4 (frame s) ∧
        is_Some (lpm_get (PROTECT_V4 cfg) (syn_dst y))
    | V6 _ => syn_at cfg 54 (frame s) y ∧ syn_dst y = sl 38 16 (frame s) ∧
        is_Some (lpm_get (PROTECT_V6 cfg) (syn_dst y))
    end.
Proof.
  intros Hx Hok Htx. destruct (frame_source (frame s)) as [a|] eqn:Hs.
  2:{ destruct (xdp_filter_other s Hs) as (s' & He & _). by rewrite He in Htx. }
  rewrite (xdp_filter_ip s a Hok Hs) in Htx. set (len := Z.of_nat _) in Htx.
  destruct (decide (blocked a = true ∨ rate_admits (rate_key a) s = false)) as [Hd|Hd].
  { destruct (screen_drop _ (rate_key a) len (rest a len) s Hd) as (s' & He & _). by rewrite He in Htx. }
  assert (blocked a = false ∧ rate_admits (rate_key a) s = true) as [Hb Hr].
  { split; [apply not_true_is_false|apply not_false_is_true]; tauto. }
  rewrite Hb in Htx. destruct (screen_pass (rate_key a) len (rest a len) s Hr) as (s1 & He & Hf & _).
  rewrite He in Htx. destruct (rest_verdict a len s1 Hx) as (r & s' & He' & _ & Ha). rewrite He' in Htx.
  destruct (answerable_ext a s s1 Hf (Ha Htx)) as [Hk Hy]. split; [done|]. exists a.
  destruct a as [z|z]; destruct Hy as [y Hy]; exists y.
  - destruct (read_syn_v4_some cfg s y s Hok) as (_ & Hsyn & _ & Hdst & Hp & _).
    { rewrite <- Hy. exact (reader_run (read_syn_v4 cfg) s s eq_refl). }
    split_and!; try done. apply Hsyn.
  - destruct (read_syn_v6_some cfg s y s Hok) as (_ & Hsyn & Hdst & Hp & _).
    { rewrite <- Hy. exact (reader_run (read_syn_v6 cfg) s s eq_refl). }
    split_and!; try done. apply Hsyn.
Qed.

(** C30: the program transmits only SYN-ACKs it was configured to send. Whenever
    the verdict is [XDP_TX], the frame came from a source that is not blocked
    and not over its rate, a cookie key is installed, and the frame carried a
    TCP SYN without ACK, to a port of the protected set and an address covered
    by a protected prefix. With nothing configured, nothing is transmitted. *)
Theorem xdp_transmits_only_protected s :
  (∀ q v, xsk_redirect q = Some v → v = XDP_REDIRECT) → bytes_ok (frame s) → (xdp_filter s).1 = XDP_TX →
  is_Some (COOKIE_KEY cfg) ∧
  ∃ a y, frame_source (frame s) = Some a ∧ blocked a = false ∧ rate_admits (rate_key a) s = true ∧
    syn_dst_port y ∈ PROTECT_PORT cfg ∧
    match a with
    | V4 _ => syn_at cfg 34 (frame s) y ∧ syn_dst y = sl 30 4 (frame s) ∧
        is_Some (lpm_get (PROTECT_V4 cfg) (syn_dst y))
    | V6 _ => syn_at cfg 54 (frame s) y ∧ syn_dst y = sl 38 16 (frame s) ∧
        is_Some (lpm_get (PROTECT_V6 cfg) (syn_dst y))
    end.
Proof. apply transmits_spec. Qed.
End verdict.

(** ** Examples *)

Section examples.
#[local] Existing Instance RefNet.lib.
#[local] Existing Instance RefTrie.lib.
#[local] Existing Instance RefHash.lib.

(** [10.0.0.0/8] is blocked; port 80 of [203.0.113.0/24] and [2001:db8::/32] is
    protected. *)
Definition ev_cfg : Config := {|
  BLOCK_V4 := [(8, [10; 0; 0; 0])]; BLOCK_V6 := []; PROTECT_V4 := [(24, [203; 0; 113; 0])];
  PROTECT_V6 := [(32, [32; 1; 13; 184] ++ replicate 12 0)];
  PROTECT_PORT := {[ 80 ]}; REDIRECT_PORT := ∅;
  COOKIE_KEY := Some (encode_cookie_key ck_ex_key); CAPTURE_ENABLED := None |}.
Definition ev_ktime (n : nat) : Z := 100000000000 + Z.of_nat n.
Definition ev_state (f : list Z) : Xdp := {|
  frame := f; RATE := ∅; STATS := ∅; TX_BUDGET := None; CAPTURE := []; ktime_calls := 0 |}.
Definition ev_filter : Xdp → Z * Xdp := xdp_filter ev_cfg ev_ktime (λ _, true) 0 (λ _, None).

(** Frames: Ethernet, IP for [n] bytes of TCP, TCP. *)
Definition ev_eth (ethertype : list Z) : list Z := [2; 0; 0; 0; 0; 1; 2; 0; 0; 0; 0; 2] ++ ethertype.
Definition ev_ip4 (src : list Z) (n : nat) : list Z :=
  [69; 0] ++ be_bytes 2 (Z.of_nat (20 + n)) ++ [0; 0; 64; 0; 64; 6; 0; 0] ++ src ++ [203; 0; 113; 9].
Definition ev_ip6 (n : nat) : list Z :=
  [96; 0; 0; 0] ++ be_bytes 2 (Z.of_nat n) ++ [6; 64] ++ [38; 6] ++ replicate 13 0 ++ [7] ++
  [32; 1; 13; 184] ++ replicate 11 0 ++ [9].
Definition ev_tcp (doff : Z) : list Z :=
  [156; 64; 0; 80; 255; 255; 255; 255; 0; 0; 0; 0; doff * 16; 2; 250; 240; 0; 0; 0; 0].
Definition ev_syn4 : list Z := ev_eth [8; 0] ++ ev_ip4 [192; 0; 2; 7] 24 ++ ev_tcp 6 ++ [2; 4; 5; 180].
Definition ev_syn6 : list Z := ev_eth [134; 221] ++ ev_ip6 28 ++ ev_tcp 7 ++ [2; 4; 5; 180; 1; 1; 1; 0].
Definition ev_blocked : list Z := ev_eth [8; 0] ++ ev_ip4 [10; 1; 2; 3] 24 ++ ev_tcp 6 ++ [2; 4; 5; 180].
(** IP and TCP headers that announce 60 bytes of TCP, in a frame that ends after
    24 of them. *)
Definition ev_short : list Z := ev_eth [8; 0] ++ ev_ip4 [192; 0; 2; 7] 60 ++ ev_tcp 15 ++ [2; 4; 5; 180].

Definition bytes_okb (l : list Z) : bool := forallb (λ b, (0 <=? b) && (b <? 256)) l.
Lemma bytes_okb_ok l : bytes_okb l = true → bytes_ok l.
Proof.
  intros Hl. apply Forall_forall. intros b Hb. apply list_elem_of_In in Hb.
  pose proof (proj1 (forallb_forall _ _) Hl b Hb) as Hr. cbv beta in Hr. unfold byte_ok. lia.
Qed.

Lemma xdp_answers_syn_v4_witness :
  ∃ s' cookie mss, ev_filter (ev_state ev_syn4) = (XDP_TX, s') ∧
    accepted ck_ex_key {| ct_src := ipv4 192 0 2 7; ct_src_port := 40000; ct_dst := ipv4 203 0 113 9; ct_dst_port := 80 |}
      100 cookie mss.
Proof.
  destruct (xdp_answers_syn_v4 ev_cfg ev_ktime (λ _, true) 0 (λ _, None) ck_ex_key (ev_state ev_syn4)
    {| syn_src := [192; 0; 2; 7]; syn_src_port := 40000; syn_dst := [203; 0; 113; 9]; syn_dst_port := 80;
       syn_doff := 6; syn_seq := 4294967295 |} (be_value [192; 0; 2; 7]))
    as (s' & cookie & mss & Hf & _ & Ha); [apply bytes_okb_ok; vm_refl|vm_refl..|apply Nat.leb_le; vm_refl|vm_refl|vm_refl|].
  exists s', cookie, mss. split; [exact Hf|exact Ha].
Defined.

Lemma xdp_answers_syn_v6_witness :
  ∃ s' y cookie mss, ev_filter (ev_state ev_syn6) = (XDP_TX, s') ∧
    answers_v6 ev_syn6 y cookie mss (frame s').
Proof.
  destruct (xdp_answers_syn_v6 ev_cfg ev_ktime (λ _, true) 0 (λ _, None) ck_ex_key (ev_state ev_syn6)
    {| syn_src := []; syn_src_port := 40000; syn_dst := [32; 1; 13; 184] ++ replicate 11 0 ++ [9]; syn_dst_port := 80;
       syn_doff := 7; syn_seq := 4294967295 |} (be_value ([38; 6] ++ replicate 13 0 ++ [7])))
    as (s' & cookie & mss & Hf & Ha & _); [apply bytes_okb_ok; vm_refl|vm_refl..|apply Nat.leb_le; vm_refl|vm_refl|vm_refl|].
  do 4 eexists. split; [exact Hf|exact Ha].
Defined.

Lemma xdp_transmits_only_protected_witness :
  (ev_filter (ev_state ev_syn4)).1 = XDP_TX ∧ is_Some (COOKIE_KEY ev_cfg).
Proof.
  split; [vm_refl|].
  apply (xdp_transmits_only_protected ev_cfg ev_ktime (λ _, true) 0 (λ _, None) (ev_state ev_syn4));
    [done|apply bytes_okb_ok; vm_refl|vm_refl].
Defined.

Lemma xdp_drops_exactly_witness :
  (ev_filter (ev_state ev_blocked)).1 = XDP_DROP.
Proof.
  refine (proj2 (proj1 (xdp_drops_exactly ev_cfg ev_ktime (λ _, true) 0 (λ _, None) [RefNet.net4 10 0 0 0 8]
    (ev_state ev_blocked) _ _ _ _)) _).
  - assert (lpm_key (RefNet.net4 10 0 0 0 8) = KeyV4 (lpm_key_v4 8 [10; 0; 0; 0])) as Hk by vm_refl.
    split; intros [p o]; cbn [fst snd].
    + change (lpm_entries (BLOCK_V4 ev_cfg)) with [(8, [10; 0; 0; 0])]. rewrite list_elem_of_singleton. split.
      * intros [= -> ->]. exists (RefNet.net4 10 0 0 0 8). split; [left|exact Hk].
      * intros (n & Hn & He). apply list_elem_of_singleton in Hn as ->. rewrite Hk in He. by injection He as <- <-.
    + change (lpm_entries (BLOCK_V6 ev_cfg)) with (@nil (Z * list Z)). rewrite elem_of_nil. split; [done|].
      intros (n & Hn & He). apply list_elem_of_singleton in Hn as ->. rewrite Hk in He. done.
  - intros n Hn. apply list_elem_of_singleton in Hn as ->. split; vm_compute; [discriminate|reflexivity].
  - done.
  - apply bytes_okb_ok. vm_refl.
  - exists (ipv4 10 1 2 3). split; [vm_refl|]. left. exists (RefNet.net4 10 0 0 0 8). split; [left|vm_refl].
Defined.

(** The fast path can pass a half-rewritten packet on. A SYN whose IP and
    TCP headers announce more option bytes than the frame holds passes every
    check made before the rewrite; the rewrite then runs off the end of the
    frame, the verdict is [XDP_PASS], and the kernel receives a frame in which
    the addresses, the ports and the flags have been exchanged but not the
    checksums. *)
Theorem xdp_passes_half_rewritten :
  ∃ f, bytes_ok f ∧ let '(verdict, s') := ev_filter (ev_state f) in
    verdict = XDP_PASS ∧ frame s' ≠ f ∧
    sl 0 6 (frame s') = sl 6 6 f ∧ sl 26 4 (frame s') = sl 30 4 f ∧ sl 30 4 (frame s') = sl 26 4 f ∧
    checksum_ok (sl 14 20 (frame s')) = false.
Proof.
  exists ev_short. split; [apply bytes_okb_ok; vm_refl|].
  destruct (ev_filter (ev_state ev_short)) as [v s'] eqn:E. vm_compute in E. injection E as <- <-.
  split_and!; try vm_refl. vm_compute. discriminate.
Qed.
End examples.
