(* ===== verification/XdpEnforce.v ===== *)
(** * From the XDP manager to the frames on the wire

    [XdpManager] decides, [XdpDataplane] writes the kernel's maps, and [Ebpf]
    reads them for each frame. This file puts the three together: in whatever
    state the manager is, with whatever system calls failed, a frame from a
    network it considers blocked is dropped, unless the re-application of that
    block is queued.

    The data plane is run with a log of the writes that succeeded, which is what
    the theorems of [XdpManager] speak about; the log has no influence on the
    maps. *)
From stdpp Require Import prelude gmap strings.
From S2P Require Import Prelude Net Bytes Flow Cookie XdpControl XdpManager XdpMaps XdpDataplane.
From S2P Require Import Ebpf EbpfReply EbpfFilter EbpfVerdict.

Open Scope Z_scope.

Section enforce.
Context `{IpNetLib} `{HashOrder} `{LpmWrite} (nr_cpus : nat).

Record Traced := { tr_maps : DataplaneMaps; tr_log : maps }.

#[export] Instance Traced_executor : XdpExecutor Traced := {|
  xdp_apply a := λ e,
    let r := eval (xdp_apply (XdpExecutor := XdpDataplane_executor nr_cpus) a) (tr_maps e) in
    (r, {| tr_maps := exec (xdp_apply (XdpExecutor := XdpDataplane_executor nr_cpus) a) (tr_maps e);
           tr_log := if is_ok r then apply_maps a (tr_log e) else tr_log e |});
|}.

#[export] Instance Traced_spec : XdpSpec Traced.
Proof. by refine {| maps_of := tr_log |}. Defined.

(** A network without host bits. *)
Definition clean_net (net : IpNet) : Prop := net_trunc net = net ∧ ip_wf (net_addr net).

Lemma lpm_key_inj net net' :
  clean_net net → clean_net net' → lpm_key net = lpm_key net' → net = net'.
Proof.
  intros [Ht Hw] [Ht' Hw']. rewrite !lpm_key_of. unfold key_of. rewrite Ht, Ht'.
  destruct (ip_is_v4 (net_addr net)) eqn:Hf, (ip_is_v4 (net_addr net')) eqn:Hf'; try done;
    intros Heq; injection Heq as Hl Ha; (apply net_ext; [|done]); apply ip_octets_inj; congruence.
Qed.

(** The block lists hold the keys of the logged networks, and every bucket
    belongs to a logged source. *)
Definition dropped (log : maps) (k : LpmKey) : Prop := ∃ n, n ∈ drops log ∧ k = lpm_key n.

Definition coupled (e : Traced) : Prop :=
  holds (dropped (tr_log e)) (block_v4 (tr_maps e)) (block_v6 (tr_maps e)) ∧
  (∀ n, n ∈ drops (tr_log e) → clean_net n) ∧
  ∀ key, is_Some (rate (tr_maps e) !! key) →
    ∃ src, is_Some (rates (tr_log e) !! src) ∧ key = XdpDataplane.rate_key src.

Definition clean_action (a : XdpAction) : Prop :=
  match a with Block net | Unblock net => clean_net net | _ => True end.

Lemma dropped_encoded log : (∀ n, n ∈ drops log → clean_net n) → encoded (dropped log).
Proof. intros Hc k (n & Hn & ->). exists n. split; [by apply Hc|done]. Qed.

(** What a system call leaves. *)
Lemma syscall_cases f m :
  (∃ m', f (set_script (tail (script m)) m) = Some m' ∧ syscall f m = (Ok (), m')) ∨
  syscall f m = (Err Map_, set_script (tail (script m)) m).
Proof.
  unfold syscall. destruct (default true _); [|by right]. destruct (f _) as [m'|]; [left; by exists m'|by right].
Qed.

(** The system calls of an action. *)
Definition writes (a : XdpAction) : M DataplaneMaps (result unit XdpError) :=
  match a with
  | Block net => block net
  | Unblock net => unblock net
  | RateLimit src pps burst _ => rate_limit nr_cpus src pps burst
  | ClearRate src => clear_rate_limit src
  end.

Lemma traced_apply a e :
  exec (xdp_apply a) e
  = {| tr_maps := exec (writes a) (tr_maps e);
       tr_log := if is_ok (eval (writes a) (tr_maps e)) then apply_maps a (tr_log e) else tr_log e |}.
Proof.
  cbn [xdp_apply Traced_executor]. unfold exec at 1. cbn [snd].
  cbn [xdp_apply XdpDataplane_executor]. rewrite exec_bind, eval_bind. change (exec (mret ?u) ?x) with x.
  change (eval (mret ?u) ?x) with u. destruct a; cbn [writes];
    match goal with |- context [eval ?m (tr_maps e)] => by destruct (eval m (tr_maps e)) end.
Qed.

(** Only the block lists and the rates matter. *)
Definition same_tables (m m' : DataplaneMaps) : Prop :=
  block_v4 m' = block_v4 m ∧ block_v6 m' = block_v6 m ∧ rate m' = rate m.

Lemma coupled_same e m' :
  same_tables (tr_maps e) m' → coupled e → coupled {| tr_maps := m'; tr_log := tr_log e |}.
Proof. intros (H4 & H6 & Hr) (Hh & Hc & Hk). unfold coupled. cbn. by rewrite H4, H6, Hr. Qed.

Lemma coupled_block net e : clean_net net → coupled e → coupled (exec (xdp_apply (Block net)) e).
Proof.
  intros Hn Hco. rewrite traced_apply. cbn [writes]. pose proof Hco as (Hh & Hc & Hk).
  pose proof (holds_insert _ _ _ net (dropped_encoded _ Hc) (proj2 Hn) Hh) as Hi.
  unfold block. destruct (lpm_key net) as [k|k] eqn:Hkey;
    (match goal with |- context [exec (syscall ?f) ?m] => destruct (syscall_cases f m) as [(m' & Hf & Hs)|Hs] end;
     unfold eval, exec; rewrite Hs; cbn [fst snd is_ok]; [|by apply coupled_same]);
    injection Hf as <-; (split; [|split]); cbn [tr_maps tr_log apply_maps drops rates].
  1, 4: eapply holds_ext; [|exact Hi]; intros x; unfold dropped; cbn [drops]; split;
    [intros [->|(n & ? & ->)]; [exists net; set_solver|exists n; set_solver]
    |intros (n & [->%elem_of_singleton|?]%elem_of_union & ->); [left; by rewrite Hkey|right; by exists n]].
  1, 3: intros n [->%elem_of_singleton|?]%elem_of_union; [done|by apply Hc].
  all: exact Hk.
Qed.

Lemma coupled_unblock net e : clean_net net → coupled e → coupled (exec (xdp_apply (Unblock net)) e).
Proof.
  intros Hn Hco. rewrite traced_apply. cbn [writes]. pose proof Hco as (Hh & Hc & Hk).
  pose proof (holds_remove _ _ _ net (dropped_encoded _ Hc) (proj2 Hn) Hh) as Hi.
  assert (∀ x, dropped (tr_log e) x ∧ x ≠ lpm_key net ↔
    dropped (apply_maps (Unblock net) (tr_log e)) x) as Hx.
  { intros x. unfold dropped. cbn [drops apply_maps]. split.
    - intros [(n & Hin & ->) Hne]. exists n. split; [|done]. apply elem_of_difference. split; [done|].
      intros ->%elem_of_singleton. done.
    - intros (n & [Hin Hne]%elem_of_difference & ->). split; [by exists n|]. intros Heq. apply Hne.
      apply elem_of_singleton. apply lpm_key_inj; auto. }
  unfold unblock. destruct (lpm_key net) as [k|k] eqn:Hkey;
    (match goal with |- context [exec (syscall ?f) ?m] => destruct (syscall_cases f m) as [(m' & Hf & Hs)|Hs] end;
     unfold eval, exec; rewrite Hs; cbn [fst snd is_ok]; [|by apply coupled_same]).
  - change (block_v4 (set_script _ (tr_maps e))) with (block_v4 (tr_maps e)) in Hf.
    destruct (lpm_remove _ (block_v4 (tr_maps e))) as [t|]; [|done]. injection Hf as <-.
    split; [|split]; [eapply holds_ext; [exact Hx|exact Hi]| |exact Hk].
    cbn. intros n [? _]%elem_of_difference. by apply Hc.
  - change (block_v6 (set_script _ (tr_maps e))) with (block_v6 (tr_maps e)) in Hf.
    destruct (lpm_remove _ (block_v6 (tr_maps e))) as [t|]; [|done]. injection Hf as <-.
    split; [|split]; [eapply holds_ext; [exact Hx|exact Hi]| |exact Hk].
    cbn. intros n [? _]%elem_of_difference. by apply Hc.
Qed.

Lemma coupled_rate src p b v e : coupled e → coupled (exec (xdp_apply (RateLimit src p b v)) e).
Proof.
  intros Hco. rewrite traced_apply. cbn [writes]. pose proof Hco as (Hh & Hc & Hk).
  set (bucket := {| rb_tokens := b; rb_last_ns := 0; rb_rate_pps := p; rb_burst := b |}).
  set (f := λ m, Some (set_rates (<[XdpDataplane.rate_key src := replicate nr_cpus bucket]> (rate m)) m)).
  assert ((∃ m', same_tables (tr_maps e) m' ∧ rate_limit nr_cpus src p b (tr_maps e) = syscall f m') ∨
    ∃ m', same_tables (tr_maps e) m' ∧ rate_limit nr_cpus src p b (tr_maps e) = (Err Map_, m')) as Hcase.
  { unfold rate_limit, and_then, mbind, M_bind.
    destruct (syscall_cases Some (tr_maps e)) as [(m' & [= <-] & ->)| ->]; [left|right];
      (eexists; split; [|reflexivity]; by split_and!). }
  destruct Hcase as [(m1 & Hsame & Heq)|(m1 & Hsame & Heq)]; unfold eval, exec; rewrite Heq;
    [|by apply coupled_same].
  destruct (syscall_cases f m1) as [(m' & Hf & ->)| ->]; cbn [fst snd is_ok]; [|by apply coupled_same].
  destruct Hsame as (H4 & H6 & Hr). injection Hf as <-. unfold coupled. cbn. rewrite H4, H6, Hr.
  split; [exact Hh|split; [exact Hc|]]. intros key.
  rewrite xdp_insert_is_Some. intros [(x & Hx & ->)%Hk|<-].
  - exists x. split; [|done]. apply xdp_insert_is_Some. by left.
  - exists src. split; [|done]. apply xdp_insert_is_Some. by right.
Qed.

Lemma coupled_clear src e : coupled e → coupled (exec (xdp_apply (ClearRate src)) e).
Proof.
  intros Hco. rewrite traced_apply. cbn [writes]. pose proof Hco as (Hh & Hc & Hk).
  unfold clear_rate_limit.
  match goal with |- context [exec (syscall ?f) ?m] => destruct (syscall_cases f m) as [(m' & Hf & Hs)|Hs] end;
    unfold eval, exec; rewrite Hs; cbn [fst snd is_ok]; [|by apply coupled_same].
  case_decide; [|done]. injection Hf as <-. split; [exact Hh|split; [exact Hc|]]. cbn. intros key [b Hb].
  apply lookup_delete_Some in Hb as [Hne Hb]. destruct (Hk key) as (x & Hx & ->); [by eexists|].
  exists x. split; [|done]. rewrite lookup_delete_ne; [done|]. by intros ->.
Qed.

Lemma coupled_apply a e : clean_action a → coupled e → coupled (exec (xdp_apply a) e).
Proof.
  intros Ha Hc. destruct a as [src p b v|net|net|src].
  - by apply coupled_rate.
  - by apply coupled_block.
  - by apply coupled_unblock.
  - by apply coupled_clear.
Qed.

(** ** The manager over the data plane *)

Context {J : Type} `{!XdpJournal J}.

#[local] Abbreviation DpManager := (XdpManager (E := Traced) (J := J)).

Definition nets_clean (c : XdpController) : Prop :=
  ∀ net, is_Some (blocked_nets c !! net) → clean_net net.

Definition faithful (s : DpManager) : Prop := coupled (executor s) ∧ nets_clean (controller s).

Lemma faithful_same {A} (m : M DpManager A) :
  (∀ s, executor (exec m s) = executor s ∧ controller (exec m s) = controller s) → preserves faithful m.
Proof. intros Hm s [Hc Hn]. destruct (Hm s) as [He Hc']. split; [by rewrite He|by rewrite Hc']. Qed.

Lemma faithful_bind {A B} (m : M DpManager A) (f : A → M DpManager B) :
  preserves faithful m → (∀ a, preserves faithful (f a)) → preserves faithful (m ≫= f).
Proof. intros Hm Hf. eapply triple_bind; [exact Hm|exact Hf]. Qed.

Lemma faithful_executor a : clean_action a → preserves faithful (on_executor (J := J) (xdp_apply a)).
Proof. intros Ha s [Hc Hn]. split; [by apply coupled_apply|exact Hn]. Qed.

Lemma faithful_controller {A} (m : M XdpController A) :
  (∀ c, nets_clean c → nets_clean (exec m c)) → preserves faithful (on_controller (E := Traced) (J := J) m).
Proof. intros Hm s [Hc Hn]. split; [exact Hc|by apply Hm]. Qed.

Lemma nets_clean_rollback a c : nets_clean c → nets_clean (exec (rollback a) c).
Proof.
  intros Hc. destruct a as [src p b v|net|net|src]; try done. intros n.
  change (blocked_nets (exec (rollback (Block net)) c)) with (delete net (blocked_nets c)).
  intros [o [_ Ho]%lookup_delete_Some]. apply Hc. by eexists.
Qed.

Lemma faithful_execute a o wall fresh :
  clean_action a → preserves faithful (execute_and_journal (E := Traced) (J := J) a o wall fresh).
Proof.
  intros Ha. unfold execute_and_journal.
  repeat first [ by apply faithful_executor | apply faithful_controller, nets_clean_rollback
               | apply faithful_bind; [|intros ?] | progress case_match | by apply faithful_same ].
Qed.

(** Detections decide about sources only. *)
Lemma detection_clean ev c : Forall clean_action (eval (on_detection ev) c).
Proof.
  assert (∀ d, Forall clean_action (eval (handle_detection d) c)) as Hdet.
  { intros d. unfold eval, handle_detection. case_match; [constructor|]. case_match; [constructor|].
    destruct (xdp_limit_sources_spec (d_target d) (d_top_sources d) c) as (new & _ & Hev).
    unfold eval in Hev. rewrite Hev. apply Forall_fmap, Forall_forall. done. }
  destruct ev as [d|d|t at_]; [exact (Hdet d)|exact (Hdet d)|]. cbn [on_detection].
  unfold eval, handle_cleared. destruct (by_target c !! t) as [S|]; [|constructor].
  set (c1 := set_state _ _ _ _).
  destruct (xdp_release_spec (hs_iter S) c1 (NoDup_hs_iter S)) as (gone & Hev & _).
  unfold eval in Hev. rewrite Hev. apply Forall_fmap, Forall_forall. done.
Qed.

Lemma faithful_detect ev wall : preserves faithful (manager_on_detection (E := Traced) (J := J) ev wall).
Proof.
  intros s Hs. unfold manager_on_detection. rewrite exec_bind.
  assert (faithful (exec (on_controller (on_detection ev)) s)) as Hs1.
  { apply faithful_controller; [|done]. intros c Hc net. rewrite xdp_blocked_detect. apply Hc. }
  pose proof (detection_clean ev (controller s)) as Ha.
  change (eval (on_controller (on_detection ev)) s) with (eval (on_detection ev) (controller s)).
  revert Hs1. apply (triple_for_each faithful). intros a Hin. apply faithful_bind; [|intros; by apply faithful_same].
  apply faithful_execute. rewrite Forall_forall in Ha. by apply Ha.
Qed.

Lemma faithful_add net wall :
  clean_net net → preserves faithful (apply_add (E := Traced) (J := J) net wall).
Proof.
  intros Hnet s Hs. unfold apply_add. rewrite exec_bind.
  change (exec (gets _) s) with s. change (eval (gets ?f) s) with (f s). cbv beta zeta.
  rewrite exec_bind.
  change (eval (on_controller (manual_block net)) s) with (eval (manual_block net) (controller s)).
  set (s1 := exec (on_controller (manual_block net)) s).
  assert (executor s1 = executor s ∧ controller s1 = exec (manual_block net) (controller s)) as [Hex Hc] by done.
  assert (faithful s1) as Hs1.
  { destruct Hs as [Hco Hn]. split; [by rewrite Hex|]. rewrite Hc.
    destruct (xdp_manual_block_cases net (controller s)) as [(e & _ & _ & ->)|(_ & ->)]; [done|].
    intros n. cbn. rewrite xdp_insert_is_Some. intros [?|<-]; [by apply Hn|done]. }
  destruct (xdp_manual_block_cases net (controller s)) as [(e & -> & _ & _)|(-> & _)].
  - rewrite exec_bind. exact Hs1.
  - rewrite exec_bind. change (exec (mret _) ?x) with x. by apply faithful_execute.
Qed.

Lemma faithful_remove net wall :
  clean_net net → preserves faithful (apply_remove (E := Traced) (J := J) net wall).
Proof.
  intros Hnet s Hs. unfold apply_remove. rewrite exec_bind.
  set (s1 := exec (on_controller (manual_unblock net)) s).
  change (faithful (exec (execute_and_journal (Unblock net) Manual wall false;; mret Applied) s1)).
  rewrite exec_bind. change (exec (mret Applied) ?x) with x. apply faithful_execute; [done|].
  destruct Hs as [Hco Hn]. split; [exact Hco|]. intros n.
  change (blocked_nets (controller s1)) with (delete net (blocked_nets (controller s))).
  intros [o [_ Ho]%lookup_delete_Some]. apply Hn. by eexists.
Qed.

Lemma faithful_sources src p b wall :
  preserves faithful (apply_clear_rate (E := Traced) (J := J) src wall) ∧
  preserves faithful (apply_rate_limit (E := Traced) (J := J) src p b wall).
Proof.
  split; intros s Hs.
  - unfold apply_clear_rate. rewrite exec_bind.
    set (s1 := exec (on_controller (manual_clear_rate src)) s).
    change (faithful (exec (execute_and_journal (ClearRate src) Manual wall false;; mret Applied) s1)).
    rewrite exec_bind. change (exec (mret Applied) ?x) with x. by apply faithful_execute.
  - unfold apply_rate_limit. rewrite exec_bind.
    change (exec (gets _) s) with s. change (eval (gets ?f) s) with (f s). cbv beta zeta. rewrite exec_bind.
    assert (faithful (exec (on_controller (manual_rate_limit src p b)) s)) as Hs1.
    { apply faithful_controller; [|done]. intros c Hc. unfold exec, manual_rate_limit. by repeat case_match. }
    change (eval (on_controller (manual_rate_limit src p b)) s)
      with (eval (manual_rate_limit src p b) (controller s)).
    assert ((∃ e, eval (manual_rate_limit src p b) (controller s) = Err e) ∨
      eval (manual_rate_limit src p b) (controller s) = Ok (RateLimit src p b None)) as [[e ->]| ->].
    { unfold eval, manual_rate_limit. repeat case_match; eauto. }
    + exact Hs1.
    + rewrite exec_bind. change (exec (mret _) ?x) with x. by apply faithful_execute.
Qed.

Lemma faithful_retry : preserves faithful (retry_pending_reapply (E := Traced) (J := J)).
Proof.
  intros s Hs. unfold retry_pending_reapply. rewrite exec_bind.
  change (eval (gets pending_reapply) s) with (pending_reapply s). change (exec (gets _) s) with s.
  destruct (pending_reapply s) as [|op ops]; [done|]. rewrite exec_bind.
  apply (triple_for_each faithful); [|exact Hs]. clear s Hs. intros o _ s Hs. unfold retry_reapply.
  rewrite exec_bind. change (eval (gets ?f) s) with (f s). change (exec (gets _) s) with s. cbv beta.
  destruct (current (ra_key o) (controller s)) as [a|] eqn:Ha; [|done].
  assert (clean_action a) as Hcl.
  { destruct (xdp_current_install _ _ _ Ha) as (_ & Hk & Hact). destruct a as [| net | net |]; try done;
      cbn in Hk; rewrite <-Hk in Hact; by apply (proj2 Hs). }
  apply faithful_bind; [by apply faithful_executor| |done]. intros r. destruct r; by apply faithful_same.
Qed.

Lemma faithful_row row :
  clean_action row.1 → preserves faithful (reapply_row (E := Traced) (J := J) row).
Proof.
  destruct row as [a o]. intros Ha. unfold reapply_row. apply faithful_bind; [|intros _].
  - apply faithful_controller. intros c Hc. destruct a as [src p b v|net|net|src]; try done.
    intros n. change (blocked_nets (exec (mark_resumed (Block net) o) c)) with (<[net := o]> (blocked_nets c)).
    rewrite xdp_insert_is_Some. intros [?|<-]; [by apply Hc|done].
  - apply faithful_bind; [by apply faithful_executor|]. intros r. destruct r; by apply faithful_same.
Qed.

Lemma faithful_disarm_action a :
  clean_action a → preserves faithful (disarm_action (E := Traced) (J := J) a).
Proof.
  intros Ha. destruct a as [src p b v|net|net|src]; cbn [disarm_action]; try by apply faithful_same.
  - intros s Hs. rewrite exec_bind.
    change (faithful (exec (on_executor (xdp_apply (ClearRate src));; mret ())
      (exec (on_controller (manual_clear_rate src)) s))).
    apply faithful_bind; [by apply faithful_executor|intros; by apply faithful_same|exact Hs].
  - intros s Hs. rewrite exec_bind.
    change (faithful (exec (on_executor (xdp_apply (Unblock net));; mret ())
      (exec (on_controller (manual_unblock net)) s))).
    apply faithful_bind; [by apply faithful_executor|intros; by apply faithful_same|].
    apply faithful_controller; [|exact Hs]. intros c Hc n.
    change (blocked_nets (exec (manual_unblock net) c)) with (delete net (blocked_nets c)).
    intros [o [_ Ho]%lookup_delete_Some]. apply Hc. by eexists.
Qed.

Lemma faithful_disarm : preserves faithful (disarm (E := Traced) (J := J)).
Proof.
  intros s Hs. unfold disarm. rewrite exec_bind. change (eval (gets disarmed) s) with (disarmed s).
  change (exec (gets disarmed) s) with s. destruct (disarmed s); [done|]. rewrite !exec_bind.
  set (s1 := exec (modify set_disarmed) s). change (exec (gets _) s1) with s1.
  change (eval (gets ?f) s1) with (f s1). cbv beta.
  apply (triple_for_each faithful); [|exact Hs]. intros a Ha. apply faithful_disarm_action.
  apply list_elem_of_fmap in Ha as ([a' o] & -> & Hin). unfold active_entries in Hin.
  apply elem_of_app in Hin as [Hin|Hin]; apply list_elem_of_fmap in Hin as ([x y] & [= -> ->] & Hin); [done|].
  apply elem_of_hm_iter in Hin. apply (proj2 Hs). cbn. by eexists.
Qed.

(** The networks of an operation have no host bits. *)
Definition clean_op (o : mop) : Prop :=
  match o with
  | XAdd net _ | XRemove net _ => clean_net net
  | XReapply rows => Forall (λ row, clean_action row.1) rows
  | _ => True
  end.

Lemma faithful_mop o : clean_op o → preserves faithful (run_mop (E := Traced) (J := J) o).
Proof.
  intros Ho. destruct o as [ev wall|net wall|net wall|src wall|src p b wall| |rs|]; cbn [run_mop clean_op] in *.
  - apply faithful_detect.
  - apply faithful_bind; [by apply faithful_add|intros; by apply faithful_same].
  - apply faithful_bind; [by apply faithful_remove|intros; by apply faithful_same].
  - apply faithful_bind; [apply (faithful_sources src 0 0)|intros; by apply faithful_same].
  - apply faithful_bind; [apply faithful_sources|intros; by apply faithful_same].
  - apply faithful_bind; [|intros _; apply faithful_retry]. apply faithful_same. intros s.
    destruct (xdp_retry_mirror_view s) as (? & ? & _). done.
  - apply (triple_for_each faithful). intros row Hrow. apply faithful_row.
    rewrite Forall_forall in Ho. by apply Ho.
  - apply faithful_disarm.
Qed.

(** A manager started on a freshly attached program whose system calls have
    the outcomes [l], after operations about networks without host bits. *)
Definition traced_new (l : list bool) : Traced :=
  {| tr_maps := maps_new nr_cpus l; tr_log := {| rates := ∅; drops := ∅ |} |}.

Definition started (ps : list IpNet) (n : nat) (rate : Z) (pp : list IpNet) (l : list bool) (j : J) : DpManager :=
  manager_new (controller_new ps n rate pp) (traced_new l) j.

Lemma faithful_run ps n rate pp l j os :
  Forall clean_op os → faithful (exec (run_mops os) (started ps n rate pp l j)).
Proof.
  intros Hos. rewrite Forall_forall in Hos.
  apply (triple_for_each faithful); [intros o Ho; by apply faithful_mop, Hos|]. split.
  - split; [|split].
    + split; intros e; cbn; rewrite lpm_empty_entries, elem_of_nil; (split; [done|]);
        intros (x & Hx & _); cbn in Hx; set_solver.
    + cbn. set_solver.
    + intros key. cbn. rewrite lookup_empty. by intros [].
  - intros net. cbn. rewrite lookup_empty. by intros [].
Qed.

(** ** The program over the maps *)

Context `{SipHash} (ktime : nat → Z) (ring_has_room : list CaptureFrame → bool).
Context (rx_queue_index : Z) (xsk_redirect : Z → option Z).

(** What the program reads of the maps user space has written. *)
Definition kernel_config (m : DataplaneMaps) (capture : option Z) : Config := {|
  BLOCK_V4 := block_v4 m; BLOCK_V6 := block_v6 m; PROTECT_V4 := protect_v4 m; PROTECT_V6 := protect_v6 m;
  PROTECT_PORT := protect_port m; REDIRECT_PORT := XdpDataplane.redirect_port m; COOKIE_KEY := cookie_key m;
  CAPTURE_ENABLED := capture |}.

Lemma kernel_block_list e capture :
  coupled e → block_list (kernel_config (tr_maps e) capture) (elements (drops (tr_log e))).
Proof.
  intros ([H4 H6] & _ & _). split; intros x; cbn [BLOCK_V4 BLOCK_V6 kernel_config]; rewrite ?H4, ?H6;
    unfold dropped; setoid_rewrite elem_of_elements; naive_solver.
Qed.

Lemma started_reachable ps n rate pp l j os :
  Forall mop_wf os →
  mreachable ps n rate pp (traced_new l) j (exec (run_mops os) (started ps n rate pp l j)).
Proof.
  intros Hos. rewrite Forall_forall in Hos.
  apply (triple_for_each (mreachable ps n rate pp (traced_new l) j)); [|apply mreach_new].
  intros o Ho s Hs. apply mreach_op; [exact Hs|by apply Hos].
Qed.

(** C3: what the manager decides happens to the frames. Start it on a freshly
    attached program and let it take any sequence of detections, requests,
    restarts and ticks about networks without host bits, whichever system calls
    fail: a frame whose source is in a network the manager considers blocked is
    dropped by the program, unless the re-application of that block is queued;
    and a frame is only dropped for a network, or for the token bucket of a
    source, that the manager has written to the maps and not removed since. *)
Theorem xdp_mitigation_enforced ps n rate pp l j os capture x a :
  Forall mop_wf os → Forall clean_op os →
  (∀ q v, xsk_redirect q = Some v → v = XDP_REDIRECT) → bytes_ok (frame x) →
  frame_source (frame x) = Some a →
  let s := exec (run_mops os) (started ps n rate pp l j) in
  let e := executor s in
  (∀ key, is_Some (RATE x !! key) → is_Some (XdpDataplane.rate (tr_maps e) !! key)) →
  let verdict := (xdp_filter (kernel_config (tr_maps e) capture) ktime ring_has_room rx_queue_index
                    xsk_redirect x).1 in
  (∀ net, is_Some (blocked_nets (controller s) !! net) → KNet net ∉ ra_key <$> pending_reapply s →
     net_contains net a = true → verdict = XDP_DROP) ∧
  (verdict = XDP_DROP →
     (∃ net, net ∈ drops (tr_log e) ∧ net_contains net a = true) ∨
     (∃ src, is_Some (rates (tr_log e) !! src) ∧ EbpfVerdict.rate_key a = XdpDataplane.rate_key src)).
Proof.
  intros Hwf Hcl Hx Hb Ha s e Hr verdict.
  destruct (faithful_run ps n rate pp l j os Hcl) as [Hco Hn]. fold s e in Hco, Hn.
  pose proof (started_reachable ps n rate pp l j os Hwf) as Hreach. fold s in Hreach.
  apply (xdp_mreachable_minv False) in Hreach; [|done].
  destruct (drops_spec (kernel_config (tr_maps e) capture) ktime ring_has_room rx_queue_index xsk_redirect
    (elements (drops (tr_log e))) x (kernel_block_list e capture Hco)) as [Hd _]; [|done|done|].
  { intros net Hnet%elem_of_elements. by apply Hco. }
  fold verdict in Hd. split.
  - intros net Hact Hq Hin. destruct (Hreach a) as (_ & _ & _ & Hbl & _).
    destruct (Hbl net Hact) as [Hdrop|Hk]; [|done].
    apply Hd. exists a. split; [done|]. left. exists net. split; [by apply elem_of_elements|done].
  - intros (a' & Ha' & [(net & Hnet%elem_of_elements & Hin)|Hrate])%Hd; simplify_eq; [left; by exists net|].
    right. destruct Hco as (_ & _ & Hk). unfold rate_admits in Hrate.
    destruct (RATE x !! EbpfVerdict.rate_key a) as [b|] eqn:Hb'; [|done].
    destruct (Hk (EbpfVerdict.rate_key a)) as (src & Hsrc & Heq); [apply Hr; by eexists|]. by exists src.
Qed.

(** C28: the kernel never reflects without a budget. Arm the fast path on a
    freshly attached program, and let any system call of the sequence fail:
    whenever the program then answers a frame in the kernel, the transmit
    budget of its CPU has the configured rate, the cookie key is the shared
    secret, the protected prefixes are exactly the configured ones, and the
    frame carried a SYN without ACK to a configured port. *)
Theorem arming_never_unbounded secret prefixes tx_cap ports l cpu b capture x :
  Forall (λ n, ip_wf (net_addr n)) prefixes →
  (∀ q v, xsk_redirect q = Some v → v = XDP_REDIRECT) → bytes_ok (frame x) →
  let m := exec (activate nr_cpus secret prefixes tx_cap ports) (maps_new nr_cpus l) in
  tx_budget m !! cpu = Some b → (tx_rate_pps <$> TX_BUDGET x) = Some (tx_rate_pps b) →
  (xdp_filter (kernel_config m capture) ktime ring_has_room rx_queue_index xsk_redirect x).1 = XDP_TX →
  (tx_rate_pps <$> TX_BUDGET x) = Some tx_cap ∧
  cookie_key m = Some (encode_cookie_key secret) ∧
  holds (keys_of prefixes) (protect_v4 m) (protect_v6 m) ∧
  ∃ y, syn_dst_port y ∈ ports ∧
    (syn_at (kernel_config m capture) 34 (frame x) y ∨ syn_at (kernel_config m capture) 54 (frame x) y).
Proof.
  intros Hw Hx Hb m Hcpu Hrate Htx.
  destruct (transmits_spec _ _ _ _ _ x Hx Hb Htx) as (_ & a & y & _ & _ & _ & Hport & Hy).
  destruct (cookie_arming_safe nr_cpus secret prefixes tx_cap ports l Hw) as (Hready & Hports & _).
  fold m in Hready, Hports. cbn [PROTECT_PORT kernel_config] in Hport.
  destruct Hready as (Hkey & Hpre & Hbud); [set_solver|].
  rewrite Hbud in Hcpu. apply lookup_replicate in Hcpu as [-> _].
  split_and!; try done. exists y. split; [by apply Hports|]. destruct a; [left|right]; apply Hy.
Qed.
End enforce.

(** ** Examples *)

Section examples.
#[local] Existing Instance RefNet.lib.
#[local] Existing Instance RefNet.order.
#[local] Existing Instance RefTrie.lib.
#[local] Existing Instance RefTrieWrite.lib.
#[local] Existing Instance RefHash.lib.
#[local] Instance xe_executor : XdpExecutor Traced := Traced_executor 2.

(** A block whose first write fails, asked for again. *)
Definition xe_ops : list mop := [XAdd (RefNet.net4 10 0 0 0 8) 1000; XAdd (RefNet.net4 10 0 0 0 8) 2000].

Lemma xe_clean : clean_net (RefNet.net4 10 0 0 0 8).
Proof. split; [apply net_ext; vm_refl|split; vm_compute; done]. Qed.

Lemma xdp_mitigation_enforced_witness :
  let s := exec (run_mops xe_ops) (started 2 [RefNet.net4 203 0 113 0 24] 10 1000 [] [false] mk_NoOpXdpJournal) in
  (xdp_filter (kernel_config (tr_maps (executor s)) None) ev_ktime (λ _, true) 0 (λ _, None)
     (ev_state ev_blocked)).1 = XDP_DROP.
Proof.
  cbv zeta.
  refine (proj1 (xdp_mitigation_enforced 2 ev_ktime (λ _, true) 0 (λ _, None) [RefNet.net4 203 0 113 0 24] 10 1000
    [] [false] mk_NoOpXdpJournal xe_ops None (ev_state ev_blocked) (ipv4 10 1 2 3) _ _ _ _ _ _)
    (RefNet.net4 10 0 0 0 8) _ _ _).
  - repeat constructor.
  - apply Forall_cons. split; [exact xe_clean|]. apply Forall_cons. split; [exact xe_clean|constructor].
  - done.
  - apply bytes_okb_ok. vm_refl.
  - vm_refl.
  - intros key. cbn [RATE ev_state]. rewrite lookup_empty. by intros [].
  - apply (bool_decide_eq_true_1 _). vm_refl.
  - apply (bool_decide_eq_true_1 _). vm_refl.
  - vm_refl.
Defined.

Lemma arming_never_unbounded_witness :
  let m := exec (activate 2 ck_ex_key [RefNet.net4 203 0 113 0 24] 1000 [80]) (maps_new 2 []) in
  (tx_rate_pps <$> TX_BUDGET (set_tx {| tx_tokens := 5; tx_last_ns := 0; tx_rate_pps := 1000 |} (ev_state ev_syn4)))
    = Some 1000 ∧ cookie_key m = Some (encode_cookie_key ck_ex_key).
Proof.
  cbv zeta.
  destruct (arming_never_unbounded 2 ev_ktime (λ _, true) 0 (λ _, None) ck_ex_key [RefNet.net4 203 0 113 0 24] 1000
    [80] [] 1 {| tx_tokens := 1000; tx_last_ns := 0; tx_rate_pps := 1000 |} None
    (set_tx {| tx_tokens := 5; tx_last_ns := 0; tx_rate_pps := 1000 |} (ev_state ev_syn4)))
    as (Hr & Hk & _).
  - repeat constructor; vm_compute; done.
  - done.
  - apply bytes_okb_ok. vm_refl.
  - vm_refl.
  - vm_refl.
  - vm_refl.
  - split; [exact Hr|exact Hk].
Defined.

(** Networks that differ in their host bits only share one entry of the
    map. Two blocks of [10.0.0.0/8], written with different host bits, are two
    blocks for the manager and one for the kernel: when the first is lifted,
    the second is still listed as active with nothing queued, and a frame from
    the network passes. *)
Theorem xdp_host_bits_alias :
  let s := exec (run_mops [XAdd (RefNet.net4 10 1 2 3 8) 1000; XAdd (RefNet.net4 10 9 9 9 8) 2000;
                           XRemove (RefNet.net4 10 1 2 3 8) 3000])
             (started 2 [RefNet.net4 203 0 113 0 24] 10 1000 [] [] mk_NoOpXdpJournal) in
  bool_decide (blocked_nets (controller s) !! RefNet.net4 10 9 9 9 8 = Some Manual) = true ∧
  pending_reapply s = [] ∧ net_contains (RefNet.net4 10 9 9 9 8) (ipv4 10 1 2 3) = true ∧
  frame_source (frame (ev_state ev_blocked)) = Some (ipv4 10 1 2 3) ∧
  (xdp_filter (kernel_config (tr_maps (executor s)) None) ev_ktime (λ _, true) 0 (λ _, None)
     (ev_state ev_blocked)).1 = XDP_PASS.
Proof. split_and!; vm_refl. Qed.
End examples.
