(* ===== verification/NetText.v ===== *)
(** * Numbers and addresses as text

    The parts of Rust's standard library that read and write numbers and
    addresses as text: [FromStr] and [Display] of the unsigned integers,
    [IpAddr] and [SocketAddr], written after the documented grammar and the
    reference implementation ([core::net::parser], [core::net::ip_addr]). Text
    is the list of its bytes here. *)
From stdpp Require Import prelude gmap strings.
From S2P Require Import Prelude Net Core.

Open Scope Z_scope.

(** ** Strings and bytes *)

Fixpoint of_bytes (l : list Z) : string :=
  match l with [] => EmptyString | b :: l => String (Ascii.ascii_of_N (Z.to_N b)) (of_bytes l) end.

Lemma of_bytes_str s : of_bytes (str_bytes s) = s.
Proof.
  induction s as [|c s IH]; [done|]. cbn. rewrite N2Z.id, Ascii.ascii_N_embedding. by f_equal.
Qed.

Lemma str_bytes_of l : bytes_ok l → str_bytes (of_bytes l) = l.
Proof.
  induction 1 as [|b l Hb Hl IH]; [done|]. cbn. unfold byte_ok in Hb.
  rewrite Ascii.N_ascii_embedding by lia. rewrite Z2N.id by lia. by f_equal.
Qed.

Lemma str_bytes_append a b : str_bytes (String.append a b) = str_bytes a ++ str_bytes b.
Proof. induction a as [|c a IH]; [done|]. change (String.append (String c a) b) with (String c (String.append a b)). cbn [str_bytes app]. by rewrite IH. Qed.

(** ** Digits *)

(** [char::to_digit(radix)] for a radix of at most 16. *)
Definition to_digit (radix c : Z) : option Z :=
  let d := if (48 <=? c) && (c <=? 57) then Some (c - 48)
           else if (97 <=? c) && (c <=? 102) then Some (c - 87)
           else if (65 <=? c) && (c <=? 70) then Some (c - 55)
           else None in
  match d with Some d => if d <? radix then Some d else None | None => None end.

(** The digit [d] as a lower-case character. *)
Definition digit_char (d : Z) : Z := if d <? 10 then 48 + d else 87 + d.

Lemma to_digit_char radix d : 0 ≤ d < radix → radix ≤ 16 → to_digit radix (digit_char d) = Some d.
Proof.
  intros Hd Hr. unfold to_digit, digit_char. destruct (Z.ltb_spec d 10).
  - rewrite (proj2 (Z.leb_le 48 (48 + d))), (proj2 (Z.leb_le (48 + d) 57)) by lia. cbn [andb].
    replace (48 + d - 48) with d by lia. by rewrite (proj2 (Z.ltb_lt d radix)) by lia.
  - rewrite (proj2 (Z.leb_gt (87 + d) 57)), andb_false_r by lia.
    rewrite (proj2 (Z.leb_le 97 (87 + d))), (proj2 (Z.leb_le (87 + d) 102)) by lia. cbn [andb].
    replace (87 + d - 87) with d by lia. by rewrite (proj2 (Z.ltb_lt d radix)) by lia.
Qed.

(** The digits of [n] in a radix, most significant first; [fuel] bounds their
    number. *)
Fixpoint digits (radix : Z) (fuel : nat) (n : Z) : list Z :=
  match fuel with
  | O => []
  | S fuel => if n <? radix then [n] else digits radix fuel (n / radix) ++ [n mod radix]
  end.

Definition digits_value (radix : Z) (l : list Z) : Z := foldl (λ acc d, acc * radix + d) 0 l.

(** [Display for u128] and narrower, and [{:x}]: 128-bit values have at most
    39 decimal and 32 hexadecimal digits. *)
Definition print_uint (n : Z) : list Z := digit_char <$> digits 10 39 n.
Definition print_hex (n : Z) : list Z := digit_char <$> digits 16 32 n.

Lemma digits_app_value radix l d : digits_value radix (l ++ [d]) = digits_value radix l * radix + d.
Proof. unfold digits_value. by rewrite foldl_app. Qed.

Lemma digits_spec radix fuel n :
  2 ≤ radix → 0 ≤ n < radix ^ Z.of_nat fuel →
  digits_value radix (digits radix fuel n) = n ∧ Forall (λ d, 0 ≤ d < radix) (digits radix fuel n) ∧
  (fuel ≠ O → digits radix fuel n ≠ []).
Proof.
  intros Hr. revert n. induction fuel as [|fuel IH]; intros n Hn.
  { simpl in Hn. split; [unfold digits_value; cbn; lia|]. split; [constructor|done]. }
  cbn [digits]. destruct (Z.ltb_spec n radix).
  { split; [unfold digits_value; cbn; lia|]. split; [repeat constructor; lia|done]. }
  rewrite Nat2Z.inj_succ, Z.pow_succ_r in Hn by lia.
  destruct (IH (n / radix)) as (Hv & Hf & _).
  { split; [apply Z.div_pos; lia|]. apply Z.div_lt_upper_bound; lia. }
  rewrite digits_app_value, Hv. split; [pose proof (Z.div_mod n radix); lia|]. split; [|intros _ Hx; by apply app_nil in Hx as [_ ?]].
  apply Forall_app. split; [done|]. repeat constructor; apply Z.mod_pos_bound; lia.
Qed.

(** No leading zero, unless the number is zero. *)
Lemma digits_lead radix fuel n :
  2 ≤ radix → 0 < n < radix ^ Z.of_nat fuel → ∃ d l, digits radix fuel n = d :: l ∧ d ≠ 0.
Proof.
  intros Hr. revert n. induction fuel as [|fuel IH]; intros n Hn; [simpl in Hn; lia|].
  cbn [digits]. destruct (Z.ltb_spec n radix); [exists n, []; split; [done|lia]|].
  rewrite Nat2Z.inj_succ, Z.pow_succ_r in Hn by lia.
  destruct (IH (n / radix)) as (d & l & -> & Hd).
  { split; [apply Z.div_str_pos; lia|]. apply Z.div_lt_upper_bound; lia. }
  exists d, (l ++ [n mod radix]). done.
Qed.

Lemma digits_length radix fuel n k :
  2 ≤ radix → 0 ≤ n < radix ^ Z.of_nat k → (0 < k ≤ fuel)%nat → (length (digits radix fuel n) ≤ k)%nat.
Proof.
  intros Hr. revert n k. induction fuel as [|fuel IH]; intros n k Hn Hk; [simpl; lia|].
  cbn [digits]. destruct (Z.ltb_spec n radix); [simpl; lia|]. rewrite length_app. cbn [length].
  destruct k as [|k]; [lia|]. rewrite Nat2Z.inj_succ, Z.pow_succ_r in Hn by lia.
  destruct k as [|k]; [simpl in Hn; lia|].
  enough (length (digits radix fuel (n / radix)) ≤ S k)%nat by lia. apply IH; [|lia].
  split; [apply Z.div_pos; lia|]. apply Z.div_lt_upper_bound; lia.
Qed.

(** ** Reading *)

(** The longest prefix of digits. *)
Fixpoint span_digits (radix : Z) (l : list Z) : list Z * list Z :=
  match l with
  | [] => ([], [])
  | c :: l' => match to_digit radix c with
               | Some d => let '(ds, rest) := span_digits radix l' in (d :: ds, rest)
               | None => ([], l)
               end
  end.

(** [Parser::read_number]; [max] is the largest value of the type. *)
Definition read_number (radix : Z) (max_digits : option nat) (allow_zero_prefix : bool) (max : Z)
    (l : list Z) : option (Z * list Z) :=
  let '(ds, rest) := span_digits radix l in
  let v := digits_value radix ds in
  if match max_digits with Some m => (m <? length ds)%nat | None => false end then None
  else match ds with
       | [] => None
       | d :: _ =>
           if negb allow_zero_prefix && (d =? 0) && (1 <? length ds)%nat then None
           else if max <? v then None else Some (v, rest)
       end.

Definition read_given_char (c : Z) (l : list Z) : option (list Z) :=
  match l with c' :: l => if c' =? c then Some l else None | [] => None end.

Definition read_separator {A} (sep : Z) (i : nat) (inner : list Z → option (A * list Z)) (l : list Z)
    : option (A * list Z) :=
  if (i =? 0)%nat then inner l else l ← read_given_char sep l; inner l.

Definition read_octet (i : nat) : list Z → option (Z * list Z) :=
  read_separator 46 i (read_number 10 (Some 3%nat) false u8_max).

Definition read_ipv4_addr (l : list Z) : option (Z * list Z) :=
  '(o0, l) ← read_octet 0 l; '(o1, l) ← read_octet 1 l; '(o2, l) ← read_octet 2 l; '(o3, l) ← read_octet 3 l;
  Some (be_value [o0; o1; o2; o3], l).

Definition read_group (i : nat) : list Z → option (Z * list Z) :=
  read_separator 58 i (read_number 16 (Some 4%nat) true u16_max).

(** [read_groups] for the groups from [i] on, [k] of them at most. *)
Fixpoint read_groups (k i : nat) (l : list Z) : list Z * bool * list Z :=
  match k with
  | O => ([], false, l)
  | S k =>
      match (if (1 <=? k)%nat then read_separator 58 i read_ipv4_addr l else None) with
      | Some (a, rest) => ([a / 65536; a mod 65536], true, rest)
      | None =>
          match read_group i l with
          | Some (g, rest) => let '(gs, v4, rest) := read_groups k (S i) rest in (g :: gs, v4, rest)
          | None => ([], false, l)
          end
      end
  end.

Definition groups_value (l : list Z) : Z := foldl (λ acc g, acc * 65536 + g) 0 l.

Definition read_ipv6_addr (l : list Z) : option (Z * list Z) :=
  let '(head, v4, rest) := read_groups 8 0 l in
  if (length head =? 8)%nat then Some (groups_value head, rest)
  else if v4 then None
  else
    rest ← read_given_char 58 rest; rest ← read_given_char 58 rest;
    let '(tail, _, rest) := read_groups (8 - (length head + 1)) 0 rest in
    Some (groups_value (head ++ replicate (8 - length head - length tail) 0 ++ tail), rest).

Definition read_ip_addr (l : list Z) : option (IpAddr * list Z) :=
  match read_ipv4_addr l with
  | Some (a, rest) => Some (V4 a, rest)
  | None => '(a, rest) ← read_ipv6_addr l; Some (V6 a, rest)
  end.

Definition read_port (l : list Z) : option (Z * list Z) :=
  l ← read_given_char 58 l; read_number 10 None true u16_max l.

Definition read_scope_id (l : list Z) : option (Z * list Z) :=
  l ← read_given_char 37 l; read_number 10 None true u32_max l.

Definition read_socket_addr_v4 (l : list Z) : option (SocketAddr * list Z) :=
  '(a, l) ← read_ipv4_addr l; '(port, l) ← read_port l;
  Some ({| sa_ip := V4 a; sa_port := port; sa_scope := 0 |}, l).

Definition read_socket_addr_v6 (l : list Z) : option (SocketAddr * list Z) :=
  l ← read_given_char 91 l; '(a, l) ← read_ipv6_addr l;
  let '(scope, l) := match read_scope_id l with Some r => r | None => (0, l) end in
  l ← read_given_char 93 l; '(port, l) ← read_port l;
  Some ({| sa_ip := V6 a; sa_port := port; sa_scope := scope |}, l).

Definition read_socket_addr (l : list Z) : option (SocketAddr * list Z) :=
  match read_socket_addr_v4 l with Some r => Some r | None => read_socket_addr_v6 l end.

(** [parse_with]: the whole text is read. *)
Definition parse_with {A} (inner : list Z → option (A * list Z)) (l : list Z) : option A :=
  match inner l with Some (a, []) => Some a | _ => None end.

Definition parse_ip (s : string) : option IpAddr := parse_with read_ip_addr (str_bytes s).
Definition parse_ipv4 (s : string) : option Z :=
  if (15 <? length (str_bytes s))%nat then None else parse_with read_ipv4_addr (str_bytes s).
Definition parse_ipv6 (s : string) : option Z := parse_with read_ipv6_addr (str_bytes s).
Definition parse_socket_addr (s : string) : option SocketAddr := parse_with read_socket_addr (str_bytes s).

(** [str::parse] for an unsigned integer type whose largest value is [max]. *)
Definition parse_uint (max : Z) (s : string) : option Z :=
  let l := str_bytes s in
  let l := match l with 43 :: l' => l' | _ => l end in
  let '(ds, rest) := span_digits 10 l in
  match ds, rest with
  | _ :: _, [] => if max <? digits_value 10 ds then None else Some (digits_value 10 ds)
  | _, _ => None
  end.

(** ** Writing *)

Definition print_ipv4 (a : Z) : list Z :=
  match be_bytes 4 a with
  | [o0; o1; o2; o3] =>
      print_uint o0 ++ [46] ++ print_uint o1 ++ [46] ++ print_uint o2 ++ [46] ++ print_uint o3
  | _ => []
  end.

Definition segments (a : Z) : list Z := segment a <$> seq 0 8.

(** The groups from index [i] on, with a colon before every one but the first. *)
Fixpoint print_groups (i : nat) (gs : list Z) : list Z :=
  match gs with
  | [] => []
  | g :: gs => (if (i =? 0)%nat then [] else [58]) ++ print_hex g ++ print_groups (S i) gs
  end.

(** The first of the longest runs of zero groups, as start and length. *)
Fixpoint zero_run (gs : list Z) (i : nat) (current longest : nat * nat) : nat * nat :=
  match gs with
  | [] => longest
  | g :: gs =>
      if g =? 0 then
        let current := if (current.2 =? 0)%nat then (i, 1%nat) else (current.1, S current.2) in
        zero_run gs (S i) current (if (longest.2 <? current.2)%nat then current else longest)
      else zero_run gs (S i) (0%nat, 0%nat) longest
  end.

Definition print_ipv6 (a : Z) : list Z :=
  let gs := segments a in
  if a / 2 ^ 32 =? 65535 then [58; 58; 102; 102; 102; 102; 58] ++ print_ipv4 (a mod 2 ^ 32)
  else
    let '(start, len) := zero_run gs 0 (0%nat, 0%nat) (0%nat, 0%nat) in
    if (1 <? len)%nat
    then print_groups 0 (take start gs) ++ [58; 58] ++ print_groups 0 (drop (start + len) gs)
    else print_groups 0 gs.

Definition print_ip (a : IpAddr) : list Z := match a with V4 z => print_ipv4 z | V6 z => print_ipv6 z end.

(** [to_string]. *)
Definition ip_to_string (a : IpAddr) : string := of_bytes (print_ip a).
Definition uint_to_string (n : Z) : string := of_bytes (print_uint n).

Definition print_socket_addr (a : SocketAddr) : list Z :=
  match sa_ip a with
  | V4 z => print_ipv4 z ++ [58] ++ print_uint (sa_port a)
  | V6 z => [91] ++ print_ipv6 z ++ (if sa_scope a =? 0 then [] else [37] ++ print_uint (sa_scope a)) ++
            [93; 58] ++ print_uint (sa_port a)
  end.
Definition socket_addr_to_string (a : SocketAddr) : string := of_bytes (print_socket_addr a).

(** ** Reading back what was written *)

(** The next character is not a digit. *)
Definition stops (radix : Z) (rest : list Z) : Prop :=
  match rest with c :: _ => to_digit radix c = None | [] => True end.

Lemma span_digits_print radix ds rest :
  radix ≤ 16 → Forall (λ d, 0 ≤ d < radix) ds → stops radix rest →
  span_digits radix ((digit_char <$> ds) ++ rest) = (ds, rest).
Proof.
  intros Hr Hd Hs. induction Hd as [|d ds Hd _ IH]; cbn.
  - destruct rest as [|c rest]; [done|]. cbn in *. by rewrite Hs.
  - rewrite to_digit_char by done. by rewrite IH.
Qed.

Lemma read_number_dec n k max rest :
  0 ≤ n ≤ max → n < 10 ^ Z.of_nat k → (0 < k ≤ 39)%nat → stops 10 rest →
  read_number 10 (Some k) false max (print_uint n ++ rest) = Some (n, rest).
Proof.
  intros Hn Hk Hk' Hs. unfold read_number, print_uint.
  assert (n < 10 ^ Z.of_nat 39) by (pose proof (Z.pow_le_mono_r 10 (Z.of_nat k) (Z.of_nat 39)); lia).
  destruct (digits_spec 10 39 n) as (Hv & Hf & Hne); [lia..|].
  rewrite span_digits_print by (done || lia). rewrite Hv.
  pose proof (digits_length 10 39 n k) as Hl. rewrite (proj2 (Nat.ltb_ge _ _)) by lia.
  destruct (digits 10 39 n) as [|d l] eqn:E; [by destruct Hne|].
  assert (negb false && (d =? 0) && (1 <? length (d :: l))%nat = false) as ->.
  { cbn [negb andb]. destruct (Z.eqb_spec d 0) as [->|]; [|done]. cbn [andb].
    destruct (Z.eq_dec n 0) as [->|]; [by injection E as <-|].
    destruct (digits_lead 10 39 n) as (d' & l' & E' & Hd'); [lia..|]. congruence. }
  by rewrite (proj2 (Z.ltb_ge _ _)) by lia.
Qed.

Lemma read_number_hex g rest :
  0 ≤ g ≤ u16_max → stops 16 rest →
  read_number 16 (Some 4%nat) true u16_max (print_hex g ++ rest) = Some (g, rest).
Proof.
  intros Hg Hs. unfold read_number, print_hex, u16_max in *.
  destruct (digits_spec 16 32 g) as (Hv & Hf & Hne); [lia..|].
  rewrite span_digits_print by (done || lia). rewrite Hv.
  pose proof (digits_length 16 32 g 4) as Hl. rewrite (proj2 (Nat.ltb_ge _ _)) by lia.
  destruct (digits 16 32 g) as [|d l]; [by destruct Hne|]. cbn [negb andb].
  by rewrite (proj2 (Z.ltb_ge _ _)) by lia.
Qed.

Lemma read_ipv4_print a rest :
  0 ≤ a ≤ u32_max → stops 10 rest → read_ipv4_addr (print_ipv4 a ++ rest) = Some (a, rest).
Proof.
  intros Ha Hs. unfold print_ipv4, u32_max in *.
  pose proof (be_bytes_ok 4 a) as Hok. pose proof (be_value_be_bytes_small 4 a ltac:(simpl; lia)) as Hv.
  pose proof (length_be_bytes 4 a) as Hl.
  destruct (be_bytes 4 a) as [|o0 [|o1 [|o2 [|o3 [|]]]]]; try done. clear Hl.
  do 4 (apply Forall_cons in Hok as [? Hok]). unfold byte_ok in *.
  assert (∀ o rest, 0 ≤ o < 256 → stops 10 rest →
    read_number 10 (Some 3%nat) false u8_max (print_uint o ++ rest) = Some (o, rest)) as Ho.
  { intros o r Ho Hr. apply read_number_dec; unfold u8_max; simpl; lia || done. }
  unfold read_ipv4_addr, read_octet, read_separator. cbn [Nat.eqb].
  rewrite <- !app_assoc. rewrite Ho by done. cbn [mbind option_bind app read_given_char Z.eqb Pos.eqb].
  rewrite Ho by done. cbn [mbind option_bind app read_given_char Z.eqb Pos.eqb].
  rewrite Ho by done. cbn [mbind option_bind app read_given_char Z.eqb Pos.eqb].
  rewrite Ho by done. cbn [mbind option_bind]. by rewrite Hv.
Qed.

(** Text without a dot does not start with an IPv4 address. *)
Lemma span_digits_rest radix l ds rest : span_digits radix l = (ds, rest) → ∃ p, l = p ++ rest.
Proof.
  revert ds. induction l as [|c l IH]; intros ds; cbn.
  - intros [= _ <-]. by exists [].
  - destruct (to_digit radix c); [|intros [= _ <-]; by exists []].
    destruct (span_digits radix l) as [ds' r]. intros [= _ <-].
    destruct (IH _ eq_refl) as [p ->]. by exists (c :: p).
Qed.

Lemma read_number_rest radix md az max l v rest :
  read_number radix md az max l = Some (v, rest) → ∃ p, l = p ++ rest.
Proof.
  unfold read_number. destruct (span_digits radix l) as [ds r] eqn:E. intros Hr.
  assert (r = rest) as <-; [|by eapply span_digits_rest]. repeat case_match; congruence.
Qed.

Lemma read_ipv4_no_dot l : 46 ∉ l → read_ipv4_addr l = None.
Proof.
  intros Hd. unfold read_ipv4_addr, read_octet, read_separator. cbn [Nat.eqb].
  destruct (read_number 10 (Some 3%nat) false u8_max l) as [[v rest]|] eqn:E; [|done].
  apply read_number_rest in E as [p ->]. rewrite elem_of_app in Hd. cbn [mbind option_bind].
  destruct rest as [|c rest]; [done|]. cbn [read_given_char].
  destruct (Z.eqb_spec c 46) as [->|]; [|done]. destruct Hd. right. left.
Qed.

Lemma print_hex_no_dot g : 0 ≤ g ≤ u16_max → 46 ∉ print_hex g.
Proof.
  unfold print_hex, u16_max. intros Hg (d & Hd & Hin)%list_elem_of_fmap.
  destruct (digits_spec 16 32 g) as (_ & Hf & _); [lia..|].
  pose proof (proj1 (Forall_forall _ _) Hf d Hin) as Hb. cbn beta in Hb. unfold digit_char in Hd. destruct (d <? 10); lia.
Qed.

Lemma print_groups_no_dot i gs : Forall (λ g, 0 ≤ g ≤ u16_max) gs → 46 ∉ print_groups i gs.
Proof.
  intros Hg. revert i. induction Hg as [|g gs Hg _ IH]; intros i; cbn [print_groups]; [by intros ?%elem_of_nil|].
  rewrite !elem_of_app. intros [Hx|[Hx|Hx]]; [|by eapply print_hex_no_dot|by eapply IH].
  destruct (i =? 0)%nat; [by apply elem_of_nil in Hx|]. by apply list_elem_of_singleton in Hx.
Qed.

(** What follows the groups does not continue them. *)
Definition ends_groups (rest : list Z) : Prop := rest = [] ∨ ∃ r, rest = 58 :: 58 :: r.

Lemma ends_groups_stops rest : ends_groups rest → stops 16 rest.
Proof. intros [->|[r ->]]; done. Qed.

Lemma read_group_end i rest : ends_groups rest → read_group i rest = None.
Proof.
  unfold read_group, read_separator, read_number. intros [->|[r ->]]; destruct (i =? 0)%nat; done.
Qed.

Lemma read_groups_print gs : ∀ k i rest,
  Forall (λ g, 0 ≤ g ≤ u16_max) gs → (length gs ≤ k)%nat → ends_groups rest → 46 ∉ rest →
  read_groups k i (print_groups i gs ++ rest) = (gs, false, rest).
Proof.
  induction gs as [|g gs IH]; intros k i rest Hg Hl He Hd.
  - destruct k as [|k]; [done|]. cbn [read_groups print_groups app].
    assert ((if (1 <=? k)%nat then read_separator 58 i read_ipv4_addr rest else None) = None) as ->.
    { destruct (1 <=? k)%nat; [|done]. unfold read_separator. destruct (i =? 0)%nat; [by apply read_ipv4_no_dot|].
      by destruct He as [->|[r ->]]. }
    by rewrite read_group_end.
  - apply Forall_cons in Hg as [Hg Hgs]. destruct k as [|k]; [simpl in Hl; lia|]. cbn [read_groups print_groups].
    set (tail := print_groups (S i) gs ++ rest).
    assert (46 ∉ print_hex g ++ tail) as Hnd.
    { unfold tail. rewrite !elem_of_app. intros [?|[?|?]]; [by eapply print_hex_no_dot|by eapply print_groups_no_dot|done]. }
    assert (stops 16 tail) as Hst.
    { unfold tail. destruct gs; [by apply ends_groups_stops|done]. }
    assert (∀ A (inner : list Z → option (A * list Z)),
      read_separator 58 i inner ((if (i =? 0)%nat then [] else [58]) ++ print_hex g ++ tail) = inner (print_hex g ++ tail)) as Hsep.
    { intros A inner. unfold read_separator. by destruct (i =? 0)%nat. }
    rewrite <- !app_assoc. fold tail. unfold read_group. rewrite !Hsep.
    rewrite read_ipv4_no_dot, read_number_hex by done.
    assert ((if (1 <=? k)%nat then None else None) = @None (Z * list Z)) as -> by (by destruct (1 <=? k)%nat).
    unfold tail. rewrite IH by (done || (simpl in Hl; lia)). done.
Qed.

(** ** Groups *)

Lemma segments_ok a : Forall (λ g, 0 ≤ g ≤ u16_max) (segments a).
Proof.
  unfold segments. apply Forall_fmap, Forall_true. intros i. unfold compose, segment, u16_max.
  pose proof (Z.mod_pos_bound (a / 65536 ^ (7 - Z.of_nat i)) 65536). lia.
Qed.

Lemma groups_value_app l g : groups_value (l ++ [g]) = groups_value l * 65536 + g.
Proof. unfold groups_value. by rewrite foldl_app. Qed.

Lemma groups_value_segments a : 0 ≤ a < 2 ^ 128 → groups_value (segments a) = a.
Proof.
  intros Ha. unfold segments.
  assert (∀ n, (n ≤ 8)%nat → groups_value (segment a <$> seq 0 n) = a / 65536 ^ (8 - Z.of_nat n)) as Hn.
  { induction n as [|n IH]; intros Hn.
    - cbn. symmetry. apply Z.div_small. lia.
    - rewrite seq_S, fmap_app. cbn [fmap list_fmap]. rewrite groups_value_app, IH by lia.
      unfold segment. cbn [Nat.add].
      replace (8 - Z.of_nat n) with (Z.succ (7 - Z.of_nat n)) by lia.
      assert (0 < 65536 ^ (7 - Z.of_nat n)) by (apply Z.pow_pos_nonneg; lia).
      rewrite Z.pow_succ_r, (Z.mul_comm 65536 (65536 ^ _)), <- Z.div_div by lia.
      replace (8 - Z.of_nat (S n)) with (7 - Z.of_nat n) by lia.
      pose proof (Z.div_mod (a / 65536 ^ (7 - Z.of_nat n)) 65536). lia. }
  rewrite Hn by lia. apply Z.div_1_r.
Qed.

(** A run of zero groups. *)
Definition run_ok (gs : list Z) (r : nat * nat) : Prop :=
  ∀ j, (r.1 ≤ j < r.1 + r.2)%nat → gs !! j = Some 0.

Lemma run_ok_split gs start len :
  run_ok gs (start, len) → (start + len ≤ length gs)%nat →
  take start gs ++ replicate len 0 ++ drop (start + len) gs = gs.
Proof.
  intros Hr Hl. transitivity (take start gs ++ drop start gs); [|apply take_drop]. f_equal.
  rewrite <- (take_drop len (drop start gs)). rewrite drop_drop. f_equal.
  apply list_eq. intros j. destruct (decide (j < len)%nat) as [Hj|Hj].
  - rewrite lookup_replicate_2, lookup_take_lt, lookup_drop by done. symmetry. apply Hr. simpl; lia.
  - rewrite !lookup_ge_None_2; [done| |]; rewrite ?length_take, ?length_drop, ?length_replicate; lia.
Qed.

Lemma zero_run_spec gs pre current longest :
  run_ok (pre ++ gs) current → (current.2 = 0 ∨ current.1 + current.2 = length pre)%nat →
  run_ok (pre ++ gs) longest → (longest.2 = 0 ∨ longest.1 + longest.2 ≤ length (pre ++ gs))%nat →
  let r := zero_run gs (length pre) current longest in
  run_ok (pre ++ gs) r ∧ (r.2 = 0 ∨ r.1 + r.2 ≤ length (pre ++ gs))%nat.
Proof.
  revert pre current longest. induction gs as [|g gs IH]; intros pre current longest Hc Hcl Hl Hll; [done|].
  cbn [zero_run]. specialize (IH (pre ++ [g])). rewrite length_app, Nat.add_1_r, <- app_assoc in IH.
  cbn [app] in IH. destruct (Z.eqb_spec g 0) as [->|].
  - set (c := if (current.2 =? 0)%nat then _ else _).
    assert (run_ok (pre ++ 0 :: gs) c ∧ c.2 ≠ 0%nat ∧ (c.1 + c.2 = S (length pre))%nat) as (Hc1 & Hc2 & Hc3).
    { unfold c. destruct (Nat.eqb_spec current.2 0) as [E|E]; cbn; repeat split; [| lia.. | | lia | lia].
      - intros j Hj. cbn in Hj. replace j with (length pre) by lia. apply list_lookup_middle. done.
      - intros j Hj. cbn in Hj. destruct (decide (j = length pre)) as [->|]; [by apply list_lookup_middle|].
        apply Hc. lia. }
    apply IH; [done|lia|by destruct (longest.2 <? c.2)%nat|].
    destruct (longest.2 <? c.2)%nat; [right; rewrite length_app; simpl; lia|done].
  - apply IH; [intros j Hj; simpl in Hj; lia|by left|done..].
Qed.

(** ** Addresses *)

Lemma read_ipv6_plain gs :
  Forall (λ g, 0 ≤ g ≤ u16_max) gs → length gs = 8%nat →
  read_ipv6_addr (print_groups 0 gs) = Some (groups_value gs, []).
Proof.
  intros Hg Hl. unfold read_ipv6_addr. rewrite <- (app_nil_r (print_groups 0 gs)).
  rewrite read_groups_print; [by rewrite Hl|done|lia|by left|by intros ?%elem_of_nil].
Qed.

Lemma read_ipv6_compressed gs start len :
  Forall (λ g, 0 ≤ g ≤ u16_max) gs → length gs = 8%nat → run_ok gs (start, len) → (1 < len)%nat →
  (start + len ≤ 8)%nat →
  read_ipv6_addr (print_groups 0 (take start gs) ++ [58; 58] ++ print_groups 0 (drop (start + len) gs)) =
  Some (groups_value gs, []).
Proof.
  intros Hg Hl Hr Hlen Hsum. unfold read_ipv6_addr.
  assert (length (take start gs) = start) as Hts by (rewrite length_take; lia).
  assert (length (drop (start + len) gs) = 8 - start - len)%nat as Hds by (rewrite length_drop; lia).
  rewrite read_groups_print; [|by apply Forall_take|lia|right; by eexists|].
  2:{ cbn [app]. rewrite !elem_of_cons. intros [?|[?|?]]; [lia..|]. eapply print_groups_no_dot; [|done]. by apply Forall_drop. }
  rewrite Hts. assert ((start =? 8)%nat = false) as -> by (apply Nat.eqb_neq; lia).
  cbn [app read_given_char Z.eqb Pos.eqb mbind option_bind].
  rewrite <- (app_nil_r (print_groups 0 (drop (start + len) gs))).
  rewrite read_groups_print; [|by apply Forall_drop|lia|by left|by intros ?%elem_of_nil].
  rewrite Hds. replace (8 - start - (8 - start - len))%nat with len by lia.
  by rewrite run_ok_split by (done || lia).
Qed.

Lemma read_ipv6_mapped a :
  0 ≤ a ≤ u32_max →
  read_ipv6_addr ([58; 58; 102; 102; 102; 102; 58] ++ print_ipv4 a) = Some (65535 * 2 ^ 32 + a, []).
Proof.
  intros Ha. unfold read_ipv6_addr. cbn [app].
  assert (∀ r, read_groups 8 0 (58 :: 58 :: r) = ([], false, 58 :: 58 :: r)) as -> by done.
  cbn [length Nat.eqb read_given_char Z.eqb Pos.eqb mbind option_bind Nat.add Nat.sub].
  assert (read_groups 7 0 (102 :: 102 :: 102 :: 102 :: 58 :: print_ipv4 a) =
    ([65535; a / 65536; a mod 65536], true, [])) as ->.
  { change (read_groups 7 0 (102 :: 102 :: 102 :: 102 :: 58 :: print_ipv4 a)) with
      (let '(gs, v4, rest) := read_groups 6 1 (58 :: print_ipv4 a) in (65535 :: gs, v4, rest)).
    cbn [read_groups Nat.leb read_separator Nat.eqb read_given_char Z.eqb Pos.eqb mbind option_bind].
    rewrite <- (app_nil_r (print_ipv4 a)), read_ipv4_print by done. done. }
  cbn [length Nat.sub app replicate]. unfold groups_value. cbn [foldl]. do 2 f_equal.
  pose proof (Z.div_mod a 65536). lia.
Qed.

Lemma read_ipv6_print a : 0 ≤ a < 2 ^ 128 → read_ipv6_addr (print_ipv6 a) = Some (a, []).
Proof.
  intros Ha. unfold print_ipv6. destruct (Z.eqb_spec (a / 2 ^ 32) 65535) as [E|E].
  { rewrite read_ipv6_mapped by (unfold u32_max; pose proof (Z.mod_pos_bound a (2 ^ 32)); lia).
    do 2 f_equal. pose proof (Z.div_mod a (2 ^ 32)). lia. }
  pose proof (segments_ok a) as Hg. pose proof (groups_value_segments a Ha) as Hv.
  assert (length (segments a) = 8%nat) as Hl by done.
  destruct (zero_run_spec (segments a) [] (0, 0)%nat (0, 0)%nat) as [Hr Hrl];
    [intros j Hj; simpl in Hj; lia|by left|intros j Hj; simpl in Hj; lia|by left|].
  cbn [app length] in Hr, Hrl. destruct (zero_run _ _ _ _) as [start len]. cbn in Hrl.
  replace (Some (a, @nil Z)) with (Some (groups_value (segments a), @nil Z)) by (by rewrite Hv).
  destruct (Nat.ltb_spec 1 len).
  - apply read_ipv6_compressed; [done..|lia].
  - by apply read_ipv6_plain.
Qed.

Lemma print_ipv6_not_v4 a : read_ipv4_addr (print_ipv6 a) = None.
Proof.
  unfold print_ipv6. destruct (a / 2 ^ 32 =? 65535); [done|]. apply read_ipv4_no_dot.
  destruct (zero_run _ _ _ _) as [start len].
  pose proof (segments_ok a). destruct (1 <? len)%nat; [|by apply print_groups_no_dot].
  rewrite !elem_of_app. cbn [app]. rewrite !elem_of_cons, elem_of_nil.
  intros [Hx|[[?|[?|?]]|Hx]]; try lia; try done; revert Hx; apply print_groups_no_dot;
    [by apply Forall_take|by apply Forall_drop].
Qed.

(** A dot, a colon or a digit. *)
Definition addr_char (b : Z) : Prop := 46 ≤ b ≤ 102.

Lemma digit_char_addr d : 0 ≤ d < 16 → addr_char (digit_char d).
Proof. unfold digit_char, addr_char. destruct (d <? 10); lia. Qed.

Lemma digit_char_byte d : 0 ≤ d < 16 → byte_ok (digit_char d).
Proof. intros Hd%digit_char_addr. unfold addr_char in Hd. unfold byte_ok. lia. Qed.

Lemma print_digits_addr radix fuel n :
  2 ≤ radix ≤ 16 → 0 ≤ n < radix ^ Z.of_nat fuel → Forall addr_char (digit_char <$> digits radix fuel n).
Proof.
  intros Hr Hn. apply Forall_fmap. destruct (digits_spec radix fuel n) as (_ & Hf & _); [lia..|].
  eapply Forall_impl; [exact Hf|]. intros d Hd. cbn in *. apply digit_char_addr. lia.
Qed.

Lemma print_ipv4_addr a : Forall addr_char (print_ipv4 a).
Proof.
  unfold print_ipv4. pose proof (be_bytes_ok 4 a) as Hok.
  destruct (be_bytes 4 a) as [|o0 [|o1 [|o2 [|o3 [|]]]]]; try constructor.
  do 4 (apply Forall_cons in Hok as [? Hok]). unfold byte_ok in *.
  repeat (apply Forall_app; split); try (apply print_digits_addr; lia); repeat constructor; unfold addr_char; lia.
Qed.

Lemma print_groups_addr i gs : Forall (λ g, 0 ≤ g ≤ u16_max) gs → Forall addr_char (print_groups i gs).
Proof.
  intros Hg. revert i. induction Hg as [|g gs Hg _ IH]; intros i; cbn [print_groups]; [constructor|].
  unfold u16_max in Hg. apply Forall_app; split; [destruct (i =? 0)%nat; repeat constructor; unfold addr_char; lia|].
  apply Forall_app; split; [apply print_digits_addr; lia|apply IH].
Qed.

Lemma print_ip_addr a : Forall addr_char (print_ip a).
Proof.
  destruct a as [z|z]; cbn [print_ip]; [apply print_ipv4_addr|]. unfold print_ipv6.
  destruct (z / 2 ^ 32 =? 65535).
  { apply Forall_app; split; [repeat constructor; unfold addr_char; lia|apply print_ipv4_addr]. }
  pose proof (segments_ok z). destruct (zero_run _ _ _ _) as [start len].
  destruct (1 <? len)%nat; [|by apply print_groups_addr].
  apply Forall_app; split; [by apply print_groups_addr, Forall_take|].
  apply Forall_app; split; [repeat constructor; unfold addr_char; lia|by apply print_groups_addr, Forall_drop].
Qed.

Lemma addr_bytes l : Forall addr_char l → bytes_ok l.
Proof. intros Hl. eapply Forall_impl; [exact Hl|]. unfold addr_char, byte_ok. lia. Qed.

Lemma print_digits_bytes radix fuel n :
  2 ≤ radix ≤ 16 → 0 ≤ n < radix ^ Z.of_nat fuel → bytes_ok (digit_char <$> digits radix fuel n).
Proof. intros Hr Hn. by apply addr_bytes, print_digits_addr. Qed.

Lemma print_ip_bytes a : bytes_ok (print_ip a).
Proof. apply addr_bytes, print_ip_addr. Qed.

(** An address written with [to_string] parses back to itself. *)
Lemma parse_ip_to_string a : ip_wf a → parse_ip (ip_to_string a) = Some a.
Proof.
  intros Ha. unfold parse_ip, ip_to_string, parse_with. rewrite str_bytes_of by apply print_ip_bytes.
  unfold ip_wf in Ha. unfold read_ip_addr. destruct a as [z|z]; cbn [print_ip ip_val ip_bits] in *.
  - rewrite <- (app_nil_r (print_ipv4 z)), read_ipv4_print; [done|unfold u32_max; lia|done].
  - rewrite print_ipv6_not_v4, read_ipv6_print by lia. done.
Qed.

(** ** Numbers read back *)

Lemma span_digits_ok radix l ds rest : span_digits radix l = (ds, rest) → Forall (λ d, 0 ≤ d < radix) ds.
Proof.
  revert ds rest. induction l as [|c l IH]; intros ds rest; cbn; [intros [= <- _]; constructor|].
  destruct (to_digit radix c) as [d|] eqn:Ed; [|intros [= <- _]; constructor].
  destruct (span_digits radix l) as [ds' r]. intros [= <- _]. constructor; [|by eapply IH].
  unfold to_digit in Ed. destruct (if _ : bool then _ else _) as [d'|] eqn:E; [|done].
  destruct (Z.ltb_spec d' radix); [|done]. injection Ed as <-. split; [|done].
  repeat case_match; simplify_eq; rewrite ?andb_true_iff, ?Z.leb_le in *; lia.
Qed.

Lemma digits_value_nonneg radix ds : 0 ≤ radix → Forall (λ d, 0 ≤ d < radix) ds → 0 ≤ digits_value radix ds.
Proof.
  intros Hr Hd. unfold digits_value. assert (∀ acc, 0 ≤ acc → 0 ≤ foldl (λ acc d, acc * radix + d) acc ds) as Hx; [|by apply Hx].
  induction Hd as [|d ds Hd _ IH]; intros acc Ha; [done|]. cbn. apply IH. nia.
Qed.

Lemma parse_uint_ok max s n : parse_uint max s = Some n → 0 ≤ n ≤ max.
Proof.
  unfold parse_uint. destruct (span_digits 10 _) as [ds rest] eqn:E. destruct ds as [|d ds]; [done|].
  destruct rest; [|done]. destruct (Z.ltb_spec max (digits_value 10 (d :: ds))); [done|]. intros [= <-].
  apply span_digits_ok in E. split; [|done]. by apply digits_value_nonneg.
Qed.

Lemma parse_uint_print max n : 0 ≤ n ≤ max → n < 10 ^ 39 → parse_uint max (uint_to_string n) = Some n.
Proof.
  intros Hn Hb. unfold parse_uint, uint_to_string. rewrite str_bytes_of by (apply print_digits_bytes; lia).
  destruct (digits_spec 10 39 n) as (Hv & Hf & Hne); [lia..|]. unfold print_uint.
  assert (match digit_char <$> digits 10 39 n with 43 :: l' => l' | _ => digit_char <$> digits 10 39 n end
    = digit_char <$> digits 10 39 n) as ->.
  { destruct (digits 10 39 n) as [|d ds]; [done|]. apply Forall_cons in Hf as [Hd _]. cbn.
    unfold digit_char at 1. rewrite (proj2 (Z.ltb_lt d 10)) by lia.
    assert (48 + d ≠ 43) as Hc by lia. revert Hc. generalize (48 + d). intros c Hc. by repeat case_match. }
  rewrite <- (app_nil_r (digit_char <$> _)). rewrite span_digits_print by (done || lia).
  destruct (digits 10 39 n) as [|d ds]; [by destruct Hne|]. rewrite Hv. by rewrite (proj2 (Z.ltb_ge _ _)) by lia.
Qed.
