(* ===== verification/Store.v ===== *)
(** * The state store

    Model of [crates/blackwall-state/src/lib.rs] (and of [cookie.rs],
    [services.rs], [rtbh.rs], [flowspec.rs], [sessions.rs], [detections.rs],
    [error.rs] beside it): the methods of [Store] over the PostgreSQL schema of
    [crates/blackwall-state/migrations].

    A table is the list of its rows in insertion order; each SQL statement of
    the source is the operation on the tables that SQL gives it, the
    constraints of the schema (unique indexes, CHECK clauses, no NUL byte in a
    text) making a statement fail. A statement can also fail because of the
    server or the connection: [st_script] is the sequence of those outcomes,
    arbitrary in every theorem. A statement or a transaction that fails has
    not changed the tables. A JSON document is what the serialisation library
    makes of a value ([Json], a parameter), and [ts_ok] says which
    milliseconds since the epoch a timestamp column can hold. Columns that
    only default to the time of the insertion and are never read are left
    out. *)
From stdpp Require Import prelude gmap strings sorting.
From S2P Require Import Prelude Net Float Core Flow Executor NetText.

Open Scope Z_scope.

(** [serde_json] on the values the store writes, and PostgreSQL's range of
    timestamps. *)
Class Postgres := {
  Json : Type;
  to_value : ServiceTarget → option Json;
  from_value : Json → option ServiceTarget;
  from_to_value : ∀ t j, to_value t = Some j → from_value j = Some t;
  json_services : nat → Json;
  ts_ok : Z → bool;
  ts_ok_dates : ∀ ms, 0 ≤ ms ≤ 253402300799999 → ts_ok ms = true;
}.

Inductive StateError : Type :=
| Db_
| Policy_ (e : PolicyError).

(** A text column rejects a NUL byte. *)
Definition text_ok (s : string) : bool := bool_decide (Forall (λ b, b ≠ 0) (str_bytes s)).

(** ** Rows *)

Record TenantRow := { tr_id : Z; tr_name : string }.
Record AssignmentRow := { ar_tenant : Z; ar_address : IpAddr }.
Record SessionRow := {
  sr_local_addr : IpAddr; sr_local_port : Z; sr_peer_addr : IpAddr; sr_proto : string;
  sr_emulator : string; sr_bytes_in : Z; sr_bytes_out : Z; sr_note : option string;
}.
Record DetectionRow := {
  dr_target : IpAddr; dr_pps : f64; dr_bps : f64; dr_severity : string;
  dr_first_seen : Z; dr_last_seen : Z; dr_cleared_at : option Z;
}.
Record RtbhBlackholeRow := {
  bh_target : IpAddr; bh_origin : string; bh_announced_at : Z; bh_withdrawn_at : option Z;
}.
Record RtbhRequestRow := {
  rr_id : Z; rr_target : IpAddr; rr_action : string; rr_created_by : string; rr_status : string;
  rr_note : option string;
}.
Record FlowSpecRuleRow := {
  fr_dst : IpAddr; fr_proto : Z; fr_dst_port : Z; fr_rate : f32; fr_origin : string;
  fr_announced_at : Z; fr_withdrawn_at : option Z;
}.
Record FlowSpecRequestRow := {
  fq_id : Z; fq_dst : IpAddr; fq_proto : Z; fq_dst_port : Z; fq_rate : f32; fq_action : string;
  fq_created_by : string; fq_status : string; fq_note : option string;
}.
Record XdpEntryRow := {
  xe_kind : string; xe_target : IpAddr; xe_prefixlen : option Z; xe_rate_pps : option Z;
  xe_burst : option Z; xe_origin : string; xe_victim : option IpAddr;
}.
Record XdpRequestRow := {
  xr_id : Z; xr_action : string; xr_target : IpAddr; xr_prefixlen : option Z; xr_rate_pps : option Z;
  xr_burst : option Z; xr_created_by : string; xr_status : string;
}.

Section store.
Context `{Postgres} `{IpNetLib}.

Record ServiceRow := {
  sv_tenant : Z; sv_address : IpAddr; sv_proto : string; sv_port : Z; sv_target : Json;
}.
Record AuditRow := { au_actor : string; au_action : string; au_detail : Json }.

(** The tables, and the next identifier of those whose identifiers are read. *)
Record Db := mk_Db {
  db_tenants : list TenantRow;
  db_ip_assignments : list AssignmentRow;
  db_services : list ServiceRow;
  db_audit_log : list AuditRow;
  db_sessions : list SessionRow;
  db_detections : list DetectionRow;
  db_blackholes : list RtbhBlackholeRow;
  db_requests : list RtbhRequestRow;
  db_fs_rules : list FlowSpecRuleRow;
  db_fs_requests : list FlowSpecRequestRow;
  db_cookie_secret : option (list Z);
  db_tenant_seq : Z;
  db_request_seq : Z;
  db_fs_request_seq : Z;
  db_xdp_entries : list XdpEntryRow;
  db_xdp_requests : list XdpRequestRow;
  db_xdp_request_seq : Z;
}.

Definition set_policy ts ips svs seq d := mk_Db ts ips svs (db_audit_log d) (db_sessions d)
  (db_detections d) (db_blackholes d) (db_requests d) (db_fs_rules d) (db_fs_requests d)
  (db_cookie_secret d) seq (db_request_seq d) (db_fs_request_seq d) (db_xdp_entries d)
  (db_xdp_requests d) (db_xdp_request_seq d).
Definition set_audit l d := mk_Db (db_tenants d) (db_ip_assignments d) (db_services d) l (db_sessions d)
  (db_detections d) (db_blackholes d) (db_requests d) (db_fs_rules d) (db_fs_requests d)
  (db_cookie_secret d) (db_tenant_seq d) (db_request_seq d) (db_fs_request_seq d) (db_xdp_entries d)
  (db_xdp_requests d) (db_xdp_request_seq d).
Definition set_sessions l d := mk_Db (db_tenants d) (db_ip_assignments d) (db_services d)
  (db_audit_log d) l (db_detections d) (db_blackholes d) (db_requests d) (db_fs_rules d)
  (db_fs_requests d) (db_cookie_secret d) (db_tenant_seq d) (db_request_seq d) (db_fs_request_seq d) (db_xdp_entries d)
  (db_xdp_requests d) (db_xdp_request_seq d).
Definition set_detections l d := mk_Db (db_tenants d) (db_ip_assignments d) (db_services d)
  (db_audit_log d) (db_sessions d) l (db_blackholes d) (db_requests d) (db_fs_rules d)
  (db_fs_requests d) (db_cookie_secret d) (db_tenant_seq d) (db_request_seq d) (db_fs_request_seq d) (db_xdp_entries d)
  (db_xdp_requests d) (db_xdp_request_seq d).
Definition set_blackholes l d := mk_Db (db_tenants d) (db_ip_assignments d) (db_services d)
  (db_audit_log d) (db_sessions d) (db_detections d) l (db_requests d) (db_fs_rules d)
  (db_fs_requests d) (db_cookie_secret d) (db_tenant_seq d) (db_request_seq d) (db_fs_request_seq d) (db_xdp_entries d)
  (db_xdp_requests d) (db_xdp_request_seq d).
Definition set_requests l seq d := mk_Db (db_tenants d) (db_ip_assignments d) (db_services d)
  (db_audit_log d) (db_sessions d) (db_detections d) (db_blackholes d) l (db_fs_rules d)
  (db_fs_requests d) (db_cookie_secret d) (db_tenant_seq d) seq (db_fs_request_seq d) (db_xdp_entries d)
  (db_xdp_requests d) (db_xdp_request_seq d).
Definition set_fs_rules l d := mk_Db (db_tenants d) (db_ip_assignments d) (db_services d)
  (db_audit_log d) (db_sessions d) (db_detections d) (db_blackholes d) (db_requests d) l
  (db_fs_requests d) (db_cookie_secret d) (db_tenant_seq d) (db_request_seq d) (db_fs_request_seq d) (db_xdp_entries d)
  (db_xdp_requests d) (db_xdp_request_seq d).
Definition set_fs_requests l seq d := mk_Db (db_tenants d) (db_ip_assignments d) (db_services d)
  (db_audit_log d) (db_sessions d) (db_detections d) (db_blackholes d) (db_requests d)
  (db_fs_rules d) l (db_cookie_secret d) (db_tenant_seq d) (db_request_seq d) seq (db_xdp_entries d)
  (db_xdp_requests d) (db_xdp_request_seq d).
Definition set_cookie_secret k d := mk_Db (db_tenants d) (db_ip_assignments d) (db_services d)
  (db_audit_log d) (db_sessions d) (db_detections d) (db_blackholes d) (db_requests d)
  (db_fs_rules d) (db_fs_requests d) k (db_tenant_seq d) (db_request_seq d) (db_fs_request_seq d) (db_xdp_entries d)
  (db_xdp_requests d) (db_xdp_request_seq d).
Definition set_xdp es l seq d := mk_Db (db_tenants d) (db_ip_assignments d) (db_services d)
  (db_audit_log d) (db_sessions d) (db_detections d) (db_blackholes d) (db_requests d)
  (db_fs_rules d) (db_fs_requests d) (db_cookie_secret d) (db_tenant_seq d) (db_request_seq d)
  (db_fs_request_seq d) es l seq.

Record Store := { st_db : Db; st_script : list bool }.

(** ** Statements *)

(** One statement: it fails with the server ([st_script]) or because of a
    constraint ([None]), or gives a result and the new tables. *)
Definition statement {A} (f : Db → option (A * Db)) : M Store (result A StateError) := λ s,
  let after d := {| st_db := d; st_script := tail (st_script s) |} in
  if default true (head (st_script s)) then
    match f (st_db s) with
    | Some (a, d) => (Ok a, after d)
    | None => (Err Db_, after (st_db s))
    end
  else (Err Db_, after (st_db s)).

Definition execute (f : Db → option Db) : M Store (result unit StateError) :=
  statement (λ d, (λ d', ((), d')) <$> f d).

Definition fetch {A} (f : Db → A) : M Store (result A StateError) :=
  statement (λ d, Some (f d, d)).

(** [m?] followed by [k]. *)
Definition bind_ok {A B} (m : M Store (result A StateError)) (k : A → M Store (result B StateError))
    : M Store (result B StateError) :=
  r ← m; match r with Ok a => k a | Err e => mret (Err e) end.

(** A transaction: without its commit nothing has happened. *)
Definition transaction {A} (m : M Store (result A StateError)) : M Store (result A StateError) := λ s,
  let rolled (s' : Store) := {| st_db := st_db s; st_script := st_script s' |} in
  match bind_ok (execute Some) (λ _, bind_ok m (λ a, bind_ok (execute Some) (λ _, mret (Ok a)))) s with
  | (Ok a, s') => (Ok a, s')
  | (Err e, s') => (Err e, rolled s')
  end.

(** [UPDATE .. SET .. WHERE ..] *)
Definition update {A} (p : A → bool) (f : A → A) (l : list A) : list A :=
  (λ r, if p r then f r else r) <$> l.

(** [i64::try_from(ms).unwrap_or(i64::MAX)] *)
Definition i64_max : Z := 9223372036854775807.
Definition clamp_ms (ms : Z) : Z := Z.min ms i64_max.

(** ** Policies *)

Fixpoint insert_owned (tenant_id : Z) (addrs : list IpAddr) : M Store (result unit StateError) :=
  match addrs with
  | [] => mret (Ok ())
  | addr :: addrs =>
      bind_ok (execute (λ d,
        if decide (addr ∈ ar_address <$> db_ip_assignments d) then None
        else Some (set_policy (db_tenants d)
                     (db_ip_assignments d ++ [{| ar_tenant := tenant_id; ar_address := addr |}])
                     (db_services d) (db_tenant_seq d) d)))
        (λ _, insert_owned tenant_id addrs)
  end.

Definition insert_tenant (name : string) : M Store (result Z StateError) :=
  statement (λ d,
    if decide (name ∈ tr_name <$> db_tenants d) then None
    else if text_ok name then
      let id := db_tenant_seq d in
      Some (id, set_policy (db_tenants d ++ [{| tr_id := id; tr_name := name |}])
                  (db_ip_assignments d) (db_services d) (id + 1) d)
    else None).

Fixpoint insert_tenants (ts : list Tenant) : M Store (result unit StateError) :=
  match ts with
  | [] => mret (Ok ())
  | t :: ts =>
      bind_ok (insert_tenant (te_name t)) (λ id,
        bind_ok (insert_owned id (te_owned t)) (λ _, insert_tenants ts))
  end.

(** [SELECT id FROM tenants WHERE name = $1], [fetch_one] *)
Definition tenant_id (name : string) : M Store (result Z StateError) :=
  statement (λ d, t ← List.find (λ t, bool_decide (tr_name t = name)) (db_tenants d);
                  Some (tr_id t, d)).

(** The key of the unique index of [services]. *)
Definition service_index (r : ServiceRow) : IpAddr * string * Z :=
  (sv_address r, sv_proto r, sv_port r).

Definition insert_service (r : ServiceRow) : M Store (result unit StateError) :=
  execute (λ d,
    if decide (service_index r ∈ service_index <$> db_services d) then None
    else if (0 <=? sv_port r) && (sv_port r <=? 65535) then
      Some (set_policy (db_tenants d) (db_ip_assignments d) (db_services d ++ [r])
              (db_tenant_seq d) d)
    else None).

Fixpoint insert_services (svcs : list ResolvedService) : M Store (result unit StateError) :=
  match svcs with
  | [] => mret (Ok ())
  | svc :: svcs =>
      bind_ok (tenant_id (rs_tenant svc)) (λ id,
        match to_value (rs_target svc) with
        | None => mret (Err Db_)
        | Some target =>
            bind_ok (insert_service {| sv_tenant := id; sv_address := rs_addr svc;
                                       sv_proto := proto_string (rs_proto svc);
                                       sv_port := rs_port svc; sv_target := target |})
              (λ _, insert_services svcs)
        end)
  end.

Definition insert_audit (actor action : string) (detail : Json) : M Store (result unit StateError) :=
  execute (λ d,
    if text_ok actor && text_ok action then
      Some (set_audit (db_audit_log d ++ [{| au_actor := actor; au_action := action;
                                             au_detail := detail |}]) d)
    else None).

Definition record_audit (actor action : string) (detail : Json) : M Store (result unit StateError) :=
  insert_audit actor action detail.

Definition audit_count : M Store (result Z StateError) :=
  fetch (λ d, Z.of_nat (length (db_audit_log d))).

(** [TRUNCATE tenants RESTART IDENTITY CASCADE]: also the tables that
    reference it. *)
Definition truncate_tenants : M Store (result unit StateError) :=
  execute (λ d, Some (set_policy [] [] [] 1 d)).

Definition apply_policy (policy : Policy) (actor : string) : M Store (result nat StateError) :=
  match resolve policy with
  | Err e => mret (Err (Policy_ e))
  | Ok resolved =>
      transaction (
        bind_ok truncate_tenants (λ _,
        bind_ok (insert_tenants (tenants policy)) (λ _,
        bind_ok (insert_services resolved) (λ _,
        bind_ok (insert_audit actor "apply_policy" (json_services (length resolved))) (λ _,
        mret (Ok (length resolved)))))))
  end.

Record StoredService := {
  ss_address : IpAddr; ss_proto : L4Proto; ss_port : Z; ss_target : ServiceTarget; ss_tenant : string;
}.

(** The order of INET values that are hosts: IPv4 first, then by value. *)
Definition inet_leb (a b : IpAddr) : bool :=
  match a, b with
  | V4 x, V4 y | V6 x, V6 y => x <=? y
  | V4 _, V6 _ => true
  | V6 _, V4 _ => false
  end.

(** [ORDER BY s.address, s.port] *)
Definition service_le (r1 r2 : ServiceRow * string) : Prop :=
  if decide (sv_address r1.1 = sv_address r2.1) then sv_port r1.1 ≤ sv_port r2.1
  else inet_leb (sv_address r1.1) (sv_address r2.1) = true.

#[export] Instance service_le_dec : RelDecision service_le.
Proof. intros r1 r2. unfold service_le. case_decide; solve_decision. Defined.

(** The rows of [services] joined with the name of their tenant. *)
Definition joined (d : Db) : list (ServiceRow * string) :=
  r ← db_services d;
  t ← db_tenants d;
  if tr_id t =? sv_tenant r then [(r, tr_name t)] else [].

Fixpoint decode_services (rows : list (ServiceRow * string)) : result (list StoredService) StateError :=
  match rows with
  | [] => Ok []
  | (r, tenant) :: rows =>
      let proto := if decide (sv_proto r = "tcp") then Some Tcp
                   else if decide (sv_proto r = "udp") then Some Udp else None in
      match proto, (if (0 <=? sv_port r) && (sv_port r <=? 65535) then Some (sv_port r) else None),
            from_value (sv_target r) with
      | Some proto, Some port, Some target =>
          result_bind (decode_services rows) (λ out,
            Ok ({| ss_address := sv_address r; ss_proto := proto; ss_port := port;
                   ss_target := target; ss_tenant := tenant |} :: out))
      | _, _, _ => Err Db_
      end
  end.

Definition list_services : M Store (result (list StoredService) StateError) :=
  bind_ok (fetch (λ d, merge_sort service_le (joined d))) (λ rows, mret (decode_services rows)).

(** ** Deception sessions *)

Definition strip_nul (s : string) : string := of_bytes (filter (λ b, b ≠ 0) (str_bytes s)).

Definition record_session (s : SessionRow) : M Store (result unit StateError) :=
  let note := strip_nul <$> sr_note s in
  execute (λ d,
    if bool_decide (sr_proto s ∈ ["tcp"; "udp"; "icmp"]) && (0 <=? sr_local_port s) &&
       (sr_local_port s <=? 65535) && text_ok (sr_emulator s) && from_option text_ok true note then
      Some (set_sessions (db_sessions d ++ [{| sr_local_addr := sr_local_addr s;
              sr_local_port := sr_local_port s; sr_peer_addr := sr_peer_addr s;
              sr_proto := sr_proto s; sr_emulator := sr_emulator s; sr_bytes_in := sr_bytes_in s;
              sr_bytes_out := sr_bytes_out s; sr_note := note |}]) d)
    else None).

Definition session_count : M Store (result Z StateError) :=
  fetch (λ d, Z.of_nat (length (db_sessions d))).

(** ** Detections *)

Definition severity_str (s : Severity) : string :=
  match s with Warning => "warning" | High => "high" | Critical => "critical" end.

Definition open_detection (d : Detection) : M Store (result unit StateError) :=
  let first_seen := clamp_ms (d_first_seen_ms d) in
  let last_seen := clamp_ms (d_last_seen_ms d) in
  execute (λ db,
    if ts_ok first_seen && ts_ok last_seen then
      Some (set_detections (db_detections db ++ [{| dr_target := d_target d;
              dr_pps := d_observed_pps d; dr_bps := d_observed_bps d;
              dr_severity := severity_str (d_severity d); dr_first_seen := first_seen;
              dr_last_seen := last_seen; dr_cleared_at := None |}]) db)
    else None).

(** [target = $1 AND cleared_at IS NULL] *)
Definition open_row (target : IpAddr) (r : DetectionRow) : bool :=
  bool_decide (dr_target r = target) && bool_decide (dr_cleared_at r = None).

(** A [to_timestamp] out of range fails the statement. *)
Definition update_detection (target : IpAddr) (pps bps : f64) (last_seen_ms : Z)
    : M Store (result unit StateError) :=
  let ts := clamp_ms last_seen_ms in
  execute (λ d,
    if ts_ok ts then
      Some (set_detections (update (open_row target) (λ r, {| dr_target := dr_target r;
              dr_pps := pps; dr_bps := bps; dr_severity := dr_severity r;
              dr_first_seen := dr_first_seen r; dr_last_seen := ts;
              dr_cleared_at := dr_cleared_at r |}) (db_detections d)) d)
    else None).

Definition clear_detection (target : IpAddr) (at_ms : Z) : M Store (result unit StateError) :=
  let ts := clamp_ms at_ms in
  execute (λ d,
    if ts_ok ts then
      Some (set_detections (update (open_row target) (λ r, {| dr_target := dr_target r;
              dr_pps := dr_pps r; dr_bps := dr_bps r; dr_severity := dr_severity r;
              dr_first_seen := dr_first_seen r; dr_last_seen := dr_last_seen r;
              dr_cleared_at := Some ts |}) (db_detections d)) d)
    else None).

(** [WHERE cleared_at IS NULL ORDER BY target] *)
Definition detection_le (r1 r2 : DetectionRow) : Prop := inet_leb (dr_target r1) (dr_target r2) = true.
#[export] Instance detection_le_dec : RelDecision detection_le.
Proof. intros r1 r2. unfold detection_le. solve_decision. Defined.

(** The two times as [u64]. *)
Fixpoint decode_detections (rows : list DetectionRow) : result (list DetectionRow) StateError :=
  match rows with
  | [] => Ok []
  | r :: rows =>
      if (0 <=? dr_first_seen r) && (0 <=? dr_last_seen r) then
        result_bind (decode_detections rows) (λ out, Ok (r :: out))
      else Err Db_
  end.

Definition list_active_detections : M Store (result (list DetectionRow) StateError) :=
  bind_ok (fetch (λ d, merge_sort detection_le (filter (λ r, dr_cleared_at r = None) (db_detections d))))
    (λ rows, mret (decode_detections rows)).

Definition detection_count : M Store (result Z StateError) :=
  fetch (λ d, Z.of_nat (length (db_detections d))).

(** [PgMitigationSink::handle]; a failure is logged. *)
Definition sink_handle (ev : DetectionEvent) : M Store unit :=
  _res ← match ev with
         | Opened d => open_detection d
         | Updated d => update_detection (d_target d) (d_observed_pps d) (d_observed_bps d)
                          (d_last_seen_ms d)
         | Cleared target at_ms => clear_detection target at_ms
         end;
  mret ().

(** ** The blackhole mirror *)

(** Not withdrawn. *)
Definition bh_active (r : RtbhBlackholeRow) : bool := bool_decide (bh_withdrawn_at r = None).
Definition bh_for (target : IpAddr) (r : RtbhBlackholeRow) : bool :=
  bool_decide (bh_target r = target) && bh_active r.

(** [INSERT .. ON CONFLICT (target) WHERE withdrawn_at IS NULL DO UPDATE] *)
Definition record_blackhole (target : IpAddr) (origin : string) (at_ms : Z)
    : M Store (result unit StateError) :=
  let ts := clamp_ms at_ms in
  execute (λ d,
    if negb (ts_ok ts) || negb (bool_decide (origin ∈ ["auto"; "manual"])) then None
    else if existsb (bh_for target) (db_blackholes d) then
      Some (set_blackholes (update (bh_for target) (λ r, {| bh_target := bh_target r;
              bh_origin := if decide (bh_origin r = "manual") then "manual" else origin;
              bh_announced_at := bh_announced_at r; bh_withdrawn_at := bh_withdrawn_at r |})
              (db_blackholes d)) d)
    else
      Some (set_blackholes (db_blackholes d ++ [{| bh_target := target; bh_origin := origin;
              bh_announced_at := ts; bh_withdrawn_at := None |}]) d)).

Definition clear_blackhole (target : IpAddr) (at_ms : Z) (only_auto : bool)
    : M Store (result unit StateError) :=
  let ts := clamp_ms at_ms in
  let hit r := bh_for target r && (negb only_auto || bool_decide (bh_origin r = "auto")) in
  execute (λ d,
    if ts_ok ts then
      Some (set_blackholes (update hit (λ r, {| bh_target := bh_target r; bh_origin := bh_origin r;
              bh_announced_at := bh_announced_at r; bh_withdrawn_at := Some ts |})
              (db_blackholes d)) d)
    else None).

(** [ORDER BY target] *)
Definition bh_le (r1 r2 : RtbhBlackholeRow) : Prop := inet_leb (bh_target r1) (bh_target r2) = true.

#[export] Instance bh_le_dec : RelDecision bh_le.
Proof. intros r1 r2. unfold bh_le. solve_decision. Defined.

Definition u64_or_err (ms : Z) : option Z := if 0 <=? ms then Some ms else None.

Fixpoint decode_blackholes (rows : list RtbhBlackholeRow)
    : result (list RtbhBlackholeRow) StateError :=
  match rows with
  | [] => Ok []
  | r :: rows =>
      match u64_or_err (bh_announced_at r),
            match bh_withdrawn_at r with
            | Some w => Some <$> u64_or_err w
            | None => Some None
            end with
      | Some announced, Some withdrawn =>
          result_bind (decode_blackholes rows) (λ out,
            Ok ({| bh_target := bh_target r; bh_origin := bh_origin r;
                   bh_announced_at := announced; bh_withdrawn_at := withdrawn |} :: out))
      | _, _ => Err Db_
      end
  end.

Definition list_active_blackholes : M Store (result (list RtbhBlackholeRow) StateError) :=
  bind_ok (fetch (λ d, merge_sort bh_le (filter (λ r, bh_active r = true) (db_blackholes d))))
    (λ rows, mret (decode_blackholes rows)).

Definition origin_str (o : BlackholeOrigin) : string :=
  match o with Auto => "auto" | Manual => "manual" end.

Definition to_journal_error (r : result unit StateError) : result unit JournalError :=
  match r with Ok u => Ok u | Err _ => Err (mk_JournalError "database error") end.

(** [impl BlackholeJournal for Store] *)
#[export] Instance Store_journal : BlackholeJournal Store := {|
  j_record_announce target origin at_ms :=
    r ← record_blackhole target (origin_str origin) at_ms; mret (to_journal_error r);
  j_record_withdraw target at_ms :=
    r ← clear_blackhole target at_ms false; mret (to_journal_error r);
|}.

(** ** The queue of operator requests *)

(** [status] defaults to [pending]. *)
Definition enqueue_request (target : IpAddr) (action created_by : string)
    : M Store (result Z StateError) :=
  statement (λ d,
    if bool_decide (action ∈ ["add"; "remove"]) && text_ok created_by then
      let id := db_request_seq d in
      Some (id, set_requests (db_requests d ++ [{| rr_id := id; rr_target := target;
                  rr_action := action; rr_created_by := created_by; rr_status := "pending";
                  rr_note := None |}]) (id + 1) d)
    else None).

Definition request_le (r1 r2 : RtbhRequestRow) : Prop := rr_id r1 ≤ rr_id r2.
#[export] Instance request_le_dec : RelDecision request_le.
Proof. intros r1 r2. unfold request_le. solve_decision. Defined.

Definition pending_requests : M Store (result (list RtbhRequestRow) StateError) :=
  fetch (λ d, merge_sort request_le (filter (λ r, rr_status r = "pending") (db_requests d))).

Definition set_status (status : string) (note : option string) (r : RtbhRequestRow)
    : RtbhRequestRow :=
  {| rr_id := rr_id r; rr_target := rr_target r; rr_action := rr_action r;
     rr_created_by := rr_created_by r; rr_status := status; rr_note := note |}.

Definition supersede_pending_adds (target : IpAddr) (before_id : Z)
    : M Store (result unit StateError) :=
  execute (λ d, Some (set_requests
    (update (λ r, bool_decide (rr_action r = "add") && bool_decide (rr_target r = target) &&
                  bool_decide (rr_status r = "pending") && (rr_id r <? before_id))
       (set_status "applied" (Some "superseded by remove")) (db_requests d))
    (db_request_seq d) d)).

Definition set_request_status (id : Z) (status : string) (note : option string)
    : M Store (result unit StateError) :=
  execute (λ d,
    if bool_decide (status ∈ ["pending"; "applied"; "rejected"]) && from_option text_ok true note then
      Some (set_requests (update (λ r, rr_id r =? id) (set_status status note) (db_requests d))
              (db_request_seq d) d)
    else None).

Definition list_requests (status_filter : option string)
    : M Store (result (list RtbhRequestRow) StateError) :=
  fetch (λ d, merge_sort request_le
    match status_filter with
    | Some status => filter (λ r, rr_status r = status) (db_requests d)
    | None => db_requests d
    end).

(** ** The FlowSpec mirror *)

Definition fr_key (r : FlowSpecRuleRow) : IpAddr * Z * Z := (fr_dst r, fr_proto r, fr_dst_port r).
Definition fr_active (r : FlowSpecRuleRow) : bool := bool_decide (fr_withdrawn_at r = None).
Definition fr_for (k : IpAddr * Z * Z) (r : FlowSpecRuleRow) : bool :=
  bool_decide (fr_key r = k) && fr_active r.

(** [f64::from] of a rate and [::real] of the column give the rate back, so
    the column is the rate. *)
Definition record_flowspec (dst : IpAddr) (proto dst_port : Z) (rate : f32) (origin : string)
    (at_ms : Z) : M Store (result unit StateError) :=
  let ts := clamp_ms at_ms in
  let k := (dst, proto, dst_port) in
  execute (λ d,
    if negb (ts_ok ts) || negb (bool_decide (origin ∈ ["auto"; "manual"])) then None
    else if existsb (fr_for k) (db_fs_rules d) then
      Some (set_fs_rules (update (fr_for k) (λ r, {| fr_dst := fr_dst r; fr_proto := fr_proto r;
              fr_dst_port := fr_dst_port r; fr_rate := rate;
              fr_origin := if decide (fr_origin r = "manual") then "manual" else origin;
              fr_announced_at := fr_announced_at r; fr_withdrawn_at := fr_withdrawn_at r |})
              (db_fs_rules d)) d)
    else
      Some (set_fs_rules (db_fs_rules d ++ [{| fr_dst := dst; fr_proto := proto;
              fr_dst_port := dst_port; fr_rate := rate; fr_origin := origin;
              fr_announced_at := ts; fr_withdrawn_at := None |}]) d)).

Definition clear_flowspec (dst : IpAddr) (proto dst_port : Z) (at_ms : Z) (only_auto : bool)
    : M Store (result unit StateError) :=
  let ts := clamp_ms at_ms in
  let hit r := fr_for (dst, proto, dst_port) r && (negb only_auto || bool_decide (fr_origin r = "auto")) in
  execute (λ d,
    if ts_ok ts then
      Some (set_fs_rules (update hit (λ r, {| fr_dst := fr_dst r; fr_proto := fr_proto r;
              fr_dst_port := fr_dst_port r; fr_rate := fr_rate r; fr_origin := fr_origin r;
              fr_announced_at := fr_announced_at r; fr_withdrawn_at := Some ts |})
              (db_fs_rules d)) d)
    else None).

(** [ORDER BY dst, proto, dst_port] *)
Definition fr_le (r1 r2 : FlowSpecRuleRow) : Prop :=
  if decide (fr_dst r1 = fr_dst r2) then
    if decide (fr_proto r1 = fr_proto r2) then fr_dst_port r1 ≤ fr_dst_port r2
    else fr_proto r1 ≤ fr_proto r2
  else inet_leb (fr_dst r1) (fr_dst r2) = true.
#[export] Instance fr_le_dec : RelDecision fr_le.
Proof. intros r1 r2. unfold fr_le. repeat case_decide; solve_decision. Defined.

Definition narrow_proto (v : Z) : option Z := if (0 <=? v) && (v <=? u8_max) then Some v else None.
Definition narrow_port (v : Z) : option Z := if (0 <=? v) && (v <=? u16_max) then Some v else None.

Fixpoint decode_flowspec (rows : list FlowSpecRuleRow) : result (list FlowSpecRuleRow) StateError :=
  match rows with
  | [] => Ok []
  | r :: rows =>
      match u64_or_err (fr_announced_at r),
            match fr_withdrawn_at r with
            | Some w => Some <$> u64_or_err w
            | None => Some None
            end, narrow_proto (fr_proto r), narrow_port (fr_dst_port r) with
      | Some announced, Some withdrawn, Some proto, Some port =>
          result_bind (decode_flowspec rows) (λ out,
            Ok ({| fr_dst := fr_dst r; fr_proto := proto; fr_dst_port := port; fr_rate := fr_rate r;
                   fr_origin := fr_origin r; fr_announced_at := announced;
                   fr_withdrawn_at := withdrawn |} :: out))
      | _, _, _, _ => Err Db_
      end
  end.

Definition list_active_flowspec : M Store (result (list FlowSpecRuleRow) StateError) :=
  bind_ok (fetch (λ d, merge_sort fr_le (filter (λ r, fr_active r = true) (db_fs_rules d))))
    (λ rows, mret (decode_flowspec rows)).

Definition flatten_flowspec (rule : FlowSpecRule) : IpAddr * Z * Z * f32 :=
  let 'TrafficRate rate := action rule in
  (net_addr (dst rule), default 0 (protocol rule), default 0 (dst_port rule), rate).

(** [impl FlowSpecJournal for Store] *)
#[export] Instance Store_flowspec_journal : FlowSpecJournal Store := {|
  fj_record_announce rule origin at_ms :=
    let '(dst, proto, port, rate) := flatten_flowspec rule in
    r ← record_flowspec dst proto port rate (origin_str origin) at_ms; mret (to_journal_error r);
  fj_record_withdraw rule at_ms :=
    let '(dst, proto, port, _) := flatten_flowspec rule in
    r ← clear_flowspec dst proto port at_ms false; mret (to_journal_error r);
|}.

(** ** FlowSpec requests *)

Definition enqueue_flowspec_request (dst : IpAddr) (proto dst_port : Z) (rate : f32)
    (action created_by : string) : M Store (result Z StateError) :=
  statement (λ d,
    if bool_decide (action ∈ ["add"; "remove"]) && text_ok created_by then
      let id := db_fs_request_seq d in
      Some (id, set_fs_requests (db_fs_requests d ++ [{| fq_id := id; fq_dst := dst;
                  fq_proto := proto; fq_dst_port := dst_port; fq_rate := rate; fq_action := action;
                  fq_created_by := created_by; fq_status := "pending"; fq_note := None |}])
                  (id + 1) d)
    else None).

Definition fs_request_le (r1 r2 : FlowSpecRequestRow) : Prop := fq_id r1 ≤ fq_id r2.
#[export] Instance fs_request_le_dec : RelDecision fs_request_le.
Proof. intros r1 r2. unfold fs_request_le. solve_decision. Defined.

Fixpoint rows_to_flowspec_requests (rows : list FlowSpecRequestRow)
    : result (list FlowSpecRequestRow) StateError :=
  match rows with
  | [] => Ok []
  | r :: rows =>
      match narrow_proto (fq_proto r), narrow_port (fq_dst_port r) with
      | Some proto, Some port =>
          result_bind (rows_to_flowspec_requests rows) (λ out,
            Ok ({| fq_id := fq_id r; fq_dst := fq_dst r; fq_proto := proto; fq_dst_port := port;
                   fq_rate := fq_rate r; fq_action := fq_action r;
                   fq_created_by := fq_created_by r; fq_status := fq_status r;
                   fq_note := fq_note r |} :: out))
      | _, _ => Err Db_
      end
  end.

Definition pending_flowspec_requests : M Store (result (list FlowSpecRequestRow) StateError) :=
  bind_ok (fetch (λ d, merge_sort fs_request_le
                         (filter (λ r, fq_status r = "pending") (db_fs_requests d))))
    (λ rows, mret (rows_to_flowspec_requests rows)).

Definition list_flowspec_requests (status_filter : option string)
    : M Store (result (list FlowSpecRequestRow) StateError) :=
  bind_ok (fetch (λ d, merge_sort fs_request_le
    match status_filter with
    | Some status => filter (λ r, fq_status r = status) (db_fs_requests d)
    | None => db_fs_requests d
    end)) (λ rows, mret (rows_to_flowspec_requests rows)).

Definition set_fs_status (status : string) (note : option string) (r : FlowSpecRequestRow)
    : FlowSpecRequestRow :=
  {| fq_id := fq_id r; fq_dst := fq_dst r; fq_proto := fq_proto r; fq_dst_port := fq_dst_port r;
     fq_rate := fq_rate r; fq_action := fq_action r; fq_created_by := fq_created_by r;
     fq_status := status; fq_note := note |}.

Definition supersede_pending_flowspec_adds (dst : IpAddr) (proto dst_port before_id : Z)
    : M Store (result unit StateError) :=
  execute (λ d, Some (set_fs_requests
    (update (λ r, bool_decide (fq_action r = "add") && bool_decide (fq_dst r = dst) &&
                  (fq_proto r =? proto) && (fq_dst_port r =? dst_port) &&
                  bool_decide (fq_status r = "pending") && (fq_id r <? before_id))
       (set_fs_status "applied" (Some "superseded by remove")) (db_fs_requests d))
    (db_fs_request_seq d) d)).

Definition set_flowspec_request_status (id : Z) (status : string) (note : option string)
    : M Store (result unit StateError) :=
  execute (λ d,
    if bool_decide (status ∈ ["pending"; "applied"; "rejected"]) && from_option text_ok true note then
      Some (set_fs_requests (update (λ r, fq_id r =? id) (set_fs_status status note)
              (db_fs_requests d)) (db_fs_request_seq d) d)
    else None).

(** ** The shared cookie secret ([cookie.rs]) *)

(** The two statements of [cookie_secret]; [random_secret] gives the
    candidate. *)
Definition insert_secret (candidate : list Z) : M Store (result unit StateError) :=
  execute (λ d,
    if (length candidate =? 16)%nat then
      Some (match db_cookie_secret d with
            | Some _ => d
            | None => set_cookie_secret (Some candidate) d
            end)
    else None).

Definition select_secret : M Store (result (list Z) StateError) :=
  bind_ok (statement (λ d, (λ k, (k, d)) <$> db_cookie_secret d)) (λ k,
    mret (if (length k =? 16)%nat then Ok k else Err Db_)).

Definition cookie_secret (candidate : list Z) : M Store (result (list Z) StateError) :=
  bind_ok (insert_secret candidate) (λ _, select_secret).

(** ** The mirror as a journal *)

(** The origin the daemon reads in a row. *)
Definition origin_of (s : string) : BlackholeOrigin := if decide (s = "manual") then Manual else Auto.

(** The active rows, by target. *)
Definition bh_entry (r : RtbhBlackholeRow) : option (IpAddr * BlackholeOrigin) :=
  if bh_active r then Some (bh_target r, origin_of (bh_origin r)) else None.
Definition mirror_rows (l : list RtbhBlackholeRow) : gmap IpAddr BlackholeOrigin :=
  list_to_map (omap bh_entry l).

Lemma mirror_rows_cons r l :
  mirror_rows (r :: l)
  = if bh_active r then <[bh_target r := origin_of (bh_origin r)]> (mirror_rows l) else mirror_rows l.
Proof. unfold mirror_rows. cbn. unfold bh_entry at 1. by destruct (bh_active r). Qed.

Lemma mirror_rows_none l t :
  existsb (bh_for t) l = false → mirror_rows l !! t = None.
Proof.
  induction l as [|r l IH]; [done|]. cbn [existsb]. rewrite orb_false_iff. intros [Hr Hl].
  rewrite mirror_rows_cons. unfold bh_for in Hr. destruct (bh_active r); [|by apply IH].
  rewrite andb_true_r in Hr. apply bool_decide_eq_false in Hr.
  by rewrite lookup_insert_ne, IH.
Qed.

Lemma mirror_rows_snoc l r :
  mirror_rows l !! bh_target r = None → bh_active r = true →
  mirror_rows (l ++ [r]) = <[bh_target r := origin_of (bh_origin r)]> (mirror_rows l).
Proof.
  induction l as [|r' l IH]; intros Hn Ha.
  - by rewrite app_nil_l, mirror_rows_cons, Ha.
  - rewrite <-app_comm_cons, !mirror_rows_cons in *. destruct (bh_active r'); [|by apply IH].
    rewrite lookup_insert_None in Hn. destruct Hn as [Hn Hne].
    rewrite IH by done. by apply insert_insert_ne.
Qed.

(** A change of the active rows of [t] that keeps them active. *)
Lemma mirror_rows_upsert t o l :
  existsb (bh_for t) l = true →
  mirror_rows (update (bh_for t) (λ r, {| bh_target := bh_target r;
      bh_origin := if decide (bh_origin r = "manual") then "manual" else origin_str o;
      bh_announced_at := bh_announced_at r; bh_withdrawn_at := bh_withdrawn_at r |}) l)
  = <[t := keep_manual (mirror_rows l !! t) o]> (mirror_rows l).
Proof.
  intros He.
  assert (∀ r, bh_for t r = true → bh_target r = t ∧ bh_active r = true) as Hfor.
  { intros r [Ht%bool_decide_eq_true Ha]%andb_true_iff. done. }
  assert (∀ l, mirror_rows (update (bh_for t) (λ r, {| bh_target := bh_target r;
      bh_origin := if decide (bh_origin r = "manual") then "manual" else origin_str o;
      bh_announced_at := bh_announced_at r; bh_withdrawn_at := bh_withdrawn_at r |}) l)
    = if existsb (bh_for t) l then <[t := keep_manual (mirror_rows l !! t) o]> (mirror_rows l)
      else mirror_rows l) as Hall; [|by rewrite Hall, He].
  clear l He. induction l as [|r l IH]; [done|].
  change (update ?p ?f (r :: l)) with ((if p r then f r else r) :: update p f l).
  cbn [existsb]. destruct (bh_for t r) eqn:Hr; cbn [orb].
  - destruct (Hfor r Hr) as [Ht Ha]. rewrite !mirror_rows_cons. cbn [bh_target bh_origin].
    unfold bh_active in *. cbn [bh_withdrawn_at]. rewrite Ha, Ht, IH, lookup_insert_eq.
    assert (origin_of (if decide (bh_origin r = "manual") then "manual" else origin_str o)
      = keep_manual (Some (origin_of (bh_origin r))) o) as ->.
    { unfold origin_of. destruct (decide (bh_origin r = "manual")); [done|]. by destruct o. }
    by destruct (existsb _ l); rewrite !insert_insert_eq.
  - rewrite !mirror_rows_cons, IH. destruct (bh_active r) eqn:Ha; [|done].
    assert (bh_target r ≠ t) as Hne.
    { unfold bh_for in Hr. rewrite Ha, andb_true_r in Hr. by apply bool_decide_eq_false in Hr. }
    destruct (existsb _ l); [|done]. rewrite (lookup_insert_ne _ (bh_target r) t) by done.
    by apply insert_insert_ne.
Qed.

(** Withdrawing the active rows of [t]. *)
Lemma mirror_rows_clear t ts l :
  mirror_rows (update (λ r, bh_for t r && (negb false || bool_decide (bh_origin r = "auto")))
    (λ r, {| bh_target := bh_target r; bh_origin := bh_origin r;
             bh_announced_at := bh_announced_at r; bh_withdrawn_at := Some ts |}) l)
  = delete t (mirror_rows l).
Proof.
  induction l as [|r l IH]; [symmetry; apply delete_empty|].
  change (update ?p ?f (r :: l)) with ((if p r then f r else r) :: update p f l).
  cbn [negb orb] in *. rewrite andb_true_r. unfold bh_for at 1.
  destruct (bh_active r) eqn:Ha; [|by rewrite andb_false_r, !mirror_rows_cons, Ha].
  rewrite andb_true_r, (mirror_rows_cons r l), Ha. case_bool_decide as Ht.
  - subst t. rewrite mirror_rows_cons. cbn [bh_active bh_withdrawn_at].
    unfold bh_active at 1. cbn [bh_withdrawn_at]. rewrite bool_decide_false by done.
    by rewrite IH, delete_insert_eq.
  - by rewrite mirror_rows_cons, Ha, IH, delete_insert_ne.
Qed.

Lemma statement_spec {A} (f : Db → option (A * Db)) s :
  (∃ a d, eval (statement f) s = Ok a ∧ f (st_db s) = Some (a, d) ∧ st_db (exec (statement f) s) = d) ∨
  (eval (statement f) s = Err Db_ ∧ st_db (exec (statement f) s) = st_db s).
Proof.
  unfold statement, eval, exec. destruct (default true _); [|by right].
  destruct (f (st_db s)) as [[a d]|]; [left; by exists a, d|by right].
Qed.

Lemma statement_script {A} (f : Db → option (A * Db)) s :
  st_script (exec (statement f) s) = tail (st_script s).
Proof.
  unfold statement, exec. destruct (default true _); [|done]. by destruct (f (st_db s)) as [[a d]|].
Qed.

(** The store is a lawful journal of blackholes. *)
#[export] Instance Store_journal_spec : JournalSpec Store.
Proof.
  refine {| rows := λ s, mirror_rows (db_blackholes (st_db s)) |}.
  - intros t o at_ s. cbn [j_record_announce Store_journal]. rewrite exec_bind, eval_bind.
    unfold record_blackhole, execute. set (f := λ d : Db, _).
    destruct (statement_spec f s) as [(u & d & -> & Hf & Hd)|[-> Hd]]; cbn [to_journal_error];
      change (exec (mret ?r) ?s) with s; change (eval (mret ?r) ?s) with r; cbn [is_ok].
    + rewrite Hd. subst f. cbn beta in Hf.
      destruct (negb _ || negb _); [done|]. destruct (existsb _ _) eqn:He; injection Hf as _ <-.
      * by apply mirror_rows_upsert.
      * cbn [db_blackholes set_blackholes]. pose proof (mirror_rows_none _ _ He) as Hn.
        rewrite Hn. cbn [keep_manual]. rewrite mirror_rows_snoc; [|exact Hn|done].
        cbn [bh_target bh_origin]. by destruct o.
    + by rewrite Hd.
  - intros t at_ s. cbn [j_record_withdraw Store_journal]. rewrite exec_bind, eval_bind.
    unfold clear_blackhole, execute. set (f := λ d : Db, _).
    destruct (statement_spec f s) as [(u & d & -> & Hf & Hd)|[-> Hd]]; cbn [to_journal_error];
      change (exec (mret ?r) ?s) with s; change (eval (mret ?r) ?s) with r; cbn [is_ok].
    + rewrite Hd. subst f. cbn beta in Hf. destruct (ts_ok _); [|done]. injection Hf as _ <-.
      apply mirror_rows_clear.
    + by rewrite Hd.
Defined.

(** ** Persisting a policy *)

(** What [m] establishes when it succeeds. *)
Definition on_ok {A} (P : Db → Prop) (m : M Store (result A StateError)) (Q : A → Db → Prop) : Prop :=
  ∀ s, P (st_db s) → ∀ a, eval m s = Ok a → Q a (st_db (exec m s)).

Lemma on_ok_bind {A B} P (m : M Store (result A StateError)) R (k : A → M Store (result B StateError)) Q :
  on_ok P m R → (∀ a, on_ok (R a) (k a) Q) → on_ok P (bind_ok m k) Q.
Proof.
  intros Hm Hk s Hs b. unfold bind_ok. rewrite eval_bind, exec_bind.
  destruct (eval m s) as [a|e] eqn:Hr; [|done]. intros Hb. apply (Hk a); [|exact Hb]. by apply Hm.
Qed.

Lemma on_ok_pre {A} (P P' : Db → Prop) (m : M Store (result A StateError)) Q :
  (∀ d, P d → P' d) → on_ok P' m Q → on_ok P m Q.
Proof. intros HP Hm s Hs. by apply Hm, HP. Qed.

Lemma on_ok_ret {A} (a : A) (Q : A → Db → Prop) : on_ok (Q a) (mret (Ok a)) Q.
Proof. intros s Hs b [= <-]. exact Hs. Qed.

Lemma on_ok_statement {A} (P : Db → Prop) (f : Db → option (A * Db)) (Q : A → Db → Prop) :
  (∀ d a d', P d → f d = Some (a, d') → Q a d') → on_ok P (statement f) Q.
Proof.
  intros Hf s Hs a Ha. destruct (statement_spec f s) as [(a' & d & He & Hd & Hs')|[He _]]; [|congruence].
  rewrite Hs'. apply (Hf (st_db s)); [done|]. by rewrite Hd; congruence.
Qed.

Lemma on_ok_execute (P : Db → Prop) (f : Db → option Db) (Q : Db → Prop) :
  (∀ d d', P d → f d = Some d' → Q d') → on_ok P (execute f) (λ _, Q).
Proof.
  intros Hf. apply on_ok_statement. intros d a d' Hd He.
  destruct (f d) eqn:E; [|done]. injection He as _ <-. by eapply Hf.
Qed.

(** A transaction keeps what its body establishes, or nothing happened. *)
Lemma transaction_ok {A} P (m : M Store (result A StateError)) Q :
  on_ok P m Q → on_ok P (transaction m) Q.
Proof.
  intros Hm s Hs a. unfold transaction, eval at 1, exec.
  set (body := bind_ok (execute Some) _).
  assert (on_ok P body Q) as Hb.
  { subst body. eapply on_ok_bind; [apply (on_ok_execute P Some P); by intros ? ? ? [= <-]|].
    intros []. eapply on_ok_bind; [exact Hm|]. intros b.
    eapply on_ok_bind; [apply (on_ok_execute (Q b) Some (Q b)); by intros ? ? ? [= <-]|].
    intros []. apply (on_ok_ret b). }
  specialize (Hb s Hs a). unfold eval, exec in Hb. by destruct (body s) as [[] ?].
Qed.

Lemma transaction_err {A} (m : M Store (result A StateError)) s e :
  eval (transaction m) s = Err e → st_db (exec (transaction m) s) = st_db s.
Proof.
  unfold transaction, eval, exec. set (body := bind_ok (execute Some) _).
  by destruct (body s) as [[] ?].
Qed.

(** The tables of the tenants written so far. *)
Definition tenants_ok (names : list string) (d : Db) : Prop :=
  tr_name <$> db_tenants d = names ∧ NoDup (tr_id <$> db_tenants d) ∧
  Forall (λ t, tr_id t < db_tenant_seq d) (db_tenants d) ∧ NoDup names.

(** The row of a service. *)
Definition service_row (d : Db) (svc : ResolvedService) (r : ServiceRow) : Prop :=
  sv_address r = rs_addr svc ∧ sv_proto r = proto_string (rs_proto svc) ∧ sv_port r = rs_port svc ∧
  0 ≤ rs_port svc ≤ 65535 ∧ to_value (rs_target svc) = Some (sv_target r) ∧
  ∃ t, t ∈ db_tenants d ∧ tr_id t = sv_tenant r ∧ tr_name t = rs_tenant svc.

Lemma insert_owned_ok id addrs names :
  on_ok (λ d, tenants_ok names d ∧ db_services d = []) (insert_owned id addrs)
    (λ _ d, tenants_ok names d ∧ db_services d = []).
Proof.
  induction addrs as [|a addrs IH]; [apply (on_ok_ret () (λ _ d, tenants_ok names d ∧ db_services d = []))|].
  cbn [insert_owned]. eapply on_ok_bind; [apply on_ok_execute|intros []; exact IH].
  intros d d' Hd. cbn beta. case_decide; [done|]. intros [= <-]. exact Hd.
Qed.

Lemma insert_tenant_ok name names :
  on_ok (λ d, tenants_ok names d ∧ db_services d = []) (insert_tenant name)
    (λ _ d, tenants_ok (names ++ [name]) d ∧ db_services d = []).
Proof.
  apply on_ok_statement. intros d id d' [(Hn & Hid & Hlt & Hnd) Hs]. case_decide as Hin; [done|].
  destruct (text_ok name); [|done]. intros [= _ <-]. split; [|exact Hs].
  unfold tenants_ok. cbn. rewrite !fmap_app. cbn. split_and!.
  - by rewrite Hn.
  - apply NoDup_app. split_and!; [done| |apply NoDup_singleton].
    intros x (t & -> & Ht)%list_elem_of_fmap. rewrite list_elem_of_singleton.
    rewrite Forall_forall in Hlt. specialize (Hlt t Ht). lia.
  - rewrite Forall_app, Forall_singleton. split; [|cbn; lia].
    eapply Forall_impl; [exact Hlt|]. intros t Ht. cbn in Ht |- *. lia.
  - apply NoDup_app. split_and!; [done| |apply NoDup_singleton].
    intros x Hx. rewrite list_elem_of_singleton. intros ->. by rewrite Hn in Hin.
Qed.

Lemma insert_tenants_ok ts names :
  on_ok (λ d, tenants_ok names d ∧ db_services d = []) (insert_tenants ts)
    (λ _ d, tenants_ok (names ++ (te_name <$> ts)) d ∧ db_services d = []).
Proof.
  revert names. induction ts as [|t ts IH]; intros names.
  - cbn [insert_tenants fmap list_fmap]. rewrite app_nil_r.
    apply (on_ok_ret () (λ _ d, tenants_ok names d ∧ db_services d = [])).
  - cbn [insert_tenants]. rewrite fmap_cons, (cons_middle (te_name t) names), app_assoc.
    eapply on_ok_bind; [apply insert_tenant_ok|]. intros id.
    eapply on_ok_bind; [apply insert_owned_ok|]. intros []. apply IH.
Qed.

Lemma insert_services_ok svcs names done :
  on_ok (λ d, tenants_ok names d ∧ Forall2 (service_row d) done (db_services d)) (insert_services svcs)
    (λ _ d, tenants_ok names d ∧ Forall2 (service_row d) (done ++ svcs) (db_services d)).
Proof.
  revert done. induction svcs as [|svc svcs IH]; intros dn.
  - cbn [insert_services]. rewrite app_nil_r.
    apply (on_ok_ret () (λ _ d, tenants_ok names d ∧ Forall2 (service_row d) dn (db_services d))).
  - cbn [insert_services].
    apply (on_ok_bind _ _ (λ id d, (tenants_ok names d ∧ Forall2 (service_row d) dn (db_services d)) ∧
      ∃ t, t ∈ db_tenants d ∧ tr_id t = id ∧ tr_name t = rs_tenant svc)).
    { apply on_ok_statement. intros d id d' Hd He.
      destruct (List.find _ (db_tenants d)) as [t|] eqn:Hf; [|done]. injection He as <- <-.
      apply List.find_some in Hf as [Hin%list_elem_of_In Hn%bool_decide_eq_true]. by eauto. }
    intros id. destruct (to_value (rs_target svc)) as [j|] eqn:Hj; [|by intros s Hs].
    rewrite (cons_middle svc dn svcs), app_assoc. eapply on_ok_bind; [apply on_ok_execute|intros []; apply IH].
    intros d d' [[Ht Hs] Hid]. case_decide; [done|]. cbn [sv_port].
    destruct (_ && _) eqn:Hp; [|done]. intros [= <-]. split; [exact Ht|]. cbn [db_services set_policy].
    apply Forall2_app; [exact Hs|]. constructor; [|constructor].
    apply andb_true_iff in Hp as [? ?]. unfold service_row. cbn. split_and!; try done; lia.
Qed.

(** One row of the listing. *)
Definition decode_service (x : ServiceRow * string) : option StoredService :=
  match decode_services [x] with Ok [v] => Some v | _ => None end.

Lemma decode_services_all rows :
  Forall (λ x, is_Some (decode_service x)) rows → decode_services rows = Ok (omap decode_service rows).
Proof.
  induction 1 as [|[r tn] rows [v Hv] Hrows IH]; [done|]. cbn [omap list_omap]. rewrite Hv.
  unfold decode_service in Hv. cbn [decode_services] in Hv |- *. rewrite IH.
  repeat match goal with
  | H : context [match ?x with Some _ => _ | None => Err Db_ end] |- _ => destruct x; [|done]
  end.
  cbn in Hv |- *. by injection Hv as <-.
Qed.

Definition stored (svc : ResolvedService) : StoredService := {|
  ss_address := rs_addr svc; ss_proto := rs_proto svc; ss_port := rs_port svc;
  ss_target := rs_target svc; ss_tenant := rs_tenant svc |}.

Lemma decode_stored d svc r :
  service_row d svc r → decode_service (r, rs_tenant svc) = Some (stored svc).
Proof.
  intros (Ha & Hp & Ho & Hr & Hj & _). unfold decode_service. cbn [decode_services].
  rewrite Hp, Ho, (from_to_value _ _ Hj), !(proj2 (Z.leb_le _ _)) by lia. cbn [andb].
  unfold stored. rewrite Ha. by destruct (rs_proto svc).
Qed.

(** The join finds the one tenant of each service. *)
Lemma joined_services d names svcs :
  tenants_ok names d → Forall2 (service_row d) svcs (db_services d) →
  omap decode_service (joined d) = stored <$> svcs ∧
  Forall (λ x, is_Some (decode_service x)) (joined d).
Proof.
  intros (_ & Hid & _ & _) Hs. unfold joined. induction Hs as [|svc r svcs rows Hr Hs IH]; [done|].
  cbn [mbind list_bind fmap list_fmap].
  assert ((t ← db_tenants d; if tr_id t =? sv_tenant r then [(r, tr_name t)] else [])
          = [(r, rs_tenant svc)]) as ->.
  { destruct Hr as (_ & _ & _ & _ & _ & t & Ht & Hti & Htn). rewrite <-Hti, <-Htn. clear -Hid Ht.
    induction (db_tenants d) as [|t' ts IH]; [by apply not_elem_of_nil in Ht|].
    rewrite fmap_cons, NoDup_cons in Hid. destruct Hid as [Hn Hid]. cbn [mbind list_bind].
    apply elem_of_cons in Ht as [->|Ht].
    - rewrite Z.eqb_refl. cbn [app]. f_equal. clear IH Hid. induction ts as [|t2 ts IH]; [done|].
      rewrite fmap_cons, not_elem_of_cons in Hn. destruct Hn as [Hn1 Hn2]. cbn [mbind list_bind].
      rewrite (proj2 (Z.eqb_neq _ _)) by congruence. by apply IH.
    - rewrite (proj2 (Z.eqb_neq _ _)); [by apply IH|]. intros He. apply Hn. rewrite He.
      apply list_elem_of_fmap. by exists t. }
  cbn [app omap list_omap]. rewrite (decode_stored d svc r Hr). destruct IH as [-> IH].
  split; [done|]. constructor; [|done]. by rewrite (decode_stored d svc r Hr).
Qed.

(** What [m] establishes on a server that answers every statement. *)
Definition answers {A} (P : Db → Prop) (m : M Store (result A StateError)) (Q : A → Db → Prop) : Prop :=
  ∀ s, st_script s = [] → P (st_db s) →
    ∃ a, eval m s = Ok a ∧ Q a (st_db (exec m s)) ∧ st_script (exec m s) = [].

Lemma answers_bind {A B} P (m : M Store (result A StateError)) R (k : A → M Store (result B StateError)) Q :
  answers P m R → (∀ a, answers (R a) (k a) Q) → answers P (bind_ok m k) Q.
Proof.
  intros Hm Hk s Hn Hs. destruct (Hm s Hn Hs) as (a & Ha & HR & Hn'). unfold bind_ok.
  rewrite eval_bind, exec_bind, Ha. by apply Hk.
Qed.

Lemma answers_ret {A} (a : A) (Q : A → Db → Prop) : answers (Q a) (mret (Ok a)) Q.
Proof. intros s Hn Hs. by exists a. Qed.

Lemma answers_statement {A} (P : Db → Prop) (f : Db → option (A * Db)) (Q : A → Db → Prop) :
  (∀ d, P d → ∃ a d', f d = Some (a, d') ∧ Q a d') → answers P (statement f) Q.
Proof.
  intros Hf s Hn Hs. destruct (Hf _ Hs) as (a & d' & Hd & HQ). exists a.
  unfold statement, eval, exec. by rewrite Hn; cbn; rewrite Hd.
Qed.

Lemma answers_execute (P : Db → Prop) (f : Db → option Db) (Q : Db → Prop) :
  (∀ d, P d → ∃ d', f d = Some d' ∧ Q d') → answers P (execute f) (λ _, Q).
Proof.
  intros Hf. apply answers_statement. intros d Hd. destruct (Hf d Hd) as (d' & -> & HQ). by exists (), d'.
Qed.

Lemma answers_transaction {A} P (m : M Store (result A StateError)) Q :
  answers P m Q → answers P (transaction m) Q.
Proof.
  intros Hm s Hn Hs. unfold transaction, eval, exec. set (body := bind_ok (execute Some) _).
  assert (answers P body Q) as Hb.
  { subst body. eapply answers_bind; [apply (answers_execute P Some P); eauto|]. intros [].
    eapply answers_bind; [exact Hm|]. intros b.
    eapply answers_bind; [apply (answers_execute (Q b) Some (Q b)); eauto|]. intros []. apply answers_ret. }
  destruct (Hb s Hn Hs) as (a & Ha & HQ & Hn'). unfold eval, exec in Ha, HQ, Hn'.
  destruct (body s) as [r s']. cbn in Ha, HQ, Hn'. subst r. by exists a.
Qed.

(** The keys of the unique indexes of the three tables. *)
Definition policy_keys (names : list string) (addrs : list IpAddr) (svcs : list (IpAddr * string * Z))
    (d : Db) : Prop :=
  tr_name <$> db_tenants d = names ∧ ar_address <$> db_ip_assignments d = addrs ∧
  service_index <$> db_services d = svcs.

Lemma NoDup_middle {A} (l1 l2 : list A) x : NoDup (l1 ++ x :: l2) → x ∉ l1.
Proof. intros (_ & Hd & _)%NoDup_app Hx. apply (Hd x Hx). left. Qed.

Lemma insert_owned_answers id l names addrs svcs :
  NoDup (addrs ++ l) →
  answers (policy_keys names addrs svcs) (insert_owned id l) (λ _, policy_keys names (addrs ++ l) svcs).
Proof.
  revert addrs. induction l as [|a l IH]; intros addrs Hnd.
  - rewrite app_nil_r. apply (answers_ret () (λ _, policy_keys names addrs svcs)).
  - rewrite (cons_middle a addrs l), app_assoc in *. cbn [insert_owned].
    eapply answers_bind; [apply answers_execute|intros []; by apply IH].
    intros d (Hn & Ha & Hs). rewrite Ha, decide_False.
    2:{ rewrite <-app_assoc in Hnd. by apply (NoDup_middle addrs l). }
    eexists. split; [done|]. unfold policy_keys. cbn. by rewrite fmap_app, Ha.
Qed.

Lemma insert_tenants_answers ts names addrs svcs :
  NoDup (names ++ (te_name <$> ts)) → NoDup (addrs ++ (ownership ts).*1) →
  Forall (λ t, text_ok (te_name t) = true) ts →
  answers (policy_keys names addrs svcs) (insert_tenants ts)
    (λ _, policy_keys (names ++ (te_name <$> ts)) (addrs ++ (ownership ts).*1) svcs).
Proof.
  revert names addrs. induction ts as [|t ts IH]; intros names addrs Hnd Hna Ht.
  - rewrite !app_nil_r. apply (answers_ret () (λ _, policy_keys names addrs svcs)).
  - apply Forall_cons in Ht as [Ht Hts].
    assert ((ownership (t :: ts)).*1 = te_owned t ++ (ownership ts).*1) as Ho.
    { unfold ownership. cbn [mbind list_bind]. rewrite fmap_app. f_equal.
      rewrite <-list_fmap_compose. apply list_fmap_id. }
    rewrite Ho, app_assoc in *. rewrite fmap_cons, (cons_middle (te_name t) names), app_assoc in *.
    cbn [insert_tenants].
    apply (answers_bind _ _ (λ _, policy_keys (names ++ [te_name t]) addrs svcs)).
    { apply answers_statement. intros d (Hn & Ha & Hs). rewrite Hn, decide_False, Ht.
      2:{ rewrite <-app_assoc in Hnd. by eapply NoDup_middle. }
      do 2 eexists. split; [done|]. unfold policy_keys. cbn. by rewrite fmap_app, Hn. }
    intros id. eapply answers_bind; [apply insert_owned_answers|intros []; by apply IH].
    by apply NoDup_app in Hna as [? _].
Qed.

Definition proto_index (k : IpAddr * L4Proto * Z) : IpAddr * string * Z :=
  (k.1.1, proto_string k.1.2, k.2).

Lemma insert_services_answers svcs names addrs keys :
  NoDup (keys ++ (proto_index ∘ service_key <$> svcs)) →
  Forall (λ svc, rs_tenant svc ∈ names ∧ 0 ≤ rs_port svc ≤ 65535 ∧ is_Some (to_value (rs_target svc))) svcs →
  answers (policy_keys names addrs keys) (insert_services svcs)
    (λ _, policy_keys names addrs (keys ++ (proto_index ∘ service_key <$> svcs))).
Proof.
  revert keys. induction svcs as [|svc svcs IH]; intros keys Hnd Hall.
  - rewrite app_nil_r. apply (answers_ret () (λ _, policy_keys names addrs keys)).
  - apply Forall_cons in Hall as [(Hin & Hp & j & Hj) Hall].
    rewrite fmap_cons, (cons_middle _ keys), app_assoc in *. cbn [insert_services]. rewrite Hj.
    apply (answers_bind _ _ (λ _, policy_keys names addrs keys)).
    { apply answers_statement. intros d (Hn & Ha & Hs).
      destruct (List.find _ (db_tenants d)) as [t|] eqn:Hf; [by do 2 eexists|exfalso].
      rewrite <-Hn in Hin. apply list_elem_of_fmap in Hin as (t & He & Ht%list_elem_of_In).
      pose proof (List.find_none _ _ Hf t Ht) as Hx. by apply bool_decide_eq_false in Hx. }
    intros id. eapply answers_bind; [apply answers_execute|intros []; by apply IH].
    intros d (Hn & Ha & Hs). rewrite Hs, decide_False.
    2:{ rewrite <-app_assoc in Hnd. by apply NoDup_middle in Hnd. }
    cbn [sv_port]. rewrite !(proj2 (Z.leb_le _ _)) by lia. cbn [andb].
    eexists. split; [done|]. unfold policy_keys. cbn. by rewrite fmap_app, Hs.
Qed.

(** What the schema asks of a policy beyond what [resolve] checks. *)
Definition storable (policy : Policy) (actor : string) : Prop :=
  NoDup (te_name <$> tenants policy) ∧
  Forall (λ t, text_ok (te_name t) = true) (tenants policy) ∧ text_ok actor = true ∧
  Forall (λ svc, 0 ≤ rs_port svc ≤ 65535 ∧ is_Some (to_value (rs_target svc))) (declared (tenants policy)).

Lemma declared_tenant ts svc : svc ∈ declared ts → rs_tenant svc ∈ te_name <$> ts.
Proof.
  unfold declared. rewrite list_elem_of_bind. intros (t & Hs & Ht).
  apply list_elem_of_fmap. exists t. split; [|done].
  repeat match goal with
  | H : _ ∈ _ ≫= _ |- _ => apply list_elem_of_bind in H as (? & H & ?)
  | H : _ ∈ _ <$> _ |- _ => apply list_elem_of_fmap in H as (? & -> & ?)
  end; done.
Qed.

Lemma apply_policy_answers policy actor out :
  resolve policy = Ok out → storable policy actor →
  answers (λ _, True) (apply_policy policy actor) (λ _ _, True).
Proof.
  intros Hres (Hnd & Htext & Hact & Hsv). unfold apply_policy. rewrite Hres.
  destruct (resolve_ok policy out Hres) as (-> & _ & Hown & Hkeys). apply answers_transaction.
  eapply answers_bind; [apply (answers_execute _ _ (policy_keys [] [] []))|].
  { intros d _. by eexists. }
  intros []. eapply answers_bind; [by apply insert_tenants_answers|]. intros [].
  eapply answers_bind; [apply insert_services_answers|].
  - cbn [app]. rewrite list_fmap_compose. apply NoDup_fmap_2; [|done].
    intros [[a p] o] [[a' p'] o'] [= -> Hp ->]. by destruct p, p'.
  - apply Forall_forall. intros svc Hsvc. rewrite Forall_forall in Hsv.
    destruct (Hsv svc Hsvc). split_and!; try done; try lia. by apply declared_tenant.
  - intros []. eapply answers_bind; [apply (answers_execute _ _ (λ _, True))|].
    + intros d _. rewrite Hact. cbn [andb]. by eexists.
    + intros []. apply (answers_ret _ (λ _ _, True)).
Qed.

Lemma store_policy_spec policy actor s :
  let r := eval (apply_policy policy actor) s in
  let s' := exec (apply_policy policy actor) s in
  (∀ n, r = Ok n →
    ∃ l, eval list_services {| st_db := st_db s'; st_script := [] |} = Ok l ∧
      l ≡ₚ stored <$> declared (tenants policy) ∧ n = length l) ∧
  (∀ e, r = Err e → st_db s' = st_db s) ∧
  (is_ok (resolve policy) = true → storable policy actor → st_script s = [] → is_ok r = true).
Proof.
  intros r s'. subst r s'. split; [|split].
  3:{ intros Hr Hst Hn. destruct (resolve policy) as [out|] eqn:Hres; [|done].
      by destruct (apply_policy_answers policy actor out Hres Hst s Hn I) as (a & -> & _). }
  2:{ intros e. unfold apply_policy. destruct (resolve policy); [apply transaction_err|done]. }
  unfold apply_policy. destruct (resolve policy) as [out|e] eqn:Hres; [|done].
  destruct (resolve_ok policy out Hres) as (-> & _).
  intros n Hn. set (svcs := declared (tenants policy)) in *.
  match type of Hn with eval ?m s = _ => assert (on_ok (λ _, True) m
    (λ n d, n = length svcs ∧ ∃ names, tenants_ok names d ∧ Forall2 (service_row d) svcs (db_services d)))
    as Hok end.
  { apply transaction_ok. eapply on_ok_bind; [apply (on_ok_execute _ _
      (λ d, tenants_ok [] d ∧ db_services d = []))|].
    { intros d d' _ [= <-]. unfold tenants_ok. cbn. split_and!; try done; constructor. }
    intros []. eapply on_ok_bind; [apply insert_tenants_ok|]. intros [].
    eapply on_ok_bind; [eapply on_ok_pre; [|apply (insert_services_ok svcs ([] ++ (te_name <$> tenants policy)) [])];
      intros d [H1 H2]; split; [exact H1|rewrite H2; constructor]|]. intros [].
    eapply on_ok_bind; [apply (on_ok_execute _ _ (λ d, ∃ names, tenants_ok names d ∧
      Forall2 (service_row d) svcs (db_services d)))|].
    { intros d d' Hd. cbn beta. destruct (_ && _); [|done]. intros [= <-]. by eexists. }
    intros [] s1 Hs1 k [= <-]. by split. }
  destruct (Hok s I n Hn) as (-> & names & Ht & Hs).
  destruct (joined_services _ names svcs Ht Hs) as [Hj Hall].
  set (d := st_db _) in *. exists (omap decode_service (merge_sort service_le (joined d))).
  assert (merge_sort service_le (joined d) ≡ₚ joined d) as Hperm by apply merge_sort_Permutation.
  assert (omap decode_service (merge_sort service_le (joined d)) ≡ₚ stored <$> svcs) as Hp
    by (rewrite <-Hj; by apply omap_Permutation).
  split_and!; [|exact Hp|by rewrite Hp, length_fmap].
  change (decode_services (merge_sort service_le (joined d))
    = Ok (omap decode_service (merge_sort service_le (joined d)))).
  apply decode_services_all. by rewrite Hperm.
Qed.

(** C19: a persisted policy reads back as it was resolved. When [apply_policy]
    succeeds, whatever the tables held before, it reports the number of
    services of the resolved policy, and a listing of the services then
    returns exactly the services the policy declares, each once, with address,
    protocol, port, target and the name of its tenant; when it fails at any
    statement, or the policy does not resolve, the tables are as before. On a
    server that answers, a policy that resolves, with distinct tenant names
    and values the schema can hold, is persisted. *)
Theorem policy_roundtrip policy actor s :
  let r := eval (apply_policy policy actor) s in
  let s' := exec (apply_policy policy actor) s in
  (∀ n, r = Ok n →
    ∃ l, eval list_services {| st_db := st_db s'; st_script := [] |} = Ok l ∧
      l ≡ₚ stored <$> declared (tenants policy) ∧ n = length l) ∧
  (∀ e, r = Err e → st_db s' = st_db s) ∧
  (is_ok (resolve policy) = true → storable policy actor → st_script s = [] → is_ok r = true).
Proof. apply store_policy_spec. Qed.

(** ** The shared cookie secret *)

(** A process in [cookie_secret]: its next statement. *)
Inductive SecretCaller : Type :=
| ToInsert (candidate : list Z)
| ToSelect
| Returned (r : result (list Z) StateError).

Definition caller_step (c : SecretCaller) : M Store SecretCaller :=
  match c with
  | ToInsert candidate =>
      r ← insert_secret candidate;
      mret match r with Ok _ => ToSelect | Err e => Returned (Err e) end
  | ToSelect => r ← select_secret; mret (Returned r)
  | Returned r => mret (Returned r)
  end.

(** The statements of the processes [cs], interleaved as in [schedule]. *)
Fixpoint interleave (schedule : list nat) (cs : list SecretCaller) : M Store (list SecretCaller) :=
  match schedule with
  | [] => mret cs
  | i :: schedule =>
      match cs !! i with
      | Some c => c' ← caller_step c; interleave schedule (<[i := c']> cs)
      | None => interleave schedule cs
      end
  end.

(** Alone, a process runs [cookie_secret]. *)
Lemma caller_alone candidate s :
  eval (interleave [0%nat; 0%nat] [ToInsert candidate]) s = [Returned (eval (cookie_secret candidate) s)] ∧
  exec (interleave [0%nat; 0%nat] [ToInsert candidate]) s = exec (cookie_secret candidate) s.
Proof.
  cbn [interleave lookup list_lookup caller_step insert list_insert]. unfold cookie_secret, bind_ok.
  unfold eval, exec, mbind, M_bind.
  destruct (insert_secret candidate s) as [[] s1]; cbn; [|done].
  unfold mbind, M_bind. by destruct (select_secret s1).
Qed.

(** Every secret a process has returned is the stored one. *)
Definition agreed (cs : list SecretCaller) (s : Store) : Prop :=
  ∀ k, Returned (Ok k) ∈ cs → db_cookie_secret (st_db s) = Some k ∧ length k = 16%nat.

Lemma caller_step_secret c s :
  (∀ k, db_cookie_secret (st_db s) = Some k →
    db_cookie_secret (st_db (exec (caller_step c) s)) = Some k) ∧
  (∀ k, eval (caller_step c) s = Returned (Ok k) →
    c = Returned (Ok k) ∨
    (db_cookie_secret (st_db (exec (caller_step c) s)) = Some k ∧ length k = 16%nat)).
Proof.
  destruct c as [cand| |r]; cbn [caller_step]; rewrite ?eval_bind, ?exec_bind.
  - unfold insert_secret, execute. set (f := λ d : Db, _).
    change (exec (mret ?r) ?s) with s. change (eval (mret ?r) ?s) with r.
    destruct (statement_spec f s) as [(u & d & -> & Hf & ->)|[-> ->]]; [|by split].
    split; [|done]. intros k Hk. subst f. cbn beta in Hf. rewrite Hk in Hf.
    destruct (length cand =? 16)%nat; [|done]. by injection Hf as _ <-.
  - unfold select_secret, bind_ok. rewrite ?eval_bind, ?exec_bind.
    set (f := λ d : Db, _).
    destruct (statement_spec f s) as [(u & d & -> & Hf & Hd)|[-> Hd]]; cbn [eval];
      repeat change (exec (mret ?r) ?s) with s; rewrite Hd; [|by split].
    subst f. cbn beta in Hf. destruct (db_cookie_secret (st_db s)) as [k'|] eqn:Hk'; [|done].
    cbn in Hf. injection Hf as <- <-. rewrite Hk'. split; [done|]. intros k.
    unfold eval. cbn. destruct (length k' =? 16)%nat eqn:Hl; [|done]. intros [= <-].
    right. split; [done|by apply Nat.eqb_eq].
  - split; [done|]. intros k. unfold eval. cbn. intros [= ->]. by left.
Qed.

Lemma interleave_agreed schedule cs s :
  agreed cs s → agreed (eval (interleave schedule cs) s) (exec (interleave schedule cs) s).
Proof.
  revert cs s. induction schedule as [|i schedule IH]; intros cs s Hcs; [done|]. cbn [interleave].
  destruct (cs !! i) as [c|] eqn:Hi; [|by apply IH]. rewrite eval_bind, exec_bind. apply IH.
  destruct (caller_step_secret c s) as [Hkeep Hnew]. intros k Hk.
  apply list_elem_of_lookup in Hk as [j Hj]. destruct (decide (j = i)) as [->|Hne].
  - rewrite list_lookup_insert_eq in Hj by (by eapply lookup_lt_Some). injection Hj as Hj.
    destruct (Hnew k Hj) as [->|?]; [|done]. destruct (Hcs k) as [? ?]; [|by auto].
    by eapply list_elem_of_lookup_2.
  - rewrite list_lookup_insert_ne in Hj by done.
    destruct (Hcs k) as [? ?]; [by eapply list_elem_of_lookup_2|by auto].
Qed.

(** All processes share one cookie secret. However the two statements of
    any number of processes that ask for the secret are interleaved, and
    whichever of them fail, every process that gets a secret gets the same 16
    bytes, the ones the table holds; and on a server that answers, a process
    with a 16-byte candidate does get one, its own exactly when there was
    none. *)
Theorem cookie_secret_shared schedule candidates s :
  let cs := eval (interleave schedule (ToInsert <$> candidates)) s in
  let s' := exec (interleave schedule (ToInsert <$> candidates)) s in
  (∀ k, Returned (Ok k) ∈ cs → db_cookie_secret (st_db s') = Some k ∧ length k = 16%nat) ∧
  (∀ candidate, st_script s = [] → length candidate = 16%nat →
    (∀ k, db_cookie_secret (st_db s) = Some k → length k = 16%nat) →
    eval (cookie_secret candidate) s = Ok (default candidate (db_cookie_secret (st_db s)))).
Proof.
  split.
  - apply interleave_agreed. intros k (c & ? & _)%list_elem_of_fmap. done.
  - intros cand Hn Hl Hk. destruct s as [d scr]. cbn in Hn, Hk |- *. subst scr.
    unfold cookie_secret, insert_secret, select_secret, execute, statement, bind_ok. msimp.
    rewrite Hl. msimp. destruct (db_cookie_secret d) as [k|] eqn:Hd; msimp; rewrite ?Hd; msimp.
    + by rewrite (Hk k).
    + by rewrite ?Hl.
Qed.

(** ** Deception sessions *)

Lemma strip_nul_bytes x : str_bytes (strip_nul x) = filter (λ b, b ≠ 0) (str_bytes x).
Proof.
  unfold strip_nul. apply str_bytes_of. apply Forall_forall. intros b [_ Hb]%list_elem_of_filter.
  pose proof (str_bytes_ok x) as Hx. rewrite Forall_forall in Hx. exact (Hx b Hb).
Qed.

(** A session is recorded whatever bytes its note holds. An attacker who puts
    NUL bytes into what the emulator notes of the session does not lose the
    record: on a server that answers, the row of a session of a known protocol
    is appended with its note without the NUL bytes, and a note without them is
    kept as it is. *)
Theorem session_note_kept sess s :
  st_script s = [] → sr_proto sess ∈ ["tcp"; "udp"; "icmp"] → 0 ≤ sr_local_port sess ≤ 65535 →
  text_ok (sr_emulator sess) = true →
  eval (record_session sess) s = Ok () ∧
  ∃ row, db_sessions (st_db (exec (record_session sess) s)) = db_sessions (st_db s) ++ [row] ∧
    str_bytes <$> sr_note row = filter (λ b, b ≠ 0) ∘ str_bytes <$> sr_note sess ∧
    sr_peer_addr row = sr_peer_addr sess ∧ sr_local_addr row = sr_local_addr sess ∧
    (∀ n, sr_note sess = Some n → text_ok n = true → sr_note row = Some n).
Proof.
  intros Hn Hp Ho He. unfold record_session, execute, statement, eval, exec. rewrite Hn. cbn [head default].
  rewrite (bool_decide_true _ Hp), !(proj2 (Z.leb_le _ _)), He by lia. cbn [andb].
  assert (from_option text_ok true (strip_nul <$> sr_note sess) = true) as ->.
  { destruct (sr_note sess) as [n|]; [|done]. cbn. unfold text_ok. apply bool_decide_eq_true.
    rewrite strip_nul_bytes. apply Forall_forall. intros b [? _]%list_elem_of_filter. done. }
  cbn. split; [done|]. eexists. split; [done|]. cbn. split_and!; try done.
  - destruct (sr_note sess) as [n|]; [|done]. cbn. by rewrite strip_nul_bytes.
  - intros n -> Hok%bool_decide_eq_true. cbn. f_equal. unfold strip_nul.
    rewrite <-(of_bytes_str n) at 2. f_equal. by apply filter_all.
Qed.

(** ** The mirror read back *)

(** At most one active row per target (the partial unique index), with an
    announcement time a [u64] can hold. *)
Definition mirror_ok (l : list RtbhBlackholeRow) : Prop :=
  NoDup (bh_target <$> filter (λ r, bh_active r = true) l) ∧
  Forall (λ r, bh_active r = true → 0 ≤ bh_announced_at r) l.

Lemma mirror_ok_update p f l :
  (∀ r, bh_target (f r) = bh_target r) → (∀ r, bh_announced_at (f r) = bh_announced_at r) →
  (∀ r, bh_active (f r) = true → bh_active r = true) → mirror_ok l → mirror_ok (update p f l).
Proof.
  intros Ht Ha Hact [Hnd Hall]. split.
  - assert (bh_target <$> filter (λ r, bh_active r = true) (update p f l)
      `sublist_of` bh_target <$> filter (λ r, bh_active r = true) l) as Hsub.
    { clear -Ht Hact. induction l as [|r l IH]; [done|].
      change (update p f (r :: l)) with ((if p r then f r else r) :: update p f l).
      rewrite !filter_cons. set (r' := if p r then f r else r).
      assert (bh_target r' = bh_target r) as Hr by (subst r'; by case_match).
      destruct (decide (bh_active r' = true)) as [Hr'|Hr'].
      - rewrite decide_True by (subst r'; case_match; auto). rewrite !fmap_cons, Hr. by constructor.
      - destruct (decide (bh_active r = true)); [rewrite fmap_cons; by constructor|done]. }
    by eapply sublist_NoDup.
  - unfold update. apply Forall_fmap. eapply Forall_impl; [exact Hall|]. intros r Hr. cbn.
    destruct (p r); [|done]. rewrite Ha. intros ?%Hact. auto.
Qed.

Lemma mirror_ok_snoc l r :
  existsb (bh_for (bh_target r)) l = false → 0 ≤ bh_announced_at r → mirror_ok l → mirror_ok (l ++ [r]).
Proof.
  intros He Hr [Hnd Hall]. split; [|apply Forall_app; split; [done|by constructor]].
  rewrite filter_app, fmap_app. apply NoDup_app. split_and!; [done| |].
  - intros t (r' & -> & [Hact Hin]%list_elem_of_filter)%list_elem_of_fmap
      (r'' & Heq & [_ ->%list_elem_of_singleton]%list_elem_of_filter)%list_elem_of_fmap.
    assert (existsb (bh_for (bh_target r)) l = true); [|congruence]. apply existsb_exists.
    exists r'. split; [by apply list_elem_of_In|]. unfold bh_for. by rewrite bool_decide_true, Hact.
  - rewrite filter_cons. destruct (decide _); cbn; [apply NoDup_singleton|constructor].
Qed.

(** A journal write keeps the mirror well formed. *)
Lemma mirror_ok_record t o at_ s :
  0 ≤ at_ → mirror_ok (db_blackholes (st_db s)) →
  mirror_ok (db_blackholes (st_db (exec (j_record_announce t o at_) s))).
Proof.
  intros Hat Hok. cbn [j_record_announce Store_journal]. rewrite exec_bind.
  change (exec (mret ?r) ?s) with s. unfold record_blackhole, execute. set (f := λ d : Db, _).
  destruct (statement_spec f s) as [(u & d & _ & Hf & ->)|[_ ->]]; [|done].
  subst f. cbn beta in Hf. destruct (negb _ || negb _); [done|].
  destruct (existsb _ _) eqn:He; injection Hf as _ <-.
  - by apply mirror_ok_update.
  - cbn. apply mirror_ok_snoc; [done| |done]. cbn. unfold clamp_ms, i64_max. lia.
Qed.

Lemma mirror_ok_withdraw t at_ s :
  mirror_ok (db_blackholes (st_db s)) →
  mirror_ok (db_blackholes (st_db (exec (j_record_withdraw t at_) s))).
Proof.
  intros Hok. cbn [j_record_withdraw Store_journal]. rewrite exec_bind.
  change (exec (mret ?r) ?s) with s. unfold clear_blackhole, execute. set (f := λ d : Db, _).
  destruct (statement_spec f s) as [(u & d & _ & Hf & ->)|[_ ->]]; [|done].
  subst f. cbn beta in Hf. destruct (ts_ok _); [|done]. injection Hf as _ <-. by apply mirror_ok_update.
Qed.

Lemma decode_blackholes_active l :
  Forall (λ r, bh_active r = true ∧ 0 ≤ bh_announced_at r) l → decode_blackholes l = Ok l.
Proof.
  induction 1 as [|r l [Ha Hr] _ IH]; [done|]. cbn [decode_blackholes].
  apply bool_decide_eq_true in Ha. rewrite Ha, IH. unfold u64_or_err.
  rewrite (proj2 (Z.leb_le _ _)) by done. cbn. do 2 f_equal. destruct r; cbn in *. by rewrite Ha.
Qed.

(** Reading the mirror on a server that answers: the active rows, each target
    once, with the origins of the journal. *)
Lemma list_active_spec s :
  st_script s = [] → mirror_ok (db_blackholes (st_db s)) →
  ∃ l, eval list_active_blackholes s = Ok l ∧ st_db (exec list_active_blackholes s) = st_db s ∧
    NoDup (bh_target <$> l) ∧
    list_to_map ((λ r, (bh_target r, origin_of (bh_origin r))) <$> l) = rows s.
Proof.
  intros Hn [Hnd Hall]. destruct s as [d scr]. cbn in Hn, Hnd, Hall. subst scr.
  set (act := filter (λ r, bh_active r = true) (db_blackholes d)) in *.
  assert (merge_sort bh_le act ≡ₚ act) as Hp by apply merge_sort_Permutation.
  exists (merge_sort bh_le act). split_and!; [|done|by rewrite Hp|].
  - change (decode_blackholes (merge_sort bh_le act) = Ok (merge_sort bh_le act)).
    apply decode_blackholes_active. rewrite Hp. apply Forall_forall.
    intros r [Ha Hr]%list_elem_of_filter. rewrite Forall_forall in Hall. auto.
  - transitivity (list_to_map ((λ r, (bh_target r, origin_of (bh_origin r))) <$> act)
      : gmap IpAddr BlackholeOrigin).
    + apply list_to_map_proper; [|by rewrite Hp].
      rewrite <-list_fmap_compose. by rewrite Hp.
    + cbn [rows Store_journal_spec st_db]. unfold mirror_rows. f_equal. subst act. clear.
      induction (db_blackholes d) as [|r l IH]; [done|]. rewrite filter_cons.
      cbn [omap list_omap]. unfold bh_entry at 1. destruct (bh_active r).
      * rewrite decide_True by done. rewrite fmap_cons. f_equal. exact IH.
      * rewrite decide_False by done. exact IH.
Qed.

End store.

(** ** A reference serialisation *)
Module RefPg.
Definition ts_range (ms : Z) : bool := (-210866803200000 <=? ms) && (ms <=? 9224318016000000).
Lemma ts_range_dates ms : 0 ≤ ms ≤ 253402300799999 → ts_range ms = true.
Proof. unfold ts_range. intros Hms. rewrite !(proj2 (Z.leb_le _ _)) by lia. done. Qed.

#[export] Instance pg : Postgres := {|
  Json := ServiceTarget + nat;
  to_value t := Some (inl t);
  from_value j := match j with inl t => Some t | inr _ => None end;
  from_to_value := λ t j H, match H with eq_refl => eq_refl end;
  json_services n := inr n;
  ts_ok := ts_range;
  ts_ok_dates := ts_range_dates;
|}.
End RefPg.

Definition empty_db `{Postgres} : Db := mk_Db [] [] [] [] [] [] [] [] [] [] None 1 1 1 [] [] 1.
Definition st_new `{Postgres} (script : list bool) : Store := {| st_db := empty_db; st_script := script |}.

(** The row of a session whose note starts with a NUL byte. *)
Definition ex_session : SessionRow := {|
  sr_local_addr := ipv4 203 0 113 7; sr_local_port := 22; sr_peer_addr := ipv4 198 51 100 1;
  sr_proto := "tcp"; sr_emulator := "ssh"; sr_bytes_in := 4; sr_bytes_out := 4;
  sr_note := Some (of_bytes [0; 104; 105]) |}.

Lemma session_note_kept_witness :
  eval (record_session (H := RefPg.pg) ex_session) (st_new []) = Ok () ∧
  sr_note <$> db_sessions (st_db (exec (record_session (H := RefPg.pg) ex_session) (st_new [])))
  = [Some "hi"%string].
Proof.
  split; [|vm_refl].
  apply (session_note_kept (H := RefPg.pg) ex_session (st_new []));
    [reflexivity|vm_compute; left|vm_compute; by split|vm_refl].
Defined.
