(* ===== verification/Requests.v ===== *)
(** * The manager tasks of the daemon

    Model of the loop that [src/bin/blackwalld/src/main.rs] runs for each
    mitigation plane ([rtbh_manager_task], [flowspec_manager_task],
    [xdp_manager_task]) over the operations of a plane, a class: one turn of
    the loop takes a detection, a disarm signal or a tick of the one-second
    timer; a tick lets the manager do its periodic work, copies its counters
    to the metrics and drains the queue of operator requests.

    The code that applies one request is the same for the planes whose
    requests are [add] and [remove]; [apply_one] is that code over a class of
    operations on requests, and [RequestSpec] is what it relies on. The
    theorems of the planes about the queue are proved here once, against that
    interface. *)
From stdpp Require Import prelude gmap strings sorting.
From S2P Require Import Prelude Net Core Flow Executor NetText Store.

Open Scope Z_scope.

(** ** The task *)

(** What [disarm_rx.recv()] gives. *)
Inductive DisarmRecv : Type := DisarmOk | DisarmLagged | DisarmClosed.

(** The branch of [tokio::select!] that is taken: [None] is the closed
    channel of detections. *)
Inductive TaskEvent (Ev : Type) : Type :=
| TRecv (ev : option Ev)
| TDisarm (d : DisarmRecv)
| TTick.
#[global] Arguments TRecv {Ev}.
#[global] Arguments TDisarm {Ev}.
#[global] Arguments TTick {Ev}.

(** The gauges a task copies its counters into. *)
Record PlaneMetrics := {
  pm_protected : Z; pm_apply_failures : Z; pm_ratecapped : option Z; pm_reapply_pending : nat;
}.

Record Task (S : Type) := mk_Task {
  tk_state : S; tk_disarm_open : bool; tk_metrics : PlaneMetrics; tk_running : bool;
}.
#[global] Arguments mk_Task {S}.
#[global] Arguments tk_state {S}.
#[global] Arguments tk_disarm_open {S}.
#[global] Arguments tk_metrics {S}.
#[global] Arguments tk_running {S}.

(** The manager of a plane with the store its requests are in. The two clocks
    are read anew for each call; [pl_drain] reads them once per request. *)
Class Plane (S Ev : Type) := {
  pl_event : Ev → Z * Z → M S unit;
  pl_disarm : Z * Z → M S unit;
  pl_tick : Z * Z → M S unit;
  pl_snapshot : PlaneMetrics → S → PlaneMetrics;
  pl_drain : (nat → Z * Z) → M S unit;
}.

Section task.
Context {S Ev : Type} `{!Plane S Ev}.

Definition on_state {A} (m : M S A) : M (Task S) A := λ t,
  (eval m (tk_state t), mk_Task (exec m (tk_state t)) (tk_disarm_open t) (tk_metrics t) (tk_running t)).

(** One turn of the loop; [now] are the readings of the clocks in it. *)
Definition task_turn (now : nat → Z * Z) (e : TaskEvent Ev) : M (Task S) unit :=
  match e with
  | TRecv (Some ev) => on_state (pl_event ev (now 0%nat))
  | TRecv None => modify (λ t, mk_Task (tk_state t) (tk_disarm_open t) (tk_metrics t) false)
  | TDisarm d =>
      polled ← gets tk_disarm_open;
      if polled : bool then
        match d with
        | DisarmOk | DisarmLagged => on_state (pl_disarm (now 0%nat))
        | DisarmClosed => modify (λ t, mk_Task (tk_state t) false (tk_metrics t) (tk_running t))
        end
      else mret ()
  | TTick =>
      on_state (pl_tick (now 0%nat));;
      modify (λ t, mk_Task (tk_state t) (tk_disarm_open t)
                     (pl_snapshot (tk_metrics t) (tk_state t)) (tk_running t));;
      on_state (pl_drain (λ i, now (1 + i)%nat))
  end.

Definition manager_task (evs : list ((nat → Z * Z) * TaskEvent Ev)) : M (Task S) unit :=
  for_each evs (λ e,
    running ← gets tk_running;
    if running : bool then task_turn e.1 e.2 else mret ()).
End task.

(** ** The store behind a manager

    The journal of a live manager and the table of its requests are in one
    database, which both change: [with_store] runs a statement on it. In shadow
    mode the manager has no journal, and the task still reads its requests. *)
Class SharedStore `{Postgres} (J : Type) := {
  store_of : J → Store;
  with_store : ∀ {A : Type}, M Store A → M J A;
  with_store_exec : ∀ A (m : M Store A) j, store_of (exec (with_store m) j) = exec m (store_of j);
  with_store_eval : ∀ A (m : M Store A) j, eval (with_store m) j = eval m (store_of j);
}.

#[export] Instance Store_shared `{Postgres} : SharedStore Store.
Proof. by refine {| store_of s := s; with_store A m := m |}. Defined.

(** [NoOpJournal], beside the store of the requests. *)
Record ShadowStore `{Postgres} := { sh_store : Store }.

#[export] Instance ShadowStore_shared `{Postgres} : SharedStore ShadowStore.
Proof.
  by refine {| store_of := sh_store;
    with_store A m s := (eval m (sh_store s), {| sh_store := exec m (sh_store s) |}) |}.
Defined.
#[export] Instance ShadowStore_blackhole `{Postgres} : BlackholeJournal ShadowStore := {|
  j_record_announce _ _ _ := mret (Ok ());
  j_record_withdraw _ _ := mret (Ok ()) |}.
#[export] Instance ShadowStore_flowspec `{Postgres} `{IpNetLib} : FlowSpecJournal ShadowStore := {|
  fj_record_announce _ _ _ := mret (Ok ());
  fj_record_withdraw _ _ := mret (Ok ()) |}.

(** A statement of a server that answers. *)
Lemma execute_answering `{Postgres} f d (s : Store) :
  st_script s = [] → f (st_db s) = Some d →
  eval (execute f) s = Ok () ∧ st_script (exec (execute f) s) = [] ∧ st_db (exec (execute f) s) = d.
Proof.
  intros Hn Hf. unfold execute, statement, eval, exec. rewrite Hn. cbn. by rewrite Hf.
Qed.

(** ** Requests *)

(** Why a request is rejected, as it is written to its row. *)
Definition reject_message (target : IpAddr) (reason : RejectReason) : string :=
  match reason with
  | RejDisarmed => String.append (ip_to_string target) " was not announced: manager is disarmed (C5)"
  | RejProtected =>
      String.append (ip_to_string target) " is inside a protected prefix and is never mitigated"
  | RejIneligible => String.append (ip_to_string target) " is outside eligible prefixes"
  | RejNoNextHop =>
      String.append "no next-hop configured for " (String.append (ip_to_string target) "'s family")
  end.

Lemma reject_message_text t reason : text_ok (reject_message t reason) = true.
Proof.
  unfold text_ok. apply bool_decide_eq_true.
  assert (Forall (λ b, b ≠ 0) (str_bytes (ip_to_string t))) as Ht.
  { unfold ip_to_string. rewrite str_bytes_of by apply print_ip_bytes.
    eapply Forall_impl; [apply print_ip_addr|]. unfold addr_char. lia. }
  destruct reason; cbn [reject_message]; rewrite !str_bytes_append, ?Forall_app;
    repeat split; try exact Ht; vm_compute; repeat constructor; discriminate.
Qed.


(** A row of a request table. *)
Class Request (R K : Type) := {
  rq_id : R → Z;
  rq_key : R → K;
  rq_action : R → string;
  rq_status : R → string;
  rq_set : string → option string → R → R;
  rq_id_set : ∀ st n r, rq_id (rq_set st n r) = rq_id r;
  rq_key_set : ∀ st n r, rq_key (rq_set st n r) = rq_key r;
  rq_action_set : ∀ st n r, rq_action (rq_set st n r) = rq_action r;
  rq_status_set : ∀ st n r, rq_status (rq_set st n r) = st;
}.

(** The operations the code that applies a request calls. *)
Class RequestOps (S R K : Type) := {
  ro_add : R → Z * Z → M S ApplyOutcome;
  ro_remove : R → Z * Z → M S unit;
  ro_message : R → RejectReason → string;
  ro_status : Z → string → option string → M S (result unit StateError);
  ro_supersede : K → Z → M S (result unit StateError);
  ro_pending : M S (result (list R) StateError);
}.

Section requests.
Context {S R K : Type} `{!Request R K} `{!RequestOps S R K}.

Definition apply_one (now : Z * Z) (r : R) : M S unit :=
  if decide (rq_action r = "add") then
    out ← ro_add r now;
    match out with
    | Applied => _res ← ro_status (rq_id r) "applied" None; mret ()
    | Deferred => mret ()
    | Rejected reason => _res ← ro_status (rq_id r) "rejected" (Some (ro_message r reason)); mret ()
    end
  else if decide (rq_action r = "remove") then
    ro_remove r now;;
    _sup ← ro_supersede (rq_key r) (rq_id r);
    _res ← ro_status (rq_id r) "applied" None;
    mret ()
  else mret ().

Fixpoint drain_from (now : nat → Z * Z) (i : nat) (reqs : list R) : M S unit :=
  match reqs with
  | [] => mret ()
  | r :: reqs => apply_one (now i) r;; drain_from now (1 + i)%nat reqs
  end.

Definition drain (now : nat → Z * Z) : M S unit :=
  res ← ro_pending;
  match res with
  | Ok reqs => drain_from now 0 reqs
  | Err _ => mret ()
  end.
End requests.

(** ** What the operations promise *)

Section table.
Context {R K : Type} `{!Request R K} `{!EqDecision K}.

(** The statements on a request table. *)
Definition tbl_status (id : Z) (st : string) (n : option string) (l : list R) : list R :=
  update (λ r, rq_id r =? id) (rq_set st n) l.
Definition tbl_supersede (k : K) (id : Z) (l : list R) : list R :=
  update (λ r, bool_decide (rq_action r = "add") && bool_decide (rq_key r = k) &&
               bool_decide (rq_status r = "pending") && (rq_id r <? id))
    (rq_set "applied" (Some "superseded by remove")) l.

(** Rows in the order of their identifiers, with an action the table admits. *)
Definition tbl_ok (l : list R) : Prop :=
  StronglySorted (λ r r', rq_id r < rq_id r') l ∧ Forall (λ r, rq_action r ∈ ["add"; "remove"]) l.

(** What a later version of a row keeps. *)
Definition evolves (r r' : R) : Prop :=
  rq_id r' = rq_id r ∧ rq_key r' = rq_key r ∧ rq_action r' = rq_action r ∧
  (rq_status r' = "pending" → rq_status r = "pending").

#[export] Instance evolves_preorder : PreOrder evolves.
Proof.
  split; [done|]. intros r1 r2 r3 (? & ? & ? & ?) (? & ? & ? & ?).
  split_and!; [congruence..|by auto].
Qed.

Lemma evolves_set st n r : st ≠ "pending" → evolves r (rq_set st n r).
Proof.
  intros Hst. split_and!; [apply rq_id_set|apply rq_key_set|apply rq_action_set|].
  by rewrite rq_status_set.
Qed.

Lemma evolves_update p st n l : st ≠ "pending" → Forall2 evolves l (update p (rq_set st n) l).
Proof.
  intros Hst. unfold update. induction l as [|r l IH]; [constructor|]. constructor; [|exact IH].
  destruct (p r); [by apply evolves_set|reflexivity].
Qed.

Lemma tbl_ok_evolves l l' : Forall2 evolves l l' → tbl_ok l → tbl_ok l'.
Proof.
  intros He [Hs Ha]. split.
  - revert Hs. clear Ha. induction He as [|r r' l l' (Hid & _) He IH]; intros Hs; [done|].
    apply StronglySorted_inv in Hs as [Hs Hr]. constructor; [by apply IH|]. rewrite Hid.
    clear -He Hr. induction He as [|x x' l l' (Hx & _) _ IH]; [constructor|].
    apply Forall_cons in Hr as [? ?]. constructor; [by rewrite Hx|by apply IH].
  - clear Hs. induction He as [|r r' l l' (_ & _ & Hr & _) He IH]; [constructor|].
    apply Forall_cons in Ha as [? ?]. constructor; [by rewrite Hr|by apply IH].
Qed.

Lemma StronglySorted_filter {A} (Rel : A → A → Prop) (P : A → Prop) `{∀ x, Decision (P x)} (l : list A) :
  StronglySorted Rel l → StronglySorted Rel (filter P l).
Proof.
  induction 1 as [|x l Hs IH Hx]; [constructor|]. rewrite filter_cons. case_decide; [|done].
  constructor; [done|]. rewrite Forall_forall in Hx |- *. intros y [_ Hy]%list_elem_of_filter. auto.
Qed.

(** Identifiers name rows. *)
Lemma tbl_ok_id l i j r r' :
  tbl_ok l → l !! i = Some r → l !! j = Some r' → rq_id r = rq_id r' → i = j.
Proof.
  intros [Hs _]. revert i j. induction Hs as [|x l Hs IH Hx]; intros i j Hi Hj Hid; [done|].
  rewrite Forall_forall in Hx.
  destruct i as [|i], j as [|j]; cbn in Hi, Hj; simplify_eq; [done|..|f_equal; by eapply IH].
  - specialize (Hx r' (list_elem_of_lookup_2 _ _ _ Hj)). lia.
  - specialize (Hx r (list_elem_of_lookup_2 _ _ _ Hi)). lia.
Qed.

(** [ORDER BY id] gives the rows in the order of the table. *)
Lemma merge_sort_by_id (le : R → R → Prop) `{!RelDecision le} (P : R → Prop) `{∀ r, Decision (P r)} l :
  (∀ r r', le r r' ↔ rq_id r ≤ rq_id r') → tbl_ok l → merge_sort le (filter P l) = filter P l.
Proof.
  intros Hle Hok. pose proof Hok as [Hs%(StronglySorted_filter _ P) _].
  assert (Total le) by (intros r r'; rewrite !Hle; lia).
  assert (Transitive le) by (intros r1 r2 r3; rewrite !Hle; lia).
  apply (StronglySorted_unique_strong le).
  - intros x1 x2 Hx1 Hx2 Hle1 Hle2. rewrite merge_sort_Permutation in Hx1. rewrite Hle in Hle1, Hle2.
    apply list_elem_of_filter in Hx1 as [_ [i Hi]%list_elem_of_lookup].
    apply list_elem_of_filter in Hx2 as [_ [j Hj]%list_elem_of_lookup].
    assert (i = j) as -> by (eapply tbl_ok_id; [done..|lia]). congruence.
  - apply StronglySorted_merge_sort; apply _.
  - clear -Hs Hle. induction Hs as [|x l' Hs IH Hx]; constructor; [done|].
    eapply Forall_impl; [exact Hx|]. intros y. rewrite Hle. cbn. lia.
  - apply merge_sort_Permutation.
Qed.

Lemma update_lookup {A} p (f : A → A) l i : update p f l !! i = (λ r, if p r then f r else r) <$> l !! i.
Proof. apply list_lookup_fmap. Qed.
End table.

(** The laws of the operations on a store that answers: [E] is what is in
    force for a key, [rs_force] that it is what an [add] asked for,
    [rs_refused] that it is not, [rs_absent] that nothing is. [rs_ok q] is the
    invariant of a state whose next request has the identifier [q]. *)
Class RequestSpec (S R K E : Type) `{!Request R K} `{!EqDecision K} `{!RequestOps S R K} := {
  rs_ok : Z → S → Prop;
  rs_table : S → list R;
  rs_eff : S → K → E;
  rs_force : R → E → Prop;
  rs_refused : R → E → Prop;
  rs_absent : E → Prop;
  rs_add : ∀ q r now s, rs_ok q s →
    let s' := exec (ro_add r now) s in
    rs_ok q s' ∧ rs_table s' = rs_table s ∧ (∀ k, k ≠ rq_key r → rs_eff s' k = rs_eff s k) ∧
    match eval (ro_add r now) s with
    | Applied => rs_force r (rs_eff s' (rq_key r))
    | _ => rs_refused r (rs_eff s' (rq_key r))
    end;
  rs_remove : ∀ q r now s, rs_ok q s →
    let s' := exec (ro_remove r now) s in
    rs_ok q s' ∧ rs_table s' = rs_table s ∧ (∀ k, k ≠ rq_key r → rs_eff s' k = rs_eff s k) ∧
    rs_absent (rs_eff s' (rq_key r));
  rs_status : ∀ q id st n s, rs_ok q s → st ∈ ["pending"; "applied"; "rejected"] →
    from_option text_ok true n = true →
    let s' := exec (ro_status id st n) s in
    rs_ok q s' ∧ rs_table s' = tbl_status id st n (rs_table s) ∧ (∀ k, rs_eff s' k = rs_eff s k);
  rs_supersede : ∀ q k id s, rs_ok q s →
    let s' := exec (ro_supersede k id) s in
    rs_ok q s' ∧ rs_table s' = tbl_supersede k id (rs_table s) ∧ (∀ k', rs_eff s' k' = rs_eff s k');
  rs_pending : ∀ q s, rs_ok q s → tbl_ok (rs_table s) →
    let s' := exec ro_pending s in
    eval ro_pending s = Ok (filter (λ r, rq_status r = "pending") (rs_table s)) ∧
    rs_ok q s' ∧ rs_table s' = rs_table s ∧ (∀ k, rs_eff s' k = rs_eff s k);
  rs_message : ∀ r reason, text_ok (ro_message r reason) = true;
}.

Section drain.
Context {S R K E : Type} `{!Request R K} `{!EqDecision K} `{!RequestOps S R K}
        `{!RequestSpec S R K E} (q : Z).

(** [r] is a version of a row of the table. *)
Definition known (l : list R) (r : R) : Prop :=
  ∃ row, row ∈ l ∧ rq_id row = rq_id r ∧ rq_key row = rq_key r ∧ rq_action row = rq_action r.

(** The rows a turn over [r] does not touch. *)
Definition beyond (r row : R) : Prop :=
  rq_id r < rq_id row ∨ rq_key row ≠ rq_key r ∨ (rq_action row = "remove" ∧ rq_id row ≠ rq_id r).

Lemma status_beyond l r row st n :
  tbl_ok l → known l r → row ∈ l → beyond r row → row ∈ tbl_status (rq_id r) st n l.
Proof.
  intros Hl (row0 & H0 & Hid & Hk & _) Hrow Hb. unfold tbl_status, update.
  apply list_elem_of_fmap. exists row. split; [|done].
  destruct (Z.eqb_spec (rq_id row) (rq_id r)) as [He|]; [exfalso|done].
  apply list_elem_of_lookup in H0 as [i Hi]. apply list_elem_of_lookup in Hrow as [j Hj].
  assert (i = j) as -> by (eapply tbl_ok_id; [done..|congruence]).
  assert (row = row0) as -> by congruence. destruct Hb as [?|[?|[_ ?]]]; [lia|done|done].
Qed.

Lemma supersede_beyond l r row :
  row ∈ l → beyond r row → row ∈ tbl_supersede (rq_key r) (rq_id r) l.
Proof.
  intros Hrow Hb. unfold tbl_supersede, update. apply list_elem_of_fmap. exists row. split; [|done].
  destruct (_ && _) eqn:Hc; [exfalso|done].
  rewrite !andb_true_iff, !bool_decide_eq_true, Z.ltb_lt in Hc. destruct Hc as [[[Ha Hk] _] Hid].
  destruct Hb as [?|[?|[? _]]]; [lia|done|congruence].
Qed.

Lemma status_row l r st n :
  tbl_ok l → known l r →
  ∃ row, row ∈ tbl_status (rq_id r) st n l ∧ rq_id row = rq_id r ∧ rq_key row = rq_key r ∧
    rq_status row = st.
Proof.
  intros Hl (row & Hrow & Hid & Hk & _). exists (rq_set st n row). split_and!.
  - unfold tbl_status, update. apply list_elem_of_fmap. exists row. by rewrite Hid, Z.eqb_refl.
  - by rewrite rq_id_set.
  - by rewrite rq_key_set.
  - apply rq_status_set.
Qed.

Lemma known_evolves l l' r : Forall2 evolves l l' → known l r → known l' r.
Proof.
  intros He (row & Hrow & Hid & Hk & Ha). apply list_elem_of_lookup in Hrow as [i Hi].
  destruct (Forall2_lookup_l _ _ _ _ _ He Hi) as (row' & Hi' & (Hid' & Hk' & Ha' & _)).
  exists row'. split_and!; [by eapply list_elem_of_lookup_2|congruence..].
Qed.

(** What a turn over the request [r] leaves. *)
Definition settled (r : R) (s' : S) : Prop :=
  ∃ row, row ∈ rs_table s' ∧ rq_id row = rq_id r ∧ rq_key row = rq_key r ∧
  (rq_action r = "remove" →
     rs_absent (rs_eff s' (rq_key r)) ∧ rq_status row = "applied" ∧
     ∀ row', row' ∈ rs_table s' → rq_key row' = rq_key r → rq_action row' = "add" →
       rq_id row' < rq_id r → rq_status row' ≠ "pending") ∧
  (rq_action r = "add" →
     (rq_status row = "applied" ∧ rs_force r (rs_eff s' (rq_key r))) ∨
     (rq_status row ∈ ["pending"; "rejected"] ∧ rs_refused r (rs_eff s' (rq_key r)))).

(** The part of a turn that does not concern [r]. *)
Definition framed (r : R) (s s' : S) : Prop :=
  rs_ok q s' ∧ Forall2 evolves (rs_table s) (rs_table s') ∧
  (∀ k, k ≠ rq_key r → rs_eff s' k = rs_eff s k) ∧
  (∀ row, row ∈ rs_table s → beyond r row → row ∈ rs_table s').

Lemma remove_turn now r s :
  rs_ok q s → tbl_ok (rs_table s) → known (rs_table s) r → rq_action r = "remove" →
  framed r s (exec (apply_one now r) s) ∧ settled r (exec (apply_one now r) s).
Proof.
  intros Hok Ht Hk Ha. unfold apply_one. rewrite decide_False, decide_True by congruence.
  rewrite !exec_bind. change (exec (mret ?u) ?s) with s.
  destruct (rs_remove q r now s Hok) as (Hok1 & Ht1 & Hf1 & Habs).
  set (s1 := exec (ro_remove r now) s) in *.
  destruct (rs_supersede q (rq_key r) (rq_id r) s1 Hok1) as (Hok2 & Ht2 & Hf2).
  set (s2 := exec (ro_supersede _ _) s1) in *. rewrite Ht1 in Ht2.
  destruct (rs_status q (rq_id r) "applied" None s2 Hok2) as (Hok3 & Ht3 & Hf3); [set_solver|done|].
  set (s3 := exec (ro_status _ _ _) s2) in *. rewrite Ht2 in Ht3.
  assert (Forall2 evolves (rs_table s) (tbl_supersede (rq_key r) (rq_id r) (rs_table s))) as He1
    by (by apply evolves_update).
  assert (Forall2 evolves (tbl_supersede (rq_key r) (rq_id r) (rs_table s)) (rs_table s3)) as He2
    by (rewrite Ht3; by apply evolves_update).
  split; [split_and!|].
  - done.
  - etrans; [exact He1|exact He2].
  - intros k Hne. by rewrite Hf3, Hf2, Hf1.
  - intros row Hrow Hb. rewrite Ht3. apply status_beyond; [|by eapply known_evolves| |done].
    + by eapply tbl_ok_evolves.
    + by apply supersede_beyond.
  - destruct (status_row (tbl_supersede (rq_key r) (rq_id r) (rs_table s)) r "applied" None)
      as (row & Hrow & Hid & Hkey & Hst); [by eapply tbl_ok_evolves|by eapply known_evolves|].
    exists row. rewrite Ht3. split_and!; [done..| |congruence]. intros _. split_and!; [|done|].
    + by rewrite Hf3, Hf2.
    + intros row' Hrow' Hkey' Hadd Hlt Hp. unfold tbl_status, tbl_supersede, update in Hrow'.
      rewrite <-list_fmap_compose in Hrow'.
      apply list_elem_of_fmap in Hrow' as (x & -> & _). cbn in Hkey', Hadd, Hlt, Hp.
      repeat case_match; rewrite ?rq_status_set, ?rq_id_set in *; try done.
      match goal with H : _ && _ = false |- _ => apply not_true_iff_false in H; apply H end.
      by rewrite !bool_decide_true, (proj2 (Z.ltb_lt _ _)).
Qed.

Lemma add_turn now r s :
  rs_ok q s → tbl_ok (rs_table s) → rq_action r = "add" →
  r ∈ rs_table s → rq_status r = "pending" →
  framed r s (exec (apply_one now r) s) ∧ settled r (exec (apply_one now r) s).
Proof.
  intros Hok Ht Ha Hr Hst0. assert (known (rs_table s) r) as Hk by (by exists r). unfold apply_one. rewrite decide_True by done.
  rewrite exec_bind. destruct (rs_add q r now s Hok) as (Hok1 & Ht1 & Hf1 & Hout).
  set (s1 := exec (ro_add r now) s) in *.
  assert (∀ st n, st ∈ ["applied"; "rejected"] → from_option text_ok true n = true →
    (st = "applied" → rs_force r (rs_eff s1 (rq_key r))) →
    (st = "rejected" → rs_refused r (rs_eff s1 (rq_key r))) →
    framed r s (exec (ro_status (rq_id r) st n) s1) ∧ settled r (exec (ro_status (rq_id r) st n) s1))
    as Hmark.
  { intros st n Hst Hn Hap Hre.
    destruct (rs_status q (rq_id r) st n s1 Hok1) as (Hok2 & Ht2 & Hf2); [set_solver|done|].
    rewrite Ht1 in Ht2. split; [split_and!|].
    - done.
    - rewrite Ht2. apply evolves_update. set_solver.
    - intros k Hne. by rewrite Hf2, Hf1.
    - intros row Hrow Hb. rewrite Ht2. by apply status_beyond.
    - destruct (status_row (rs_table s) r st n Ht Hk) as (row & Hrow & Hid & Hkey & Hs).
      exists row. rewrite Ht2, Hf2. split_and!; [done..|congruence|]. intros _. rewrite Hs.
      apply elem_of_cons in Hst as [->|Hst]; [left; auto|].
      apply list_elem_of_singleton in Hst as ->. right. split; [set_solver|auto]. }
  destruct (eval (ro_add r now) s) as [| |reason]; rewrite ?exec_bind;
    change (exec (mret ?u) ?s) with s.
  3: apply Hmark; [set_solver|apply rs_message|done|auto].
  - apply Hmark; [set_solver|done|auto|done].
  - split; [split_and!|].
    + done.
    + by rewrite Ht1.
    + done.
    + by rewrite Ht1.
    + exists r. rewrite Ht1. split_and!; [done..|congruence|]. intros _. right.
      rewrite Hst0. split; [set_solver|done].
Qed.

Lemma apply_turn now r s :
  rs_ok q s → tbl_ok (rs_table s) → r ∈ rs_table s → rq_status r = "pending" →
  framed r s (exec (apply_one now r) s) ∧ settled r (exec (apply_one now r) s).
Proof.
  intros Hok Ht Hr Hst. destruct Ht as [Hs Ha]. pose proof Ha as Hact. rewrite Forall_forall in Hact.
  specialize (Hact r Hr). apply elem_of_cons in Hact as [Hact|Hact%list_elem_of_singleton].
  - by apply add_turn.
  - apply remove_turn; [done..|by exists r|done].
Qed.

Lemma settled_framed r r' s s' :
  framed r' s s' → rq_key r' ≠ rq_key r → settled r s → settled r s'.
Proof.
  intros (_ & He & Hf & Hb) Hne (row & Hrow & Hid & Hk & Hrem & Hadd).
  exists row. rewrite (Hf (rq_key r)) by done. split_and!; [|done..| |done].
  - apply Hb; [done|]. right. left. congruence.
  - intros Ha. destruct (Hrem Ha) as (? & ? & Hold). split_and!; [done..|].
    intros row' Hrow' Hk' Ha' Hlt Hp. apply list_elem_of_lookup in Hrow' as [i Hi].
    destruct (Forall2_lookup_r _ _ _ _ _ He Hi) as (row0 & Hi0 & Hid0 & Hk0 & Ha0 & Hp0).
    apply (Hold row0); [by eapply list_elem_of_lookup_2|congruence..|lia|by apply Hp0].
Qed.

(** A settled [remove] is no longer pending, now or later. *)
Lemma settled_removed r s row :
  tbl_ok (rs_table s) → settled r s → rq_action r = "remove" → row ∈ rs_table s →
  rq_id row = rq_id r → rq_status row ≠ "pending".
Proof.
  intros Ht (row0 & Hrow0 & Hid0 & _ & Hrem & _) Ha Hrow Hid.
  destruct (Hrem Ha) as (_ & Hst & _).
  apply list_elem_of_lookup in Hrow as [i Hi]. apply list_elem_of_lookup in Hrow0 as [j Hj].
  assert (i = j) as -> by (eapply tbl_ok_id; [done..|congruence]). congruence.
Qed.

(** The requests still to be applied. *)
Definition queued (reqs : list R) (s : S) : Prop :=
  rs_ok q s ∧ tbl_ok (rs_table s) ∧ StronglySorted (λ r r', rq_id r < rq_id r') reqs ∧
  Forall (λ r, r ∈ rs_table s ∧ rq_status r = "pending") reqs.

Lemma queued_turn now r reqs s :
  queued (r :: reqs) s → queued reqs (exec (apply_one now r) s) ∧
  framed r s (exec (apply_one now r) s) ∧ settled r (exec (apply_one now r) s).
Proof.
  intros (Hok & Ht & [Hs Hlt]%StronglySorted_inv & [[Hr Hp] Hrs]%Forall_cons).
  destruct (apply_turn now r s Hok Ht Hr Hp) as [Hf Hset]. pose proof Hf as (Hok' & He & _ & Hb).
  split_and!; [|done..]. split_and!; [done|by eapply tbl_ok_evolves|done|].
  rewrite Forall_forall in Hlt, Hrs |- *. intros r' Hr'. destruct (Hrs r' Hr') as [Hin' ?].
  split; [|done]. apply Hb; [done|]. left. by apply Hlt.
Qed.

Lemma drain_spec now reqs i s :
  queued reqs s →
  let s' := exec (drain_from now i reqs) s in
  rs_ok q s' ∧ Forall2 evolves (rs_table s) (rs_table s') ∧
  (∀ r, Forall (λ r', rq_key r' ≠ rq_key r) reqs → settled r s → settled r s') ∧
  (∀ r, r ∈ reqs → rq_action r = "remove" → ∀ row, row ∈ rs_table s' → rq_id row = rq_id r →
     rq_status row ≠ "pending") ∧
  (∀ k r, last (filter (λ r, rq_key r = k) reqs) = Some r → settled r s').
Proof.
  revert i s. induction reqs as [|r reqs IH]; intros i s Hq s'; subst s'.
  { destruct Hq as (Hok & _). cbn [drain_from]. change (exec (mret ?u) ?s) with s.
    split_and!; [done|reflexivity|done|set_solver|done]. }
  cbn [drain_from]. rewrite exec_bind.
  destruct (queued_turn (now i) r reqs s Hq) as (Hq1 & Hf1 & Hset).
  set (s1 := exec (apply_one (now i) r) s) in *.
  destruct (IH (1 + i)%nat s1 Hq1) as (Hok & He & Hstay & Hrem & Hlast).
  destruct Hf1 as (Hok1 & He1 & Hf1 & Hb1). destruct Hq1 as (_ & Ht1 & _).
  split_and!; [done|by etrans| | |].
  - intros r' [Hne Hall]%Forall_cons Hs'. apply Hstay; [done|].
    by apply (settled_framed r' r s).
  - intros r' [->|Hr']%elem_of_cons Ha row Hrow Hid Hp; [|by eapply Hrem].
    apply list_elem_of_lookup in Hrow as [j Hj].
    destruct (Forall2_lookup_r _ _ _ _ _ He Hj) as (row0 & Hj0 & Hid0 & _ & _ & Hp0).
    apply (settled_removed r s1 row0 Ht1 Hset Ha); [by eapply list_elem_of_lookup_2|lia|auto].
  - intros k r'. rewrite filter_cons. destruct (decide (rq_key r = k)) as [Hk|Hk]; [|apply Hlast].
    destruct (filter (λ r0, rq_key r0 = k) reqs) as [|x l] eqn:Hfil.
    + intros [= <-]. apply Hstay; [|done]. subst k. clear -Hfil.
      apply Forall_forall. intros x Hx Hk.
      assert (x ∈ filter (λ r0, rq_key r0 = rq_key r) reqs) as Hin by (by apply list_elem_of_filter).
      rewrite Hfil in Hin. set_solver.
    + intros Hl. apply (Hlast k). by rewrite Hfil, <-Hl.
Qed.

Lemma StronglySorted_last {A} (Rel : A → A → Prop) (l : list A) x y :
  StronglySorted Rel l → last l = Some y → x ∈ l → x = y ∨ Rel x y.
Proof.
  induction 1 as [|z l Hs IH Hz]; [done|]. intros Hl. destruct l as [|z' l].
  - injection Hl as ->. rewrite list_elem_of_singleton. by left.
  - intros [->|Hx]%elem_of_cons; [right|by apply IH].
    rewrite Forall_forall in Hz. apply Hz. by eapply last_Some_elem_of.
Qed.

Lemma queued_pending s :
  rs_ok q s → tbl_ok (rs_table s) → queued (filter (λ r, rq_status r = "pending") (rs_table s)) s.
Proof.
  intros Hok Ht. split_and!; [done..| |].
  - apply StronglySorted_filter, Ht.
  - apply Forall_forall. intros r [? ?]%list_elem_of_filter. done.
Qed.

(** The last pending request of each key decides. *)
Lemma drain_last_word now s :
  rs_ok q s → tbl_ok (rs_table s) →
  let s' := exec (drain now) s in
  rs_ok q s' ∧ Forall2 evolves (rs_table s) (rs_table s') ∧
  ∀ k r, last (filter (λ r, rq_key r = k) (filter (λ r, rq_status r = "pending") (rs_table s))) = Some r →
    settled r s' ∧
    (rq_action r = "remove" → ∀ row, row ∈ rs_table s' → rq_key row = k → rq_status row ≠ "pending").
Proof.
  intros Hok Ht s'. subst s'. unfold drain. rewrite exec_bind.
  destruct (rs_pending q s Hok Ht) as (Hev & Hok1 & Ht1 & _).
  set (s1 := exec ro_pending s) in *. rewrite Hev. rewrite <-Ht1 in Ht |- *.
  pose proof (queued_pending s1 Hok1 Ht) as Hq.
  set (reqs := filter (λ r, rq_status r = "pending") (rs_table s1)) in *.
  destruct (drain_spec now reqs 0 s1 Hq) as (Hok2 & He & _ & Hrem & Hlast).
  split_and!; [done..|]. intros k r Hl. split; [by eapply Hlast|].
  intros Ha row' Hrow' Hk' Hp'. pose proof (Hlast k r Hl) as (row & Hrow & Hid & Hkey & Hsr & _).
  destruct (Hsr Ha) as (_ & Hst & Hold).
  pose proof Hrow' as [i Hi]%list_elem_of_lookup.
  destruct (Forall2_lookup_r _ _ _ _ _ He Hi) as (row0 & Hi0 & Hid0 & Hk0 & Ha0 & Hp0).
  assert (row0 ∈ reqs) as Hin0.
  { apply list_elem_of_filter. split; [by apply Hp0|by eapply list_elem_of_lookup_2]. }
  destruct (decide (rq_action row0 = "remove")) as [Hr0|Hr0]; [by apply (Hrem row0 Hin0 Hr0 row')|].
  assert (rq_action row0 = "add") as Hadd0.
  { destruct Ht as [_ Hact]. rewrite Forall_forall in Hact.
    specialize (Hact row0 (list_elem_of_lookup_2 _ _ _ Hi0)). set_solver. }
  assert (rq_key r = k) as Hkr by (by apply last_Some_elem_of, list_elem_of_filter in Hl as [? _]).
  destruct (StronglySorted_last (λ r r', rq_id r < rq_id r') (filter (λ r, rq_key r = k) reqs) row0 r)
    as [->|Hlt]; [apply StronglySorted_filter, Hq|done|apply list_elem_of_filter; split; [congruence|done]| |].
  - congruence.
  - apply (Hold row'); [done|congruence..|lia|done].
Qed.

(** ** Removals are final *)

(** No pending [add] is older than an applied [remove] of the same key. *)
Definition no_stale_add (l : list R) : Prop :=
  ∀ a b, a ∈ l → b ∈ l → rq_key a = rq_key b → rq_action a = "add" → rq_status a = "pending" →
    rq_action b = "remove" → rq_status b = "applied" → rq_id b < rq_id a.

Lemma no_stale_turn now r s :
  rs_ok q s → tbl_ok (rs_table s) → r ∈ rs_table s → rq_status r = "pending" →
  no_stale_add (rs_table s) → no_stale_add (rs_table (exec (apply_one now r) s)).
Proof.
  intros Hok Ht Hr Hp Hno a b Ha Hb Hk Haa Hap Hba Hbp.
  destruct (apply_turn now r s Hok Ht Hr Hp) as [(Hok' & He & _ & Hbey) Hset].
  set (s' := exec (apply_one now r) s) in *.
  assert (tbl_ok (rs_table s')) as Ht' by (by eapply tbl_ok_evolves).
  pose proof Ha as [i Hi]%list_elem_of_lookup. pose proof Hb as [j Hj]%list_elem_of_lookup.
  destruct (Forall2_lookup_r _ _ _ _ _ He Hi) as (a0 & Hi0 & Hida & Hka & Haa0 & Hpa).
  destruct (Forall2_lookup_r _ _ _ _ _ He Hj) as (b0 & Hj0 & Hidb & Hkb & Hba0 & Hpb).
  destruct (decide (rq_id b0 = rq_id r)) as [Hbr|Hbr].
  - (* the request of this turn *)
    assert (b0 = r) as ->.
    { pose proof Hr as [m Hm]%list_elem_of_lookup.
      assert (m = j) as -> by (eapply (tbl_ok_id (rs_table s)); [done..|congruence]). congruence. }
    destruct Hset as (row & Hrow & Hid & _ & Hrem & _).
    destruct (Hrem ltac:(congruence)) as (_ & _ & Hold).
    destruct (Z.lt_trichotomy (rq_id a) (rq_id r)) as [Hlt|[Heq|Hlt]]; [|exfalso|lia].
    + exfalso. apply (Hold a Ha); [congruence..|done].
    + assert (i = j) as -> by (eapply (tbl_ok_id (rs_table s')); [done..|congruence]). congruence.
  - (* an older removal *)
    assert (b0 = b) as ->.
    { assert (b0 ∈ rs_table s') as Hb0.
      { apply Hbey; [by eapply list_elem_of_lookup_2|]. right. right. split; [congruence|done]. }
      apply list_elem_of_lookup in Hb0 as [m Hm].
      assert (m = j) as -> by (eapply (tbl_ok_id (rs_table s')); [done..|congruence]). congruence. }
    rewrite Hida. apply (Hno a0 b); try congruence; [by eapply list_elem_of_lookup_2..|by auto].
Qed.

Lemma no_stale_drain_from now reqs i s :
  queued reqs s → no_stale_add (rs_table s) →
  no_stale_add (rs_table (exec (drain_from now i reqs) s)).
Proof.
  revert i s. induction reqs as [|r reqs IH]; intros i s Hq Hno; [done|].
  cbn [drain_from]. rewrite exec_bind. apply IH; [by apply queued_turn|].
  destruct Hq as (Hok & Ht & _ & [[? ?] _]%Forall_cons). by apply no_stale_turn.
Qed.

Lemma no_stale_drain now s :
  rs_ok q s → tbl_ok (rs_table s) → no_stale_add (rs_table s) →
  no_stale_add (rs_table (exec (drain now) s)).
Proof.
  intros Hok Ht Hno. unfold drain. rewrite exec_bind.
  destruct (rs_pending q s Hok Ht) as (Hev & Hok1 & Ht1 & _). rewrite Hev.
  rewrite <-Ht1 in Ht, Hno |- *. by apply no_stale_drain_from; [apply queued_pending|].
Qed.
End drain.

(** ** Runs of a task and of the operators *)

(** The insertion of a request by the command line. *)
Class Enqueue (S I : Type) := pq_enqueue : I → M S unit.

(** What the task relies on: the plane's own work leaves the requests alone,
    and an insertion appends a pending row or does nothing. [ps_event_ok] and
    [ps_intent_ok] are what the detector and the command line guarantee. *)
Class PlaneSpec (S Ev R K E I : Type) `{!Request R K} `{!EqDecision K} `{!RequestOps S R K}
    `{!RequestSpec S R K E} `{!Plane S Ev} `{!Enqueue S I} := {
  ps_event_ok : Ev → Prop;
  ps_intent_ok : I → Prop;
  ps_event : ∀ q ev now s, ps_event_ok ev → rs_ok q s →
    rs_ok q (exec (pl_event ev now) s) ∧ rs_table (exec (pl_event ev now) s) = rs_table s;
  ps_disarm : ∀ q now s, rs_ok q s →
    rs_ok q (exec (pl_disarm now) s) ∧ rs_table (exec (pl_disarm now) s) = rs_table s;
  ps_tick : ∀ q now s, rs_ok q s →
    rs_ok q (exec (pl_tick now) s) ∧ rs_table (exec (pl_tick now) s) = rs_table s;
  ps_drain : ∀ now, pl_drain now = drain now;
  ps_enqueue : ∀ q i s, ps_intent_ok i → rs_ok q s →
    let s' := exec (pq_enqueue i) s in
    (rs_ok q s' ∧ rs_table s' = rs_table s) ∨
    ∃ row, rs_ok (q + 1) s' ∧ rs_table s' = rs_table s ++ [row] ∧ rq_id row = q ∧
      rq_action row ∈ ["add"; "remove"] ∧ rq_status row = "pending";
}.

Section runs.
Context {S Ev R K E I : Type} `{!Request R K} `{!EqDecision K} `{!RequestOps S R K}
        `{!RequestSpec S R K E} `{!Plane S Ev} `{!Enqueue S I} `{!PlaneSpec S Ev R K E I}.

(** A turn of the task, or a request queued by the command line. *)
Inductive PlaneStep : Type :=
| STurn (now : nat → Z * Z) (e : TaskEvent Ev)
| SEnqueue (i : I).

Definition run_step (o : PlaneStep) : M (Task S) unit :=
  match o with
  | STurn now e => manager_task [(now, e)]
  | SEnqueue i => on_state (pq_enqueue i)
  end.

Definition run_steps (os : list PlaneStep) : M (Task S) unit := for_each os run_step.

(** The request table as runs leave it, [q] the next identifier: identifiers
    increase, actions are the two known ones, and no pending [add] is older
    than an applied [remove] of its key. *)
Definition table_ok (q : Z) (l : list R) : Prop :=
  tbl_ok l ∧ no_stale_add l ∧ Forall (λ r, rq_id r < q) l.

Definition plane_inv (s : S) : Prop := ∃ q, rs_ok q s ∧ table_ok q (rs_table s).

Lemma plane_inv_same (s s' : S) :
  (∀ q, rs_ok q s → rs_ok q s' ∧ rs_table s' = rs_table s) → plane_inv s → plane_inv s'.
Proof. intros Hs (q & Hok & Ht). exists q. by destruct (Hs q Hok) as [? ->]. Qed.

Lemma plane_inv_drain now s : plane_inv s → plane_inv (exec (drain now) s).
Proof.
  intros (q & Hs & Ht & Hno & Hq). exists q.
  destruct (drain_last_word q now s Hs Ht) as (Hs' & He & _).
  split_and!; [done|split_and!; [by eapply tbl_ok_evolves|by apply (no_stale_drain q)|]].
  clear -He Hq. induction He as [|r r' l l' (Hid & _) _ IH]; [constructor|].
  apply Forall_cons in Hq as [? ?]. constructor; [by rewrite Hid|by apply IH].
Qed.

Lemma table_ok_snoc q l row :
  table_ok q l → rq_id row = q → rq_action row ∈ ["add"; "remove"] → rq_status row = "pending" →
  table_ok (q + 1) (l ++ [row]).
Proof.
  intros ((Hsort & Hact) & Hno & Hq) Hid Ha Hst.
  assert (∀ x, x ∈ l → rq_id x < q) as Hlt by (by apply Forall_forall). split_and!; [split|..].
  - apply StronglySorted_app_2; [|done|repeat constructor].
    intros x y Hx Hy%list_elem_of_singleton. subst y. rewrite Hid. by apply Hlt.
  - apply Forall_app. by split; [|constructor].
  - intros x y Hx Hy Hk Hxa Hxp Hya Hyp. rewrite elem_of_app, list_elem_of_singleton in Hx, Hy.
    destruct Hy as [Hy|Hy]; [|subst y; congruence].
    destruct Hx as [Hx|Hx]; [by apply (Hno x y)|subst x]. rewrite Hid. by apply Hlt.
  - apply Forall_app. split; [|constructor; [lia|done]].
    eapply Forall_impl; [exact Hq|]. cbn. lia.
Qed.

Definition step_ok (o : PlaneStep) : Prop :=
  match o with
  | STurn _ (TRecv (Some ev)) => ps_event_ok ev
  | SEnqueue i => ps_intent_ok i
  | _ => True
  end.

Lemma plane_inv_step o t :
  step_ok o → plane_inv (tk_state t) → plane_inv (tk_state (exec (run_step o) t)).
Proof.
  intros Ho Hi. destruct o as [now e|i]; cbn [run_step].
  - unfold manager_task. cbn [for_each]. rewrite !exec_bind.
    change (eval (gets tk_running) t) with (tk_running t). change (exec (mret ?u) ?s) with s.
    destruct (tk_running t); [|exact Hi].
    destruct e as [[ev|]|d|]; cbn [task_turn fst snd]; [|exact Hi|..].
    + apply (plane_inv_same (tk_state t)); [|exact Hi]. intros q. by apply ps_event.
    + rewrite exec_bind. change (eval (gets tk_disarm_open) ?t) with (tk_disarm_open t).
      destruct (tk_disarm_open _); [|exact Hi].
      destruct d; [..|exact Hi]; (apply (plane_inv_same (tk_state t)); [|exact Hi]);
        intros q; apply ps_disarm.
    + rewrite !exec_bind, ps_drain. apply plane_inv_drain.
      apply (plane_inv_same (tk_state t)); [|exact Hi]. intros q. apply ps_tick.
  - destruct Hi as (q & Hok & Ht).
    destruct (ps_enqueue q i (tk_state t) Ho Hok) as [[Hok' Hs]|(row & Hok' & Hs & Hid & Ha & Hst)].
    + exists q. split; [exact Hok'|]. by rewrite <-Hs in Ht.
    + exists (q + 1). split; [exact Hok'|].
      change (table_ok (q + 1) (rs_table (exec (pq_enqueue i) (tk_state t)))). rewrite Hs.
      by apply table_ok_snoc.
Qed.

Lemma plane_inv_steps os t :
  Forall step_ok os → plane_inv (tk_state t) → plane_inv (tk_state (exec (run_steps os) t)).
Proof.
  intros Hos. apply (triple_for_each (λ t, plane_inv (tk_state t))). intros o Ho s.
  apply plane_inv_step. rewrite Forall_forall in Hos. by apply Hos.
Qed.

(** A tick settles every key by its last pending request. *)
Lemma tick_last_word now t :
  plane_inv (tk_state t) → tk_running t = true →
  let s' := tk_state (exec (run_step (STurn now TTick)) t) in
  ∀ k r, last (filter (λ r, rq_key r = k)
                 (filter (λ r, rq_status r = "pending") (rs_table (tk_state t)))) = Some r →
    settled r s' ∧
    (rq_action r = "remove" → ∀ row, row ∈ rs_table s' → rq_key row = k → rq_status row ≠ "pending").
Proof.
  intros (q & Hok & Ht & _) Hrun s' k r. subst s'. cbn [run_step]. unfold manager_task.
  cbn [for_each]. rewrite !exec_bind. change (eval (gets tk_running) t) with (tk_running t).
  rewrite Hrun. cbn [fst snd task_turn]. rewrite !exec_bind, ps_drain.
  set (now0 := now 0%nat). set (s1 := exec (pl_tick now0) (tk_state t)).
  destruct (ps_tick q now0 (tk_state t) Hok) as [Hok1 Ht1]. fold s1 in Hok1, Ht1.
  rewrite <-Ht1 in Ht |- *. apply (drain_last_word q (λ i, now (1 + i)%nat) s1 Hok1 Ht).
Qed.
End runs.
#[global] Arguments PlaneStep : clear implicits.

(** The task at its start. *)
Definition task_new {S} (s : S) (pm : PlaneMetrics) : Task S := mk_Task s true pm true.
