(* ===== verification/DaemonRtbh.v ===== *)
(** * The RTBH plane of the daemon

    Model of the RTBH part of [src/bin/blackwalld/src/main.rs]: the
    configuration of the controller ([rtbh_config_from]), the start of the
    live manager from the mirror in the store, the task that owns the manager
    ([rtbh_manager_task], the loop of [Requests] over the operations of this
    plane) and the code that applies one request ([apply_request], the code of
    [Requests] over the operations of this plane).

    The theorems are about the whole path: the operator's rows in the
    database, the manager, its journal in the same database, and the routes. *)
From stdpp Require Import prelude gmap strings sorting.
From S2P Require Import Prelude Net RateLimit Core Flow Executor.
From S2P Require Import ManagerState RtbhController RtbhManager NetText Store Requests.

Open Scope Z_scope.

#[export] Instance RtbhRequestRow_request : Request RtbhRequestRow IpAddr.
Proof.
  by refine {| rq_id := rr_id; rq_key := rr_target; rq_action := rr_action; rq_status := rr_status;
               rq_set := set_status |}.
Defined.

Section daemon.
Context `{IpNetLib} `{HashOrder} `{Postgres}.

Definition rtbh_config_from (policy : Policy) (rtbh : RtbhPolicy) : RtbhConfig := {|
  eligible_prefixes := prefixes policy;
  blackhole_communities := rp_blackhole_communities rtbh;
  next_hop_v4 := rp_next_hop_v4 rtbh;
  next_hop_v6 := rp_next_hop_v6 rtbh;
  max_blackholes := Z.to_nat (rp_max_blackholes rtbh);
  hold_down := rp_hold_down rtbh;
  max_ttl := rp_max_ttl rtbh;
  RtbhController.protected_prefixes := Core.protected_prefixes policy;
|}.

Context {B J : Type} `{!BgpExecutor B} `{!BlackholeJournal J} `{!SharedStore J}.

#[local] Abbreviation RtbhManager := (Manager RtbhController B J MirrorOp ReapplyOp).

(** ** Requests *)

#[export] Instance rtbh_requests : RequestOps RtbhManager RtbhRequestRow IpAddr := {|
  ro_add r now := apply_add (rr_target r) now.1 now.2;
  ro_remove r now := apply_remove (rr_target r) now.1 now.2;
  ro_message r := reject_message (rr_target r);
  ro_status id st n := on_journal (with_store (set_request_status id st n));
  ro_supersede target id := on_journal (with_store (supersede_pending_adds target id));
  ro_pending := on_journal (with_store pending_requests);
|}.

Definition apply_request (now : Z * Z) (req : RtbhRequestRow) : M RtbhManager unit :=
  apply_one now req.

(** ** The task *)

#[export] Instance rtbh_plane : Plane RtbhManager DetectionEvent := {|
  pl_event ev now := apply_event ev now.1 now.2;
  pl_disarm _ := disarm;
  pl_tick now := RtbhManager.tick now.1 now.2;
  pl_snapshot pm s := {|
    pm_protected := protected_skipped (controller s);
    pm_apply_failures := apply_failures s;
    pm_ratecapped := (λ _, ratecapped s) <$> pm_ratecapped pm;
    pm_reapply_pending := reapply_pending s |};
  pl_drain now := drain (R := RtbhRequestRow) now;
|}.

(** The insertion of a request by [rtbh add] and [rtbh remove]. *)
#[export] Instance rtbh_enqueue : Enqueue RtbhManager (IpAddr * string * string) := λ i,
  _id ← on_journal (with_store (enqueue_request i.1.1 i.1.2 i.2)); mret ().

Definition rtbh_manager_task (evs : list ((nat → Z * Z) * TaskEvent DetectionEvent))
    : M (Task RtbhManager) unit := manager_task evs.
End daemon.

(** ** The requests in the database *)

Section requests.
Context `{IpNetLib} `{HashOrder} `{Postgres}.

(** A server that answers, with the requests [l] and the next identifier [q]. *)
Definition answering (l : list RtbhRequestRow) (q : Z) (s : Store) : Prop :=
  st_script s = [] ∧ db_requests (st_db s) = l ∧ db_request_seq (st_db s) = q.

(** A journal whose writes leave the requests alone. *)
Class RequestsKept (J : Type) `{!BlackholeJournal J} `{!SharedStore J} := {
  announce_kept : ∀ l q t o at_, preserves (λ j, answering l q (store_of j)) (j_record_announce t o at_);
  withdraw_kept : ∀ l q t at_, preserves (λ j, answering l q (store_of j)) (j_record_withdraw t at_);
}.

Lemma execute_kept l q f :
  (∀ d d', f d = Some d' → db_requests d' = db_requests d ∧ db_request_seq d' = db_request_seq d) →
  preserves (answering l q) (execute f).
Proof.
  intros Hf s (Hn & Hl & Hq). unfold execute.
  pose proof (statement_script (λ d, (λ d', ((), d')) <$> f d) s) as Hs.
  destruct (statement_spec (λ d, (λ d', ((), d')) <$> f d) s) as [(u & d & _ & He & Hd)|[_ Hd]];
    (split; [by rewrite Hs, Hn|]); rewrite Hd; [|done].
  destruct (f (st_db s)) as [d'|] eqn:E; [|done]. injection He as _ <-. by destruct (Hf _ _ E) as [-> ->].
Qed.

#[export] Instance Store_requests_kept : RequestsKept Store.
Proof.
  split; intros; cbn [j_record_announce j_record_withdraw Store_journal store_of Store_shared];
    (eapply triple_bind; [apply (execute_kept l q)|intros r; by intros s Hs]); intros d d'.
  - destruct (negb _ || negb _); [done|]. by destruct (existsb _ _); intros [= <-].
  - destruct (ts_ok _); [|done]. by intros [= <-].
Qed.

#[export] Instance ShadowStore_requests_kept : RequestsKept ShadowStore.
Proof. split; intros; by intros s Hs. Qed.
End requests.

(** ** What applying requests does *)

Section apply.
Context `{IpNetLib} `{HashOrder} `{Postgres} {B J : Type} `{!BgpExecutor B} `{!BgpSpec B}
        `{!BlackholeJournal J} `{!SharedStore J} `{!RequestsKept J}.

#[local] Abbreviation RtbhManager := (Manager RtbhController B J MirrorOp ReapplyOp).

Definition requests_of (s : RtbhManager) : list RtbhRequestRow :=
  db_requests (st_db (store_of (journal s))).

(** Who, if anyone, holds the blackhole of a target. *)
Definition held_by (s : RtbhManager) (t : IpAddr) : option BlackholeOrigin :=
  origin <$> active (controller s) !! t.

(** The invariant of the manager over a server that answers and whose next
    request has the identifier [q]. *)
Definition serving (clean : Prop) (cfg : RtbhConfig) (q : Z) (s : RtbhManager) : Prop :=
  minv clean cfg (view_of s) ∧ st_script (store_of (journal s)) = [] ∧
  db_request_seq (st_db (store_of (journal s))) = q.

Lemma serving_mop clean cfg q o s :
  serving clean cfg q s →
  serving clean cfg q (exec (run_mop o) s) ∧ requests_of (exec (run_mop o) s) = requests_of s.
Proof.
  intros (Hm & Hn & Hq).
  destruct (mgr_journal_mop (λ j, answering (requests_of s) q (store_of j)) o
    (announce_kept _ _) (withdraw_kept _ _) s) as (Hn' & Hr' & Hq'); [done|].
  split; [split; [by apply minv_mop|done]|exact Hr'].
Qed.

Lemma serving_add clean cfg q t mono wall s :
  serving clean cfg q s →
  serving clean cfg q (exec (apply_add t mono wall) s) ∧
  requests_of (exec (apply_add t mono wall) s) = requests_of s.
Proof.
  intros Hs. pose proof (serving_mop clean cfg q (MAdd t mono wall) s Hs) as Hm.
  cbn [run_mop] in Hm. by rewrite exec_bind in Hm.
Qed.

Lemma apply_remove_held t mono wall s t' :
  active (controller (exec (apply_remove t mono wall) s)) !! t'
  = if decide (t' = t) then None else active (controller s) !! t'.
Proof.
  unfold apply_remove. rewrite exec_bind.
  change (eval (on_controller (manual_remove t)) s) with (eval (manual_remove t) (controller s)).
  set (s1 := exec (on_controller (manual_remove t)) s).
  assert (∃ ts, eval (manual_remove t) (controller s) = (λ t, Withdraw (host_prefix t)) <$> ts)
    as [ts ->].
  { unfold eval, manual_remove. case_match; [by exists [t]|by exists []]. }
  destruct (mgr_withdraws_view ts mono wall s1) as (-> & _).
  change (controller s1) with (exec (manual_remove t) (controller s)).
  unfold exec, manual_remove. destruct (active (controller s) !! t) eqn:Ht; simpl;
    case_decide; subst; [apply lookup_delete_eq|by apply lookup_delete_ne|done..].
Qed.

(** A statement on the requests. *)
Lemma with_store_exec_journal {A} (m : M Store A) (s : RtbhManager) :
  store_of (journal (exec (on_journal (with_store m)) s)) = exec m (store_of (journal s)).
Proof. rewrite <-with_store_exec. done. Qed.

Lemma serving_store clean cfg q {A} (m : M Store A) s :
  st_script (exec m (store_of (journal s))) = [] →
  db_request_seq (st_db (exec m (store_of (journal s)))) = q → serving clean cfg q s →
  serving clean cfg q (exec (on_journal (with_store m)) s).
Proof.
  intros Hn Hq (Hm & _). split; [exact Hm|]. by rewrite with_store_exec_journal.
Qed.

Lemma requests_store {A} (m : M Store A) s :
  requests_of (exec (on_journal (with_store m)) s)
  = db_requests (st_db (exec m (store_of (journal s)))).
Proof. unfold requests_of. by rewrite with_store_exec_journal. Qed.

Definition rtbh_request_spec (clean : Prop) (cfg : RtbhConfig)
    : RequestSpec RtbhManager RtbhRequestRow IpAddr (option BlackholeOrigin).
Proof.
  refine {| rs_ok := serving clean cfg; rs_table := requests_of; rs_eff := held_by;
            rs_force _ e := e = Some Manual; rs_refused _ e := e = None; rs_absent e := e = None |}.
  - intros q r now s Hs s'. destruct (serving_add clean cfg q (rr_target r) now.1 now.2 s Hs) as [? ?].
    destruct (rtbh_apply_add_truthful (rr_target r) now.1 now.2 s) as (Hap & Hman & Hoth & _).
    split_and!; [done..| |].
    + intros k Hk. unfold held_by. subst s'. cbn [ro_add rtbh_requests]. by rewrite (Hoth k).
    + subst s'. cbn [ro_add rtbh_requests] in *. unfold held_by.
      set (out := eval (apply_add _ _ _) s) in *. set (s' := exec (apply_add _ _ _) s) in *.
      change (rq_key r) with (rr_target r).
      destruct (active (controller s') !! rr_target r) as [e|].
      * assert (out = Applied) as -> by (by apply Hap). cbn. by rewrite (Hman e).
      * assert (out ≠ Applied) by (rewrite Hap; by intros []). by destruct out.
  - intros q r now s Hs s'. destruct (serving_mop clean cfg q (MRemove (rr_target r) now.1 now.2) s Hs).
    subst s'. cbn [ro_remove rtbh_requests]. unfold held_by.
    split_and!; [done..| |]; [intros k Hk|]; rewrite apply_remove_held.
    + by rewrite decide_False.
    + by rewrite decide_True.
  - intros q id st n s Hs Hst Hn s'. subst s'. cbn [ro_status rtbh_requests]. unfold set_request_status.
    set (f := λ d : Db, _). pose proof Hs as (_ & Hscr & Hq).
    destruct (execute_answering f (set_requests (tbl_status id st n (requests_of s))
      (db_request_seq (st_db (store_of (journal s)))) (st_db (store_of (journal s))))
      (store_of (journal s)) Hscr) as (_ & Hs' & Hd).
    { subst f. cbn beta. by rewrite bool_decide_true, Hn. }
    split_and!; [by apply serving_store; [|rewrite Hd|]|by rewrite requests_store, Hd|done].
  - intros q k id s Hs s'. subst s'. cbn [ro_supersede rtbh_requests]. unfold supersede_pending_adds.
    set (f := λ d : Db, _). pose proof Hs as (_ & Hscr & Hq).
    destruct (execute_answering f (set_requests (tbl_supersede k id (requests_of s))
      (db_request_seq (st_db (store_of (journal s)))) (st_db (store_of (journal s))))
      (store_of (journal s)) Hscr) as (_ & Hs' & Hd); [done|].
    split_and!; [by apply serving_store; [|rewrite Hd|]|by rewrite requests_store, Hd|done].
  - intros q s Hs Ht s'. subst s'. pose proof Hs as (_ & Hscr & Hq). cbn [ro_pending rtbh_requests].
    assert (pending_requests (store_of (journal s))
      = (Ok (filter (λ r, rr_status r = "pending") (requests_of s)), store_of (journal s))) as Hp.
    { unfold pending_requests, fetch, statement. rewrite Hscr. cbn [head default]. f_equal; [f_equal|].
      - by apply (merge_sort_by_id request_le).
      - destruct (store_of (journal s)); cbn in *; by subst. }
    split_and!; [..|done].
    + change (eval (on_journal ?m) s) with (eval m (journal s)). rewrite with_store_eval.
      unfold eval. by rewrite Hp.
    + by apply serving_store; unfold exec; rewrite ?Hp.
    + rewrite requests_store. unfold exec. by rewrite Hp.
  - intros r reason. apply reject_message_text.
Defined.

(** ** Runs of the task and of the operators *)

#[export] Instance rtbh_plane_spec clean cfg :
  PlaneSpec (RequestSpec0 := rtbh_request_spec clean cfg)
    RtbhManager DetectionEvent RtbhRequestRow IpAddr (option BlackholeOrigin) (IpAddr * string * string).
Proof.
  refine {| ps_event_ok _ := True; ps_intent_ok _ := True |}; try done.
  - intros q ev now s _. apply (serving_mop clean cfg q (MEvent ev now.1 now.2)).
  - intros q now s. apply (serving_mop clean cfg q MDisarm).
  - intros q now s. apply (serving_mop clean cfg q (MTick now.1 now.2)).
  - intros q [[t a] by_] s _ Hs s'. subst s'. unfold pq_enqueue, rtbh_enqueue. rewrite exec_bind.
    change (exec (mret ?u) ?s) with s. cbn [fst snd rs_ok rs_table rtbh_request_spec].
    rewrite requests_store. pose proof Hs as (Hm & Hscr & Hseq).
    destruct (bool_decide (a ∈ ["add"; "remove"]) && text_ok by_) eqn:Hok; [right|left].
    + set (row := {| rr_id := q; rr_target := t; rr_action := a; rr_created_by := by_;
                     rr_status := "pending"; rr_note := None |}).
      assert (exec (enqueue_request t a by_) (store_of (journal s))
        = {| st_db := set_requests (requests_of s ++ [row]) (q + 1) (st_db (store_of (journal s)));
             st_script := [] |}) as Hnew.
      { unfold enqueue_request, statement, exec. rewrite Hscr. cbn [head default].
        by rewrite Hok, Hseq. }
      apply andb_true_iff in Hok as [Ha%bool_decide_eq_true _].
      exists row. split_and!; [|by rewrite Hnew|done..].
      split; [exact Hm|]. by rewrite with_store_exec_journal, Hnew.
    + assert (exec (enqueue_request t a by_) (store_of (journal s)) = store_of (journal s)) as Hsame.
      { unfold enqueue_request, statement, exec. rewrite Hscr. cbn [head default]. rewrite Hok.
        destruct (store_of (journal s)); cbn in *; by subst. }
      split; [by apply serving_store; rewrite ?Hsame|by rewrite Hsame].
Defined.

Lemma rtbh_steps_ok clean cfg os : Forall (step_ok (PlaneSpec0 := rtbh_plane_spec clean cfg)) os.
Proof. apply Forall_forall. by intros [? [[]| |]|] _. Qed.

(** What the last pending request [r] of a target comes to. *)
Definition last_word (clean : Prop) (r : RtbhRequestRow) (s : RtbhManager) : Prop :=
  (rr_action r = "remove" →
     active (controller s) !! rr_target r = None ∧
     (clean → rib (bgp s) !! host_prefix (rr_target r) = None) ∧
     ∀ row, row ∈ requests_of s → rr_target row = rr_target r → rr_status row ≠ "pending") ∧
  (rr_action r = "add" →
     ∃ row, row ∈ requests_of s ∧ rr_id row = rr_id r ∧
       ((rr_status row = "applied" ∧ held_by s (rr_target r) = Some Manual ∧
         ∃ route, host_route (controller s) (rr_target r) = Some route ∧
           (rib (bgp s) !! host_prefix (rr_target r) = Some route ∨
            {| ra_target := rr_target r; ra_route := route |} ∈ pending_reapply s)) ∨
        (rr_status row ∈ ["pending"; "rejected"] ∧ held_by s (rr_target r) = None))).

Lemma settled_last_word clean cfg q r s :
  serving clean cfg q s → settled (RequestSpec0 := rtbh_request_spec clean cfg) r s →
  (rr_action r = "remove" → ∀ row, row ∈ requests_of s → rr_target row = rr_target r →
     rr_status row ≠ "pending") →
  last_word clean r s.
Proof.
  intros ((_ & Hf & _ & Hcl) & _) (row & Hrow & Hid & Hk & Hrem & Hadd) Hgone.
  cbn [v_ctl v_rib v_queue view_of] in *. split.
  - intros Ha. destruct (Hrem Ha) as (Habs & _ & _).
    cbn [rs_absent rs_eff rtbh_request_spec] in Habs. unfold held_by in Habs.
    change (rq_key r) with (rr_target r) in Habs. apply fmap_None in Habs.
    split_and!; [exact Habs| |by apply Hgone].
    intros [_ Hb]%Hcl. destruct (rib (bgp s) !! _) as [route|] eqn:Hrib; [|done].
    destruct (Hb _ _ Hrib) as (t' & <-%host_prefix_inj & [e He'] & _). congruence.
  - intros Ha. exists row. split_and!; [done..|]. destruct (Hadd Ha) as [[Hst Hfor]|[Hst Href]].
    + left. cbn [rs_force rs_eff rtbh_request_spec] in Hfor. split_and!; [done..|].
      apply Hf. unfold held_by in Hfor.
      change (rq_key r) with (rr_target r) in Hfor. by destruct (active (controller s) !! rr_target r).
    + right. by split.
Qed.

(** The next request identifier. *)
Definition request_seq (s : RtbhManager) : Z := db_request_seq (st_db (store_of (journal s))).

(** C4: the operator's last word wins. From any reachable state of the live or
    shadow manager, over a database that answers, after any sequence of
    detections, ticks, disarms and requests queued by operators, a tick of the
    task settles every target with pending requests according to its last
    one: after a [remove] the target is not blackholed, its route is gone (when
    withdrawals succeed) and none of its requests is pending any more; after
    an [add] either the row says [applied], the blackhole is held by the
    operator and its route announced or queued for announcement, or the row
    stays [pending] or says [rejected] and there is no blackhole. The table
    never holds a pending [add] older than an applied [remove] of its target,
    so that no removed blackhole comes back by an old request. *)
Theorem rtbh_last_word cfg b j lim s pm os now :
  mreachable cfg b j lim s → st_script (store_of (journal s)) = [] →
  table_ok (request_seq s) (requests_of s) →
  let t1 := exec (run_steps os) (task_new s pm) in
  let t2 := exec (run_step (STurn now TTick)) t1 in
  table_ok (request_seq (tk_state t2)) (requests_of (tk_state t2)) ∧
  (tk_running t1 = true → ∀ target r,
    last (filter (λ r, rr_target r = target)
            (filter (λ r, rr_status r = "pending") (requests_of (tk_state t1)))) = Some r →
    last_word (withdraw_ok (B := B) ∧ rib b = ∅) r (tk_state t2)).
Proof.
  intros Hr Hn Hd t1 t2. set (clean := withdraw_ok ∧ rib b = ∅).
  pose (spec := rtbh_request_spec clean cfg).
  assert (plane_inv (RequestSpec0 := spec) (tk_state t1)) as Hi.
  { apply (plane_inv_steps (RequestSpec0 := spec)); [apply rtbh_steps_ok|]. exists (request_seq s).
    split; [|exact Hd]. split_and!; [by eapply mreachable_minv|done..]. }
  destruct (plane_inv_step (RequestSpec0 := spec) (STurn now TTick) t1 I Hi) as (q & Hs & Ht).
  split. { destruct Hs as (_ & _ & Hq). unfold request_seq, t2. by rewrite Hq. }
  intros Hrun target r Hl.
  destruct (tick_last_word (RequestSpec0 := spec) now t1 Hi Hrun target r Hl) as [Hset Hgone].
  apply (settled_last_word clean cfg q); [exact Hs|exact Hset|].
  apply last_Some_elem_of, list_elem_of_filter in Hl as [Htr _].
  intros Ha row Hrow Hk. apply (Hgone Ha row Hrow). by rewrite <-Htr.
Qed.
End apply.

(** ** The start of a live manager *)

Section start.
Context `{IpNetLib} `{HashOrder} `{Postgres} {B : Type} `{!BgpExecutor B}.

#[local] Abbreviation RtbhManager := (Manager RtbhController B Store MirrorOp ReapplyOp).

Definition rehydrate_of (row : RtbhBlackholeRow) : IpAddr * Z * BlackholeOrigin :=
  (bh_target row, bh_announced_at row,
   if decide (bh_origin row = "manual") then Manual else Auto).

(** The live branch of the wiring: the manager over a fresh session, the
    limiter if one is configured, and the mirror; an error of the store ends
    the program. *)
Definition rtbh_start (policy : Policy) (rtbh : RtbhPolicy) (b : B) (lim : ArmingRateLimiter)
    (mono_now : Z) : M Store (result RtbhManager StateError) := λ st,
  let manager := manager_new (controller_new (rtbh_config_from policy rtbh)) b st lim in
  let manager := if decide (is_Some (rp_max_new_per_min rtbh)) then with_rate_limiter manager
                 else manager in
  let mirror := eval list_active_blackholes st in
  let st := exec list_active_blackholes st in
  match mirror with
  | Ok mirror =>
      let manager := exec (rehydrate (rehydrate_of <$> mirror) mono_now) (set_journal st manager) in
      (Ok manager, journal manager)
  | Err e => (Err e, st)
  end.

(** ** Restarts *)

(** A database that answers, with a well-formed mirror, and the times a
    timestamp column surely holds. *)
Definition healthy (st : Store) : Prop := st_script st = [] ∧ mirror_ok (db_blackholes (st_db st)).
Definition wall_ok (wall : Z) : Prop := 0 ≤ wall ≤ 253402300799999.

Lemma ts_ok_wall wall : wall_ok wall → ts_ok (clamp_ms wall) = true.
Proof.
  unfold wall_ok. intros Hw. apply ts_ok_dates. unfold clamp_ms, i64_max. lia.
Qed.

Lemma Store_journal_ok : journal_ok healthy wall_ok.
Proof.
  split.
  - intros t o wall st [Hn Hm] Hw. pose proof (mirror_ok_record t o wall st ltac:(apply Hw) Hm) as Hm'.
    split; [|split; [|exact Hm']]; revert Hm'; intros _;
      cbn [j_record_announce Store_journal]; rewrite ?eval_bind, ?exec_bind;
      unfold record_blackhole; set (f := λ d : Db, _);
      (assert (∃ d, f (st_db st) = Some d) as [d Hd];
       [subst f; cbn beta; rewrite ts_ok_wall by done; rewrite bool_decide_true by (destruct o; set_solver);
        cbn [negb orb]; case_match; eauto|]);
      destruct (execute_answering f d st Hn Hd) as (He & Hs & _); [by rewrite He|exact Hs].
  - intros t wall st [Hn Hm] Hw. pose proof (mirror_ok_withdraw t wall st Hm) as Hm'.
    split; [|split; [|exact Hm']]; revert Hm'; intros _;
      cbn [j_record_withdraw Store_journal]; rewrite ?eval_bind, ?exec_bind;
      unfold clear_blackhole; set (f := λ d : Db, _);
      (assert (∃ d, f (st_db st) = Some d) as [d Hd];
       [subst f; cbn beta; rewrite ts_ok_wall by done; eauto|]);
      destruct (execute_answering f d st Hn Hd) as (He & Hs & _); [by rewrite He|exact Hs].
Qed.

Context `{!BgpSpec B}.

(** One row of a rehydration that the policy admits. *)
Lemma rehydrate_row_admitted mono row (s : RtbhManager) :
  let c := controller s in
  let t := row.1.1 in
  is_protected c t = false → is_eligible c t = true → is_Some (host_route c t) →
  active c !! t = None → (size (active c) < max_blackholes (config c))%nat →
  let s' := exec (rehydrate_row mono row) s in
  controller s' = set_active (<[t := {| announced_at := mono; last_activity := mono;
                                        origin := row.2; clear_requested_at := None |}]>) c ∧
  journal s' = journal s ∧ pending_mirror s' = pending_mirror s.
Proof.
  destruct row as [[t at_] o]. cbn [fst snd]. intros Hp He [route Hr] Hn Hsz. unfold rehydrate_row.
  rewrite exec_bind.
  assert (resume t mono o (controller s)
    = ([Announce route], set_active (<[t := {| announced_at := mono; last_activity := mono;
         origin := o; clear_requested_at := None |}]>) (controller s))) as Hres.
  { unfold resume, insert_blackhole. unfold is_protected in Hp. unfold is_eligible in He.
    rewrite Hp, He, Hn, Hr. cbn [negb]. by rewrite (proj2 (Nat.leb_gt _ _)). }
  unfold on_controller, eval at 1, exec at 2. cbn [fst snd]. unfold eval, exec. rewrite Hres. cbn [fst snd].
  unfold on_bgp. msimp. by destruct (bgp_announce route (bgp s)) as [[] ?].
Qed.

Lemma rehydrate_restores l mono (s : RtbhManager) :
  NoDup (l.*1.*1) →
  (∀ t, t ∈ l.*1.*1 → is_protected (controller s) t = false ∧ is_eligible (controller s) t = true ∧
     is_Some (host_route (controller s) t) ∧ active (controller s) !! t = None) →
  (size (active (controller s)) + length l ≤ max_blackholes (config (controller s)))%nat →
  let s' := exec (rehydrate l mono) s in
  origin <$> active (controller s')
  = list_to_map ((λ row : IpAddr * Z * BlackholeOrigin, (row.1.1, row.2)) <$> l)
    ∪ (origin <$> active (controller s)) ∧
  journal s' = journal s ∧ pending_mirror s' = pending_mirror s.
Proof.
  revert s. induction l as [|row l IH]; intros s Hnd Hall Hsz s'; subst s'.
  { cbn. by rewrite (left_id_L ∅ _). }
  unfold rehydrate. rewrite exec_for_each_cons.
  rewrite !fmap_cons, NoDup_cons in Hnd. destruct Hnd as [Hni Hnd].
  destruct (Hall row.1.1) as (Hp & He & Hr & Hn); [set_solver|]. cbn [length] in Hsz.
  destruct (rehydrate_row_admitted mono row s Hp He Hr Hn) as (Hc & Hj & Hm); [lia|].
  set (s1 := exec (rehydrate_row mono row) s) in *.
  destruct (IH s1 Hnd) as (Ha & Hj' & Hm').
  - intros t Ht. rewrite Hc. destruct (Hall t) as (? & ? & ? & ?); [set_solver|].
    split_and!; try done. cbn. rewrite lookup_insert_ne; [done|]. intros Heq. by rewrite <-Heq in Ht.
  - rewrite Hc. cbn. rewrite map_size_insert_None by done. lia.
  - split_and!; [|exact (eq_trans Hj' Hj)|exact (eq_trans Hm' Hm)]. etransitivity; [exact Ha|]. rewrite Hc. cbn [active set_active].
    rewrite fmap_insert. cbn [origin]. rewrite fmap_cons, list_to_map_cons. apply map_eq. intros t.
    assert ((list_to_map ((λ row0 : IpAddr * Z * BlackholeOrigin, (row0.1.1, row0.2)) <$> l)
      : gmap IpAddr BlackholeOrigin) !! row.1.1 = None) as Hno.
    { apply not_elem_of_list_to_map_1. by rewrite <-!list_fmap_compose in *. }
    rewrite !lookup_union. destruct (decide (t = row.1.1)) as [->|Hne].
    + rewrite Hno, !lookup_insert_eq, lookup_fmap, Hn. done.
    + by rewrite !lookup_insert_ne.
Qed.

Lemma ctl_inv_admits cfg c t e :
  ctl_inv cfg c → active c !! t = Some e →
  is_protected c t = false ∧ is_eligible c t = true ∧ is_Some (host_route c t).
Proof.
  intros (_ & _ & Hall) He. destruct (Hall t e He) as (Hel & Hpr & Hnh & _). split_and!; [done..|].
  rewrite has_next_hop_host_route in Hnh. by apply bool_decide_eq_true in Hnh.
Qed.

Lemma rtbh_start_rows c (st : Store) l :
  rows st = origin <$> active c → NoDup (bh_target <$> l) →
  list_to_map ((λ r, (bh_target r, origin_of (bh_origin r))) <$> l) = rows st →
  length l = size (active c) ∧ ∀ t, t ∈ bh_target <$> l → is_Some (active c !! t).
Proof.
  intros Hrows Hnd Hl. rewrite Hrows in Hl. split.
  - rewrite <-(map_size_fmap origin), <-Hl, map_size_list_to_map, length_fmap; [done|].
    by rewrite <-list_fmap_compose.
  - intros t Ht. destruct (active c !! t) as [e|] eqn:He; [by eexists|exfalso].
    assert ((origin <$> active c) !! t = None) as Hn by (by rewrite lookup_fmap, He).
    rewrite <-Hl in Hn. apply not_elem_of_list_to_map_2 in Hn. by rewrite <-list_fmap_compose in Hn.
Qed.

Lemma rtbh_start_restores policy rp (s1 : RtbhManager) (b' : B) lim' mono :
  let cfg := rtbh_config_from policy rp in
  ctl_inv cfg (controller s1) → rows (journal s1) = origin <$> active (controller s1) →
  healthy (journal s1) →
  ∃ s2, eval (rtbh_start policy rp b' lim' mono) (journal s1) = Ok s2 ∧
    (∀ t, held_by s2 t = held_by s1 t) ∧ mirrored healthy s2 ∧
    ∀ t, is_Some (active (controller s2) !! t) →
      ∃ route, host_route (controller s2) t = Some route ∧
        (rib (bgp s2) !! host_prefix t = Some route ∨
         {| ra_target := t; ra_route := route |} ∈ pending_reapply s2).
Proof.
  intros cfg Hctl Hrows [Hn Hok].
  destruct (list_active_spec (journal s1) Hn Hok) as (l & Hev & Hst & Hnd & Hmap).
  destruct (rtbh_start_rows (controller s1) (journal s1) l Hrows Hnd Hmap) as [Hlen Hin].
  unfold rtbh_start, eval at 1. rewrite Hev. cbn [fst]. eexists. split; [done|].
  set (st := exec list_active_blackholes (journal s1)) in *.
  set (m0 := set_journal st _). fold cfg in m0.
  assert (st_script st = []) as Hn'.
  { subst st. unfold list_active_blackholes, bind_ok, fetch. rewrite exec_bind.
    set (f := λ d : Db, Some _). pose proof (statement_script f (journal s1)) as Hs.
    rewrite Hn in Hs. by destruct (eval (statement f) (journal s1)). }
  assert (mreachable cfg b' st lim' m0) as Hm0.
  { subst m0. case_decide; [exact (mreach_new_limited cfg b' st lim')|exact (mreach_new cfg b' st lim')]. }
  assert (controller m0 = controller_new cfg ∧ journal m0 = st ∧ pending_mirror m0 = [])
    as (Hc0 & Hj0 & Hp0) by (subst m0; by case_decide).
  destruct (rehydrate_restores (rehydrate_of <$> l) mono m0) as (Ha & Hj & Hp).
  - by rewrite <-!list_fmap_compose.
  - intros t Ht. rewrite <-!list_fmap_compose in Ht. rewrite Hc0.
    destruct (Hin t Ht) as [e He]. destruct (ctl_inv_admits cfg _ t e Hctl He) as (? & ? & ?).
    destruct Hctl as (Hcfg & _). unfold is_protected, is_eligible, host_route in *.
    rewrite Hcfg in *. by split_and!.
  - rewrite Hc0, length_fmap, Hlen. cbn. rewrite map_size_empty. apply Hctl.
  - set (s2 := exec (rehydrate _ _) m0) in *. rewrite Hc0 in Ha. cbn [active controller_new] in Ha.
    rewrite fmap_empty, (right_id_L ∅ _), <-list_fmap_compose in Ha.
    assert (origin <$> active (controller s2) = origin <$> active (controller s1)) as Heq.
    { by rewrite Ha, <-Hrows, <-Hmap. }
    split_and!.
    + intros t. unfold held_by. by rewrite <-!lookup_fmap, Heq.
    + unfold mirrored, healthy. rewrite Hj, Hj0, Hp, Hp0, Hst, Heq. split_and!; try done.
      rewrite <-Hrows. cbn [rows Store_journal_spec]. by rewrite Hst.
    + apply (mreach_op _ _ _ _ _ (MRehydrate (rehydrate_of <$> l) mono)) in Hm0.
      apply (mreachable_minv False) in Hm0 as (_ & Hf & _); [|done]. intros t. apply Hf.
Qed.

(** C11: a restart restores the blackholes. Over a database that answers, with a
    clock in range and withdrawals that succeed, stop the daemon after any
    sequence of detections, ticks and operator requests: started again with
    the same policy on a fresh session, the manager has read the mirror back to
    exactly the targets that were active, each held by whom it was held, the
    mirror agrees with them again, and every one of them is announced on the
    new session or queued for announcement. *)
Theorem rtbh_restart_restores policy rp b j lim s os b' lim' mono :
  let cfg := rtbh_config_from policy rp in
  withdraw_ok (B := B) → mreachable cfg b j lim s → mirrored healthy s →
  Forall (λ o, mop_timed wall_ok o ∧ is_rehydrate o = false ∧ o ≠ MDisarm) os →
  let s1 := exec (run_mops os) s in
  ∃ s2, eval (rtbh_start policy rp b' lim' mono) (journal s1) = Ok s2 ∧
    (∀ t, held_by s2 t = held_by s1 t) ∧ mirrored healthy s2 ∧
    ∀ t, is_Some (active (controller s2) !! t) →
      ∃ route, host_route (controller s2) t = Some route ∧
        (rib (bgp s2) !! host_prefix t = Some route ∨
         {| ra_target := t; ra_route := route |} ∈ pending_reapply s2).
Proof.
  intros cfg Hw Hr Hm Hos s1.
  assert (mirrored healthy s1) as (Hrows & _ & Hh).
  { apply (triple_for_each (mirrored healthy)); [|done]. intros o Ho. rewrite Forall_forall in Hos.
    apply (mirrored_mop healthy wall_ok); [exact Store_journal_ok|done|by apply Hos..]. }
  assert (ctl_inv cfg (controller s1)) as Hctl.
  { apply (mreachable_minv False) in Hr; [|done].
    apply (triple_for_each (λ s, minv False cfg (view_of s)) os run_mop) in Hr; [by destruct Hr|].
    intros o _. apply minv_mop. }
  exact (rtbh_start_restores policy rp s1 b' lim' mono Hctl Hrows Hh).
Qed.
End start.

(** ** Examples *)

#[local] Existing Instance RefNet.lib.
#[local] Existing Instance RefNet.order.
#[local] Existing Instance RefPg.pg.

Definition dm_rtbh : RtbhPolicy := {|
  rp_local_asn := 64500; rp_peer_asn := 64500; rp_peer_addr := socket_addr_new (ipv4 192 0 2 1) 179;
  rp_router_id := 3221225985; rp_blackhole_communities := [(65535, 666)];
  rp_next_hop_v4 := Some 3221225985; rp_next_hop_v6 := None; rp_max_blackholes := 2;
  rp_hold_down := {| secs := 10; nanos := 0 |}; rp_max_ttl := Some {| secs := 60; nanos := 0 |};
  rp_md5 := None; rp_gtsm_hops := None; rp_local_addr := None; rp_max_new_per_min := Some 5 |}.

Definition dm_policy : Policy := {|
  interface := "eth0"; prefixes := [RefNet.net4 203 0 113 0 24]; default_state := Closed;
  tenants := []; shaping := []; banner_flux := None; dns_flux := None; rtbh := Some dm_rtbh;
  flowspec := None; metrics_listen := None; api := None; pops := []; engine := engine_default;
  flowtable := None; xdp := None; stateless_tcp_ports := []; shadow := false;
  Core.protected_prefixes := []; rpki_validator := None;
  rpki_check_interval := from_secs 3600; instance := None |}.

Definition dm_cfg : RtbhConfig := rtbh_config_from dm_policy dm_rtbh.
Definition dm_clock (n : Z) (i : nat) : Z * Z := (n + Z.of_nat i, n + Z.of_nat i).
Definition dm_metrics : PlaneMetrics := {|
  pm_protected := 0; pm_apply_failures := 0; pm_ratecapped := Some 0; pm_reapply_pending := 0 |}.

(** A live manager on a session with the outcomes [l] and a database with the
    outcomes [db]. *)
Definition dm_start (l db : list bool) : Manager RtbhController Scripted Store MirrorOp ReapplyOp :=
  manager_new (controller_new dm_cfg) (scripted l) (st_new db) (limiter_new 5).

(** An [add] that cannot be announced at first, then a [remove]. *)
Definition dm_requests : list (PlaneStep DetectionEvent (IpAddr * string * string)) :=
  [SEnqueue (ex_target, "add", "op"); SEnqueue (ex_target, "remove", "op")].

Definition dm_remove : RtbhRequestRow := {|
  rr_id := 2; rr_target := ex_target; rr_action := "remove"; rr_created_by := "op";
  rr_status := "pending"; rr_note := None |}.

Lemma rtbh_last_word_witness :
  let t1 := exec (run_steps dm_requests) (task_new (dm_start [false] []) dm_metrics) in
  let t2 := exec (run_step (STurn (dm_clock 1000) TTick)) t1 in
  last_word (withdraw_ok (B := Scripted) ∧ rib (scripted [false]) = ∅) dm_remove (tk_state t2) ∧
  rr_status <$> requests_of (tk_state t2) = ["applied"; "applied"].
Proof.
  split; [|vm_refl].
  refine (proj2 (rtbh_last_word dm_cfg (scripted [false]) (st_new []) (limiter_new 5)
    (dm_start [false] []) dm_metrics dm_requests (dm_clock 1000) _ _ _) _ ex_target dm_remove _).
  - apply mreach_new.
  - reflexivity.
  - split; [split; constructor|split; [intros ? ? ?%not_elem_of_nil; done|constructor]].
  - vm_refl.
  - vm_refl.
Defined.

(** A shadow-executor manager that journals, after a detection and a request. *)
Definition dm_live : Manager RtbhController ShadowBgpExecutor Store MirrorOp ReapplyOp :=
  manager_new (controller_new dm_cfg) ex_shadow (st_new []) (limiter_new 5).
Definition dm_ops : list mop :=
  [ex_opened 1000 5000; MAdd (ipv4 203 0 113 9) 2000 6000; MTick 3000 7000].

Lemma rtbh_restart_restores_witness :
  let s1 := exec (run_mops dm_ops) dm_live in
  ∃ s2, eval (rtbh_start dm_policy dm_rtbh ex_shadow (limiter_new 5) 9000) (journal s1) = Ok s2 ∧
    (∀ t, held_by s2 t = held_by s1 t) ∧
    bool_decide (held_by s1 ex_target = Some Auto ∧ held_by s1 (ipv4 203 0 113 9) = Some Manual) = true.
Proof.
  destruct (rtbh_restart_restores dm_policy dm_rtbh ex_shadow (st_new []) (limiter_new 5) dm_live dm_ops
    ex_shadow (limiter_new 5) 9000) as (s2 & He & Hh & _).
  - intros p b. reflexivity.
  - apply mreach_new.
  - split; [vm_refl|split; [reflexivity|]]. split; [reflexivity|split; constructor].
  - repeat constructor; discriminate.
  - exists s2. split; [exact He|]. split; [exact Hh|vm_refl].
Defined.

(** An undetected failure of one statement undoes a removal. The request rows
    are an [add] that cannot be announced and a later [remove] of the same
    target; the statement that cancels the older [add] fails, which is only
    logged, and the [remove] is marked as applied. On the next tick the [add],
    still pending, is carried out: the target the operator removed last is
    blackholed, and every request is marked as applied. *)
Theorem rtbh_failed_supersede_revives :
  let t := exec (run_steps (dm_requests ++ [STurn (dm_clock 1000) TTick; STurn (dm_clock 2000) TTick]))
             (task_new (dm_start [false] [true; true; true; false]) dm_metrics) in
  bool_decide (held_by (tk_state t) ex_target = Some Manual) = true ∧
  bool_decide (is_Some (rib (bgp (tk_state t)) !! host_prefix ex_target)) = true ∧
  rr_status <$> requests_of (tk_state t) = ["applied"; "applied"].
Proof. split_and!; vm_refl. Qed.
