(* ===== verification/DaemonFlowspec.v ===== *)
(** * The FlowSpec plane of the daemon

    Model of the FlowSpec part of [src/bin/blackwalld/src/main.rs]: the
    configuration of the controller ([flowspec_config_from]), the start of the
    live manager from the mirror in the store, the task that owns the manager
    ([flowspec_manager_task], the loop of [Requests] over the operations of
    this plane) and the code that applies one request
    ([apply_flowspec_request], the code of [Requests] over the operations of
    this plane). The theorem about the operators' requests is the one of the
    RTBH plane, for rules instead of blackholes. *)
From stdpp Require Import prelude gmap strings sorting.
From S2P Require Import Prelude Net RateLimit Float Core Flow Executor.
From S2P Require Import ManagerState FlowSpecController FlowSpecManager Select NetText Store Requests.

Open Scope Z_scope.

#[export] Instance FlowSpecRequestRow_request : Request FlowSpecRequestRow (IpAddr * Z * Z).
Proof.
  by refine {| rq_id := fq_id; rq_key r := (fq_dst r, fq_proto r, fq_dst_port r);
               rq_action := fq_action; rq_status := fq_status; rq_set := set_fs_status |}.
Defined.

(** What the command line asks for: destination, protocol, port, rate, the
    action and the operator. *)
Record FlowSpecIntent := {
  fi_dst : IpAddr; fi_proto : Z; fi_dst_port : Z; fi_rate : f32; fi_action : string;
  fi_created_by : string;
}.

Section daemon.
Context `{IpNetLib} `{HashOrder} `{Postgres}.

Definition flowspec_config_from (policy : Policy) (fs : FlowSpecPolicy) : FlowSpecConfig := {|
  eligible_prefixes := prefixes policy;
  max_rules := Z.to_nat (fp_max_rules fs);
  hold_down := fp_hold_down fs;
  max_ttl := fp_max_ttl fs;
  FlowSpecController.protected_prefixes := Core.protected_prefixes policy;
|}.

Context {B J : Type} `{!BgpExecutor B} `{!FlowSpecJournal J} `{!SharedStore J}.

#[local] Abbreviation FlowSpecManager := (Manager FlowSpecController B J MirrorOp ReapplyOp).

(** ** Requests *)

(** The rule a request is about. *)
Definition request_rule (req : FlowSpecRequestRow) : FlowSpecRule := {|
  dst := host_prefix (fq_dst req); protocol := Some (fq_proto req);
  dst_port := Some (fq_dst_port req); action := TrafficRate (fq_rate req) |}.

#[export] Instance flowspec_requests : RequestOps FlowSpecManager FlowSpecRequestRow (IpAddr * Z * Z) := {|
  ro_add r now := apply_add (request_rule r) now.1 now.2;
  ro_remove r now := apply_remove (request_rule r) now.1 now.2;
  ro_message r := reject_message (net_addr (dst (request_rule r)));
  ro_status id st n := on_journal (with_store (set_flowspec_request_status id st n));
  ro_supersede k id := on_journal (with_store (supersede_pending_flowspec_adds k.1.1 k.1.2 k.2 id));
  ro_pending := on_journal (with_store pending_flowspec_requests);
|}.

Definition apply_flowspec_request (now : Z * Z) (req : FlowSpecRequestRow) : M FlowSpecManager unit :=
  apply_one now req.

(** ** The task *)

#[export] Instance flowspec_plane : Plane FlowSpecManager FlowMitigationEvent := {|
  pl_event ev now :=
    match ev with
    | FmOpen target frs => apply_open target frs now.1 now.2
    | FmUpdate target => apply_updated target now.1
    | FmClear target => apply_clear target now.1 now.2
    end;
  pl_disarm _ := disarm;
  pl_tick now := FlowSpecManager.tick now.1 now.2;
  pl_snapshot pm s := {|
    pm_protected := protected_skipped (controller s);
    pm_apply_failures := apply_failures s;
    pm_ratecapped := (λ _, ratecapped s) <$> pm_ratecapped pm;
    pm_reapply_pending := reapply_pending s |};
  pl_drain now := drain (R := FlowSpecRequestRow) now;
|}.

(** The insertion of a request by [flowspec add] and [flowspec remove]. *)
#[export] Instance flowspec_enqueue : Enqueue FlowSpecManager FlowSpecIntent := λ i,
  _id ← on_journal (with_store (enqueue_flowspec_request (fi_dst i) (fi_proto i) (fi_dst_port i)
                                  (fi_rate i) (fi_action i) (fi_created_by i)));
  mret ().

Definition flowspec_manager_task (evs : list ((nat → Z * Z) * TaskEvent FlowMitigationEvent))
    : M (Task FlowSpecManager) unit := manager_task evs.
End daemon.

(** ** What applying requests does *)

Section apply.
Context `{IpNetLib} `{HashOrder} `{Postgres}.

(** A server that answers, with the requests [l] and the next identifier [q]. *)
Definition answering (l : list FlowSpecRequestRow) (q : Z) (s : Store) : Prop :=
  st_script s = [] ∧ db_fs_requests (st_db s) = l ∧ db_fs_request_seq (st_db s) = q.

(** A journal whose writes leave the requests alone. *)
Class RequestsKept (J : Type) `{!FlowSpecJournal J} `{!SharedStore J} := {
  announce_kept : ∀ l q r o at_, preserves (λ j, answering l q (store_of j)) (fj_record_announce r o at_);
  withdraw_kept : ∀ l q r at_, preserves (λ j, answering l q (store_of j)) (fj_record_withdraw r at_);
}.

Lemma fs_execute_kept l q f :
  (∀ d d', f d = Some d' →
     db_fs_requests d' = db_fs_requests d ∧ db_fs_request_seq d' = db_fs_request_seq d) →
  preserves (answering l q) (execute f).
Proof.
  intros Hf s (Hn & Hl & Hq). unfold execute.
  pose proof (statement_script (λ d, (λ d', ((), d')) <$> f d) s) as Hs.
  destruct (statement_spec (λ d, (λ d', ((), d')) <$> f d) s) as [(u & d & _ & He & Hd)|[_ Hd]];
    (split; [by rewrite Hs, Hn|]); rewrite Hd; [|done].
  destruct (f (st_db s)) as [d'|] eqn:E; [|done]. injection He as _ <-. by destruct (Hf _ _ E) as [-> ->].
Qed.

#[export] Instance Store_fs_requests_kept : RequestsKept Store.
Proof.
  split; intros l q [d p o [rate]]; intros;
    cbn [fj_record_announce fj_record_withdraw Store_flowspec_journal store_of Store_shared flatten_flowspec
         action];
    (eapply triple_bind; [apply (fs_execute_kept l q)|intros r; by intros s Hs]); intros d1 d2.
  - destruct (negb _ || negb _); [done|]. by destruct (existsb _ _); intros [= <-].
  - destruct (ts_ok _); [|done]. by intros [= <-].
Qed.

#[export] Instance ShadowStore_fs_requests_kept : RequestsKept ShadowStore.
Proof. split; intros; by intros s Hs. Qed.

Context {B J : Type} `{!BgpExecutor B} `{!BgpSpec B} `{!FlowSpecJournal J} `{!SharedStore J}
        `{!RequestsKept J}.

#[local] Abbreviation FlowSpecManager := (Manager FlowSpecController B J MirrorOp ReapplyOp).

Definition requests_of (s : FlowSpecManager) : list FlowSpecRequestRow :=
  db_fs_requests (st_db (store_of (journal s))).
Definition request_seq (s : FlowSpecManager) : Z := db_fs_request_seq (st_db (store_of (journal s))).

(** The key of the rule of a request. *)
Definition rule_key (k : IpAddr * Z * Z) : FlowKey := (host_prefix k.1.1, k.1.2, k.2).

Definition in_force (s : FlowSpecManager) (k : IpAddr * Z * Z) : option FlowSpecRule :=
  rules (controller s) !! rule_key k.

Lemma rule_key_inj k k' : rule_key k = rule_key k' → k = k'.
Proof. destruct k as [[] ?], k' as [[] ?]. unfold rule_key. cbn. by intros [= ->%host_prefix_inj -> ->]. Qed.

Lemma key_of_request r : key_of (request_rule r) = rule_key (rq_key r).
Proof. done. Qed.

(** Protocol and port of a row fit their types. *)
Definition row_fits (r : FlowSpecRequestRow) : Prop :=
  0 ≤ fq_proto r ≤ u8_max ∧ 0 ≤ fq_dst_port r ≤ u16_max.

(** The invariant of the manager over a server that answers and whose next
    request has the identifier [q]. *)
Definition serving (clean : Prop) (q : Z) (s : FlowSpecManager) : Prop :=
  minv clean (view_of s) ∧ st_script (store_of (journal s)) = [] ∧ request_seq s = q ∧
  Forall row_fits (requests_of s).

Lemma fs_serving_mop clean q o s :
  mop_wf o → serving clean q s →
  serving clean q (exec (run_mop o) s) ∧ requests_of (exec (run_mop o) s) = requests_of s.
Proof.
  intros Hwf (Hm & Hn & Hq & Hf).
  destruct (fs_journal_mop (λ j, answering (requests_of s) q (store_of j)) o
    (announce_kept _ _) (withdraw_kept _ _) s) as (Hn' & Hr' & Hq'); [done|].
  split; [|exact Hr']. split_and!; [by apply minv_fs_mop|done..|].
  unfold requests_of. by rewrite Hr'.
Qed.

Lemma fs_serving_add clean q r mono wall s :
  canonical r → serving clean q s →
  serving clean q (exec (apply_add r mono wall) s) ∧
  requests_of (exec (apply_add r mono wall) s) = requests_of s.
Proof.
  intros Hr Hs. pose proof (fs_serving_mop clean q (MAdd r mono wall) s Hr Hs) as Hm.
  cbn [run_mop] in Hm. by rewrite exec_bind in Hm.
Qed.

Lemma fs_store_journal {A} (m : M Store A) (s : FlowSpecManager) :
  store_of (journal (exec (on_journal (with_store m)) s)) = exec m (store_of (journal s)).
Proof. rewrite <-with_store_exec. done. Qed.

(** A statement that changes the statuses of rows. *)
Lemma fs_serving_update clean q p st n f (s : FlowSpecManager) :
  serving clean q s →
  f (st_db (store_of (journal s)))
  = Some (set_fs_requests (update p (set_fs_status st n) (requests_of s)) (request_seq s)
            (st_db (store_of (journal s)))) →
  let s' := exec (on_journal (with_store (execute f))) s in
  serving clean q s' ∧ requests_of s' = update p (set_fs_status st n) (requests_of s).
Proof.
  intros (Hm & Hscr & Hq & Hf) He s'.
  destruct (execute_answering f _ (store_of (journal s)) Hscr He) as (_ & Hs' & Hd).
  assert (requests_of s' = update p (set_fs_status st n) (requests_of s)) as Hreq.
  { unfold requests_of, s'. by rewrite fs_store_journal, Hd. }
  split; [|exact Hreq]. split_and!; [exact Hm|by unfold s'; rewrite fs_store_journal|..].
  - unfold request_seq, s'. by rewrite fs_store_journal, Hd.
  - rewrite Hreq. unfold update. apply Forall_fmap. eapply Forall_impl; [exact Hf|].
    intros r Hr. cbn. by destruct (p r).
Qed.

Lemma fs_rows_fit l : Forall row_fits l → rows_to_flowspec_requests l = Ok l.
Proof.
  induction 1 as [|r l [Hp Ho] _ IH]; [done|]. cbn [rows_to_flowspec_requests].
  unfold narrow_proto, narrow_port. rewrite !(proj2 (Z.leb_le _ _)) by lia. cbn [andb].
  rewrite IH. cbn. by destruct r.
Qed.

Definition flowspec_request_spec (clean : Prop)
    : RequestSpec FlowSpecManager FlowSpecRequestRow (IpAddr * Z * Z) (option FlowSpecRule).
Proof.
  refine {| rs_ok := serving clean; rs_table := requests_of; rs_eff := in_force;
            rs_force r e := ∃ r', e = Some r' ∧
              (r' = request_rule r ∨ action_eqb (action r') (action (request_rule r)) = true);
            rs_refused r e := ∀ r', e = Some r' →
              action_eqb (action r') (action (request_rule r)) = false;
            rs_absent e := e = None |}.
  - intros q r now s Hs s'.
    destruct (fs_serving_add clean q (request_rule r) now.1 now.2 s) as [? ?];
      [apply fs_host_canonical|done|].
    destruct (fs_apply_add_truthful (request_rule r) now.1 now.2 s) as (Hap & Hna & Hoth & _).
    pose proof (fs_apply_add_same (request_rule r) now.1 now.2 s) as Hsame.
    subst s'. cbn [ro_add flowspec_requests] in *. rewrite key_of_request in *.
    set (out := eval (apply_add _ _ _) s) in *. set (s' := exec (apply_add _ _ _) s) in *.
    assert (out ≠ Applied → ∀ r', in_force s' (rq_key r) = Some r' →
      action_eqb (action r') (action (request_rule r)) = false) as Href.
    { intros Hout r' Hr'. unfold in_force in Hr'. rewrite Hna in Hr' by done.
      apply not_true_iff_false. intros Hact. by apply Hout, (Hsame r'). }
    split_and!; [done..| |].
    + intros k Hk. apply Hoth. by intros ->%rule_key_inj.
    + destruct out; [|by apply Href..]. destruct (Hap eq_refl) as (e & He & _ & Hrule).
      exists (rule e). unfold in_force. by rewrite rules_lookup, He.
  - intros q r now s Hs s'.
    destruct (fs_serving_mop clean q (MRemove (request_rule r) now.1 now.2) s I Hs).
    subst s'. cbn [ro_remove flowspec_requests]. unfold in_force.
    split_and!; [done..| |]; [intros k Hk|]; rewrite fs_apply_remove_rules, key_of_request.
    + rewrite decide_False; [done|]. by intros ->%rule_key_inj.
    + by rewrite decide_True.
  - intros q id st n s Hs Hst Hn s'. subst s'. cbn [ro_status flowspec_requests].
    unfold set_flowspec_request_status. set (f := λ d : Db, _).
    destruct (fs_serving_update clean q (λ r, fq_id r =? id) st n f s Hs) as [Hs' Hr'];
      [|split_and!; [exact Hs'|exact Hr'|done]].
    subst f. cbn beta. by rewrite bool_decide_true, Hn.
  - intros q [[d p] o] id s Hs s'. subst s'. cbn [ro_supersede flowspec_requests fst snd].
    unfold supersede_pending_flowspec_adds. set (f := λ d : Db, _).
    destruct (fs_serving_update clean q _ "applied" (Some "superseded by remove") f s Hs eq_refl)
      as [Hs' Hr']. split_and!; [exact Hs'| |done]. rewrite Hr'. unfold tbl_supersede, update.
    apply list_fmap_ext. intros i r _. cbn [rq_key rq_action rq_status rq_id FlowSpecRequestRow_request].
    assert (bool_decide ((fq_dst r, fq_proto r, fq_dst_port r) = (d, p, o))
      = bool_decide (fq_dst r = d) && (fq_proto r =? p) && (fq_dst_port r =? o)) as ->; [|by rewrite !andb_assoc].
    destruct (bool_decide_reflect (fq_dst r = d)), (Z.eqb_spec (fq_proto r) p),
      (Z.eqb_spec (fq_dst_port r) o); cbn [andb]; (apply bool_decide_eq_true || apply bool_decide_eq_false);
      congruence.
  - intros q s Hs Ht s'. subst s'. pose proof Hs as (_ & Hscr & Hq & Hfit). cbn [ro_pending flowspec_requests].
    set (l := filter (λ r, fq_status r = "pending") (requests_of s)).
    assert (pending_flowspec_requests (store_of (journal s)) = (Ok l, store_of (journal s))) as Hp.
    { unfold pending_flowspec_requests, fetch, statement, bind_ok, mbind, M_bind. rewrite Hscr.
      cbn [head default]. fold (requests_of s).
      rewrite (merge_sort_by_id fs_request_le (λ r, fq_status r = "pending") (requests_of s)); [|done|done].
      fold l. unfold mret, M_ret. rewrite fs_rows_fit.
      - f_equal. destruct (store_of (journal s)); cbn in *; by subst.
      - apply Forall_forall. intros r [_ Hr]%list_elem_of_filter. rewrite Forall_forall in Hfit. auto. }
    assert (∀ s', store_of (journal s') = store_of (journal s) → view_of s' = view_of s →
      serving clean q s' ∧ requests_of s' = requests_of s) as Hsame.
    { intros s' Hj Hv. unfold serving, requests_of, request_seq in *. by rewrite Hj, Hv. }
    destruct (Hsame (exec (on_journal (with_store pending_flowspec_requests)) s)) as [Hs' Hr'];
      [rewrite fs_store_journal; unfold exec; by rewrite Hp|done|].
    split_and!; [|done..]. change (eval (on_journal ?m) s) with (eval m (journal s)).
    rewrite with_store_eval. unfold eval. by rewrite Hp.
  - intros r reason. apply reject_message_text.
Defined.

(** ** Runs of the task and of the operators *)

(** Distinct flows in one event, as the selection gives them. *)
Definition event_ok (ev : FlowMitigationEvent) : Prop :=
  match ev with
  | FmOpen t frs => NoDup (flow_key t <$> (tuple_of <$> frs))
  | _ => True
  end.

(** [u8] and [u16] arguments of the command line. *)
Definition intent_ok (i : FlowSpecIntent) : Prop :=
  0 ≤ fi_proto i ≤ u8_max ∧ 0 ≤ fi_dst_port i ≤ u16_max.

#[export] Instance flowspec_plane_spec clean :
  PlaneSpec (RequestSpec0 := flowspec_request_spec clean)
    FlowSpecManager FlowMitigationEvent FlowSpecRequestRow (IpAddr * Z * Z) (option FlowSpecRule)
    FlowSpecIntent.
Proof.
  refine {| ps_event_ok := event_ok; ps_intent_ok := intent_ok |}; try done.
  - intros q [t frs|t|t] now s Hev; cbn [pl_event flowspec_plane].
    + by apply (fs_serving_mop clean q (MOpen t frs now.1 now.2)).
    + by apply (fs_serving_mop clean q (MUpdated t now.1)).
    + by apply (fs_serving_mop clean q (MClear t now.1 now.2)).
  - intros q now s. by apply (fs_serving_mop clean q MDisarm).
  - intros q now s. by apply (fs_serving_mop clean q (MTick now.1 now.2)).
  - intros q [d p o rate a by_] s Hi Hs s'. subst s'. unfold pq_enqueue, flowspec_enqueue.
    rewrite exec_bind. change (exec (mret ?u) ?s) with s.
    cbn [fi_dst fi_proto fi_dst_port fi_rate fi_action fi_created_by rs_ok rs_table flowspec_request_spec].
    pose proof Hs as (Hm & Hscr & Hseq & Hfit). set (m := enqueue_flowspec_request _ _ _ _ _ _).
    destruct (bool_decide (a ∈ ["add"; "remove"]) && text_ok by_) eqn:Hok; [right|left].
    + set (row := {| fq_id := q; fq_dst := d; fq_proto := p; fq_dst_port := o; fq_rate := rate;
                     fq_action := a; fq_created_by := by_; fq_status := "pending"; fq_note := None |}).
      assert (exec m (store_of (journal s))
        = {| st_db := set_fs_requests (requests_of s ++ [row]) (q + 1) (st_db (store_of (journal s)));
             st_script := [] |}) as Hnew.
      { subst m. unfold enqueue_flowspec_request, statement, exec. rewrite Hscr. cbn [head default].
        rewrite Hok. cbn zeta. unfold request_seq in Hseq. by rewrite Hseq. }
      apply andb_true_iff in Hok as [Ha%bool_decide_eq_true _].
      assert (requests_of (exec (on_journal (with_store m)) s) = requests_of s ++ [row]) as Hreq.
      { unfold requests_of. by rewrite fs_store_journal, Hnew. }
      exists row. split_and!; [|done..]. split_and!; [exact Hm|..].
      * by rewrite fs_store_journal, Hnew.
      * unfold request_seq. by rewrite fs_store_journal, Hnew.
      * rewrite Hreq. apply Forall_app. split; [done|]. constructor; [exact Hi|constructor].
    + assert (exec m (store_of (journal s)) = store_of (journal s)) as Hsame.
      { subst m. unfold enqueue_flowspec_request, statement, exec. rewrite Hscr. cbn [head default].
        rewrite Hok. destruct (store_of (journal s)); cbn in *; by subst. }
      unfold serving, requests_of, request_seq in *. rewrite fs_store_journal, Hsame. done.
Defined.

(** What the last pending request [r] of a flow comes to. *)
Definition last_word (clean : Prop) (r : FlowSpecRequestRow) (s : FlowSpecManager) : Prop :=
  (fq_action r = "remove" →
     in_force s (rq_key r) = None ∧
     (clean → fs_rib (bgp s) !! key_nlri (rule_key (rq_key r)) = None) ∧
     ∀ row, row ∈ requests_of s → rq_key row = rq_key r → fq_status row ≠ "pending") ∧
  (fq_action r = "add" →
     ∃ row, row ∈ requests_of s ∧ fq_id row = fq_id r ∧
       ((fq_status row = "applied" ∧
         ∃ r', in_force s (rq_key r) = Some r' ∧
           (r' = request_rule r ∨ action_eqb (action r') (action (request_rule r)) = true) ∧
           (fs_rib (bgp s) !! key_nlri (rule_key (rq_key r)) = Some r' ∨
            rule_key (rq_key r) ∈ ra_key <$> pending_reapply s)) ∨
        (fq_status row ∈ ["pending"; "rejected"] ∧
         ∀ r', in_force s (rq_key r) = Some r' →
           action_eqb (action r') (action (request_rule r)) = false))).

Lemma fs_settled_last_word clean q r s :
  serving clean q s → settled (RequestSpec0 := flowspec_request_spec clean) r s →
  (fq_action r = "remove" → ∀ row, row ∈ requests_of s → rq_key row = rq_key r →
     fq_status row ≠ "pending") →
  last_word clean r s.
Proof.
  intros ((_ & Hb & _ & Hcl) & _) (row & Hrow & Hid & Hk & Hrem & Hadd) Hgone.
  cbn [v_ctl v_rib v_queue view_of] in *. split.
  - intros Ha. destruct (Hrem Ha) as (Habs & _ & _). cbn [rs_absent rs_eff flowspec_request_spec] in Habs.
    split_and!; [exact Habs| |by apply Hgone].
    intros [_ Hs]%Hcl. destruct (fs_rib (bgp s) !! _) as [r'|] eqn:Hrib; [|done].
    destruct (Hs _ _ Hrib) as (k & <-%fs_key_nlri_inj & [r0 Hr0]). unfold in_force in Habs. congruence.
  - intros Ha. exists row. split_and!; [done..|]. destruct (Hadd Ha) as [[Hst Hfor]|[Hst Href]].
    + left. split; [done|]. destruct Hfor as (r' & Hr' & Hact). exists r'. split_and!; [done..|].
      destruct (Hb (rule_key (rq_key r)) r') as (_ & _ & ?); [set_solver|exact Hr'|done].
    + right. by split.
Qed.

(** The operator's last word wins on FlowSpec rules too. From any reachable
    state, over a database that answers, after any sequence of mitigation
    events with distinct flows, ticks, disarms and queued requests, a tick of
    the task settles every flow with pending requests according to its last
    one: after a [remove] no rule for the flow is in force or (when
    withdrawals succeed) in the routing table, and none of its requests is
    pending; after an [add] either the row says [applied] and a rule with the
    requested action is in force, announced or queued for announcement, or the
    row stays [pending] or says [rejected] and no rule with that action is. *)
Theorem fs_last_word cfg b j lim s pm os now :
  mreachable cfg b j lim s → st_script (store_of (journal s)) = [] →
  table_ok (request_seq s) (requests_of s) → Forall row_fits (requests_of s) →
  Forall (λ o, match o with
               | STurn _ (TRecv (Some ev)) => event_ok ev
               | SEnqueue i => intent_ok i
               | _ => True
               end) os →
  let t1 := exec (run_steps os) (task_new s pm) in
  let t2 := exec (run_step (STurn now TTick)) t1 in
  table_ok (request_seq (tk_state t2)) (requests_of (tk_state t2)) ∧
  (tk_running t1 = true → ∀ k r,
    last (filter (λ r, rq_key r = k)
            (filter (λ r, fq_status r = "pending") (requests_of (tk_state t1)))) = Some r →
    last_word (fs_withdraw_ok (B := B) ∧ fs_rib b = ∅) r (tk_state t2)).
Proof.
  intros Hr Hn Hd Hfit Hos t1 t2. set (clean := fs_withdraw_ok ∧ fs_rib b = ∅).
  pose (spec := flowspec_request_spec clean).
  assert (plane_inv (RequestSpec0 := spec) (tk_state t1)) as Hi.
  { apply (plane_inv_steps (RequestSpec0 := spec)); [exact Hos|]. exists (request_seq s).
    split; [|exact Hd]. split_and!; [by eapply fs_mreachable_minv|done..]. }
  destruct (plane_inv_step (RequestSpec0 := spec) (STurn now TTick) t1 I Hi) as (q & Hs & Ht).
  split. { destruct Hs as (_ & _ & Hq & _). unfold t2. by rewrite Hq. }
  intros Hrun k r Hl.
  destruct (tick_last_word (RequestSpec0 := spec) now t1 Hi Hrun k r Hl) as [Hset Hgone].
  apply (fs_settled_last_word clean q); [exact Hs|exact Hset|].
  apply last_Some_elem_of, list_elem_of_filter in Hl as [Hk _].
  intros Ha row Hrow Hk'. apply (Hgone Ha row Hrow). by rewrite <-Hk.
Qed.
End apply.

(** ** The start of a live manager *)

Section start.
Context `{IpNetLib} `{HashOrder} `{Postgres} {B : Type} `{!BgpExecutor B}.

#[local] Abbreviation FlowSpecManager := (Manager FlowSpecController B Store MirrorOp ReapplyOp).

Definition rehydrate_of (row : FlowSpecRuleRow) : FlowSpecRule * Z * BlackholeOrigin :=
  ({| dst := host_prefix (Store.fr_dst row); protocol := Some (Store.fr_proto row);
      dst_port := Some (Store.fr_dst_port row); action := TrafficRate (Store.fr_rate row) |},
   fr_announced_at row, if decide (fr_origin row = "manual") then Manual else Auto).

(** The live branch of the wiring, with the limiter of the RTBH block. *)
Definition flowspec_start (policy : Policy) (rp : RtbhPolicy) (fs : FlowSpecPolicy) (b : B)
    (lim : ArmingRateLimiter) (mono_now : Z) : M Store (result FlowSpecManager StateError) := λ st,
  let manager := manager_new (controller_new (flowspec_config_from policy fs)) b st lim in
  let manager := if decide (is_Some (rp_max_new_per_min rp)) then with_rate_limiter manager
                 else manager in
  let mirror := eval list_active_flowspec st in
  let st := exec list_active_flowspec st in
  match mirror with
  | Ok mirror =>
      let manager := exec (rehydrate (rehydrate_of <$> mirror) mono_now) (set_journal st manager) in
      (Ok manager, journal manager)
  | Err e => (Err e, st)
  end.
End start.

(** ** Examples *)

#[local] Existing Instance RefNet.lib.
#[local] Existing Instance RefNet.order.
#[local] Existing Instance RefPg.pg.

Definition fd_start : Manager FlowSpecController Scripted Store MirrorOp ReapplyOp :=
  manager_new (controller_new fs_ex_cfg) (scripted [false]) (st_new []) (limiter_new 5).
Definition fd_intent (a : string) : FlowSpecIntent := {|
  fi_dst := fs_ex_target; fi_proto := 17; fi_dst_port := 53; fi_rate := f32_zero; fi_action := a;
  fi_created_by := "op" |}.
Definition fd_steps : list (PlaneStep FlowMitigationEvent FlowSpecIntent) :=
  [SEnqueue (fd_intent "remove"); SEnqueue (fd_intent "add")].
Definition fd_add : FlowSpecRequestRow := {|
  fq_id := 2; fq_dst := fs_ex_target; fq_proto := 17; fq_dst_port := 53; fq_rate := f32_zero;
  fq_action := "add"; fq_created_by := "op"; fq_status := "pending"; fq_note := None |}.
Definition fd_clock (i : nat) : Z * Z := (1000 + Z.of_nat i, 5000 + Z.of_nat i).
Definition fd_metrics : PlaneMetrics := {|
  pm_protected := 0; pm_apply_failures := 0; pm_ratecapped := Some 0; pm_reapply_pending := 0 |}.

(** The announcement of the [add] fails: its row stays pending. *)
Lemma fs_last_word_witness :
  let t1 := exec (run_steps fd_steps) (task_new fd_start fd_metrics) in
  let t2 := exec (run_step (STurn fd_clock TTick)) t1 in
  last_word (fs_withdraw_ok (B := Scripted) ∧ fs_rib (scripted [false]) = ∅) fd_add (tk_state t2) ∧
  fq_status <$> requests_of (tk_state t2) = ["applied"; "pending"].
Proof.
  split; [|vm_refl].
  refine (proj2 (fs_last_word fs_ex_cfg (scripted [false]) (st_new []) (limiter_new 5)
    fd_start fd_metrics fd_steps fd_clock _ _ _ _ _) _ (fs_ex_target, 17, 53) fd_add _).
  - apply mreach_new.
  - reflexivity.
  - split; [split; constructor|split; [intros ? ? ?%not_elem_of_nil; done|constructor]].
  - constructor.
  - repeat constructor; vm_compute; discriminate.
  - vm_refl.
  - vm_refl.
Defined.
