(* ===== verification/StoreXdp.v ===== *)
(** * The XDP tables of the state store

    Model of [crates/blackwall-state/src/xdp.rs]: the mirror of the active
    XDP entries, the queue of operator requests, and [PgXdpJournal], over the
    tables and statements of [Store]. The mirror discharges the interface
    [XdpJournalSpec] of the manager's journal: read back and mapped to actions
    as the daemon does on a restart, its rows are the entries whose last record
    is an installation, each with its parameters and its origin. *)
From stdpp Require Import prelude gmap strings sorting.
From S2P Require Import Prelude Net Core Flow Store XdpControl XdpManager XdpMirror.

Open Scope Z_scope.

(** [Option::map(T::try_from).transpose()] on a [u64] written to, or an [i64]
    read from, a BIGINT column; [None] is the error. *)
Definition opt_within (hi : Z) (v : option Z) : bool :=
  match v with Some x => (0 <=? x) && (x <=? hi) | None => true end.

Section store_xdp.
Context `{Postgres} `{IpNetLib} `{HashOrder}.

(** The identity of an entry: [kind], [target] and [prefixlen]. *)
Definition same_entry (kind : string) (target : IpAddr) (prefixlen : option Z) (r : XdpEntryRow) : bool :=
  bool_decide (xe_kind r = kind) && bool_decide (xe_target r = target) &&
  bool_decide (xe_prefixlen r = prefixlen).

Definition delete_entry (kind : string) (target : IpAddr) (prefixlen : option Z)
    : M Store (result unit StateError) :=
  execute (λ d, Some (set_xdp
    (filter (λ r, same_entry kind target prefixlen r = false) (db_xdp_entries d))
    (db_xdp_requests d) (db_xdp_request_seq d) d)).

Definition insert_entry (r : XdpEntryRow) : M Store (result unit StateError) :=
  execute (λ d,
    if bool_decide (xe_kind r ∈ ["block"; "rate_limit"]) &&
       bool_decide (xe_origin r ∈ ["auto"; "manual"]) then
      Some (set_xdp (db_xdp_entries d ++ [r]) (db_xdp_requests d) (db_xdp_request_seq d) d)
    else None).

Definition xdp_record_apply (kind : string) (target : IpAddr) (prefixlen rate_pps burst : option Z)
    (origin : string) (victim : option IpAddr) : M Store (result unit StateError) :=
  if opt_within i64_max rate_pps && opt_within i64_max burst then
    transaction (
      bind_ok (delete_entry kind target prefixlen) (λ _,
      insert_entry {| xe_kind := kind; xe_target := target; xe_prefixlen := prefixlen;
                      xe_rate_pps := rate_pps; xe_burst := burst; xe_origin := origin;
                      xe_victim := victim |}))
  else mret (Err Db_).

Definition xdp_record_remove (kind : string) (target : IpAddr) (prefixlen : option Z)
    : M Store (result unit StateError) := delete_entry kind target prefixlen.

(** A column of a row as the integer type it is read to. *)
Fixpoint decode_entries (rows : list XdpEntryRow) : result (list XdpEntryRow) StateError :=
  match rows with
  | [] => Ok []
  | r :: rows =>
      if opt_within u8_max (xe_prefixlen r) && opt_within i64_max (xe_rate_pps r) &&
         opt_within i64_max (xe_burst r) then
        result_bind (decode_entries rows) (λ out, Ok (r :: out))
      else Err Db_
  end.

Definition xdp_active : M Store (result (list XdpEntryRow) StateError) :=
  bind_ok (fetch db_xdp_entries) (λ rows, mret (decode_entries rows)).

(** ** Requests *)

Definition xdp_enqueue_request (action : string) (target : IpAddr) (prefixlen rate_pps burst : option Z)
    (created_by : string) : M Store (result Z StateError) :=
  if opt_within i64_max rate_pps && opt_within i64_max burst then
    statement (λ d,
      if bool_decide (action ∈ ["block"; "unblock"; "rate_limit"; "clear_rate"]) && text_ok created_by then
        let id := db_xdp_request_seq d in
        Some (id, set_xdp (db_xdp_entries d)
                    (db_xdp_requests d ++ [{| xr_id := id; xr_action := action; xr_target := target;
                       xr_prefixlen := prefixlen; xr_rate_pps := rate_pps; xr_burst := burst;
                       xr_created_by := created_by; xr_status := "pending" |}]) (id + 1) d)
      else None)
  else mret (Err Db_).

Definition xdp_request_le (r1 r2 : XdpRequestRow) : Prop := xr_id r1 ≤ xr_id r2.
#[export] Instance xdp_request_le_dec : RelDecision xdp_request_le.
Proof. intros r1 r2. unfold xdp_request_le. solve_decision. Defined.

Fixpoint decode_requests (rows : list XdpRequestRow) : result (list XdpRequestRow) StateError :=
  match rows with
  | [] => Ok []
  | r :: rows =>
      if opt_within u8_max (xr_prefixlen r) && opt_within i64_max (xr_rate_pps r) &&
         opt_within i64_max (xr_burst r) then
        result_bind (decode_requests rows) (λ out, Ok (r :: out))
      else Err Db_
  end.

Definition xdp_pending_requests : M Store (result (list XdpRequestRow) StateError) :=
  bind_ok (fetch (λ d, merge_sort xdp_request_le (filter (λ r, xr_status r = "pending") (db_xdp_requests d))))
    (λ rows, mret (decode_requests rows)).

Definition set_xr_status (status : string) (r : XdpRequestRow) : XdpRequestRow :=
  {| xr_id := xr_id r; xr_action := xr_action r; xr_target := xr_target r;
     xr_prefixlen := xr_prefixlen r; xr_rate_pps := xr_rate_pps r; xr_burst := xr_burst r;
     xr_created_by := xr_created_by r; xr_status := status |}.

Definition xdp_mark_request (id : Z) (status : string) : M Store (result unit StateError) :=
  execute (λ d,
    if bool_decide (status ∈ ["pending"; "applied"; "rejected"]) then
      Some (set_xdp (db_xdp_entries d) (update (λ r, xr_id r =? id) (set_xr_status status) (db_xdp_requests d))
              (db_xdp_request_seq d) d)
    else None).

(** ** The journal *)

Definition origin_str (o : XdpOrigin) : string := match o with Auto => "auto" | Manual => "manual" end.

Definition xdp_record (a : XdpAction) (o : XdpOrigin) : M Store (result unit StateError) :=
  match a with
  | Block net => xdp_record_apply "block" (net_addr net) (Some (net_prefix_len net)) None None
                   (origin_str o) None
  | RateLimit src pps burst victim =>
      xdp_record_apply "rate_limit" src None (Some pps) (Some burst) (origin_str o) victim
  | Unblock net => xdp_record_remove "block" (net_addr net) (Some (net_prefix_len net))
  | ClearRate src => xdp_record_remove "rate_limit" src None
  end.

(** [impl XdpJournal for PgXdpJournal]; the time is not used. *)
#[export] Instance PgXdpJournal_journal : XdpJournal Store := {|
  xj_record a o _ := r ← xdp_record a o;
    mret match r with Ok u => Ok u | Err _ => Err (mk_XdpJournalError "database error") end;
|}.

(** ** The rows as actions *)

(** [xdp_net_from] of the daemon. *)
Definition xdp_net_from (target : IpAddr) (prefixlen : option Z) : option IpNet :=
  match prefixlen with
  | Some len => net_new target len
  | None => Some (host_prefix target)
  end.

(** [xdp_entry_to_action] of the daemon. *)
Definition xdp_entry_to_action (row : XdpEntryRow) : option (XdpAction * XdpOrigin) :=
  let origin := if decide (xe_origin row = "manual") then Manual else Auto in
  if decide (xe_kind row = "block") then
    net ← xdp_net_from (xe_target row) (xe_prefixlen row);
    Some (Block net, origin)
  else if decide (xe_kind row = "rate_limit") then
    pps ← xe_rate_pps row;
    Some (RateLimit (xe_target row) pps (default pps (xe_burst row)) (xe_victim row), origin)
  else None.

(** ** The mirror as a journal *)

(** The row of an installation. *)
Definition entry_row (ao : XdpAction * XdpOrigin) : XdpEntryRow :=
  match ao.1 with
  | Block net | Unblock net =>
      {| xe_kind := "block"; xe_target := net_addr net; xe_prefixlen := Some (net_prefix_len net);
         xe_rate_pps := None; xe_burst := None; xe_origin := origin_str ao.2; xe_victim := None |}
  | RateLimit src p b v =>
      {| xe_kind := "rate_limit"; xe_target := src; xe_prefixlen := None; xe_rate_pps := Some p;
         xe_burst := Some b; xe_origin := origin_str ao.2; xe_victim := v |}
  | ClearRate src =>
      {| xe_kind := "rate_limit"; xe_target := src; xe_prefixlen := None; xe_rate_pps := None;
         xe_burst := None; xe_origin := origin_str ao.2; xe_victim := None |}
  end.

Lemma net_new_proj (net : IpNet) : net_new (net_addr net) (net_prefix_len net) = Some net.
Proof.
  destruct (net_new_ok (net_addr net) (net_prefix_len net) (net_len_bound net)) as (p & -> & Ha & Hl).
  f_equal. by apply net_ext.
Qed.

Lemma entry_row_action a o : is_install a = true → xdp_entry_to_action (entry_row (a, o)) = Some (a, o).
Proof.
  intros Hi. unfold xdp_entry_to_action. destruct a as [src p b v|net|net|src]; try done; cbn.
  - by destruct o.
  - rewrite net_new_proj. by destruct o.
Qed.

(** A row is deleted by the record of an action with its key. *)
Lemma same_entry_key a o b o' :
  is_install b = true →
  same_entry (xe_kind (entry_row (a, o))) (xe_target (entry_row (a, o))) (xe_prefixlen (entry_row (a, o)))
    (entry_row (b, o')) = bool_decide (mirror_key_of a = mirror_key_of b).
Proof.
  intros Hb. unfold same_entry. apply eq_bool_prop_intro.
  rewrite !andb_True, !bool_decide_spec.
  destruct a, b; try done; cbn; (split; [intros [[? ?] ?]|intros ?]); try done; simplify_eq;
    try done; f_equal; by apply net_ext.
Qed.

(** The mirror the journal has written: installations, one per key. *)
Definition log_ok (l : list (XdpAction * XdpOrigin)) : Prop :=
  Forall (λ ao, is_install ao.1 = true ∧ fits ao.1) l ∧ NoDup ((λ ao, mirror_key_of ao.1) <$> l).

Definition entries_ok (rows : list XdpEntryRow) : Prop := ∃ l, rows = entry_row <$> l ∧ log_ok l.

Definition actions_of (rows : list XdpEntryRow) : list (XdpAction * XdpOrigin) :=
  omap xdp_entry_to_action rows.

Definition row_at (rows : list XdpEntryRow) (k : MirrorKey) : option (XdpAction * XdpOrigin) :=
  head (filter (λ ao, mirror_key_of ao.1 = k) (actions_of rows)).

Definition log_record (a : XdpAction) (o : XdpOrigin) (l : list (XdpAction * XdpOrigin))
    : list (XdpAction * XdpOrigin) :=
  filter (λ ao, mirror_key_of ao.1 ≠ mirror_key_of a) l ++ (if is_install a then [(a, o)] else []).

Lemma actions_of_log l : log_ok l → actions_of (entry_row <$> l) = l.
Proof.
  intros [Hl _]. unfold actions_of. induction Hl as [|[a o] l [Hi _] Hl IH]; [done|].
  cbn [fmap list_fmap]. cbn. rewrite entry_row_action by done. cbn. by rewrite IH.
Qed.

Lemma log_ok_record a o l : fits a → log_ok l → log_ok (log_record a o l).
Proof.
  intros Hf [Hl Hnd]. unfold log_record. split.
  - apply Forall_app. split.
    + rewrite Forall_forall in Hl |- *. intros ao [_ Hao]%list_elem_of_filter. by apply Hl.
    + destruct (is_install a) eqn:Hi; [|constructor]. by repeat constructor.
  - rewrite fmap_app. apply NoDup_app. split_and!.
    + by apply NoDup_fmap_filter.
    + intros k (ao & -> & [Hne _]%list_elem_of_filter)%list_elem_of_fmap Hin.
      destruct (is_install a); [|by apply elem_of_nil in Hin].
      apply list_elem_of_singleton in Hin. by cbn in Hin.
    + destruct (is_install a); [apply NoDup_singleton|constructor].
Qed.

Lemma row_at_record a o l k :
  fits a → log_ok l →
  row_at (entry_row <$> log_record a o l) k = record_rows a o (row_at (entry_row <$> l)) k.
Proof.
  intros Hf Hl. unfold row_at. rewrite !actions_of_log by (try apply log_ok_record; done).
  unfold log_record, record_rows, outcome. rewrite filter_app, list_filter_filter.
  destruct (decide (mirror_key_of a = k)) as [<-|Hne].
  - rewrite (filter_none _ l); [|rewrite Forall_forall; naive_solver]. cbn [app].
    destruct (is_install a); [|done]. rewrite filter_cons, decide_True by done. done.
  - rewrite (list_filter_iff _ (λ ao, mirror_key_of ao.1 = k)) by naive_solver.
    destruct (is_install a); [|by rewrite app_nil_r].
    rewrite filter_cons, decide_False by done. by rewrite filter_nil, app_nil_r.
Qed.

(** The rows a record of [a] leaves. *)
Lemma delete_entry_rows a o l :
  log_ok l →
  filter (λ r, same_entry (xe_kind (entry_row (a, o))) (xe_target (entry_row (a, o)))
                 (xe_prefixlen (entry_row (a, o))) r = false) (entry_row <$> l)
  = entry_row <$> filter (λ ao, mirror_key_of ao.1 ≠ mirror_key_of a) l.
Proof.
  intros [Hl _]. induction Hl as [|[b o'] l [Hi _] Hl IH]; [done|].
  rewrite fmap_cons, !filter_cons, same_entry_key, IH by done. cbn [fst].
  case_bool_decide as Hk; repeat case_decide; done || congruence.
Qed.

Lemma xdp_record_log a o (st : Store) l :
  st_script st = [] → db_xdp_entries (st_db st) = entry_row <$> l → log_ok l → fits a →
  let st' := exec (xdp_record a o) st in
  eval (xdp_record a o) st = Ok () ∧ st_script st' = [] ∧
  st_db st' = set_xdp (entry_row <$> log_record a o l) (db_xdp_requests (st_db st))
                (db_xdp_request_seq (st_db st)) (st_db st).
Proof.
  intros Hn Hrows Hl Hf. pose proof (delete_entry_rows a o l Hl) as Hdel.
  unfold log_record. rewrite fmap_app, <-Hdel, <-Hrows. clear Hdel Hrows.
  destruct st as [d script]. cbn in Hn. subst script.
  assert (∀ v, rate_fits v → opt_within i64_max (Some v) = true) as Hw.
  { intros v [? ?]. unfold opt_within, i64_max. rewrite andb_true_iff, !Z.leb_le. lia. }
  destruct a as [src p b v|net|net|src]; unfold xdp_record, xdp_record_apply, xdp_record_remove.
  - destruct Hf as [Hp Hb]. rewrite !Hw by done. destruct o; done.
  - destruct o; done.
  - cbn. by rewrite app_nil_r.
  - cbn. by rewrite app_nil_r.
Qed.

#[export] Instance PgXdpJournal_spec : XdpJournalSpec Store.
Proof.
  refine {| xj_healthy := λ st, st_script st = [] ∧ entries_ok (db_xdp_entries (st_db st));
            xj_rows := λ st, row_at (db_xdp_entries (st_db st)) |}.
  intros a o wall st [Hn (l & Hrows & Hl)] Hf. cbn [xj_record PgXdpJournal_journal].
  rewrite exec_bind, eval_bind. change (exec (mret ?u) ?s) with s. change (eval (mret ?u) ?s) with u.
  destruct (xdp_record_log a o st l Hn Hrows Hl Hf) as (-> & Hn' & ->). split_and!; [done..| |].
  - exists (log_record a o l). split; [done|by apply log_ok_record].
  - intros k. rewrite Hrows. by apply row_at_record.
Defined.

(** The mirror is read back as it was written. *)
Lemma decode_entries_log l : log_ok l → decode_entries (entry_row <$> l) = Ok (entry_row <$> l).
Proof.
  intros [Hl _]. induction Hl as [|[a o] l [Hi Hf] Hl IH]; [done|]. rewrite fmap_cons. cbn [decode_entries].
  assert (∀ v, rate_fits v → opt_within i64_max (Some v) = true) as Hw.
  { intros v [? ?]. unfold opt_within, i64_max. rewrite andb_true_iff, !Z.leb_le. lia. }
  cbn [fst] in Hi, Hf. rewrite IH. destruct a as [src p b v|net|net|src]; try done; cbn [entry_row fst snd].
  - destruct Hf as [Hp Hb]. cbn [xe_prefixlen xe_rate_pps xe_burst]. by rewrite !Hw.
  - cbn [xe_prefixlen xe_rate_pps xe_burst]. pose proof (net_len_bound net).
    assert (opt_within u8_max (Some (net_prefix_len net)) = true) as ->; [|done].
    unfold opt_within, u8_max. rewrite andb_true_iff, !Z.leb_le.
    destruct (net_addr net); cbn in *; lia.
Qed.

Lemma xdp_active_log (st : Store) l :
  st_script st = [] → db_xdp_entries (st_db st) = entry_row <$> l → log_ok l →
  eval xdp_active st = Ok (entry_row <$> l) ∧ exec xdp_active st = st.
Proof.
  intros Hn Hrows Hl. destruct st as [d script]. cbn in Hn, Hrows. subst script.
  split; [|done]. rewrite <-(decode_entries_log l Hl), <-Hrows. done.
Qed.

Lemma row_at_elem l k ao : log_ok l →
  row_at (entry_row <$> l) k = Some ao ↔ ao ∈ l ∧ mirror_key_of ao.1 = k.
Proof.
  intros Hl. unfold row_at. rewrite actions_of_log by done. destruct Hl as [_ Hnd]. split.
  - intros Hh. apply head_Some_elem_of in Hh. apply list_elem_of_filter in Hh as [? ?]. done.
  - intros [Hin Hk]. induction l as [|x l IH]; [by apply elem_of_nil in Hin|].
    rewrite fmap_cons in Hnd. apply NoDup_cons in Hnd as [Hni Hnd]. rewrite filter_cons.
    apply elem_of_cons in Hin as [->|Hin]; [by rewrite decide_True|].
    rewrite decide_False; [by apply IH|]. intros Heq. apply Hni. rewrite Heq, <-Hk.
    by apply (list_elem_of_fmap_2 (λ ao, mirror_key_of ao.1)).
Qed.
End store_xdp.
