(* ===== verification/DaemonXdp.v ===== *)
(** * The XDP plane of the daemon

    Model of the XDP part of [src/bin/blackwalld/src/main.rs]: the controller
    and the start of the live manager from the mirror in the store, the task
    that owns the manager ([xdp_manager_task], the loop of [Requests] over the
    operations of this plane) and the code that applies one request
    ([apply_xdp_request]). The theorems: a restart restores the active set, and
    a request is marked for what happened to it. *)
From stdpp Require Import prelude gmap strings sorting.
From S2P Require Import Prelude Net Float Core Flow NetText Store Requests.
From S2P Require Import XdpControl XdpManager XdpMirror XdpMaps XdpDataplane StoreXdp.

Open Scope Z_scope.

Definition XDP_MAX_ENTRIES : nat := Z.to_nat 65536.

Section daemon.
Context `{IpNetLib} `{HashOrder} `{Postgres}.

Definition auto_enabled (cfg : XdpConfig) : bool := bool_decide (is_Some (xc_default_rate_limit_pps cfg)).

Definition xdp_controller (policy : Policy) (cfg : XdpConfig) : XdpController :=
  controller_new (Core.prefixes policy) XDP_MAX_ENTRIES (default 1 (xc_default_rate_limit_pps cfg))
    (Core.protected_prefixes policy).

Context {E J : Type} `{!XdpExecutor E} `{!XdpJournal J} `{!SharedStore J}.

#[local] Abbreviation DaemonXdpManager := (XdpManager (E := E) (J := J)).

(** ** Requests *)

Definition on_store {A} (m : M Store A) : M DaemonXdpManager A := on_journal (with_store m).

(** The closure [mark]: a failure is logged. *)
Definition mark (id : Z) (status : string) : M DaemonXdpManager unit :=
  _res ← on_store (xdp_mark_request id status); mret ().

(** The status a request to install gets. *)
Definition mark_outcome (id : Z) (out : ApplyOutcome) : M DaemonXdpManager unit :=
  match out with
  | Applied => mark id "applied"
  | Deferred => mret ()
  | Rejected _ => mark id "rejected"
  end.

Definition apply_xdp_request (wall_now : Z) (req : XdpRequestRow) : M DaemonXdpManager unit :=
  if decide (xr_action req = "block") then
    match xdp_net_from (xr_target req) (xr_prefixlen req) with
    | None => mark (xr_id req) "rejected"
    | Some net => out ← apply_add net wall_now; mark_outcome (xr_id req) out
    end
  else if decide (xr_action req = "unblock") then
    match xdp_net_from (xr_target req) (xr_prefixlen req) with
    | None => mark (xr_id req) "rejected"
    | Some net => _out ← apply_remove net wall_now; mark (xr_id req) "applied"
    end
  else if decide (xr_action req = "clear_rate") then
    _out ← apply_clear_rate (xr_target req) wall_now; mark (xr_id req) "applied"
  else if decide (xr_action req = "rate_limit") then
    match xr_rate_pps req with
    | None => mark (xr_id req) "rejected"
    | Some pps =>
        let burst := default pps (xr_burst req) in
        out ← apply_rate_limit (xr_target req) pps burst wall_now; mark_outcome (xr_id req) out
    end
  else mret ().

Fixpoint xdp_drain_from (now : nat → Z * Z) (i : nat) (reqs : list XdpRequestRow) : M DaemonXdpManager unit :=
  match reqs with
  | [] => mret ()
  | r :: reqs => apply_xdp_request (now i).2 r;; xdp_drain_from now (1 + i)%nat reqs
  end.

Definition xdp_drain (now : nat → Z * Z) : M DaemonXdpManager unit :=
  res ← on_store xdp_pending_requests;
  match res with
  | Ok reqs => xdp_drain_from now 0 reqs
  | Err _ => mret ()
  end.

(** ** The task *)

Definition xdp_plane (auto : bool) : Plane DaemonXdpManager DetectionEvent := {|
  pl_event ev now := if auto then manager_on_detection ev now.2 else mret ();
  pl_disarm _ := disarm;
  pl_tick _ := tick;
  pl_snapshot pm s := {|
    pm_protected := protected_skipped (controller s);
    pm_apply_failures := apply_failures s;
    pm_ratecapped := pm_ratecapped pm;
    pm_reapply_pending := reapply_pending s |};
  pl_drain now := xdp_drain now;
|}.

(** What the command line asks for. *)
Record XdpIntent := {
  xi_action : string; xi_target : IpAddr; xi_prefixlen : option Z; xi_rate_pps : option Z;
  xi_burst : option Z; xi_created_by : string;
}.

(** The insertion of a request by the [xdp] commands. *)
#[export] Instance xdp_enqueue : Enqueue DaemonXdpManager XdpIntent := λ i,
  _id ← on_store (xdp_enqueue_request (xi_action i) (xi_target i) (xi_prefixlen i) (xi_rate_pps i)
                    (xi_burst i) (xi_created_by i));
  mret ().

Definition xdp_manager_task (auto : bool) (evs : list ((nat → Z * Z) * TaskEvent DetectionEvent))
    : M (Task DaemonXdpManager) unit := manager_task (Plane0 := xdp_plane auto) evs.
End daemon.

(** The live branch of the wiring: the manager over the attached program and
    the mirror, which it resumes from; an error of the store ends the program. *)
Definition xdp_start `{IpNetLib} `{HashOrder} `{Postgres} {E} `{!XdpExecutor E} (policy : Policy)
    (cfg : XdpConfig) (e : E) : M Store (result (XdpManager (E := E) (J := Store)) StateError) := λ st,
  let r := eval xdp_active st in
  let st := exec xdp_active st in
  match r with
  | Ok rows =>
      let manager := manager_new (xdp_controller policy cfg) e st in
      let manager := exec (reapply_active (omap xdp_entry_to_action rows)) manager in
      (Ok manager, journal manager)
  | Err err => (Err err, st)
  end.

(** ** Restarts *)

Section restart.
Context `{IpNetLib} `{HashOrder} `{Postgres} {E : Type} `{!XdpExecutor E} `{!XdpSpec E}.

#[local] Abbreviation DaemonXdpManager := (XdpManager (E := E) (J := Store)).

(** A statement that leaves the mirror alone. *)
Definition keeps_mirror {A} (m : M Store A) : Prop := ∀ st, st_script st = [] →
  st_script (exec m st) = [] ∧ db_xdp_entries (st_db (exec m st)) = db_xdp_entries (st_db st).

Lemma mirrored_on_store {A} (m : M Store A) :
  keeps_mirror m → preserves (mirrored (E := E)) (on_store (J := Store) m).
Proof.
  intros Hm s [(Hd & [Hn Hok] & Hp & Hf & Hinv) Ha]. destruct (Hm (journal s) Hn) as [Hn' He].
  assert (journal (exec (on_store (J := Store) m) s) = exec m (journal s)) as Hj by done.
  split; [split_and!; try done|].
  - rewrite Hj. split; [done|]. by rewrite He.
  - intros k. unfold row_of. rewrite Hj. cbn [xj_rows PgXdpJournal_spec]. rewrite He. apply Ha.
Qed.

Lemma keeps_mirror_statement {A} (f : Db → option (A * Db)) :
  (∀ d a d', f d = Some (a, d') → db_xdp_entries d' = db_xdp_entries d) → keeps_mirror (statement f).
Proof.
  intros Hf st Hn. rewrite statement_script, Hn. split; [done|].
  destruct (statement_spec f st) as [(a & d & _ & Hs & ->)|[_ ->]]; [|done]. by eapply Hf.
Qed.

Lemma keeps_mirror_mark id status : keeps_mirror (xdp_mark_request id status).
Proof.
  apply keeps_mirror_statement. intros d a d'. case_bool_decide; [|done]. cbn. by intros [= _ <-].
Qed.

Lemma keeps_mirror_pending : keeps_mirror xdp_pending_requests.
Proof.
  intros st Hn. unfold xdp_pending_requests, bind_ok. rewrite exec_bind.
  set (m := fetch _). assert (keeps_mirror m) as Hm.
  { apply keeps_mirror_statement. by intros d a d' [= _ <-]. }
  specialize (Hm st Hn). by destruct (eval m st).
Qed.

Lemma mirrored_mark id status : preserves (mirrored (E := E)) (mark (J := Store) id status).
Proof.
  eapply triple_bind; [apply mirrored_on_store, keeps_mirror_mark|]. intros []; by intros s Hs.
Qed.

Lemma mirrored_mark_outcome id out : preserves (mirrored (E := E)) (mark_outcome (J := Store) id out).
Proof. destruct out; cbn [mark_outcome]; [apply mirrored_mark|by intros s Hs|apply mirrored_mark]. Qed.

(** The operation of a request, before its status is written. *)
Lemma mirrored_operation {A} o (m : M DaemonXdpManager A) :
  removals_answered (E := E) → in_service o → (∀ s, exec (run_mop o) s = exec m s) → preserves mirrored m.
Proof. intros Hrm Ho Hm s Hs. rewrite <-Hm. by apply xdp_mirrored_mop. Qed.

(** The numbers of a request that was read. *)
Definition request_fits (req : XdpRequestRow) : Prop :=
  opt_within i64_max (xr_rate_pps req) = true ∧ opt_within i64_max (xr_burst req) = true.

Lemma within_fits v : opt_within i64_max (Some v) = true → rate_fits v.
Proof. unfold opt_within, rate_fits, i64_max. rewrite andb_true_iff, !Z.leb_le. done. Qed.

Lemma mirrored_request wall req :
  removals_answered (E := E) → request_fits req → preserves (mirrored (E := E)) (apply_xdp_request (J := Store) wall req).
Proof.
  intros Hrm [Hp Hb]. unfold apply_xdp_request. repeat case_decide; [..|by intros s Hs].
  - destruct (xdp_net_from _ _) as [net|]; [|apply mirrored_mark].
    eapply triple_bind; [eapply (mirrored_operation (XAdd net wall)); [done..|]|
                         intros; apply mirrored_mark_outcome].
    intros s. cbn [run_mop]. by rewrite exec_bind.
  - destruct (xdp_net_from _ _) as [net|]; [|apply mirrored_mark].
    eapply triple_bind; [eapply (mirrored_operation (XRemove net wall)); [done..|]|
                         intros; apply mirrored_mark].
    intros s. cbn [run_mop]. by rewrite exec_bind.
  - eapply triple_bind; [eapply (mirrored_operation (XClearRate (xr_target req) wall)); [done..|]|
                         intros; apply mirrored_mark].
    intros s. cbn [run_mop]. by rewrite exec_bind.
  - destruct (xr_rate_pps req) as [p|]; [|apply mirrored_mark]. cbv zeta.
    eapply triple_bind; [|intros; apply mirrored_mark_outcome].
    apply (mirrored_operation (XRate (xr_target req) p (default p (xr_burst req)) wall)); [done| |].
    + split; [by apply within_fits|]. destruct (xr_burst req); by apply within_fits.
    + intros s. cbn [run_mop]. by rewrite exec_bind.
Qed.

Lemma decode_requests_fit rows reqs : decode_requests rows = Ok reqs → Forall request_fits reqs.
Proof.
  revert reqs. induction rows as [|r rows IH]; cbn; intros reqs; [by intros [= <-]|].
  destruct (_ && _) eqn:Hr; [|done]. rewrite !andb_true_iff in Hr. destruct Hr as [[_ ?] ?].
  destruct (decode_requests rows) as [out|]; [|done]. intros [= <-]. constructor; [done|by apply IH].
Qed.

Lemma pending_requests_fit st reqs : eval xdp_pending_requests st = Ok reqs → Forall request_fits reqs.
Proof.
  unfold xdp_pending_requests, bind_ok. rewrite eval_bind. set (m := fetch _).
  destruct (eval m st) as [rows|]; [|done]. apply decode_requests_fit.
Qed.

Lemma mirrored_drain now : removals_answered (E := E) → preserves (mirrored (E := E)) (xdp_drain (J := Store) now).
Proof.
  intros Hrm s Hs. unfold xdp_drain. rewrite exec_bind.
  change (eval (on_store xdp_pending_requests) s) with (eval xdp_pending_requests (journal s)).
  set (s1 := exec (on_store _) s).
  assert (mirrored s1) as Hs1 by exact (mirrored_on_store _ keeps_mirror_pending s Hs).
  destruct (eval xdp_pending_requests (journal s)) as [reqs|] eqn:Hr; [|done].
  apply pending_requests_fit in Hr. clearbody s1. clear s Hs. revert s1 Hs1. generalize 0%nat.
  induction Hr as [|r reqs Hfit _ IH]; intros i s Hs; cbn [xdp_drain_from]; [done|].
  rewrite exec_bind. apply IH. by apply mirrored_request.
Qed.

(** The signals that leave the manager armed. *)
Definition stays_armed (e : TaskEvent DetectionEvent) : Prop :=
  match e with TDisarm DisarmOk | TDisarm DisarmLagged => False | _ => True end.

Lemma mirrored_enqueue i : preserves (mirrored (E := E)) (pq_enqueue (S := DaemonXdpManager) i).
Proof.
  unfold pq_enqueue, xdp_enqueue. eapply triple_bind; [apply mirrored_on_store|intros a; by intros s Hs].
  unfold xdp_enqueue_request. destruct (_ && _); [|by intros st Hn].
  apply keeps_mirror_statement. intros d a d'. destruct (_ && _); [|done]. by intros [= _ <-].
Qed.

(** A turn of the task, or a request queued by the command line. *)
Definition xdp_step (auto : bool) (o : PlaneStep DetectionEvent XdpIntent)
    : M (Task DaemonXdpManager) unit := run_step (Plane0 := xdp_plane auto) o.

Definition step_armed (o : PlaneStep DetectionEvent XdpIntent) : Prop :=
  match o with STurn _ e => stays_armed e | SEnqueue _ => True end.

Lemma mirrored_turn auto now e (t : Task DaemonXdpManager) :
  removals_answered (E := E) → stays_armed e → mirrored (tk_state t) →
  mirrored (tk_state (exec (xdp_manager_task auto [(now, e)]) t)).
Proof.
  intros Hrm He Ht. unfold xdp_manager_task, manager_task. cbn [for_each]. rewrite !exec_bind.
  change (exec (mret ()) ?x) with x. change (eval (gets tk_running) t) with (tk_running t).
  change (exec (gets tk_running) t) with t. cbn [fst snd]. destruct (tk_running t); [|done].
  assert (∀ {A} (m : M DaemonXdpManager A) u, preserves mirrored m →
    mirrored (tk_state u) → mirrored (tk_state (exec (on_state m) u))) as Hon.
  { intros A m u Hm Hu. by apply Hm. }
  destruct e as [[ev|]|d|]; cbn [task_turn].
  - apply Hon; [|done]. cbn [pl_event xdp_plane]. destruct auto; [|by intros s Hs].
    apply (mirrored_operation (XDetect ev (now 0%nat).2)); done.
  - done.
  - rewrite exec_bind. change (eval (gets tk_disarm_open) t) with (tk_disarm_open t).
    destruct (tk_disarm_open t); [|done]. by destruct d.
  - rewrite !exec_bind. apply Hon; [by apply mirrored_drain|].
    apply (Hon _ tick); [|done]. by apply (mirrored_operation XTick).
Qed.

Lemma mirrored_steps auto os (t : Task DaemonXdpManager) :
  removals_answered (E := E) → Forall step_armed os → mirrored (tk_state t) →
  mirrored (tk_state (exec (for_each os (xdp_step auto)) t)).
Proof.
  intros Hrm Hos. apply (triple_for_each (λ t : Task DaemonXdpManager, mirrored (tk_state t))).
  intros o Ho. rewrite Forall_forall in Hos. specialize (Hos _ Ho).
  intros t' Ht. destruct o as [now e|i]; [by apply mirrored_turn|]. by apply mirrored_enqueue.
Qed.

(** ** Starting *)

Lemma reapply_row_view ao (s : DaemonXdpManager) :
  let s' := exec (reapply_row ao) s in
  journal s' = journal s ∧ pending_mirror s' = pending_mirror s ∧ disarmed s' = disarmed s ∧
  controller s' = exec (mark_resumed ao.1 ao.2) (controller s).
Proof.
  destruct ao as [a o]. unfold reapply_row, on_executor. rewrite exec_bind. msimp.
  by destruct (xdp_apply _ _) as [[] ?].
Qed.

Lemma active_resumed a o c k :
  is_install a = true → active_of (exec (mark_resumed a o) c) k = record_rows a o (active_of c) k.
Proof.
  intros Hi. unfold record_rows, outcome. rewrite Hi.
  destruct a as [src p b v|net|net|src]; try done; cbn [mirror_key_of].
  - destruct k as [x|n]; cbn [active_of]; [|by destruct v].
    replace (rate_limited (exec (mark_resumed (RateLimit src p b v) o) c))
      with (<[src := {| origin := o; pps := p; burst := b; victim := v |}]> (rate_limited c))
      by (by destruct v).
    destruct (decide (src = x)) as [->|Hne].
    + by rewrite decide_True, lookup_insert_eq.
    + rewrite decide_False by congruence. by rewrite lookup_insert_ne.
  - destruct k as [x|n]; cbn [active_of]; [done|].
    change (blocked_nets (exec (mark_resumed (Block net) o) c)) with (<[net := o]> (blocked_nets c)).
    destruct (decide (net = n)) as [->|Hne].
    + by rewrite decide_True, lookup_insert_eq.
    + rewrite decide_False by congruence. by rewrite lookup_insert_ne.
Qed.

Lemma reapply_active_view l (s : DaemonXdpManager) :
  log_ok l →
  let s' := exec (reapply_active l) s in
  journal s' = journal s ∧ pending_mirror s' = pending_mirror s ∧ disarmed s' = disarmed s ∧
  default_rate_pps (controller s') = default_rate_pps (controller s) ∧
  ∀ k, active_of (controller s') k
       = match row_at (entry_row <$> l) k with Some ao => Some ao | None => active_of (controller s) k end.
Proof.
  intros Hl. unfold row_at. rewrite actions_of_log by done. destruct Hl as [Hi Hnd]. revert s.
  induction Hi as [|[a o] l [Hi _] _ IH]; intros s; [done|]. rewrite fmap_cons in Hnd.
  apply NoDup_cons in Hnd as [Hni Hnd]. unfold reapply_active. rewrite exec_for_each_cons.
  change (for_each l reapply_row) with (reapply_active (E := E) (J := Store) l).
  destruct (reapply_row_view (a, o) s) as (Hj & Hp & Hd & Hc). cbn [fst snd] in *.
  destruct (IH Hnd (exec (reapply_row (a, o)) s)) as (Hj' & Hp' & Hd' & Hr' & Hk).
  split_and!; [congruence..| |].
  - etransitivity; [exact Hr'|]. rewrite Hc.
    pose proof (xdp_static_op (OpResume a o) (controller s)) as Hst. unfold static in Hst. by simplify_eq.
  - intros k. etransitivity; [apply Hk|]. rewrite Hc, active_resumed by done.
    rewrite filter_cons. unfold record_rows, outcome. rewrite Hi. cbn [fst].
    case_decide as Hkey; [|done]. subst k.
    rewrite filter_none; [done|]. rewrite Forall_forall. intros x Hx Heq. apply Hni. rewrite <-Heq.
    by apply (list_elem_of_fmap_2 (λ ao, mirror_key_of ao.1)).
Qed.

(** A database that answers, with a mirror that managers of this program
    wrote. *)
Definition mirror_sound (st : Store) : Prop :=
  st_script st = [] ∧
  ∃ l, db_xdp_entries (st_db st) = entry_row <$> l ∧ log_ok l ∧ Forall row_ok l.

Lemma xdp_start_view policy cfg (e : E) (st : Store) l :
  st_script st = [] → db_xdp_entries (st_db st) = entry_row <$> l → log_ok l →
  ∃ m, eval (xdp_start policy cfg e) st = Ok m ∧
    m = exec (reapply_active l) (manager_new (xdp_controller policy cfg) e st) ∧
    journal m = st ∧ pending_mirror m = [] ∧ disarmed m = false ∧
    default_rate_pps (controller m) = default 1 (xc_default_rate_limit_pps cfg) ∧
    ∀ k, active_of (controller m) k = row_at (entry_row <$> l) k.
Proof.
  intros Hn Hrows Hl. destruct (xdp_active_log st l Hn Hrows Hl) as [Hev Hex].
  unfold xdp_start. unfold eval at 1. rewrite Hev, Hex. cbn [fst].
  pose proof (actions_of_log l Hl) as Hact. unfold actions_of in Hact. rewrite Hact.
  destruct (reapply_active_view l (manager_new (xdp_controller policy cfg) e st) Hl)
    as (Hj & Hp & Hd & Hr & Hk).
  eexists. split; [done|]. split; [done|]. split_and!; [done..|]. intros k. rewrite Hk.
  destruct (row_at _ k); [done|]. by destruct k.
Qed.

End restart.

(** ** What applying a request does *)

Section requests.
Context `{IpNetLib} `{HashOrder} `{Postgres} {E : Type} `{!XdpExecutor E} `{!XdpSpec E}.

#[local] Abbreviation DaemonXdpManager := (XdpManager (E := E) (J := Store)).

(** A server that answers, with the requests [l]. *)
Definition requests_are (l : list XdpRequestRow) (s : DaemonXdpManager) : Prop :=
  st_script (journal s) = [] ∧ db_xdp_requests (st_db (journal s)) = l.

Lemma xdp_record_requests a o (st : Store) :
  st_script st = [] →
  st_script (exec (xdp_record a o) st) = [] ∧
  db_xdp_requests (st_db (exec (xdp_record a o) st)) = db_xdp_requests (st_db st).
Proof.
  intros Hn. destruct st as [d script]. cbn in Hn. subst script.
  destruct a as [src p b v|net|net|src]; unfold xdp_record, xdp_record_apply, xdp_record_remove;
    [destruct (_ && _); [|done]; by destruct o|by destruct o|done|done].
Qed.

Lemma requests_same l {A} (m : M DaemonXdpManager A) :
  (∀ s, journal (exec m s) = journal s) → preserves (requests_are l) m.
Proof. intros Hm s Hs. unfold requests_are. by rewrite Hm. Qed.

Lemma requests_bind l {A B} (m : M DaemonXdpManager A) (f : A → M DaemonXdpManager B) :
  preserves (requests_are l) m → (∀ a, preserves (requests_are l) (f a)) →
  preserves (requests_are l) (m ≫= f).
Proof. intros Hm Hf. eapply triple_bind; [exact Hm|exact Hf]. Qed.

Lemma requests_execute l a o wall fresh :
  preserves (requests_are l) (execute_and_journal (E := E) (J := Store) a o wall fresh).
Proof.
  assert (preserves (requests_are l) (on_journal (E := E) (J := Store) (xj_record a o wall))) as Hj.
  { intros s [Hn Hl]. unfold requests_are.
    change (journal (exec (on_journal (xj_record a o wall)) s)) with (exec (xj_record a o wall) (journal s)).
    cbn [xj_record PgXdpJournal_journal]. rewrite exec_bind. change (exec (mret ?u) ?x) with x.
    destruct (xdp_record_requests a o (journal s) Hn) as [-> ->]. done. }
  unfold execute_and_journal.
  repeat first [exact Hj | apply requests_bind; [|intros ?] | progress case_match | by apply requests_same].
Qed.

(** The work of a request leaves the table of requests alone. *)
Lemma requests_operation l net src p b wall :
  preserves (requests_are l) (apply_add (E := E) (J := Store) net wall) ∧
  preserves (requests_are l) (apply_remove (E := E) (J := Store) net wall) ∧
  preserves (requests_are l) (apply_clear_rate (E := E) (J := Store) src wall) ∧
  preserves (requests_are l) (apply_rate_limit (E := E) (J := Store) src p b wall).
Proof.
  unfold apply_add, apply_remove, apply_clear_rate, apply_rate_limit. split_and!;
    repeat first [apply requests_execute | apply requests_bind; [|intros ?] | progress case_match
                 | by apply requests_same].
Qed.

Definition set_status (id : Z) (status : string) (l : list XdpRequestRow) : list XdpRequestRow :=
  update (λ r, xr_id r =? id) (set_xr_status status) l.

Lemma mark_view l id status (s : DaemonXdpManager) :
  requests_are l s → status ∈ ["pending"; "applied"; "rejected"] →
  let s' := exec (mark id status) s in
  requests_are (set_status id status l) s' ∧ controller s' = controller s ∧ emaps s' = emaps s.
Proof.
  intros [Hn Hl] Hst s'. subst s'. split; [|done].
  assert (journal (exec (mark (J := Store) id status) s) = exec (xdp_mark_request id status) (journal s)) as Hj
    by done.
  unfold requests_are. rewrite Hj. unfold xdp_mark_request.
  destruct (execute_answering (λ d, if bool_decide (status ∈ ["pending"; "applied"; "rejected"])
      then Some (set_xdp (db_xdp_entries d) (set_status id status (db_xdp_requests d))
                   (db_xdp_request_seq d) d) else None)
    (set_xdp (db_xdp_entries (st_db (journal s))) (set_status id status (db_xdp_requests (st_db (journal s))))
       (db_xdp_request_seq (st_db (journal s))) (st_db (journal s))) (journal s) Hn) as (_ & Hn' & Hd).
  { by rewrite bool_decide_eq_true_2. }
  unfold set_status in *. rewrite Hn', Hd. cbn. by rewrite Hl.
Qed.

Lemma xdp_apply_rate_truthful src p b wall (s : DaemonXdpManager) :
  let out := eval (apply_rate_limit src p b wall) s in
  let s' := exec (apply_rate_limit src p b wall) s in
  (out = Applied →
     rate_limited (controller s') !! src
     = Some {| origin := Manual; pps := p; burst := b; victim := None |} ∧
     rates (emaps s') !! src = Some (p, b)) ∧
  (out ≠ Applied → emaps s' = emaps s ∧
     ∀ x, is_Some (rate_limited (controller s') !! x) ↔ is_Some (rate_limited (controller s) !! x)) ∧
  (∀ reason, out = Rejected reason → reason = XRejDisarmed ∧ disarmed s = true).
Proof.
  intros out s'. subst out s'. unfold apply_rate_limit. rewrite exec_bind, eval_bind.
  change (exec (gets _) s) with s. change (eval (gets ?f) s) with (f s). cbv beta zeta.
  rewrite exec_bind, eval_bind.
  change (eval (on_controller (manual_rate_limit src p b)) s)
    with (eval (manual_rate_limit src p b) (controller s)).
  set (s1 := exec (on_controller (manual_rate_limit src p b)) s).
  set (en := {| origin := Manual; pps := p; burst := b; victim := None |}).
  assert ((∃ e, eval (manual_rate_limit src p b) (controller s) = Err e ∧ controller s1 = controller s) ∨
    (eval (manual_rate_limit src p b) (controller s) = Ok (RateLimit src p b None) ∧
     controller s1 = set_state (<[src := en]> (rate_limited (controller s)))
       (blocked_nets (controller s)) (by_target (controller s)) (controller s)))
    as [(e & -> & Hc)|(-> & Hc)].
  { change (controller s1) with (exec (manual_rate_limit src p b) (controller s)).
    unfold eval, exec, manual_rate_limit. repeat case_match; eauto. }
  { change (exec (mret _) s1) with s1. change (eval (mret ?x) _) with x. by rewrite Hc. }
  rewrite exec_bind, eval_bind. change (exec (mret _) ?x) with x. change (eval (mret ?x) _) with x.
  destruct (xdp_exec_view (RateLimit src p b None) Manual wall (negb (is_rate_limited src (controller s))) s1)
    as (_ & _ & Hcase). set (o := eval (execute_and_journal _ _ _ _) s1) in *.
  destruct Hcase as [(-> & _ & -> & ->)|(Hne & Hdis & -> & -> & _)]; rewrite Hc.
  - split_and!; try done. intros _. cbn. by rewrite !lookup_insert_eq.
  - split_and!; [by destruct o| |by destruct o; try done; intros reason [= <-];
      destruct (andb_prop _ _ (proj1 Hdis eq_refl)) as [Hd _]].
    intros _. split; [done|]. intros x. unfold is_rate_limited. unfold exec.
    destruct (rate_limited (controller s) !! src) as [e|] eqn:Hs; cbn.
    + rewrite xdp_insert_is_Some. split; [intros [?|<-]; [done|by rewrite Hs]|by left].
    + by rewrite delete_insert_id.
Qed.

Lemma xdp_apply_remove_view net wall (s : DaemonXdpManager) :
  blocked_nets (controller (exec (apply_remove net wall) s)) !! net = None.
Proof.
  unfold apply_remove. rewrite exec_bind.
  set (s1 := exec (on_controller (manual_unblock net)) s).
  change (blocked_nets (controller (exec (execute_and_journal (Unblock net) Manual wall false;;
    mret Applied) s1)) !! net = None). rewrite exec_bind. change (exec (mret Applied) ?x) with x.
  destruct (xdp_exec_view (Unblock net) Manual wall false s1) as (_ & _ & [(_ & _ & -> & _)|(_ & _ & -> & _)]);
    apply lookup_delete_eq.
Qed.

Lemma xdp_apply_clear_view src wall (s : DaemonXdpManager) :
  rate_limited (controller (exec (apply_clear_rate src wall) s)) !! src = None.
Proof.
  unfold apply_clear_rate. rewrite exec_bind.
  set (s1 := exec (on_controller (manual_clear_rate src)) s).
  change (rate_limited (controller (exec (execute_and_journal (ClearRate src) Manual wall false;;
    mret Applied) s1)) !! src = None). rewrite exec_bind. change (exec (mret Applied) ?x) with x.
  destruct (xdp_exec_view (ClearRate src) Manual wall false s1) as (_ & _ & [(_ & _ & -> & _)|(_ & _ & -> & _)]);
    apply lookup_delete_eq.
Qed.

(** The status of the request [id] of the table [l] becomes [status]. *)
Definition left_as (id : Z) (status : string) (l : list XdpRequestRow) (s : DaemonXdpManager) : Prop :=
  requests_are (if decide (status = "pending") then l else set_status id status l) s.

(** What a request reports about an installation: [done_] when it is marked as
    applied, and otherwise the state as before. *)
Definition install_reported (id : Z) (l : list XdpRequestRow) (s s' : DaemonXdpManager) (done_ : Prop)
    (same : XdpController → XdpController → Prop) : Prop :=
  (left_as id "applied" l s' ∧ done_) ∨
  (∃ status, status ∈ ["pending"; "rejected"] ∧ left_as id status l s' ∧
     emaps s' = emaps s ∧ same (controller s) (controller s')).

Definition same_blocks (c c' : XdpController) : Prop :=
  ∀ n, is_Some (blocked_nets c' !! n) ↔ is_Some (blocked_nets c !! n).
Definition same_limits (c c' : XdpController) : Prop :=
  ∀ x, is_Some (rate_limited c' !! x) ↔ is_Some (rate_limited c !! x).

Lemma reported l id (m : M DaemonXdpManager ApplyOutcome) (s : DaemonXdpManager) done_ same :
  let out := eval m s in let s1 := exec m s in
  requests_are l s1 →
  (out = Applied → ∀ s', controller s' = controller s1 → emaps s' = emaps s1 → done_ s') →
  (out ≠ Applied → emaps s1 = emaps s ∧ same (controller s) (controller s1)) →
  let s' := exec (m ≫= mark_outcome id) s in
  install_reported id l s s' (done_ s') same.
Proof.
  intros out s1 Hl Hd Hn s'. subst s'. rewrite exec_bind. fold s1 out.
  destruct out as [| |reason] eqn:Ho; cbn [mark_outcome].
  - destruct (mark_view l id "applied" s1 Hl) as (Hl' & Hc & He); [set_solver|]. left. split; [done|].
    by apply Hd.
  - right. exists "pending". destruct (Hn (λ e, ltac:(discriminate e))) as [? ?].
    split_and!; [set_solver|done..].
  - right. exists "rejected". destruct (Hn (λ e, ltac:(discriminate e))) as [He1 Hs1].
    destruct (mark_view l id "rejected" s1 Hl) as (Hl' & Hc & He); [set_solver|].
    split_and!; [set_solver|done|congruence|by rewrite Hc].
Qed.

(** The status of an operator's request tells what happened to it. Over a
    database that answers: a request to block a network is marked as applied
    only when the network is blocked for the operator and in the drop map, and
    a request for a rate limit only when the limit is in force and in the rate
    map; left pending or rejected, nothing has changed. A removal is applied
    and has taken effect in the controller. A request without a usable network
    or rate is rejected without any effect. *)
Theorem xdp_request_truthful wall req l (s : DaemonXdpManager) :
  requests_are l s →
  let s' := exec (apply_xdp_request wall req) s in
  let net := xdp_net_from (xr_target req) (xr_prefixlen req) in
  let rejected := left_as (xr_id req) "rejected" l s' ∧ controller s' = controller s ∧ emaps s' = emaps s in
  (xr_action req = "block" → match net with
     | Some net => install_reported (xr_id req) l s s'
         (blocked_nets (controller s') !! net = Some Manual ∧ net ∈ drops (emaps s')) same_blocks
     | None => rejected end) ∧
  (xr_action req = "rate_limit" → match xr_rate_pps req with
     | Some p => let b := default p (xr_burst req) in install_reported (xr_id req) l s s'
         (rate_limited (controller s') !! xr_target req
          = Some {| origin := Manual; pps := p; burst := b; victim := None |} ∧
          rates (emaps s') !! xr_target req = Some (p, b)) same_limits
     | None => rejected end) ∧
  (xr_action req = "unblock" → match net with
     | Some net => left_as (xr_id req) "applied" l s' ∧ blocked_nets (controller s') !! net = None
     | None => rejected end) ∧
  (xr_action req = "clear_rate" →
     left_as (xr_id req) "applied" l s' ∧ rate_limited (controller s') !! xr_target req = None).
Proof.
  intros Hl s' net rejected. subst s' net rejected. unfold apply_xdp_request.
  set (id := xr_id req). set (target := xr_target req).
  assert (∀ st, st ∈ ["pending"; "applied"; "rejected"] → st ≠ "pending" →
    left_as id st l (exec (mark id st) s) ∧ controller (exec (mark (J := Store) id st) s) = controller s ∧
    emaps (exec (mark (J := Store) id st) s) = emaps s) as Hmark.
  { intros st Hst Hne. unfold left_as. rewrite decide_False by done. by apply mark_view. }
  split_and!; intros Ha; rewrite Ha; cbn [decide].
  - rewrite decide_True by done. destruct (xdp_net_from _ _) as [net|]; [|by apply Hmark; set_solver].
    destruct (requests_operation l net target 0 0 wall) as (Hadd & _).
    destruct (xdp_apply_add_truthful net wall s) as (Hok & Hno & _).
    apply (reported l id (apply_add net wall) s
      (λ s', blocked_nets (controller s') !! net = Some Manual ∧ net ∈ drops (emaps s')));
      [by apply Hadd| |exact Hno]. intros Hout s' -> ->. by apply Hok.
  - rewrite !decide_False, decide_True by done.
    destruct (xr_rate_pps req) as [p|]; [|by apply Hmark; set_solver]. cbv zeta.
    set (b := default p (xr_burst req)).
    destruct (requests_operation l (host_prefix target) target p b wall) as (_ & _ & _ & Hr).
    destruct (xdp_apply_rate_truthful target p b wall s) as (Hok & Hno & _).
    apply (reported l id (apply_rate_limit target p b wall) s
      (λ s', rate_limited (controller s') !! target
          = Some {| origin := Manual; pps := p; burst := b; victim := None |} ∧
          rates (emaps s') !! target = Some (p, b)));
      [by apply Hr| |exact Hno]. intros Hout s' -> ->. by apply Hok.
  - rewrite decide_False, decide_True by done.
    destruct (xdp_net_from _ _) as [net|]; [|by apply Hmark; set_solver]. rewrite exec_bind.
    destruct (requests_operation l net target 0 0 wall) as (_ & Hrem & _).
    destruct (mark_view l id "applied" _ (Hrem s Hl)) as (Hl' & Hc & _); [set_solver|].
    split; [done|]. rewrite Hc. apply xdp_apply_remove_view.
  - rewrite !decide_False, decide_True by done. rewrite exec_bind.
    destruct (requests_operation l (host_prefix target) target 0 0 wall) as (_ & _ & Hcl & _).
    destruct (mark_view l id "applied" _ (Hcl s Hl)) as (Hl' & Hc & _); [set_solver|].
    split; [done|]. rewrite Hc. apply xdp_apply_clear_view.
Qed.
End requests.

(** ** Examples *)

#[local] Existing Instance RefNet.lib.
#[local] Existing Instance RefNet.order.
#[local] Existing Instance RefPg.pg.

Definition dx_cfg : XdpConfig := {|
  xc_interface := None; xc_mode := XdpAuto; xc_default_rate_limit_pps := Some 1000; xc_cookie_ports := [];
  xc_afxdp_udp_ports := []; xc_afxdp_udp_banner := None; xc_syn_cookie_tx_cap := 1000 |}.

Definition dx_policy : Policy := {|
  interface := "eth0"; Core.prefixes := xdp_ex_own; default_state := Closed;
  tenants := []; shaping := []; banner_flux := None; dns_flux := None; rtbh := None;
  flowspec := None; metrics_listen := None; api := None; pops := []; engine := engine_default;
  flowtable := None; xdp := Some dx_cfg; stateless_tcp_ports := []; shadow := false;
  Core.protected_prefixes := []; rpki_validator := None;
  rpki_check_interval := from_secs 3600; instance := None |}.

Definition dx_metrics : PlaneMetrics := {|
  pm_protected := 0; pm_apply_failures := 0; pm_ratecapped := None; pm_reapply_pending := 0 |}.

Definition dx_clock (n : Z) (i : nat) : Z * Z := (n + Z.of_nat i, n + Z.of_nat i).
Definition dx_net : IpNet := RefNet.net4 198 51 0 0 16.

Definition dx_intent (action : string) : XdpIntent := {|
  xi_action := action; xi_target := ipv4 198 51 0 0; xi_prefixlen := Some 16; xi_rate_pps := None;
  xi_burst := None; xi_created_by := "op" |}.

(** A detection with two sources, a request for a block and a tick. *)
Definition dx_steps : list (PlaneStep DetectionEvent XdpIntent) :=
  [STurn (dx_clock 1000) (TRecv (Some (Opened (xdp_ex_detection xdp_ex_v1 [xdp_ex_a; xdp_ex_b]))));
   SEnqueue (dx_intent "block"); STurn (dx_clock 2000) TTick].

(** The manager of a fresh database, with the outcomes [l] of the writes. *)
Definition dx_start (l : list bool) : XdpManager (E := MapWriter) (J := Store) :=
  manager_new (xdp_controller dx_policy dx_cfg) (mw_new l) (st_new []).

Lemma mw_removals_answered : removals_answered (E := MapWriter).
Proof. intros a e Hi. unfold eval. cbn. by rewrite Hi. Qed.


Definition dx_request : XdpRequestRow := {|
  xr_id := 1; xr_action := "block"; xr_target := ipv4 198 51 0 0; xr_prefixlen := Some 16;
  xr_rate_pps := None; xr_burst := None; xr_created_by := "op"; xr_status := "pending" |}.

Lemma xdp_request_truthful_witness :
  let s' := exec (apply_xdp_request 5000 dx_request) (dx_start []) in
  match xdp_net_from (ipv4 198 51 0 0) (Some 16) with
  | Some net => install_reported 1 [] (dx_start []) s'
      (blocked_nets (controller s') !! net = Some Manual ∧ net ∈ drops (emaps s')) same_blocks
  | None => False
  end.
Proof.
  destruct (xdp_request_truthful 5000 dx_request [] (dx_start [])) as (Hb & _); [by split|].
  exact (Hb eq_refl).
Defined.

(** A block that an operator has lifted comes back. An operator asks for a
    network to be blocked and then for the block to be lifted; at the first
    tick the write of the block fails, so its request stays pending, while the
    removal is marked as applied. Nothing cancels the older request: at the
    next tick the network the operator unblocked last is blocked and dropped,
    and both requests are marked as applied. *)
Theorem xdp_stale_block_revives :
  let t := exec (for_each [SEnqueue (dx_intent "block"); SEnqueue (dx_intent "unblock");
                           STurn (dx_clock 1000) TTick; STurn (dx_clock 2000) TTick] (xdp_step true))
             (task_new (dx_start [false]) dx_metrics) in
  bool_decide (dx_net ∈ drops (emaps (tk_state t))) = true ∧
  bool_decide (blocked_nets (controller (tk_state t)) !! dx_net = Some Manual) = true ∧
  xr_status <$> db_xdp_requests (st_db (journal (tk_state t))) = ["applied"; "applied"].
Proof. split_and!; vm_refl. Qed.

#[local] Existing Instance RefTrie.lib.
#[local] Existing Instance RefTrieWrite.lib.
#[local] Instance dx_dataplane : XdpExecutor DataplaneMaps := XdpDataplane_executor 2.

(** The manager resumed from the mirror [st], on a program whose system calls
    have the outcomes [l]. *)
Definition dx_resume (l : list bool) (st : Store) : XdpManager (E := DataplaneMaps) (J := Store) :=
  match eval (xdp_start dx_policy dx_cfg (maps_new 2 l)) st with
  | Ok m => m
  | Err _ => manager_new (xdp_controller dx_policy dx_cfg) (maps_new 2 l) st
  end.

(** A run of the task over the steps [os], and the database it leaves. *)
Definition dx_run (os : list (PlaneStep DetectionEvent XdpIntent)) (m : XdpManager (E := DataplaneMaps) (J := Store))
    : XdpManager (E := DataplaneMaps) (J := Store) :=
  tk_state (exec (for_each os (xdp_step true)) (task_new m dx_metrics)).

(** A removal from a map that does not hold the entry is not recorded. A
    block is applied and mirrored; after a restart its re-application fails
    twice; the operator then has it lifted. The kernel reports that there is
    no such entry, so the manager does not write the removal to the mirror,
    while the request is marked as applied: after the next restart the network
    is blocked again. *)
Theorem xdp_unblock_unrecorded :
  let m1 := dx_run [SEnqueue (dx_intent "block"); STurn (dx_clock 1000) TTick] (dx_resume [] (st_new [])) in
  let m2 := dx_run [SEnqueue (dx_intent "unblock"); STurn (dx_clock 2000) TTick]
              (dx_resume [false; false] (journal m1)) in
  let m3 := dx_resume [] (journal m2) in
  blocked_nets (controller m2) = ∅ ∧
  xr_status <$> db_xdp_requests (st_db (journal m2)) = ["applied"; "applied"] ∧
  bool_decide (blocked_nets (controller m3) !! dx_net = Some Manual) = true.
Proof. split_and!; vm_refl. Qed.
