(* ===== verification/DetectionLog.v ===== *)
(** * The log of detections

    The collector of [src/bin/blackwalld/src/main.rs] hands every event of the
    detector to [PgMitigationSink], which keeps the [detections] table. This
    file puts [Detector] and [Store] together: the rows that are not cleared
    are the episodes the detector holds open. *)
From stdpp Require Import prelude gmap strings sorting.
From S2P Require Import Prelude Net Float Core Flow Store Detector.

Open Scope Z_scope.

Section log.
Context `{Postgres} `{IpNetLib} `{HashOrder}.

(** Up to the end of the year 9999. *)
Definition dated (ms : Z) : Prop := 0 ≤ ms ≤ 253402300799999.

Definition event_dated (ev : DetectionEvent) : Prop :=
  match ev with
  | Opened d | Updated d => dated (d_first_seen_ms d) ∧ dated (d_last_seen_ms d)
  | Cleared _ at_ms => dated at_ms
  end.

Lemma dated_clamp ms : dated ms → clamp_ms ms = ms ∧ ts_ok (clamp_ms ms) = true.
Proof.
  unfold dated. intros Hm. assert (clamp_ms ms = ms) as -> by (unfold clamp_ms, i64_max; lia).
  split; [done|by apply ts_ok_dates].
Qed.

(** The open rows of a target, as the times of their episode. *)
Definition open_times (t : IpAddr) (rows : list DetectionRow) : list (Z * Z) :=
  (λ r, (dr_first_seen r, dr_last_seen r)) <$> filter (λ r, open_row t r = true) rows.

Definition logs (m : gmap IpAddr (Z * Z)) (rows : list DetectionRow) : Prop :=
  ∀ t, open_times t rows = option_list (m !! t).

Lemma open_row_true t r : open_row t r = true ↔ dr_target r = t ∧ dr_cleared_at r = None.
Proof. unfold open_row. by rewrite andb_true_iff, !bool_decide_eq_true. Qed.

(** A statement on the open rows of [t] leaves the others alone. *)
Lemma open_times_update t t' f rows :
  (∀ r, dr_target (f r) = dr_target r) →
  open_times t' (update (open_row t) f rows)
  = if decide (t' = t)
    then (λ r, (dr_first_seen r, dr_last_seen r)) <$>
           filter (λ r, dr_cleared_at r = None) (f <$> filter (λ r, open_row t r = true) rows)
    else open_times t' rows.
Proof.
  intros Hf. unfold open_times, update. case_decide as Heq; [subst t'|]; f_equal.
  - induction rows as [|r rows IH]; [done|]. rewrite fmap_cons, !filter_cons, IH.
    destruct (open_row t r) eqn:Hr.
    + rewrite (decide_True (P := true = true)) by done. rewrite fmap_cons, filter_cons.
      apply open_row_true in Hr as [Ht _].
      destruct (decide (dr_cleared_at (f r) = None)) as [Hd|Hd].
      * rewrite decide_True; [done|]. apply open_row_true. by rewrite Hf.
      * rewrite decide_False; [done|]. by intros [_ ?]%open_row_true.
    + by rewrite Hr, (decide_False (P := false = true)).
  - induction rows as [|r rows IH]; [done|]. rewrite fmap_cons, !filter_cons, IH.
    destruct (open_row t r) eqn:Hr; [|done]. apply open_row_true in Hr as [Ht _].
    rewrite !decide_False; [done|..]; intros [? _]%open_row_true; rewrite ?Hf in *; congruence.
Qed.

Definition rows_of (st : Store) : list DetectionRow := db_detections (st_db st).

(** What an event does to the rows. *)
Definition log_event (ev : DetectionEvent) (rows : list DetectionRow) : list DetectionRow :=
  match ev with
  | Opened d =>
      rows ++ [{| dr_target := d_target d; dr_pps := d_observed_pps d; dr_bps := d_observed_bps d;
                  dr_severity := severity_str (d_severity d); dr_first_seen := d_first_seen_ms d;
                  dr_last_seen := d_last_seen_ms d; dr_cleared_at := None |}]
  | Updated d =>
      update (open_row (d_target d)) (λ r, {| dr_target := dr_target r; dr_pps := d_observed_pps d;
        dr_bps := d_observed_bps d; dr_severity := dr_severity r; dr_first_seen := dr_first_seen r;
        dr_last_seen := d_last_seen_ms d; dr_cleared_at := dr_cleared_at r |}) rows
  | Cleared t at_ms =>
      update (open_row t) (λ r, {| dr_target := dr_target r; dr_pps := dr_pps r; dr_bps := dr_bps r;
        dr_severity := dr_severity r; dr_first_seen := dr_first_seen r; dr_last_seen := dr_last_seen r;
        dr_cleared_at := Some at_ms |}) rows
  end.

Lemma sink_rows ev st :
  st_script st = [] → event_dated ev →
  st_script (exec (sink_handle ev) st) = [] ∧ rows_of (exec (sink_handle ev) st) = log_event ev (rows_of st).
Proof.
  intros Hn Hev. destruct st as [d script]. cbn in Hn. subst script.
  unfold sink_handle. rewrite exec_bind. change (exec (mret ()) ?x) with x.
  destruct ev as [e|e|t at_]; cbn [event_dated log_event] in *;
    [destruct Hev as [[Hf Hf']%dated_clamp [Hla Hla']%dated_clamp]
    |destruct Hev as [_ [Hla Hla']%dated_clamp]|apply dated_clamp in Hev as [Hla Hla']];
    unfold open_detection, update_detection, clear_detection, execute, statement, exec, rows_of; cbn;
    rewrite ?Hf', Hla'; cbn; by rewrite ?Hf, Hla.
Qed.

Lemma sink_logs hold m ev m' rows :
  accept hold m ev = Some m' → logs m rows → logs m' (log_event ev rows).
Proof.
  intros Hacc Hl t. pose proof (Hl t) as Ht. destruct ev as [d|d|t0 at_]; cbn [accept log_event] in *.
  - destruct (m !! d_target d) eqn:Hm; [done|]. injection Hacc as <-.
    unfold open_times in *. rewrite filter_app, fmap_app, Ht, filter_cons, filter_nil.
    destruct (decide (t = d_target d)) as [->|Hne].
    + rewrite decide_True by (by apply open_row_true). by rewrite Hm, lookup_insert_eq.
    + rewrite decide_False by (by intros [? _]%open_row_true). by rewrite lookup_insert_ne, app_nil_r.
  - destruct (m !! d_target d) as [[first last]|] eqn:Hm; [|done].
    destruct (first =? d_first_seen_ms d); [|done]. injection Hacc as <-.
    rewrite open_times_update by done. case_decide as Heq; [subst t|by rewrite lookup_insert_ne].
    rewrite Hm in Ht. rewrite lookup_insert_eq. unfold open_times in Ht.
    destruct (filter (λ r, open_row (d_target d) r = true) rows) as [|r [|]] eqn:Hr; try done.
    assert (r ∈ filter (λ r, open_row (d_target d) r = true) rows) as Hin by (rewrite Hr; by left).
    apply list_elem_of_filter in Hin as [[_ Hc]%open_row_true _]. cbn in Ht. injection Ht as Hfr _.
    cbn [fmap list_fmap]. rewrite filter_cons, decide_True by done. cbn. by rewrite Hfr.
  - destruct (m !! t0) as [[first last]|] eqn:Hm; [|done]. case_match; [|done]. injection Hacc as <-.
    rewrite open_times_update by done. case_decide as Heq; [subst t|by rewrite lookup_delete_ne].
    rewrite lookup_delete_eq. rewrite filter_none; [done|]. rewrite Forall_forall.
    by intros r (r' & -> & _)%list_elem_of_fmap.
Qed.

Lemma run_logs hold m evs m' st :
  foldl (λ o ev, o ≫= λ m, accept hold m ev) (Some m) evs = Some m' → Forall event_dated evs →
  st_script st = [] → logs m (rows_of st) →
  let st' := exec (for_each evs sink_handle) st in st_script st' = [] ∧ logs m' (rows_of st').
Proof.
  intros Hacc Hevs. revert m st Hacc. induction Hevs as [|ev evs Hev _ IH]; intros m st Hacc Hn Hl.
  { by injection Hacc as <-. }
  cbn [foldl] in Hacc. rewrite exec_for_each_cons. destruct (sink_rows ev st Hn Hev) as [Hn' Hr].
  cbn [mbind option_bind] in Hacc. destruct (accept hold m ev) as [m1|] eqn:Ha.
  - eapply IH; [exact Hacc|exact Hn'|]. rewrite Hr. by eapply sink_logs.
  - exfalso. clear -Hacc. induction evs as [|ev' evs IH]; [done|by apply IH].
Qed.

(** At most one open row per target. *)
Lemma logs_nodup m rows : logs m rows → NoDup (dr_target <$> filter (λ r, dr_cleared_at r = None) rows).
Proof.
  intros Hl. assert (∀ t, (length (filter (λ r, open_row t r = true) rows) ≤ 1)%nat) as Hlen.
  { intros t. specialize (Hl t). unfold open_times in Hl. apply (f_equal length) in Hl.
    rewrite length_fmap in Hl. rewrite Hl. destruct (m !! t); cbn; lia. }
  clear Hl. induction rows as [|r rows IH]; [constructor|].
  assert (∀ t, (length (filter (λ r, open_row t r = true) rows) ≤ 1)%nat) as Hlen'.
  { intros t. specialize (Hlen t). rewrite filter_cons in Hlen. case_decide; cbn in Hlen; lia. }
  rewrite filter_cons. case_decide as Hc; [|by apply IH]. rewrite fmap_cons. constructor; [|by apply IH].
  intros (r' & Ht & [Hc' Hr']%list_elem_of_filter)%list_elem_of_fmap.
  specialize (Hlen (dr_target r)). rewrite filter_cons, decide_True in Hlen by (by apply open_row_true).
  assert (r' ∈ filter (λ x, open_row (dr_target r) x = true) rows) as Hin.
  { apply list_elem_of_filter. split; [by apply open_row_true|done]. }
  destruct (filter _ rows); [by apply elem_of_nil in Hin|]. cbn in Hlen. lia.
Qed.

Lemma logs_elem m rows t f la :
  logs m rows →
  (∃ r, (dr_cleared_at r = None ∧ r ∈ rows) ∧ dr_target r = t ∧ dr_first_seen r = f ∧ dr_last_seen r = la)
  ↔ m !! t = Some (f, la).
Proof.
  intros Hl. specialize (Hl t). transitivity ((f, la) ∈ open_times t rows).
  - unfold open_times. rewrite list_elem_of_fmap. setoid_rewrite list_elem_of_filter.
    setoid_rewrite open_row_true. naive_solver.
  - rewrite Hl. destruct (m !! t) as [x|]; cbn.
    + rewrite list_elem_of_singleton. naive_solver.
    + split; [by intros ?%elem_of_nil|done].
Qed.

Lemma log_event_times ev rows :
  event_dated ev → Forall (λ r, 0 ≤ dr_first_seen r ∧ 0 ≤ dr_last_seen r) rows →
  Forall (λ r, 0 ≤ dr_first_seen r ∧ 0 ≤ dr_last_seen r) (log_event ev rows).
Proof.
  unfold event_dated, dated. intros Hev Hr. destruct ev as [d|d|t at_]; cbn [log_event] in *.
  - apply Forall_app. split; [done|]. constructor; [cbn; lia|constructor].
  - unfold update. apply Forall_fmap. eapply Forall_impl; [exact Hr|]. intros r [? ?]. cbn.
    case_match; cbn; lia.
  - unfold update. apply Forall_fmap. eapply Forall_impl; [exact Hr|]. intros r [? ?]. cbn.
    case_match; cbn; lia.
Qed.

Lemma run_times evs st :
  Forall event_dated evs → st_script st = [] →
  Forall (λ r, 0 ≤ dr_first_seen r ∧ 0 ≤ dr_last_seen r) (rows_of st) →
  Forall (λ r, 0 ≤ dr_first_seen r ∧ 0 ≤ dr_last_seen r) (rows_of (exec (for_each evs sink_handle) st)).
Proof.
  intros Hevs. revert st. induction Hevs as [|ev evs Hev _ IH]; intros st Hn Hr; [done|].
  rewrite exec_for_each_cons. destruct (sink_rows ev st Hn Hev) as [Hn' He].
  apply IH; [done|]. rewrite He. by apply log_event_times.
Qed.

Lemma decode_detections_ok rows :
  Forall (λ r, 0 ≤ dr_first_seen r ∧ 0 ≤ dr_last_seen r) rows → decode_detections rows = Ok rows.
Proof.
  induction 1 as [|r rows [Hf Hl] _ IH]; [done|]. cbn [decode_detections].
  by rewrite (proj2 (Z.leb_le _ _) Hf), (proj2 (Z.leb_le _ _) Hl), IH.
Qed.

End log.

(** ** Example *)

#[local] Existing Instance RefNet.lib.
#[local] Existing Instance RefNet.order.
#[local] Existing Instance RefPg.pg.

(** The detector of [Detector]'s example after the tick that opens an episode. *)
Definition dl_events : list DetectionEvent := [] ++ eval (run_det (DTick 3000)) det_ex_seen.

Lemma dl_events_dated : Forall event_dated dl_events.
Proof.
  assert (forallb (λ ev, match ev with
    | Opened d | Updated d => (0 <=? d_first_seen_ms d) && (d_first_seen_ms d <=? 253402300799999) &&
        (0 <=? d_last_seen_ms d) && (d_last_seen_ms d <=? 253402300799999)
    | Cleared _ at_ms => (0 <=? at_ms) && (at_ms <=? 253402300799999) end) dl_events = true) as Hb by vm_refl.
  rewrite forallb_forall in Hb. rewrite Forall_forall. intros ev Hev.
  specialize (Hb ev). rewrite <-list_elem_of_In in Hb. specialize (Hb Hev).
  destruct ev; rewrite !andb_true_iff, !Z.leb_le in Hb; unfold event_dated, dated; lia.
Qed.

