(* ===== verification/Text.v ===== *)
(** * Text

    The functions of Rust's standard library on [str] that the configuration
    reader uses. A [str] is its UTF-8 bytes; a character is the group of bytes
    that encodes it. *)
From stdpp Require Import prelude strings.
From Stdlib Require Import Floats.SpecFloat.
From S2P Require Import Prelude Net Float Core NetText.

Open Scope Z_scope.

(** ** Characters *)

(** A continuation byte belongs to the character before it. *)
Definition is_continuation (b : Z) : bool := (128 <=? b) && (b <? 192).

Fixpoint chars (l : list Z) : list (list Z) :=
  match l with
  | [] => []
  | b :: l => match chars l with
              | (b' :: c) :: cs => if is_continuation b' then (b :: b' :: c) :: cs else [b] :: (b' :: c) :: cs
              | cs => [b] :: cs
              end
  end.

(** [char::is_whitespace]: the Unicode property White_Space. *)
Definition is_whitespace (c : list Z) : bool :=
  match c with
  | [b] => ((9 <=? b) && (b <=? 13)) || (b =? 32)
  | [194; b] => (b =? 133) || (b =? 160)
  | [225; 154; 128] => true
  | [226; 128; b] => ((128 <=? b) && (b <=? 138)) || (b =? 168) || (b =? 169) || (b =? 175)
  | [226; 129; 159] => true
  | [227; 128; 128] => true
  | _ => false
  end.

Lemma concat_chars l : concat (chars l) = l.
Proof.
  induction l as [|b l IH]; [done|]. cbn. destruct (chars l) as [|[|b' c] cs]; cbn in *; [by subst..|].
  destruct (is_continuation b'); cbn; by rewrite IH.
Qed.

Lemma chars_nonempty l : Forall (λ c, c ≠ []) (chars l).
Proof.
  induction l as [|b l IH]; [constructor|]. cbn. destruct (chars l) as [|[|b' c] cs]; [by constructor..|].
  inversion_clear IH. destruct (is_continuation b'); by repeat (constructor; [done|]).
Qed.

(** ** Lines *)

(** The line read so far, without the carriage return of a CRLF. *)
Definition strip_cr (cur : list Z) : list Z :=
  match last cur with Some 13 => take (length cur - 1) cur | _ => cur end.

Fixpoint lines_from (cur l : list Z) : list (list Z) :=
  match l with
  | [] => match cur with [] => [] | _ => [cur] end
  | b :: l => if b =? 10 then strip_cr cur :: lines_from [] l else lines_from (cur ++ [b]) l
  end.

(** [str::lines]. *)
Definition lines (l : list Z) : list (list Z) := lines_from [] l.

(** ** Splitting and trimming *)

(** [trim_end] and [trim]. *)
Fixpoint trim_end (cs : list (list Z)) : list (list Z) :=
  match cs with
  | [] => []
  | c :: cs => match trim_end cs with
               | [] => if is_whitespace c then [] else [c]
               | cs' => c :: cs'
               end
  end.
Fixpoint trim_start (cs : list (list Z)) : list (list Z) :=
  match cs with
  | c :: cs' => if is_whitespace c then trim_start cs' else cs
  | [] => []
  end.
Definition trim (s : string) : string := of_bytes (concat (trim_end (trim_start (chars (str_bytes s))))).

(** [split_whitespace]; [cur] is the word being read. *)
Fixpoint split_ws (cur : list (list Z)) (cs : list (list Z)) : list (list (list Z)) :=
  match cs with
  | [] => match cur with [] => [] | _ => [cur] end
  | c :: cs =>
      if is_whitespace c then match cur with [] => split_ws [] cs | _ => cur :: split_ws [] cs end
      else split_ws (cur ++ [c]) cs
  end.
Definition split_whitespace (cs : list (list Z)) : list string := (λ w, of_bytes (concat w)) <$> split_ws [] cs.

(** [split(sep)] for an ASCII separator: always at least one piece. *)
Fixpoint split_bytes (sep : Z) (l : list Z) : list (list Z) :=
  match l with
  | [] => [[]]
  | b :: l => if b =? sep then [] :: split_bytes sep l
              else match split_bytes sep l with p :: ps => (b :: p) :: ps | [] => [[b]] end
  end.
Definition split (sep : Z) (s : string) : list string := of_bytes <$> split_bytes sep (str_bytes s).

(** [split_once(sep)]. *)
Fixpoint split_once_bytes (sep : Z) (l : list Z) : option (list Z * list Z) :=
  match l with
  | [] => None
  | b :: l => if b =? sep then Some ([], l)
              else match split_once_bytes sep l with Some (x, y) => Some (b :: x, y) | None => None end
  end.
Definition split_once (sep : Z) (s : string) : option (string * string) :=
  match split_once_bytes sep (str_bytes s) with Some (x, y) => Some (of_bytes x, of_bytes y) | None => None end.

(** [strip_prefix], [strip_suffix], [trim_end_matches(c)]. *)
Fixpoint strip_prefix_bytes (p l : list Z) : option (list Z) :=
  match p, l with
  | [], _ => Some l
  | a :: p, b :: l => if a =? b then strip_prefix_bytes p l else None
  | _ :: _, [] => None
  end.
Definition strip_prefix (p s : string) : option string := of_bytes <$> strip_prefix_bytes (str_bytes p) (str_bytes s).
Definition strip_suffix (p s : string) : option string :=
  (λ l, of_bytes (reverse l)) <$> strip_prefix_bytes (reverse (str_bytes p)) (reverse (str_bytes s)).
Definition starts_with (p s : string) : bool := if strip_prefix p s is Some _ then true else false.

Fixpoint drop_matches (c : Z) (l : list Z) : list Z :=
  match l with b :: l' => if b =? c then drop_matches c l' else l | [] => [] end.
Definition trim_end_matches (c : Z) (s : string) : string := of_bytes (reverse (drop_matches c (reverse (str_bytes s)))).

(** [join(" ")]. *)
Fixpoint join_space (l : list string) : string :=
  match l with
  | [] => ""
  | [w] => w
  | w :: l => String.append w (String.append " " (join_space l))
  end.

Definition is_ascii_alphanumeric (b : Z) : bool :=
  ((48 <=? b) && (b <=? 57)) || ((65 <=? b) && (b <=? 90)) || ((97 <=? b) && (b <=? 122)).

(** ** Decimal floating-point numbers *)

(** The number [m * 10 ^ e] rounded to the nearest float of a format, ties to
    even. A decimal magnitude of at least 400 overflows and one of at most
    -400 rounds to zero in both formats used. *)
Definition float_of_decimal (prec emax : Z) (negative : bool) (m e : Z) : spec_float :=
  match m with
  | Z.pos p =>
      let magnitude := Z.of_nat (length (digits 10 (S (Z.to_nat (Z.log2 m))) m)) + e in
      if 400 <=? magnitude then S754_infinity negative
      else if magnitude <=? -400 then S754_zero negative
      else if 0 <=? e then
        binary_normalize prec emax (if negative then - (m * 10 ^ e) else m * 10 ^ e) 0 negative
      else match 10 ^ (- e) with
           | Z.pos q => SFdiv prec emax (S754_finite negative p 0) (S754_finite false q 0)
           | _ => S754_nan
           end
  | _ => S754_zero negative
  end.

Definition lower (b : Z) : Z := if (65 <=? b) && (b <=? 90) then b + 32 else b.

(** An exponent: a letter, an optional sign, at least one digit. *)
Definition read_exponent (l : list Z) : option Z :=
  match l with
  | [] => Some 0
  | c :: l =>
      if negb (lower c =? 101) then None
      else
        let '(neg, l) := match l with 45 :: l => (true, l) | 43 :: l => (false, l) | _ => (false, l) end in
        match span_digits 10 l with
        | ((_ :: _) as ds, []) => Some (if (neg : bool) then - digits_value 10 ds else digits_value 10 ds)
        | _ => None
        end
  end.

(** [str::parse] for [f64] and [f32]. *)
Definition parse_float (prec emax : Z) (s : string) : option spec_float :=
  let '(neg, l) := match str_bytes s with 45 :: l => (true, l) | 43 :: l => (false, l) | l => (false, l) end in
  let word := lower <$> l in
  if decide (word = str_bytes "inf" ∨ word = str_bytes "infinity") then Some (S754_infinity neg)
  else if decide (word = str_bytes "nan") then Some S754_nan
  else
    let '(ipart, l) := span_digits 10 l in
    let '(fpart, l) := match l with 46 :: l => span_digits 10 l | _ => ([], l) end in
    match ipart ++ fpart with
    | [] => None
    | ds => e ← read_exponent l;
            Some (float_of_decimal prec emax neg (digits_value 10 ds) (e - Z.of_nat (length fpart)))
    end.
Definition parse_f64 : string → option f64 := parse_float 53 1024.
Definition parse_f32 : string → option f32 := parse_float 24 128.

(** ** UTF-8 *)

(** The first character of a non-empty buffer: how many bytes the decoder has
    looked at when it accepts it or gives up, and whether it accepts. *)
Definition utf8_next (l : list Z) : nat * bool :=
  let get i := default 0 (l !! i) in
  let cont i := is_continuation (get i) in
  let b := get 0%nat in
  let c := get 1%nat in
  if b <? 128 then (1%nat, true)
  else if (194 <=? b) && (b <=? 223) then if cont 1%nat then (2%nat, true) else (1%nat, false)
  else if (224 <=? b) && (b <=? 239) then
    let second := if b =? 224 then (160 <=? c) && (c <=? 191)
                  else if b =? 237 then (128 <=? c) && (c <=? 159)
                  else (128 <=? c) && (c <=? 191) in
    if negb second then (1%nat, false) else if cont 2%nat then (3%nat, true) else (2%nat, false)
  else if (240 <=? b) && (b <=? 244) then
    let second := if b =? 240 then (144 <=? c) && (c <=? 191)
                  else if b =? 244 then (128 <=? c) && (c <=? 143)
                  else (128 <=? c) && (c <=? 191) in
    if negb second then (1%nat, false)
    else if negb (cont 2%nat) then (2%nat, false)
    else if cont 3%nat then (4%nat, true) else (3%nat, false)
  else (1%nat, false).

(** [String::from_utf8_lossy] and [str::from_utf8]: a step looks at one byte at
    least. *)
Fixpoint lossy (fuel : nat) (l : list Z) : list Z :=
  match fuel, l with
  | S fuel, _ :: _ =>
      let '(n, ok) := utf8_next l in
      (if (ok : bool) then take n l else [239; 191; 189]) ++ lossy fuel (drop n l)
  | _, _ => []
  end.
Definition from_utf8_lossy (l : list Z) : string := of_bytes (lossy (length l) l).

Fixpoint valid_utf8 (fuel : nat) (l : list Z) : bool :=
  match fuel, l with
  | S fuel, _ :: _ => let '(n, ok) := utf8_next l in (ok : bool) && valid_utf8 fuel (drop n l)
  | _, _ => true
  end.
Definition from_utf8 (l : list Z) : option string :=
  if valid_utf8 (length l) l then Some (of_bytes l) else None.

(** ** ASCII case *)

Definition upper (b : Z) : Z := if (97 <=? b) && (b <=? 122) then b - 32 else b.
Definition to_ascii_uppercase (s : string) : string := of_bytes (upper <$> str_bytes s).
Definition to_ascii_lowercase (s : string) : string := of_bytes (lower <$> str_bytes s).
Definition eq_ignore_ascii_case (a b : string) : bool :=
  bool_decide (lower <$> str_bytes a = lower <$> str_bytes b).

(** ** ASCII text *)

Lemma chars_ascii l : Forall (λ b, is_continuation b = false) l → chars l = (λ b, [b]) <$> l.
Proof.
  induction 1 as [|b l Hb Hl IH]; [done|]. cbn. rewrite IH. destruct l as [|b' l]; [done|]. cbn.
  apply Forall_cons in Hl as [-> _]. done.
Qed.

Lemma valid_utf8_ascii l n : Forall (λ b, 0 ≤ b < 128) l → valid_utf8 n l = true.
Proof.
  intros Hl. revert n. induction Hl as [|b l Hb _ IH]; intros [|n]; try done. cbn [valid_utf8].
  unfold utf8_next. cbn [lookup list_lookup default from_option]. rewrite (proj2 (Z.ltb_lt _ _)) by apply Hb.
  cbn. rewrite drop_0. apply IH.
Qed.

(** The characters of an ASCII text. *)
Abbreviation wrap := (fmap (λ b : Z, [b])).

Lemma concat_wrap (l : list Z) : concat (wrap l) = l.
Proof. induction l as [|b l IH]; [done|]. cbn in *. by rewrite IH. Qed.

Definition printable (b : Z) : Prop := 32 ≤ b ≤ 126.
Definition graphic (b : Z) : Prop := 33 ≤ b ≤ 126.

Lemma printable_char b : printable b → is_continuation b = false.
Proof. unfold printable, is_continuation. intros Hb. by rewrite (proj2 (Z.leb_gt 128 b)) by lia. Qed.

Lemma chars_printable l : Forall printable l → chars l = wrap l.
Proof. intros Hl. apply chars_ascii. eapply Forall_impl; [exact Hl|]. apply printable_char. Qed.

Lemma graphic_not_space b : graphic b → is_whitespace [b] = false.
Proof.
  intros Hb. assert (Forall (λ b, is_whitespace [b] = false) (seqZ 33 94)) as Hall by (by apply (bool_decide_unpack _)).
  rewrite Forall_forall in Hall. apply Hall, elem_of_seqZ. unfold graphic in Hb. lia.
Qed.

(** The word that is being read goes on. *)
Lemma split_ws_graphic w cs : ∀ cur,
  Forall graphic w → split_ws cur (wrap w ++ cs) = split_ws (cur ++ wrap w) cs.
Proof.
  induction w as [|b w IH]; intros cur Hw; [by rewrite app_nil_r|]. apply Forall_cons in Hw as [Hb Hw]. cbn [fmap list_fmap app split_ws].
  rewrite (graphic_not_space b Hb), IH by done. by rewrite <- app_assoc.
Qed.

(** A word that a space or the end follows. *)
Lemma split_ws_word w cs :
  w ≠ [] → Forall graphic w → (cs = [] ∨ ∃ r, cs = [32] :: r) → split_ws [] (wrap w ++ cs) = wrap w :: split_ws [] cs.
Proof.
  intros Hne Hw Hcs. rewrite split_ws_graphic by done. cbn [app]. destruct w as [|b w]; [done|].
  by destruct Hcs as [->|[r ->]].
Qed.

Lemma split_ws_spaces n cs : split_ws [] (wrap (replicate n 32) ++ cs) = split_ws [] cs.
Proof. induction n as [|n IH]; [done|]. exact IH. Qed.

Lemma strip_cr_printable l : Forall printable l → strip_cr l = l.
Proof.
  intros Hl. unfold strip_cr. destruct (last l) as [b|] eqn:Hb; [|done]. rewrite Forall_forall in Hl.
  apply last_Some_elem_of, Hl in Hb. unfold printable in Hb.
  destruct (decide (b = 13)) as [->|Hne]; [lia|]. repeat case_match; congruence.
Qed.

(** A line that a line feed ends. *)
Lemma lines_from_line l rest : ∀ cur, Forall printable l →
  lines_from cur (l ++ 10 :: rest) = strip_cr (cur ++ l) :: lines_from [] rest.
Proof.
  induction l as [|b l IH]; intros cur Hl; [by rewrite app_nil_r|]. apply Forall_cons in Hl as [Hb Hl].
  cbn [app lines_from]. unfold printable in Hb. rewrite (proj2 (Z.eqb_neq b 10)) by lia. rewrite IH by done.
  by rewrite <- app_assoc.
Qed.

Lemma lines_printable ls :
  Forall (Forall printable) ls → lines (ls ≫= λ l, l ++ [10]) = ls.
Proof.
  unfold lines. induction 1 as [|l ls Hl _ IH]; [done|]. rewrite bind_cons, <- app_assoc. cbn [app].
  rewrite lines_from_line by done. cbn [app]. by rewrite strip_cr_printable, IH.
Qed.

Lemma split_bytes_first sep l rest : sep ∉ l → head (split_bytes sep (l ++ sep :: rest)) = Some l.
Proof.
  induction l as [|b l IH]; cbn; [by rewrite Z.eqb_refl|]. rewrite not_elem_of_cons. intros [Hb Hl].
  rewrite (proj2 (Z.eqb_neq b sep)) by congruence. specialize (IH Hl). destruct (split_bytes sep _); [done|]. cbn in *.
  by injection IH as ->.
Qed.

Lemma split_once_bytes_first sep l rest : sep ∉ l → split_once_bytes sep (l ++ sep :: rest) = Some (l, rest).
Proof.
  induction l as [|b l IH]; cbn; [by rewrite Z.eqb_refl|]. rewrite not_elem_of_cons. intros [Hb Hl].
  rewrite (proj2 (Z.eqb_neq b sep)) by congruence. by rewrite IH.
Qed.
