(* ===== verification/Nft.v ===== *)
(** * The classifier ruleset

    [crates/blackwall-nft/src/render.rs]: a policy becomes the objects of one
    nftables table. The schema types of the [nftables] crate are data; the
    kernel that loads them is third-party code, the class [NftKernel], with
    the documented behaviour of the commands and of the matches the ruleset
    uses; [RefNft] is a concrete implementation. The theorems say what the
    kernel does with a packet once the rendered ruleset is loaded. *)
From stdpp Require Import prelude gmap strings.
From S2P Require Import Prelude Net Float Core NetText.

Open Scope Z_scope.

(** ** The schema of the [nftables] crate *)

Inductive NfFamily : Type := INet.
Inductive NfHook : Type := HookPrerouting | HookForward | HookIngress.
Inductive NfChainType : Type := TypeFilter | TypeNat.
Inductive NfChainPolicy : Type := PolicyAccept.
Inductive SetType : Type := Ipv4Addr | Ipv6Addr | InetProto | InetService.
Inductive MetaKey : Type := Iifname | Nfproto | L4proto | Mark.
Inductive Operator : Type := EQ | NEQ | IN.
Inductive NATFamily : Type := NatIP | NatIP6.

Inductive Expression : Type :=
| EString (s : string)
| ENumber (n : Z)
| EMeta (key : MetaKey)
| EPayload (protocol field : string)
| EPrefix (addr : Expression) (len : Z)
| EConcat (l : list Expression)
| ESet (l : list Expression)
| ECt (key : string).

Inductive Statement : Type :=
| SMatch (lhs rhs : Expression) (op : Operator)
| SAccept
| SDrop
| SQueue (num : Expression)
| SMangle (key value : Expression)
| STProxy (family : string) (port : Z)
| SDnat (addr : Expression) (family : NATFamily) (port : Expression)
| SFlow (flowtable : string).

Record Table := { tb_family : NfFamily; tb_name : string }.
Record NfSet := {
  st_family : NfFamily; st_table : string; st_name : string; st_type : list SetType;
  st_elem : option (list Expression);
}.
Record Chain := {
  ch_family : NfFamily; ch_table : string; ch_name : string; ch_type : NfChainType; ch_hook : NfHook;
  ch_prio : Z; ch_policy : NfChainPolicy;
}.
Record Rule := {
  ru_family : NfFamily; ru_table : string; ru_chain : string; ru_expr : list Statement; ru_comment : string;
}.
Record FlowTable := {
  fl_family : NfFamily; fl_table : string; fl_name : string; fl_hook : NfHook; fl_prio : Z;
  fl_dev : list string;
}.
Inductive NfListObject : Type :=
| OTable (t : Table) | OSet (s : NfSet) | OChain (c : Chain) | ORule (r : Rule) | OFlowTable (f : FlowTable).
Inductive NfObject : Type := Add (o : NfListObject) | FlushTable (t : Table).

(** ** Rendering *)

Definition FAMILY : NfFamily := INet.

Definition iifname_match (iface : string) : Statement := SMatch (EMeta Iifname) (EString iface) EQ.

(** The address family name of the payload expressions. *)
Definition proto_name (a : IpAddr) : string := if ip_is_v4 a then "ip" else "ip6".

Definition concat_element (s : ResolvedService) : Expression :=
  EConcat [EString (ip_to_string (rs_addr s)); EString (proto_string (rs_proto s)); ENumber (rs_port s)].

Definition set_elements_for (resolved : list ResolvedService) (predicate : ResolvedService → bool)
    : list Expression :=
  concat_element <$> filter (λ s, predicate s = true) resolved.

(** An absent [elem] declares an empty set. *)
Definition elem_of_list (l : list Expression) : option (list Expression) :=
  match l with [] => None | _ => Some l end.

Definition real_set (table name : string) (addr_type : SetType) (elements : list Expression) : NfObject :=
  Add (OSet {| st_family := FAMILY; st_table := table; st_name := name;
               st_type := [addr_type; InetProto; InetService]; st_elem := elem_of_list elements |}).

Definition prerouting_chain (table : string) : NfObject :=
  Add (OChain {| ch_family := FAMILY; ch_table := table; ch_name := "prerouting"; ch_type := TypeFilter;
                 ch_hook := HookPrerouting; ch_prio := -300; ch_policy := PolicyAccept |}).

Definition l4proto_match (op : Operator) (proto : string) : Statement := SMatch (EMeta L4proto) (EString proto) op.

Definition accept_rule (table iface set_name nfproto : string) : Rule :=
  let daddr_field := if decide (set_name = "real_v4") then "ip" else "ip6" in
  {| ru_family := FAMILY; ru_table := table; ru_chain := "prerouting";
     ru_expr :=
       [iifname_match iface;
        SMatch (EMeta Nfproto) (EString nfproto) EQ;
        SMatch (EConcat [EPayload daddr_field "daddr"; EMeta L4proto; EPayload "th" "dport"])
               (EString (String.append "@" set_name)) IN;
        SAccept];
     ru_comment := "real service: accept (nat: targets DNAT'd in the nat chain)" |}.

Section render.
Context `{IpNetLib}.

Definition daddr_in_prefix (prefix : IpNet) : Statement :=
  SMatch (EPayload (proto_name (net_addr prefix)) "daddr")
         (EPrefix (EString (ip_to_string (net_addr prefix))) (net_prefix_len prefix)) EQ.

Definition stateless_tcp_rule (table : string) (policy : Policy) (prefix : IpNet) : Rule :=
  {| ru_family := FAMILY; ru_table := table; ru_chain := "prerouting";
     ru_expr :=
       [iifname_match (interface policy);
        l4proto_match EQ "tcp";
        daddr_in_prefix prefix;
        SMatch (EPayload "th" "dport") (ESet (ENumber <$> stateless_tcp_ports policy)) IN;
        SQueue (ENumber (nfqueue_num (engine policy)))];
     ru_comment := String.append "deception TCP (stateless ports): queue to nfqueue "
                     (uint_to_string (nfqueue_num (engine policy))) |}.

Definition tproxy_rule (ids : InstanceIds) (policy : Policy) (prefix : IpNet) : Rule :=
  {| ru_family := FAMILY; ru_table := nft_table ids; ru_chain := "prerouting";
     ru_expr :=
       [iifname_match (interface policy);
        l4proto_match EQ "tcp";
        daddr_in_prefix prefix;
        SMangle (EMeta Mark) (ENumber (tproxy_mark ids));
        STProxy (proto_name (net_addr prefix)) (tproxy_port (engine policy));
        SAccept];
     ru_comment := String.append "deception TCP: tproxy to engine port "
                     (uint_to_string (tproxy_port (engine policy))) |}.

Definition queue_rule (table : string) (policy : Policy) (prefix : IpNet) : Rule :=
  {| ru_family := FAMILY; ru_table := table; ru_chain := "prerouting";
     ru_expr :=
       [iifname_match (interface policy);
        l4proto_match NEQ "tcp";
        daddr_in_prefix prefix;
        SQueue (ENumber (nfqueue_num (engine policy)))];
     ru_comment := String.append "deception ICMP/UDP: queue to nfqueue "
                     (uint_to_string (nfqueue_num (engine policy))) |}.

Definition drop_rule (table : string) (policy : Policy) : Rule :=
  {| ru_family := FAMILY; ru_table := table; ru_chain := "prerouting";
     ru_expr := [iifname_match (interface policy); SDrop];
     ru_comment := "closed posture: drop unmatched traffic on the managed interface" |}.

Definition dnat_chain (table : string) : NfObject :=
  Add (OChain {| ch_family := FAMILY; ch_table := table; ch_name := "dnat"; ch_type := TypeNat;
                 ch_hook := HookPrerouting; ch_prio := -100; ch_policy := PolicyAccept |}).

(** The rule of one service; [None] is the loop's [continue]. *)
Definition dnat_rule (table : string) (policy : Policy) (svc : ResolvedService) : option Rule :=
  match rs_target svc with
  | Nat_ backend =>
      if negb (Bool.eqb (ip_is_v4 (rs_addr svc)) (sa_is_ipv4 backend)) then None
      else
        let nat_family := if ip_is_v4 (rs_addr svc) then NatIP else NatIP6 in
        Some {| ru_family := FAMILY; ru_table := table; ru_chain := "dnat";
                ru_expr :=
                  [iifname_match (interface policy);
                   SMatch (EPayload (proto_name (rs_addr svc)) "daddr") (EString (ip_to_string (rs_addr svc))) EQ;
                   l4proto_match EQ (proto_string (rs_proto svc));
                   SMatch (EPayload "th" "dport") (ENumber (rs_port svc)) EQ;
                   SDnat (EString (ip_to_string (sa_ip backend))) nat_family (ENumber (sa_port backend))];
                ru_comment := String.append "real service DNAT → " (socket_addr_to_string backend) |}
  | Host | Incus _ => None
  end.

Definition flowtable_objects (table : string) (policy : Policy) : list NfObject :=
  match flowtable policy with
  | None => []
  | Some ft =>
      [Add (OFlowTable {| fl_family := FAMILY; fl_table := table; fl_name := "ft"; fl_hook := HookIngress;
                          fl_prio := 0; fl_dev := ft_devices ft |});
       Add (OChain {| ch_family := FAMILY; ch_table := table; ch_name := "forward"; ch_type := TypeFilter;
                      ch_hook := HookForward; ch_prio := 0; ch_policy := PolicyAccept |});
       Add (ORule {| ru_family := FAMILY; ru_table := table; ru_chain := "forward";
                     ru_expr := [iifname_match (interface policy);
                                 SMatch (ECt "state") (EString "established") IN;
                                 SFlow "@ft"];
                     ru_comment := "real-service fast path: offload established flows" |})]
  end.

Definition rule_objects (l : list Rule) : list NfObject := (λ r, Add (ORule r)) <$> l.

Definition render (policy : Policy) : result (list NfObject) PolicyError :=
  result_bind (resolve policy) (λ resolved,
    let ids := derive (instance policy) in
    let table := nft_table ids in
    let tbl := {| tb_family := FAMILY; tb_name := table |} in
    Ok ([Add (OTable tbl);
         FlushTable tbl;
         real_set table "real_v4" Ipv4Addr (set_elements_for resolved (λ s, ip_is_v4 (rs_addr s)));
         real_set table "real_v6" Ipv6Addr (set_elements_for resolved (λ s, negb (ip_is_v4 (rs_addr s))));
         prerouting_chain table] ++
        rule_objects ((λ '(set_name, nfproto), accept_rule table (interface policy) set_name nfproto) <$>
                      [("real_v4", "ipv4"); ("real_v6", "ipv6")]) ++
        rule_objects (match stateless_tcp_ports policy with
                      | [] => []
                      | _ => stateless_tcp_rule table policy <$> prefixes policy
                      end) ++
        rule_objects (tproxy_rule ids policy <$> prefixes policy) ++
        rule_objects (queue_rule table policy <$> prefixes policy) ++
        rule_objects (if decide (default_state policy = Closed) then [drop_rule table policy] else []) ++
        [dnat_chain table] ++
        rule_objects (omap (dnat_rule table policy) resolved) ++
        flowtable_objects table policy)).

End render.

(** ** The kernel *)

(** What the rules look at: the input interface, the destination, the
    transport protocol and the transport header's destination port field, when
    there is one, and the connection tracking state. *)
Record Packet := {
  pk_iif : string; pk_dst : IpAddr; pk_proto : Z; pk_dport : option Z; pk_established : bool;
}.

Definition proto_number (p : L4Proto) : Z := match p with Tcp => 6 | Udp => 17 end.

(** A name that is neither a wildcard ("*") nor a set reference ("@"). *)
Definition plain_name (s : string) : Prop := (42 ∉ str_bytes s) ∧ (64 ∉ str_bytes s).

(** nft(8). The commands act on one state: the rules of every chain and the
    elements of every set of every table. *)
Class NftKernel := {
  KState : Type;
  (** One command of a transaction; [None] is an error. *)
  k_exec : NfObject → KState → option KState;
  k_rules : KState → string → string → list Rule;
  k_elems : KState → string → string → list Expression;
  k_match : KState → string → Packet → Expression → Expression → Operator → bool;

  (** flush table: the rules of all chains of the table are deleted, chains
      and sets stay; add rule: at the end of the chain. *)
  k_rules_exec : ∀ c s s' t ch, k_exec c s = Some s' →
    k_rules s' t ch =
    match c with
    | FlushTable tb => if decide (t = tb_name tb) then [] else k_rules s t ch
    | Add (ORule r) => if decide (t = ru_table r ∧ ch = ru_chain r) then k_rules s t ch ++ [r] else k_rules s t ch
    | _ => k_rules s t ch
    end;
  (** add set: the set is created if it is absent, the elements are added. *)
  k_elems_exec : ∀ c s s' t n e, k_exec c s = Some s' →
    e ∈ k_elems s' t n ↔ e ∈ k_elems s t n ∨
      ∃ st, c = Add (OSet st) ∧ t = st_table st ∧ n = st_name st ∧ e ∈ default [] (st_elem st);

  (** The matches. *)
  k_iifname : ∀ s t pk i, plain_name i →
    k_match s t pk (EMeta Iifname) (EString i) EQ = bool_decide (pk_iif pk = i);
  k_nfproto4 : ∀ s t pk, k_match s t pk (EMeta Nfproto) (EString "ipv4") EQ = ip_is_v4 (pk_dst pk);
  k_nfproto6 : ∀ s t pk, k_match s t pk (EMeta Nfproto) (EString "ipv6") EQ = negb (ip_is_v4 (pk_dst pk));
  k_l4proto_eq : ∀ s t pk pr,
    k_match s t pk (EMeta L4proto) (EString (proto_string pr)) EQ = (pk_proto pk =? proto_number pr);
  k_l4proto_neq : ∀ s t pk pr,
    k_match s t pk (EMeta L4proto) (EString (proto_string pr)) NEQ = negb (pk_proto pk =? proto_number pr);
  k_daddr : ∀ s t pk a, ip_wf a →
    k_match s t pk (EPayload (proto_name a) "daddr") (EString (ip_to_string a)) EQ = bool_decide (pk_dst pk = a);
  k_daddr_prefix : ∀ s t pk a n, ip_wf a → 0 ≤ n ≤ ip_bits a →
    k_match s t pk (EPayload (proto_name a) "daddr") (EPrefix (EString (ip_to_string a)) n) EQ = true ↔
    ip_is_v4 a = ip_is_v4 (pk_dst pk) ∧
    ip_val a / 2 ^ (ip_bits a - n) = ip_val (pk_dst pk) / 2 ^ (ip_bits a - n);
  k_dport : ∀ s t pk n,
    k_match s t pk (EPayload "th" "dport") (ENumber n) EQ = bool_decide (pk_dport pk = Some n);
  k_dport_in : ∀ s t pk l,
    k_match s t pk (EPayload "th" "dport") (ESet (ENumber <$> l)) IN = true ↔
    ∃ n, n ∈ l ∧ pk_dport pk = Some n;
  (** Membership of destination, protocol and port in a set of such tuples of
      one address family. *)
  k_concat_in : ∀ s t pk n fam,
    (∀ e, e ∈ k_elems s t n → ∃ sv, e = concat_element sv ∧ ip_wf (rs_addr sv) ∧ proto_name (rs_addr sv) = fam) →
    proto_name (pk_dst pk) = fam →
    k_match s t pk (EConcat [EPayload fam "daddr"; EMeta L4proto; EPayload "th" "dport"])
      (EString (String.append "@" n)) IN = true ↔
    ∃ sv, concat_element sv ∈ k_elems s t n ∧ ip_wf (rs_addr sv) ∧ rs_addr sv = pk_dst pk ∧
      proto_number (rs_proto sv) = pk_proto pk ∧ pk_dport pk = Some (rs_port sv);
  k_established : ∀ s t pk,
    k_match s t pk (ECt "state") (EString "established") IN = pk_established pk;
}.

Section kernel.
Context `{NftKernel}.

(** A transaction. *)
Fixpoint k_load (l : list NfObject) (s : KState) : option KState :=
  match l with [] => Some s | c :: l => s ← k_exec c s; k_load l s end.

(** What happens to a packet: its mark, the socket it is redirected to, its
    new destination, whether its flow is offloaded. *)
Inductive Verdict : Type := VAccept | VDrop | VQueue (n : Z).
Record Effects := {
  ef_mark : option Z; ef_tproxy : option Z; ef_dnat : option (string * Z); ef_offload : bool;
}.
Definition no_effects : Effects := {| ef_mark := None; ef_tproxy := None; ef_dnat := None; ef_offload := false |}.
Definition with_mark (m : Z) (o : Effects) : Effects :=
  {| ef_mark := Some m; ef_tproxy := ef_tproxy o; ef_dnat := ef_dnat o; ef_offload := ef_offload o |}.
Definition with_tproxy (p : Z) (o : Effects) : Effects :=
  {| ef_mark := ef_mark o; ef_tproxy := Some p; ef_dnat := ef_dnat o; ef_offload := ef_offload o |}.
Definition with_dnat (a : string) (p : Z) (o : Effects) : Effects :=
  {| ef_mark := ef_mark o; ef_tproxy := ef_tproxy o; ef_dnat := Some (a, p); ef_offload := ef_offload o |}.
Definition with_offload (o : Effects) : Effects :=
  {| ef_mark := ef_mark o; ef_tproxy := ef_tproxy o; ef_dnat := ef_dnat o; ef_offload := true |}.

Section run.
(** [sock family port]: a transparent socket listens there. *)
Context (s : KState) (table : string) (sock : string → Z → bool) (pk : Packet).

(** The statements of a rule, left to right: a match that fails, or a tproxy
    that finds no socket, ends the rule. *)
Fixpoint run_statements (l : list Statement) (o : Effects) : Effects * option Verdict :=
  match l with
  | [] => (o, None)
  | SMatch lhs rhs op :: l => if k_match s table pk lhs rhs op then run_statements l o else (o, None)
  | SAccept :: _ => (o, Some VAccept)
  | SDrop :: _ => (o, Some VDrop)
  | SQueue (ENumber n) :: _ => (o, Some (VQueue n))
  | SMangle (EMeta Mark) (ENumber m) :: l => run_statements l (with_mark m o)
  | STProxy fam port :: l => if sock fam port then run_statements l (with_tproxy port o) else (o, None)
  | SDnat (EString a) _ (ENumber p) :: _ => (with_dnat a p o, Some VAccept)
  | SFlow _ :: l => run_statements l (with_offload o)
  | _ => (o, None)
  end.

(** The rules of a chain, first to last, until one has a verdict. *)
Fixpoint run_rules (l : list Rule) (o : Effects) : Effects * option Verdict :=
  match l with
  | [] => (o, None)
  | r :: l => match run_statements (ru_expr r) o with
              | (o', Some v) => (o', Some v)
              | (o', None) => run_rules l o'
              end
  end.

(** A chain whose policy is to accept. *)
Definition run_chain (name : string) (o : Effects) : Effects * Verdict :=
  let '(o, v) := run_rules (k_rules s table name) o in (o, default VAccept v).

(** The prerouting hook: the chain of priority -300, then, for a packet it
    accepts, the one of priority -100. *)
Definition run_prerouting : Effects * Verdict :=
  match run_chain "prerouting" no_effects with
  | (o, VAccept) => run_chain "dnat" o
  | r => r
  end.

Definition run_forward : Effects * Verdict := run_chain "forward" no_effects.

Lemma run_rules_app l1 l2 o :
  run_rules (l1 ++ l2) o = match run_rules l1 o with
                           | (o', Some v) => (o', Some v)
                           | (o', None) => run_rules l2 o'
                           end.
Proof.
  revert o. induction l1 as [|r l1 IH]; intros o; [done|]. cbn.
  destruct (run_statements (ru_expr r) o) as [o' [v|]]; [done|]. apply IH.
Qed.

(** Rules that all do the same when they apply: with a verdict, or with an
    effect that is the same twice. *)
Lemma run_rules_same {A} (f : A → Rule) (hit : A → bool) (e : Effects → Effects) (v : option Verdict) l o :
  (∀ a o, a ∈ l → run_statements (ru_expr (f a)) o = if hit a then (e o, v) else (o, None)) →
  (∀ o, e (e o) = e o) →
  run_rules (f <$> l) o = if existsb hit l then (e o, v) else (o, None).
Proof.
  intros Hf He. revert o. induction l as [|a l IH]; intros o; [done|]. cbn. rewrite Hf by left.
  assert (∀ o, run_rules (f <$> l) o = if existsb hit l then (e o, v) else (o, None)) as IH'.
  { intros o'. apply IH. intros a' o'' Ha. apply Hf. by right. }
  destruct (hit a); cbn; [|apply IH']. destruct v as [v|]; [done|].
  rewrite IH'. destruct (existsb hit l); by rewrite ?He.
Qed.

End run.

(** ** What loading does to the state *)

Lemma k_load_app l1 l2 s : k_load (l1 ++ l2) s = s ← k_load l1 s; k_load l2 s.
Proof.
  revert s. induction l1 as [|c l1 IH]; intros s; [done|]. cbn. destruct (k_exec c s); [|done]. cbn. apply IH.
Qed.

(** The rules a list of objects adds to a chain. *)
Definition rules_of (t ch : string) (l : list NfObject) : list Rule :=
  omap (λ c, match c with Add (ORule r) => if decide (t = ru_table r ∧ ch = ru_chain r) then Some r else None
                        | _ => None end) l.
Definition no_flush (c : NfObject) : Prop := match c with FlushTable _ => False | Add _ => True end.

Lemma load_rules l s s' t ch :
  Forall no_flush l → k_load l s = Some s' → k_rules s' t ch = k_rules s t ch ++ rules_of t ch l.
Proof.
  intros Hl. revert s. induction Hl as [|c l Hc Hl IH]; intros s; cbn [k_load]; [intros [= <-]; by rewrite app_nil_r|].
  destruct (k_exec c s) as [s1|] eqn:E; [|done]. cbn. intros ->%IH. rewrite (k_rules_exec c s s1 t ch E).
  unfold rules_of. cbn. destruct c as [[]|]; try done. case_decide; [by rewrite <- app_assoc|done].
Qed.

(** The elements a list of objects adds to a set. *)
Definition elems_of (t n : string) (l : list NfObject) : list Expression :=
  l ≫= λ c, match c with
             | Add (OSet st) => if decide (t = st_table st ∧ n = st_name st) then default [] (st_elem st) else []
             | _ => []
             end.

Lemma load_elems l s s' t n e :
  k_load l s = Some s' → e ∈ k_elems s' t n ↔ e ∈ k_elems s t n ∨ e ∈ elems_of t n l.
Proof.
  revert s. induction l as [|c l IH]; intros s; cbn [k_load].
  { intros [= <-]. unfold elems_of. cbn. rewrite elem_of_nil. tauto. }
  destruct (k_exec c s) as [s1|] eqn:E; [|done]. cbn. intros Hl. rewrite (IH _ Hl), (k_elems_exec c s s1 t n e E).
  unfold elems_of. cbn. rewrite elem_of_app.
  enough ((∃ st, c = Add (OSet st) ∧ t = st_table st ∧ n = st_name st ∧ e ∈ default [] (st_elem st)) ↔
    e ∈ match c with Add (OSet st) => if decide (t = st_table st ∧ n = st_name st) then default [] (st_elem st) else []
             | _ => [] end) by tauto.
  split.
  - intros (st & -> & -> & -> & He). by rewrite decide_True.
  - destruct c as [[|st| | |]|]; try (by intros ?%elem_of_nil). case_decide as Hd; [|by intros ?%elem_of_nil].
    intros He. exists st. naive_solver.
Qed.

End kernel.

(** ** What the policy asks for *)

Section classify.
Context `{IpNetLib} `{NftKernel}.

Definition policy_wf (p : Policy) : Prop :=
  plain_name (interface p) ∧ Forall (λ n, ip_wf (net_addr n)) (prefixes p) ∧
  Forall (λ t, Forall ip_wf (te_owned t)) (tenants p).

Definition serves (pk : Packet) (sv : ResolvedService) : bool :=
  bool_decide (rs_addr sv = pk_dst pk) && (proto_number (rs_proto sv) =? pk_proto pk) &&
  bool_decide (pk_dport pk = Some (rs_port sv)).

(** The fixed backend of a service, when it is of the service's family. *)
Definition backend_of (sv : ResolvedService) : option SocketAddr :=
  match rs_target sv with
  | Nat_ b => if Bool.eqb (ip_is_v4 (rs_addr sv)) (sa_is_ipv4 b) then Some b else None
  | Host | Incus _ => None
  end.

Definition dnat_effect (sv : ResolvedService) (o : Effects) : Effects :=
  match backend_of sv with
  | Some b => with_dnat (ip_to_string (sa_ip b)) (sa_port b) o
  | None => o
  end.

(** The decision on a packet: a declared service is let through (and sent to
    its fixed backend), other traffic for a managed prefix goes to the
    responders, and the rest is dropped under a closed policy; packets of
    other interfaces are left alone. [live] are the services the sets hold. *)
Definition expected (live : list ResolvedService) (p : Policy) (sock : string → Z → bool) (pk : Packet) : Effects * Verdict :=
  let mark := tproxy_mark (derive (instance p)) in
  let otherwise := if decide (default_state p = Closed) then VDrop else VAccept in
  let queue := (no_effects, VQueue (nfqueue_num (engine p))) in
  if negb (bool_decide (pk_iif pk = interface p)) then (no_effects, VAccept)
  else if existsb (serves pk) live
  then (match List.find (serves pk) (declared (tenants p)) with
        | Some sv => dnat_effect sv no_effects
        | None => no_effects
        end, VAccept)
  else if negb (existsb (λ n, net_contains n (pk_dst pk)) (prefixes p)) then (no_effects, otherwise)
  else if negb (pk_proto pk =? 6) then queue
  else if existsb (λ n, bool_decide (pk_dport pk = Some n)) (stateless_tcp_ports p) then queue
  else if sock (proto_name (pk_dst pk)) (tproxy_port (engine p))
  then (with_tproxy (tproxy_port (engine p)) (with_mark mark no_effects), VAccept)
  else (with_mark mark no_effects, otherwise).

(** ** The rules of the loaded table *)

Definition prerouting_rules (p : Policy) : list Rule :=
  let ids := derive (instance p) in
  [accept_rule (nft_table ids) (interface p) "real_v4" "ipv4";
   accept_rule (nft_table ids) (interface p) "real_v6" "ipv6"] ++
  match stateless_tcp_ports p with
  | [] => []
  | _ => stateless_tcp_rule (nft_table ids) p <$> prefixes p
  end ++
  (tproxy_rule ids p <$> prefixes p) ++
  (queue_rule (nft_table ids) p <$> prefixes p) ++
  (if decide (default_state p = Closed) then [drop_rule (nft_table ids) p] else []).

Definition dnat_rules (p : Policy) : list Rule :=
  omap (dnat_rule (nft_table (derive (instance p))) p) (declared (tenants p)).

Lemma rules_of_app t ch l1 l2 : rules_of t ch (l1 ++ l2) = rules_of t ch l1 ++ rules_of t ch l2.
Proof. apply omap_app. Qed.

Lemma rules_of_here t ch l :
  Forall (λ r, ru_table r = t ∧ ru_chain r = ch) l → rules_of t ch (rule_objects l) = l.
Proof.
  unfold rules_of, rule_objects. induction 1 as [|r l [<- <-] _ IH]; [done|]. cbn. rewrite decide_True by done.
  by rewrite IH.
Qed.

Lemma rules_of_elsewhere t ch l :
  Forall (λ r, ru_table r ≠ t ∨ ru_chain r ≠ ch) l → rules_of t ch (rule_objects l) = [].
Proof.
  unfold rules_of, rule_objects. induction 1 as [|r l Hr _ IH]; [done|]. cbn.
  rewrite decide_False by naive_solver. done.
Qed.

Lemma rule_objects_app l1 l2 : rule_objects (l1 ++ l2) = rule_objects l1 ++ rule_objects l2.
Proof. apply fmap_app. Qed.

Definition head_objects (t : string) (p : Policy) : list NfObject :=
  [real_set t "real_v4" Ipv4Addr (set_elements_for (declared (tenants p)) (λ s, ip_is_v4 (rs_addr s)));
   real_set t "real_v6" Ipv6Addr (set_elements_for (declared (tenants p)) (λ s, negb (ip_is_v4 (rs_addr s))));
   prerouting_chain t].

(** The rendered objects, by chain. *)
Lemma render_objects p objs :
  render p = Ok objs →
  let t := nft_table (derive (instance p)) in
  let tbl := {| tb_family := FAMILY; tb_name := t |} in
  objs = [Add (OTable tbl); FlushTable tbl] ++ head_objects t p ++ rule_objects (prerouting_rules p) ++
         [dnat_chain t] ++ rule_objects (dnat_rules p) ++ flowtable_objects t p ∧
  NoDup (service_key <$> declared (tenants p)) ∧ (∀ a, a ∈ (ownership (tenants p)).*1 → managed p a).
Proof.
  unfold render. destruct (resolve p) as [out|] eqn:E; [|done]. apply resolve_ok in E as (-> & Hm & _ & Hd).
  cbn [result_bind]. intros [= <-]. split; [|done]. unfold prerouting_rules, dnat_rules.
  rewrite !rule_objects_app, <- !app_assoc. done.
Qed.

Lemma prerouting_rules_chain p :
  Forall (λ r, ru_table r = nft_table (derive (instance p)) ∧ ru_chain r = "prerouting") (prerouting_rules p).
Proof.
  unfold prerouting_rules. repeat (apply Forall_app; split).
  - by repeat constructor.
  - destruct (stateless_tcp_ports p); [constructor|]. by apply Forall_fmap, Forall_true.
  - by apply Forall_fmap, Forall_true.
  - by apply Forall_fmap, Forall_true.
  - case_decide; by repeat constructor.
Qed.

Lemma dnat_rules_chain p :
  Forall (λ r, ru_table r = nft_table (derive (instance p)) ∧ ru_chain r = "dnat") (dnat_rules p).
Proof.
  unfold dnat_rules. apply Forall_forall. intros r (sv & _ & Hr)%list_elem_of_omap. unfold dnat_rule in Hr.
  destruct (rs_target sv); try done. destruct (negb _); [done|]. by injection Hr as <-.
Qed.

Lemma no_flush_tail p t :
  Forall no_flush (head_objects t p ++ rule_objects (prerouting_rules p) ++ [dnat_chain t] ++
    rule_objects (dnat_rules p) ++ flowtable_objects t p).
Proof.
  assert (∀ l, Forall no_flush (rule_objects l)) as Hr by (intros l; by apply Forall_fmap, Forall_true).
  repeat (apply Forall_app; split); try apply Hr; [by repeat constructor..|].
  unfold flowtable_objects. destruct (flowtable p); by repeat constructor.
Qed.

Lemma k_load_cons c l s s' : k_load (c :: l) s = Some s' → ∃ s1, k_exec c s = Some s1 ∧ k_load l s1 = Some s'.
Proof. cbn. intros (s1 & ? & ?)%bind_Some. by exists s1. Qed.

(** Loading replaces the rules of the table's chains. *)
Lemma load_render p objs s s' :
  render p = Ok objs → k_load objs s = Some s' →
  let t := nft_table (derive (instance p)) in
  k_rules s' t "prerouting" = prerouting_rules p ∧ k_rules s' t "dnat" = dnat_rules p ∧
  k_rules s' t "forward" = rules_of t "forward" (flowtable_objects t p) ∧
  ∀ t', t' ≠ t → ∀ ch, k_rules s' t' ch = k_rules s t' ch.
Proof.
  intros (-> & _ & _)%render_objects Hl. set (t := nft_table _). cbv zeta. cbn [app] in Hl.
  apply k_load_cons in Hl as (s1 & E1 & Hl). apply k_load_cons in Hl as (s2 & E2 & Hl).
  fold t in E1, E2, Hl.
  pose proof (λ t' ch, load_rules _ _ _ t' ch (no_flush_tail p t) Hl) as Hr.
  pose proof (prerouting_rules_chain p) as Hpre. pose proof (dnat_rules_chain p) as Hdn. fold t in Hpre, Hdn.
  assert (∀ l c t' ch, Forall (λ r, ru_table r = t ∧ ru_chain r = c) l → t' ≠ t ∨ ch ≠ c →
    rules_of t' ch (rule_objects l) = []) as Helse.
  { intros l c t' ch Hf Hne. apply rules_of_elsewhere. eapply Forall_impl; [exact Hf|]. naive_solver. }
  assert (∀ t' ch, k_rules s2 t' ch = if decide (t' = t) then [] else k_rules s t' ch) as H2.
  { intros t' ch. rewrite (k_rules_exec _ _ _ _ _ E2), (k_rules_exec _ _ _ _ _ E1). done. }
  assert (∀ t' ch, t' ≠ t ∨ ch ≠ "forward" → rules_of t' ch (flowtable_objects t p) = []) as Hflow.
  { intros t' ch Hne. unfold flowtable_objects. destruct (flowtable p); [|done]. cbn.
    rewrite decide_False; naive_solver. }
  split_and!; [..|intros t' Hne ch]; rewrite Hr, H2, !rules_of_app.
  - rewrite decide_True, (rules_of_here _ _ (prerouting_rules p)) by done.
    rewrite (Helse _ _ _ _ Hdn), Hflow by naive_solver. cbn. by rewrite !app_nil_r.
  - rewrite decide_True, (rules_of_here _ _ (dnat_rules p)) by done.
    rewrite (Helse _ _ _ _ Hpre), Hflow by naive_solver. cbn. by rewrite !app_nil_r.
  - rewrite decide_True, (Helse _ _ _ _ Hpre), (Helse _ _ _ _ Hdn) by naive_solver. done.
  - rewrite decide_False, (Helse _ _ _ _ Hpre), (Helse _ _ _ _ Hdn), Hflow by naive_solver. cbn. by rewrite !app_nil_r.
Qed.

(** ** One packet through the rules *)

Lemma in_prefix_match s t pk n :
  ip_wf (net_addr n) →
  k_match s t pk (EPayload (proto_name (net_addr n)) "daddr")
    (EPrefix (EString (ip_to_string (net_addr n))) (net_prefix_len n)) EQ = net_contains n (pk_dst pk).
Proof.
  intros Hw. apply eq_true_iff_eq. rewrite k_daddr_prefix by (done || apply net_len_bound).
  rewrite net_contains_spec. split; intros [Hf Hv]; (split; [done|]).
  all: destruct (net_addr n), (pk_dst pk); done.
Qed.

Section packet.
Context (p : Policy) (Hwf : policy_wf p) (s : KState) (sock : string → Z → bool) (pk : Packet).
Let ids := derive (instance p).
Let t := nft_table ids.

(** The managed prefix rules: the match on interface, protocol and destination
    comes first. *)
Lemma run_prefixed n rest o op :
  n ∈ prefixes p →
  run_statements s t sock pk (iifname_match (interface p) :: l4proto_match op "tcp" :: daddr_in_prefix n :: rest) o =
  if bool_decide (pk_iif pk = interface p) &&
     k_match s t pk (EMeta L4proto) (EString "tcp") op && net_contains n (pk_dst pk)
  then run_statements s t sock pk rest o else (o, None).
Proof.
  destruct Hwf as (Hi & Hp & _). intros Hn. unfold iifname_match, l4proto_match, daddr_in_prefix. cbn [run_statements].
  rewrite k_iifname by done. destruct (bool_decide _); [|done]. cbn [andb].
  destruct (k_match s t pk (EMeta L4proto) (EString "tcp") op); [|done]. cbn [andb].
  rewrite in_prefix_match; [done|]. rewrite Forall_forall in Hp. by apply Hp.
Qed.

Lemma is_tcp : k_match s t pk (EMeta L4proto) (EString "tcp") EQ = (pk_proto pk =? 6).
Proof. exact (k_l4proto_eq s t pk Tcp). Qed.

Lemma is_not_tcp : k_match s t pk (EMeta L4proto) (EString "tcp") NEQ = negb (pk_proto pk =? 6).
Proof. exact (k_l4proto_neq s t pk Tcp). Qed.

Lemma tproxy_family n : net_contains n (pk_dst pk) = true → proto_name (net_addr n) = proto_name (pk_dst pk).
Proof. rewrite net_contains_spec. unfold proto_name. by intros [-> _]. Qed.

(** The rest of a prefixed rule does the same for all prefixes. *)
Lemma run_prefixes (f : IpNet → Rule) op rest e v o :
  (∀ n, ru_expr (f n) = iifname_match (interface p) :: l4proto_match op "tcp" :: daddr_in_prefix n :: rest n) →
  (∀ n o, n ∈ prefixes p → net_contains n (pk_dst pk) = true → run_statements s t sock pk (rest n) o = (e o, v)) →
  (∀ o, e (e o) = e o) →
  run_rules s t sock pk (f <$> prefixes p) o =
  if bool_decide (pk_iif pk = interface p) && k_match s t pk (EMeta L4proto) (EString "tcp") op &&
     existsb (λ n, net_contains n (pk_dst pk)) (prefixes p)
  then (e o, v) else (o, None).
Proof.
  intros Hf Hr He. set (b := _ && k_match _ _ _ _ _ _).
  rewrite (run_rules_same s t sock pk f (λ n, b && net_contains n (pk_dst pk)) e v).
  - assert (∀ l, existsb (λ n, b && net_contains n (pk_dst pk)) l = b && existsb (λ n, net_contains n (pk_dst pk)) l) as ->;
      [|done]. intros l. induction l as [|n l IH]; cbn; [by rewrite andb_false_r|]. rewrite IH. by destruct b.
  - intros n o' Hn. rewrite Hf, run_prefixed by done. fold b. destruct b; [|done]. cbn [andb].
    destruct (net_contains n (pk_dst pk)) eqn:E; [by apply Hr|done].
  - done.
Qed.

Lemma run_stateless o :
  run_rules s t sock pk (match stateless_tcp_ports p with [] => [] | _ => stateless_tcp_rule t p <$> prefixes p end) o =
  (o, if bool_decide (pk_iif pk = interface p) && (pk_proto pk =? 6) &&
         existsb (λ n, net_contains n (pk_dst pk)) (prefixes p) &&
         existsb (λ n, bool_decide (pk_dport pk = Some n)) (stateless_tcp_ports p)
      then Some (VQueue (nfqueue_num (engine p))) else None).
Proof.
  assert (k_match s t pk (EPayload "th" "dport") (ESet (ENumber <$> stateless_tcp_ports p)) IN =
    existsb (λ n, bool_decide (pk_dport pk = Some n)) (stateless_tcp_ports p)) as Hd.
  { apply eq_true_iff_eq. rewrite k_dport_in, existsb_exists. setoid_rewrite list_elem_of_In.
    by setoid_rewrite bool_decide_eq_true. }
  destruct (stateless_tcp_ports p) as [|n l] eqn:E; [cbn; by rewrite andb_false_r|]. rewrite <- E in *. clear E n l.
  erewrite (run_prefixes _ EQ _ (λ o, o)
    (if existsb (λ n, bool_decide (pk_dport pk = Some n)) (stateless_tcp_ports p)
     then Some (VQueue (nfqueue_num (engine p))) else None)); [|done| |done].
  - rewrite is_tcp. destruct (_ && existsb _ (prefixes p)); [|done]. cbn [andb]. by destruct (existsb _ _).
  - intros n o' _ _. cbn [run_statements]. rewrite Hd. by destruct (existsb _ _).
Qed.

Lemma run_tproxy o :
  run_rules s t sock pk (tproxy_rule ids p <$> prefixes p) o =
  if bool_decide (pk_iif pk = interface p) && (pk_proto pk =? 6) &&
     existsb (λ n, net_contains n (pk_dst pk)) (prefixes p)
  then if sock (proto_name (pk_dst pk)) (tproxy_port (engine p))
       then (with_tproxy (tproxy_port (engine p)) (with_mark (tproxy_mark ids) o), Some VAccept)
       else (with_mark (tproxy_mark ids) o, None)
  else (o, None).
Proof.
  destruct (sock (proto_name (pk_dst pk)) (tproxy_port (engine p))) eqn:Es.
  - erewrite (run_prefixes _ EQ _ (λ o, with_tproxy (tproxy_port (engine p)) (with_mark (tproxy_mark ids) o)) (Some VAccept));
      [by rewrite is_tcp|done| |done].
    intros n o' _ Hc. cbn [run_statements]. rewrite (tproxy_family n) by done. by rewrite Es.
  - erewrite (run_prefixes _ EQ _ (with_mark (tproxy_mark ids)) None); [by rewrite is_tcp|done| |done].
    intros n o' _ Hc. cbn [run_statements]. rewrite (tproxy_family n) by done. by rewrite Es.
Qed.

Lemma run_queue o :
  run_rules s t sock pk (queue_rule t p <$> prefixes p) o =
  (o, if bool_decide (pk_iif pk = interface p) && negb (pk_proto pk =? 6) &&
         existsb (λ n, net_contains n (pk_dst pk)) (prefixes p)
      then Some (VQueue (nfqueue_num (engine p))) else None).
Proof.
  erewrite (run_prefixes _ NEQ _ (λ o, o) (Some (VQueue (nfqueue_num (engine p))))); [|done..].
  rewrite is_not_tcp. by destruct (_ && _).
Qed.

Lemma run_drop o :
  run_rules s t sock pk (if decide (default_state p = Closed) then [drop_rule t p] else []) o =
  (o, if bool_decide (pk_iif pk = interface p) && bool_decide (default_state p = Closed) then Some VDrop else None).
Proof.
  destruct Hwf as (Hi & _). case_decide as Hd.
  - rewrite (bool_decide_eq_true_2 (default_state p = Closed)), andb_true_r by done. unfold drop_rule, iifname_match. cbn.
    rewrite k_iifname by done. by destruct (bool_decide _).
  - by rewrite (bool_decide_eq_false_2 (default_state p = Closed)), andb_false_r by done.
Qed.

(** The sets hold the services [live]. *)
Definition sets_hold (live : list ResolvedService) : Prop :=
  Forall (λ sv, ip_wf (rs_addr sv)) live ∧
  (∀ e, e ∈ k_elems s t "real_v4" ↔ e ∈ set_elements_for live (λ sv, ip_is_v4 (rs_addr sv))) ∧
  (∀ e, e ∈ k_elems s t "real_v6" ↔ e ∈ set_elements_for live (λ sv, negb (ip_is_v4 (rs_addr sv)))).

Lemma set_elements_elem live (P : ResolvedService → bool) e :
  e ∈ set_elements_for live P ↔ ∃ sv, e = concat_element sv ∧ sv ∈ live ∧ P sv = true.
Proof.
  unfold set_elements_for. rewrite list_elem_of_fmap. setoid_rewrite list_elem_of_filter. naive_solver.
Qed.

Lemma concat_element_inj a b :
  ip_wf (rs_addr a) → ip_wf (rs_addr b) → concat_element a = concat_element b → service_key a = service_key b.
Proof.
  intros Ha Hb [= Hx Hy Hz]. apply (f_equal parse_ip) in Hx. rewrite !parse_ip_to_string in Hx by done.
  injection Hx as Hx. unfold service_key. rewrite Hx, Hz.
  assert (rs_proto a = rs_proto b) as -> by (destruct (rs_proto a), (rs_proto b); done). done.
Qed.

Lemma serves_key a b : service_key a = service_key b → serves pk a = serves pk b.
Proof. unfold service_key, serves. by intros [= -> -> ->]. Qed.

(** One accept rule, for packets of its own family. *)
Lemma real_set_match live name fam :
  Forall (λ sv, ip_wf (rs_addr sv)) live → proto_name (pk_dst pk) = fam →
  (∀ e, e ∈ k_elems s t name ↔
    e ∈ set_elements_for live (λ sv, Bool.eqb (ip_is_v4 (rs_addr sv)) (ip_is_v4 (pk_dst pk)))) →
  k_match s t pk (EConcat [EPayload fam "daddr"; EMeta L4proto; EPayload "th" "dport"])
    (EString (String.append "@" name)) IN = existsb (serves pk) live.
Proof.
  intros Hl Hf He. setoid_rewrite set_elements_elem in He. rewrite Forall_forall in Hl.
  apply eq_true_iff_eq. rewrite k_concat_in; [|intros e Hx; apply He in Hx as (sv & -> & Hin & Hv)|done].
  2:{ exists sv. split_and!; [done|by apply Hl|]. apply eqb_prop in Hv. unfold proto_name in *. by rewrite Hv. }
  rewrite existsb_exists. setoid_rewrite <- list_elem_of_In. setoid_rewrite He. split.
  - intros (sv & (sv' & Heq & Hin & Hv) & Hw & Ha & Hp & Hd). exists sv'. split; [done|].
    rewrite <- (serves_key sv) by (apply concat_element_inj; auto).
    unfold serves. rewrite Ha, Hp, Hd, Z.eqb_refl. rewrite !bool_decide_eq_true_2 by done. done.
  - intros (sv & Hin & Hs). unfold serves in Hs. rewrite !andb_true_iff, !bool_decide_eq_true, Z.eqb_eq in Hs.
    destruct Hs as [[Ha Hp] Hd]. exists sv. split_and!; [|by apply Hl|done..].
    exists sv. rewrite Ha, Bool.eqb_reflx. done.
Qed.

Lemma set_elements_ext live (P Q : ResolvedService → bool) :
  (∀ sv, P sv = Q sv) → set_elements_for live P = set_elements_for live Q.
Proof.
  intros Hpq. unfold set_elements_for. f_equal. apply list_filter_iff. intros sv. by rewrite Hpq.
Qed.

Lemma run_accept live o :
  sets_hold live →
  run_rules s t sock pk [accept_rule t (interface p) "real_v4" "ipv4"; accept_rule t (interface p) "real_v6" "ipv6"] o =
  (o, if bool_decide (pk_iif pk = interface p) && existsb (serves pk) live then Some VAccept else None).
Proof.
  destruct Hwf as (Hi & _). intros (Hl & H4 & H6). unfold accept_rule, iifname_match.
  rewrite decide_True, decide_False by done.
  cbn [run_rules ru_expr run_statements]. rewrite !k_iifname, k_nfproto4, k_nfproto6 by done.
  destruct (bool_decide (pk_iif pk = interface p)); [|done]. cbn [andb].
  destruct (ip_is_v4 (pk_dst pk)) eqn:Ev; cbn [negb].
  - rewrite (real_set_match live); [by destruct (existsb _ _)|done|unfold proto_name; by rewrite Ev|].
    intros e. rewrite H4. erewrite set_elements_ext; [reflexivity|]. intros sv. cbv beta. rewrite Ev. by destruct (ip_is_v4 (rs_addr sv)).
  - rewrite (real_set_match live); [by destruct (existsb _ _)|done|unfold proto_name; by rewrite Ev|].
    intros e. rewrite H6. erewrite set_elements_ext; [reflexivity|]. intros sv. cbv beta. rewrite Ev. by destruct (ip_is_v4 (rs_addr sv)).
Qed.

(** The destination NAT rules: at most one service matches. *)
Lemma run_dnat_one sv o :
  ip_wf (rs_addr sv) →
  run_rules s t sock pk (match dnat_rule t p sv with Some r => [r] | None => [] end) o =
  if bool_decide (pk_iif pk = interface p) && serves pk sv
  then (dnat_effect sv o, (λ _, VAccept) <$> backend_of sv)
  else (o, None).
Proof.
  destruct Hwf as (Hi & _). intros Hw. unfold dnat_rule, dnat_effect, backend_of.
  destruct (rs_target sv) as [| |b]; cbn [run_rules]; [by destruct (_ && _)..|].
  destruct (Bool.eqb (ip_is_v4 (rs_addr sv)) (sa_is_ipv4 b)); cbn [negb]; [|cbn; by destruct (_ && _)].
  unfold iifname_match, l4proto_match. cbn [run_rules ru_expr run_statements].
  rewrite k_iifname, k_daddr, k_l4proto_eq, k_dport by done. unfold serves.
  rewrite (Z.eqb_sym (proto_number _)), (bool_decide_ext (rs_addr sv = pk_dst pk) (pk_dst pk = rs_addr sv)) by done.
  destruct (bool_decide (pk_iif pk = _)); [|done]. destruct (bool_decide (pk_dst pk = _)); [|done].
  destruct (pk_proto pk =? _); [|done]. by destruct (bool_decide _).
Qed.

Lemma run_dnat svcs o :
  Forall (λ sv, ip_wf (rs_addr sv)) svcs → NoDup (service_key <$> svcs) →
  run_rules s t sock pk (omap (dnat_rule t p) svcs) o =
  match (if bool_decide (pk_iif pk = interface p) then List.find (serves pk) svcs else None) with
  | Some sv => (dnat_effect sv o, (λ _, VAccept) <$> backend_of sv)
  | None => (o, None)
  end.
Proof.
  intros Hw. revert o. induction Hw as [|sv svcs Hw Hws IH]; intros o Hnd; [by destruct (bool_decide _)|].
  apply NoDup_cons in Hnd as [Hni Hnd].
  assert (omap (dnat_rule t p) (sv :: svcs) = match dnat_rule t p sv with Some r => [r] | None => [] end ++ omap (dnat_rule t p) svcs) as ->
    by (cbn; by destruct (dnat_rule t p sv)).
  rewrite run_rules_app, run_dnat_one by done. cbn [List.find].
  destruct (bool_decide _) eqn:Ei; cbn [andb]; [|by rewrite IH]. destruct (serves pk sv) eqn:Es; [|by rewrite IH].
  destruct (backend_of sv); [done|]. rewrite IH by done.
  destruct (List.find (serves pk) svcs) as [sv'|] eqn:Ef; [|done]. exfalso.
  apply List.find_some in Ef as [Hin Hs]. apply Hni, list_elem_of_fmap. exists sv'. split; [|by apply list_elem_of_In].
  unfold serves in Es, Hs. rewrite !andb_true_iff, !bool_decide_eq_true, Z.eqb_eq in Es, Hs.
  destruct Es as [[Ha Hp] Hd], Hs as [[Ha' Hp'] Hd']. unfold service_key. rewrite Ha, Ha'.
  assert (rs_port sv = rs_port sv') as -> by congruence.
  assert (rs_proto sv = rs_proto sv') as ->; [|done].
  rewrite <- Hp' in Hp. by destruct (rs_proto sv), (rs_proto sv').
Qed.

End packet.
(** The whole hook, over a table whose sets hold [live]. *)
Lemma classify_with live p s sock pk :
  let t := nft_table (derive (instance p)) in
  policy_wf p → NoDup (service_key <$> declared (tenants p)) →
  k_rules s t "prerouting" = prerouting_rules p → k_rules s t "dnat" = dnat_rules p →
  sets_hold p s live → (∀ sv, sv ∈ declared (tenants p) → sv ∈ live) →
  run_prerouting s t sock pk = expected live p sock pk.
Proof.
  cbv zeta. intros Hwf Hnd Hpre Hdn Hlive Hsub.
  assert (Forall (λ sv, ip_wf (rs_addr sv)) (declared (tenants p))) as Hw.
  { destruct Hlive as [Hl _]. rewrite Forall_forall in *. auto. }
  unfold run_prerouting, run_chain. rewrite Hpre, Hdn. unfold prerouting_rules, dnat_rules.
  rewrite run_rules_app, (run_accept p Hwf s sock pk live) by done.
  pose proof (λ o, run_dnat p Hwf s sock pk _ o Hw Hnd) as Hrd.
  unfold expected. destruct (bool_decide (pk_iif pk = interface p)) eqn:Ei; cbn [andb negb].
  2:{ rewrite run_rules_app, run_stateless, Ei by done. cbn [andb].
      rewrite run_rules_app, run_tproxy, Ei by done. cbn [andb].
      rewrite run_rules_app, run_queue, Ei by done. cbn [andb]. rewrite run_drop, Ei by done. cbn [andb default].
      by rewrite Hrd. }
  destruct (existsb (serves pk) live) eqn:El.
  { cbn [default]. rewrite Hrd. destruct (List.find _ _) as [sv|]; [|done]. unfold dnat_effect.
    by destruct (backend_of sv). }
  assert (List.find (serves pk) (declared (tenants p)) = None) as Hnf.
  { destruct (List.find _ _) as [sv|] eqn:Ef; [|done]. apply List.find_some in Ef as [Hin Hs].
    rewrite <- not_true_iff_false, existsb_exists in El. destruct El. exists sv. split; [|done].
    apply list_elem_of_In, Hsub. by apply list_elem_of_In. }
  rewrite Hnf in Hrd.
  rewrite run_rules_app, run_stateless, Ei by done. cbn [andb].
  assert (∀ o, run_rules s (nft_table (derive (instance p))) sock pk
     (if decide (default_state p = Closed) then [drop_rule (nft_table (derive (instance p))) p] else []) o =
     (o, if decide (default_state p = Closed) then Some VDrop else None)) as Hdrop.
  { intros o. pose proof (run_drop p Hwf s sock pk o) as Hr. rewrite Ei in Hr. cbn [andb] in Hr. etrans; [exact Hr|].
    case_decide; [by rewrite bool_decide_eq_true_2|by rewrite bool_decide_eq_false_2]. }
  destruct (existsb (λ n, net_contains n (pk_dst pk)) (prefixes p)) eqn:Em; cbn [negb].
  - destruct (pk_proto pk =? 6) eqn:Et; cbn [andb negb].
    + destruct (existsb _ (stateless_tcp_ports p)); [done|].
      rewrite run_rules_app, run_tproxy, Ei, Et, Em by done. cbn [andb].
      destruct (sock _ _); cbn [default]; [by rewrite Hrd|].
      rewrite run_rules_app, run_queue, Ei, Et by done. cbn [andb negb].
      rewrite Hdrop. case_decide; cbn [default]; [done|by rewrite Hrd].
    + rewrite run_rules_app, run_tproxy, Ei, Et by done. cbn [andb].
      rewrite run_rules_app, run_queue, Ei, Et, Em by done. done.
  - rewrite andb_false_r. cbn [andb]. rewrite run_rules_app, run_tproxy, Em, andb_false_r by done. rewrite run_rules_app, run_queue, Em, andb_false_r by done.
    rewrite Hdrop. case_decide; cbn [default]; [done|by rewrite Hrd].
Qed.

Lemma declared_wf p : policy_wf p → Forall (λ sv, ip_wf (rs_addr sv)) (declared (tenants p)).
Proof.
  intros (_ & _ & Ht). unfold declared. apply Forall_forall. intros sv Hsv.
  apply list_elem_of_bind in Hsv as (te & Hsv & Hte). apply list_elem_of_bind in Hsv as (a & Hsv & Ha).
  apply list_elem_of_fmap in Hsv as (al & -> & _). cbn. rewrite Forall_forall in Ht.
  specialize (Ht te Hte). rewrite Forall_forall in Ht. auto.
Qed.

Lemma set_elements_app l1 l2 P : set_elements_for (l1 ++ l2) P = set_elements_for l1 P ++ set_elements_for l2 P.
Proof. unfold set_elements_for. by rewrite filter_app, fmap_app. Qed.

(** Loading adds the policy's services to the sets. *)
Lemma load_sets old p objs s s' :
  render p = Ok objs → policy_wf p → k_load objs s = Some s' → sets_hold p s old →
  sets_hold p s' (old ++ declared (tenants p)).
Proof.
  intros Hr Hwf Hl (Hw & H4 & H6). apply render_objects in Hr as (-> & _ & _).
  assert (∀ t' n r, elems_of t' n (rule_objects r) = []) as Hro.
  { intros t' n r. unfold elems_of, rule_objects. induction r; done. }
  assert (∀ t t' n, elems_of t' n (flowtable_objects t p) = []) as Hft.
  { intros t t' n. unfold flowtable_objects. by destruct (flowtable p). }
  assert (∀ n e, e ∈ k_elems s' (nft_table (derive (instance p))) n ↔
    e ∈ k_elems s (nft_table (derive (instance p))) n ∨
    e ∈ elems_of (nft_table (derive (instance p))) n (head_objects (nft_table (derive (instance p))) p)) as Hel.
  { intros n e. rewrite (load_elems _ _ _ _ _ _ Hl). unfold elems_of in *. rewrite !bind_app, !Hro, Hft.
    cbn [app mbind list_bind]. by rewrite app_nil_r. }
  assert (∀ l, default [] (elem_of_list l) = l) as Hdl by (by intros []).
  split_and!; [apply Forall_app; split; [done|by apply declared_wf]|..]; intros e; rewrite Hel, set_elements_app, elem_of_app.
  - rewrite H4. unfold head_objects, elems_of. cbn [mbind list_bind real_set st_table st_name st_elem].
    rewrite decide_True, decide_False, Hdl, !app_nil_r by naive_solver. done.
  - rewrite H6. unfold head_objects, elems_of. cbn [mbind list_bind real_set st_table st_name st_elem].
    rewrite decide_False, decide_True, Hdl, !app_nil_r by naive_solver. done.
Qed.

Definition fresh (s : KState) (t : string) : Prop := ∀ n, k_elems s t n = [].

Lemma fresh_sets p s : fresh s (nft_table (derive (instance p))) → sets_hold p s [].
Proof. intros Hf. split; [constructor|]. split; intros e; by rewrite Hf. Qed.

Lemma load_classifies old p objs s s' sock pk :
  render p = Ok objs → policy_wf p → sets_hold p s old → k_load objs s = Some s' →
  run_prerouting s' (nft_table (derive (instance p))) sock pk = expected (old ++ declared (tenants p)) p sock pk.
Proof.
  intros Hr Hwf Hs Hl. pose proof (load_render _ _ _ _ Hr Hl) as (Hpre & Hdn & _).
  pose proof (load_sets _ _ _ _ _ Hr Hwf Hl Hs). apply render_objects in Hr as (_ & Hnd & _).
  apply classify_with; try done. intros sv Hsv. apply elem_of_app. by right.
Qed.

Lemma load_forward p objs s s' sock pk :
  render p = Ok objs → policy_wf p → k_load objs s = Some s' →
  run_forward s' (nft_table (derive (instance p))) sock pk =
  (match flowtable p with
   | Some _ => if bool_decide (pk_iif pk = interface p) && pk_established pk then with_offload no_effects else no_effects
   | None => no_effects
   end, VAccept).
Proof.
  intros Hr (Hi & _) Hl. pose proof (load_render _ _ _ _ Hr Hl) as (_ & _ & Hf & _).
  unfold run_forward, run_chain. rewrite Hf. unfold flowtable_objects. destruct (flowtable p); [|done].
  cbn [rules_of omap list_omap ru_table ru_chain]. rewrite decide_True by done.
  unfold iifname_match. cbn [run_rules ru_expr run_statements]. rewrite k_iifname, k_established by done.
  destruct (bool_decide _); [|done]. by destruct (pk_established pk).
Qed.

(** Another instance's table is not touched. *)
Lemma elems_of_elsewhere t n l :
  Forall (λ c, match c with Add (OSet st) => st_table st ≠ t | _ => True end) l → elems_of t n l = [].
Proof.
  unfold elems_of. induction 1 as [|c l Hc _ IH]; [done|]. cbn. rewrite IH, app_nil_r.
  destruct c as [[]|]; try done. rewrite decide_False; naive_solver.
Qed.

Lemma load_elsewhere p objs s s' t n :
  render p = Ok objs → k_load objs s = Some s' → t ≠ nft_table (derive (instance p)) →
  ∀ e, e ∈ k_elems s' t n ↔ e ∈ k_elems s t n.
Proof.
  intros (-> & _ & _)%render_objects Hl Hne e. rewrite (load_elems _ _ _ _ _ _ Hl), elems_of_elsewhere.
  { rewrite elem_of_nil. tauto. }
  repeat (apply Forall_app; split); try (by repeat constructor).
  - by apply Forall_fmap, Forall_true.
  - by apply Forall_fmap, Forall_true.
  - unfold flowtable_objects. destruct (flowtable p); by repeat constructor.
Qed.


(** Rendering a policy again over its own table replaces the rules but
    keeps the set elements, since flushing a table deletes the rules of its
    chains and leaves its sets. A service that the first policy declared and
    the second does not is still accepted after the second policy is loaded. *)
Theorem nft_reload_keeps_services p1 p2 objs1 objs2 s s1 s2 sock pk :
  render p1 = Ok objs1 → render p2 = Ok objs2 → policy_wf p1 → policy_wf p2 → instance p1 = instance p2 →
  fresh s (nft_table (derive (instance p1))) → k_load objs1 s = Some s1 → k_load objs2 s1 = Some s2 →
  run_prerouting s2 (nft_table (derive (instance p2))) sock pk =
    expected (declared (tenants p1) ++ declared (tenants p2)) p2 sock pk ∧
  (pk_iif pk = interface p2 → existsb (serves pk) (declared (tenants p1)) = true →
   (run_prerouting s2 (nft_table (derive (instance p2))) sock pk).2 = VAccept).
Proof.
  intros Hr1 Hr2 Hw1 Hw2 Hi Hf Hl1 Hl2.
  assert (sets_hold p2 s1 (declared (tenants p1))) as Hs.
  { pose proof (load_sets [] p1 objs1 s s1 Hr1 Hw1 Hl1 (fresh_sets _ _ Hf)) as Hs. unfold sets_hold in *.
    by rewrite <- Hi. }
  rewrite (load_classifies _ _ _ _ _ sock pk Hr2 Hw2 Hs Hl2). split; [done|]. intros Hif He. unfold expected.
  rewrite (bool_decide_eq_true_2 _ Hif), existsb_app, He. done.
Qed.

(** The instances of one host do not disturb each other. After a second
    instance's ruleset is loaded, the first instance's table still decides on
    every packet as the first policy says. *)
Theorem nft_instances_isolated p1 p2 objs1 objs2 s s1 s2 sock pk :
  render p1 = Ok objs1 → render p2 = Ok objs2 → policy_wf p1 → instance p1 ≠ instance p2 →
  fresh s (nft_table (derive (instance p1))) → k_load objs1 s = Some s1 → k_load objs2 s1 = Some s2 →
  run_prerouting s2 (nft_table (derive (instance p1))) sock pk = expected (declared (tenants p1)) p1 sock pk.
Proof.
  intros Hr1 Hr2 Hw1 Hi Hf Hl1 Hl2.
  assert (nft_table (derive (instance p1)) ≠ nft_table (derive (instance p2))) as Hne.
  { intros Ht. by apply Hi, derive_table_inj. }
  pose proof (load_render _ _ _ _ Hr1 Hl1) as (Hpre & Hdn & _).
  pose proof (load_render _ _ _ _ Hr2 Hl2) as (_ & _ & _ & Hother).
  pose proof (load_sets [] p1 objs1 s s1 Hr1 Hw1 Hl1 (fresh_sets _ _ Hf)) as (Hw & H4 & H6).
  apply render_objects in Hr1 as (_ & Hnd & _).
  apply classify_with; [done|done|by rewrite Hother|by rewrite Hother| |done].
  split_and!; [done|..]; intros e; rewrite (load_elsewhere _ _ _ _ _ _ Hr2 Hl2); auto.
Qed.

End classify.

(** ** A concrete kernel *)

Module RefNft.

Definition State : Type := (string → string → list Rule) * (string → string → list Expression).

Definition exec (c : NfObject) (s : State) : option State :=
  Some (λ t ch, match c with
                | FlushTable tb => if decide (t = tb_name tb) then [] else s.1 t ch
                | Add (ORule r) => if decide (t = ru_table r ∧ ch = ru_chain r) then s.1 t ch ++ [r] else s.1 t ch
                | _ => s.1 t ch
                end,
        λ t n, s.2 t n ++ match c with
                          | Add (OSet st) =>
                              if decide (t = st_table st ∧ n = st_name st) then default [] (st_elem st) else []
                          | _ => []
                          end).

Definition read_proto (s : string) : option Z :=
  if decide (s = "tcp") then Some 6 else if decide (s = "udp") then Some 17 else None.

(** An address literal of the family [f]. *)
Definition read_addr (f s : string) : option IpAddr :=
  a ← parse_ip s; if decide (f = proto_name a) then Some a else None.

Definition tuple_match (pk : Packet) (f : string) (e : Expression) : bool :=
  match e with
  | EConcat [EString a; EString pr; ENumber po] =>
      bool_decide (read_addr f a = Some (pk_dst pk)) && bool_decide (read_proto pr = Some (pk_proto pk)) &&
      bool_decide (pk_dport pk = Some po)
  | _ => false
  end.

Definition matches (s : State) (t : string) (pk : Packet) (l r : Expression) (op : Operator) : bool :=
  match l, r, op with
  | EMeta Iifname, EString i, EQ => bool_decide (pk_iif pk = i)
  | EMeta Nfproto, EString v, EQ => bool_decide (v = if ip_is_v4 (pk_dst pk) then "ipv4" else "ipv6")
  | EMeta L4proto, EString v, EQ => bool_decide (read_proto v = Some (pk_proto pk))
  | EMeta L4proto, EString v, NEQ => negb (bool_decide (read_proto v = Some (pk_proto pk)))
  | EPayload f _, EString a, EQ => bool_decide (read_addr f a = Some (pk_dst pk))
  | EPayload f _, EPrefix (EString a) n, EQ =>
      match read_addr f a with
      | Some a => Bool.eqb (ip_is_v4 a) (ip_is_v4 (pk_dst pk)) &&
                  (ip_val a / 2 ^ (ip_bits a - n) =? ip_val (pk_dst pk) / 2 ^ (ip_bits a - n))
      | None => false
      end
  | EPayload _ _, ENumber n, EQ => bool_decide (pk_dport pk = Some n)
  | EPayload _ _, ESet l, IN =>
      existsb (λ e, match e with ENumber n => bool_decide (pk_dport pk = Some n) | _ => false end) l
  | EConcat (EPayload f _ :: _), EString (String _ n), IN => existsb (tuple_match pk f) (s.2 t n)
  | ECt _, EString _, IN => pk_established pk
  | _, _, _ => false
  end.

Lemma read_proto_string pr : read_proto (proto_string pr) = Some (proto_number pr).
Proof. by destruct pr. Qed.

Lemma read_addr_string a : ip_wf a → read_addr (proto_name a) (ip_to_string a) = Some a.
Proof. intros Ha. unfold read_addr. rewrite parse_ip_to_string by done. cbn. by rewrite decide_True. Qed.

Lemma tuple_match_element pk sv :
  ip_wf (rs_addr sv) →
  tuple_match pk (proto_name (rs_addr sv)) (concat_element sv) = true ↔
  rs_addr sv = pk_dst pk ∧ proto_number (rs_proto sv) = pk_proto pk ∧ pk_dport pk = Some (rs_port sv).
Proof.
  intros Hw. cbn [tuple_match concat_element]. rewrite read_addr_string, read_proto_string by done.
  rewrite !andb_true_iff, !bool_decide_eq_true. split; [by intros [[[= ?] [= ?]] ?]|by intros (-> & -> & ->)].
Qed.

#[export] Program Instance RefKernel : NftKernel :=
  {| KState := State; k_exec := exec; k_rules s := s.1; k_elems s := s.2; k_match := matches |}.
Next Obligation. intros c s s' t ch [= <-]. done. Qed.
Next Obligation.
  intros c s s' t n e [= <-]. cbn [snd]. rewrite elem_of_app. apply or_iff_compat_l. split.
  - destruct c as [[|st| | |]|]; try (by intros ?%elem_of_nil). case_decide; [|by intros ?%elem_of_nil]. naive_solver.
  - intros (st & -> & -> & -> & He). by rewrite decide_True.
Qed.
Next Obligation. done. Qed.
Next Obligation. intros s t pk. cbn. by destruct (ip_is_v4 (pk_dst pk)). Qed.
Next Obligation. intros s t pk. cbn. by destruct (ip_is_v4 (pk_dst pk)). Qed.
Next Obligation.
  intros s t pk pr. cbn [matches]. rewrite read_proto_string. apply eq_true_iff_eq.
  rewrite bool_decide_eq_true, Z.eqb_eq. split; [by intros [= ?]|by intros ->].
Qed.
Next Obligation.
  intros s t pk pr. cbn [matches]. rewrite read_proto_string. f_equal. apply eq_true_iff_eq.
  rewrite bool_decide_eq_true, Z.eqb_eq. split; [by intros [= ?]|by intros ->].
Qed.
Next Obligation.
  intros s t pk a Ha. cbn [matches]. rewrite read_addr_string by done. apply bool_decide_ext. split; [by intros [= ?]|by intros ->].
Qed.
Next Obligation.
  intros s t pk a n Ha Hn. cbn [matches]. rewrite read_addr_string by done.
  by rewrite andb_true_iff, Z.eqb_eq, eqb_true_iff.
Qed.
Next Obligation. done. Qed.
Next Obligation.
  intros s t pk l. cbn [matches]. rewrite existsb_exists. setoid_rewrite <- list_elem_of_In.
  setoid_rewrite list_elem_of_fmap. split.
  - intros (e & (n & -> & Hn) & Hd%bool_decide_eq_true). by exists n.
  - intros (n & Hn & Hd). exists (ENumber n). split; [by exists n|by apply bool_decide_eq_true].
Qed.
Next Obligation.
  intros s t pk n fam He Hf. change (existsb (tuple_match pk fam) (s.2 t n) = true ↔
    ∃ sv, concat_element sv ∈ s.2 t n ∧ ip_wf (rs_addr sv) ∧ rs_addr sv = pk_dst pk ∧
      proto_number (rs_proto sv) = pk_proto pk ∧ pk_dport pk = Some (rs_port sv)).
  rewrite existsb_exists. setoid_rewrite <- list_elem_of_In. split.
  - intros (e & Hin & Hm). destruct (He e Hin) as (sv & -> & Hw & <-). exists sv. split; [done|]. split; [done|].
    by apply tuple_match_element.
  - intros (sv & Hin & Hw & Hm). exists (concat_element sv). split; [done|].
    destruct Hm as (Ha & Hp & Hd). assert (fam = proto_name (rs_addr sv)) as -> by (by rewrite Ha, Hf).
    by apply tuple_match_element.
Qed.
Next Obligation. done. Qed.

Definition empty : State := (λ _ _, [], λ _ _, []).

Lemma load_total l (s : State) : ∃ s', k_load l s = Some s'.
Proof. revert s. induction l as [|c l IH]; intros s; [by exists s|]. cbn. apply IH. Qed.

End RefNft.

(** ** Examples *)

Section examples.
#[local] Existing Instance RefNet.lib.
#[local] Existing Instance RefNft.RefKernel.

Definition sample_policy (name : option string) (ts : list Tenant) : Policy := {|
  interface := "eth0"; prefixes := [expect (net_new (ipv4 203 0 113 0) 24)]; default_state := Closed;
  tenants := ts; shaping := []; banner_flux := None; dns_flux := None; rtbh := None; flowspec := None;
  metrics_listen := None; api := None; pops := []; engine := engine_default; flowtable := None; xdp := None;
  stateless_tcp_ports := [22]; shadow := false; protected_prefixes := []; rpki_validator := None;
  rpki_check_interval := from_secs 3600; instance := name |}.

Definition sample_tenant : Tenant := {|
  te_name := "acme"; te_owned := [ipv4 203 0 113 5];
  te_allows := [{| al_proto := Tcp; al_port := 443; al_target := Nat_ (socket_addr_new (ipv4 10 0 0 9) 8443);
                   al_scope := None |}] |}.

Definition sample_packet : Packet := {|
  pk_iif := "eth0"; pk_dst := ipv4 203 0 113 5; pk_proto := 6; pk_dport := Some 443; pk_established := false |}.

Lemma sample_wf name ts : Forall (λ t, Forall ip_wf (te_owned t)) ts → policy_wf (sample_policy name ts).
Proof.
  intros Ht. split; [split; apply (bool_decide_unpack _); vm_compute; done|]. split; [|done].
  repeat constructor; vm_compute; done.
Qed.

Lemma sample_tenant_wf : Forall (λ t, Forall ip_wf (te_owned t)) [sample_tenant].
Proof. repeat constructor; vm_compute; done. Qed.


(** The service is gone from the second policy, which would redirect the
    packet to the engine; it is still accepted. *)
Lemma nft_reload_keeps_services_witness : ∃ objs1 objs2 s1 s2,
  render (sample_policy None [sample_tenant]) = Ok objs1 ∧ render (sample_policy None []) = Ok objs2 ∧
  k_load objs1 RefNft.empty = Some s1 ∧ k_load objs2 s1 = Some s2 ∧
  run_prerouting s2 "blackwall" (λ _ _, true) sample_packet = (no_effects, VAccept) ∧
  expected [] (sample_policy None []) (λ _ _, true) sample_packet ≠ (no_effects, VAccept).
Proof.
  assert (∃ objs, render (sample_policy None [sample_tenant]) = Ok objs) as [objs1 Hr1] by (by vm_compute; eexists).
  assert (∃ objs, render (sample_policy None []) = Ok objs) as [objs2 Hr2] by (by vm_compute; eexists).
  destruct (RefNft.load_total objs1 RefNft.empty) as [s1 Hs1]. destruct (RefNft.load_total objs2 s1) as [s2 Hs2].
  exists objs1, objs2, s1, s2. do 4 (split; [done|]). split; [|by vm_compute].
  destruct (@nft_reload_keeps_services _ RefNft.RefKernel _ _ objs1 objs2 RefNft.empty s1 s2 (λ _ _, true) sample_packet Hr1 Hr2
    (sample_wf _ _ sample_tenant_wf) (sample_wf _ _ (Forall_nil_2 _))) as [He _]; [done..|].
  etrans; [exact He|]. vm_compute. done.
Defined.

Lemma nft_instances_isolated_witness : ∃ objs1 objs2 s1 s2,
  render (sample_policy None [sample_tenant]) = Ok objs1 ∧ render (sample_policy (Some "edge") []) = Ok objs2 ∧
  k_load objs1 RefNft.empty = Some s1 ∧ k_load objs2 s1 = Some s2 ∧
  run_prerouting s2 "blackwall" (λ _ _, true) sample_packet = (with_dnat "10.0.0.9" 8443 no_effects, VAccept).
Proof.
  assert (∃ objs, render (sample_policy None [sample_tenant]) = Ok objs) as [objs1 Hr1] by (by vm_compute; eexists).
  assert (∃ objs, render (sample_policy (Some "edge") []) = Ok objs) as [objs2 Hr2] by (by vm_compute; eexists).
  destruct (RefNft.load_total objs1 RefNft.empty) as [s1 Hs1]. destruct (RefNft.load_total objs2 s1) as [s2 Hs2].
  exists objs1, objs2, s1, s2. do 4 (split; [done|]).
  etrans; [exact (@nft_instances_isolated _ RefNft.RefKernel _ _ objs1 objs2 RefNft.empty s1 s2 (λ _ _, true) sample_packet Hr1 Hr2
    (sample_wf _ _ sample_tenant_wf) ltac:(discriminate) ltac:(done) Hs1 Hs2)|]. vm_compute. done.
Defined.
End examples.
