(* ===== verification/Config.v ===== *)
(** * The configuration reader

    [crates/blackwall-config]: the line tokenizer ([lexer.rs]) and the parser
    ([parser.rs]) that turn the text of a configuration file into a [Policy],
    and [parse_and_resolve] ([lib.rs]). Parsing a CIDR prefix is the [ipnet]
    crate's, the class [NetParse]. Indexing a missing word is a panic. *)
From stdpp Require Import prelude gmap strings.
From Stdlib Require Import Floats.SpecFloat.
From S2P Require Import Prelude Net Float Core Bytes NetText Text.

Open Scope Z_scope.

(** ** The lexer *)

Record Line := { number : Z; words : list string }.

Definition is_hash (c : list Z) : bool := match c with [35] => true | _ => false end.

(** The characters before a comment; [after_ws] says that the position is the
    first or follows white space. *)
Fixpoint cut_comment (after_ws : bool) (cs : list (list Z)) : list (list Z) :=
  match cs with
  | [] => []
  | c :: cs => if is_hash c && after_ws then [] else c :: cut_comment (is_whitespace c) cs
  end.

Definition is_backslash (c : list Z) : bool := match c with [92] => true | _ => false end.
Definition ends_with_backslash (cs : list (list Z)) : bool :=
  match last cs with Some c => is_backslash c | None => false end.

(** One physical line: its words, and whether the next line continues it. *)
Definition lex_line (raw : list Z) : list string * bool :=
  let without_comment := cut_comment true (chars raw) in
  let trimmed := trim_end without_comment in
  let continues := ends_with_backslash trimmed in
  let content := if continues then take (length trimmed - 1) trimmed else without_comment in
  (split_whitespace content, continues).

(** The line that [pending] holds, when it has words. *)
Definition flush (pending : option (Z * list string)) : list Line :=
  match pending with
  | Some (n, (_ :: _) as acc) => [{| number := n; words := acc |}]
  | _ => []
  end.

(** The physical lines from index [idx] on. *)
Fixpoint lex_lines (idx : Z) (pending : option (Z * list string)) (raws : list (list Z)) : list Line :=
  match raws with
  | [] => flush pending
  | raw :: raws =>
      let '(ws, continues) := lex_line raw in
      let pending := match pending with Some (n, acc) => Some (n, acc ++ ws) | None => Some (idx + 1, ws) end in
      if (continues : bool) then lex_lines (idx + 1) pending raws
      else flush pending ++ lex_lines (idx + 1) None raws
  end.

Definition lex (input : string) : list Line := lex_lines 0 None (lines (str_bytes input)).

(** ** Errors *)

Inductive ConfigError : Type :=
| UnexpectedToken (line : Z) (found expected : string)
| UnknownDirective (line : Z) (word : string)
| BadValue (line : Z) (what value : string)
| Io (e : string)
| Resolve (e : PolicyError).

Definition P (A : Type) : Type := rust ConfigError A.
#[export] Instance P_ret : MRet P := rust_ret.
#[export] Instance P_bind : MBind P := rust_bind.

Definition bad {A} (line : Line) (what value : string) : P A := Fail_ (BadValue (number line) what value).
Definition unexpected {A} (line : Line) (found expected : string) : P A :=
  Fail_ (UnexpectedToken (number line) found expected).

(** [r.map_err(|_| bad(what, value))?] *)
Definition or_bad {A} (line : Line) (what value : string) (r : option A) : P A :=
  match r with Some a => Ret a | None => bad line what value end.

(** [line.words[i]] *)
Definition word (line : Line) (i : nat) : P string :=
  match words line !! i with Some w => Ret w | None => Panic end.

(** [&line.words[n..]] *)
Definition words_from (line : Line) (n : nat) : P (list string) :=
  if (n <=? length (words line))%nat then Ret (drop n (words line)) else Panic.

Definition expect_len (line : Line) (n : nat) (expected : string) : P () :=
  if (length (words line) =? n)%nat then Ret () else unexpected line (join_space (words line)) expected.

(** The CIDR text of the [ipnet] crate. A parsed prefix has an address of its
    family's width, as every [IpAddr] has. *)
Class NetParse `{IpNetLib} := {
  net_parse : string → option IpNet;
  net_parse_wf : ∀ s n, net_parse s = Some n → ip_wf (net_addr n);
}.

Section parser.
Context `{NetParse}.

(** ** Values *)

Definition parse_cidr (line : Line) (raw : string) : P IpNet := or_bad line "cidr" raw (net_parse raw).

Definition parse_mbit (line : Line) (token : string) : P Z :=
  or_bad line "bandwidth" token (n ← strip_suffix "mbit" token; parse_uint u32_max n).

(** The product is not checked: it wraps at 64 bits in a release build. *)
Definition parse_duration (line : Line) (token : string) : P Duration :=
  '(ds, mult) ← match strip_suffix "h" token with
                 | Some d => Ret (d, 3600)
                 | None => match strip_suffix "m" token with
                           | Some d => Ret (d, 60)
                           | None => match strip_suffix "s" token with
                                     | Some d => Ret (d, 1)
                                     | None => bad line "duration" token
                                     end
                           end
                 end;
  n ← or_bad line "duration" token (parse_uint u64_max ds);
  Ret (from_secs ((n * mult) mod (u64_max + 1))).

Definition parse_ms (line : Line) (token : string) : P Z :=
  or_bad line "rtt" token (n ← strip_suffix "ms" token; parse_uint u32_max n).

Definition parse_target (line : Line) (raw : string) : P ServiceTarget :=
  if decide (raw = "host") then Ret Host
  else match strip_prefix "incus:" raw with
       | Some name => Ret (Incus name)
       | None => match strip_prefix "nat:" raw with
                 | Some sockaddr => a ← or_bad line "nat target" raw (parse_socket_addr sockaddr); Ret (Nat_ a)
                 | None => bad line "target" raw
                 end
       end.

Definition parse_allow (line : Line) : P AllowRule :=
  _ ← expect_len line 4 "allow <tcp|udp> <port> <target>";
  w1 ← word line 1; w2 ← word line 2; w3 ← word line 3;
  proto ← (if decide (w1 = "tcp") then Ret Tcp
           else if decide (w1 = "udp") then Ret Udp
           else bad line "protocol" w1);
  port ← or_bad line "port" w2 (parse_uint u16_max w2);
  target ← parse_target line w3;
  Ret {| al_proto := proto; al_port := port; al_target := target; al_scope := None |}.

(** The tokens of an [owns] line. *)
Fixpoint parse_owned (line : Line) (tokens : list string) (owned : list IpAddr) : P (list IpAddr) :=
  match tokens with
  | [] => Ret owned
  | token :: tokens =>
      let cleaned := trim_end_matches 44 token in
      addr ← or_bad line "ip address" cleaned (parse_ip cleaned);
      parse_owned line tokens (owned ++ [addr])
  end.

(** The lines of a tenant block after its header; the rest is what follows
    the closing brace. *)
Fixpoint tenant_body (header : Line) (name : string) (owned : list IpAddr) (allows : list AllowRule)
    (ls : list Line) : P (Tenant * list Line) :=
  match ls with
  | [] => unexpected header "<eof>" "a closing `}` for the tenant block"
  | line :: ls =>
      w0 ← word line 0;
      if decide (w0 = "}") then Ret ({| te_name := name; te_owned := owned; te_allows := allows |}, ls)
      else if decide (w0 = "owns") then
        if (length (words line) <? 2)%nat
        then unexpected line (join_space (words line)) "owns <ip>[, <ip>...]"
        else ts ← words_from line 1; owned ← parse_owned line ts owned; tenant_body header name owned allows ls
      else if decide (w0 = "allow") then
        a ← parse_allow line; tenant_body header name owned (allows ++ [a]) ls
      else Fail_ (UnknownDirective (number line) w0)
  end.

Definition parse_tenant (header : Line) (ls : list Line) : P (Tenant * list Line) :=
  if negb (length (words header) =? 3)%nat || negb (bool_decide (words header !! 2%nat = Some "{"))
  then unexpected header (join_space (words header)) "tenant <name> {"
  else name ← word header 1; tenant_body header name [] [] ls.

(** The options of a [shape] line; [words] are the ones not yet read. *)
Fixpoint shape_options (fuel : nat) (line : Line) (ws : list string) (upload : option ShapeBandwidth)
    (rtt_ms : option Z) : P (option ShapeBandwidth * option Z) :=
  match fuel with
  | O => Panic
  | S fuel =>
      match ws with
      | [] => Ret (upload, rtt_ms)
      | w :: ws =>
          if decide (w = "up") then
            match ws with
            | [] => unexpected line (join_space (words line)) "up (auto | <N>mbit)"
            | token :: ws =>
                up ← (if decide (token = "auto") then Ret BwAuto else bw ← parse_mbit line token; Ret (BwFixed bw));
                shape_options fuel line ws (Some up) rtt_ms
            end
          else if decide (w = "rtt") then
            match ws with
            | [] => unexpected line (join_space (words line)) "rtt <N>ms"
            | token :: ws => ms ← parse_ms line token; shape_options fuel line ws upload (Some ms)
            end
          else unexpected line w "up | rtt"
      end
  end.

Definition parse_shape (line : Line) : P ShapeRule :=
  if (length (words line) <? 3)%nat
  then unexpected line (join_space (words line))
         "shape <iface> (auto | bandwidth <N>mbit) [up (auto | <N>mbit)] [rtt <N>ms]"
  else
    iface ← word line 1; mode ← word line 2;
    '(download, idx) ← (if decide (mode = "auto") then Ret (BwAuto, 3%nat)
                        else if decide (mode = "bandwidth") then
                          if (length (words line) <? 4)%nat
                          then unexpected line (join_space (words line)) "bandwidth <N>mbit"
                          else w3 ← word line 3; bw ← parse_mbit line w3; Ret (BwFixed bw, 4%nat)
                        else bad line "bandwidth mode" mode);
    rest ← words_from line idx;
    '(upload, rtt_ms) ← shape_options (S (length rest)) line rest None None;
    Ret {| sh_iface := iface; sh_download := download; sh_upload := default download upload; sh_rtt_ms := rtt_ms |}.

(** ** Escapes *)

(** A single-byte character as a hexadecimal digit. *)
Definition char_digit (c : list Z) : option Z := match c with [b] => to_digit 16 b | _ => None end.

Fixpoint decode_chars (fuel : nat) (cs : list (list Z)) : list Z :=
  match fuel with
  | O => []
  | S fuel =>
      match cs with
      | [] => []
      | c :: cs =>
          if negb (is_backslash c) then c ++ decode_chars fuel cs
          else match cs with
               | [] => [92]
               | e :: cs =>
                   match e with
                   | [110] => 10 :: decode_chars fuel cs
                   | [114] => 13 :: decode_chars fuel cs
                   | [116] => 9 :: decode_chars fuel cs
                   | [115] => 32 :: decode_chars fuel cs
                   | [92] => 92 :: decode_chars fuel cs
                   | [120] =>
                       match cs with
                       | c1 :: cs1 =>
                           match char_digit c1 with
                           | None => [92; 120] ++ decode_chars fuel cs
                           | Some hi =>
                               match cs1 with
                               | c2 :: cs2 =>
                                   match char_digit c2 with
                                   | None => [92; 120] ++ c1 ++ decode_chars fuel cs1
                                   | Some lo => (hi * 16 + lo) :: decode_chars fuel cs2
                                   end
                               | [] => [92; 120] ++ c1
                               end
                           end
                       | [] => [92; 120]
                       end
                   | _ => [92] ++ e ++ decode_chars fuel cs
                   end
               end
      end
  end.

Definition decode_banner_escapes (raw : string) : list Z :=
  let cs := chars (str_bytes raw) in decode_chars (S (length cs)) cs.

(** ** The directives *)

(** The local variables of [parse]. *)
Record Acc := {
  a_interface : option string; a_prefixes : list IpNet; a_default_state : PortState; a_tenants : list Tenant;
  a_shaping : list ShapeRule; a_banner_flux : option BannerFluxConfig; a_dns_flux : option DnsFluxConfig;
  a_rtbh : option RtbhPolicy; a_flowspec : option FlowSpecPolicy; a_metrics_listen : option SocketAddr;
  a_api : option ApiConfig; a_engine : EngineConfig; a_flowtable : option FlowTableConfig;
  a_xdp : option XdpConfig; a_stateless_tcp_ports : list Z; a_pops : list PopEntry; a_shadow : bool;
  a_protected_prefixes : list IpNet; a_rpki_validator : option string; a_rpki_check_interval : Duration;
  a_instance : option string;
}.

Definition acc_new : Acc := {|
  a_interface := None; a_prefixes := []; a_default_state := Deception; a_tenants := []; a_shaping := [];
  a_banner_flux := None; a_dns_flux := None; a_rtbh := None; a_flowspec := None; a_metrics_listen := None;
  a_api := None; a_engine := engine_default; a_flowtable := None; a_xdp := None; a_stateless_tcp_ports := [];
  a_pops := []; a_shadow := false; a_protected_prefixes := []; a_rpki_validator := None;
  a_rpki_check_interval := from_secs 3600; a_instance := None |}.

(** Assignment to one of them. *)
Definition set_interface (v : option string) (a : Acc) : Acc :=
  match a with
  | Build_Acc _ x1 x2 x3 x4 x5 x6 x7 x8 x9 x10 x11 x12 x13 x14 x15 x16 x17 x18 x19 x20 =>
      Build_Acc v x1 x2 x3 x4 x5 x6 x7 x8 x9 x10 x11 x12 x13 x14 x15 x16 x17 x18 x19 x20
  end.
Definition set_prefixes (v : list IpNet) (a : Acc) : Acc :=
  match a with
  | Build_Acc x0 _ x2 x3 x4 x5 x6 x7 x8 x9 x10 x11 x12 x13 x14 x15 x16 x17 x18 x19 x20 =>
      Build_Acc x0 v x2 x3 x4 x5 x6 x7 x8 x9 x10 x11 x12 x13 x14 x15 x16 x17 x18 x19 x20
  end.
Definition set_default_state (v : PortState) (a : Acc) : Acc :=
  match a with
  | Build_Acc x0 x1 _ x3 x4 x5 x6 x7 x8 x9 x10 x11 x12 x13 x14 x15 x16 x17 x18 x19 x20 =>
      Build_Acc x0 x1 v x3 x4 x5 x6 x7 x8 x9 x10 x11 x12 x13 x14 x15 x16 x17 x18 x19 x20
  end.
Definition set_tenants (v : list Tenant) (a : Acc) : Acc :=
  match a with
  | Build_Acc x0 x1 x2 _ x4 x5 x6 x7 x8 x9 x10 x11 x12 x13 x14 x15 x16 x17 x18 x19 x20 =>
      Build_Acc x0 x1 x2 v x4 x5 x6 x7 x8 x9 x10 x11 x12 x13 x14 x15 x16 x17 x18 x19 x20
  end.
Definition set_shaping (v : list ShapeRule) (a : Acc) : Acc :=
  match a with
  | Build_Acc x0 x1 x2 x3 _ x5 x6 x7 x8 x9 x10 x11 x12 x13 x14 x15 x16 x17 x18 x19 x20 =>
      Build_Acc x0 x1 x2 x3 v x5 x6 x7 x8 x9 x10 x11 x12 x13 x14 x15 x16 x17 x18 x19 x20
  end.
Definition set_banner_flux (v : option BannerFluxConfig) (a : Acc) : Acc :=
  match a with
  | Build_Acc x0 x1 x2 x3 x4 _ x6 x7 x8 x9 x10 x11 x12 x13 x14 x15 x16 x17 x18 x19 x20 =>
      Build_Acc x0 x1 x2 x3 x4 v x6 x7 x8 x9 x10 x11 x12 x13 x14 x15 x16 x17 x18 x19 x20
  end.
Definition set_dns_flux (v : option DnsFluxConfig) (a : Acc) : Acc :=
  match a with
  | Build_Acc x0 x1 x2 x3 x4 x5 _ x7 x8 x9 x10 x11 x12 x13 x14 x15 x16 x17 x18 x19 x20 =>
      Build_Acc x0 x1 x2 x3 x4 x5 v x7 x8 x9 x10 x11 x12 x13 x14 x15 x16 x17 x18 x19 x20
  end.
Definition set_rtbh (v : option RtbhPolicy) (a : Acc) : Acc :=
  match a with
  | Build_Acc x0 x1 x2 x3 x4 x5 x6 _ x8 x9 x10 x11 x12 x13 x14 x15 x16 x17 x18 x19 x20 =>
      Build_Acc x0 x1 x2 x3 x4 x5 x6 v x8 x9 x10 x11 x12 x13 x14 x15 x16 x17 x18 x19 x20
  end.
Definition set_flowspec (v : option FlowSpecPolicy) (a : Acc) : Acc :=
  match a with
  | Build_Acc x0 x1 x2 x3 x4 x5 x6 x7 _ x9 x10 x11 x12 x13 x14 x15 x16 x17 x18 x19 x20 =>
      Build_Acc x0 x1 x2 x3 x4 x5 x6 x7 v x9 x10 x11 x12 x13 x14 x15 x16 x17 x18 x19 x20
  end.
Definition set_metrics_listen (v : option SocketAddr) (a : Acc) : Acc :=
  match a with
  | Build_Acc x0 x1 x2 x3 x4 x5 x6 x7 x8 _ x10 x11 x12 x13 x14 x15 x16 x17 x18 x19 x20 =>
      Build_Acc x0 x1 x2 x3 x4 x5 x6 x7 x8 v x10 x11 x12 x13 x14 x15 x16 x17 x18 x19 x20
  end.
Definition set_api (v : option ApiConfig) (a : Acc) : Acc :=
  match a with
  | Build_Acc x0 x1 x2 x3 x4 x5 x6 x7 x8 x9 _ x11 x12 x13 x14 x15 x16 x17 x18 x19 x20 =>
      Build_Acc x0 x1 x2 x3 x4 x5 x6 x7 x8 x9 v x11 x12 x13 x14 x15 x16 x17 x18 x19 x20
  end.
Definition set_engine (v : EngineConfig) (a : Acc) : Acc :=
  match a with
  | Build_Acc x0 x1 x2 x3 x4 x5 x6 x7 x8 x9 x10 _ x12 x13 x14 x15 x16 x17 x18 x19 x20 =>
      Build_Acc x0 x1 x2 x3 x4 x5 x6 x7 x8 x9 x10 v x12 x13 x14 x15 x16 x17 x18 x19 x20
  end.
Definition set_flowtable (v : option FlowTableConfig) (a : Acc) : Acc :=
  match a with
  | Build_Acc x0 x1 x2 x3 x4 x5 x6 x7 x8 x9 x10 x11 _ x13 x14 x15 x16 x17 x18 x19 x20 =>
      Build_Acc x0 x1 x2 x3 x4 x5 x6 x7 x8 x9 x10 x11 v x13 x14 x15 x16 x17 x18 x19 x20
  end.
Definition set_xdp (v : option XdpConfig) (a : Acc) : Acc :=
  match a with
  | Build_Acc x0 x1 x2 x3 x4 x5 x6 x7 x8 x9 x10 x11 x12 _ x14 x15 x16 x17 x18 x19 x20 =>
      Build_Acc x0 x1 x2 x3 x4 x5 x6 x7 x8 x9 x10 x11 x12 v x14 x15 x16 x17 x18 x19 x20
  end.
Definition set_stateless_tcp_ports (v : list Z) (a : Acc) : Acc :=
  match a with
  | Build_Acc x0 x1 x2 x3 x4 x5 x6 x7 x8 x9 x10 x11 x12 x13 _ x15 x16 x17 x18 x19 x20 =>
      Build_Acc x0 x1 x2 x3 x4 x5 x6 x7 x8 x9 x10 x11 x12 x13 v x15 x16 x17 x18 x19 x20
  end.
Definition set_pops (v : list PopEntry) (a : Acc) : Acc :=
  match a with
  | Build_Acc x0 x1 x2 x3 x4 x5 x6 x7 x8 x9 x10 x11 x12 x13 x14 _ x16 x17 x18 x19 x20 =>
      Build_Acc x0 x1 x2 x3 x4 x5 x6 x7 x8 x9 x10 x11 x12 x13 x14 v x16 x17 x18 x19 x20
  end.
Definition set_shadow (v : bool) (a : Acc) : Acc :=
  match a with
  | Build_Acc x0 x1 x2 x3 x4 x5 x6 x7 x8 x9 x10 x11 x12 x13 x14 x15 _ x17 x18 x19 x20 =>
      Build_Acc x0 x1 x2 x3 x4 x5 x6 x7 x8 x9 x10 x11 x12 x13 x14 x15 v x17 x18 x19 x20
  end.
Definition set_protected_prefixes (v : list IpNet) (a : Acc) : Acc :=
  match a with
  | Build_Acc x0 x1 x2 x3 x4 x5 x6 x7 x8 x9 x10 x11 x12 x13 x14 x15 x16 _ x18 x19 x20 =>
      Build_Acc x0 x1 x2 x3 x4 x5 x6 x7 x8 x9 x10 x11 x12 x13 x14 x15 x16 v x18 x19 x20
  end.
Definition set_rpki_validator (v : option string) (a : Acc) : Acc :=
  match a with
  | Build_Acc x0 x1 x2 x3 x4 x5 x6 x7 x8 x9 x10 x11 x12 x13 x14 x15 x16 x17 _ x19 x20 =>
      Build_Acc x0 x1 x2 x3 x4 x5 x6 x7 x8 x9 x10 x11 x12 x13 x14 x15 x16 x17 v x19 x20
  end.
Definition set_rpki_check_interval (v : Duration) (a : Acc) : Acc :=
  match a with
  | Build_Acc x0 x1 x2 x3 x4 x5 x6 x7 x8 x9 x10 x11 x12 x13 x14 x15 x16 x17 x18 _ x20 =>
      Build_Acc x0 x1 x2 x3 x4 x5 x6 x7 x8 x9 x10 x11 x12 x13 x14 x15 x16 x17 x18 v x20
  end.
Definition set_instance (v : option string) (a : Acc) : Acc :=
  match a with
  | Build_Acc x0 x1 x2 x3 x4 x5 x6 x7 x8 x9 x10 x11 x12 x13 x14 x15 x16 x17 x18 x19 _ =>
      Build_Acc x0 x1 x2 x3 x4 x5 x6 x7 x8 x9 x10 x11 x12 x13 x14 x15 x16 x17 x18 x19 v
  end.

(** [Ord for Duration]. *)
Definition duration_ltb (a b : Duration) : bool :=
  (secs a <? secs b) || ((secs a =? secs b) && (nanos a <? nanos b)).

(** The [key=value] tokens of a line, with the keys it may have. *)
Definition split_kv (line : Line) (what tok : string) : P (string * string) :=
  or_bad line what tok (split_once 61 tok).

Fixpoint parse_kv (line : Line) (what : string) (keys : list string) (tokens : list string)
    (kv : gmap string string) : P (gmap string string) :=
  match tokens with
  | [] => Ret kv
  | tok :: tokens =>
      '(k, v) ← split_kv line what tok;
      if decide (k ∉ keys) then bad line (String.append what " key") k
      else match kv !! k with
           | Some _ => bad line (String.append what " duplicate key") k
           | None => parse_kv line what keys tokens (<[k := v]> kv)
           end
  end.

Definition kv_get (line : Line) (what : string) (kv : gmap string string) (k : string) : P string :=
  or_bad line (String.append what " missing key") k (kv !! k).

(** An optional key, read by [f]. *)
Definition kv_opt {A} (kv : gmap string string) (k : string) (f : string → P A) : P (option A) :=
  match kv !! k with Some v => a ← f v; Ret (Some a) | None => Ret None end.

(** A socket address, or an address with a default port. *)
Definition parse_endpoint (line : Line) (what tok : string) (port : Z) : P SocketAddr :=
  or_bad line what tok
    (match parse_socket_addr tok with
     | Some a => Some a
     | None => ip ← parse_ip tok; Some (socket_addr_new ip port)
     end).

Definition parse_num (line : Line) (what v : string) (max : Z) : P Z := or_bad line what v (parse_uint max v).

Definition parse_default (line : Line) : P PortState :=
  _ ← expect_len line 2 "default deception|drop";
  w ← word line 1;
  if decide (w = "deception") then Ret Deception
  else if decide (w = "drop") then Ret Closed
  else bad line "default state" w.

Definition parse_banner_flux (line : Line) (a : Acc) : P BannerFluxConfig :=
  if a_banner_flux a is Some _ then bad line "banner-flux" "duplicate"
  else
    dir ← or_bad line "banner-flux" "missing dir" (words line !! 1%nat);
    period ← match words line !! 2%nat with
             | Some tok => parse_duration line tok
             | None => Ret (from_secs (6 * 3600))
             end;
    Ret {| bf_dir := dir; bf_period := period |}.

Definition dns_flux_keys : list string :=
  ["server"; "zone"; "name"; "from"; "count"; "set"; "period"; "ttl"; "tsig"].

Definition parse_dns_flux (line : Line) (a : Acc) : P DnsFluxConfig :=
  if a_dns_flux a is Some _ then bad line "dns-flux" "duplicate"
  else
    ts ← words_from line 1;
    kv ← parse_kv line "dns-flux" dns_flux_keys ts ∅;
    let get := kv_get line "dns-flux" kv in
    server_tok ← get "server";
    server ← parse_endpoint line "server" server_tok 53;
    from ← get "from"; prefix ← or_bad line "from" from (net_parse from);
    c ← get "count"; count ← parse_num line "count" c u64_max;
    st ← get "set"; set ← parse_num line "set" st u64_max;
    if (set <? 1) || (count <? set)
    then bad line "dns-flux set/count"
           (String.append "set=" (String.append (uint_to_string set) (String.append " count=" (uint_to_string count))))
    else
      period ← match kv !! "period" with Some t => parse_duration line t | None => Ret (from_secs 300) end;
      ttl ← match kv !! "ttl" with
            | Some t => d ← parse_duration line t; if secs d <=? u32_max then Ret (secs d) else bad line "ttl" t
            | None => Ret 30
            end;
      zone ← get "zone"; name ← get "name"; tsig ← get "tsig";
      Ret {| df_server := server; df_zone := zone; df_name := name; df_prefix := prefix; df_count := count;
             df_set := set; df_period := period; df_ttl := ttl; df_tsig_path := tsig |}.

Definition rtbh_keys : list string :=
  ["peer"; "local-as"; "peer-as"; "router-id"; "next-hop-v4"; "next-hop-v6"; "max"; "hold-down"; "ttl"; "community";
   "md5"; "gtsm-hops"; "local-addr"; "max-new-per-min"].

Fixpoint parse_communities (line : Line) (pairs : list string) (out : list (Z * Z)) : P (list (Z * Z)) :=
  match pairs with
  | [] => Ret out
  | pr :: pairs =>
      '(x, v) ← or_bad line "community" pr (split_once 58 pr);
      asn ← or_bad line "community" pr (parse_uint u16_max x);
      val ← or_bad line "community" pr (parse_uint u16_max v);
      parse_communities line pairs (out ++ [(asn, val)])
  end.

(** The parts of an [rtbh] line: who the peer is ... *)
Definition rtbh_router_id (line : Line) (kv : gmap string string) (local_addr : option IpAddr) : P Z :=
  match kv !! "router-id" with
  | Some v => or_bad line "router-id" v (parse_ipv4 v)
  | None => match local_addr with
            | Some (V4 v4) => Ret v4
            | _ => bad line "rtbh" "router-id required (or set an IPv4 local-addr to default it)"
            end
  end.

(** ... how long a blackhole lasts ... *)
Definition parse_lifetime (line : Line) (what : string) (kv : gmap string string) : P (Duration * option Duration) :=
  h ← kv_get line what kv "hold-down";
  hold_down ← parse_duration line h;
  max_ttl ← kv_opt kv "ttl" (parse_duration line);
  match max_ttl with
  | Some ttl => if duration_ltb ttl hold_down then bad line (String.append what " ttl") "must be >= hold-down"
                else Ret (hold_down, max_ttl)
  | None => Ret (hold_down, max_ttl)
  end.

(** ... and the bounds on the session and on new blackholes. *)
Definition rtbh_gtsm_hops (line : Line) (kv : gmap string string) : P (option Z) :=
  kv_opt kv "gtsm-hops" (λ v,
    hops ← parse_num line "rtbh gtsm-hops" v u8_max;
    if hops =? 0 then bad line "rtbh gtsm-hops" "must be >= 1" else Ret hops).

(** The rest of the line, once the session's addresses are known. *)
Definition rtbh_limits (line : Line) (kv : gmap string string) (asn : Z) (peer_addr : SocketAddr) (router_id : Z)
    (local_addr : option IpAddr) (next_hop_v4 next_hop_v6 : option Z) : P RtbhPolicy :=
  m ← kv_get line "rtbh" kv "max"; max_blackholes ← parse_num line "max" m u64_max;
  '(hold_down, max_ttl) ← parse_lifetime line "rtbh" kv;
  communities ← match kv !! "community" with
                | Some spec => parse_communities line (split 44 spec) []
                | None => Ret [(65535, 666)]
                end;
  gtsm_hops ← rtbh_gtsm_hops line kv;
  max_new_per_min ← kv_opt kv "max-new-per-min" (λ v, parse_num line "rtbh max-new-per-min" v u32_max);
  Ret {| rp_local_asn := asn; rp_peer_asn := asn; rp_peer_addr := peer_addr; rp_router_id := router_id;
         rp_blackhole_communities := communities; rp_next_hop_v4 := next_hop_v4; rp_next_hop_v6 := next_hop_v6;
         rp_max_blackholes := max_blackholes; rp_hold_down := hold_down; rp_max_ttl := max_ttl;
         rp_md5 := md5_new <$> kv !! "md5"; rp_gtsm_hops := gtsm_hops; rp_local_addr := local_addr;
         rp_max_new_per_min := max_new_per_min |}.

Definition parse_rtbh (line : Line) (a : Acc) : P RtbhPolicy :=
  if a_rtbh a is Some _ then bad line "rtbh" "duplicate"
  else
    ts ← words_from line 1;
    kv ← parse_kv line "rtbh" rtbh_keys ts ∅;
    peer_tok ← kv_get line "rtbh" kv "peer"; peer_addr ← parse_endpoint line "peer" peer_tok 179;
    la ← kv_get line "rtbh" kv "local-as"; local_asn ← parse_num line "local-as" la u32_max;
    pa ← kv_get line "rtbh" kv "peer-as"; peer_asn ← parse_num line "peer-as" pa u32_max;
    if negb (local_asn =? peer_asn) then bad line "rtbh local-as/peer-as" "must match (iBGP only)"
    else
      local_addr ← kv_opt kv "local-addr" (λ v, or_bad line "local-addr" v (parse_ip v));
      router_id ← rtbh_router_id line kv local_addr;
      if decide (sa_ip peer_addr = V4 router_id) then bad line "rtbh router-id" "must differ from the BGP peer address"
      else
        next_hop_v4 ← kv_opt kv "next-hop-v4" (λ v, or_bad line "next-hop-v4" v (parse_ipv4 v));
        next_hop_v6 ← kv_opt kv "next-hop-v6" (λ v, or_bad line "next-hop-v6" v (parse_ipv6 v));
        match next_hop_v4, next_hop_v6 with
        | None, None => bad line "rtbh" "at least one of next-hop-v4/next-hop-v6 required"
        | _, _ => rtbh_limits line kv local_asn peer_addr router_id local_addr next_hop_v4 next_hop_v6
        end.

Definition flowspec_keys : list string := ["concentration"; "max-flows"; "rate"; "max-rules"; "hold-down"; "ttl"].

Definition f64_one : f64 := f64_of_int 1.
Definition f_is_nan (x : spec_float) : bool := match x with S754_nan => true | _ => false end.

Definition parse_flowspec (line : Line) (a : Acc) : P FlowSpecPolicy :=
  if a_flowspec a is Some _ then bad line "flowspec" "duplicate"
  else
    ts ← words_from line 1;
    kv ← parse_kv line "flowspec" flowspec_keys ts ∅;
    let get := kv_get line "flowspec" kv in
    c ← get "concentration"; concentration ← or_bad line "concentration" c (parse_f64 c);
    mf ← get "max-flows"; max_flows ← parse_num line "max-flows" mf u64_max;
    r ← get "rate"; rate ← or_bad line "rate" r (parse_f32 r);
    mr ← get "max-rules"; max_rules ← parse_num line "max-rules" mr u64_max;
    '(hold_down, max_ttl) ← parse_lifetime line "flowspec" kv;
    if negb (SFleb f64_zero concentration && SFleb concentration f64_one)
    then bad line "flowspec concentration" "must be in 0.0..=1.0"
    else if max_flows =? 0 then bad line "flowspec max-flows" "must be >= 1"
    else if f_is_nan rate || SFltb rate f32_zero then bad line "flowspec rate" "must be >= 0"
    else Ret {| fp_concentration := concentration; fp_max_flows := max_flows; fp_rate := rate;
                fp_max_rules := max_rules; fp_hold_down := hold_down; fp_max_ttl := max_ttl |}.

Fixpoint parse_metrics (line : Line) (tokens : list string) (listen : option SocketAddr) : P (option SocketAddr) :=
  match tokens with
  | [] => Ret listen
  | tok :: tokens =>
      '(k, v) ← split_kv line "metrics" tok;
      if negb (bool_decide (k = "listen")) then bad line "metrics key" k
      else l ← or_bad line "metrics listen" v (parse_socket_addr v); parse_metrics line tokens (Some l)
  end.

Fixpoint api_tokens (line : Line) (tokens : list string) (listen : option SocketAddr) (token_file : option string)
    : P (option SocketAddr * option string) :=
  match tokens with
  | [] => Ret (listen, token_file)
  | tok :: tokens =>
      '(k, v) ← split_kv line "api" tok;
      if decide (k = "listen") then
        l ← or_bad line "api listen" v (parse_socket_addr v); api_tokens line tokens (Some l) token_file
      else if decide (k = "token-file") then api_tokens line tokens listen (Some v)
      else bad line "api key" k
  end.

Definition parse_api (line : Line) : P ApiConfig :=
  ts ← words_from line 1;
  '(listen, token_file) ← api_tokens line ts None None;
  listen ← or_bad line "api missing key" "listen" listen;
  token_file ← or_bad line "api missing key" "token-file" token_file;
  Ret {| api_listen := listen; api_token_file := token_file |}.

Fixpoint pop_tokens (line : Line) (tokens : list string) (agent : option IpAddr) (sampling : option Z)
    : P (option IpAddr * option Z) :=
  match tokens with
  | [] => Ret (agent, sampling)
  | tok :: tokens =>
      '(k, v) ← split_kv line "pop" tok;
      if decide (k = "agent") then
        ip ← or_bad line "pop agent" v (parse_ip v); pop_tokens line tokens (Some ip) sampling
      else if decide (k = "sampling") then
        n ← parse_num line "pop sampling" v u32_max; pop_tokens line tokens agent (Some n)
      else bad line "pop key" k
  end.

Definition pop_name_char (b : Z) : bool := is_ascii_alphanumeric b || (b =? 95) || (b =? 45).

Definition parse_pop (line : Line) (a : Acc) : P PopEntry :=
  name ← or_bad line "pop name" "" (words line !! 1%nat);
  ts ← words_from line 2;
  '(agent, sampling) ← pop_tokens line ts None None;
  agent ← or_bad line "pop missing agent" name agent;
  sampling ← or_bad line "pop missing sampling" name sampling;
  if negb (forallb pop_name_char (str_bytes name)) then bad line "pop name" name
  else if existsb (λ p, bool_decide (pe_agent p = agent)) (a_pops a) then bad line "pop" "duplicate agent"
  else if existsb (λ p, bool_decide (pe_name p = name)) (a_pops a) then bad line "pop" "duplicate name"
  else Ret {| pe_name := name; pe_agent := agent; pe_sampling := sampling |}.

(** A number that must not be zero. *)
Definition parse_positive (line : Line) (what v : string) (max : Z) (msg : string) : P Z :=
  n ← parse_num line what v max; if n =? 0 then bad line what msg else Ret n.

Fixpoint parse_engine (line : Line) (tokens : list string) (e : EngineConfig) : P EngineConfig :=
  match tokens with
  | [] => Ret e
  | tok :: tokens =>
      '(k, v) ← split_kv line "engine" tok;
      if decide (k = "max-concurrent") then
        n ← parse_positive line "engine max-concurrent" v u64_max "must be >= 1";
        parse_engine line tokens {| max_concurrent := n; session_timeout_secs := session_timeout_secs e;
                                    tproxy_port := tproxy_port e; nfqueue_num := nfqueue_num e |}
      else if decide (k = "session-timeout") then
        n ← parse_positive line "engine session-timeout" v u64_max "must be >= 1 (seconds)";
        parse_engine line tokens {| max_concurrent := max_concurrent e; session_timeout_secs := n;
                                    tproxy_port := tproxy_port e; nfqueue_num := nfqueue_num e |}
      else if decide (k = "tproxy-port") then
        n ← parse_positive line "engine tproxy-port" v u16_max "must be 1..=65535";
        parse_engine line tokens {| max_concurrent := max_concurrent e;
                                    session_timeout_secs := session_timeout_secs e;
                                    tproxy_port := n; nfqueue_num := nfqueue_num e |}
      else if decide (k = "nfqueue") then
        n ← parse_num line "engine nfqueue" v u16_max;
        parse_engine line tokens {| max_concurrent := max_concurrent e;
                                    session_timeout_secs := session_timeout_secs e;
                                    tproxy_port := tproxy_port e; nfqueue_num := n |}
      else bad line "engine key" k
  end.

(** The non-empty names of a comma-separated list. *)
Definition split_names (v : string) : list string := filter (λ d, d ≠ "") (trim <$> split 44 v).

Fixpoint flowtable_devices (line : Line) (tokens : list string) (devices : list string) : P (list string) :=
  match tokens with
  | [] => Ret devices
  | tok :: tokens =>
      '(k, v) ← split_kv line "flowtable" tok;
      if negb (bool_decide (k = "devices")) then bad line "flowtable key" k
      else flowtable_devices line tokens (devices ++ split_names v)
  end.

Definition parse_flowtable (line : Line) (a : Acc) : P FlowTableConfig :=
  if a_flowtable a is Some _ then bad line "flowtable" "duplicate"
  else
    ts ← words_from line 1;
    devices ← flowtable_devices line ts [];
    match devices with
    | [] => bad line "flowtable devices" "must list at least one interface"
    | _ => Ret {| ft_devices := devices |}
    end.

(** A comma-separated list of ports; an error names the token. *)
Fixpoint parse_ports (line : Line) (what : string) (toks : list string) (ports : list Z) : P (list Z) :=
  match toks with
  | [] => Ret ports
  | tok :: toks =>
      let port_tok := trim tok in
      n ← parse_positive line what port_tok u16_max port_tok;
      parse_ports line what toks (ports ++ [n])
  end.

Definition parse_xdp_mode (line : Line) (v : string) : P XdpMode :=
  if decide (v = "auto") then Ret XdpAuto
  else if decide (v = "native") then Ret XdpNative
  else if decide (v = "generic") then Ret XdpGeneric
  else bad line "xdp mode" v.

Definition xdp_default : XdpConfig := {|
  xc_interface := None; xc_mode := XdpAuto; xc_default_rate_limit_pps := None; xc_cookie_ports := [];
  xc_afxdp_udp_ports := []; xc_afxdp_udp_banner := None; xc_syn_cookie_tx_cap := DEFAULT_SYN_COOKIE_TX_CAP_PPS |}.

Definition xdp_token (line : Line) (k v : string) (c : XdpConfig) : P XdpConfig :=
  match c with
  | Build_XdpConfig iface mode limit cookie udp banner cap =>
      if decide (k = "interface") then Ret (Build_XdpConfig (Some v) mode limit cookie udp banner cap)
      else if decide (k = "mode") then
        m ← parse_xdp_mode line v; Ret (Build_XdpConfig iface m limit cookie udp banner cap)
      else if decide (k = "default-rate-limit") then
        n ← parse_positive line "xdp default-rate-limit" v u64_max "must be >= 1";
        Ret (Build_XdpConfig iface mode (Some n) cookie udp banner cap)
      else if decide (k = "cookie-ports") then
        ports ← parse_ports line "xdp cookie-ports" (split 44 v) cookie;
        Ret (Build_XdpConfig iface mode limit ports udp banner cap)
      else if decide (k = "afxdp-udp-ports") then
        ports ← parse_ports line "xdp afxdp-udp-ports" (split 44 v) udp;
        Ret (Build_XdpConfig iface mode limit cookie ports banner cap)
      else if decide (k = "afxdp-udp-banner") then
        Ret (Build_XdpConfig iface mode limit cookie udp (Some (decode_banner_escapes v)) cap)
      else if decide (k = "syn-cookie-tx-cap") then
        n ← parse_positive line "xdp syn-cookie-tx-cap" v u32_max "must be >= 1";
        Ret (Build_XdpConfig iface mode limit cookie udp banner n)
      else bad line "xdp key" k
  end.

Fixpoint parse_xdp (line : Line) (tokens : list string) (c : XdpConfig) : P XdpConfig :=
  match tokens with
  | [] => Ret c
  | tok :: tokens =>
      '(k, v) ← split_kv line "xdp" tok;
      c ← xdp_token line k v c;
      parse_xdp line tokens c
  end.

Fixpoint parse_stateless (line : Line) (tokens : list string) (ports : list Z) : P (list Z) :=
  match tokens with
  | [] => Ret ports
  | tok :: tokens =>
      '(k, v) ← split_kv line "stateless-tcp" tok;
      if negb (bool_decide (k = "ports")) then bad line "stateless-tcp key" k
      else ports ← parse_ports line "stateless-tcp ports" (split 44 v) ports; parse_stateless line tokens ports
  end.

Definition parse_instance (line : Line) (a : Acc) (name : string) : P string :=
  _ ← expect_len line 1 "instance=<name>";
  if decide (name = "") then bad line "instance" "empty (expected instance=<name>)"
  else if a_instance a is Some _ then bad line "instance" "duplicate"
  else Ret name.

Definition parse_rpki_validator (line : Line) (a : Acc) (url : string) : P string :=
  _ ← expect_len line 1 "rpki-validator=<url>";
  if a_rpki_validator a is Some _ then bad line "rpki-validator" "duplicate"
  else if decide (url = "") then bad line "rpki-validator" "empty url"
  else Ret url.

(** The directives that are a single [key=value] word. *)
Definition parse_assignment (line : Line) (d : string) (a : Acc) : P Acc :=
  match strip_prefix "instance=" d with
  | Some name => n ← parse_instance line a name; Ret (set_instance (Some n) a)
  | None =>
      match strip_prefix "rpki-validator=" d with
      | Some url => u ← parse_rpki_validator line a url; Ret (set_rpki_validator (Some u) a)
      | None =>
          match strip_prefix "rpki-check-interval=" d with
          | Some v =>
              _ ← expect_len line 1 "rpki-check-interval=<dur>";
              t ← parse_duration line v; Ret (set_rpki_check_interval t a)
          | None => Fail_ (UnknownDirective (number line) d)
          end
      end
  end.

(** The directives of one line. *)
Definition parse_directive (line : Line) (d : string) (a : Acc) : P Acc :=
  if decide (d = "interface") then
    _ ← expect_len line 3 "interface <name> <iface>"; w ← word line 2; Ret (set_interface (Some w) a)
  else if decide (d = "ipv4" ∨ d = "ipv6") then
    _ ← expect_len line 2 "<family> <cidr>"; w ← word line 1; n ← parse_cidr line w;
    Ret (set_prefixes (a_prefixes a ++ [n]) a)
  else if decide (d = "protect") then
    _ ← expect_len line 2 "protect <cidr>"; w ← word line 1; n ← parse_cidr line w;
    Ret (set_protected_prefixes (a_protected_prefixes a ++ [n]) a)
  else if decide (d = "default") then st ← parse_default line; Ret (set_default_state st a)
  else if decide (d = "shape") then r ← parse_shape line; Ret (set_shaping (a_shaping a ++ [r]) a)
  else if decide (d = "banner-flux") then c ← parse_banner_flux line a; Ret (set_banner_flux (Some c) a)
  else if decide (d = "dns-flux") then c ← parse_dns_flux line a; Ret (set_dns_flux (Some c) a)
  else if decide (d = "rtbh") then c ← parse_rtbh line a; Ret (set_rtbh (Some c) a)
  else if decide (d = "flowspec") then c ← parse_flowspec line a; Ret (set_flowspec (Some c) a)
  else if decide (d = "metrics") then
    ts ← words_from line 1; l ← parse_metrics line ts (a_metrics_listen a); Ret (set_metrics_listen l a)
  else if decide (d = "api") then c ← parse_api line; Ret (set_api (Some c) a)
  else if decide (d = "pop") then p ← parse_pop line a; Ret (set_pops (a_pops a ++ [p]) a)
  else if decide (d = "engine") then
    ts ← words_from line 1; e ← parse_engine line ts (a_engine a); Ret (set_engine e a)
  else if decide (d = "flowtable") then c ← parse_flowtable line a; Ret (set_flowtable (Some c) a)
  else if decide (d = "xdp") then ts ← words_from line 1; c ← parse_xdp line ts xdp_default; Ret (set_xdp (Some c) a)
  else if decide (d = "stateless-tcp") then
    ts ← words_from line 1; l ← parse_stateless line ts (a_stateless_tcp_ports a); Ret (set_stateless_tcp_ports l a)
  else if decide (d = "shadow") then
    if (1 <? length (words line))%nat then bad line "shadow" (join_space (drop 1 (words line)))
    else Ret (set_shadow true a)
  else parse_assignment line d a.

(** ** The whole file *)

(** The loop over the lines; a tenant block takes several. *)
Fixpoint parse_lines (fuel : nat) (ls : list Line) (a : Acc) : P Acc :=
  match fuel with
  | O => Panic
  | S fuel =>
      match ls with
      | [] => Ret a
      | line :: ls =>
          d ← word line 0;
          if decide (d = "tenant") then
            '(t, rest) ← parse_tenant line ls; parse_lines fuel rest (set_tenants (a_tenants a ++ [t]) a)
          else a ← parse_directive line d a; parse_lines fuel ls a
      end
  end.

Definition parse (ls : list Line) : P Policy :=
  a ← parse_lines (S (length ls)) ls acc_new;
  let eof_line := match last ls with Some l => number l | None => 1 end in
  match a_interface a with
  | None => Fail_ (UnexpectedToken eof_line "<eof>" "an `interface` directive")
  | Some iface =>
      match a_flowspec a, a_rtbh a with
      | Some _, None => Fail_ (BadValue eof_line "flowspec" "requires an rtbh block (shared BGP session)")
      | _, _ =>
          Ret {| interface := iface; prefixes := a_prefixes a; default_state := a_default_state a;
                 tenants := a_tenants a; shaping := a_shaping a; banner_flux := a_banner_flux a;
                 dns_flux := a_dns_flux a; rtbh := a_rtbh a; flowspec := a_flowspec a;
                 metrics_listen := a_metrics_listen a; api := a_api a; pops := a_pops a; engine := a_engine a;
                 flowtable := a_flowtable a; xdp := a_xdp a; stateless_tcp_ports := a_stateless_tcp_ports a;
                 shadow := a_shadow a; protected_prefixes := a_protected_prefixes a;
                 rpki_validator := a_rpki_validator a; rpki_check_interval := a_rpki_check_interval a;
                 instance := a_instance a |}
      end
  end.

Definition parse_str (input : string) : P Policy := parse (lex input).

(** Reading the file is an argument: its text, or the error. *)
Definition parse_file (read : result string string) : P Policy :=
  match read with Ok text => parse_str text | Err e => Fail_ (Io e) end.

Definition parse_and_resolve (read : result string string) : P Policy :=
  policy ← parse_file read;
  match resolve policy with Ok _ => Ret policy | Err e => Fail_ (Resolve e) end.

End parser.
