(* ===== verification/ConfigSpec.v ===== *)
(** * What the configuration reader guarantees

    A parsed policy is valid (every field is in the range its type and the
    parser's checks promise), the reader never panics and always ends, an
    error names a line of the file, the lexer loses no word, and a policy that
    loads renders to a ruleset the kernel runs as the policy says. *)
From stdpp Require Import prelude gmap strings.
From Stdlib Require Import Floats.SpecFloat.
From S2P Require Import Prelude Net Float Core Bytes NetText Text Config Nft.

Open Scope Z_scope.

(** ** Outcomes *)

(** The computation ends with a value of [Q] or an error of [E]. *)
Definition spec {A} (m : P A) (Q : A → Prop) (E : ConfigError → Prop) : Prop :=
  match m with Ret a => Q a | Fail_ e => E e | Panic => False end.

Lemma spec_bind {A B} (m : P A) (f : A → P B) Q1 Q E :
  spec m Q1 E → (∀ a, Q1 a → spec (f a) Q E) → spec (m ≫= f) Q E.
Proof. destruct m; cbn; auto. Qed.

Lemma spec_mono {A} (m : P A) (Q1 Q : A → Prop) E : spec m Q1 E → (∀ a, Q1 a → Q a) → spec m Q E.
Proof. destruct m; cbn; auto. Qed.

Lemma spec_mono_err {A} (m : P A) (Q : A → Prop) (E1 E : ConfigError → Prop) :
  spec m Q E1 → (∀ e, E1 e → E e) → spec m Q E.
Proof. destruct m; cbn; auto. Qed.

Definition error_line (e : ConfigError) : option Z :=
  match e with
  | UnexpectedToken n _ _ | UnknownDirective n _ | BadValue n _ _ => Some n
  | Io _ | Resolve _ => None
  end.

Definition at_line (line : Line) (e : ConfigError) : Prop := error_line e = Some (number line).

Create HintDb pspec discriminated.
#[export] Hint Constants Opaque : pspec.

(** Runs a computation whose steps have specifications in [pspec]. *)
Ltac pspec_step :=
  match goal with
  | |- spec (Ret _) _ _ => cbn [spec]
  | |- spec (Fail_ _) _ _ => reflexivity
  | |- spec (bad _ _ _) _ _ => reflexivity
  | |- spec (unexpected _ _ _) _ _ => reflexivity
  | |- spec (mbind _ _) _ _ => eapply spec_bind; [solve [eauto with pspec]|cbv beta; intros ? ?]
  | |- spec (let '(_, _) := ?x in _) _ _ => destruct x
  | |- spec (match ?x with _ => _ end) _ _ => destruct x eqn:?
  end.
Ltac pspec := repeat pspec_step.

(** One of the parser's variables is replaced by a valid value. *)
Ltac set_ok H a := destruct H, a; split; cbn in *; try done; try (by intros ? [= <-]).

(** ** Numbers and addresses *)

Lemma read_number_ok radix md az max l v rest :
  0 ≤ radix → read_number radix md az max l = Some (v, rest) → 0 ≤ v ≤ max.
Proof.
  intros Hr. unfold read_number. destruct (span_digits radix l) as [ds r] eqn:E. apply span_digits_ok in E.
  destruct (match md with Some m => _ | None => _ end); [done|]. destruct ds as [|d ds']; [done|].
  set (ds := d :: ds') in *. destruct (_ && _); [done|]. destruct (Z.ltb_spec max (digits_value radix ds)); [done|].
  intros [= <- _]. split; [|done]. by apply digits_value_nonneg.
Qed.

Lemma read_separator_ok {A} sep i (inner : list Z → option (A * list Z)) (Q : A → Prop) l a rest :
  (∀ l a rest, inner l = Some (a, rest) → Q a) → read_separator sep i inner l = Some (a, rest) → Q a.
Proof.
  unfold read_separator. intros Hi. destruct (i =? 0)%nat; [apply Hi|].
  destruct (read_given_char sep l); [apply Hi|done].
Qed.

Lemma read_ipv4_ok l a rest : read_ipv4_addr l = Some (a, rest) → 0 ≤ a < 2 ^ 32.
Proof.
  unfold read_ipv4_addr. intros Hr.
  assert (∀ i l o rest, read_octet i l = Some (o, rest) → byte_ok o) as Ho.
  { intros i l0 o r. apply read_separator_ok. intros ? ? ? Hn. apply read_number_ok in Hn; [|lia]. unfold byte_ok, u8_max in *. lia. }
  repeat (apply bind_Some in Hr as ([? ?] & ?%Ho & Hr)). injection Hr as <- _.
  pose proof (be_value_bound [_; _; _; _] (Forall_cons_2 _ _ _ H (Forall_cons_2 _ _ _ H0 (Forall_cons_2 _ _ _ H1
    (Forall_cons_2 _ _ _ H2 (Forall_nil_2 _)))))) as Hb. exact Hb.
Qed.

Definition group_ok (g : Z) : Prop := 0 ≤ g ≤ u16_max.

Lemma read_groups_ok k : ∀ i l gs v4 rest,
  read_groups k i l = (gs, v4, rest) → Forall group_ok gs ∧ (length gs ≤ k)%nat.
Proof.
  induction k as [|k IH]; intros i l gs v4 rest; cbn [read_groups]; [intros [= <- _ _]; split; [constructor|done]|].
  destruct (if _ : bool then _ else _) as [[a r]|] eqn:E4.
  - destruct (Nat.leb_spec 1 k) as [Hk|]; [|done]. intros [= <- _ _]. split; [|simpl; lia].
    apply (read_separator_ok _ _ _ (λ a, 0 ≤ a < 2 ^ 32)) in E4; [|apply read_ipv4_ok].
    assert (0 ≤ a / 65536 < 65536) by (split; [apply Z.div_pos; lia|apply Z.div_lt_upper_bound; lia]).
    pose proof (Z.mod_pos_bound a 65536). repeat constructor; unfold u16_max; lia.
  - destruct (read_group i l) as [[g r]|] eqn:Eg; [|intros [= <- _ _]; split; [constructor|simpl; lia]].
    destruct (read_groups k (S i) r) as [[gs' v'] r'] eqn:Er. intros [= <- _ _]. apply IH in Er as [Hf Hl].
    split; [|simpl; lia]. constructor; [|done]. revert Eg. apply read_separator_ok.
    intros ? ? ? Hn. apply read_number_ok in Hn; [done|lia].
Qed.

Lemma groups_value_bound gs : Forall group_ok gs → 0 ≤ groups_value gs < 65536 ^ Z.of_nat (length gs).
Proof.
  induction gs as [|g gs IH] using rev_ind; [cbn; lia|]. intros [Hgs Hg]%Forall_app. specialize (IH Hgs).
  apply Forall_cons in Hg as [Hg _]. unfold group_ok, u16_max in Hg.
  rewrite groups_value_app, length_app, Nat.add_1_r, Nat2Z.inj_succ, Z.pow_succ_r by lia. lia.
Qed.

Lemma read_ipv6_ok l a rest : read_ipv6_addr l = Some (a, rest) → 0 ≤ a < 2 ^ 128.
Proof.
  unfold read_ipv6_addr. destruct (read_groups 8 0 l) as [[head v4] r] eqn:E. apply read_groups_ok in E as [Hh Hl].
  destruct (Nat.eqb_spec (length head) 8) as [He|He].
  { intros [= <- _]. pose proof (groups_value_bound head Hh) as Hb. by rewrite He in Hb. }
  destruct v4; [done|]. intros (r1 & _ & Hr)%bind_Some. apply bind_Some in Hr as (r2 & _ & Hr).
  destruct (read_groups _ 0 r2) as [[tail v] r3] eqn:E2. apply read_groups_ok in E2 as [Ht Htl]. injection Hr as <- _.
  pose proof (groups_value_bound (head ++ replicate (8 - length head - length tail) 0 ++ tail)) as Hb.
  rewrite !length_app, length_replicate in Hb.
  replace (length head + (8 - length head - length tail + length tail))%nat with 8%nat in Hb by lia.
  apply Hb. repeat (apply Forall_app; split); try done. apply Forall_replicate. unfold group_ok, u16_max. lia.
Qed.

Lemma read_ip_ok l a rest : read_ip_addr l = Some (a, rest) → ip_wf a.
Proof.
  unfold read_ip_addr, ip_wf. destruct (read_ipv4_addr l) as [[v r]|] eqn:E4.
  - intros [= <- _]. by apply read_ipv4_ok in E4.
  - intros ([v r] & E6 & [= <- _])%bind_Some. by apply read_ipv6_ok in E6.
Qed.

Lemma parse_with_ok {A} (inner : list Z → option (A * list Z)) (Q : A → Prop) l a :
  (∀ l a rest, inner l = Some (a, rest) → Q a) → parse_with inner l = Some a → Q a.
Proof.
  unfold parse_with. intros Hi. destruct (inner l) as [[x [|]]|] eqn:E; [|done..]. intros [= <-]. by eapply Hi.
Qed.

Lemma parse_ip_wf s a : parse_ip s = Some a → ip_wf a.
Proof. unfold parse_ip. apply (parse_with_ok _ ip_wf), read_ip_ok. Qed.

Lemma parse_ipv4_wf s a : parse_ipv4 s = Some a → ip_wf (V4 a).
Proof.
  unfold parse_ipv4. destruct (_ <? _)%nat; [done|]. apply (parse_with_ok _ (λ a, ip_wf (V4 a))), read_ipv4_ok.
Qed.

Lemma parse_ipv6_wf s a : parse_ipv6 s = Some a → ip_wf (V6 a).
Proof. unfold parse_ipv6. apply (parse_with_ok _ (λ a, ip_wf (V6 a))), read_ipv6_ok. Qed.

Definition socket_ok (a : SocketAddr) : Prop := ip_wf (sa_ip a) ∧ 0 ≤ sa_port a ≤ u16_max.

Lemma read_port_ok l p rest : read_port l = Some (p, rest) → 0 ≤ p ≤ u16_max.
Proof. unfold read_port. intros (l' & _ & Hn)%bind_Some. apply read_number_ok in Hn; [done|lia]. Qed.

Lemma parse_socket_addr_ok s a : parse_socket_addr s = Some a → socket_ok a.
Proof.
  unfold parse_socket_addr. apply parse_with_ok. clear. intros l a rest. unfold read_socket_addr.
  destruct (read_socket_addr_v4 l) as [[x r]|] eqn:E4.
  - intros [= -> _]. unfold read_socket_addr_v4 in E4. apply bind_Some in E4 as ([v l1] & Hv & E4).
    apply bind_Some in E4 as ([p l2] & Hp & [= <- _]). split; [by eapply read_ipv4_ok|by eapply read_port_ok].
  - unfold read_socket_addr_v6. intros (l1 & _ & Hr)%bind_Some. apply bind_Some in Hr as ([v l2] & Hv & Hr).
    destruct (match read_scope_id l2 with Some r => r | None => (0, l2) end) as [scope l3].
    apply bind_Some in Hr as (l4 & _ & Hr). apply bind_Some in Hr as ([p l5] & Hp & [= <- _]).
    split; [by eapply read_ipv6_ok|by eapply read_port_ok].
Qed.

(** ** Valid configuration values *)

Definition duration_ok (d : Duration) : Prop := 0 ≤ secs d ≤ u64_max ∧ nanos d = 0.
Definition port_ok (p : Z) : Prop := 0 ≤ p ≤ u16_max.
Definition real_port (p : Z) : Prop := 1 ≤ p ≤ u16_max.

(** A lifetime: the limit is not shorter than the hold-down. *)
Definition lifetime_ok (hold_down : Duration) (max_ttl : option Duration) : Prop :=
  duration_ok hold_down ∧ (∀ t, max_ttl = Some t → duration_ok t ∧ secs hold_down ≤ secs t).

Definition target_ok (t : ServiceTarget) : Prop := match t with Nat_ a => socket_ok a | Host | Incus _ => True end.
Definition allow_ok (a : AllowRule) : Prop := port_ok (al_port a) ∧ target_ok (al_target a) ∧ al_scope a = None.
Definition tenant_ok (t : Tenant) : Prop := Forall ip_wf (te_owned t) ∧ Forall allow_ok (te_allows t).

Definition bandwidth_ok (b : ShapeBandwidth) : Prop := match b with BwAuto => True | BwFixed m => 0 ≤ m ≤ u32_max end.
Definition shape_ok (r : ShapeRule) : Prop :=
  bandwidth_ok (sh_download r) ∧ bandwidth_ok (sh_upload r) ∧ (∀ ms, sh_rtt_ms r = Some ms → 0 ≤ ms ≤ u32_max).

Record rtbh_ok (p : RtbhPolicy) : Prop := {
  ro_ibgp : rp_local_asn p = rp_peer_asn p;
  ro_asn : 0 ≤ rp_local_asn p ≤ u32_max;
  ro_peer : socket_ok (rp_peer_addr p);
  ro_router_id : ip_wf (V4 (rp_router_id p));
  ro_not_peer : sa_ip (rp_peer_addr p) ≠ V4 (rp_router_id p);
  ro_next_hop : rp_next_hop_v4 p ≠ None ∨ rp_next_hop_v6 p ≠ None;
  ro_next_hop_v4 : ∀ a, rp_next_hop_v4 p = Some a → ip_wf (V4 a);
  ro_next_hop_v6 : ∀ a, rp_next_hop_v6 p = Some a → ip_wf (V6 a);
  ro_max : 0 ≤ rp_max_blackholes p ≤ u64_max;
  ro_lifetime : lifetime_ok (rp_hold_down p) (rp_max_ttl p);
  ro_communities : Forall (λ c, 0 ≤ c.1 ≤ u16_max ∧ 0 ≤ c.2 ≤ u16_max) (rp_blackhole_communities p);
  ro_gtsm : ∀ n, rp_gtsm_hops p = Some n → 1 ≤ n ≤ u8_max;
  ro_local : ∀ a, rp_local_addr p = Some a → ip_wf a;
  ro_rate : ∀ n, rp_max_new_per_min p = Some n → 0 ≤ n ≤ u32_max;
}.

Record flowspec_ok (p : FlowSpecPolicy) : Prop := {
  fo_concentration : SFleb f64_zero (fp_concentration p) = true ∧ SFleb (fp_concentration p) f64_one = true;
  fo_max_flows : 1 ≤ fp_max_flows p ≤ u64_max;
  fo_rate : fp_rate p ≠ S754_nan ∧ SFltb (fp_rate p) f32_zero = false;
  fo_max_rules : 0 ≤ fp_max_rules p ≤ u64_max;
  fo_lifetime : lifetime_ok (fp_hold_down p) (fp_max_ttl p);
}.

Definition engine_ok (e : EngineConfig) : Prop :=
  1 ≤ max_concurrent e ≤ u64_max ∧ 1 ≤ session_timeout_secs e ≤ u64_max ∧ real_port (tproxy_port e) ∧
  port_ok (nfqueue_num e).

Definition xdp_ok (c : XdpConfig) : Prop :=
  (∀ n, xc_default_rate_limit_pps c = Some n → 1 ≤ n ≤ u64_max) ∧ Forall real_port (xc_cookie_ports c) ∧
  Forall real_port (xc_afxdp_udp_ports c) ∧ 1 ≤ xc_syn_cookie_tx_cap c ≤ u32_max.

(** POP names and agents are distinct, and names fit a metrics label. *)
Definition pops_ok (l : list PopEntry) : Prop :=
  Forall (λ p, Forall (λ b, pop_name_char b = true) (str_bytes (pe_name p)) ∧ ip_wf (pe_agent p) ∧
               0 ≤ pe_sampling p ≤ u32_max) l ∧
  NoDup (pe_name <$> l) ∧ NoDup (pe_agent <$> l).

Section valid.
Context `{NetParse}.

Definition dns_ok (c : DnsFluxConfig) : Prop :=
  socket_ok (df_server c) ∧ ip_wf (net_addr (df_prefix c)) ∧ 1 ≤ df_set c ≤ df_count c ∧ df_count c ≤ u64_max ∧
  duration_ok (df_period c) ∧ 0 ≤ df_ttl c ≤ u32_max.

Record policy_valid (p : Policy) : Prop := {
  po_interface : interface p ≠ "";
  po_prefixes : Forall (λ n, ip_wf (net_addr n)) (prefixes p);
  po_tenants : Forall tenant_ok (tenants p);
  po_shaping : Forall shape_ok (shaping p);
  po_banner : ∀ c, banner_flux p = Some c → duration_ok (bf_period c);
  po_dns : ∀ c, dns_flux p = Some c → dns_ok c;
  po_rtbh : ∀ c, rtbh p = Some c → rtbh_ok c;
  po_flowspec : ∀ c, flowspec p = Some c → flowspec_ok c ∧ rtbh p ≠ None;
  po_metrics : ∀ a, metrics_listen p = Some a → socket_ok a;
  po_api : ∀ c, api p = Some c → socket_ok (api_listen c);
  po_pops : pops_ok (pops p);
  po_engine : engine_ok (engine p);
  po_flowtable : ∀ c, flowtable p = Some c → ft_devices c ≠ [];
  po_xdp : ∀ c, xdp p = Some c → xdp_ok c;
  po_stateless : Forall real_port (stateless_tcp_ports p);
  po_protected : Forall (λ n, ip_wf (net_addr n)) (protected_prefixes p);
  po_validator : ∀ u, rpki_validator p = Some u → u ≠ "";
  po_interval : duration_ok (rpki_check_interval p);
  po_instance : ∀ n, instance p = Some n → n ≠ "";
}.

(** The same of the parser's variables. *)
Record acc_ok (a : Acc) : Prop := {
  ao_interface : ∀ i, a_interface a = Some i → i ≠ "";
  ao_prefixes : Forall (λ n, ip_wf (net_addr n)) (a_prefixes a);
  ao_tenants : Forall tenant_ok (a_tenants a);
  ao_shaping : Forall shape_ok (a_shaping a);
  ao_banner : ∀ c, a_banner_flux a = Some c → duration_ok (bf_period c);
  ao_dns : ∀ c, a_dns_flux a = Some c → dns_ok c;
  ao_rtbh : ∀ c, a_rtbh a = Some c → rtbh_ok c;
  ao_flowspec : ∀ c, a_flowspec a = Some c → flowspec_ok c;
  ao_metrics : ∀ l, a_metrics_listen a = Some l → socket_ok l;
  ao_api : ∀ c, a_api a = Some c → socket_ok (api_listen c);
  ao_pops : pops_ok (a_pops a);
  ao_engine : engine_ok (a_engine a);
  ao_flowtable : ∀ c, a_flowtable a = Some c → ft_devices c ≠ [];
  ao_xdp : ∀ c, a_xdp a = Some c → xdp_ok c;
  ao_stateless : Forall real_port (a_stateless_tcp_ports a);
  ao_protected : Forall (λ n, ip_wf (net_addr n)) (a_protected_prefixes a);
  ao_validator : ∀ u, a_rpki_validator a = Some u → u ≠ "";
  ao_interval : duration_ok (a_rpki_check_interval a);
  ao_instance : ∀ n, a_instance a = Some n → n ≠ "";
}.

(** ** The steps of the parser *)

Section line.
Context (line : Line).
Abbreviation E := (at_line line).

Lemma or_bad_spec {A} what v (r : option A) : spec (or_bad line what v r) (λ a, r = Some a) E.
Proof. by destruct r. Qed.

Lemma word_spec i : (i < length (words line))%nat → spec (word line i) (λ w, words line !! i = Some w) E.
Proof. intros Hi. unfold word. by destruct (lookup_lt_is_Some_2 _ _ Hi) as [w ->]. Qed.

Lemma words_from_spec n : (n ≤ length (words line))%nat → spec (words_from line n) (λ ws, ws = drop n (words line)) E.
Proof. intros Hn. unfold words_from. by rewrite (proj2 (Nat.leb_le _ _)). Qed.

Lemma expect_len_spec n expected : spec (expect_len line n expected) (λ _, length (words line) = n) E.
Proof. unfold expect_len. by destruct (Nat.eqb_spec (length (words line)) n). Qed.

Lemma parse_num_spec what v max : spec (parse_num line what v max) (λ n, 0 ≤ n ≤ max) E.
Proof. eapply spec_mono; [apply or_bad_spec|]. intros n. apply parse_uint_ok. Qed.

Lemma parse_positive_spec what v max msg : spec (parse_positive line what v max msg) (λ n, 1 ≤ n ≤ max) E.
Proof.
  unfold parse_positive. eapply spec_bind; [apply parse_num_spec|]. cbn. intros n Hn.
  destruct (Z.eqb_spec n 0); [done|]. cbn. lia.
Qed.

Lemma split_kv_spec what tok : spec (split_kv line what tok) (λ _, True) E.
Proof. eapply spec_mono; [apply or_bad_spec|done]. Qed.

Lemma parse_cidr_spec raw : spec (parse_cidr line raw) (λ n, ip_wf (net_addr n)) E.
Proof. eapply spec_mono; [apply or_bad_spec|]. intros n. apply net_parse_wf. Qed.

Lemma parse_duration_spec tok : spec (parse_duration line tok) duration_ok E.
Proof.
  unfold parse_duration. eapply (spec_bind _ _ (λ _, True)); [by pspec|]. intros [ds mult] _.
  eapply spec_bind; [apply or_bad_spec|]. intros n _. cbn. unfold duration_ok, from_secs, u64_max. cbn.
  pose proof (Z.mod_pos_bound (n * mult) (18446744073709551615 + 1)). lia.
Qed.

Lemma parse_mbit_spec tok : spec (parse_mbit line tok) (λ n, 0 ≤ n ≤ u32_max) E.
Proof. eapply spec_mono; [apply or_bad_spec|]. intros n (d & _ & Hd)%bind_Some. by eapply parse_uint_ok. Qed.

Lemma parse_ms_spec tok : spec (parse_ms line tok) (λ n, 0 ≤ n ≤ u32_max) E.
Proof. eapply spec_mono; [apply or_bad_spec|]. intros n (d & _ & Hd)%bind_Some. by eapply parse_uint_ok. Qed.

Lemma parse_endpoint_spec what tok port :
  port_ok port → spec (parse_endpoint line what tok port) socket_ok E.
Proof.
  intros Hp. eapply spec_mono; [apply or_bad_spec|]. intros a. destruct (parse_socket_addr tok) as [b|] eqn:Es.
  - intros [= <-]. by eapply parse_socket_addr_ok.
  - intros (ip & Hip & [= <-])%bind_Some. split; [by eapply parse_ip_wf|done].
Qed.

Lemma parse_kv_spec what keys tokens kv : spec (parse_kv line what keys tokens kv) (λ _, True) E.
Proof.
  revert kv. induction tokens as [|tok tokens IH]; intros kv; [done|]. cbn [parse_kv].
  eapply spec_bind; [apply split_kv_spec|]. intros [k v] _. pspec. apply IH.
Qed.

Lemma kv_get_spec what kv k : spec (kv_get line what kv k) (λ _, True) E.
Proof. eapply spec_mono; [apply or_bad_spec|done]. Qed.

Lemma kv_opt_spec {A} kv k (f : string → P A) Q :
  (∀ v, spec (f v) Q E) → spec (kv_opt kv k f) (λ o, ∀ a, o = Some a → Q a) E.
Proof.
  intros Hf. unfold kv_opt. destruct (kv !! k); [|done]. eapply spec_bind; [apply Hf|]. cbn. by intros a Ha b [= <-].
Qed.

#[local] Hint Resolve or_bad_spec parse_num_spec parse_positive_spec split_kv_spec parse_cidr_spec
  parse_duration_spec parse_mbit_spec parse_ms_spec parse_kv_spec kv_get_spec expect_len_spec : pspec.

Lemma parse_target_spec raw : spec (parse_target line raw) target_ok E.
Proof. unfold parse_target. pspec; [done..|]. by eapply parse_socket_addr_ok. Qed.
#[local] Hint Resolve parse_target_spec : pspec.

Lemma parse_allow_spec : spec (parse_allow line) allow_ok E.
Proof.
  unfold parse_allow. eapply spec_bind; [apply expect_len_spec|]. intros [] Hl.
  do 3 (eapply spec_bind; [apply word_spec; lia|]; intros ? _).
  eapply (spec_bind _ _ (λ _, True)); [by pspec|]. intros proto _. pspec. split_and!; [|done..].
  by eapply parse_uint_ok.
Qed.

Lemma parse_owned_spec tokens owned :
  Forall ip_wf owned → spec (parse_owned line tokens owned) (Forall ip_wf) E.
Proof.
  revert owned. induction tokens as [|tok tokens IH]; intros owned Ho; [done|]. cbn [parse_owned]. pspec.
  apply IH, Forall_app. split; [done|]. apply Forall_singleton. by eapply parse_ip_wf.
Qed.

Lemma shape_options_spec fuel : ∀ ws upload rtt_ms,
  (length ws < fuel)%nat → (∀ b, upload = Some b → bandwidth_ok b) → (∀ n, rtt_ms = Some n → 0 ≤ n ≤ u32_max) →
  spec (shape_options fuel line ws upload rtt_ms)
    (λ r, (∀ b, r.1 = Some b → bandwidth_ok b) ∧ (∀ n, r.2 = Some n → 0 ≤ n ≤ u32_max)) E.
Proof.
  induction fuel as [|fuel IH]; intros ws upload rtt_ms Hl Hu Hr; [lia|]. cbn [shape_options].
  destruct ws as [|w ws]; [done|]. simpl in Hl. destruct (decide (w = "up")).
  - destruct ws as [|token ws]; [done|]. simpl in Hl. eapply (spec_bind _ _ bandwidth_ok); [by pspec|].
    intros up Hup. apply IH; [lia| |done]. by intros b [= <-].
  - destruct (decide (w = "rtt")); [|done]. destruct ws as [|token ws]; [done|]. simpl in Hl. pspec.
    apply IH; [lia|done|]. by intros ? [= <-].
Qed.

Lemma parse_shape_spec : spec (parse_shape line) shape_ok E.
Proof.
  unfold parse_shape. destruct (Nat.ltb_spec (length (words line)) 3); [done|].
  do 2 (eapply spec_bind; [apply word_spec; lia|]; intros ? _).
  eapply (spec_bind _ _ (λ r, bandwidth_ok r.1 ∧ (r.2 ≤ length (words line))%nat)).
  { case_decide; [split; [done|simpl; lia]|]. case_decide; [|done].
    destruct (Nat.ltb_spec (length (words line)) 4); [done|].
    eapply spec_bind; [apply word_spec; lia|]. intros ? _. pspec. split; [done|simpl; lia]. }
  intros [download idx] [Hd Hi]. cbn in Hd, Hi. eapply spec_bind; [by apply words_from_spec|]. intros rest ->.
  eapply spec_bind; [apply shape_options_spec; [lia|done..]|]. intros [upload rtt] [Hu Hr]. cbn in Hu, Hr. cbn.
  split_and!; [done| |done]. destruct upload; [by apply Hu|done].
Qed.

Lemma parse_lifetime_spec what kv : spec (parse_lifetime line what kv) (λ r, lifetime_ok r.1 r.2) E.
Proof.
  unfold parse_lifetime. pspec_step. pspec_step. eapply spec_bind; [apply kv_opt_spec, parse_duration_spec|].
  intros max_ttl Ht. destruct max_ttl as [ttl|]; [|by split].
  destruct (duration_ltb ttl _) eqn:El; [done|]. split; [done|]. intros t [= <-]. cbn.
  specialize (Ht ttl eq_refl). split; [done|]. unfold duration_ltb in El.
  apply orb_false_iff in El as [El _]. apply Z.ltb_ge in El. lia.
Qed.

Lemma parse_communities_spec pairs out :
  Forall (λ c, 0 ≤ c.1 ≤ u16_max ∧ 0 ≤ c.2 ≤ u16_max) out →
  spec (parse_communities line pairs out) (Forall (λ c, 0 ≤ c.1 ≤ u16_max ∧ 0 ≤ c.2 ≤ u16_max)) E.
Proof.
  revert out. induction pairs as [|pr pairs IH]; intros out Ho; [done|]. cbn [parse_communities].
  pspec. apply IH, Forall_app. split; [done|]. apply Forall_singleton. split; by eapply parse_uint_ok.
Qed.

Lemma rtbh_router_id_spec kv local_addr :
  (∀ a, local_addr = Some a → ip_wf a) → spec (rtbh_router_id line kv local_addr) (λ a, ip_wf (V4 a)) E.
Proof.
  intros Hl. unfold rtbh_router_id. destruct (kv !! _).
  - eapply spec_mono; [apply or_bad_spec|]. intros a. apply parse_ipv4_wf.
  - destruct local_addr as [[a|a]|]; [|done..]. by apply Hl.
Qed.

#[local] Hint Resolve parse_lifetime_spec rtbh_router_id_spec : pspec.

Lemma rtbh_gtsm_hops_spec kv : spec (rtbh_gtsm_hops line kv) (λ o, ∀ n, o = Some n → 1 ≤ n ≤ u8_max) E.
Proof.
  unfold rtbh_gtsm_hops. apply kv_opt_spec. intros v. eapply spec_bind; [apply parse_num_spec|]. cbn. intros n Hn.
  destruct (Z.eqb_spec n 0); [done|]. cbn. lia.
Qed.
#[local] Hint Resolve rtbh_gtsm_hops_spec : pspec.

Lemma kv_opt_parsed {A} kv k what (f : string → option A) (Q : A → Prop) :
  (∀ s a, f s = Some a → Q a) →
  spec (kv_opt kv k (λ v, or_bad line what v (f v))) (λ o, ∀ a, o = Some a → Q a) E.
Proof. intros Hf. apply kv_opt_spec. intros v. eapply spec_mono; [apply or_bad_spec|]. intros a. apply Hf. Qed.

Lemma rtbh_limits_spec kv asn peer_addr router_id local_addr nh4 nh6 :
  0 ≤ asn ≤ u32_max → socket_ok peer_addr → ip_wf (V4 router_id) → sa_ip peer_addr ≠ V4 router_id →
  (∀ a, local_addr = Some a → ip_wf a) → (∀ a, nh4 = Some a → ip_wf (V4 a)) → (∀ a, nh6 = Some a → ip_wf (V6 a)) →
  nh4 ≠ None ∨ nh6 ≠ None →
  spec (rtbh_limits line kv asn peer_addr router_id local_addr nh4 nh6) rtbh_ok E.
Proof.
  intros. unfold rtbh_limits. do 2 pspec_step. eapply spec_bind; [apply parse_lifetime_spec|]. intros [hold ttl] Hlt.
  eapply (spec_bind _ _ (Forall (λ c, 0 ≤ c.1 ≤ u16_max ∧ 0 ≤ c.2 ≤ u16_max))).
  { destruct (kv !! _); [by apply parse_communities_spec|]. apply Forall_singleton. unfold u16_max. cbn. lia. }
  intros communities Hc. pspec_step.
  eapply spec_bind; [apply kv_opt_spec; intros v; apply parse_num_spec|]. intros rate Hr. by split.
Qed.

Lemma parse_rtbh_spec a : (1 ≤ length (words line))%nat → spec (parse_rtbh line a) rtbh_ok E.
Proof.
  intros Hw. unfold parse_rtbh. destruct (a_rtbh a); [done|].
  eapply spec_bind; [by apply words_from_spec|]. intros ts _. do 2 pspec_step.
  eapply spec_bind; [apply parse_endpoint_spec; unfold port_ok, u16_max; lia|]. intros peer_addr Hpeer.
  pspec_step. eapply spec_bind; [apply parse_num_spec|]. intros local_asn Hlas.
  pspec_step. eapply spec_bind; [apply parse_num_spec|]. intros peer_asn _.
  destruct (_ =? _); cbn [negb]; [|done].
  eapply spec_bind; [apply kv_opt_parsed, parse_ip_wf|]. intros local_addr Hla.
  eapply spec_bind; [by apply rtbh_router_id_spec|]. intros router_id Hrid. destruct (decide _); [done|].
  eapply spec_bind; [apply kv_opt_parsed, parse_ipv4_wf|]. intros nh4 Hnh4.
  eapply spec_bind; [apply kv_opt_parsed, parse_ipv6_wf|]. intros nh6 Hnh6.
  destruct nh4, nh6; [apply rtbh_limits_spec; auto..|done].
Qed.

Lemma parse_flowspec_spec a : (1 ≤ length (words line))%nat → spec (parse_flowspec line a) flowspec_ok E.
Proof.
  intros Hw. unfold parse_flowspec. destruct (a_flowspec a); [done|].
  eapply spec_bind; [by apply words_from_spec|]. intros ts _. cbv zeta. do 3 pspec_step.
  pspec_step. eapply spec_bind; [apply parse_num_spec|]. cbv beta. intros max_flows Hmf. do 2 pspec_step.
  pspec_step. eapply spec_bind; [apply parse_num_spec|]. intros max_rules Hmr.
  eapply spec_bind; [apply parse_lifetime_spec|]. intros [hold ttl] Hlt.
  destruct (_ && _) eqn:Ec; cbn [negb]; [|done]. apply andb_true_iff in Ec.
  destruct (Z.eqb_spec max_flows 0); [done|]. destruct (f_is_nan _ || _) eqn:En; [done|].
  apply orb_false_iff in En as [Hn Hr]. split; cbn; [done|lia| |done|done]. split; [|done]. by intros ->.
Qed.

Lemma parse_dns_flux_spec a : (1 ≤ length (words line))%nat → spec (parse_dns_flux line a) dns_ok E.
Proof.
  intros Hw. unfold parse_dns_flux. destruct (a_dns_flux a); [done|].
  eapply spec_bind; [by apply words_from_spec|]. intros ts _. cbv zeta. do 2 pspec_step.
  eapply spec_bind; [apply parse_endpoint_spec; unfold port_ok, u16_max; lia|]. intros server Hs.
  do 2 pspec_step. pspec_step. eapply spec_bind; [apply parse_num_spec|]. cbv beta. intros count Hcount.
  pspec_step. eapply spec_bind; [apply parse_num_spec|]. cbv beta. intros set_ Hset.
  destruct (_ || _) eqn:Eb; [done|]. apply orb_false_iff in Eb as [Hs1 Hs2]. apply Z.ltb_ge in Hs1, Hs2.
  eapply (spec_bind _ _ duration_ok).
  { destruct (_ !! "period"); [apply parse_duration_spec|]. unfold duration_ok, u64_max. cbn. lia. }
  intros period Hp. eapply (spec_bind _ _ (λ t, 0 ≤ t ≤ u32_max)).
  { destruct (_ !! "ttl"); [|unfold u32_max; cbn; lia]. eapply spec_bind; [apply parse_duration_spec|].
    intros d [Hd _]. destruct (Z.leb_spec (secs d) u32_max); [cbn; lia|done]. }
  intros ttl Ht. pspec. split_and!; cbn; try done; try lia. by eapply net_parse_wf.
Qed.

Lemma parse_banner_flux_spec a : spec (parse_banner_flux line a) (λ c, duration_ok (bf_period c)) E.
Proof.
  unfold parse_banner_flux. destruct (a_banner_flux a); [done|]. pspec_step. eapply (spec_bind _ _ duration_ok); [|done].
  destruct (words line !! 2%nat); [apply parse_duration_spec|]. unfold duration_ok, u64_max. cbn. lia.
Qed.

Lemma parse_default_spec : spec (parse_default line) (λ _, True) E.
Proof.
  unfold parse_default. pspec_step. eapply spec_bind; [apply word_spec; lia|]. intros w _. by pspec.
Qed.

Lemma parse_metrics_spec tokens listen :
  (∀ a, listen = Some a → socket_ok a) →
  spec (parse_metrics line tokens listen) (λ o, ∀ a, o = Some a → socket_ok a) E.
Proof.
  revert listen. induction tokens as [|tok tokens IH]; intros listen Hl; [done|]. cbn [parse_metrics]. pspec.
  apply IH. intros x [= <-]. by eapply parse_socket_addr_ok.
Qed.

Lemma api_tokens_spec tokens listen token_file :
  (∀ a, listen = Some a → socket_ok a) →
  spec (api_tokens line tokens listen token_file) (λ r, ∀ a, r.1 = Some a → socket_ok a) E.
Proof.
  revert listen token_file. induction tokens as [|tok tokens IH]; intros listen token_file Hl; [done|]. cbn [api_tokens].
  pspec; apply IH; [|done]. intros x [= <-]. by eapply parse_socket_addr_ok.
Qed.

Lemma parse_api_spec : (1 ≤ length (words line))%nat → spec (parse_api line) (λ c, socket_ok (api_listen c)) E.
Proof.
  intros Hw. unfold parse_api. eapply spec_bind; [by apply words_from_spec|]. intros ts _.
  eapply spec_bind; [by apply api_tokens_spec|]. intros [listen token_file] Hl. pspec. cbn. by apply Hl.
Qed.

Lemma pop_tokens_spec tokens agent sampling :
  (∀ a, agent = Some a → ip_wf a) → (∀ n, sampling = Some n → 0 ≤ n ≤ u32_max) →
  spec (pop_tokens line tokens agent sampling)
    (λ r, (∀ a, r.1 = Some a → ip_wf a) ∧ (∀ n, r.2 = Some n → 0 ≤ n ≤ u32_max)) E.
Proof.
  revert agent sampling. induction tokens as [|tok tokens IH]; intros agent sampling Ha Hs; [done|]. cbn [pop_tokens].
  pspec; apply IH; try done; [intros x [= <-]; by eapply parse_ip_wf|by intros x [= <-]].
Qed.

(** One more POP keeps names and agents distinct. *)
Lemma parse_pop_spec a : pops_ok (a_pops a) → spec (parse_pop line a) (λ p, pops_ok (a_pops a ++ [p])) E.
Proof.
  intros (Hf & Hn & Ha). unfold parse_pop. eapply spec_bind; [apply or_bad_spec|]. intros name Hname.
  eapply spec_bind; [apply words_from_spec; apply lookup_lt_Some in Hname; lia|]. intros ts _.
  eapply spec_bind; [by apply pop_tokens_spec|]. intros [agent sampling] [Hag Hsa]. cbn in Hag, Hsa.
  eapply spec_bind; [apply or_bad_spec|]. intros ag ->. eapply spec_bind; [apply or_bad_spec|]. intros sa ->.
  destruct (forallb _ _) eqn:Ec; cbn [negb]; [|done]. destruct (existsb _ _) eqn:E1; [done|].
  destruct (existsb (λ p, bool_decide (pe_name p = name)) _) eqn:E2; [done|]. cbn [spec].
  rewrite forallb_True, Is_true_true in Ec || idtac.
  rewrite <- not_true_iff_false, existsb_exists in E1, E2.
  split_and!.
  - apply Forall_app. split; [done|]. apply Forall_singleton. cbn. split; [|by split; [apply Hag|apply Hsa]].
    apply Forall_forall. intros b Hb. rewrite forallb_forall in Ec. apply Ec. by apply list_elem_of_In.
  - rewrite fmap_app. apply NoDup_app. split_and!; [done| |apply NoDup_singleton].
    intros x (q & -> & Hq)%list_elem_of_fmap. cbn. rewrite list_elem_of_singleton. intros Hx. apply E2.
    exists q. split; [by apply list_elem_of_In|by apply bool_decide_eq_true].
  - rewrite fmap_app. apply NoDup_app. split_and!; [done| |apply NoDup_singleton].
    intros x (q & -> & Hq)%list_elem_of_fmap. cbn. rewrite list_elem_of_singleton. intros Hx. apply E1.
    exists q. split; [by apply list_elem_of_In|by apply bool_decide_eq_true].
Qed.

Lemma parse_engine_spec tokens e : engine_ok e → spec (parse_engine line tokens e) engine_ok E.
Proof.
  revert e. induction tokens as [|tok tokens IH]; intros e He; [done|]. cbn [parse_engine].
  destruct He as (? & ? & ? & ?). pspec; apply IH; (split; [|split; [|split]]); done.
Qed.

Lemma flowtable_devices_spec tokens devices : spec (flowtable_devices line tokens devices) (λ _, True) E.
Proof.
  revert devices. induction tokens as [|tok tokens IH]; intros devices; [done|]. cbn [flowtable_devices]. pspec. apply IH.
Qed.
#[local] Hint Resolve flowtable_devices_spec : pspec.

Lemma parse_flowtable_spec a : (1 ≤ length (words line))%nat → spec (parse_flowtable line a) (λ c, ft_devices c ≠ []) E.
Proof.
  intros Hw. unfold parse_flowtable. destruct (a_flowtable a); [done|].
  eapply spec_bind; [by apply words_from_spec|]. intros ts _. pspec. done.
Qed.

Lemma parse_ports_spec what toks ports :
  Forall real_port ports → spec (parse_ports line what toks ports) (Forall real_port) E.
Proof.
  revert ports. induction toks as [|tok toks IH]; intros ports Hp; [done|]. cbn [parse_ports]. cbv zeta. pspec.
  apply IH, Forall_app. split; [done|]. by apply Forall_singleton.
Qed.

Lemma parse_xdp_mode_spec v : spec (parse_xdp_mode line v) (λ _, True) E.
Proof. unfold parse_xdp_mode. by pspec. Qed.
#[local] Hint Resolve parse_xdp_mode_spec : pspec.

Lemma xdp_ok_intro iface mode limit cookie udp banner cap :
  (∀ n, limit = Some n → 1 ≤ n ≤ u64_max) → Forall real_port cookie → Forall real_port udp → 1 ≤ cap ≤ u32_max →
  xdp_ok (Build_XdpConfig iface mode limit cookie udp banner cap).
Proof. done. Qed.

Lemma xdp_token_spec k v c : xdp_ok c → spec (xdp_token line k v c) xdp_ok E.
Proof.
  destruct c as [iface mode limit cookie udp banner cap]. intros (Hl & Hc & Hu & Ht). cbn in Hl, Hc, Hu, Ht.
  unfold xdp_token. repeat case_decide; [..|done].
  - by apply xdp_ok_intro.
  - pspec_step. by apply xdp_ok_intro.
  - pspec_step. apply xdp_ok_intro; [|done..]. by intros n [= <-].
  - eapply spec_bind; [by apply parse_ports_spec|]. intros ports Hp. by apply xdp_ok_intro.
  - eapply spec_bind; [by apply parse_ports_spec|]. intros ports Hp. by apply xdp_ok_intro.
  - by apply xdp_ok_intro.
  - pspec_step. by apply xdp_ok_intro.
Qed.

Lemma parse_xdp_spec tokens c : xdp_ok c → spec (parse_xdp line tokens c) xdp_ok E.
Proof.
  revert c. induction tokens as [|tok tokens IH]; intros c Hc; [done|]. cbn [parse_xdp]. pspec_step. destruct a as [k v].
  eapply spec_bind; [by apply xdp_token_spec|]. intros c' Hc'. by apply IH.
Qed.

Lemma parse_stateless_spec tokens ports :
  Forall real_port ports → spec (parse_stateless line tokens ports) (Forall real_port) E.
Proof.
  revert ports. induction tokens as [|tok tokens IH]; intros ports Hp; [done|]. cbn [parse_stateless].
  pspec_step. destruct a as [k v]. destruct (negb _); [done|].
  eapply spec_bind; [by apply parse_ports_spec|]. intros ports' Hp'. by apply IH.
Qed.

Lemma parse_instance_spec a name : spec (parse_instance line a name) (λ n, n ≠ "") E.
Proof. unfold parse_instance. by pspec. Qed.

Lemma parse_rpki_validator_spec a url : spec (parse_rpki_validator line a url) (λ n, n ≠ "") E.
Proof. unfold parse_rpki_validator. by pspec. Qed.

(** ** The parser's variables stay valid *)

Lemma parse_assignment_spec d a : acc_ok a → spec (parse_assignment line d a) acc_ok E.
Proof.
  intros Ha. unfold parse_assignment. destruct (strip_prefix "instance=" d).
  { eapply spec_bind; [apply parse_instance_spec|]. intros n Hn. set_ok Ha a. }
  destruct (strip_prefix "rpki-validator=" d).
  { eapply spec_bind; [apply parse_rpki_validator_spec|]. intros n Hn. set_ok Ha a. }
  destruct (strip_prefix "rpki-check-interval=" d); [|done]. do 2 pspec_step. set_ok Ha a.
Qed.

(** The tokens after the directive. *)
Lemma tokens_spec {A} (f : list string → P A) Q :
  (1 ≤ length (words line))%nat → (∀ ts, spec (f ts) Q E) → spec (ts ← words_from line 1; f ts) Q E.
Proof. intros Hw Hf. eapply spec_bind; [by apply words_from_spec|]. intros ts _. apply Hf. Qed.

Lemma add_prefix_spec w (f : IpNet → Acc) :
  (∀ n, ip_wf (net_addr n) → acc_ok (f n)) →
  spec (_ ← expect_len line 2 w; x ← word line 1; n ← parse_cidr line x; Ret (f n)) acc_ok E.
Proof.
  intros Hf. pspec_step. eapply spec_bind; [apply word_spec; lia|]. intros x _. pspec_step. by apply Hf.
Qed.

Lemma parse_directive_spec d a :
  (1 ≤ length (words line))%nat → Forall (λ w, w ≠ "") (words line) → acc_ok a →
  spec (parse_directive line d a) acc_ok E.
Proof.
  intros Hw Hne Ha. unfold parse_directive. pose proof Ha as [].
  case_decide. { pspec_step. eapply spec_bind; [apply word_spec; lia|]. intros w Hl.
    assert (w ≠ "") by (eapply Forall_lookup_1 in Hl; [|exact Hne]; done). set_ok Ha a. }
  case_decide. { apply add_prefix_spec. intros n Hn. set_ok Ha a. apply Forall_app. split; [done|by apply Forall_singleton]. }
  case_decide. { apply add_prefix_spec. intros n Hn. set_ok Ha a. apply Forall_app. split; [done|by apply Forall_singleton]. }
  case_decide. { eapply spec_bind; [apply parse_default_spec|]. intros st _. set_ok Ha a. }
  case_decide. { eapply spec_bind; [apply parse_shape_spec|]. intros r Hr. set_ok Ha a.
    apply Forall_app. split; [done|by apply Forall_singleton]. }
  case_decide. { eapply spec_bind; [apply parse_banner_flux_spec|]. intros c Hc. set_ok Ha a. }
  case_decide. { eapply spec_bind; [by apply parse_dns_flux_spec|]. intros c Hc. set_ok Ha a. }
  case_decide. { eapply spec_bind; [by apply parse_rtbh_spec|]. intros c Hc. set_ok Ha a. }
  case_decide. { eapply spec_bind; [by apply parse_flowspec_spec|]. intros c Hc. set_ok Ha a. }
  case_decide. { apply tokens_spec; [done|]. intros ts. eapply spec_bind; [by apply parse_metrics_spec|]. intros l Hl. set_ok Ha a. }
  case_decide. { eapply spec_bind; [by apply parse_api_spec|]. intros c Hc. set_ok Ha a. }
  case_decide. { eapply spec_bind; [by apply parse_pop_spec|]. intros q Hq. set_ok Ha a. }
  case_decide. { apply tokens_spec; [done|]. intros ts. eapply spec_bind; [by apply parse_engine_spec|]. intros e He. set_ok Ha a. }
  case_decide. { eapply spec_bind; [by apply parse_flowtable_spec|]. intros c Hc. set_ok Ha a. }
  case_decide. { apply tokens_spec; [done|]. intros ts. eapply spec_bind; [apply parse_xdp_spec|].
    - apply xdp_ok_intro; [done|constructor|constructor|]. unfold DEFAULT_SYN_COOKIE_TX_CAP_PPS, u32_max. lia.
    - intros c Hc. set_ok Ha a. }
  case_decide. { apply tokens_spec; [done|]. intros ts. eapply spec_bind; [by apply parse_stateless_spec|]. intros l Hl. set_ok Ha a. }
  case_decide; [|by apply parse_assignment_spec]. destruct (1 <? _)%nat; [done|]. set_ok Ha a.
Qed.

End line.

(** ** The whole file *)

Definition in_lines (ls : list Line) (e : ConfigError) : Prop := ∃ l, l ∈ ls ∧ at_line l e.
Definition lines_ok (ls : list Line) : Prop := Forall (λ l, words l ≠ [] ∧ Forall (λ w, w ≠ "") (words l)) ls.

Lemma in_lines_here l ls e : at_line l e → in_lines (l :: ls) e.
Proof. intros He. exists l. split; [left|done]. Qed.

Lemma in_lines_mono ls1 ls2 e : ls1 ⊆ ls2 → in_lines ls1 e → in_lines ls2 e.
Proof. intros Hs (l & Hl & He). exists l. auto. Qed.

Lemma words_positive l : words l ≠ [] → (1 ≤ length (words l))%nat.
Proof. destruct (words l); [done|]. simpl. lia. Qed.

Lemma tenant_body_spec header name ls : ∀ owned allows,
  lines_ok ls → Forall ip_wf owned → Forall allow_ok allows →
  spec (tenant_body header name owned allows ls)
    (λ r, tenant_ok r.1 ∧ lines_ok r.2 ∧ r.2 ⊆ ls ∧ (length r.2 < length ls)%nat) (in_lines (header :: ls)).
Proof.
  induction ls as [|line ls IH]; intros owned allows Hls Ho Ha; [by apply in_lines_here|].
  apply Forall_cons in Hls as [[Hw _] Hls]. apply words_positive in Hw. cbn [tenant_body].
  assert (∀ e, at_line line e → in_lines (header :: line :: ls) e) as Hhere.
  { intros e He. exists line. split; [right; left|done]. }
  assert (∀ owned' allows', Forall ip_wf owned' → Forall allow_ok allows' →
    spec (tenant_body header name owned' allows' ls)
      (λ r, tenant_ok r.1 ∧ lines_ok r.2 ∧ r.2 ⊆ line :: ls ∧ (length r.2 < length (line :: ls))%nat)
      (in_lines (header :: line :: ls))) as IH'.
  { intros owned' allows' Ho' Ha'. eapply spec_mono_err; [eapply spec_mono; [by apply IH|]|].
    - intros [t rest] (? & ? & Hs & ?). split_and!; [done|done| |simpl in *; lia]. intros x Hx. right. by apply Hs.
    - intros er. apply in_lines_mono. intros x. rewrite !elem_of_cons. tauto. }
  eapply spec_bind; [eapply spec_mono_err; [apply word_spec; lia|exact Hhere]|]. intros w0 _.
  case_decide. { cbn. split_and!; [by split|done| |lia]. intros x Hx. by right. }
  case_decide.
  { destruct (_ <? 2)%nat; [by apply Hhere|].
    eapply spec_bind; [eapply spec_mono_err; [apply words_from_spec; lia|exact Hhere]|]. intros ts _.
    eapply spec_bind; [eapply spec_mono_err; [by apply parse_owned_spec|exact Hhere]|]. intros owned' Ho'. by apply IH'. }
  case_decide; [|by apply Hhere].
  eapply spec_bind; [eapply spec_mono_err; [apply parse_allow_spec|exact Hhere]|]. intros al Hal.
  apply IH'; [done|]. apply Forall_app. split; [done|by apply Forall_singleton].
Qed.

Lemma parse_tenant_spec header ls :
  lines_ok ls →
  spec (parse_tenant header ls)
    (λ r, tenant_ok r.1 ∧ lines_ok r.2 ∧ r.2 ⊆ ls ∧ (length r.2 < length ls)%nat) (in_lines (header :: ls)).
Proof.
  intros Hls. unfold parse_tenant. destruct (Nat.eqb_spec (length (words header)) 3); [|by apply in_lines_here].
  cbn [negb orb]. destruct (negb _); [by apply in_lines_here|].
  eapply spec_bind; [eapply spec_mono_err; [apply word_spec; lia|intros er; apply in_lines_here]|]. intros name _.
  apply tenant_body_spec; [done|constructor..].
Qed.

Lemma parse_lines_spec fuel : ∀ ls a,
  (length ls < fuel)%nat → lines_ok ls → acc_ok a → spec (parse_lines fuel ls a) acc_ok (in_lines ls).
Proof.
  induction fuel as [|fuel IH]; intros ls a Hl Hls Ha; [lia|]. cbn [parse_lines]. destruct ls as [|line ls]; [done|].
  apply Forall_cons in Hls as [[Hw Hne] Hls]. apply words_positive in Hw. simpl in Hl.
  eapply spec_bind; [eapply spec_mono_err; [apply word_spec; lia|intros er; apply in_lines_here]|]. intros d _.
  case_decide.
  - eapply spec_bind; [by apply parse_tenant_spec|]. intros [t rest] (Ht & Hrest & Hsub & Hlen). cbn in *.
    eapply spec_mono_err; [apply IH; [lia|done|]|].
    + set_ok Ha a. apply Forall_app. split; [done|by apply Forall_singleton].
    + intros er. apply in_lines_mono. intros x Hx. right. by apply Hsub.
  - eapply spec_bind; [eapply spec_mono_err; [by apply parse_directive_spec|intros er; apply in_lines_here]|].
    intros a' Ha'. eapply spec_mono_err; [apply IH; [lia|done|done]|]. intros er. apply in_lines_mono. intros x Hx. by right.
Qed.

Lemma acc_new_ok : acc_ok acc_new.
Proof.
  split; try done; try constructor; cbn; unfold engine_ok, real_port, port_ok, u64_max, u16_max, duration_ok; cbn;
    try lia; repeat split; try constructor; try lia.
Qed.

Lemma parse_spec ls :
  lines_ok ls →
  spec (parse ls) policy_valid (λ e, in_lines ls e ∨ (ls = [] ∧ error_line e = Some 1)).
Proof.
  intros Hls. unfold parse. eapply spec_bind.
  { eapply spec_mono_err; [apply parse_lines_spec; [lia|done|apply acc_new_ok]|]. intros e. by left. }
  intros a []. set (eof := match last ls with Some l => number l | None => 1 end).
  assert (∀ e, error_line e = Some eof → in_lines ls e ∨ (ls = [] ∧ error_line e = Some 1)) as Heof.
  { intros e He. unfold eof in He. destruct (last ls) as [l|] eqn:El.
    - left. exists l. split; [|done]. by apply last_Some_elem_of.
    - right. split; [by apply last_None|done]. }
  destruct (a_interface a) as [iface|] eqn:Ei; [|by apply Heof].
  destruct (a_flowspec a) as [fs|] eqn:Ef; [destruct (a_rtbh a) as [r|] eqn:Er; [|by apply Heof]|].
  - split; cbn; auto.
  - split; cbn; auto.
Qed.

End valid.

(** ** The lexer *)

Lemma of_bytes_nonempty l : l ≠ [] → of_bytes l ≠ "".
Proof. by destruct l. Qed.

Lemma concat_nonempty (cs : list (list Z)) : cs ≠ [] → Forall (λ c, c ≠ []) cs → concat cs ≠ [].
Proof. destruct cs as [|c cs]; [done|]. intros _ [Hc _]%Forall_cons. cbn. by destruct c. Qed.

Lemma split_ws_nonempty cs : ∀ cur,
  Forall (λ c, c ≠ []) cur → Forall (λ c, c ≠ []) cs → Forall (λ w, w ≠ [] ∧ Forall (λ c, c ≠ []) w) (split_ws cur cs).
Proof.
  induction cs as [|c cs IH]; intros cur Hcur Hcs; cbn [split_ws].
  { destruct cur; [constructor|]. by apply Forall_singleton. }
  apply Forall_cons in Hcs as [Hc Hcs]. destruct (is_whitespace c).
  - destruct cur; [by apply IH|]. constructor; [done|by apply IH].
  - apply IH; [|done]. apply Forall_app. split; [done|by apply Forall_singleton].
Qed.

Lemma split_whitespace_words cs : Forall (λ c, c ≠ []) cs → Forall (λ w, w ≠ "") (split_whitespace cs).
Proof.
  intros Hcs. unfold split_whitespace. apply Forall_fmap.
  eapply Forall_impl; [by apply split_ws_nonempty|]. intros w [Hw Hf]. by apply of_bytes_nonempty, concat_nonempty.
Qed.

Lemma cut_comment_nonempty b cs : Forall (λ c, c ≠ []) cs → Forall (λ c : list Z, c ≠ []) (cut_comment b cs).
Proof.
  intros Hcs. revert b. induction Hcs as [|c cs Hc _ IH]; intros b; cbn; [constructor|].
  destruct (is_hash c && b); by constructor.
Qed.

Lemma trim_end_nonempty cs : Forall (λ c, c ≠ []) cs → Forall (λ c : list Z, c ≠ []) (trim_end cs).
Proof.
  induction 1 as [|c cs Hc _ IH]; cbn; [constructor|]. destruct (trim_end cs); [|by constructor].
  destruct (is_whitespace c); by repeat constructor.
Qed.

Lemma lex_line_words raw : Forall (λ w, w ≠ "") (lex_line raw).1.
Proof.
  unfold lex_line. cbn [fst]. apply split_whitespace_words.
  pose proof (cut_comment_nonempty true _ (chars_nonempty raw)) as Hc.
  destruct (ends_with_backslash _); [by apply Forall_take, trim_end_nonempty|done].
Qed.

(** Physical lines grouped by continuation: every line of a group but the last
    ends in a backslash. *)
Fixpoint logical (raws : list (list Z)) : list (list (list Z)) :=
  match raws with
  | [] => []
  | raw :: raws =>
      if (lex_line raw).2 then match logical raws with g :: gs => (raw :: g) :: gs | [] => [[raw]] end
      else [raw] :: logical raws
  end.

Definition group_words (g : list (list Z)) : list string := g ≫= λ raw, (lex_line raw).1.

(** The groups as lines, numbered by their first physical line; a group
    without words is no line. *)
Fixpoint group_lines (idx : Z) (gs : list (list (list Z))) : list Line :=
  match gs with
  | [] => []
  | g :: gs => flush (Some (idx + 1, group_words g)) ++ group_lines (idx + Z.of_nat (length g)) gs
  end.

Lemma lex_lines_logical raws : ∀ idx,
  lex_lines idx None raws = group_lines idx (logical raws) ∧
  ∀ n acc, lex_lines idx (Some (n, acc)) raws =
    match logical raws with
    | [] => flush (Some (n, acc))
    | g :: gs => flush (Some (n, acc ++ group_words g)) ++ group_lines (idx + Z.of_nat (length g)) gs
    end.
Proof.
  induction raws as [|raw raws IH]; intros idx; [done|]. cbn [lex_lines logical].
  destruct (IH (idx + 1)) as [IHn IHs]. clear IH.
  assert (∀ g, group_words (raw :: g) = (lex_line raw).1 ++ group_words g) as Hgw by done.
  destruct (lex_line raw) as [ws [|]]; cbn [fst snd] in *.
  - split; [|intros n acc]; rewrite IHs; destruct (logical raws) as [|g gs]; cbn [group_lines length];
      rewrite Hgw, ?app_assoc, ?Nat2Z.inj_succ, <- ?Z.add_1_l, ?Z.add_assoc; try done.
    all: cbn; by rewrite ?app_nil_r.
  - split; [|intros n acc]; rewrite IHn; cbn [group_lines length]; rewrite Hgw; cbn; by rewrite app_nil_r.
Qed.

Lemma lines_ok_lex input : lines_ok (lex input).
Proof.
  unfold lex. rewrite (proj1 (lex_lines_logical _ 0)). generalize 0 (logical (lines (str_bytes input))). intros idx gs.
  revert idx. induction gs as [|g gs IH]; intros idx; [constructor|]. cbn [group_lines]. apply Forall_app. split; [|apply IH].
  unfold flush. destruct (group_words g) as [|w ws] eqn:Eg; [constructor|]. apply Forall_singleton. cbn. split; [done|].
  rewrite <- Eg. unfold group_words. apply Forall_bind. apply Forall_true. apply lex_line_words.
Qed.

Lemma logical_concat raws : concat (logical raws) = raws.
Proof.
  induction raws as [|raw raws IH]; [done|]. cbn [logical]. destruct (lex_line raw).2; [|by apply (f_equal (cons raw))].
  destruct (logical raws); by apply (f_equal (cons raw)).
Qed.

Lemma logical_nonempty raws : Forall (λ g, g ≠ []) (logical raws).
Proof.
  induction raws as [|raw raws IH]; [constructor|]. cbn [logical]. destruct (lex_line raw).2; [|by constructor].
  destruct (logical raws); [by repeat constructor|]. inversion_clear IH. by constructor.
Qed.

Lemma group_lines_number gs : ∀ idx l, Forall (λ g, g ≠ []) gs → l ∈ group_lines idx gs →
  idx + 1 ≤ number l ≤ idx + Z.of_nat (length (concat gs)).
Proof.
  induction gs as [|g gs IH]; intros idx l Hg; [by intros ?%elem_of_nil|]. apply Forall_cons in Hg as [Hg Hgs].
  cbn [group_lines concat]. rewrite elem_of_app, length_app. assert (1 ≤ length g)%nat by (destruct g; simpl; [done|lia]).
  intros [Hl|Hl%IH]; [|lia|done]. unfold flush in Hl. destruct (group_words g); [by apply elem_of_nil in Hl|].
  apply list_elem_of_singleton in Hl as ->. cbn. lia.
Qed.

Lemma lex_number input l : l ∈ lex input → 1 ≤ number l ≤ Z.of_nat (length (lines (str_bytes input))).
Proof.
  unfold lex. rewrite (proj1 (lex_lines_logical _ 0)). intros Hl.
  apply group_lines_number in Hl; [|apply logical_nonempty]. by rewrite logical_concat in Hl.
Qed.


Section theorems.
Context `{NetParse}.



(** ** Durations *)

Lemma strip_prefix_bytes_app p l : strip_prefix_bytes p (p ++ l) = Some l.
Proof. induction p as [|b p IH]; [done|]. cbn. by rewrite Z.eqb_refl. Qed.

Lemma strip_suffix_app a p : strip_suffix p (String.append a p) = Some a.
Proof.
  unfold strip_suffix. rewrite str_bytes_append, reverse_app, strip_prefix_bytes_app. cbn. by rewrite reverse_involutive, of_bytes_str.
Qed.

Lemma strip_suffix_other a u c x y :
  str_bytes u = [x] → str_bytes c = [y] → x ≠ y → strip_suffix c (String.append a u) = None.
Proof.
  intros Hu Hc Hne. unfold strip_suffix. rewrite str_bytes_append, reverse_app, Hu, Hc.
  change (reverse [x]) with [x]. change (reverse [y]) with [y]. cbn [strip_prefix_bytes app].
  by destruct (Z.eqb_spec y x).
Qed.

Definition unit_seconds (u : string) : option Z :=
  if decide (u = "h") then Some 3600 else if decide (u = "m") then Some 60 else if decide (u = "s") then Some 1 else None.

(** A duration is read as its number of seconds modulo 2^64. For every
    number [n] of 64 bits and each unit, the text of [n] followed by the unit
    parses to [n] times the unit, wrapped; so a duration of 5124095576030432
    hours is read as 3584 seconds, less than one hour. *)
Theorem duration_wraps line :
  (∀ n u k, 0 ≤ n ≤ u64_max → unit_seconds u = Some k →
    parse_duration line (String.append (uint_to_string n) u) = Ret (from_secs ((n * k) mod 2 ^ 64))) ∧
  parse_duration line "5124095576030432h" = Ret (from_secs 3584).
Proof.
  split; [|vm_compute; done]. intros n u k Hn Hu. unfold parse_duration.
  assert (strip_suffix u (String.append (uint_to_string n) u) = Some (uint_to_string n)) as Hs by apply strip_suffix_app.
  unfold unit_seconds in Hu. repeat case_decide; simplify_eq.
  - rewrite Hs. cbn [mbind P_bind rust_bind]. rewrite parse_uint_print by (unfold u64_max in *; lia). done.
  - rewrite (strip_suffix_other _ _ _ 109 104), Hs by done. cbn [mbind P_bind rust_bind].
    rewrite parse_uint_print by (unfold u64_max in *; lia). done.
  - rewrite (strip_suffix_other _ "s" "h" 115 104), (strip_suffix_other _ "s" "m" 115 109), Hs by done. cbn [mbind P_bind rust_bind].
    rewrite parse_uint_print by (unfold u64_max in *; lia). done.
Qed.

End theorems.

(** ** Banner escapes *)

(** A byte as an escape. *)
Definition escape (b : Z) : list Z := [92; 120; digit_char (b / 16); digit_char (b mod 16)].

Lemma escape_ascii b : byte_ok b → Forall (λ c, is_continuation c = false) (escape b) ∧ bytes_ok (escape b).
Proof.
  unfold byte_ok. intros Hb. assert (0 ≤ b / 16 < 16) by (split; [apply Z.div_pos; lia|apply Z.div_lt_upper_bound; lia]).
  pose proof (Z.mod_pos_bound b 16).
  assert (∀ d, 0 ≤ d < 16 → is_continuation (digit_char d) = false) as Hd.
  { intros d Hd. unfold is_continuation, digit_char. destruct (Z.ltb_spec d 10); rewrite (proj2 (Z.leb_gt _ _)); done || lia. }
  split; repeat (apply Forall_cons; split); try done; try (apply Hd; lia); try (apply digit_char_byte; lia); unfold byte_ok; lia.
Qed.

Lemma decode_escapes bs : ∀ fuel, bytes_ok bs → (4 * length bs < fuel)%nat →
  decode_chars fuel ((λ b, [b]) <$> (bs ≫= escape)) = bs.
Proof.
  induction bs as [|b bs IH]; intros fuel Hb Hf; [by destruct fuel|]. apply Forall_cons in Hb as [Hb Hbs].
  destruct fuel as [|fuel]; [lia|]. simpl in Hf. unfold byte_ok in Hb.
  assert (0 ≤ b / 16 < 16) by (split; [apply Z.div_pos; lia|apply Z.div_lt_upper_bound; lia]).
  pose proof (Z.mod_pos_bound b 16). cbn [mbind list_bind escape app fmap list_fmap decode_chars is_backslash negb].
  cbn [char_digit]. rewrite !to_digit_char by lia. rewrite IH by (done || lia). f_equal.
  pose proof (Z.div_mod b 16). lia.
Qed.

Lemma decode_verbatim cs : ∀ fuel, (length cs < fuel)%nat → Forall (λ c, is_backslash c = false) cs →
  decode_chars fuel cs = concat cs.
Proof.
  induction cs as [|c cs IH]; intros fuel Hf Hc; (destruct fuel as [|fuel]; [simpl in Hf; lia|]); [done|].
  apply Forall_cons in Hc as [Hc Hcs]. cbn [decode_chars]. rewrite Hc. cbn. rewrite IH by (done || (simpl in Hf; lia)). done.
Qed.

(** Every byte string can be written as a banner, and plain text stands
    for itself. The escapes of the bytes of any byte string decode to that
    byte string, and text without a backslash decodes to its own bytes. *)
Theorem banner_escapes :
  (∀ bs, bytes_ok bs → decode_banner_escapes (of_bytes (bs ≫= escape)) = bs) ∧
  (∀ raw, 92 ∉ str_bytes raw → decode_banner_escapes raw = str_bytes raw).
Proof.
  split.
  - intros bs Hb. unfold decode_banner_escapes. rewrite str_bytes_of, chars_ascii.
    + apply decode_escapes; [done|]. rewrite length_fmap. clear Hb.
      induction bs as [|b bs IH]; [simpl; lia|]. cbn [mbind list_bind]. rewrite length_app. simpl. lia.
    + apply Forall_bind. eapply Forall_impl; [exact Hb|]. intros b Hx. by apply escape_ascii.
    + apply Forall_bind. eapply Forall_impl; [exact Hb|]. intros b Hx. by apply escape_ascii.
  - intros raw Hn. unfold decode_banner_escapes. rewrite decode_verbatim; [apply concat_chars|lia|].
    apply Forall_forall. intros c Hc. destruct (is_backslash c) eqn:Eb; [|done]. destruct Hn.
    assert (c = [92]) as -> by (unfold is_backslash in Eb; by repeat case_match).
    rewrite <- (concat_chars (str_bytes raw)). apply list_elem_of_In, in_concat. exists [92].
    split; [by apply list_elem_of_In|by left].
Qed.

(** ** Examples *)

Module RefParse.
#[local] Existing Instance RefNet.lib.

(** An address, a slash and a prefix length. *)
Definition parse_net (s : string) : option IpNet :=
  '(a, n) ← split_once 47 s; a ← parse_ip a; n ← parse_uint u8_max n; net_new a n.

#[export] Program Instance lib : NetParse := {| net_parse := parse_net |}.
Next Obligation.
  intros s n ([a b] & _ & Hn)%bind_Some. apply bind_Some in Hn as (ip & Hip & Hn).
  apply bind_Some in Hn as (len & Hlen & Hn). apply parse_uint_ok in Hlen.
  destruct (Z.le_gt_cases len (ip_bits ip)) as [Hl|Hl]; [|by rewrite net_new_err in Hn by lia].
  destruct (net_new_ok ip len) as (q & Hq & Ha & _); [lia|]. rewrite Hn in Hq. injection Hq as ->.
  rewrite Ha. by eapply parse_ip_wf.
Qed.
End RefParse.

Section examples.
#[local] Existing Instance RefNet.lib.
#[local] Existing Instance RefParse.lib.
#[local] Existing Instance RefNft.RefKernel.

Definition sample_text : string := "interface wan eth0
ipv4 203.0.113.0/24   # managed
default drop
tenant acme {
    owns 203.0.113.5
    allow tcp 443 nat:10.0.0.9:8443
}
stateless-tcp \
    ports=22,23
".

Lemma ret_value {A} (m : P A) d :
  (if m is Ret _ then true else false) = true → m = Ret (match m with Ret a => a | _ => d end).
Proof. by destruct m. Qed.

End examples.
