(* ===== verification/Rpki.v ===== *)
(** * The RPKI cross-check

    [crates/blackwall-rpki/src/lib.rs]: forming the route to check, classifying
    the validator's answer, aggregating a pass and deciding when to warn. The
    JSON reader is [serde_json]'s, an argument. *)
From stdpp Require Import prelude gmap strings.
From S2P Require Import Prelude Net Core NetText.

Open Scope Z_scope.

Inductive RpkiState : Type := Valid | Invalid | NotFound.
#[export] Instance RpkiState_eq_dec : EqDecision RpkiState.
Proof. solve_decision. Defined.

(** [ValidityResponse]: the route's state, when there is a route. *)
Record ValidityResponse := { validated_route : option string }.

Section classify.
(** [serde_json::from_str]; [None] is an error. *)
Context (from_str : string → option ValidityResponse).

Definition classify (json : string) : option RpkiState :=
  response ← from_str json;
  state ← validated_route response;
  if decide (state = "valid") then Some Valid
  else if decide (state = "invalid") then Some Invalid
  else if decide (state = "not-found") then Some NotFound
  else None.
End classify.

Section rpki.
Context `{IpNetLib}.

(** [network()] is the address of the truncated prefix. *)
Definition host_more_specific (net : IpNet) : IpNet :=
  match net_addr net with
  | V4 _ => expect (net_new (net_addr (net_trunc net)) 32)
  | V6 _ => expect (net_new (net_addr (net_trunc net)) 128)
  end.

(** [Display for IpNet]. *)
Definition net_to_string (n : IpNet) : string :=
  String.append (ip_to_string (net_addr n)) (String.append "/" (uint_to_string (net_prefix_len n))).

Definition validity_url (base : string) (asn : Z) (ms : IpNet) : string :=
  String.append base (String.append "/api/v1/validity/AS"
    (String.append (uint_to_string asn) (String.append "/" (net_to_string ms)))).

Record RpkiReport := { rr_validator_up : bool; rr_per_prefix : list (IpNet * RpkiState) }.

(** A failed check is [None]. *)
Definition aggregate_report (results : list (IpNet * option RpkiState)) : RpkiReport :=
  {| rr_validator_up := match results with [] => true | _ => existsb (λ r, bool_decide (is_Some r.2)) results end;
     rr_per_prefix := omap (λ r, (λ s, (r.1, s)) <$> r.2) results |}.

Record RpkiWarnState := { ws_validator_up : bool; ws_prefixes : gmap IpNet RpkiState }.

Definition warn_default : RpkiWarnState := {| ws_validator_up := true; ws_prefixes := ∅ |}.

Definition observe_validator_up (s : RpkiWarnState) (up : bool) : bool * RpkiWarnState :=
  (ws_validator_up s && negb up, {| ws_validator_up := up; ws_prefixes := ws_prefixes s |}).

Definition observe_prefix (s : RpkiWarnState) (net : IpNet) (state : RpkiState) : bool * RpkiWarnState :=
  let prev := ws_prefixes s !! net in
  (bool_decide (state ≠ Valid) && bool_decide (prev ≠ Some state),
   {| ws_validator_up := ws_validator_up s; ws_prefixes := <[net := state]> (ws_prefixes s) |}).

(** ** One pass after another *)

(** What the periodic check observes. *)
Inductive Observation : Type := OValidator (up : bool) | OPrefix (net : IpNet) (state : RpkiState).

Definition observe (s : RpkiWarnState) (o : Observation) : bool * RpkiWarnState :=
  match o with OValidator up => observe_validator_up s up | OPrefix net state => observe_prefix s net state end.

Definition observe_all (h : list Observation) : RpkiWarnState := foldl (λ s o, (observe s o).2) warn_default h.

(** The last state seen of a prefix, and whether the validator was last up. *)
Definition last_state (h : list Observation) (net : IpNet) : option RpkiState :=
  last (omap (λ o, match o with OPrefix n s => if decide (n = net) then Some s else None | OValidator _ => None end) h).
Definition last_up (h : list Observation) : bool :=
  default true (last (omap (λ o, match o with OValidator up => Some up | OPrefix _ _ => None end) h)).

Lemma observe_all_app h o : observe_all (h ++ [o]) = (observe (observe_all h) o).2.
Proof. unfold observe_all. by rewrite foldl_app. Qed.

Lemma observe_all_state h :
  ws_validator_up (observe_all h) = last_up h ∧ ∀ net, ws_prefixes (observe_all h) !! net = last_state h net.
Proof.
  induction h as [|o h IH] using rev_ind; [done|]. destruct IH as [IHu IHp].
  rewrite observe_all_app. unfold last_up, last_state in *. rewrite omap_app.
  destruct o as [up|n s]; cbn [omap list_omap observe observe_validator_up observe_prefix snd ws_validator_up ws_prefixes].
  - split; [by rewrite last_snoc|]. intros net. by rewrite omap_app, app_nil_r.
  - split; [by rewrite app_nil_r|]. intros net. rewrite omap_app. cbn [omap list_omap].
    destruct (decide (n = net)) as [->|Hne]; [by rewrite lookup_insert_eq, last_snoc|].
    by rewrite lookup_insert_ne, app_nil_r.
Qed.

Lemma host_more_specific_spec net :
  net_prefix_len (host_more_specific net) = ip_bits (net_addr net) ∧
  net_addr (host_more_specific net) = net_addr (net_trunc net).
Proof.
  pose proof (net_trunc_addr net) as Ht. unfold host_more_specific.
  destruct (net_addr net) as [a|a] eqn:E; cbn in Ht; rewrite Ht.
  - destruct (net_new_ok (V4 (mask_to 32 (net_prefix_len net) a)) 32) as (p & -> & ? & ?); [cbn; lia|]. done.
  - destruct (net_new_ok (V6 (mask_to 128 (net_prefix_len net) a)) 128) as (p & -> & ? & ?); [cbn; lia|]. done.
Qed.

(** The checked route is the host route of the network address, inside the
    prefix; a pass reports the validator down exactly when it had prefixes to
    check and every check failed, and reports a state exactly for the checks
    that succeeded. Over any history of observations, the operator is warned
    of a prefix exactly when its state is not valid and differs from the last
    state seen of that prefix, and of the validator exactly when it goes from
    up to down. *)
Theorem rpki_warns_on_transitions :
  (∀ net, net_prefix_len (host_more_specific net) = ip_bits (net_addr net) ∧
          net_contains net (net_addr (host_more_specific net)) = true) ∧
  (∀ results, (rr_validator_up (aggregate_report results) = false ↔
               results ≠ [] ∧ Forall (λ r, r.2 = None) results) ∧
              ∀ net s, (net, s) ∈ rr_per_prefix (aggregate_report results) ↔ (net, Some s) ∈ results) ∧
  (∀ h net s, (observe (observe_all h) (OPrefix net s)).1 = true ↔ s ≠ Valid ∧ last_state h net ≠ Some s) ∧
  (∀ h up, (observe (observe_all h) (OValidator up)).1 = true ↔ last_up h = true ∧ up = false).
Proof.
  split_and!.
  - intros net. destruct (host_more_specific_spec net) as [Hl Ha]. split; [done|]. rewrite Ha.
    apply net_contains_spec. pose proof (net_trunc_addr net) as Ht. pose proof (net_len_bound net) as Hb.
    rewrite Ht. destruct (net_addr net) as [a|a]; cbn in *; (split; [done|]); unfold mask_to;
      rewrite Z.div_mul; [done|apply Z.pow_nonzero; lia|done|apply Z.pow_nonzero; lia].
  - intros results. split.
    + unfold aggregate_report. cbn. destruct results as [|r rs]; [naive_solver|].
      rewrite <- not_true_iff_false, existsb_exists. split.
      * intros Hn. split; [done|]. apply Forall_forall. intros x Hx. destruct x.2 eqn:Ex; [|done]. destruct Hn.
        exists x. split; [by apply list_elem_of_In|]. rewrite Ex. by apply bool_decide_eq_true.
      * intros [_ Hf] (x & Hx & Hs). rewrite Forall_forall in Hf. rewrite (Hf x) in Hs by (by apply list_elem_of_In).
        apply bool_decide_eq_true in Hs as [? ?]. done.
    + intros net s. unfold aggregate_report. cbn. rewrite list_elem_of_omap. split.
      * intros ([n o] & Hx & Ho). cbn in Ho. destruct o; [|done]. cbn in Ho. naive_solver.
      * intros Hin. by exists (net, Some s).
  - intros h net s. cbn. destruct (observe_all_state h) as [_ ->].
    by rewrite andb_true_iff, !bool_decide_eq_true.
  - intros h up. cbn. destruct (observe_all_state h) as [-> _]. rewrite andb_true_iff, negb_true_iff. done.
Qed.
End rpki.
