(* ===== verification/NftApply.v ===== *)
(** * Installing and removing the dataplane

    [crates/blackwall-nft/src/apply.rs]: the ruleset and the policy route that
    delivers redirected packets, installed and removed with the [nft] and [ip]
    programs. Running a program is the class [Host], with the documented
    behaviour of the commands used; [RefHost] is a concrete host. *)
From stdpp Require Import prelude gmap strings.
From S2P Require Import Prelude Net Core NetText Nft.

Open Scope Z_scope.

(** [Output]: the exit status and the standard output. *)
Record Output := { out_success : bool; out_stdout : list Z }.

(** The text that [ip rule show] prints for the rule of a mark and a table. *)
Definition rule_text (mark table : string) : list Z :=
  str_bytes (String.append "fwmark " (String.append mark (String.append " lookup " table))).

(** [contains] on the bytes of a text. The pattern is ASCII, so the lossy
    decoding of the output does not change the answer. *)
Fixpoint is_prefix (p l : list Z) : bool :=
  match p, l with
  | [], _ => true
  | a :: p, b :: l => (a =? b) && is_prefix p l
  | _ :: _, [] => false
  end.
Fixpoint contains (l p : list Z) : bool :=
  is_prefix p l || match l with [] => false | _ :: l => contains l p end.

(** A line that has the rule: the text, then the end or a space. *)
Definition line_has (mark table : string) (line : list Z) : Prop :=
  ∃ pre post, line = pre ++ rule_text mark table ++ post ∧ (post = [] ∨ ∃ r, post = 32 :: r).

Definition ip_args (v6 : bool) (args : list string) : list string := if v6 then "-6" :: args else args.

Class Host := {
  World : Type;
  (** [nftables::helper::apply_ruleset], and [Command] with its program and
      arguments; an error carries its text. *)
  h_apply_ruleset : list NfObject → World → result () string * World;
  h_run : string → list string → World → result Output string * World;
  h_write : string → string → World → World;

  (** The tables, the policy rules and the routing tables with a local
      default route. *)
  h_tables : World → string → Prop;
  h_rules : World → bool → list (list Z);
  h_routes : World → bool → string → Prop;

  (** The ruleset is one transaction. *)
  h_apply_ok : ∀ objs w w', h_apply_ruleset objs w = (Ok (), w') →
    (∀ t, h_tables w' t ↔ h_tables w t ∨ Add (OTable {| tb_family := INet; tb_name := t |}) ∈ objs) ∧
    h_rules w' = h_rules w ∧ h_routes w' = h_routes w;
  h_apply_err : ∀ objs w w' e, h_apply_ruleset objs w = (Err e, w') → h_tables w' = h_tables w;
  h_write_frame : ∀ f v w, h_tables (h_write f v w) = h_tables w ∧ h_rules (h_write f v w) = h_rules w ∧
    h_routes (h_write f v w) = h_routes w;
  (** nft delete table: the table is gone. *)
  h_delete : ∀ t w r w', h_run "nft" ["delete"; "table"; "inet"; t] w = (r, w') → ∀ t', h_tables w' t' ↔ h_tables w t' ∧ t' ≠ t;
  (** ip: the tables of nft are not touched. *)
  h_ip : ∀ args w r w', h_run "ip" args w = (r, w') → h_tables w' = h_tables w;
  (** ip rule show: one line for each rule. *)
  h_show : ∀ v6 w r w', h_run "ip" (ip_args v6 ["rule"; "show"]) w = (r, w') →
    h_rules w' = h_rules w ∧ h_routes w' = h_routes w ∧
    ∀ out, r = Ok out → out_stdout out = h_rules w v6 ≫= λ l, l ++ [10];
  (** ip rule add: on success the rule is there; rules are not removed. *)
  h_rule_add : ∀ v6 m t w r w', h_run "ip" (ip_args v6 ["rule"; "add"; "fwmark"; m; "lookup"; t]) w = (r, w') →
    (∀ v l, l ∈ h_rules w v → l ∈ h_rules w' v) ∧ h_routes w' = h_routes w ∧
    ∀ out, r = Ok out → out_success out = true → ∃ l, l ∈ h_rules w' v6 ∧ line_has m t l;
  (** ip route replace: on success the route is there; routes are not removed. *)
  h_route_replace : ∀ v6 t w r w',
    h_run "ip" (ip_args v6 ["route"; "replace"; "local"; "default"; "dev"; "lo"; "table"; t]) w = (r, w') →
    (∀ v x, h_routes w v x → h_routes w' v x) ∧ h_rules w' = h_rules w ∧
    ∀ out, r = Ok out → out_success out = true → h_routes w' v6 t;
}.

Section apply.
Context `{IpNetLib} `{Host}.

(** [NftError::Apply]. *)
Definition NftError : Type := string.

Definition mark_text (ids : InstanceIds) : string := String.append "0x" (of_bytes (print_hex (tproxy_mark ids))).

(** Both families, errors ignored. *)
Definition teardown_family (ids : InstanceIds) (v6 : bool) (w : World) : World :=
  let table := uint_to_string (route_table ids) in
  let '(_, w) := h_run "ip" (ip_args v6 ["rule"; "del"; "fwmark"; mark_text ids; "lookup"; table]) w in
  let '(_, w) := h_run "ip" (ip_args v6 ["route"; "flush"; "table"; table]) w in
  w.

Definition teardown (policy : Policy) (w : World) : World :=
  let ids := derive (instance policy) in
  let '(_, w) := h_run "nft" ["delete"; "table"; "inet"; nft_table ids] w in
  teardown_family ids true (teardown_family ids false w).

(** [Command::status] with its error text. *)
Definition status_or (what : string) (cmd : list string) (w : World) : result bool NftError * World :=
  match h_run "ip" cmd w with
  | (Ok out, w) => (Ok (out_success out), w)
  | (Err e, w) => (Err (String.append what (String.append ": " e)), w)
  end.

(** The fwmark rule of IPv4, unless it is there. *)
Definition ensure_rule (mark table : string) (w : World) : result () NftError * World :=
  match h_run "ip" ["rule"; "show"] w with
  | (Err e, w) => (Err (String.append "ip rule show: " e), w)
  | (Ok shown, w) =>
      if contains (out_stdout shown) (rule_text mark table) then (Ok (), w)
      else match status_or "ip rule add" ["rule"; "add"; "fwmark"; mark; "lookup"; table] w with
           | (Err e, w) => (Err e, w)
           | (Ok false, w) => (Err "ip rule add fwmark failed", w)
           | (Ok true, w) => (Ok (), w)
           end
  end.

(** The IPv6 side, errors ignored. *)
Definition ensure_v6 (mark table : string) (w : World) : World :=
  match h_run "ip" ["-6"; "rule"; "show"] w with
  | (Err _, w) => w
  | (Ok out, w) =>
      let w := if contains (out_stdout out) (rule_text mark table) then w
               else (h_run "ip" ["-6"; "rule"; "add"; "fwmark"; mark; "lookup"; table] w).2 in
      (h_run "ip" ["-6"; "route"; "replace"; "local"; "default"; "dev"; "lo"; "table"; table] w).2
  end.

Definition ensure_tproxy_route (ids : InstanceIds) (w : World) : result () NftError * World :=
  let w := h_write "/proc/sys/net/ipv4/conf/all/src_valid_mark" "0" w in
  let w := h_write "/proc/sys/net/ipv6/conf/all/src_valid_mark" "0" w in
  let mark := mark_text ids in
  let table := uint_to_string (route_table ids) in
  match ensure_rule mark table w with
  | (Err e, w) => (Err e, w)
  | (Ok _, w) =>
      match status_or "ip route replace" ["route"; "replace"; "local"; "default"; "dev"; "lo"; "table"; table] w with
      | (Err e, w) => (Err e, w)
      | (Ok false, w) => (Err "ip route replace (v4) failed", w)
      | (Ok true, w) => (Ok (), ensure_v6 mark table w)
      end
  end.

(** [PolicyError]'s text is an argument. *)
Definition apply_policy (policy_error_text : PolicyError → string) (policy : Policy) (w : World)
    : result () NftError * World :=
  let ids := derive (instance policy) in
  match render policy with
  | Err e => (Err (policy_error_text e), w)
  | Ok ruleset =>
      match h_apply_ruleset ruleset w with
      | (Err e, w) => (Err e, w)
      | (Ok _, w) =>
          match ensure_tproxy_route ids w with
          | (Err e, w) => (Err e, teardown policy w)
          | (Ok _, w) => (Ok (), w)
          end
      end
  end.

(** ** What is left behind *)

Lemma is_prefix_app p l r : is_prefix p l = true → is_prefix p (l ++ r) = true.
Proof.
  revert l. induction p as [|a p IH]; intros l; [by destruct l|]. destruct l as [|b l]; [done|]. cbn.
  rewrite !andb_true_iff. intros [? ?]. auto.
Qed.

Lemma is_prefix_spec p l : is_prefix p l = true ↔ ∃ post, l = p ++ post.
Proof.
  revert l. induction p as [|a p IH]; intros l; [cbn; naive_solver|].
  destruct l as [|b l]; cbn; [naive_solver|]. rewrite andb_true_iff, Z.eqb_eq, IH. naive_solver.
Qed.

Lemma contains_spec l p : contains l p = true ↔ ∃ pre post, l = pre ++ p ++ post.
Proof.
  induction l as [|b l IH]; cbn [contains]; rewrite orb_true_iff, is_prefix_spec.
  - split; [intros [[post ->]|]; [by exists [], post|done]|].
    intros (pre & post & Hl). destruct pre; [left; by exists post|done].
  - rewrite IH. split.
    + intros [[post ->]|(pre & post & ->)]; [by exists [], post|by exists (b :: pre), post].
    + intros (pre & post & Hl). destruct pre as [|c pre]; [left; by exists post|]. injection Hl as -> ->. right. by eexists _, _.
Qed.

(** A text without a line end is found inside one line. *)
Lemma is_prefix_line p l rest : 10 ∉ p → is_prefix p (l ++ 10 :: rest) = true → is_prefix p l = true.
Proof.
  revert l. induction p as [|a p IH]; intros l Hp; [by destruct l|]. rewrite not_elem_of_cons in Hp. destruct Hp as [Ha Hp].
  destruct l as [|b l]; cbn.
  - rewrite andb_true_iff, Z.eqb_eq. intros [-> _]. done.
  - rewrite !andb_true_iff. intros [? ?]. auto.
Qed.

Lemma contains_lines ls p :
  10 ∉ p → p ≠ [] → contains (ls ≫= λ l, l ++ [10]) p = true → ∃ l, l ∈ ls ∧ contains l p = true.
Proof.
  intros Hp Hne. induction ls as [|l ls IH]; cbn; [by destruct p|]. rewrite <- app_assoc. cbn [app].
  set (rest := mbind _ ls). intros Hc. enough (contains l p = true ∨ contains rest p = true) as [?|Hr].
  { exists l. split; [left|done]. }
  { destruct (IH Hr) as (l' & ? & ?). exists l'. split; [by right|done]. }
  clear IH. revert Hc. induction l as [|b l IHl]; cbn [app contains]; rewrite !orb_true_iff.
  - intros [Hx|Hx]; [|by right]. apply (is_prefix_line _ []) in Hx; [|done]. by destruct p.
  - intros [Hx|Hx]; [left; left; by apply (is_prefix_line p (b :: l) rest)|].
    destruct (IHl Hx); [left; by right|by right].
Qed.

Lemma rule_text_line ids :
  0 ≤ tproxy_mark ids ≤ u32_max → 0 ≤ route_table ids ≤ u32_max →
  (10 ∉ rule_text (mark_text ids) (uint_to_string (route_table ids))) ∧
  rule_text (mark_text ids) (uint_to_string (route_table ids)) ≠ [].
Proof.
  unfold u32_max. intros Hm Ht. unfold rule_text, mark_text, uint_to_string. split; [|done].
  rewrite !str_bytes_append, !str_bytes_of by (apply print_digits_bytes; lia).
  assert (∀ radix fuel n, 2 ≤ radix ≤ 16 → 0 ≤ n < radix ^ Z.of_nat fuel → 10 ∉ digit_char <$> digits radix fuel n) as Hd.
  { intros radix fuel n Hr Hn (d & Hd & Hin)%list_elem_of_fmap.
    destruct (digits_spec radix fuel n) as (_ & Hf & _); [lia..|].
    pose proof (proj1 (Forall_forall _ _) Hf d Hin) as Hb. cbn beta in Hb. unfold digit_char in Hd. destruct (d <? 10); lia. }
  rewrite !elem_of_app. intros [Hx|[[Hx|Hx]|[Hx|Hx]]].
  - revert Hx. apply (bool_decide_unpack _). vm_compute. exact I.
  - revert Hx. apply (bool_decide_unpack _). vm_compute. exact I.
  - revert Hx. apply Hd; lia.
  - revert Hx. apply (bool_decide_unpack _). vm_compute. exact I.
  - revert Hx. apply Hd; lia.
Qed.

(** The tables of nft are left alone by the policy route. *)
Lemma teardown_family_tables ids v6 w : h_tables (teardown_family ids v6 w) = h_tables w.
Proof.
  unfold teardown_family. destruct (h_run "ip" _ w) as [r1 w1] eqn:E1. destruct (h_run "ip" _ w1) as [r2 w2] eqn:E2.
  by rewrite (h_ip _ _ _ _ E2), (h_ip _ _ _ _ E1).
Qed.

Lemma teardown_tables p w t : h_tables (teardown p w) t ↔ h_tables w t ∧ t ≠ nft_table (derive (instance p)).
Proof.
  unfold teardown. destruct (h_run "nft" _ w) as [r w1] eqn:E. rewrite !teardown_family_tables. exact (h_delete _ _ _ _ E t).
Qed.

Lemma status_or_tables what cmd w : h_tables (status_or what cmd w).2 = h_tables w.
Proof. unfold status_or. destruct (h_run "ip" cmd w) as [[out|e] w1] eqn:E; exact (h_ip _ _ _ _ E). Qed.

Lemma ensure_rule_tables m t w : h_tables (ensure_rule m t w).2 = h_tables w.
Proof.
  unfold ensure_rule. destruct (h_run "ip" _ w) as [[out|e] w1] eqn:E; rewrite <- (h_ip _ _ _ _ E); [|done].
  destruct (contains _ _); [done|]. pose proof (status_or_tables "ip rule add" ["rule"; "add"; "fwmark"; m; "lookup"; t] w1) as Hs.
  by destruct (status_or _ _ w1) as [[[]|] w2].
Qed.

Lemma ensure_v6_tables m t w : h_tables (ensure_v6 m t w) = h_tables w.
Proof.
  unfold ensure_v6. destruct (h_run "ip" _ w) as [[out|e] w1] eqn:E; rewrite <- (h_ip _ _ _ _ E); [|done]. cbv zeta.
  destruct (h_run "ip" _ (if _ : bool then _ else _)) as [r w3] eqn:E3. cbn. rewrite (h_ip _ _ _ _ E3).
  destruct (contains _ _); [done|]. destruct (h_run "ip" _ w1) as [r2 w2] eqn:E2. exact (h_ip _ _ _ _ E2).
Qed.

Lemma ensure_route_tables ids w : h_tables (ensure_tproxy_route ids w).2 = h_tables w.
Proof.
  unfold ensure_tproxy_route. set (w1 := h_write _ _ (h_write _ _ w)). assert (h_tables w1 = h_tables w) as <-.
  { unfold w1. rewrite (proj1 (h_write_frame _ _ _)). apply h_write_frame. }
  cbv zeta. pose proof (ensure_rule_tables (mark_text ids) (uint_to_string (route_table ids)) w1) as Hr.
  destruct (ensure_rule _ _ w1) as [[[]|e] w2]; [|done]. cbn in Hr. rewrite <- Hr.
  pose proof (status_or_tables "ip route replace"
    ["route"; "replace"; "local"; "default"; "dev"; "lo"; "table"; uint_to_string (route_table ids)] w2) as Hs.
  destruct (status_or _ _ w2) as [[[]|e] w3]; cbn in *; try done. by rewrite ensure_v6_tables.
Qed.

(** The rule is in the list, or a line of the list has its text followed by
    more characters. *)
Definition rule_shown (mark table : string) (w : World) : Prop :=
  ∃ l, l ∈ h_rules w false ∧ contains l (rule_text mark table) = true.

Lemma line_has_contains m t l : line_has m t l → contains l (rule_text m t) = true.
Proof. intros (pre & post & -> & _). apply contains_spec. by eexists _, _. Qed.

Lemma ensure_rule_ok m t w w' :
  (10 ∉ rule_text m t) → rule_text m t ≠ [] → ensure_rule m t w = (Ok (), w') →
  rule_shown m t w' ∧ h_routes w' = h_routes w ∧
  ((∀ l, l ∈ h_rules w false → contains l (rule_text m t) = true → line_has m t l) →
   ∃ l, l ∈ h_rules w' false ∧ line_has m t l).
Proof.
  intros Hp Hne. unfold ensure_rule. destruct (h_run "ip" _ w) as [[out|e] w1] eqn:E; [|done].
  destruct (h_show false _ _ _ E) as (Hr & Hro & Hout). specialize (Hout out eq_refl).
  destruct (contains (out_stdout out) _) eqn:Ec.
  - intros [= <-]. rewrite Hout in Ec. apply contains_lines in Ec as (l & Hl & Hc); [|done..].
    unfold rule_shown. rewrite Hr. split_and!; [by exists l|done|]. intros Hu. exists l. auto.
  - unfold status_or. destruct (h_run "ip" _ w1) as [[out2|e] w2] eqn:E2; [|done].
    destruct (h_rule_add false _ _ _ _ _ E2) as (_ & Hro2 & Hadd). destruct (out_success out2) eqn:Eo; [|done].
    intros [= <-]. destruct (Hadd out2 eq_refl Eo) as (l & Hl & Hh).
    split_and!; [exists l; split; [done|by apply line_has_contains]|by rewrite Hro2|]. intros _. by exists l.
Qed.

Lemma ensure_v6_keeps m t w :
  (∀ l, l ∈ h_rules w false → l ∈ h_rules (ensure_v6 m t w) false) ∧
  (∀ x, h_routes w false x → h_routes (ensure_v6 m t w) false x).
Proof.
  unfold ensure_v6. destruct (h_run "ip" _ w) as [[out|e] w1] eqn:E;
    destruct (h_show true _ _ _ E) as (Hr & Hro & _); rewrite <- Hr, <- Hro; [|done]. cbv zeta.
  set (w2 := if contains _ _ then _ else _).
  assert ((∀ l, l ∈ h_rules w1 false → l ∈ h_rules w2 false) ∧ (∀ x, h_routes w1 false x → h_routes w2 false x)) as [H2 H3].
  { unfold w2. destruct (contains _ _); [done|]. destruct (h_run "ip" _ w1) as [r w1'] eqn:E1.
    destruct (h_rule_add true _ _ _ _ _ E1) as (Hk & Hro1 & _). cbn. rewrite Hro1. split; [apply Hk|done]. }
  destruct (h_run "ip" _ w2) as [r w3] eqn:E3. destruct (h_route_replace true _ _ _ _ E3) as (Hk & Hr3 & _). cbn.
  rewrite Hr3. auto.
Qed.

Lemma ensure_route_ok i w w' :
  let ids := derive i in let m := mark_text ids in let t := uint_to_string (route_table ids) in
  ensure_tproxy_route ids w = (Ok (), w') →
  rule_shown m t w' ∧ h_routes w' false t ∧
  ((∀ l, l ∈ h_rules w false → contains l (rule_text m t) = true → line_has m t l) →
   ∃ l, l ∈ h_rules w' false ∧ line_has m t l).
Proof.
  cbv zeta. unfold ensure_tproxy_route. set (w1 := h_write _ _ (h_write _ _ w)).
  assert (h_rules w1 = h_rules w) as <-.
  { unfold w1. rewrite (proj1 (proj2 (h_write_frame _ _ _))). apply h_write_frame. }
  cbv zeta. destruct (derive_bounds i) as [Hm Ht]. destruct (rule_text_line (derive i) Hm Ht) as [Hnl Hne].
  set (m := mark_text _) in *. set (t := uint_to_string _) in *.
  destruct (ensure_rule m t w1) as [[[]|e] w2] eqn:Er; [|done].
  destruct (ensure_rule_ok m t w1 w2 Hnl Hne Er) as (Hs & _ & Hu). unfold status_or.
  destruct (h_run "ip" _ w2) as [[out|e] w3] eqn:E3; [|done].
  destruct (h_route_replace false _ _ _ _ E3) as (_ & Hr3 & Hro). destruct (out_success out) eqn:Eo; [|done].
  intros [= <-]. destruct (ensure_v6_keeps m t w3) as [Hk1 Hk2]. specialize (Hro out eq_refl Eo).
  unfold rule_shown in *. rewrite <- Hr3 in Hs, Hu. split_and!; [|auto|].
  - destruct Hs as (l & Hl & Hc). exists l. auto.
  - intros Hall. destruct (Hu Hall) as (l & Hl & Hc). exists l. auto.
Qed.

(** The one table of a rendered ruleset. *)
Lemma render_table p objs t :
  render p = Ok objs →
  Add (OTable {| tb_family := INet; tb_name := t |}) ∈ objs ↔ t = nft_table (derive (instance p)).
Proof.
  intros (-> & _)%render_objects. set (tbl := {| tb_family := FAMILY; tb_name := _ |}). cbn [app]. set (rest := FlushTable tbl :: _).
  assert (Forall (λ c, match c with Add (OTable _) => False | _ => True end) rest) as Hf.
  { unfold rest. constructor; [done|]. repeat (apply Forall_app; split); try (by repeat constructor).
    - by apply Forall_fmap, Forall_true.
    - constructor; [done|]. apply Forall_app; split; [by apply Forall_fmap, Forall_true|].
      unfold flowtable_objects. destruct (flowtable p); by repeat constructor. }
  rewrite elem_of_cons. split; [intros [Heq|Hin]|intros ->; by left].
  - by injection Heq.
  - rewrite Forall_forall in Hf. by apply Hf in Hin.
Qed.

Lemma nft_apply_spec txt p w r w' :
  apply_policy txt p w = (r, w') →
  let ids := derive (instance p) in
  match r with
  | Ok _ =>
      h_tables w' (nft_table ids) ∧ h_routes w' false (uint_to_string (route_table ids)) ∧
      ((∀ l, l ∈ h_rules w false → contains l (rule_text (mark_text ids) (uint_to_string (route_table ids))) = true →
             line_has (mark_text ids) (uint_to_string (route_table ids)) l) →
       ∃ l, l ∈ h_rules w' false ∧ line_has (mark_text ids) (uint_to_string (route_table ids)) l)
  | Err _ =>
      (∀ t, h_tables w' t ↔ h_tables w t) ∨
      (¬ h_tables w' (nft_table ids) ∧ ∀ t, t ≠ nft_table ids → (h_tables w' t ↔ h_tables w t))
  end.
Proof.
  unfold apply_policy. cbv zeta. destruct (render p) as [objs|e] eqn:Er; [|intros [= <- <-]; by left].
  destruct (h_apply_ruleset objs w) as [[[]|e] w1] eqn:Ea.
  2:{ intros [= <- <-]. left. intros t. by rewrite (h_apply_err _ _ _ _ Ea). }
  destruct (h_apply_ok _ _ _ Ea) as (Htab & Hrul & _).
  assert (∀ t, Add (OTable {| tb_family := INet; tb_name := t |}) ∈ objs ↔ t = nft_table (derive (instance p))) as Hobj.
  { intros t. by apply render_table. }
  destruct (ensure_tproxy_route (derive (instance p)) w1) as [[[]|e] w2] eqn:Ee; intros [= <- <-].
  - destruct (ensure_route_ok _ _ _ Ee) as (_ & Hro & Hru). rewrite Hrul in Hru. split_and!; [|done|done].
    pose proof (ensure_route_tables (derive (instance p)) w1) as Ht. rewrite Ee in Ht. cbn in Ht. rewrite Ht.
    apply Htab. right. by apply Hobj.
  - right. pose proof (ensure_route_tables (derive (instance p)) w1) as Ht. rewrite Ee in Ht. cbn in Ht.
    split; [rewrite teardown_tables; tauto|]. intros t Hne. rewrite teardown_tables, Ht, Htab, Hobj. tauto.
Qed.


End apply.

(** ** A concrete host *)

Module RefHost.

Record State := {
  s_tables : list string; s_rules : bool → list (list Z); s_routes : bool → list string;
}.

Definition done (w : State) : result Output string * State := (Ok {| out_success := true; out_stdout := [] |}, w).

Definition rule_line (m t : string) : list Z := str_bytes "from all " ++ rule_text m t.

(** The arguments of [ip] after the family. *)
Definition run_ip (v6 : bool) (args : list string) (w : State) : result Output string * State :=
  match args with
  | [_; _] => (Ok {| out_success := true; out_stdout := s_rules w v6 ≫= λ l, l ++ [10] |}, w)
  | [_; verb; _; m; _; t] =>
      done {| s_tables := s_tables w;
              s_rules := λ v, if Bool.eqb v v6 then
                                if decide (verb = "add") then s_rules w v ++ [rule_line m t]
                                else filter (λ l, l ≠ rule_line m t) (s_rules w v)
                              else s_rules w v;
              s_routes := s_routes w |}
  | [_; _; _; _; _; _; _; t] =>
      done {| s_tables := s_tables w; s_rules := s_rules w;
              s_routes := λ v, if Bool.eqb v v6 then t :: s_routes w v else s_routes w v |}
  | _ => done w
  end.

Definition run (program : string) (args : list string) (w : State) : result Output string * State :=
  if decide (program = "nft") then
    match args with
    | [_; _; _; t] => done {| s_tables := filter (λ x, x ≠ t) (s_tables w); s_rules := s_rules w; s_routes := s_routes w |}
    | _ => done w
    end
  else match args with
       | a :: args' => if decide (a = "-6") then run_ip true args' w else run_ip false args w
       | [] => done w
       end.

Definition apply_ruleset (objs : list NfObject) (w : State) : result () string * State :=
  (Ok (), {| s_tables := s_tables w ++ omap (λ c, match c with Add (OTable t) => Some (tb_name t) | _ => None end) objs;
             s_rules := s_rules w; s_routes := s_routes w |}).

Lemma run_ip_tables v6 args w : s_tables (run_ip v6 args w).2 = s_tables w.
Proof. unfold run_ip, done. repeat case_match; done. Qed.

#[export] Program Instance Ref : Host :=
  {| World := State; h_apply_ruleset := apply_ruleset; h_run := run; h_write _ _ w := w;
     h_tables w t := t ∈ s_tables w; h_rules := s_rules; h_routes w v t := t ∈ s_routes w v |}.
Next Obligation.
  intros objs w w' [= <-]. split; [|done]. intros t. cbn. rewrite elem_of_app. apply or_iff_compat_l.
  rewrite list_elem_of_omap. split.
  - intros (c & Hc & Ho). destruct c as [[[[] n]| | | |]|]; try done. by injection Ho as <-.
  - intros Hc. by eexists.
Qed.
Next Obligation. done. Qed.
Next Obligation. done. Qed.
Next Obligation. intros t w r w' [= <- <-] t'. cbn. rewrite list_elem_of_filter. tauto. Qed.
Next Obligation.
  intros args w r w' Hr. unfold run in Hr. rewrite decide_False in Hr by done.
  destruct args as [|a args]; [by injection Hr as <- <-|].
  destruct (decide _); [pose proof (run_ip_tables true args w) as Ht|pose proof (run_ip_tables false (a :: args) w) as Ht];
    rewrite Hr in Ht; cbn in Ht; by rewrite Ht.
Qed.
Next Obligation. intros [] w r w' [= <- <-]; split_and!; try done; by intros out [= <-]. Qed.
Next Obligation.
  intros [] m t w r w' [= <- <-]; cbn; (split_and!; [|done|]).
  1, 3: intros [] l Hl; cbn; try done; apply elem_of_app; by left.
  all: intros _ _ _; exists (rule_line m t); (split; [apply elem_of_app; right; left|]);
    exists (str_bytes "from all "), []; (split; [by rewrite app_nil_r|by left]).
Qed.
Next Obligation.
  intros [] t w r w' [= <- <-]; cbn; (split_and!; [|done|]).
  1, 3: intros [] x Hx; cbn; try done; by right.
  all: intros _ _ _; left.
Qed.

(** A host with one rule already, for the routing table 1001. *)
Definition busy : State := {| s_tables := []; s_rules := λ _, [rule_line "0x1" "1001"]; s_routes := λ _, [] |}.
Definition idle : State := {| s_tables := []; s_rules := λ _, []; s_routes := λ _, [] |}.

End RefHost.

Section examples.
#[local] Existing Instance RefNet.lib.
#[local] Existing Instance RefHost.Ref.


(** The check for an existing rule looks for the rule's text anywhere in
    the list, so a rule for another routing table whose number starts with
    ours counts as ours. On a host with a rule for table 1001, [apply] reports
    success for the default instance and installs no rule for its table 100. *)
Theorem apply_mistakes_rule : ∃ w',
  apply_policy (λ _, "") (sample_policy None [sample_tenant]) RefHost.busy = (Ok (), w') ∧
  h_tables w' "blackwall" ∧ ∀ l, l ∈ h_rules w' false → ¬ line_has "0x1" "100" l.
Proof.
  pose (r := apply_policy (λ _, "") (sample_policy None [sample_tenant]) RefHost.busy).
  assert (r.1 = Ok ()) as Hr by (vm_compute; reflexivity).
  assert (h_rules r.2 false = [RefHost.rule_line "0x1" "1001"]) as Hl by (vm_compute; reflexivity).
  exists r.2. split; [rewrite <- Hr; apply surjective_pairing|].
  split; [apply (bool_decide_unpack ("blackwall" ∈ RefHost.s_tables r.2)); vm_compute; exact I|].
  rewrite Hl. intros l ->%list_elem_of_singleton (pre & post & Heq & [->|[q ->]]).
  - rewrite app_nil_r in Heq. apply (f_equal last) in Heq. rewrite last_app in Heq. vm_compute in Heq. done.
  - assert (contains (RefHost.rule_line "0x1" "1001") (rule_text "0x1" "100" ++ [32]) = true) as Hc.
    { apply contains_spec. exists pre, q. by rewrite Heq, <- app_assoc. }
    vm_compute in Hc. done.
Qed.
End examples.
