(* ===== verification/Discovery.v ===== *)
(** * Merging discovered services into the policy

    [crates/blackwall-discovery/src/reconcile.rs]: the services that the host
    and the instances expose, merged into the configured policy. The prefixes
    and the rest of the policy are those of the base; only its tenants change. *)
From stdpp Require Import prelude gmap strings.
From S2P Require Import Prelude Net Float Core.

Open Scope Z_scope.

Inductive DiscoverySource : Type := FromHost | FromIncus.

Record DiscoveredService := {
  ds_addr : IpAddr; ds_proto : L4Proto; ds_port : Z; ds_target : ServiceTarget; ds_source : DiscoverySource;
}.

Definition DISCOVERED_TENANT : string := "discovered".

Section reconcile.
Context `{IpNetLib}.

Definition with_tenants (ts : list Tenant) (p : Policy) : Policy := {|
  interface := interface p; prefixes := prefixes p; default_state := default_state p; tenants := ts;
  shaping := shaping p; banner_flux := banner_flux p; dns_flux := dns_flux p; rtbh := rtbh p;
  flowspec := flowspec p; metrics_listen := metrics_listen p; api := api p; pops := pops p;
  engine := engine p; flowtable := flowtable p; xdp := xdp p; stateless_tcp_ports := stateless_tcp_ports p;
  shadow := shadow p; protected_prefixes := protected_prefixes p; rpki_validator := rpki_validator p;
  rpki_check_interval := rpki_check_interval p; instance := instance p |}.

Definition owns (addr : IpAddr) (t : Tenant) : bool := bool_decide (addr ∈ te_owned t).

Definition covers (addr : IpAddr) (proto : L4Proto) (port : Z) (a : AllowRule) : bool :=
  bool_decide (al_proto a = proto) && (al_port a =? port) &&
  match al_scope a with None => true | Some s => bool_decide (s = addr) end.

Definition service_exists (policy : Policy) (addr : IpAddr) (proto : L4Proto) (port : Z) : bool :=
  existsb (λ t, owns addr t && existsb (covers addr proto port) (te_allows t)) (tenants policy).

(** The position of the first tenant that satisfies [f]. *)
Fixpoint position {A} (f : A → bool) (l : list A) : option nat :=
  match l with [] => None | x :: l => if f x then Some O else S <$> position f l end.

Definition owning_tenant_index (policy : Policy) (addr : IpAddr) : option nat :=
  position (owns addr) (tenants policy).

Definition push_rule (rule : AllowRule) (t : Tenant) : Tenant := {|
  te_name := te_name t; te_owned := te_owned t; te_allows := te_allows t ++ [rule] |}.

Definition adopt (addr : IpAddr) (t : Tenant) : Tenant := {|
  te_name := te_name t;
  te_owned := if owns addr t then te_owned t else te_owned t ++ [addr];
  te_allows := te_allows t |}.

Definition is_discovered (t : Tenant) : bool := bool_decide (te_name t = DISCOVERED_TENANT).

Definition attach_to_synthetic (addr : IpAddr) (rule : AllowRule) (policy : Policy) : Policy :=
  match position is_discovered (tenants policy) with
  | Some idx => with_tenants (alter (λ t, push_rule rule (adopt addr t)) idx (tenants policy)) policy
  | None =>
      with_tenants (tenants policy ++
        [{| te_name := DISCOVERED_TENANT; te_owned := [addr]; te_allows := [rule] |}]) policy
  end.

(** One turn of the loop over the discovered services. *)
Definition merge (effective : Policy) (svc : DiscoveredService) : Policy :=
  if negb (existsb (λ p, net_contains p (ds_addr svc)) (prefixes effective)) then effective
  else if service_exists effective (ds_addr svc) (ds_proto svc) (ds_port svc) then effective
  else
    let rule := {| al_proto := ds_proto svc; al_port := ds_port svc; al_target := ds_target svc;
                   al_scope := Some (ds_addr svc) |} in
    match owning_tenant_index effective (ds_addr svc) with
    | Some idx => with_tenants (alter (push_rule rule) idx (tenants effective)) effective
    | None => attach_to_synthetic (ds_addr svc) rule effective
    end.

Definition reconcile (base : Policy) (discovered : list DiscoveredService) : Policy :=
  foldl merge base discovered.

(** ** One service at a time *)

Definition ds_key (d : DiscoveredService) : IpAddr * L4Proto * Z := (ds_addr d, ds_proto d, ds_port d).

(** The rules of the synthetic tenant name one of its addresses each. *)
Definition synthetic_scoped (p : Policy) : Prop :=
  ∀ t a, t ∈ tenants p → te_name t = DISCOVERED_TENANT → a ∈ te_allows t →
    ∃ addr, al_scope a = Some addr ∧ addr ∈ te_owned t.

Lemma position_spec {A} (f : A → bool) l :
  match position f l with
  | Some i => ∃ l1 x l2, l = l1 ++ x :: l2 ∧ i = length l1 ∧ f x = true ∧ Forall (λ y, f y = false) l1
  | None => Forall (λ y, f y = false) l
  end.
Proof.
  induction l as [|x l IH]; cbn; [constructor|]. destruct (f x) eqn:Hx; [by exists [], x, l|].
  destruct (position f l) as [i|]; cbn.
  - destruct IH as (l1 & y & l2 & -> & -> & Hy & Hl). exists (x :: l1), y, l2. split_and!; try done. by constructor.
  - by constructor.
Qed.

Lemma alter_middle {A} (f : A → A) l l1 x l2 : l = l1 ++ x :: l2 → alter f (length l1) l = l1 ++ f x :: l2.
Proof. intros ->. by rewrite (alter_app_r_alt f l1 (x :: l2) (length l1) ltac:(lia)), Nat.sub_diag. Qed.

Lemma find_nowhere {A} (f : A → bool) l : Forall (λ x, f x = false) l → List.find f l = None.
Proof. induction 1 as [|x l Hx _ IH]; [done|]. cbn. by rewrite Hx. Qed.

Lemma find_middle {A} (f : A → bool) l1 x l2 :
  Forall (λ x, f x = false) l1 → f x = true → List.find f (l1 ++ x :: l2) = Some x.
Proof. intros Hl Hx. induction Hl as [|y l Hy _ IH]; cbn; [by rewrite Hx|by rewrite Hy]. Qed.

(** The services of one tenant at one address. *)
Definition at_addr (name : string) (addr : IpAddr) (a : AllowRule) : ResolvedService :=
  {| rs_addr := addr; rs_proto := al_proto a; rs_port := al_port a; rs_target := al_target a; rs_tenant := name |}.
Definition opened (name : string) (allows : list AllowRule) (addr : IpAddr) : list ResolvedService :=
  at_addr name addr <$> filter (λ a, applies a addr = true) allows.

Lemma declared_bind ts : declared ts = ts ≫= λ t, te_owned t ≫= opened (te_name t) (te_allows t).
Proof. done. Qed.

Lemma opened_app name l1 l2 addr : opened name (l1 ++ l2) addr = opened name l1 addr ++ opened name l2 addr.
Proof. unfold opened. by rewrite filter_app, fmap_app. Qed.

(** A rule scoped to [addr] opens one service at [addr] and none elsewhere. *)
Lemma opened_scoped name rule addr addr' :
  al_scope rule = Some addr → opened name [rule] addr' = if decide (addr = addr') then [at_addr name addr' rule] else [].
Proof.
  intros Hs. unfold opened, applies. cbn [filter list_filter]. rewrite Hs. by repeat case_decide; repeat case_bool_decide.
Qed.

Lemma opened_none name allows addr : Forall (λ a, applies a addr = false) allows → opened name allows addr = [].
Proof.
  unfold opened. induction 1 as [|a l Ha _ IH]; [done|]. rewrite filter_cons_False by congruence. exact IH.
Qed.

Lemma bind_app_perm {A B} (f g : A → list B) l : (l ≫= λ x, f x ++ g x) ≡ₚ (l ≫= f) ++ (l ≫= g).
Proof.
  induction l as [|x l IH]; [done|]. rewrite !bind_cons, IH. solve_Permutation.
Qed.

Lemma bind_once {A B} `{EqDecision A} (a : A) (b : B) l :
  NoDup l → (l ≫= λ x, if decide (a = x) then [b] else []) = if decide (a ∈ l) then [b] else [].
Proof.
  induction 1 as [|x l Hx _ IH]; [done|]. rewrite bind_cons, IH.
  repeat case_decide; set_solver.
Qed.

Lemma opened_pushed name allows rule addr owned :
  al_scope rule = Some addr → NoDup owned → addr ∈ owned →
  (owned ≫= opened name (allows ++ [rule])) ≡ₚ (owned ≫= opened name allows) ++ [at_addr name addr rule].
Proof.
  intros Hs Hnd Hin.
  rewrite (list_bind_ext _ (λ x, opened name allows x ++ if decide (addr = x) then [at_addr name addr rule] else []) owned owned).
  - rewrite bind_app_perm, (bind_once addr _ owned Hnd), decide_True by done. done.
  - intros x. rewrite opened_app, (opened_scoped _ _ _ _ Hs). case_decide; by subst.
  - done.
Qed.

(** Replacing one tenant by one that opens one service more. *)
Lemma declared_grow l1 t t' l2 s :
  te_owned t' ≫= opened (te_name t') (te_allows t') ≡ₚ (te_owned t ≫= opened (te_name t) (te_allows t)) ++ [s] →
  declared (l1 ++ t' :: l2) ≡ₚ declared (l1 ++ t :: l2) ++ [s].
Proof. intros Ht. rewrite (declared_bind (l1 ++ t :: l2)), declared_bind, !bind_app, !bind_cons, Ht, <- !app_assoc. do 2 apply Permutation_app_head. apply Permutation_app_comm. Qed.

Lemma ownership_addrs ts : (ownership ts).*1 = ts ≫= te_owned.
Proof.
  induction ts as [|t ts IH]; [done|]. unfold ownership in *. rewrite !bind_cons, fmap_app, IH. f_equal.
  rewrite <- list_fmap_compose. apply list_fmap_id.
Qed.

Lemma service_exists_spec p addr proto port :
  service_exists p addr proto port = true ↔ (addr, proto, port) ∈ service_key <$> declared (tenants p).
Proof.
  unfold service_exists. rewrite existsb_exists, declared_bind, list_elem_of_fmap. split.
  - intros (t & Ht%list_elem_of_In & [Ho Ha]%andb_true_iff). unfold owns in Ho. rewrite bool_decide_eq_true in Ho.
    apply existsb_exists in Ha as (a & Hin%list_elem_of_In & Hc). unfold covers in Hc.
    rewrite !andb_true_iff, bool_decide_eq_true, Z.eqb_eq in Hc. destruct Hc as [[Hpr Hpo] Hsc].
    exists (at_addr (te_name t) addr a). split; [unfold service_key; cbn; by rewrite Hpr, Hpo|].
    apply list_elem_of_bind. exists t. split; [|done]. apply list_elem_of_bind. exists addr. split; [|done].
    unfold opened. apply list_elem_of_fmap_2, list_elem_of_filter. done.
  - intros (s & Hk & (t & Hs & Ht)%list_elem_of_bind). apply list_elem_of_bind in Hs as (ad & Hs & Had).
    unfold opened in Hs. apply list_elem_of_fmap in Hs as (a & -> & [Hap Ha]%list_elem_of_filter).
    unfold service_key in Hk. cbn in Hk. injection Hk as -> -> ->. exists t. split; [by apply list_elem_of_In|].
    unfold owns. rewrite bool_decide_eq_true_2 by done. cbn [andb]. apply existsb_exists. exists a.
    split; [by apply list_elem_of_In|]. unfold covers. rewrite bool_decide_eq_true_2, Z.eqb_refl by done. exact Hap.
Qed.

(** What [resolve] demands of a policy. *)
Definition consistent (p : Policy) : Prop :=
  (∀ a, a ∈ (ownership (tenants p)).*1 → managed p a) ∧ NoDup (ownership (tenants p)).*1 ∧
  NoDup (service_key <$> declared (tenants p)).

Lemma consistent_resolve p : consistent p ↔ resolve p = Ok (declared (tenants p)).
Proof. rewrite (proj1 (resolve_spec p)). unfold consistent. naive_solver. Qed.

Lemma consistent_grow p ts s addrs :
  consistent p → ts ≫= te_owned ≡ₚ (tenants p ≫= te_owned) ++ addrs → declared ts ≡ₚ declared (tenants p) ++ [s] →
  Forall (managed p) addrs → NoDup addrs → (∀ a, a ∈ addrs → a ∉ tenants p ≫= te_owned) →
  service_key s ∉ service_key <$> declared (tenants p) → consistent (with_tenants ts p).
Proof.
  unfold consistent. rewrite !ownership_addrs. intros (Hm & Ho & Hk) Hts Hd Hma Hna Hdis Hnew.
  cbn [tenants with_tenants]. rewrite Hd, fmap_app. split_and!.
  - intros a. rewrite Hts, elem_of_app. rewrite Forall_forall in Hma. intros [Ha|Ha]; [by apply Hm|by apply Hma].
  - rewrite Hts. apply NoDup_app. split_and!; [done| |done]. intros a Ha Ha'. by apply (Hdis a).
  - apply NoDup_app. split_and!; [done| |apply NoDup_singleton]. intros k Hk'. cbn.
    rewrite list_elem_of_singleton. by intros ->.
Qed.

Definition service_of (name : string) (d : DiscoveredService) : ResolvedService := {|
  rs_addr := ds_addr d; rs_proto := ds_proto d; rs_port := ds_port d; rs_target := ds_target d; rs_tenant := name |}.

Definition rule_of (d : DiscoveredService) : AllowRule := {|
  al_proto := ds_proto d; al_port := ds_port d; al_target := ds_target d; al_scope := Some (ds_addr d) |}.

Lemma owned_nodup p l1 t l2 : consistent p → tenants p = l1 ++ t :: l2 → NoDup (te_owned t).
Proof.
  intros (_ & Ho & _) Hts. rewrite ownership_addrs, Hts, bind_app, bind_cons in Ho.
  by apply NoDup_app in Ho as (_ & _ & (? & _)%NoDup_app).
Qed.

Lemma scoped_update p l1 t t' l2 d :
  synthetic_scoped p → tenants p = l1 ++ t :: l2 → te_name t' = te_name t → te_allows t' = te_allows t ++ [rule_of d] →
  (∀ a, a ∈ te_owned t → a ∈ te_owned t') → ds_addr d ∈ te_owned t' →
  synthetic_scoped (with_tenants (l1 ++ t' :: l2) p).
Proof.
  intros Hs Hts Hn Ha Hsub Hin x a. cbn [tenants with_tenants]. intros Hx Hnx Hax.
  assert (x = t' ∨ x ∈ tenants p) as [->|Hp] by (rewrite Hts; set_solver); [|by eapply Hs].
  rewrite Ha in Hax. apply elem_of_app in Hax as [Hax|Hax%list_elem_of_singleton]; [|subst a; by exists (ds_addr d)].
  destruct (Hs t a) as (addr & Hsc & Ho); [rewrite Hts; set_solver|congruence|done|]. exists addr. auto.
Qed.

(** The owner of the address gets the rule. *)
Lemma merge_owner p d l1 t l2 :
  consistent p → synthetic_scoped p → tenants p = l1 ++ t :: l2 → ds_addr d ∈ te_owned t →
  ds_key d ∉ service_key <$> declared (tenants p) →
  let p' := with_tenants (l1 ++ push_rule (rule_of d) t :: l2) p in
  declared (tenants p') ≡ₚ declared (tenants p) ++ [service_of (te_name t) d] ∧ consistent p' ∧ synthetic_scoped p'.
Proof.
  intros Hc Hs Hts Hin Hnew p'. assert (declared (tenants p') ≡ₚ declared (tenants p) ++ [service_of (te_name t) d]) as Hd.
  { rewrite Hts. apply declared_grow. cbn [te_owned te_allows te_name push_rule].
    apply (opened_pushed _ _ (rule_of d)); [done|by eapply owned_nodup|done]. }
  split_and!; [done| |].
  - eapply (consistent_grow p _ (service_of (te_name t) d) []); [done| |exact Hd|constructor|constructor| |done].
    + rewrite app_nil_r, Hts, !bind_app, !bind_cons. done.
    + by intros a ?%elem_of_nil.
  - by eapply (scoped_update p l1 t).
Qed.

(** No tenant owns the address, and there is a synthetic one. *)
Lemma merge_synthetic p d l1 t l2 :
  consistent p → synthetic_scoped p → managed p (ds_addr d) → tenants p = l1 ++ t :: l2 →
  te_name t = DISCOVERED_TENANT → ds_addr d ∉ tenants p ≫= te_owned →
  ds_key d ∉ service_key <$> declared (tenants p) →
  let p' := with_tenants (l1 ++ push_rule (rule_of d) (adopt (ds_addr d) t) :: l2) p in
  declared (tenants p') ≡ₚ declared (tenants p) ++ [service_of DISCOVERED_TENANT d] ∧ consistent p' ∧ synthetic_scoped p'.
Proof.
  intros Hc Hs Hm Hts Hn Hfree Hnew p'. assert (ds_addr d ∉ te_owned t) as Hno.
  { intros Hin. apply Hfree. rewrite Hts. apply list_elem_of_bind. exists t. split; [done|set_solver]. }
  assert (te_owned (adopt (ds_addr d) t) = te_owned t ++ [ds_addr d]) as Ho.
  { cbn. unfold owns. by rewrite bool_decide_eq_false_2. }
  assert (declared (tenants p') ≡ₚ declared (tenants p) ++ [service_of DISCOVERED_TENANT d]) as Hd.
  { rewrite Hts. apply declared_grow. cbn [te_owned te_allows te_name push_rule]. rewrite Ho.
    etrans; [apply (opened_pushed _ _ (rule_of d) (ds_addr d)); [done| |set_solver]|].
    - apply NoDup_app. split_and!; [by eapply owned_nodup| |apply NoDup_singleton]. set_solver.
    - rewrite bind_app. assert (opened (te_name t) (te_allows t) (ds_addr d) = []) as Hnone.
      { apply opened_none, Forall_forall. intros a Ha.
        destruct (Hs t a) as (addr & Hsc & Hao); [rewrite Hts; set_solver|done..|]. unfold applies. rewrite Hsc.
        apply bool_decide_eq_false_2. by intros ->. }
      cbn [te_name te_allows adopt]. rewrite bind_cons, Hnone, !app_nil_r, Hn. done. }
  split_and!; [done| |].
  - eapply (consistent_grow p _ (service_of DISCOVERED_TENANT d) [ds_addr d]); [done| |exact Hd| |apply NoDup_singleton| |done].
    + rewrite Hts, !bind_app, !bind_cons. cbn [te_owned push_rule]. rewrite Ho, <- !app_assoc.
      do 2 apply Permutation_app_head. apply Permutation_app_comm.
    + by apply Forall_singleton.
    + intros a Ha%list_elem_of_singleton. by subst a.
  - eapply (scoped_update p l1 t); [done..| |]; cbn [te_owned push_rule]; rewrite Ho; set_solver.
Qed.

(** No tenant owns the address and there is no synthetic one: a new one. *)
Lemma merge_fresh p d :
  consistent p → synthetic_scoped p → managed p (ds_addr d) → ds_addr d ∉ tenants p ≫= te_owned →
  ds_key d ∉ service_key <$> declared (tenants p) →
  let p' := with_tenants (tenants p ++ [{| te_name := DISCOVERED_TENANT; te_owned := [ds_addr d]; te_allows := [rule_of d] |}]) p in
  declared (tenants p') ≡ₚ declared (tenants p) ++ [service_of DISCOVERED_TENANT d] ∧ consistent p' ∧ synthetic_scoped p'.
Proof.
  intros Hc Hs Hm Hfree Hnew p'. assert (declared (tenants p') ≡ₚ declared (tenants p) ++ [service_of DISCOVERED_TENANT d]) as Hd.
  { unfold p'. cbn [tenants with_tenants]. rewrite declared_bind, bind_app, !bind_cons. cbn [te_owned te_allows te_name].
    rewrite bind_cons, (opened_scoped _ (rule_of d) (ds_addr d)), decide_True by done. done. }
  split_and!; [done| |].
  - eapply (consistent_grow p _ (service_of DISCOVERED_TENANT d) [ds_addr d]); [done| |exact Hd| |apply NoDup_singleton| |done].
    + by rewrite bind_app.
    + by apply Forall_singleton.
    + intros a Ha%list_elem_of_singleton. by subst a.
  - intros t a. cbn [tenants with_tenants p']. intros [Ht|Ht%list_elem_of_singleton]%elem_of_app Hn Ha; [by eapply Hs|].
    subst t. apply list_elem_of_singleton in Ha as ->. exists (ds_addr d). split; [done|left].
Qed.

(** Who answers for an address: its owner, or the synthetic tenant. *)
Definition tenant_for (p : Policy) (addr : IpAddr) : string := default DISCOVERED_TENANT (owner_of p addr).

Definition name_in (ts : list Tenant) (addr : IpAddr) : string :=
  default DISCOVERED_TENANT (te_name <$> List.find (owns addr) ts).

Lemma name_in_update l1 t t' l2 addr :
  te_name t' = te_name t → (owns addr t' = owns addr t ∨ te_name t = DISCOVERED_TENANT ∧ Forall (λ x, owns addr x = false) (l1 ++ t :: l2)) →
  name_in (l1 ++ t' :: l2) addr = name_in (l1 ++ t :: l2) addr.
Proof.
  intros Hn Ho. unfold name_in. induction l1 as [|x l1 IH]; cbn [app List.find].
  - destruct Ho as [->|[Hd Hf]]; [by destruct (owns addr t); cbn; rewrite ?Hn|].
    apply Forall_cons in Hf as [-> Hf]. rewrite (find_nowhere _ _ Hf). destruct (owns addr t'); cbn; congruence.
  - destruct (owns addr x) eqn:Hx; [done|]. apply IH. destruct Ho as [Ho|[Hd Hf]]; [by left|right].
    split; [done|]. by apply Forall_cons in Hf as [_ ?].
Qed.

Lemma name_in_snoc ts t addr : te_name t = DISCOVERED_TENANT → name_in (ts ++ [t]) addr = name_in ts addr.
Proof.
  intros Hn. unfold name_in. induction ts as [|x ts IH]; cbn [app List.find].
  - destruct (owns addr t); by cbn.
  - by destruct (owns addr x).
Qed.

Lemma owns_false p addr : Forall (λ t, owns addr t = false) (tenants p) → addr ∉ tenants p ≫= te_owned.
Proof.
  rewrite Forall_forall. intros Hf (t & Ha & Ht)%list_elem_of_bind. specialize (Hf t Ht).
  unfold owns in Hf. by rewrite bool_decide_eq_false in Hf.
Qed.

Definition fresh_service (p : Policy) (d : DiscoveredService) : Prop :=
  managed p (ds_addr d) ∧ ds_key d ∉ service_key <$> declared (tenants p).

Lemma merge_skips p d : ¬ fresh_service p d → merge p d = p.
Proof.
  intros Hf. unfold merge. destruct (existsb _ _) eqn:Hm; cbn [negb]; [|done].
  destruct (service_exists _ _ _ _) eqn:He; [done|]. destruct Hf. split; [by apply managed_dec|].
  unfold ds_key. rewrite <- service_exists_spec. congruence.
Qed.

Lemma merge_adds p d :
  consistent p → synthetic_scoped p → fresh_service p d →
  let p' := merge p d in
  p' = with_tenants (tenants p') p ∧ consistent p' ∧ synthetic_scoped p' ∧
  declared (tenants p') ≡ₚ declared (tenants p) ++ [service_of (tenant_for p (ds_addr d)) d] ∧
  (∀ addr, tenant_for p' addr = tenant_for p addr).
Proof.
  intros Hc Hs [Hm Hnew]. unfold merge. rewrite (proj2 (managed_dec p _) Hm). cbn [negb].
  assert (service_exists p (ds_addr d) (ds_proto d) (ds_port d) = false) as ->.
  { apply not_true_is_false. by rewrite service_exists_spec. }
  change {| al_proto := ds_proto d |} with (rule_of d). unfold owning_tenant_index, attach_to_synthetic.
  pose proof (position_spec (owns (ds_addr d)) (tenants p)) as Hp.
  destruct (position (owns (ds_addr d)) (tenants p)) as [i|].
  { destruct Hp as (l1 & t & l2 & Hts & -> & Ho & Hl1). rewrite (alter_middle _ _ _ _ _ Hts). unfold owns in Ho.
    rewrite bool_decide_eq_true in Ho. destruct (merge_owner p d l1 t l2) as (Hd & Hc' & Hs'); [done..|].
    split_and!; [done..| |].
    - assert (tenant_for p (ds_addr d) = te_name t) as ->; [|done]. change (name_in (tenants p) (ds_addr d) = te_name t).
      unfold name_in. rewrite Hts. by rewrite (find_middle (owns (ds_addr d)) l1 t l2 Hl1 (bool_decide_eq_true_2 _ Ho)).
    - intros addr. change (name_in (l1 ++ push_rule (rule_of d) t :: l2) addr = name_in (tenants p) addr).
      rewrite Hts. apply name_in_update; [done|by left]. }
  apply owns_false in Hp as Hfree.
  assert (tenant_for p (ds_addr d) = DISCOVERED_TENANT) as ->.
  { change (name_in (tenants p) (ds_addr d) = DISCOVERED_TENANT). unfold name_in. by rewrite (find_nowhere (owns (ds_addr d)) (tenants p) Hp). }
  pose proof (position_spec is_discovered (tenants p)) as Hq. destruct (position is_discovered (tenants p)) as [i|].
  - destruct Hq as (l1 & t & l2 & Hts & -> & Hn & _). rewrite (alter_middle _ _ _ _ _ Hts). unfold is_discovered in Hn.
    rewrite bool_decide_eq_true in Hn. destruct (merge_synthetic p d l1 t l2) as (Hd & Hc' & Hs'); [done..|].
    split_and!; [done..|]. intros addr.
    change (name_in (l1 ++ push_rule (rule_of d) (adopt (ds_addr d) t) :: l2) addr = name_in (tenants p) addr).
    rewrite Hts. apply name_in_update; [done|]. rewrite <- Hts. destruct (decide (addr = ds_addr d)) as [->|Hne]; [by right|left].
    unfold owns at 1 2. cbn [push_rule adopt te_owned]. apply bool_decide_ext. destruct (owns (ds_addr d) t); set_solver.
  - destruct (merge_fresh p d) as (Hd & Hc' & Hs'); [done..|]. split_and!; [done..|].
    intros addr. by apply name_in_snoc.
Qed.

Lemma managed_tenants p ts addr : managed (with_tenants ts p) addr ↔ managed p addr.
Proof. done. Qed.

(** What merging a list has added. *)
Definition added (base p : Policy) (discovered : list DiscoveredService) (new : list ResolvedService) : Prop :=
  p = with_tenants (tenants p) base ∧ declared (tenants p) ≡ₚ declared (tenants base) ++ new ∧
  (∀ s, s ∈ new → ∃ d, d ∈ discovered ∧ managed base (ds_addr d) ∧ s = service_of (tenant_for base (ds_addr d)) d) ∧
  (∀ d, d ∈ discovered → managed base (ds_addr d) → ds_key d ∈ service_key <$> declared (tenants p)) ∧
  (∀ addr, tenant_for p addr = tenant_for base addr).

Lemma merge_added base p ds new d :
  consistent p → synthetic_scoped p → added base p ds new →
  consistent (merge p d) ∧ synthetic_scoped (merge p d) ∧ ∃ new', added base (merge p d) (ds ++ [d]) new'.
Proof.
  intros Hc Hs (Hp & Hd & Hn & Hk & Ho).
  assert (∀ a, managed p a ↔ managed base a) as Hm by (intros a; by rewrite Hp).
  destruct (decide (existsb (λ n, net_contains n (ds_addr d)) (prefixes p) = true ∧
                    ds_key d ∉ service_key <$> declared (tenants p))) as [[Hma Hnew]|Hno].
  - apply managed_dec in Hma. destruct (merge_adds p d Hc Hs (conj Hma Hnew)) as (Hp' & Hc' & Hs' & Hd' & Ho').
    split_and!; [done..|]. exists (new ++ [service_of (tenant_for base (ds_addr d)) d]). split_and!.
    + by rewrite Hp', Hp.
    + rewrite Hd', Hd, Ho, app_assoc. done.
    + intros s [Hs0|Hs0%list_elem_of_singleton]%elem_of_app.
      * destruct (Hn s Hs0) as (d0 & Hin & ? & ?). exists d0. set_solver.
      * exists d. split; [set_solver|]. split; [by apply Hm|done].
    + intros d0 [Hin|Hin%list_elem_of_singleton]%elem_of_app Hm0; rewrite Hd', fmap_app, elem_of_app.
      * left. by apply Hk.
      * right. subst d0. left.
    + intros addr. by rewrite Ho', Ho.
  - rewrite (merge_skips p d).
    + split_and!; [done..|]. exists new. split_and!; try done.
      * intros s Hs0. destruct (Hn s Hs0) as (d0 & Hin & ? & ?). exists d0. set_solver.
      * intros d0 [Hin|Hin%list_elem_of_singleton]%elem_of_app Hm0; [by apply Hk|]. subst d0.
        apply dec_stable. intros Hne. apply Hno. split; [|done]. by apply managed_dec, Hm.
    + intros [Hma Hnew]. apply Hno. split; [by apply managed_dec|done].
Qed.

Lemma reconcile_added ds : ∀ base p ds0 new,
  consistent p → synthetic_scoped p → added base p ds0 new →
  consistent (reconcile p ds) ∧ synthetic_scoped (reconcile p ds) ∧ ∃ new', added base (reconcile p ds) (ds0 ++ ds) new'.
Proof.
  induction ds as [|d ds IH]; intros base p ds0 new Hc Hs Ha; [rewrite app_nil_r; eauto|].
  destruct (merge_added base p ds0 new d Hc Hs Ha) as (Hc' & Hs' & new' & Ha').
  destruct (IH base (merge p d) (ds0 ++ [d]) new' Hc' Hs' Ha') as (? & ? & new2 & Ha2). rewrite <- app_assoc in Ha2. eauto.
Qed.

Lemma reconcile_spec base ds :
  consistent base → synthetic_scoped base →
  consistent (reconcile base ds) ∧ synthetic_scoped (reconcile base ds) ∧ ∃ new, added base (reconcile base ds) ds new.
Proof.
  intros Hc Hs. apply (reconcile_added ds base base [] []); [done..|]. split_and!; try done.
  - by destruct base.
  - by rewrite app_nil_r.
  - by intros s ?%elem_of_nil.
  - by intros d ?%elem_of_nil.
Qed.

Lemma reconcile_skips p ds : (∀ d, d ∈ ds → ¬ fresh_service p d) → reconcile p ds = p.
Proof.
  induction ds as [|d ds IH]; intros Hno; [done|]. cbn. rewrite merge_skips by (apply Hno; left).
  apply IH. intros x Hx. apply Hno. by right.
Qed.

(** C16: discovery opens what was observed and nothing else. Over a
    configuration that resolves, with any list of discovered services, the
    effective policy resolves; it keeps every configured service as it is and
    adds only services that were discovered on an address of the managed
    prefixes, each at the observed address and port, with its own target and
    on behalf of the tenant that owns the address, or of the synthetic tenant;
    every service discovered in the managed prefixes is open; nothing but the
    tenants changes, and merging the same list again changes nothing. The
    tenant named discovered, when the configuration has one, must have its
    rules scoped to its addresses. *)
Theorem discovery_exact base ds out :
  resolve base = Ok out → synthetic_scoped base →
  let p := reconcile base ds in
  (∃ new, resolve p = Ok (declared (tenants p)) ∧ declared (tenants p) ≡ₚ out ++ new ∧
    (∀ s, s ∈ new → ∃ d, d ∈ ds ∧ managed base (ds_addr d) ∧ ds_key d ∉ service_key <$> out ∧
                         s = service_of (tenant_for base (ds_addr d)) d)) ∧
  (∀ d, d ∈ ds → managed base (ds_addr d) → ds_key d ∈ service_key <$> declared (tenants p)) ∧
  p = with_tenants (tenants p) base ∧ reconcile p ds = p.
Proof.
  intros Hr Hs p. pose proof (resolve_ok base out Hr) as (-> & Hc).
  destruct (reconcile_spec base ds Hc Hs) as (Hc' & Hs' & new & Hp & Hd & Hn & Hk & _). fold p in Hc', Hs', Hp, Hd, Hk.
  split_and!; [|done..|].
  - exists new. split; [by apply consistent_resolve|]. split; [done|]. intros s Hin.
    destruct (Hn s Hin) as (d & ? & ? & ->). exists d. split_and!; try done.
    destruct Hc' as (_ & _ & Hnd). rewrite Hd, fmap_app in Hnd. apply NoDup_app in Hnd as (_ & Hdis & _).
    intros Hb. apply (Hdis _ Hb). by apply (list_elem_of_fmap_2 service_key) in Hin.
  - apply reconcile_skips. intros d Hin [Hm Hnew]. apply Hnew, Hk; [done|]. by rewrite Hp in Hm.
Qed.
End reconcile.
