(* ===== verification/HostScan.v ===== *)
(** * What the host and its instances expose

    [crates/blackwall-discovery]: the listening sockets of the host, read from
    the files of [/proc/net] ([host.rs], [proc_io.rs]), the services that the
    instances of the container host opt into ([incus_model.rs]) and the events
    of their life cycle ([incus_event.rs]). The host is little-endian. Reading
    a file is a parameter; the JSON library is the class [SerdeJson]. *)
From stdpp Require Import prelude gmap strings.
From S2P Require Import Prelude Net Float Bytes Core NetText Text Discovery.

Open Scope Z_scope.

Inductive DiscoveryError : Type := Parse (msg : string) | DIo.

(** [from_str_radix] for an unsigned type whose largest value is [max]. *)
Definition from_str_radix (radix max : Z) (l : list Z) : option Z :=
  let l := match l with 43 :: l' => l' | _ => l end in
  let '(ds, rest) := span_digits radix l in
  match ds, rest with
  | _ :: _, [] => if max <? digits_value radix ds then None else Some (digits_value radix ds)
  | _, _ => None
  end.

(** [to_le_bytes] and the value of little-endian bytes. *)
Definition to_le_bytes (n : nat) (z : Z) : list Z := reverse (be_bytes n z).
Definition le_value (l : list Z) : Z := be_value (reverse l).

(** ** Listening sockets *)

Module ProcNet.

Record ListeningSocket := { ls_addr : IpAddr; ls_proto : L4Proto; ls_port : Z }.

Definition bad {A} (what : string) (l : list Z) : result A DiscoveryError :=
  Err (Parse (String.append what (of_bytes l))).

(** [raw.to_be()] on a little-endian host exchanges the bytes. *)
Definition to_be (raw : Z) : Z := be_value (to_le_bytes 4 raw).

Definition parse_ipv4 (hex : list Z) : result Z DiscoveryError :=
  match from_str_radix 16 u32_max hex with
  | None => bad "bad ipv4: " hex
  | Some raw => Ok (to_be raw)
  end.

Fixpoint parse_words (n : nat) (hex rest : list Z) : result (list Z) DiscoveryError :=
  match n with
  | O => Ok []
  | S n =>
      match s ← from_utf8 (take 8 rest); from_str_radix 16 u32_max (str_bytes s) with
      | None => bad "bad ipv6 word: " hex
      | Some word => result_bind (parse_words n hex (drop 8 rest)) (λ octets, Ok (to_le_bytes 4 word ++ octets))
      end
  end.

Definition parse_ipv6 (hex : list Z) : result Z DiscoveryError :=
  if negb (length hex =? 32)%nat then bad "bad ipv6 length: " hex
  else result_bind (parse_words 4 hex hex) (λ octets, Ok (be_value octets)).

Definition listening (proto : L4Proto) (remote state : string) : bool :=
  match proto with
  | Tcp => eq_ignore_ascii_case state "0A"
  | Udp =>
      bool_decide (head (split 58 remote) = Some "00000000") ||
      bool_decide (head (split 58 remote) = Some "00000000000000000000000000000000")
  end.

(** One line; [None] for a line that is not a listening socket. *)
Definition parse_line (proto : L4Proto) (is_ipv6 : bool) (line : list Z) : result (option ListeningSocket) DiscoveryError :=
  match split_whitespace (chars line) with
  | _ :: local :: remote :: state :: _ =>
      if negb (listening proto remote state) then Ok None
      else
        match split_once 58 local with
        | None => bad "bad local address: " (str_bytes local)
        | Some (addr_hex, port_hex) =>
            match from_str_radix 16 u16_max (str_bytes port_hex) with
            | None => bad "bad port: " (str_bytes port_hex)
            | Some port =>
                result_bind (if is_ipv6 then result_bind (parse_ipv6 (str_bytes addr_hex)) (λ a, Ok (V6 a))
                             else result_bind (parse_ipv4 (str_bytes addr_hex)) (λ a, Ok (V4 a)))
                  (λ addr, Ok (Some {| ls_addr := addr; ls_proto := proto; ls_port := port |}))
            end
        end
  | _ => Ok None
  end.

Fixpoint parse_rows (proto : L4Proto) (is_ipv6 : bool) (ls : list (list Z)) : result (list ListeningSocket) DiscoveryError :=
  match ls with
  | [] => Ok []
  | line :: ls =>
      result_bind (parse_line proto is_ipv6 line) (λ s,
      result_bind (parse_rows proto is_ipv6 ls) (λ out,
      Ok (match s with Some s => s :: out | None => out end)))
  end.

Definition parse_proc_net (contents : list Z) (proto : L4Proto) (is_ipv6 : bool) : result (list ListeningSocket) DiscoveryError :=
  parse_rows proto is_ipv6 (drop 1 (lines contents)).

(** ** The four files *)

(** [read_to_string]. *)
Inductive FileRead : Type := Contents (l : list Z) | NotFound | ReadError.

Fixpoint scan_files (read : string → FileRead) (files : list (string * L4Proto * bool)) : result (list ListeningSocket) DiscoveryError :=
  match files with
  | [] => Ok []
  | (file, proto, v6) :: files =>
      match read file with
      | Contents contents =>
          result_bind (parse_proc_net contents proto v6) (λ socks,
          result_bind (scan_files read files) (λ out, Ok (socks ++ out)))
      | NotFound => scan_files read files
      | ReadError => Err DIo
      end
  end.

Definition scan_host_sockets (read : string → FileRead) : result (list ListeningSocket) DiscoveryError :=
  scan_files read [("tcp", Tcp, false); ("tcp6", Tcp, true); ("udp", Udp, false); ("udp6", Udp, true)].
End ProcNet.

(** ** Instances *)

(** [serde_json]: a text is parsed to a value or refused; indexing by a key
    that is not there, or a value that is not an object, gives a null value,
    for which the accessors answer [None]. *)
Class SerdeJson := {
  Value : Type;
  from_str : string → option Value;
  at_key : Value → string → Value;
  as_str : Value → option string;
  as_object : Value → option (list (string * Value));
  as_array : Value → option (list Value);
}.

Module IncusModel.

Record Instance_ := { in_name : string; in_addresses : list IpAddr; in_ports : list (L4Proto * Z) }.

Definition parse_port_entry (entry : string) : option (L4Proto * Z) :=
  '(port_str, proto_str) ← split_once 47 (trim entry);
  port ← parse_uint u16_max (trim port_str);
  let proto := to_ascii_lowercase (trim proto_str) in
  if bool_decide (proto = "tcp") then Some (Tcp, port)
  else if bool_decide (proto = "udp") then Some (Udp, port)
  else None.

Definition parse_ports (value : string) : list (L4Proto * Z) := omap parse_port_entry (split 44 value).

Definition instance_services (inst : Instance_) : list DiscoveredService :=
  in_addresses inst ≫= λ addr, (λ '(proto, port),
    {| ds_addr := addr; ds_proto := proto; ds_port := port; ds_target := Incus (in_name inst);
       ds_source := FromIncus |}) <$> in_ports inst.

Section json.
Context `{SerdeJson}.

Definition network_addresses (networks : list (string * Value)) : list IpAddr :=
  networks ≫= λ '(iface, net),
    if bool_decide (iface = "lo") then []
    else match as_array (at_key net "addresses") with
         | None => []
         | Some addrs => omap (λ a, as_str (at_key a "address") ≫= parse_ip) addrs
         end.

Definition parse_instance (json : string) : result Instance_ DiscoveryError :=
  match from_str json with
  | None => Err (Parse "json")
  | Some v =>
      match as_str (at_key v "name") with
      | None => Err (Parse "instance missing name")
      | Some name =>
          Ok {| in_name := name;
                in_addresses := default [] (network_addresses <$> as_object (at_key (at_key v "state") "network"));
                in_ports := default [] (parse_ports <$> as_str (at_key (at_key v "config") "user.blackwall.ports")) |}
      end
  end.
End json.
End IncusModel.

(** ** Life cycle events *)

Module IncusEvent.

Inductive InstanceChange : Type := Started | Stopped | Updated.
Record LifecycleEvent := { ev_instance : string; ev_change : InstanceChange }.

Definition change_of (action : string) : option InstanceChange :=
  if bool_decide (action = "instance-started") then Some Started
  else if bool_decide (action = "instance-stopped") || bool_decide (action = "instance-shutdown") then Some Stopped
  else if bool_decide (action = "instance-updated") then Some Updated
  else None.

Definition parse_event `{SerdeJson} (line : string) : result (option LifecycleEvent) DiscoveryError :=
  let line := trim line in
  if bool_decide (line = "") then Ok None
  else
    match from_str line with
    | None => Err (Parse "json")
    | Some v =>
        if negb (bool_decide (as_str (at_key v "type") = Some "lifecycle")) then Ok None
        else
          let action := default "" (as_str (at_key (at_key v "metadata") "action")) in
          match change_of action with
          | None => Ok None
          | Some change =>
              let source := default "" (as_str (at_key (at_key v "metadata") "source")) in
              let instance := default "" (last (split 47 source)) in
              if bool_decide (instance = "") then Err (Parse "lifecycle event missing instance")
              else Ok (Some {| ev_instance := instance; ev_change := change |})
          end
    end.
End IncusEvent.

(** ** The files as the kernel writes them *)

(** [%0kX] *)
Definition hex_char (d : Z) : Z := if d <? 10 then 48 + d else 55 + d.
Fixpoint hex_fixed (k : nat) (n : Z) : list Z :=
  match k with O => [] | S k => hex_fixed k (n / 16) ++ [hex_char (n mod 16)] end.

Fixpoint hex_digits (k : nat) (n : Z) : list Z :=
  match k with O => [] | S k => hex_digits k (n / 16) ++ [n mod 16] end.

Lemma hex_fixed_digits k n : hex_fixed k n = hex_char <$> hex_digits k n.
Proof. revert n. induction k as [|k IH]; intros n; [done|]. cbn. by rewrite IH, fmap_app. Qed.

Lemma length_hex_digits k n : length (hex_digits k n) = k.
Proof. revert n. induction k as [|k IH]; intros n; [done|]. cbn. rewrite length_app, IH. cbn. lia. Qed.

Lemma hex_digits_ok k n : Forall (λ d, 0 ≤ d < 16) (hex_digits k n).
Proof.
  revert n. induction k as [|k IH]; intros n; cbn; [constructor|]. apply Forall_app. split; [apply IH|].
  repeat constructor; apply Z.mod_pos_bound; lia.
Qed.

Lemma hex_digits_value k n : 0 ≤ n < 16 ^ Z.of_nat k → digits_value 16 (hex_digits k n) = n.
Proof.
  revert n. induction k as [|k IH]; intros n Hn; cbn [hex_digits]; [cbn in *; unfold digits_value; cbn; lia|].
  rewrite digits_app_value, IH. { pose proof (Z.div_mod n 16). lia. }
  rewrite Nat2Z.inj_succ, Z.pow_succ_r in Hn by lia. split; [apply Z.div_pos; lia|]. apply Z.div_lt_upper_bound; lia.
Qed.

Lemma to_digit_hex d : 0 ≤ d < 16 → to_digit 16 (hex_char d) = Some d.
Proof.
  intros Hd. assert (Forall (λ d, to_digit 16 (hex_char d) = Some d) (seqZ 0 16)) as Hall by (by apply (bool_decide_unpack _)).
  rewrite Forall_forall in Hall. apply Hall, elem_of_seqZ. lia.
Qed.

Lemma hex_char_range d : 0 ≤ d < 16 → 48 ≤ hex_char d ≤ 57 ∨ 65 ≤ hex_char d ≤ 70.
Proof. unfold hex_char. destruct (Z.ltb_spec d 10); lia. Qed.

Lemma hex_fixed_range k n : Forall (λ b, 48 ≤ b ≤ 57 ∨ 65 ≤ b ≤ 70) (hex_fixed k n).
Proof.
  rewrite hex_fixed_digits. apply Forall_fmap. eapply Forall_impl; [apply hex_digits_ok|]. intros d Hd. by apply hex_char_range.
Qed.

Lemma span_hex ds : Forall (λ d, 0 ≤ d < 16) ds → span_digits 16 (hex_char <$> ds) = (ds, []).
Proof. induction 1 as [|d ds Hd _ IH]; [done|]. cbn. rewrite to_digit_hex by done. by rewrite IH. Qed.

Lemma parse_hex_fixed k n max :
  k ≠ O → 0 ≤ n < 16 ^ Z.of_nat k → n ≤ max → from_str_radix 16 max (hex_fixed k n) = Some n.
Proof.
  intros Hk Hn Hm. unfold from_str_radix. pose proof (hex_fixed_range k n) as Hr.
  assert (match hex_fixed k n with 43 :: l' => l' | _ => hex_fixed k n end = hex_fixed k n) as ->.
  { destruct (hex_fixed k n) as [|b l]; [done|]. apply Forall_cons in Hr as [Hb _].
    assert (b ≠ 43) as Hne by lia. clear -Hne. by repeat case_match. }
  rewrite hex_fixed_digits, (span_hex _ (hex_digits_ok k n)). pose proof (length_hex_digits k n) as Hl.
  pose proof (hex_digits_value k n Hn) as Hv. destruct (hex_digits k n); [done|]. rewrite Hv.
  by rewrite (proj2 (Z.ltb_ge _ _)).
Qed.

Lemma hex_fixed_inj k m n :
  0 ≤ m < 16 ^ Z.of_nat k → 0 ≤ n < 16 ^ Z.of_nat k → hex_fixed k m = hex_fixed k n → m = n.
Proof.
  intros Hm Hn Heq. rewrite !hex_fixed_digits in Heq. pose proof (span_hex _ (hex_digits_ok k m)) as H1.
  rewrite Heq, (span_hex _ (hex_digits_ok k n)) in H1. injection H1 as Hd.
  rewrite <- (hex_digits_value k m Hm), <- (hex_digits_value k n Hn). by rewrite Hd.
Qed.

(** An address: each group of four octets as the number that a little-endian
    host reads there. *)
Fixpoint hex_words (n : nat) (octets : list Z) : list Z :=
  match n with O => [] | S n => hex_fixed 8 (le_value (take 4 octets)) ++ hex_words n (drop 4 octets) end.
Definition kernel_hex (a : IpAddr) : list Z := hex_words (if ip_is_v4 a then 1 else 4) (ip_octets a).

(** A row of a table. *)
Record ProcRow := {
  pr_pad : nat; pr_slot : Z; pr_local : IpAddr; pr_lport : Z; pr_remote : IpAddr; pr_rport : Z; pr_state : Z;
  pr_rest : list Z;
}.
Definition endpoint (a : IpAddr) (port : Z) : list Z := kernel_hex a ++ 58 :: hex_fixed 4 port.
Definition proc_row (r : ProcRow) : list Z :=
  replicate (pr_pad r) 32 ++ (print_uint (pr_slot r) ++ [58]) ++ 32 :: endpoint (pr_local r) (pr_lport r) ++
  32 :: endpoint (pr_remote r) (pr_rport r) ++ 32 :: hex_fixed 2 (pr_state r) ++ pr_rest r.

Definition row_ok (v6 : bool) (r : ProcRow) : Prop :=
  0 ≤ pr_slot r ≤ u32_max ∧ ip_wf (pr_local r) ∧ ip_wf (pr_remote r) ∧
  ip_is_v4 (pr_local r) = negb v6 ∧ ip_is_v4 (pr_remote r) = negb v6 ∧
  0 ≤ pr_lport r ≤ u16_max ∧ 0 ≤ pr_rport r ≤ u16_max ∧ 0 ≤ pr_state r < 256 ∧
  Forall printable (pr_rest r) ∧ (pr_rest r = [] ∨ ∃ l, pr_rest r = 32 :: l).

(** TCP_LISTEN is 10; a UDP socket that is not connected has no remote. *)
Definition listens (proto : L4Proto) (r : ProcRow) : bool :=
  match proto with Tcp => pr_state r =? 10 | Udp => ip_val (pr_remote r) =? 0 end.
Definition socket_of (proto : L4Proto) (r : ProcRow) : ProcNet.ListeningSocket := {|
  ProcNet.ls_addr := pr_local r; ProcNet.ls_proto := proto; ProcNet.ls_port := pr_lport r |}.

Lemma le_value_bound w : bytes_ok w → length w = 4%nat → 0 ≤ le_value w < 16 ^ Z.of_nat 8.
Proof.
  intros Hw Hl. unfold le_value. pose proof (be_value_bound (reverse w)) as Hb. rewrite length_reverse, Hl in Hb.
  apply Hb. by apply Forall_reverse.
Qed.

Lemma to_le_le_value w : bytes_ok w → length w = 4%nat → to_le_bytes 4 (le_value w) = w.
Proof.
  intros Hw Hl. unfold to_le_bytes, le_value. replace 4%nat with (length (reverse w)) by (by rewrite length_reverse).
  rewrite be_bytes_be_value by (by apply Forall_reverse). apply reverse_involutive.
Qed.

Lemma length_hex_fixed k n : length (hex_fixed k n) = k.
Proof. by rewrite hex_fixed_digits, length_fmap, length_hex_digits. Qed.

Lemma hex_words_range n o : Forall (λ b, 48 ≤ b ≤ 57 ∨ 65 ≤ b ≤ 70) (hex_words n o).
Proof.
  revert o. induction n as [|n IH]; intros o; cbn [hex_words]; [constructor|].
  apply Forall_app. split; [apply hex_fixed_range|apply IH].
Qed.

Lemma length_hex_words n o : length (hex_words n o) = (8 * n)%nat.
Proof. revert o. induction n as [|n IH]; intros o; cbn [hex_words]; [done|]. rewrite length_app, length_hex_fixed, IH. lia. Qed.

Lemma hex_bytes l : Forall (λ b, 48 ≤ b ≤ 57 ∨ 65 ≤ b ≤ 70) l → bytes_ok l.
Proof. intros Hl. eapply Forall_impl; [exact Hl|]. unfold byte_ok. lia. Qed.

Lemma parse_words_hex n : ∀ hex o,
  bytes_ok o → length o = (4 * n)%nat → ProcNet.parse_words n hex (hex_words n o) = Ok o.
Proof.
  induction n as [|n IH]; intros hex o Ho Hl; cbn [ProcNet.parse_words hex_words]; [by destruct o|].
  rewrite take_app_length', drop_app_length' by (symmetry; apply length_hex_fixed).
  assert (bytes_ok (take 4 o) ∧ length (take 4 o) = 4%nat) as [Ht Hlt].
  { split; [by apply Forall_take|rewrite length_take; lia]. }
  unfold from_utf8. rewrite valid_utf8_ascii.
  2:{ eapply Forall_impl; [apply hex_fixed_range|]. cbv beta. lia. }
  cbn [mbind option_bind]. rewrite str_bytes_of by (apply hex_bytes, hex_fixed_range).
  pose proof (le_value_bound _ Ht Hlt) as Hb. rewrite parse_hex_fixed; [|done|done|unfold u32_max; lia].
  rewrite IH by (by apply Forall_drop || (rewrite length_drop; lia)). cbn [result_bind].
  by rewrite (to_le_le_value _ Ht Hlt), take_drop.
Qed.

Lemma hex_words_inj n o o' :
  bytes_ok o → bytes_ok o' → length o = (4 * n)%nat → length o' = (4 * n)%nat → hex_words n o = hex_words n o' → o = o'.
Proof.
  intros Ho Ho' Hl Hl' Heq. pose proof (parse_words_hex n [] o Ho Hl) as H1. rewrite Heq, parse_words_hex in H1 by done.
  by injection H1.
Qed.

Lemma ip_octets_ok a : bytes_ok (ip_octets a).
Proof. destruct a; apply be_bytes_ok. Qed.

Lemma parse_ipv4_kernel z : ip_wf (V4 z) → ProcNet.parse_ipv4 (kernel_hex (V4 z)) = Ok z.
Proof.
  intros Hz. unfold ProcNet.parse_ipv4, kernel_hex. cbn [ip_is_v4 hex_words]. rewrite app_nil_r.
  pose proof (ip_octets_ok (V4 z)) as Ho. assert (length (ip_octets (V4 z)) = 4%nat) as Hl by apply length_ip_octets.
  rewrite take_ge by lia. pose proof (le_value_bound _ Ho Hl).
  rewrite parse_hex_fixed; [|done|done|unfold u32_max; lia]. unfold ProcNet.to_be. rewrite to_le_le_value by done.
  by rewrite (ip_octets_val _ Hz).
Qed.

Lemma parse_ipv6_kernel z : ip_wf (V6 z) → ProcNet.parse_ipv6 (kernel_hex (V6 z)) = Ok z.
Proof.
  intros Hz. unfold ProcNet.parse_ipv6, kernel_hex. cbn [ip_is_v4]. rewrite length_hex_words. cbn [negb Nat.mul Nat.add Nat.eqb].
  rewrite parse_words_hex; [|apply ip_octets_ok|apply length_ip_octets]. cbn [result_bind].
  by rewrite (ip_octets_val _ Hz).
Qed.

Lemma kernel_hex_zero a :
  ip_wf a → (ip_val a =? 0) = bool_decide (kernel_hex a = kernel_hex (ip_with a 0)).
Proof.
  intros Ha. destruct (Z.eqb_spec (ip_val a) 0) as [H0|H0]; symmetry; [apply bool_decide_eq_true|apply bool_decide_eq_false].
  - by destruct a; cbn in *; subst.
  - intros Heq. apply H0. unfold kernel_hex in Heq. replace (ip_is_v4 (ip_with a 0)) with (ip_is_v4 a) in Heq by (by destruct a).
    apply hex_words_inj in Heq; [|apply ip_octets_ok..|rewrite length_ip_octets; by destruct a|rewrite length_ip_octets; by destruct a].
    rewrite <- (ip_octets_val _ Ha), Heq, ip_octets_val; [by destruct a|]. destruct a; unfold ip_wf; cbn; lia.
Qed.

Lemma hex_graphic l : Forall (λ b, 48 ≤ b ≤ 57 ∨ 65 ≤ b ≤ 70) l → Forall graphic l.
Proof. intros Hl. eapply Forall_impl; [exact Hl|]. unfold graphic. lia. Qed.

Lemma hex_no_colon l : Forall (λ b, 48 ≤ b ≤ 57 ∨ 65 ≤ b ≤ 70) l → 58 ∉ l.
Proof. rewrite Forall_forall. intros Hl Hin. apply Hl in Hin. lia. Qed.

Lemma endpoint_graphic a port : Forall graphic (endpoint a port).
Proof.
  unfold endpoint. apply Forall_app. split; [apply hex_graphic, hex_words_range|].
  constructor; [unfold graphic; lia|apply hex_graphic, hex_fixed_range].
Qed.

Lemma graphic_printable l : Forall graphic l → Forall printable l.
Proof. intros Hl. eapply Forall_impl; [exact Hl|]. unfold graphic, printable. lia. Qed.

Lemma graphic_bytes l : Forall graphic l → bytes_ok l.
Proof. intros Hl. eapply Forall_impl; [exact Hl|]. unfold graphic, byte_ok. lia. Qed.

Lemma slot_graphic n : 0 ≤ n ≤ u32_max → Forall graphic (print_uint n ++ [58]).
Proof.
  intros Hn. apply Forall_app. split; [|repeat constructor; unfold graphic; lia].
  eapply Forall_impl; [apply print_digits_addr; unfold u32_max in *; lia|]. unfold addr_char, graphic. lia.
Qed.

Ltac printables :=
  repeat match goal with
  | |- Forall printable (_ ++ _) => apply Forall_app; split
  | |- Forall printable (_ :: _) => constructor; [unfold printable; lia|]
  end.

Lemma proc_row_printable v6 r : row_ok v6 r → Forall printable (proc_row r).
Proof.
  intros (Hs & _ & _ & _ & _ & _ & _ & _ & Hr & _). unfold proc_row.
  apply Forall_app; split; [apply Forall_replicate; unfold printable; lia|].
  apply Forall_app; split; [by apply graphic_printable, slot_graphic|]. printables; [..|done].
  - apply graphic_printable, endpoint_graphic.
  - apply graphic_printable, endpoint_graphic.
  - apply graphic_printable, hex_graphic, hex_fixed_range.
Qed.

Lemma space_skipped cs : split_ws [] ([32] :: cs) = split_ws [] cs.
Proof. done. Qed.

Lemma proc_row_words v6 r :
  row_ok v6 r →
  ∃ rest, split_whitespace (chars (proc_row r)) =
    of_bytes (print_uint (pr_slot r) ++ [58]) :: of_bytes (endpoint (pr_local r) (pr_lport r)) ::
    of_bytes (endpoint (pr_remote r) (pr_rport r)) :: of_bytes (hex_fixed 2 (pr_state r)) :: rest.
Proof.
  intros Hok. rewrite (chars_printable _ (proc_row_printable v6 r Hok)).
  destruct Hok as (Hs & _ & _ & _ & _ & _ & _ & _ & _ & Hrest).
  exists ((λ w, of_bytes (concat w)) <$> split_ws [] (wrap (pr_rest r))). unfold split_whitespace, proc_row.
  rewrite !fmap_app, split_ws_spaces. rewrite <- (fmap_app _ (print_uint _)).
  rewrite split_ws_word; [|by destruct (print_uint _)|by apply slot_graphic|right; by eexists].
  rewrite !fmap_cons, space_skipped, !fmap_app, !fmap_cons.
  rewrite split_ws_word; [|unfold endpoint; by destruct (kernel_hex _)|apply endpoint_graphic|right; by eexists].
  rewrite space_skipped, !fmap_app, !fmap_cons.
  rewrite split_ws_word; [|unfold endpoint; by destruct (kernel_hex _)|apply endpoint_graphic|right; by eexists].
  rewrite space_skipped, !fmap_app.
  rewrite split_ws_word; [|by intros ?%(f_equal length); rewrite length_hex_fixed in *|apply hex_graphic, hex_fixed_range|].
  - rewrite !fmap_cons, ?concat_app, !concat_wrap. done.
  - destruct Hrest as [->|[l ->]]; [by left|right; by eexists].
Qed.

Lemma fmap_head {A B} (f : A → B) l : head (f <$> l) = f <$> head l.
Proof. by destruct l. Qed.

Lemma listening_row proto v6 r :
  row_ok v6 r →
  ProcNet.listening proto (of_bytes (endpoint (pr_remote r) (pr_rport r))) (of_bytes (hex_fixed 2 (pr_state r))) = listens proto r.
Proof.
  intros (_ & _ & Hw & _ & _ & _ & _ & Hst & _). destruct proto; cbn [ProcNet.listening listens].
  - unfold eq_ignore_ascii_case. rewrite str_bytes_of by (apply hex_bytes, hex_fixed_range).
    assert (Forall (λ st, bool_decide (lower <$> hex_fixed 2 st = lower <$> str_bytes "0A") = (st =? 10)) (seqZ 0 256)) as Hall
      by (by apply (bool_decide_unpack _)).
    rewrite Forall_forall in Hall. apply Hall, elem_of_seqZ. lia.
  - unfold split. rewrite str_bytes_of by (apply graphic_bytes, endpoint_graphic). unfold endpoint.
    rewrite fmap_head, split_bytes_first by (apply hex_no_colon, hex_words_range). cbn [fmap option_fmap option_map].
    rewrite (kernel_hex_zero _ Hw). pose proof (hex_bytes _ (hex_words_range (if ip_is_v4 (pr_remote r) then 1 else 4) (ip_octets (pr_remote r)))) as Hb.
    fold (kernel_hex (pr_remote r)) in Hb. set (h := kernel_hex (pr_remote r)) in *.
    assert (∀ z, bytes_ok z → bool_decide (Some (of_bytes h) = Some (of_bytes z)) = bool_decide (h = z)) as Heq.
    { intros z Hz. apply bool_decide_ext. split; [|by intros ->]. intros [= He]. rewrite <- (str_bytes_of h), He; [by apply str_bytes_of|done]. }
    change "00000000000000000000000000000000" with (of_bytes (kernel_hex (V6 0))).
    change "00000000" with (of_bytes (kernel_hex (V4 0))).
    rewrite !Heq by (apply hex_bytes, hex_words_range). clear Heq Hb. subst h.
    assert (∀ y z, bool_decide (kernel_hex (V4 y) = kernel_hex (V6 z)) = false ∧ bool_decide (kernel_hex (V6 z) = kernel_hex (V4 y)) = false) as Hne.
    { intros y z. split; apply bool_decide_eq_false_2; intros Hl%(f_equal length); unfold kernel_hex in Hl;
        by rewrite !length_hex_words in Hl. }
    destruct (pr_remote r) as [z|z]; cbn [ip_with]; [rewrite (proj1 (Hne z 0)); by rewrite orb_false_r|].
    by rewrite (proj2 (Hne 0 z)).
Qed.

Lemma parse_line_row proto v6 r :
  row_ok v6 r →
  ProcNet.parse_line proto v6 (proc_row r) = Ok (if listens proto r then Some (socket_of proto r) else None).
Proof.
  intros Hok. unfold ProcNet.parse_line. destruct (proc_row_words v6 r Hok) as [rest ->].
  rewrite (listening_row proto v6 r Hok). destruct (listens proto r); cbn [negb]; [|done].
  destruct Hok as (_ & Hl & _ & Hf & _ & Hp & _). unfold split_once.
  rewrite str_bytes_of by (apply graphic_bytes, endpoint_graphic). unfold endpoint.
  rewrite split_once_bytes_first by (apply hex_no_colon, hex_words_range).
  rewrite !str_bytes_of by (apply hex_bytes; apply hex_words_range || apply hex_fixed_range).
  rewrite parse_hex_fixed by (unfold u16_max in *; cbn; lia). unfold socket_of.
  destruct (pr_local r) as [z|z]; destruct v6; try done.
  - by rewrite parse_ipv4_kernel.
  - by rewrite parse_ipv6_kernel.
Qed.

Lemma parse_rows_spec proto v6 rows :
  Forall (row_ok v6) rows →
  ProcNet.parse_rows proto v6 (proc_row <$> rows) = Ok (socket_of proto <$> filter (λ r, listens proto r = true) rows).
Proof.
  induction 1 as [|r rows Hr _ IH]; [done|]. rewrite fmap_cons. cbn [ProcNet.parse_rows].
  rewrite (parse_line_row proto v6 r Hr), IH. cbn [result_bind].
  destruct (listens proto r) eqn:Hl; [by rewrite filter_cons_True|by rewrite filter_cons_False by congruence].
Qed.

(** C39: the listening sockets of the host are read as the kernel wrote them.
    For any table of [/proc/net], of TCP or UDP, IPv4 or IPv6, with any header
    line and any columns after the state, the parser returns exactly the
    sockets that listen (TCP in the listening state, UDP without a remote
    address), in order, with the address and port they are bound to. *)
Theorem host_sockets_exact proto v6 header rows :
  Forall printable header → Forall (row_ok v6) rows →
  ProcNet.parse_proc_net ((header :: (proc_row <$> rows)) ≫= λ l, l ++ [10]) proto v6 =
  Ok (socket_of proto <$> filter (λ r, listens proto r = true) rows).
Proof.
  intros Hh Hr. unfold ProcNet.parse_proc_net. rewrite lines_printable.
  - cbn [drop]. by apply parse_rows_spec.
  - constructor; [done|]. apply Forall_fmap. eapply Forall_impl; [exact Hr|]. apply proc_row_printable.
Qed.

Definition sample_row (slot state : Z) : ProcRow := {|
  pr_pad := 3; pr_slot := slot; pr_local := ipv4 203 0 113 5; pr_lport := 443;
  pr_remote := ipv4 0 0 0 0; pr_rport := 0; pr_state := state; pr_rest := str_bytes " 00000000:00000000 00:00000000" |}.

Lemma sample_row_ok slot state : 0 ≤ slot ≤ u32_max → 0 ≤ state < 256 → row_ok false (sample_row slot state).
Proof.
  intros Hs Ht. unfold row_ok, u16_max. cbn [pr_slot pr_local pr_lport pr_remote pr_rport pr_state pr_rest sample_row].
  split_and!; try done; try lia.
  - apply (bool_decide_eq_true_1 (Forall (λ b, 32 ≤ b ≤ 126) _)). vm_refl.
  - right. by eexists.
Qed.

(** A listening socket and an established one. *)
Lemma host_sockets_exact_witness :
  of_bytes (proc_row (sample_row 0 10)) = "   0: 057100CB:01BB 00000000:0000 0A 00000000:00000000 00:00000000" ∧
  ProcNet.parse_proc_net ((str_bytes "  sl  local_address rem_address   st" ::
    (proc_row <$> [sample_row 0 10; sample_row 1 1])) ≫= λ l, l ++ [10]) Tcp false =
  Ok [{| ProcNet.ls_addr := ipv4 203 0 113 5; ProcNet.ls_proto := Tcp; ProcNet.ls_port := 443 |}].
Proof.
  split; [vm_refl|].
  apply (host_sockets_exact Tcp false (str_bytes "  sl  local_address rem_address   st") [sample_row 0 10; sample_row 1 1]).
  - apply (bool_decide_eq_true_1 (Forall (λ b, 32 ≤ b ≤ 126) _)). vm_refl.
  - apply Forall_cons. split; [|apply Forall_singleton]; apply sample_row_ok; unfold u32_max; lia.
Defined.
