(* ===== verification/IncusClient.v ===== *)
(** * The client of the container host

    [crates/blackwall-discovery/src/incus_client.rs]: HTTP over a local socket,
    with one request for the instances and one stream of events, and the loop
    of [src/bin/blackwalld/src/main.rs] that reconciles on each event. A
    connection is the bytes that arrive before its end; connecting and writing
    the request may fail. The texts of errors that quote a value are shortened. *)
From stdpp Require Import prelude gmap strings.
From S2P Require Import Prelude Net Float Bytes Core NetText Text Discovery HostScan.

Open Scope Z_scope.
Import IncusModel IncusEvent.

(** Reading from a connection. *)
Definition RD (A : Type) : Type := list Z → result A DiscoveryError * list Z.
#[export] Instance rd_ret : MRet RD := λ A a r, (Ok a, r).
#[export] Instance rd_bind : MBind RD := λ A B k m r,
  match m r with (Ok a, r) => k a r | (Err e, r) => (Err e, r) end.
Definition rd_fail {A} (msg : string) : RD A := λ r, (Err (Parse msg), r).

(** The bytes up to a line feed, with it, and the rest. *)
Fixpoint cut_line (l : list Z) : list Z * list Z :=
  match l with
  | [] => ([], [])
  | b :: l => if b =? 10 then ([b], l) else let '(x, y) := cut_line l in (b :: x, y)
  end.

(** [read_line], [read_exact] and [read_to_end]. *)
Definition read_line : RD string := λ r,
  let '(line, r) := cut_line r in
  match from_utf8 line with Some s => (Ok s, r) | None => (Err DIo, r) end.
Definition read_exact (n : Z) : RD (list Z) := λ r,
  if Z.of_nat (length r) <? n then (Err DIo, []) else (Ok (take (Z.to_nat n) r), drop (Z.to_nat n) r).
Definition read_to_end : RD (list Z) := λ r, (Ok r, []).

(** ** Chunked bodies *)

Definition MAX_CHUNK_SIZE : Z := 4 * 1024 * 1024.

(** [trim_end_matches] of a carriage return and a line feed. *)
Fixpoint strip_crlf (rev : list Z) : list Z :=
  match rev with 10 :: 13 :: rev' => strip_crlf rev' | _ => rev end.
Definition trim_crlf (s : string) : string := of_bytes (reverse (strip_crlf (reverse (str_bytes s)))).

(** The size of a chunk, without its extensions. *)
Definition size_text (line : string) : string :=
  trim (default "" (head (split 59 (trim (trim_end_matches 10 (trim_crlf line)))))).

Definition chunk_size (hex : string) : RD Z :=
  match from_str_radix 16 u64_max (str_bytes hex) with
  | None => rd_fail "invalid chunk size"
  | Some size => if MAX_CHUNK_SIZE <? size then rd_fail "chunk size exceeds limit" else mret size
  end.

(** Every turn reads a line at least. *)
Fixpoint read_chunked_body (fuel : nat) (body : list Z) : RD (list Z) :=
  match fuel with
  | O => rd_fail "fuel"
  | S fuel =>
      size_line ← read_line;
      size ← chunk_size (size_text size_line);
      if size =? 0 then _tail ← read_line; mret body
      else
        chunk ← read_exact size;
        _crlf ← read_line;
        read_chunked_body fuel (body ++ chunk)
  end.

Definition read_next_chunk : RD (option (list Z)) :=
  size_line ← read_line;
  if bool_decide (size_line = "") then mret None
  else
    let hex := size_text size_line in
    if bool_decide (hex = "") then mret None
    else
      size ← chunk_size hex;
      if size =? 0 then _tail ← read_line; mret None
      else
        chunk ← read_exact size;
        _crlf ← read_line;
        mret (Some chunk).

Fixpoint contains_bytes (l p : list Z) : bool :=
  (if strip_prefix_bytes p l is Some _ then true else false) ||
  match l with [] => false | _ :: l => contains_bytes l p end.

Definition is_chunked (headers : list string) : bool :=
  existsb (λ h, let lower := to_ascii_lowercase h in
                starts_with "transfer-encoding:" lower && contains_bytes (str_bytes lower) (str_bytes "chunked")) headers.

(** ** Requests *)

Definition crlf_text : string := of_bytes [13; 10].

(** The header lines, up to the empty one or the end. *)
Fixpoint read_headers (fuel : nat) (headers : list string) : RD (list string) :=
  match fuel with
  | O => rd_fail "fuel"
  | S fuel =>
      line ← read_line;
      if bool_decide (line = crlf_text) || bool_decide (line = "") then mret headers
      else read_headers fuel (headers ++ [line])
  end.

(** [conn]: the answer, unless connecting or writing fails. *)
Definition http_get_body (conn : option (list Z)) : result string DiscoveryError :=
  match conn with
  | None => Err DIo
  | Some r =>
      match (headers ← read_headers (S (length r)) [];
             if is_chunked headers then read_chunked_body (S (length r)) [] else read_to_end) r with
      | (Ok bytes, _) => match from_utf8 bytes with Some s => Ok s | None => Err (Parse "response is not valid UTF-8") end
      | (Err e, _) => Err e
      end
  end.

Section client.
Context `{SerdeJson} (to_string : Value → string).

Fixpoint parse_instances (items : list Value) : result (list Instance_) DiscoveryError :=
  match items with
  | [] => Ok []
  | item :: items =>
      result_bind (parse_instance (to_string item)) (λ i,
      result_bind (parse_instances items) (λ l, Ok (i :: l)))
  end.

Definition list_instances (conn : option (list Z)) : result (list Instance_) DiscoveryError :=
  result_bind (http_get_body conn) (λ body,
  match from_str body with
  | None => Err (Parse "json")
  | Some v =>
      match as_array (at_key v "metadata") with
      | None => Err (Parse "instances response missing metadata array")
      | Some items => parse_instances items
      end
  end).

(** ** Events *)

Record UnixIncusClient := {
  event_reader : option (list Z);
  event_chunked : bool;
  event_buf : list Z;
}.

Definition set_reader (r : list Z) (c : UnixIncusClient) : UnixIncusClient := {|
  event_reader := Some r; event_chunked := event_chunked c; event_buf := event_buf c |}.
Definition set_buf (buf : list Z) (c : UnixIncusClient) : UnixIncusClient := {|
  event_reader := event_reader c; event_chunked := event_chunked c; event_buf := buf |}.

(** [connect]: no stream is open yet. *)
Definition client_new : UnixIncusClient := {| event_reader := None; event_chunked := false; event_buf := [] |}.

Definition open_stream (conn : option (list Z)) : M UnixIncusClient (result () DiscoveryError) := λ c,
  match event_reader c with
  | Some _ => (Ok (), c)
  | None =>
      match conn with
      | None => (Err DIo, c)
      | Some r =>
          match read_headers (S (length r)) [] r with
          | (Err e, _) => (Err e, c)
          | (Ok headers, r) =>
              (Ok (), {| event_reader := Some r; event_chunked := is_chunked headers; event_buf := event_buf c |})
          end
      end
  end.

(** The loop; every turn takes a byte from the buffer or from the connection
    at least, or answers. *)
Fixpoint event_loop (fuel : nat) (r : list Z) (c : UnixIncusClient) : result (option LifecycleEvent) DiscoveryError * UnixIncusClient :=
  match fuel with
  | O => (Err (Parse "fuel"), set_reader r c)
  | S fuel =>
      if bool_decide (10 ∈ event_buf c) then
        let '(line_bytes, rest) := cut_line (event_buf c) in
        let c := set_buf rest c in
        match from_utf8 line_bytes with
        | None => (Err (Parse "event not valid UTF-8"), set_reader r c)
        | Some line =>
            let trimmed := trim line in
            if bool_decide (trimmed = "") then event_loop fuel r c
            else (parse_event trimmed, set_reader r c)
        end
      else if event_chunked c then
        match read_next_chunk r with
        | (Err e, r) => (Err e, set_reader r c)
        | (Ok None, r) => (Ok None, set_reader r c)
        | (Ok (Some chunk), r) => event_loop fuel r (set_buf (event_buf c ++ chunk) c)
        end
      else
        match read_line r with
        | (Err e, r) => (Err e, set_reader r c)
        | (Ok line, r) =>
            if bool_decide (line = "") then (Ok None, set_reader r c)
            else
              let trimmed := trim line in
              if bool_decide (trimmed = "") then event_loop fuel r c
              else (parse_event trimmed, set_reader r c)
        end
  end.

(** [conn]: the new connection, when there is no stream yet. *)
Definition next_event (conn : option (list Z)) : M UnixIncusClient (result (option LifecycleEvent) DiscoveryError) := λ c,
  match open_stream conn c with
  | (Err e, c) => (Err e, c)
  | (Ok _, c) =>
      match event_reader c with
      | None => (Err (Parse "event reader missing"), c)
      | Some r => event_loop (S (length (event_buf c) + length r)) r c
      end
  end.

(** ** The loop of the daemon *)

(** [reconcile_now] is [build_discovered] and [apply_effective], whose errors
    are logged; the loop ends with the stream, or after [fuel] answers. *)
Section drain.
Context {S : Type} (reconcile_now : M S unit).

Fixpoint drain_incus_events (fuel : nat) (conn : option (list Z)) (c : UnixIncusClient) : M S UnixIncusClient :=
  match fuel with
  | O => mret c
  | Datatypes.S fuel =>
      match next_event conn c with
      | (Ok (Some _), c) => reconcile_now;; drain_incus_events fuel conn c
      | (Ok None, c) => mret c
      | (Err (Parse _), c) => drain_incus_events fuel conn c
      | (Err DIo, c) => mret c
      end
  end.
End drain.
End client.

(** ** Chunks as a server writes them *)

Definition encode_chunk (chunk : list Z) : list Z :=
  print_hex (Z.of_nat (length chunk)) ++ [13; 10] ++ chunk ++ [13; 10].
Definition last_chunk : list Z := [48; 13; 10; 13; 10].
Definition stream (cs : list (list Z)) : list Z := (cs ≫= encode_chunk) ++ last_chunk.

Definition chunk_ok (chunk : list Z) : Prop := chunk ≠ [] ∧ Z.of_nat (length chunk) ≤ MAX_CHUNK_SIZE.

Lemma cut_line_first l r : 10 ∉ l → cut_line (l ++ 10 :: r) = (l ++ [10], r).
Proof.
  induction l as [|b l IH]; cbn; [done|]. rewrite not_elem_of_cons. intros [Hb Hl].
  rewrite (proj2 (Z.eqb_neq b 10)) by congruence. by rewrite IH.
Qed.

Lemma hex_text n : 0 ≤ n < 16 ^ 32 → Forall addr_char (print_hex n) ∧ print_hex n ≠ [] ∧ 59 ∉ print_hex n.
Proof.
  intros Hn. assert (∀ d, 0 ≤ d < 16 → digit_char d ≠ 59) as Hd by (unfold digit_char; intros d Hd; destruct (Z.ltb_spec d 10); lia).
  destruct (digits_spec 16 32 n) as (_ & Hf & Hne); [lia..|]. split_and!.
  - apply print_digits_addr; lia.
  - unfold print_hex. intros He%fmap_nil_inv. by apply Hne.
  - unfold print_hex. intros (d & He & Hin)%list_elem_of_fmap. rewrite Forall_forall in Hf. apply Hf, Hd in Hin. congruence.
Qed.

Lemma parse_print_hex n : 0 ≤ n ≤ u64_max → from_str_radix 16 u64_max (print_hex n) = Some n.
Proof.
  intros Hn. unfold u64_max in *. destruct (hex_text n) as (Hc & Hne & _); [lia|]. unfold from_str_radix.
  assert (match print_hex n with 43 :: l' => l' | _ => print_hex n end = print_hex n) as ->.
  { destruct (print_hex n) as [|b l]; [done|]. apply Forall_cons in Hc as [Hb _]. unfold addr_char in Hb.
    assert (b ≠ 43) as Hb' by lia. clear -Hb'. by repeat case_match. }
  destruct (digits_spec 16 32 n) as (Hv & Hf & Hd); [lia..|]. unfold print_hex in *.
  rewrite <- (app_nil_r (digit_char <$> _)), span_digits_print by (done || lia).
  destruct (digits 16 32 n) as [|d ds]; [by destruct Hd|]. rewrite Hv. by rewrite (proj2 (Z.ltb_ge _ _)) by lia.
Qed.

Lemma read_line_ascii l r :
  Forall (λ b, 0 ≤ b < 128) l → 10 ∉ l → read_line (l ++ 10 :: r) = (Ok (of_bytes (l ++ [10])), r).
Proof.
  intros Hl Hn. unfold read_line. rewrite cut_line_first by done. unfold from_utf8. rewrite valid_utf8_ascii; [done|].
  apply Forall_app. split; [done|]. repeat constructor; lia.
Qed.

Lemma trim_end_graphic l : Forall graphic l → trim_end (wrap l) = wrap l.
Proof.
  induction 1 as [|b l Hb _ IH]; [done|]. rewrite fmap_cons. cbn [trim_end]. rewrite IH.
  destruct l; [|done]. cbn [fmap list_fmap]. by rewrite (graphic_not_space b Hb).
Qed.

Lemma trim_graphic l : Forall graphic l → trim (of_bytes l) = of_bytes l.
Proof.
  intros Hl. unfold trim. rewrite str_bytes_of by (by apply graphic_bytes).
  rewrite chars_printable by (by apply graphic_printable).
  assert (trim_start (wrap l) = wrap l) as ->.
  { destruct Hl as [|b l Hb _]; [done|]. cbn [fmap list_fmap trim_start]. by rewrite (graphic_not_space b Hb). }
  by rewrite (trim_end_graphic l Hl), concat_wrap.
Qed.

Lemma split_bytes_none sep l : sep ∉ l → split_bytes sep l = [l].
Proof.
  induction l as [|b l IH]; [done|]. rewrite not_elem_of_cons. intros [Hb Hl]. cbn.
  rewrite (proj2 (Z.eqb_neq b sep)) by congruence. by rewrite IH.
Qed.

Lemma addr_graphic l : Forall addr_char l → Forall graphic l.
Proof. intros Hl. eapply Forall_impl; [exact Hl|]. unfold addr_char, graphic. lia. Qed.

(** The last byte of a text is not a line feed. *)
Lemma strip_crlf_graphic l : Forall graphic l → strip_crlf l = l ∧ drop_matches 10 l = l.
Proof.
  intros Hl. destruct l as [|b l]; [done|]. apply Forall_cons in Hl as [Hb _]. unfold graphic in Hb.
  assert (b ≠ 10) as Hb' by lia. split.
  - clear -Hb'. cbn. by repeat case_match.
  - cbn. by rewrite (proj2 (Z.eqb_neq b 10)).
Qed.

Lemma size_text_print l : Forall graphic l → 59 ∉ l → size_text (of_bytes (l ++ [13; 10])) = of_bytes l.
Proof.
  intros Hl Hs. pose proof (graphic_bytes l Hl) as Hb. assert (Forall graphic (reverse l)) as Hr by (by apply Forall_reverse).
  destruct (strip_crlf_graphic _ Hr) as [H1 H2]. unfold size_text, trim_crlf.
  rewrite str_bytes_of by (apply Forall_app; split; [done|]; repeat constructor; unfold byte_ok; lia).
  rewrite reverse_app. change (reverse [13; 10]) with [10; 13]. cbn [app strip_crlf]. rewrite H1, reverse_involutive.
  unfold trim_end_matches. rewrite str_bytes_of by done. rewrite H2, reverse_involutive, trim_graphic by done.
  unfold split. rewrite str_bytes_of, split_bytes_none by done. cbn. by apply trim_graphic.
Qed.

Lemma chunk_header n r :
  0 ≤ n ≤ MAX_CHUNK_SIZE →
  ∃ line, read_line (print_hex n ++ 13 :: 10 :: r) = (Ok line, r) ∧ line ≠ "" ∧ size_text line ≠ "" ∧
    ∀ r, chunk_size (size_text line) r = (Ok n, r).
Proof.
  unfold MAX_CHUNK_SIZE. intros Hn. destruct (hex_text n) as (Hc & Hne & Hs); [lia|]. pose proof (addr_graphic _ Hc) as Hg.
  exists (of_bytes (print_hex n ++ [13; 10])). split_and!.
  - change (13 :: 10 :: r) with ([13] ++ 10 :: r). rewrite app_assoc, read_line_ascii.
    + by rewrite <- app_assoc.
    + apply Forall_app. split; [eapply Forall_impl; [exact Hg|]; unfold graphic; lia|]. repeat constructor; lia.
    + rewrite elem_of_app, list_elem_of_singleton. intros [Hin|?]; [|done]. rewrite Forall_forall in Hg.
      apply Hg in Hin. unfold graphic in Hin. lia.
  - by destruct (print_hex n).
  - rewrite size_text_print by done. by destruct (print_hex n).
  - intros r'. rewrite size_text_print by done. unfold chunk_size. rewrite str_bytes_of by (by apply graphic_bytes).
    rewrite parse_print_hex by (unfold u64_max; lia). unfold MAX_CHUNK_SIZE. by rewrite (proj2 (Z.ltb_ge _ _)) by lia.
Qed.

Lemma read_crlf r : read_line (13 :: 10 :: r) = (Ok crlf_text, r).
Proof. apply (read_line_ascii [13]); [repeat constructor; lia|set_solver]. Qed.

Lemma read_exact_app l r : read_exact (Z.of_nat (length l)) (l ++ r) = (Ok l, r).
Proof.
  unfold read_exact. rewrite length_app, (proj2 (Z.ltb_ge _ _)) by lia. rewrite Nat2Z.id.
  by rewrite take_app_length, drop_app_length.
Qed.

Lemma next_chunk c r : chunk_ok c → read_next_chunk (encode_chunk c ++ r) = (Ok (Some c), r).
Proof.
  intros [Hne Hc]. unfold encode_chunk. rewrite <- !app_assoc. cbn [app].
  destruct (chunk_header (Z.of_nat (length c)) (c ++ 13 :: 10 :: r)) as (line & Hl & H1 & H2 & Hs); [lia|].
  unfold read_next_chunk. unfold mbind, rd_bind. rewrite Hl, bool_decide_eq_false_2, bool_decide_eq_false_2 by done.
  unfold mbind, rd_bind. rewrite Hs. rewrite (proj2 (Z.eqb_neq _ 0)) by (destruct c; [done|cbn; lia]).
  by rewrite read_exact_app, read_crlf.
Qed.

Lemma next_chunk_last : read_next_chunk last_chunk = (Ok None, []).
Proof. vm_refl. Qed.

Lemma body_step fuel c body r :
  chunk_ok c → read_chunked_body (S fuel) body (encode_chunk c ++ r) = read_chunked_body fuel (body ++ c) r.
Proof.
  intros [Hne Hc]. unfold encode_chunk. rewrite <- !app_assoc. cbn [app].
  destruct (chunk_header (Z.of_nat (length c)) (c ++ 13 :: 10 :: r)) as (line & Hl & H1 & H2 & Hs); [lia|].
  cbn [read_chunked_body]. unfold mbind, rd_bind. rewrite Hl, Hs.
  rewrite (proj2 (Z.eqb_neq _ 0)) by (destruct c; [done|cbn; lia]). by rewrite read_exact_app, read_crlf.
Qed.

Lemma body_last fuel body r : read_chunked_body (S fuel) body (last_chunk ++ r) = (Ok body, r).
Proof.
  change (last_chunk ++ r) with (print_hex 0 ++ 13 :: 10 :: (13 :: 10 :: r)).
  destruct (chunk_header 0 (13 :: 10 :: r)) as (line & Hl & _ & _ & Hs); [unfold MAX_CHUNK_SIZE; lia|].
  cbn [read_chunked_body]. unfold mbind, rd_bind. rewrite Hl, Hs. cbn [Z.eqb]. by rewrite read_crlf.
Qed.

Lemma body_stream cs r : ∀ fuel body,
  Forall chunk_ok cs → (length cs < fuel)%nat → read_chunked_body fuel body (stream cs ++ r) = (Ok (body ++ concat cs), r).
Proof.
  unfold stream. induction cs as [|c cs IH]; intros fuel body Hcs Hf; destruct fuel as [|fuel]; try (cbn in Hf; lia).
  - rewrite app_nil_r. apply body_last.
  - apply Forall_cons in Hcs as [Hc Hcs]. rewrite bind_cons, <- !app_assoc, body_step by done.
    cbn [length] in Hf. rewrite app_assoc, IH by (done || lia). by rewrite <- app_assoc.
Qed.

Lemma stream_length cs r : (length cs ≤ length (stream cs ++ r))%nat.
Proof.
  unfold stream. rewrite !length_app. cut (length cs ≤ length (cs ≫= encode_chunk))%nat; [lia|].
  induction cs as [|c cs IH]; [done|]. rewrite bind_cons, length_app. unfold encode_chunk at 1.
  rewrite !length_app. cbn [length]. lia.
Qed.

(** The head of an answer: its lines, then an empty one. *)
Definition header_ok (h : list Z) : Prop := h ≠ [] ∧ Forall printable h.
Definition with_crlf (h : list Z) : list Z := h ++ [13; 10].
Definition header_line (h : list Z) : string := of_bytes (with_crlf h).
Definition head_of (hs : list (list Z)) : list Z := (hs ≫= with_crlf) ++ [13; 10].

Lemma header_line_ok h : header_ok h → header_line h ≠ crlf_text ∧ header_line h ≠ "" ∧
  ∀ r, read_line (h ++ 13 :: 10 :: r) = (Ok (header_line h), r).
Proof.
  intros [Hne Hp]. assert (bytes_ok (h ++ [13; 10])) as Hb.
  { apply Forall_app. split; [eapply Forall_impl; [exact Hp|]; unfold printable, byte_ok; lia|].
    repeat constructor; unfold byte_ok; lia. }
  unfold header_line, with_crlf. split_and!.
  - intros He%(f_equal str_bytes). rewrite str_bytes_of in He by done. unfold crlf_text in He.
    rewrite str_bytes_of in He by (repeat constructor; unfold byte_ok; lia). destruct h as [|b [|b' h]]; [done..|].
    by apply (f_equal length) in He; cbn in He; rewrite length_app in He; cbn in He; lia.
  - by destruct h.
  - intros r. change (13 :: 10 :: r) with ([13] ++ 10 :: r). rewrite app_assoc, read_line_ascii.
    + by rewrite <- app_assoc.
    + apply Forall_app. split; [eapply Forall_impl; [exact Hp|]; unfold printable; lia|]. repeat constructor; lia.
    + rewrite elem_of_app, list_elem_of_singleton. intros [Hin|?]; [|done]. rewrite Forall_forall in Hp.
      apply Hp in Hin. unfold printable in Hin. lia.
Qed.

Lemma read_head hs r : ∀ fuel acc,
  Forall header_ok hs → (length hs < fuel)%nat → read_headers fuel acc (head_of hs ++ r) = (Ok (acc ++ (header_line <$> hs)), r).
Proof.
  unfold head_of. induction hs as [|h hs IH]; intros fuel acc Hhs Hf; destruct fuel as [|fuel]; try (cbn in Hf; lia).
  - cbn [mbind list_bind app read_headers]. unfold mbind, rd_bind. rewrite read_crlf. by rewrite app_nil_r.
  - apply Forall_cons in Hhs as [Hh Hhs]. destruct (header_line_ok h Hh) as (H1 & H2 & Hr).
    rewrite bind_cons. unfold with_crlf at 1. rewrite <- !app_assoc. cbn [app read_headers]. unfold mbind at 1, rd_bind. rewrite Hr.
    rewrite !bool_decide_eq_false_2 by done. cbn [orb length] in *. change (13 :: 10 :: r) with ([13; 10] ++ r).
    rewrite app_assoc, IH by (done || lia). by rewrite <- app_assoc.
Qed.

Lemma head_length hs r : (length hs ≤ length (head_of hs ++ r))%nat.
Proof.
  unfold head_of. rewrite !length_app. cut (length hs ≤ length (hs ≫= with_crlf))%nat; [lia|].
  induction hs as [|h hs IH]; [done|]. rewrite bind_cons, length_app. unfold with_crlf at 1. rewrite length_app. cbn [length]. lia.
Qed.

(** The answer of the container host is read as it was sent. Whatever the
    headers, a body that the server cuts into chunks of at most 4 MiB is put
    together again, a body without chunks is read to its end, and what
    follows the last chunk is ignored. *)
Theorem incus_response_decoded hs cs body after :
  Forall header_ok hs →
  let decoded l := match from_utf8 l with Some s => Ok s | None => Err (Parse "response is not valid UTF-8") end in
  (is_chunked (header_line <$> hs) = true → Forall chunk_ok cs →
   http_get_body (Some (head_of hs ++ stream cs ++ after)) = decoded (concat cs)) ∧
  (is_chunked (header_line <$> hs) = false → http_get_body (Some (head_of hs ++ body)) = decoded body).
Proof.
  intros Hhs decoded. unfold http_get_body. split.
  - intros Hc Hcs. unfold mbind, rd_bind. rewrite read_head; [|done|pose proof (head_length hs (stream cs ++ after)); lia].
    cbn [app]. rewrite Hc, body_stream; [done|done|]. pose proof (stream_length cs after). rewrite length_app. lia.
  - intros Hc. unfold mbind, rd_bind. rewrite read_head; [|done|pose proof (head_length hs body); lia].
    cbn [app]. by rewrite Hc.
Qed.

(** ** The events of a stream *)

Section events.
Context `{SerdeJson}.

(** What the client answers to a line; blank lines are skipped. *)
Definition answer (l : list Z) : option (result (option LifecycleEvent) DiscoveryError) :=
  match from_utf8 (l ++ [10]) with
  | None => Some (Err (Parse "event not valid UTF-8"))
  | Some s => if bool_decide (trim s = "") then None else Some (parse_event (trim s))
  end.

Definition unlines (ls : list (list Z)) : list Z := ls ≫= λ l, l ++ [10].

(** The client is at [ls]: part of it is buffered, the rest is in [cs]. *)
Definition at_lines (c : UnixIncusClient) (r : list Z) (ls cs : list (list Z)) : Prop :=
  event_chunked c = true ∧ r = stream cs ∧ Forall chunk_ok cs ∧ Forall (λ l, 10 ∉ l) ls ∧
  event_buf c ++ concat cs = unlines ls.

(** The lines after the first one that is not blank, which is answered. *)
Fixpoint next_answer (ls : list (list Z)) : option (result (option LifecycleEvent) DiscoveryError * list (list Z)) :=
  match ls with
  | [] => None
  | l :: ls => match answer l with Some a => Some (a, ls) | None => next_answer ls end
  end.

Lemma unlines_empty ls : unlines ls = [] → ls = [].
Proof. destruct ls as [|l ls]; [done|]. unfold unlines. rewrite bind_cons. by destruct l. Qed.

(** A buffer with a line feed has the first line. *)
Lemma buffered_line buf tl ls :
  10 ∈ buf → Forall (λ l, 10 ∉ l) ls → buf ++ tl = unlines ls →
  ∃ l ls' rest, ls = l :: ls' ∧ cut_line buf = (l ++ [10], rest) ∧ rest ++ tl = unlines ls' ∧ (length rest < length buf)%nat.
Proof.
  intros Hin Hls He. destruct ls as [|l ls].
  { destruct buf; [by apply elem_of_nil in Hin|done]. }
  apply Forall_cons in Hls as [Hl _]. unfold unlines in He. rewrite bind_cons, <- app_assoc in He. cbn [app] in He.
  assert (∃ b1 b2, buf = b1 ++ 10 :: b2 ∧ 10 ∉ b1) as (b1 & b2 & -> & Hb1).
  { clear -Hin. induction buf as [|b buf IH]; [by apply elem_of_nil in Hin|]. destruct (decide (b = 10)) as [->|Hne].
    - exists [], buf. split; [done|]. by intros ?%elem_of_nil.
    - apply elem_of_cons in Hin as [?|Hin]; [done|]. destruct (IH Hin) as (b1 & b2 & -> & Hb1).
      exists (b :: b1), b2. split; [done|]. rewrite not_elem_of_cons. split; [congruence|done]. }
  rewrite <- app_assoc in He. cbn [app] in He.
  pose proof (cut_line_first b1 (b2 ++ tl) Hb1) as H1. rewrite He, cut_line_first in H1 by done.
  injection H1 as Heq Htl. apply (inj (.++ [10])) in Heq as <-.
  exists l, ls, b2. rewrite cut_line_first by done. split_and!; try done. rewrite length_app. cbn [length]. lia.
Qed.

Lemma event_loop_spec fuel : ∀ c r ls cs,
  at_lines c r ls cs → (length (event_buf c) + length r < fuel)%nat →
  match next_answer ls with
  | None => ∃ c', event_loop fuel r c = (Ok None, c')
  | Some (a, ls') => ∃ c' r' cs', event_loop fuel r c = (a, c') ∧ event_reader c' = Some r' ∧ at_lines c' r' ls' cs'
  end.
Proof.
  induction fuel as [|fuel IH]; intros c r ls cs (Hch & -> & Hcs & Hls & He) Hf; [lia|]. cbn [event_loop].
  destruct (bool_decide_reflect (10 ∈ event_buf c)) as [Hin|Hno].
  - destruct (buffered_line _ _ _ Hin Hls He) as (l & ls' & rest & -> & -> & Hr & Hlen).
    apply Forall_cons in Hls as [_ Hls]. cbn [next_answer]. unfold answer.
    destruct (from_utf8 (l ++ [10])) as [s|]; [|by repeat eexists]. destruct (bool_decide (trim s = "")); [|by repeat eexists].
    apply (IH (set_buf rest c) (stream cs) ls' cs); [done|]. cbn [event_buf set_buf]. lia.
  - rewrite Hch. destruct cs as [|ch cs].
    + rewrite app_nil_r in He. assert (ls = []) as ->.
      { destruct ls as [|l ls]; [done|]. destruct Hno. rewrite He. unfold unlines. rewrite bind_cons. set_solver. }
      change (stream []) with last_chunk. rewrite next_chunk_last. by eexists.
    + apply Forall_cons in Hcs as [Hc Hcs]. assert (read_next_chunk (stream (ch :: cs)) = (Ok (Some ch), stream cs)) as ->.
      { unfold stream at 1. by rewrite bind_cons, <- app_assoc, next_chunk. }
      apply (IH (set_buf (event_buf c ++ ch) c) (stream cs) ls cs).
      * split_and!; try done. cbn [event_buf set_buf]. by rewrite <- app_assoc.
      * cbn [event_buf set_buf]. unfold stream in Hf. rewrite bind_cons, !length_app in Hf. unfold encode_chunk at 1 in Hf.
        rewrite !length_app in Hf. unfold stream. rewrite !length_app. cbn [length] in *. lia.
Qed.

(** How often the daemon reconciles on the lines of a stream. *)
Fixpoint heard (ls : list (list Z)) : nat :=
  match ls with
  | [] => 0
  | l :: ls =>
      match answer l with
      | Some (Ok (Some _)) => S (heard ls)
      | Some (Ok None) | Some (Err DIo) => 0
      | Some (Err (Parse _)) | None => heard ls
      end
  end.

Lemma heard_next ls :
  match next_answer ls with
  | None => heard ls = 0%nat
  | Some (a, ls') => (length ls' < length ls)%nat ∧
      heard ls = match a with
                 | Ok (Some _) => S (heard ls')
                 | Ok None | Err DIo => 0%nat
                 | Err (Parse _) => heard ls'
                 end
  end.
Proof.
  induction ls as [|l ls IH]; [done|]. cbn [next_answer heard]. destruct (answer l) as [a|].
  - split; [cbn; lia|]. by destruct a as [[]|[]].
  - destruct (next_answer ls) as [[a ls']|]; [|done]. destruct IH as [Hl ->]. split; [cbn; lia|done].
Qed.

Context {S : Type} (reconcile_now : M S unit).

Lemma drain_heard fuel conn : ∀ c r ls cs s,
  event_reader c = Some r → at_lines c r ls cs → (length ls < fuel)%nat →
  exec (drain_incus_events reconcile_now fuel conn c) s = Nat.iter (heard ls) (exec reconcile_now) s.
Proof.
  induction fuel as [|fuel IH]; intros c r ls cs s Hr Hat Hf; [lia|]. cbn [drain_incus_events].
  unfold next_event, open_stream. rewrite Hr. cbv beta iota. rewrite Hr.
  pose proof (event_loop_spec (Datatypes.S (length (event_buf c) + length r)) c r ls cs Hat ltac:(lia)) as He.
  pose proof (heard_next ls) as Hh. destruct (next_answer ls) as [[a ls']|].
  - destruct He as (c' & r' & cs' & -> & Hr' & Hat'). destruct Hh as [Hl ->].
    destruct a as [[ev|]|[msg|]]; [|done| |done].
    + rewrite exec_bind, (IH c' r' ls' cs') by (done || lia). by rewrite Nat.iter_succ_r.
    + apply (IH c' r' ls' cs'); [done..|lia].
  - destruct He as [c' ->]. by rewrite Hh.
Qed.

Definition relevant (l : list Z) : Prop := ∃ ev, answer l = Some (Ok (Some ev)).
#[local] Instance relevant_dec l : Decision (relevant l).
Proof.
  destruct (answer l) as [[[ev|]|]|] eqn:Ha; [left; by exists ev|right; unfold relevant; naive_solver..].
Defined.

Lemma heard_all ls :
  Forall (λ l, answer l ≠ Some (Ok None)) ls → heard ls = length (filter relevant ls).
Proof.
  induction 1 as [|l ls Hl _ IH]; [done|]. cbn [heard].
  assert (answer l ≠ Some (Err DIo)) as Hio.
  { unfold answer, parse_event. repeat case_match; congruence. }
  destruct (answer l) as [[[ev|]|[msg|]]|] eqn:Ha; try done.
  - rewrite filter_cons_True by (by exists ev). cbn [length]. by rewrite IH.
  - rewrite filter_cons_False; [done|]. unfold relevant. naive_solver.
  - rewrite filter_cons_False; [done|]. unfold relevant. naive_solver.
Qed.

Lemma heard_ended ls l rest :
  Forall (λ l, answer l ≠ Some (Ok None)) ls → answer l = Some (Ok None) → heard (ls ++ l :: rest) = heard ls.
Proof.
  intros Hls Hl. induction Hls as [|x ls Hx _ IH]; cbn [app heard]; [by rewrite Hl|]. by rewrite IH.
Qed.

End events.

(** ** A concrete library and stream *)

Module RefJson.
Inductive J : Type := JNull | JStr (s : string) | JArr (l : list J) | JObj (l : list (string * J)).

Definition key (v : J) (k : string) : J :=
  match v with
  | JObj l => match List.find (λ e, bool_decide (e.1 = k)) l with Some e => e.2 | None => JNull end
  | _ => JNull
  end.

Definition event (action source : string) : J :=
  JObj [("type", JStr "lifecycle"); ("metadata", JObj [("action", JStr action); ("source", JStr source)])].

(** Two texts, each with its tree. *)
Definition text (s : string) : option J :=
  if bool_decide (s = "{started}") then Some (event "instance-started" "/1.0/instances/web")
  else if bool_decide (s = "{image}") then Some (event "image-created" "/1.0/images/debian")
  else None.

#[export] Instance lib : SerdeJson := {|
  Value := J; from_str := text; at_key := key;
  as_str v := match v with JStr s => Some s | _ => None end;
  as_object v := match v with JObj l => Some l | _ => None end;
  as_array v := match v with JArr l => Some l | _ => None end |}.
End RefJson.

Section examples.
#[local] Existing Instance RefJson.lib.

Definition ex_headers : list (list Z) := [str_bytes "HTTP/1.1 200 OK"; str_bytes "Transfer-Encoding: chunked"].
Definition ex_lines : list (list Z) := str_bytes <$> ["{started}"; "junk"; "{started}"; "{image}"; "{started}"].
Definition ex_chunks : list (list Z) := [take 7 (unlines ex_lines); drop 7 (unlines ex_lines)].

Lemma ex_headers_ok : Forall header_ok ex_headers.
Proof.
  apply Forall_cons; split; [|apply Forall_singleton]; (split; [done|]);
    apply (bool_decide_eq_true_1 (Forall (λ b, 32 ≤ b ≤ 126) _)); vm_refl.
Qed.

Lemma ex_chunks_ok : Forall chunk_ok ex_chunks.
Proof. apply Forall_cons; split; [|apply Forall_singleton]; (split; [done|vm_compute; done]). Qed.

Lemma incus_response_decoded_witness :
  http_get_body (Some (head_of ex_headers ++ stream ex_chunks ++ [])) = Ok (of_bytes (unlines ex_lines)).
Proof.
  destruct (incus_response_decoded ex_headers ex_chunks [] [] ex_headers_ok) as [Hc _].
  etrans; [apply Hc; [vm_refl|exact ex_chunks_ok]|]. vm_refl.
Defined.

End examples.
