(* ===== verification/DaemonDiscovery.v ===== *)
(** * Discovery in the daemon

    The functions of [src/bin/blackwalld/src/main.rs] that collect what is
    discovered and apply the effective policy: first to the kernel, then to the
    store. The kernel half is stated over a sequence of rounds, since the
    daemon applies an effective policy at its start and after every event. *)
From stdpp Require Import prelude gmap strings.
From S2P Require Import Prelude Net Float Bytes Core NetText Text Nft NftApply Flow Executor Store Discovery HostScan IncusClient.

Open Scope Z_scope.
Import ProcNet IncusModel.

(** ** What is discovered *)

Definition host_service (sock : ListeningSocket) : DiscoveredService := {|
  ds_addr := ls_addr sock; ds_proto := ls_proto sock; ds_port := ls_port sock; ds_target := Core.Host;
  ds_source := FromHost |}.

(** A failed scan or listing is logged and skipped; [incus] is the answer of
    the container host, when there is a client. *)
Definition build_discovered (discover_host : bool) (read : string → FileRead)
    (incus : option (result (list Instance_) DiscoveryError)) : list DiscoveredService :=
  (if discover_host
   then match scan_host_sockets read with Ok sockets => host_service <$> sockets | Err _ => [] end
   else []) ++
  match incus with
  | Some (Ok instances) => instances ≫= instance_services
  | Some (Err _) | None => []
  end.

(** ** The kernel, round after round *)

Section rounds.
Context `{IpNetLib} `{NftKernel}.

(** Each round renders the effective policy of what was discovered and loads
    it over the table of the previous one. *)
Fixpoint load_rounds (base : Policy) (rounds : list (list DiscoveredService)) (s : KState) : option KState :=
  match rounds with
  | [] => Some s
  | ds :: rounds =>
      match render (reconcile base ds) with
      | Ok objs => s' ← k_load objs s; load_rounds base rounds s'
      | Err _ => None
      end
  end.

Lemma merge_keeps p d : ∃ ts, merge p d = with_tenants ts p.
Proof.
  unfold merge, attach_to_synthetic. assert (p = with_tenants (tenants p) p) as Hp by (by destruct p).
  repeat case_match; eauto.
Qed.

Lemma reconcile_keeps ds : ∀ p, ∃ ts, reconcile p ds = with_tenants ts p.
Proof.
  induction ds as [|d ds IH]; intros p; [exists (tenants p); by destruct p|]. cbn.
  destruct (merge_keeps p d) as [ts ->]. destruct (IH (with_tenants ts p)) as [ts' Hts]. exists ts'.
  unfold reconcile in Hts. by rewrite Hts.
Qed.

Lemma merge_wf p d :
  ip_wf (ds_addr d) → Forall (λ t, Forall ip_wf (te_owned t)) (tenants p) →
  Forall (λ t, Forall ip_wf (te_owned t)) (tenants (merge p d)).
Proof.
  intros Hd Hp. assert (∀ f i l, (∀ t, Forall ip_wf (te_owned t) → Forall ip_wf (te_owned (f t))) →
    Forall (λ t, Forall ip_wf (te_owned t)) l → Forall (λ t, Forall ip_wf (te_owned t)) (alter f i l)) as Halter.
  { intros f i l Hf Hl. revert i. induction Hl as [|t l Ht Hl' IH]; intros i; [constructor|].
    destruct i; constructor; auto. }
  unfold merge, attach_to_synthetic. repeat case_match; try done; cbn [tenants with_tenants].
  - apply Halter; [|done]. by intros t Ht.
  - apply Halter; [|done]. intros t Ht. cbn. destruct (owns _ t); [done|]. apply Forall_app. by split; [|apply Forall_singleton].
  - apply Forall_app. split; [done|]. apply Forall_singleton. by apply Forall_singleton.
Qed.

Lemma reconcile_wf base ds :
  policy_wf base → Forall (λ d, ip_wf (ds_addr d)) ds → policy_wf (reconcile base ds).
Proof.
  intros (Hi & Hn & Ht) Hds. destruct (reconcile_keeps ds base) as [ts Hts]. unfold policy_wf.
  split; [by rewrite Hts|]. split; [by rewrite Hts|]. clear Hts ts Hi Hn. revert base Ht.
  induction Hds as [|d ds Hd _ IH]; intros base Ht; [done|]. cbn. apply IH. by apply merge_wf.
Qed.

Lemma load_rounds_sets base rounds : ∀ old s s',
  policy_wf base → Forall (Forall (λ d, ip_wf (ds_addr d))) rounds → sets_hold base s old →
  load_rounds base rounds s = Some s' →
  sets_hold base s' (old ++ (rounds ≫= λ ds, declared (tenants (reconcile base ds)))).
Proof.
  induction rounds as [|ds rounds IH]; intros old s s' Hw Hr Hs; cbn [load_rounds].
  { intros [= <-]. by rewrite app_nil_r. }
  apply Forall_cons in Hr as [Hd Hr]. destruct (render (reconcile base ds)) as [objs|] eqn:Er; [|done].
  destruct (k_load objs s) as [s1|] eqn:El; cbn [mbind option_bind]; [|done]. rewrite bind_cons, app_assoc. apply IH; [done..|].
  destruct (reconcile_keeps ds base) as [ts Hts]. pose proof (load_sets old _ _ _ _ Er (reconcile_wf base ds Hw Hd) El) as Hl.
  rewrite Hts in Hl at 1 2. by apply Hl.
Qed.

Lemma load_rounds_snoc base rounds ds s s' :
  load_rounds base (rounds ++ [ds]) s = Some s' →
  ∃ s1 objs, load_rounds base rounds s = Some s1 ∧ render (reconcile base ds) = Ok objs ∧ k_load objs s1 = Some s'.
Proof.
  revert s. induction rounds as [|d rounds IH]; intros s; cbn [app load_rounds].
  - destruct (render _) as [objs|]; [|done]. destruct (k_load objs s) as [s1|] eqn:El; [|done]. intros [= <-].
    by exists s, objs.
  - destruct (render (reconcile base d)) as [objs|]; [|done]. destruct (k_load objs s) as [s1|]; [|done]. apply IH.
Qed.

(** The packet is one for the discovered service. *)
Definition ds_serves (pk : Packet) (d : DiscoveredService) : bool := serves pk (service_of "" d).

Lemma serves_same_key pk sv sv' : service_key sv = service_key sv' → serves pk sv = serves pk sv'.
Proof. unfold service_key, serves. by intros [= -> -> ->]. Qed.

Lemma serves_effective base ds pk :
  consistent base → synthetic_scoped base →
  existsb (serves pk) (declared (tenants (reconcile base ds))) = true ↔
  existsb (serves pk) (declared (tenants base)) = true ∨
  ∃ d, d ∈ ds ∧ managed base (ds_addr d) ∧ ds_serves pk d = true.
Proof.
  intros Hc Hs. destruct (reconcile_spec base ds Hc Hs) as (_ & _ & new & _ & Hd & Hn & Hk & _).
  rewrite !existsb_exists. setoid_rewrite <- list_elem_of_In. split.
  - intros (sv & Hin & Hsv). rewrite Hd, elem_of_app in Hin. destruct Hin as [Hin|Hin]; [left; by exists sv|right].
    destruct (Hn sv Hin) as (d & ? & ? & ->). by exists d.
  - intros [(sv & Hin & Hsv)|(d & Hin & Hm & Hsv)].
    + exists sv. split; [|done]. rewrite Hd, elem_of_app. by left.
    + pose proof (Hk d Hin Hm) as (sv & Hkey & Hsin)%list_elem_of_fmap. exists sv. split; [done|].
      by rewrite <- (serves_same_key pk (service_of "" d) sv).
Qed.

Lemma existsb_bind {A B} (f : B → bool) (g : A → list B) l :
  existsb f (l ≫= g) = true ↔ ∃ x, x ∈ l ∧ existsb f (g x) = true.
Proof.
  induction l as [|x l IH]; [cbn; split; [done|by intros (? & ?%elem_of_nil & _)]|].
  rewrite bind_cons, existsb_app, orb_true_iff, IH. setoid_rewrite elem_of_cons. naive_solver.
Qed.

End rounds.

(** ** The kernel first, then the store *)

Inductive ApplyError : Type := ENft (e : string) | EStore (e : StateError).

Section apply.
Context `{IpNetLib} `{NftApply.Host} `{Postgres} (policy_error_text : PolicyError → string).

Definition apply_effective (base : Policy) (discovered : list DiscoveredService)
    : M (World * Store) (result () ApplyError) := λ st,
  let effective := reconcile base discovered in
  match NftApply.apply_policy policy_error_text effective st.1 with
  | (Err e, w) => (Err (ENft e), (w, st.2))
  | (Ok _, w) =>
      let '(r, s) := Store.apply_policy effective "discovery" st.2 in
      (match r with Ok _ => Ok () | Err e => Err (EStore e) end, (w, s))
  end.

(** The store never claims a policy that the kernel does not have. When an
    effective policy is applied, the table of the instance and its route are
    installed, and a listing of the services in the store returns exactly the
    configured services and those discovered in the managed prefixes. When the
    kernel refuses, the store is not written; when the store fails, its tables
    are as before and the kernel has the policy all the same. *)
Theorem discovery_published base out ds w s r w' s' :
  resolve base = Ok out → synthetic_scoped base → apply_effective base ds (w, s) = (r, (w', s')) →
  let ids := derive (instance base) in
  match r with
  | Ok _ =>
      h_tables w' (nft_table ids) ∧ h_routes w' false (uint_to_string (route_table ids)) ∧
      ∃ l new, eval list_services {| st_db := st_db s'; st_script := [] |} = Ok l ∧ l ≡ₚ stored <$> (out ++ new) ∧
        (∀ sv, sv ∈ new → ∃ d, d ∈ ds ∧ managed base (ds_addr d) ∧ sv = service_of (tenant_for base (ds_addr d)) d) ∧
        (∀ d, d ∈ ds → managed base (ds_addr d) → ds_key d ∈ service_key <$> (out ++ new))
  | Err (ENft _) => s' = s
  | Err (EStore _) =>
      st_db s' = st_db s ∧ h_tables w' (nft_table ids) ∧ h_routes w' false (uint_to_string (route_table ids))
  end.
Proof.
  intros Hr Hs. destruct (resolve_ok base out Hr) as (-> & Hc).
  destruct (reconcile_spec base ds Hc Hs) as (_ & _ & new & Hp & Hd & Hn & Hk & _).
  assert (derive (instance (reconcile base ds)) = derive (instance base)) as Hi by (by rewrite Hp).
  unfold apply_effective. cbn [fst snd].
  destruct (NftApply.apply_policy _ _ w) as [rk wk] eqn:Ek. pose proof (nft_apply_spec _ _ _ _ _ Ek) as Hkern. cbv zeta in Hkern.
  rewrite Hi in Hkern. destruct rk as [[]|e]; [|by intros [= <- <- <-]]. destruct Hkern as (Ht & Hrt & _).
  destruct (Store.apply_policy _ _ s) as [rs ss] eqn:Es.
  destruct (store_policy_spec (reconcile base ds) "discovery" s) as (Hok & Herr & _). unfold eval, exec in *. rewrite Es in *.
  cbn [fst snd] in *. intros [= <- <- <-]. destruct rs as [n|e].
  - destruct (Hok n eq_refl) as (l & Hl & Hperm & _). split_and!; [done..|]. exists l, new. split; [exact Hl|]. split.
    { by rewrite Hperm, Hd. }
    split; [done|]. intros d Hin Hm. specialize (Hk d Hin Hm). by rewrite Hd in Hk.
  - split; [by apply (Herr e)|done].
Qed.
End apply.

(** ** Concrete uses *)

Section examples.
#[local] Existing Instance RefNet.lib.
#[local] Existing Instance RefNft.RefKernel.
#[local] Existing Instance RefHost.Ref.
#[local] Existing Instance RefPg.pg.

Definition ex_base : Policy := sample_policy None [sample_tenant].
Definition ex_found (addr : IpAddr) (port : Z) : DiscoveredService := {|
  ds_addr := addr; ds_proto := Tcp; ds_port := port; ds_target := Incus "web"; ds_source := FromIncus |}.
Definition ex_web : DiscoveredService := ex_found (ipv4 203 0 113 9) 80.
Definition ex_list : list DiscoveredService := [ex_found (ipv4 203 0 113 5) 22; ex_web; ex_found (ipv4 10 0 0 1) 80].

Lemma ex_resolves : resolve ex_base = Ok (declared (tenants ex_base)).
Proof. vm_refl. Qed.

Lemma ex_scoped : synthetic_scoped ex_base.
Proof. intros t a Ht Hn _. apply list_elem_of_singleton in Ht as ->. done. Qed.

Lemma ex_managed : managed ex_base (ds_addr ex_web).
Proof. apply managed_dec. vm_refl. Qed.

(** A service is found on an address of the tenant, one on a free address and
    one outside the prefixes. *)
Lemma discovery_exact_witness :
  let p := reconcile ex_base ex_list in
  ds_key ex_web ∈ service_key <$> declared (tenants p) ∧ reconcile p ex_list = p ∧
  (te_name <$> tenants p) = ["acme"; "discovered"].
Proof.
  destruct (discovery_exact ex_base ex_list _ ex_resolves ex_scoped) as (_ & Hk & _ & Hi).
  split; [apply Hk; [right; left|exact ex_managed]|]. split; [exact Hi|vm_refl].
Defined.

Definition ex_packet : Packet := {|
  pk_iif := "eth0"; pk_dst := ipv4 203 0 113 9; pk_proto := 6; pk_dport := Some 80; pk_established := false |}.

Lemma ex_wf : policy_wf ex_base.
Proof. apply sample_wf, sample_tenant_wf. Qed.


Lemma discovery_published_witness : ∃ w' s',
  apply_effective (λ _, "") ex_base ex_list (RefHost.idle, st_new []) = (Ok (), (w', s')) ∧ h_tables w' "blackwall".
Proof.
  pose (r := apply_effective (λ _, "") ex_base ex_list (RefHost.idle, st_new [])).
  assert (r.1 = Ok ()) as Hr by vm_refl. exists r.2.1, r.2.2.
  assert (apply_effective (λ _, "") ex_base ex_list (RefHost.idle, st_new []) = (Ok (), (r.2.1, r.2.2))) as He.
  { exact (eq_trans (surjective_pairing r) (f_equal2 pair Hr (surjective_pairing r.2))). }
  split; [exact He|]. pose proof (discovery_published (λ _, "") ex_base _ ex_list RefHost.idle (st_new []) _ _ _ ex_resolves ex_scoped He) as (Ht & _).
  exact Ht.
Defined.

(** A tenant of the configuration that is named as the synthetic one, with a
    rule for all its addresses. *)
Definition ex_clash : Policy := sample_policy None
  [{| te_name := "discovered"; te_owned := [ipv4 203 0 113 5];
      te_allows := [{| al_proto := Tcp; al_port := 22; al_target := Core.Host; al_scope := None |}] |}].

(** Such a tenant adopts the addresses of discovered services with all its
    rules: a service found on one port of a free address opens another port
    there, and a service found on the port of the rule makes the effective
    policy, with everything else in it, impossible to apply. *)
Theorem discovered_name_clash :
  (∃ sv, sv ∈ declared (tenants (reconcile ex_clash [ex_web])) ∧ service_key sv = (ds_addr ex_web, Tcp, 22)) ∧
  is_ok (resolve ex_clash) = true ∧
  resolve (reconcile ex_clash [ex_found (ds_addr ex_web) 22]) = Err (DuplicateService (ds_addr ex_web) Tcp 22).
Proof.
  split; [|split; vm_refl]. apply Exists_exists. apply (bool_decide_eq_true_1 _). vm_refl.
Qed.
End examples.
