(* ===== verification/Emulators.v ===== *)
(** * Service emulators

    Model of the fake services of [crates/blackwall-deception/src/emulators]
    and of [emulator.rs]: Redis, SMTP, SSH, HTTP, MySQL and PostgreSQL. A
    terminated connection is the outcomes of the reads to come, in order, and a
    buffer of what was written; a read that returns no byte, and a read past
    the last outcome, is the end of the stream. A write fails when the script
    says so; a failed write ends the session with its error.

    Offsets are [usize]; the program is built without overflow checks, so that
    their additions wrap around. Byte counters are below [u64::MAX]. *)
From stdpp Require Import prelude strings.
From S2P Require Import Prelude Net Bytes Core NetText Text Nfqueue.

Open Scope Z_scope.

(** ** Connections *)

(** What one [read] returns: an error, or the bytes it has put in the chunk. *)
Definition Read : Type := option (list Z).

Record Out := mk_Out { out_script : list bool; out_sent : list Z }.

(** A fallible computation that writes to the connection. *)
Definition EM (A : Type) : Type := Out → rust DeceptionError A * Out.
#[export] Instance em_ret : MRet EM := λ A a s, (Ret a, s).
#[export] Instance em_bind : MBind EM := λ A B f m s,
  match m s with
  | (Ret a, s') => f a s'
  | (Fail_ e, s') => (Fail_ e, s')
  | (Panic, s') => (Panic, s')
  end.
Definition em_lift {A} (r : rust DeceptionError A) : EM A := λ s, (r, s).

(** A write or a flush; one with no outcome left succeeds. *)
Definition io (data : list Z) : EM unit := λ s,
  match out_script s with
  | false :: l => (Fail_ EIo, mk_Out l (out_sent s))
  | true :: l => (Ret (), mk_Out l (out_sent s ++ data))
  | [] => (Ret (), mk_Out [] (out_sent s ++ data))
  end.
Definition write_all (data : list Z) : EM unit := io data.
Definition flush : EM unit := io [].

Record EmulatorOutcome := { bytes_in : Z; bytes_out : Z; note : option string }.

Definition zlen (l : list Z) : Z := Z.of_nat (length l).

Definition crlf : list Z := [13; 10].

(** [windows(2).position(|w| w == b"\r\n")] *)
Fixpoint find_crlf (l : list Z) : option nat :=
  match l with
  | [] => None
  | _ :: l' => if bool_decide (take 2 l = crlf) then Some 0%nat else S <$> find_crlf l'
  end.

(** The first piece of [split(|&b| b == b'\r' || b == b'\n')], if it is not
    empty, as text. *)
Fixpoint first_line (l : list Z) : list Z :=
  match l with
  | [] => []
  | b :: l => if (b =? 13) || (b =? 10) then [] else b :: first_line l
  end.
Definition captured_line (buf : list Z) : option string :=
  let l := from_utf8_lossy (first_line buf) in
  if bool_decide (l = EmptyString) then None else Some l.

Definition first_word (s : string) : option string :=
  head (split_whitespace (chars (str_bytes s))).

(** ** Redis *)

Module Redis.

Definition MAX_BYTES : Z := 16 * 1024.

Definition usize_add (a b : Z) : Z := (a + b) mod (u64_max + 1).

(** [&l[a..b]] on [usize] offsets. *)
Definition slice_at (l : list Z) (a b : Z) : rust DeceptionError (list Z) :=
  if (a <=? b) && (b <=? zlen l) then Ret (take (Z.to_nat (b - a)) (drop (Z.to_nat a) l)) else Panic.

Definition info_body (version : string) : list Z :=
  str_bytes "# Server" ++ crlf ++ str_bytes "redis_version:" ++ str_bytes version ++ crlf.

Definition reply_for (version command : string) : list Z :=
  let verb := to_ascii_uppercase command in
  if bool_decide (verb = "PING") then str_bytes "+PONG" ++ crlf
  else if bool_decide (verb = "INFO") then
    let body := info_body version in
    str_bytes "$" ++ print_uint (zlen body) ++ crlf ++ body ++ crlf
  else if bool_decide (verb ∈ ["COMMAND"; "CLIENT"; "AUTH"; "SELECT"; "HELLO"]) then str_bytes "+OK" ++ crlf
  else if bool_decide (verb = "QUIT") then str_bytes "+OK" ++ crlf
  else str_bytes "-ERR unknown command" ++ crlf.

Inductive Parsed : Type :=
| Command (verb : string) (consumed : Z)
| Incomplete
| Invalid.

(** The line at offset [start], and the offset after its CRLF. *)
Definition read_crlf_line (buf : list Z) (start : Z) : option (list Z * Z) :=
  if zlen buf <? start then None
  else
    let rest := drop (Z.to_nat start) buf in
    idx ← find_crlf rest;
    Some (take idx rest, start + Z.of_nat idx + 2).

(** [from_utf8(l).ok().and_then(|s| s.parse::<usize>().ok())] *)
Definition parse_usize (l : list Z) : option Z := s ← from_utf8 l; parse_uint u64_max s.

(** The [for] loop over the elements of an array: running, with the index, the
    offset and the verb, or left by a [return]. *)
Inductive Elems : Type :=
| Going (i : N) (cur : Z) (verb : option string)
| Left_ (r : rust DeceptionError Parsed).

Definition elem_step (buf : list Z) (st : Elems) : Elems :=
  match st with
  | Left_ r => Left_ r
  | Going i cur verb =>
      match read_crlf_line buf cur with
      | None => Left_ (Ret Incomplete)
      | Some (len_line, after_len) =>
          if negb (bool_decide (head len_line = Some 36)) then Left_ (Ret Invalid)
          else match parse_usize (drop 1 len_line) with
               | None => Left_ (Ret Invalid)
               | Some blen =>
                   let data_end := usize_add after_len blen in
                   let stop := usize_add data_end 2 in
                   if zlen buf <? stop then Left_ (Ret Incomplete)
                   else match slice_at buf data_end stop with
                        | Ret tail =>
                            if negb (bool_decide (tail = crlf)) then Left_ (Ret Invalid)
                            else if bool_decide (i = 0%N) then
                              match slice_at buf after_len data_end with
                              | Ret data => Going (i + 1) stop (Some (from_utf8_lossy data))
                              | _ => Left_ Panic
                              end
                            else Going (i + 1) stop verb
                        | _ => Left_ Panic
                        end
               end
      end
  end.

Definition parse_resp_array (buf : list Z) : rust DeceptionError Parsed :=
  match read_crlf_line buf 0 with
  | None => Ret Incomplete
  | Some (argc_line, cur) =>
      match parse_usize (drop 1 argc_line) with
      | None => Ret Invalid
      | Some argc =>
          if argc =? 0 then Ret Invalid
          else match N.iter (Z.to_N argc) (elem_step buf) (Going 0 cur None) with
               | Left_ r => r
               | Going _ cur (Some v) => if bool_decide (v = EmptyString) then Ret Invalid else Ret (Command v cur)
               | Going _ _ None => Ret Invalid
               end
      end
  end.

(** [iter().position(|&b| b == b'\n')] *)
Fixpoint find_nl (l : list Z) : option nat :=
  match l with
  | [] => None
  | b :: l => if b =? 10 then Some 0%nat else S <$> find_nl l
  end.

Definition parse_inline (buf : list Z) : Parsed :=
  match find_nl buf with
  | None => Incomplete
  | Some nl =>
      match first_word (from_utf8_lossy (take nl buf)) with
      | Some word => Command word (Z.of_nat nl + 1)
      | None => Invalid
      end
  end.

Definition parse_one (buf : list Z) : rust DeceptionError Parsed :=
  match buf with
  | [] => Ret Incomplete
  | b :: _ => if b =? 42 then parse_resp_array buf else Ret (parse_inline buf)
  end.

Record State := { total : list Z; first_cmd : option string; n_in : Z; n_out : Z }.

(** The inner loop; it answers whether the session ends ([break 'read]). A
    command has at least one byte. *)
Fixpoint drain_commands (version : string) (fuel : nat) (st : State) : EM (bool * State) :=
  match fuel with
  | O => em_lift Panic
  | S fuel =>
      p ← em_lift (parse_one (total st));
      match p with
      | Command verb consumed =>
          if zlen (total st) <? consumed then em_lift Panic
          else
            let reply := reply_for version verb in
            write_all reply;; flush;;
            let st := {| total := drop (Z.to_nat consumed) (total st);
                         first_cmd := match first_cmd st with None => Some verb | f => f end;
                         n_in := n_in st; n_out := n_out st + zlen reply |} in
            if eq_ignore_ascii_case verb "QUIT" then mret (true, st) else drain_commands version fuel st
      | Incomplete => mret (false, st)
      | Invalid => mret (true, st)
      end
  end.

Definition finish (st : State) : EmulatorOutcome := {|
  bytes_in := n_in st; bytes_out := n_out st; note := first_cmd st |}.

Fixpoint read_loop (version : string) (rs : list Read) (st : State) : EM EmulatorOutcome :=
  match rs with
  | [] | Some [] :: _ => mret (finish st)
  | None :: _ => em_lift (Fail_ EIo)
  | Some chunk :: rs =>
      let st := {| total := total st ++ chunk; first_cmd := first_cmd st;
                   n_in := n_in st + zlen chunk; n_out := n_out st |} in
      r ← drain_commands version (S (length (total st))) st;
      let '(ended, st) := (r : bool * State) in
      if (ended : bool) || (MAX_BYTES <? zlen (total st)) then mret (finish st)
      else read_loop version rs st
  end.

Definition handle (version : string) (rs : list Read) : EM EmulatorOutcome :=
  read_loop version rs {| total := []; first_cmd := None; n_in := 0; n_out := 0 |}.
End Redis.

(** ** SMTP *)

Module Smtp.

Definition MAX_BYTES : Z := 16 * 1024.
Definition MAX_COMMANDS : Z := 64.

Definition greeting (hostname : string) : list Z :=
  str_bytes "220 " ++ str_bytes hostname ++ str_bytes " ESMTP ready" ++ crlf.

Definition ok_reply : list Z := str_bytes "250 OK" ++ crlf.

(** The reply to a line, and whether the session ends after it. *)
Definition reply_for (hostname line : string) : list Z * bool :=
  let verb := to_ascii_uppercase (default "" (first_word line)) in
  if bool_decide (verb ∈ ["EHLO"; "HELO"]) then (str_bytes "250 " ++ str_bytes hostname ++ crlf, false)
  else if bool_decide (verb ∈ ["MAIL"; "RCPT"]) then (ok_reply, false)
  else if bool_decide (verb = "DATA") then (str_bytes "354 End data with <CR><LF>.<CR><LF>" ++ crlf, false)
  else if bool_decide (verb ∈ ["RSET"; "NOOP"]) then (ok_reply, false)
  else if bool_decide (verb = "QUIT") then (str_bytes "221 Bye" ++ crlf, true)
  else if bool_decide (verb = "") then (str_bytes "500 Error" ++ crlf, false)
  else (str_bytes "502 Command not implemented" ++ crlf, false).

Record State := {
  buf : list Z; commands : Z; first_cmd : option string; in_data : bool; n_in : Z; n_out : Z;
}.

(** The [while let] over the complete lines in the buffer; it answers whether
    the session ends. A line has two bytes at least. *)
Fixpoint take_lines (hostname : string) (fuel : nat) (st : State) : EM (bool * State) :=
  match find_crlf (buf st) with
  | None => mret (false, st)
  | Some pos =>
      match fuel with
      | O => em_lift Panic
      | S fuel =>
          let line := from_utf8_lossy (take pos (buf st)) in
          let rest := drop (pos + 2) (buf st) in
          if in_data st then
            if bool_decide (line = ".") then
              write_all ok_reply;; flush;;
              take_lines hostname fuel {| buf := rest; commands := commands st; first_cmd := first_cmd st;
                in_data := false; n_in := n_in st; n_out := n_out st + 8 |}
            else
              take_lines hostname fuel {| buf := rest; commands := commands st; first_cmd := first_cmd st;
                in_data := true; n_in := n_in st; n_out := n_out st |}
          else
            let '(reply, close) := reply_for hostname line in
            let in_data := eq_ignore_ascii_case (default "" (first_word line)) "DATA" in
            write_all reply;;
            let st := {| buf := rest; commands := commands st + 1;
                         first_cmd := match first_cmd st with None => Some line | f => f end;
                         in_data := in_data; n_in := n_in st; n_out := n_out st + zlen reply |} in
            if close || (MAX_COMMANDS <=? commands st) then mret (true, st)
            else take_lines hostname fuel st
      end
  end.

Definition finish (st : State) : EM EmulatorOutcome :=
  flush;; mret {| bytes_in := n_in st; bytes_out := n_out st; note := first_cmd st |}.

Fixpoint read_loop (hostname : string) (rs : list Read) (st : State) : EM EmulatorOutcome :=
  match rs with
  | [] | Some [] :: _ => finish st
  | None :: _ => em_lift (Fail_ EIo)
  | Some chunk :: rs =>
      let st := {| buf := buf st ++ chunk; commands := commands st; first_cmd := first_cmd st;
                   in_data := in_data st; n_in := n_in st + zlen chunk; n_out := n_out st |} in
      if MAX_BYTES <? n_in st then finish st
      else
        r ← take_lines hostname (length (buf st)) st;
        let '(ended, st) := (r : bool * State) in
        if ended : bool then finish st else read_loop hostname rs st
  end.

Definition handle (hostname : string) (rs : list Read) : EM EmulatorOutcome :=
  write_all (greeting hostname);; flush;;
  read_loop hostname rs {| buf := []; commands := 0; first_cmd := None; in_data := false;
                           n_in := 0; n_out := zlen (greeting hostname) |}.
End Smtp.

(** ** SSH *)

Module Ssh.

Definition MAX_BANNER : Z := 512.

Definition name_lists : list string :=
  ["curve25519-sha256"; "ssh-ed25519"; "chacha20-poly1305@openssh.com"; "chacha20-poly1305@openssh.com";
   "hmac-sha2-256"; "hmac-sha2-256"; "none"; "none"; ""; ""].

Definition kexinit_payload : list Z :=
  [20] ++ replicate 16 0 ++
  (name_lists ≫= λ l, be_bytes 4 (zlen (str_bytes l)) ++ str_bytes l) ++
  [0] ++ replicate 4 0.

Definition kexinit_packet : list Z :=
  let payload := kexinit_payload in
  let unpadded := (1 + length payload)%nat in
  let pad := (8 - unpadded mod 8)%nat in
  let pad := if (pad <? 4)%nat then (pad + 8)%nat else pad in
  be_bytes 4 (Z.of_nat (1 + length payload + pad)) ++ [Z.of_nat pad] ++ payload ++ replicate pad 0.

(** The banner of the client: up to a line feed or the cap. *)
Fixpoint read_banner (rs : list Read) (buf : list Z) : rust DeceptionError (list Z) :=
  match rs with
  | [] | Some [] :: _ => Ret buf
  | None :: _ => Fail_ EIo
  | Some chunk :: rs =>
      let buf := buf ++ chunk in
      if bool_decide (10 ∈ buf) || (MAX_BANNER <=? zlen buf) then Ret buf else read_banner rs buf
  end.

Definition handle (version : string) (rs : list Read) : EM EmulatorOutcome :=
  let banner := str_bytes version ++ crlf in
  write_all banner;;
  write_all kexinit_packet;;
  flush;;
  buf ← em_lift (read_banner rs []);
  mret {| bytes_in := zlen buf; bytes_out := zlen banner + zlen kexinit_packet; note := captured_line buf |}.
End Ssh.

(** ** HTTP *)

Module Http.

Definition MAX_REQUEST : Z := 8192.

Definition BODY : list Z :=
  str_bytes "<!doctype html><html><head><title>It works</title></head><body><h1>It works!</h1></body></html>".

Definition response (server_header : string) : list Z :=
  str_bytes "HTTP/1.1 200 OK" ++ crlf ++
  str_bytes "Server: " ++ str_bytes server_header ++ crlf ++
  str_bytes "Content-Type: text/html; charset=utf-8" ++ crlf ++
  str_bytes "Content-Length: " ++ print_uint (zlen BODY) ++ crlf ++
  str_bytes "Connection: close" ++ crlf ++ crlf ++ BODY.

(** [windows(4).any(|w| w == b"\r\n\r\n")] *)
Fixpoint has_blank_line (l : list Z) : bool :=
  match l with
  | [] => false
  | _ :: l' => bool_decide (take 4 l = crlf ++ crlf) || has_blank_line l'
  end.

Fixpoint read_request (rs : list Read) (buf : list Z) : rust DeceptionError (list Z) :=
  match rs with
  | [] | Some [] :: _ => Ret buf
  | None :: _ => Fail_ EIo
  | Some chunk :: rs =>
      let buf := buf ++ chunk in
      if has_blank_line buf || (MAX_REQUEST <=? zlen buf) then Ret buf else read_request rs buf
  end.

Definition handle (server_header : string) (rs : list Read) : EM EmulatorOutcome :=
  buf ← em_lift (read_request rs []);
  let response := response server_header in
  write_all response;; flush;;
  mret {| bytes_in := zlen buf; bytes_out := zlen response; note := captured_line buf |}.
End Http.

(** A single read: no outcome left is the end of the stream. *)
Definition read_one (rs : list Read) : rust DeceptionError (list Z) :=
  match rs with [] => Ret [] | None :: _ => Fail_ EIo | Some chunk :: _ => Ret chunk end.

(** ** MySQL *)

Module Mysql.

(** Little-endian bytes. *)
Definition le_bytes (n : nat) (z : Z) : list Z := reverse (be_bytes n z).

Definition framed (payload : list Z) (seq : Z) : list Z :=
  let len := if zlen payload <=? u32_max then zlen payload else 0 in
  take 3 (le_bytes 4 len) ++ [seq] ++ payload.

Definition handshake_payload (version : string) : list Z :=
  [10] ++ str_bytes version ++ [0] ++ le_bytes 4 1 ++ [1; 2; 3; 4; 5; 6; 7; 8] ++ [0] ++ le_bytes 2 0 ++
  [33] ++ le_bytes 2 2 ++ le_bytes 2 0 ++ [21] ++ replicate 10 0 ++
  (str_bytes "123456789012" ++ [0]) ++ (str_bytes "mysql_native_password" ++ [0]).
Definition handshake_packet (version : string) : list Z := framed (handshake_payload version) 0.

Definition auth_error_packet : list Z :=
  framed ([255] ++ le_bytes 2 1045 ++ str_bytes "#28000" ++ str_bytes "Access denied for user") 2.

Definition handle (version : string) (rs : list Read) : EM EmulatorOutcome :=
  let handshake := handshake_packet version in
  write_all handshake;; flush;;
  chunk ← em_lift (read_one rs);
  write_all auth_error_packet;; flush;;
  mret {| bytes_in := zlen chunk; bytes_out := zlen handshake + zlen auth_error_packet;
          note := if 0 <? zlen chunk
                  then Some (of_bytes (str_bytes "login request: " ++ print_uint (zlen chunk) ++ str_bytes " bytes"))
                  else None |}.
End Mysql.

(** ** PostgreSQL *)

Module Postgres_.

Definition error_fields : list Z :=
  str_bytes "S" ++ str_bytes "FATAL" ++ [0] ++ str_bytes "C" ++ str_bytes "28P01" ++ [0] ++
  str_bytes "M" ++ str_bytes "password authentication failed" ++ [0] ++ [0].

Definition error_response : list Z :=
  str_bytes "E" ++ be_bytes 4 (4 + zlen error_fields) ++ error_fields.

Definition handle (rs : list Read) : EM EmulatorOutcome :=
  chunk ← em_lift (read_one rs);
  write_all error_response;; flush;;
  mret {| bytes_in := zlen chunk; bytes_out := zlen error_response;
          note := if 0 <? zlen chunk
                  then Some (of_bytes (str_bytes "startup: " ++ print_uint (zlen chunk) ++ str_bytes " bytes"))
                  else None |}.
End Postgres_.

(** ** Lemmas on lines, lengths and frames *)

Lemma find_crlf_app l d i : find_crlf l = Some i → find_crlf (l ++ d) = Some i.
Proof.
  revert i. induction l as [|b l IH]; intros i; [done|]. cbn [find_crlf app].
  case_bool_decide as Hb.
  - intros [= <-]. destruct l as [|b' l]; [done|]. cbn in *. by rewrite bool_decide_true.
  - destruct (find_crlf l) as [j|] eqn:Hj; [|done]. intros [= <-].
    rewrite (IH j eq_refl). rewrite bool_decide_false; [done|].
    destruct l as [|b' l]; [by destruct j|exact Hb].
Qed.

Lemma find_crlf_lt l i : find_crlf l = Some i → (i + 2 ≤ length l)%nat.
Proof.
  revert i. induction l as [|b l IH]; intros i; [done|]. cbn [find_crlf]. case_bool_decide as Hb.
  - intros [= <-]. destruct l; [done|]. cbn. lia.
  - destruct (find_crlf l) as [j|]; [|done]. intros [= <-]. specialize (IH j eq_refl). cbn. lia.
Qed.

(** A text without a carriage return ends at the first CRLF. *)
Lemma find_crlf_first l d : Forall (λ b, b ≠ 13) l → find_crlf (l ++ crlf ++ d) = Some (length l).
Proof.
  induction 1 as [|b l Hb _ IH]; [done|]. cbn [app find_crlf]. rewrite bool_decide_false, IH; [done|].
  cbn. intros [= ?]; done.
Qed.

Lemma em_bind_ret {A B} (m : EM A) (f : A → EM B) s a s' : m s = (Ret a, s') → (m ≫= f) s = f a s'.
Proof. intros Hm. unfold mbind, em_bind. by rewrite Hm. Qed.

Lemma zlen_app a b : zlen (a ++ b) = zlen a + zlen b.
Proof. unfold zlen. rewrite length_app. lia. Qed.
Lemma zlen_nonneg l : 0 ≤ zlen l.
Proof. unfold zlen. lia. Qed.

Ltac nonneg l := lazymatch goal with _ : 0 ≤ zlen l |- _ => fail | _ => pose proof (zlen_nonneg l) end.

(** Arithmetic of lengths. *)
Ltac zlens :=
  rewrite ?zlen_app in *; change (zlen crlf) with 2 in *; change (zlen []) with 0 in *;
  repeat match goal with
         | |- context [zlen [?b]] => change (zlen [b]) with 1
         | H : context [zlen [?b]] |- _ => change (zlen [b]) with 1 in H
         end;
  repeat match goal with
         | |- context [zlen ?l] => nonneg l
         | _ : context [zlen ?l] |- _ => nonneg l
         end;
  unfold Redis.MAX_BYTES, Smtp.MAX_BYTES, u64_max in *; lia.

(** A prefix of a sequence of frames is some of them and the beginning of the
    next. *)
Lemma prefix_split {A} (wire : A → list Z) cmds x y :
  x ++ y = cmds ≫= wire →
  ∃ done_ rest p, cmds = done_ ++ rest ∧ x = (done_ ≫= wire) ++ p ∧ p ++ y = rest ≫= wire ∧
    (p = [] ∨ ∃ c rest' q, rest = c :: rest' ∧ wire c = p ++ q ∧ q ≠ []).
Proof.
  revert x. induction cmds as [|c cmds IH]; intros x Hx; cbn [mbind list_bind] in Hx.
  - apply app_nil in Hx as [-> ->]. exists [], [], []. by split_and!; [..|left].
  - destruct (decide (length (wire c) ≤ length x)%nat) as [Hl|Hl].
    + assert (take (length (wire c)) x = wire c) as Ht.
      { apply (f_equal (take (length (wire c)))) in Hx. by rewrite take_app_le, take_app_length in Hx. }
      rewrite <-(take_drop (length (wire c)) x), Ht, <-app_assoc in Hx. apply app_inv_head in Hx.
      destruct (IH _ Hx) as (d & r & p & -> & Hd & Hp & Hor). exists (c :: d), r, p. split_and!; [done| |done..].
      rewrite <-(take_drop (length (wire c)) x), Ht, Hd. apply app_assoc.
    + exists [], (c :: cmds), x. split_and!; [done..|]. right. exists c, cmds, (drop (length x) (wire c)).
      split; [done|]. apply (f_equal (take (length x))) in Hx as Ht.
      rewrite take_app_length, take_app_le in Ht by lia. split; [etransitivity; [symmetry; apply (take_drop (length x))|]; by rewrite <-Ht|].
      intros Hd. apply (f_equal length) in Hd. rewrite length_drop in Hd. cbn in Hd. lia.
Qed.
