(* ===== verification/RedisSpec.v ===== *)
(** * The Redis emulator: framing and replies

    Theorems on [Emulators.Redis]: the parser takes commands, RESP arrays or
    inline ones, from the front of the buffer, whatever follows; however TCP
    cuts the commands of a client into segments, the emulator answers each one
    with its reply, in order. *)
From stdpp Require Import prelude strings.
From S2P Require Import Prelude Net Bytes Core NetText Text Nfqueue Emulators.
Import Emulators.Redis.

Open Scope Z_scope.

(** ** The parser and more bytes *)

Lemma read_crlf_line_app buf d start x :
  0 ≤ start → read_crlf_line buf start = Some x → read_crlf_line (buf ++ d) start = Some x.
Proof.
  intros Hs. unfold read_crlf_line, zlen. destruct (Z.ltb_spec (Z.of_nat (length buf)) start) as [|Hl]; [done|].
  rewrite (proj2 (Z.ltb_ge _ _)) by (rewrite length_app; lia).
  rewrite drop_app_le by lia. destruct (find_crlf (drop _ buf)) as [i|] eqn:Hi; [|done]. cbn.
  rewrite (find_crlf_app _ d _ Hi). cbn. intros [= <-]. apply find_crlf_lt in Hi.
  rewrite take_app_le by lia. done.
Qed.

Lemma read_crlf_line_bounds buf start line after :
  0 ≤ start → read_crlf_line buf start = Some (line, after) →
  after = start + zlen line + 2 ∧ after ≤ zlen buf.
Proof.
  intros Hs. unfold read_crlf_line, zlen. destruct (Z.ltb_spec (Z.of_nat (length buf)) start) as [|Hl]; [done|].
  destruct (find_crlf (drop _ buf)) as [i|] eqn:Hi; [|done]. cbn. intros [= <- <-].
  apply find_crlf_lt in Hi. rewrite length_drop in Hi. rewrite length_take, length_drop. lia.
Qed.

Lemma slice_at_app buf d a b x : 0 ≤ a → slice_at buf a b = Ret x → slice_at (buf ++ d) a b = Ret x.
Proof.
  intros Ha. unfold slice_at, zlen. destruct (Z.leb_spec a b); [|done].
  destruct (Z.leb_spec b (Z.of_nat (length buf))); [|done]. cbn. intros [= <-].
  rewrite (proj2 (Z.leb_le _ _)) by (rewrite length_app; lia). cbn. f_equal.
  rewrite drop_app_le, take_app_le by (rewrite ?length_drop; lia). done.
Qed.

Lemma usize_add_range a b : 0 ≤ usize_add a b ≤ u64_max.
Proof. unfold usize_add, u64_max. pose proof (Z.mod_pos_bound (a + b) (18446744073709551615 + 1)). lia. Qed.

Definition going_ok (st : Elems) : Prop := match st with Going _ cur _ => 0 ≤ cur | Left_ _ => True end.

Lemma elem_step_ok buf st : going_ok st → going_ok (elem_step buf st).
Proof.
  destruct st as [i cur verb|r]; [|done]. intros _. cbn.
  repeat case_match; cbn; try done; apply usize_add_range.
Qed.

Lemma elem_step_app buf d st :
  going_ok st → elem_step buf st ≠ Left_ (Ret Incomplete) → elem_step (buf ++ d) st = elem_step buf st.
Proof.
  destruct st as [i cur verb|r]; [|done]. intros Hc. cbn [going_ok] in Hc. cbn [elem_step].
  destruct (read_crlf_line buf cur) as [[line after]|] eqn:Hl; [|done].
  rewrite (read_crlf_line_app buf d cur _ Hc Hl). pose proof (read_crlf_line_bounds _ _ _ _ Hc Hl) as [Ha _].
  destruct (negb _); [done|]. destruct (parse_usize _) as [blen|]; [|done].
  pose proof (usize_add_range after blen). set (e := usize_add after blen) in *.
  pose proof (usize_add_range e 2). set (stop := usize_add e 2) in *.
  destruct (Z.ltb_spec (zlen buf) stop) as [|Hst]; [done|]. intros _.
  rewrite (proj2 (Z.ltb_ge (zlen (buf ++ d)) stop)) by (unfold zlen in *; rewrite length_app; lia).
  assert (∀ a b, 0 ≤ a → b ≤ zlen buf → slice_at (buf ++ d) a b = slice_at buf a b) as Hsl.
  { intros a b H_ Hb. destruct (slice_at buf a b) as [x|e'|] eqn:Hx; [by apply slice_at_app|..];
      unfold slice_at in *; rewrite (proj2 (Z.leb_le b (zlen buf)) Hb) in Hx;
      destruct (a <=? b); done. }
  rewrite (Hsl e stop) by lia. destruct (slice_at buf e stop) as [t|e'|] eqn:Ht; [|done..].
  destruct (negb _); [done|]. case_bool_decide; [|done].
  rewrite Hsl; [done|unfold zlen in Ha; lia|]. unfold slice_at in Ht. destruct (Z.leb_spec e stop); [lia|done].
Qed.

Lemma elem_iter_ok buf n st : going_ok st → going_ok (N.iter n (elem_step buf) st).
Proof. intros Hst. induction n as [|n IH] using N.peano_ind; [done|]. rewrite N.iter_succ. by apply elem_step_ok. Qed.

Lemma elem_iter_app buf d n st :
  going_ok st → N.iter n (elem_step buf) st ≠ Left_ (Ret Incomplete) →
  N.iter n (elem_step (buf ++ d)) st = N.iter n (elem_step buf) st.
Proof.
  intros Hst. induction n as [|n IH] using N.peano_ind; [done|]. rewrite !N.iter_succ. intros Hn.
  rewrite IH by (intros He; rewrite He in Hn; done). apply elem_step_app; [by apply elem_iter_ok|done].
Qed.

Lemma parse_resp_array_app buf d :
  parse_resp_array buf ≠ Ret Incomplete → parse_resp_array (buf ++ d) = parse_resp_array buf.
Proof.
  unfold parse_resp_array. destruct (read_crlf_line buf 0) as [[line cur]|] eqn:Hl; [|done].
  pose proof (read_crlf_line_bounds _ _ _ _ (Z.le_refl 0) Hl) as [Hc _].
  rewrite (read_crlf_line_app buf d 0 _ (Z.le_refl 0) Hl). destruct (parse_usize _) as [argc|]; [|done].
  destruct (argc =? 0); [done|]. intros Hn. rewrite elem_iter_app; [done|cbn; unfold zlen in *; lia|].
  intros He. rewrite He in Hn. done.
Qed.

Lemma find_nl_app l d i : find_nl l = Some i → find_nl (l ++ d) = Some i ∧ (i < length l)%nat.
Proof.
  revert i. induction l as [|b l IH]; intros i; [done|]. cbn [find_nl app]. destruct (b =? 10).
  - intros [= <-]. cbn. split; [done|lia].
  - destruct (find_nl l) as [j|]; [|done]. intros [= <-]. destruct (IH j eq_refl) as [-> ?]. cbn. split; [done|lia].
Qed.

Lemma parse_one_app buf d : parse_one buf ≠ Ret Incomplete → parse_one (buf ++ d) = parse_one buf.
Proof.
  destruct buf as [|b buf]; [done|]. cbn [parse_one app]. destruct (b =? 42).
  - rewrite app_comm_cons. apply parse_resp_array_app.
  - unfold parse_inline. rewrite app_comm_cons. destruct (find_nl (b :: buf)) as [i|] eqn:Hi; [|done].
    destruct (find_nl_app _ d _ Hi) as [-> ?]. rewrite take_app_le by lia. done.
Qed.

(** ** What is consumed is in the buffer *)

Definition going_in (buf : list Z) (st : Elems) : Prop :=
  match st with Going _ cur _ => 0 < cur ≤ zlen buf | Left_ r => ∀ v n, r ≠ Ret (Command v n) end.

Lemma elem_step_in buf st : going_in buf st → going_in buf (elem_step buf st).
Proof.
  destruct st as [i cur verb|r]; [|done]. intros _. cbn [elem_step].
  destruct (read_crlf_line buf cur) as [[line after]|]; [|done].
  destruct (negb _); [done|]. destruct (parse_usize _) as [blen|]; [|done].
  pose proof (usize_add_range after blen) as He. set (e := usize_add after blen) in *.
  pose proof (usize_add_range e 2) as Hs. set (stop := usize_add e 2) in *.
  destruct (Z.ltb_spec (zlen buf) stop); [done|].
  destruct (slice_at buf e stop) as [t|e'|] eqn:Ht; [|done..].
  destruct (negb _) eqn:Hc; [done|]. apply negb_false_iff, bool_decide_eq_true_1 in Hc as ->.
  assert (0 < stop).
  { unfold slice_at in Ht. destruct (Z.leb_spec e stop); [|done].
    destruct (stop <=? zlen buf); [|done]. injection Ht as Ht. apply (f_equal length) in Ht.
    rewrite length_take in Ht. cbn in Ht. lia. }
  case_bool_decide; [|cbn [going_in]; lia]. destruct (slice_at buf after e); [cbn [going_in]; lia|done..].
Qed.

Lemma parse_one_consumed buf v n : parse_one buf = Ret (Command v n) → 0 < n ≤ zlen buf.
Proof.
  destruct buf as [|b l]; [done|]. cbn [parse_one]. destruct (b =? 42).
  - unfold parse_resp_array. set (buf := b :: l).
    destruct (read_crlf_line buf 0) as [[line cur]|] eqn:Hl; [|done].
    apply read_crlf_line_bounds in Hl as [Hc Hb]; [|done]. destruct (parse_usize _) as [argc|]; [|done].
    destruct (argc =? 0); [done|].
    assert (∀ k, going_in buf (N.iter k (elem_step buf) (Going 0 cur None))) as Hin.
    { intros k. induction k as [|k IH] using N.peano_ind; [change (0 < cur ≤ zlen buf); unfold zlen in *; lia|].
      rewrite N.iter_succ. by apply elem_step_in. }
    specialize (Hin (Z.to_N argc)). destruct (N.iter _ _ _) as [i c [w|]|r]; [|done|].
    + case_bool_decide; [done|]. intros [= <- <-]. exact Hin.
    + intros ->. by destruct (Hin v n).
  - unfold parse_inline. destruct (find_nl (b :: l)) as [i|] eqn:Hi; [|done].
    apply (find_nl_app _ []) in Hi as [_ Hi]. destruct (first_word _); [|done]. intros [= _ <-]. unfold zlen. lia.
Qed.

(** ** Commands on the wire *)

Inductive Cmd : Type :=
| Array (args : list (list Z))
| Inline (line : list Z).

Definition element (a : list Z) : list Z := [36] ++ print_uint (zlen a) ++ crlf ++ a ++ crlf.

Definition wire (c : Cmd) : list Z :=
  match c with
  | Array args => [42] ++ print_uint (Z.of_nat (length args)) ++ crlf ++ (args ≫= element)
  | Inline line => line ++ [10]
  end.

Definition verb (c : Cmd) : string :=
  match c with
  | Array args => from_utf8_lossy (default [] (head args))
  | Inline line => default "" (first_word (from_utf8_lossy line))
  end.

(** A command the emulator understands, short enough for its buffer. *)
Definition cmd_wf (c : Cmd) : Prop :=
  zlen (wire c) ≤ MAX_BYTES ∧
  match c with
  | Array args => args ≠ [] ∧ verb (Array args) ≠ ""
  | Inline line => line ≠ [] ∧ head line ≠ Some 42 ∧ Forall (λ b, b ≠ 10) line ∧
                   is_Some (first_word (from_utf8_lossy line))
  end.

Lemma print_uint_chars n : 0 ≤ n < 10 ^ 39 → Forall addr_char (print_uint n).
Proof. intros Hn. apply print_digits_addr; lia. Qed.

Lemma parse_usize_print n : 0 ≤ n ≤ u64_max → parse_usize (print_uint n) = Some n.
Proof.
  intros Hn. unfold parse_usize, from_utf8. pose proof (print_uint_chars n) as Hc. unfold u64_max in *.
  rewrite valid_utf8_ascii; [|eapply Forall_impl; [apply Hc; lia|]; unfold addr_char; lia].
  cbn. apply parse_uint_print; lia.
Qed.

Lemma read_crlf_line_at pre l d :
  Forall (λ b, b ≠ 13) l →
  read_crlf_line (pre ++ l ++ crlf ++ d) (zlen pre) = Some (l, zlen pre + zlen l + 2).
Proof.
  intros Hl. unfold read_crlf_line, zlen. rewrite (proj2 (Z.ltb_ge _ _)) by (rewrite length_app; lia).
  rewrite Nat2Z.id, drop_app_length, find_crlf_first by done. cbn. by rewrite take_app_length.
Qed.

Lemma slice_at_mid pre x d : slice_at (pre ++ x ++ d) (zlen pre) (zlen pre + zlen x) = Ret x.
Proof.
  unfold slice_at, zlen. rewrite !(proj2 (Z.leb_le _ _)) by (rewrite ?length_app; lia). cbn. f_equal.
  rewrite Nat2Z.id, drop_app_length. replace (Z.to_nat _) with (length x) by lia. by rewrite take_app_length.
Qed.

Lemma usize_add_small a b : 0 ≤ a + b ≤ u64_max → usize_add a b = a + b.
Proof. intros H. unfold usize_add. apply Z.mod_small. unfold u64_max in *. lia. Qed.

Lemma elem_step_at pre a d i v :
  zlen (pre ++ element a ++ d) ≤ u64_max →
  elem_step (pre ++ element a ++ d) (Going i (zlen pre) v)
  = Going (i + 1) (zlen (pre ++ element a)) (if bool_decide (i = 0%N) then Some (from_utf8_lossy a) else v).
Proof.
  intros Hz. unfold element in *. set (len := print_uint (zlen a)) in *.
  assert (Forall addr_char len) as Hlen.
  { apply print_uint_chars. zlens. }
  set (head_ := [36] ++ len). set (buf := pre ++ _ ++ d) in *.
  assert (buf = pre ++ head_ ++ crlf ++ (a ++ crlf ++ d)) as Hb1 by (unfold buf, head_; by rewrite <-!app_assoc).
  set (p2 := pre ++ head_ ++ crlf).
  assert (buf = p2 ++ a ++ (crlf ++ d)) as Hb2 by (rewrite Hb1; unfold p2; by rewrite <-!app_assoc).
  set (p3 := p2 ++ a).
  assert (buf = p3 ++ crlf ++ d) as Hb3 by (rewrite Hb2; unfold p3; by rewrite <-!app_assoc).
  assert (zlen p2 = zlen pre + zlen head_ + 2) as Hp2 by (unfold p2; zlens).
  assert (zlen p3 = zlen p2 + zlen a) as Hp3 by (unfold p3; by rewrite zlen_app).
  assert (zlen buf = zlen p3 + 2 + zlen d) as Hbz by (rewrite Hb3; zlens).
  cbn [elem_step]. rewrite Hb1 at 1.
  rewrite read_crlf_line_at by (unfold head_; constructor; [done|]; eapply Forall_impl; [exact Hlen|]; unfold addr_char; lia).
  rewrite <-Hp2. unfold head_ at 1 2. cbn [app head drop]. rewrite bool_decide_true by done. cbn [negb].
  change (drop 1 head_) with (print_uint (zlen a)). rewrite parse_usize_print by zlens.
  rewrite (usize_add_small (zlen p2)), <-Hp3, usize_add_small by zlens.
  rewrite (proj2 (Z.ltb_ge _ _)) by zlens. rewrite Hb3 at 1.
  rewrite (slice_at_mid p3 crlf d : slice_at _ (zlen p3) (zlen p3 + 2) = _).
  rewrite bool_decide_true by done. cbn [negb].
  assert (zlen p3 + 2 = zlen (pre ++ [36] ++ len ++ crlf ++ a ++ crlf)) as Hend.
  { unfold p3, p2, head_. zlens. }
  case_bool_decide; [|by rewrite Hend].
  assert (slice_at buf (zlen p2) (zlen p3) = Ret a) as -> by (rewrite Hb2, Hp3; apply slice_at_mid).
  by rewrite Hend.
Qed.

Lemma elem_iter_at args : ∀ pre d i v,
  zlen (pre ++ (args ≫= element) ++ d) ≤ u64_max →
  N.iter (N.of_nat (length args)) (elem_step (pre ++ (args ≫= element) ++ d)) (Going i (zlen pre) v)
  = Going (i + N.of_nat (length args)) (zlen (pre ++ (args ≫= element)))
      (match args with a :: _ => if bool_decide (i = 0%N) then Some (from_utf8_lossy a) else v | [] => v end).
Proof.
  induction args as [|a args IH]; intros pre d i v Hz; cbn [mbind list_bind length].
  - rewrite N.add_0_r, app_nil_r. done.
  - rewrite Nat2N.inj_succ, N.iter_succ_r. cbn [mbind list_bind] in Hz. rewrite <-!app_assoc in *.
    rewrite elem_step_at by done. rewrite (app_assoc pre), IH by (by rewrite <-!app_assoc).
    rewrite <-!app_assoc. f_equal; [lia|]. destruct args; [done|]. rewrite bool_decide_false by lia. done.
Qed.

Lemma length_elements args : Z.of_nat (length args) ≤ zlen (args ≫= element).
Proof.
  induction args as [|a args IH]; [done|].
  change ((a :: args) ≫= element) with (element a ++ (args ≫= element)). unfold element at 1.
  rewrite length_cons. zlens.
Qed.

Lemma parse_array args :
  zlen (wire (Array args)) ≤ MAX_BYTES → args ≠ [] → verb (Array args) ≠ "" →
  parse_resp_array (wire (Array args)) = Ret (Command (verb (Array args)) (zlen (wire (Array args)))).
Proof.
  intros Hz Hne Hv. pose proof (length_elements args) as Hlen. set (n := print_uint (Z.of_nat (length args))).
  set (pre := [42] ++ n ++ crlf).
  assert (wire (Array args) = pre ++ (args ≫= element) ++ []) as Hw
    by (unfold wire, pre; fold n; by rewrite app_nil_r, <-!app_assoc).
  assert (Z.of_nat (length args) ≤ MAX_BYTES) as Ha by (rewrite Hw in Hz; zlens).
  assert (read_crlf_line (wire (Array args)) 0 = Some ([42] ++ n, zlen pre)) as Hl.
  { assert (Forall (λ b, b ≠ 13) ([42] ++ n)) as Hn.
    { constructor; [done|]. eapply Forall_impl; [apply print_uint_chars; zlens|]. unfold addr_char. lia. }
    etransitivity; [exact (read_crlf_line_at [] ([42] ++ n) (args ≫= element) Hn)|].
    unfold pre. do 2 f_equal. change (zlen []) with 0. zlens. }
  unfold parse_resp_array. rewrite Hl. change (drop 1 ([42] ++ n)) with (print_uint (Z.of_nat (length args))).
  rewrite parse_usize_print by zlens.
  rewrite (proj2 (Z.eqb_neq _ _)) by (destruct args; [done|cbn; lia]).
  replace (Z.to_N (Z.of_nat (length args))) with (N.of_nat (length args)) by lia.
  rewrite Hw at 1. rewrite elem_iter_at by (rewrite <-Hw; zlens). destruct args as [|a args]; [done|].
  rewrite bool_decide_true by done. cbn [verb head default from_option] in *.
  rewrite bool_decide_false by done. rewrite Hw, app_nil_r. done.
Qed.

Lemma parse_wire c rest : cmd_wf c → parse_one (wire c ++ rest) = Ret (Command (verb c) (zlen (wire c))).
Proof.
  intros [Hz Hc].
  assert (parse_one (wire c) = Ret (Command (verb c) (zlen (wire c)))) as Hw; [|by rewrite parse_one_app by (by rewrite Hw)].
  destruct c as [args|line].
  - destruct Hc as [Hne Hv].
    change (parse_one (wire (Array args))) with (parse_resp_array (wire (Array args))). by apply parse_array.
  - destruct Hc as (Hne & Hh & Hnl & [w Hw]). cbn [wire verb]. rewrite Hw.
    assert (find_nl (line ++ [10]) = Some (length line)) as Hf.
    { clear -Hnl. induction Hnl as [|b l Hb _ IH]; [done|]. cbn [app find_nl]. rewrite IH.
      by destruct (Z.eqb_spec b 10). }
    destruct line as [|b line]; [done|]. cbn [app parse_one]. destruct (Z.eqb_spec b 42) as [->|]; [done|].
    unfold parse_inline. rewrite app_comm_cons, Hf, take_app_length, Hw. cbn [default from_option].
    do 2 f_equal. unfold zlen. rewrite length_app. cbn. lia.
Qed.

(** A proper prefix of a command waits for the rest. *)
Lemma parse_prefix c p q : cmd_wf c → wire c = p ++ q → q ≠ [] → parse_one p = Ret Incomplete.
Proof.
  intros Hc Hw Hq. pose proof (parse_wire c [] Hc) as Hp. rewrite app_nil_r in Hp.
  destruct (parse_one p) as [r|e|] eqn:Hr.
  2-3: by rewrite Hw, parse_one_app, Hr in Hp by (by rewrite Hr).
  destruct r as [v n| |]; [|done|by rewrite Hw, parse_one_app, Hr in Hp by (by rewrite Hr)].
  pose proof (parse_one_consumed p v n Hr) as Hn. rewrite Hw, parse_one_app, Hr in Hp by (by rewrite Hr).
  injection Hp as _ Hp. rewrite zlen_app in Hp. destruct q; [done|]. unfold zlen in *. cbn in Hp. lia.
Qed.

(** ** Sessions *)

(** The commands up to the first [QUIT]. *)
Fixpoint until_quit (cmds : list Cmd) : list Cmd :=
  match cmds with
  | [] => []
  | c :: cmds => c :: (if eq_ignore_ascii_case (verb c) "QUIT" then [] else until_quit cmds)
  end.
Definition quits (cmds : list Cmd) : bool := existsb (λ c, eq_ignore_ascii_case (verb c) "QUIT") cmds.

Section session.
Context (version : string).

Definition replies (cmds : list Cmd) : list Z := cmds ≫= λ c, reply_for version (verb c).

Definition after (cmds : list Cmd) (p : list Z) (st : State) : State := {|
  total := p; first_cmd := match first_cmd st with None => verb <$> head cmds | f => f end;
  n_in := n_in st; n_out := n_out st + zlen (replies cmds) |}.

Lemma replies_cons c cmds : replies (c :: cmds) = reply_for version (verb c) ++ replies cmds.
Proof. done. Qed.

Lemma after_cons c cmds p q st :
  after cmds p {| total := q; first_cmd := match first_cmd st with None => Some (verb c) | f => f end;
                  n_in := n_in st; n_out := n_out st + zlen (reply_for version (verb c)) |}
  = after (c :: cmds) p st.
Proof.
  unfold after. cbn [first_cmd n_in n_out head fmap option_fmap option_map]. rewrite replies_cons, zlen_app.
  f_equal; [by destruct (first_cmd st)|lia].
Qed.

(** The inner loop answers the complete commands in the buffer and stops at
    what is left, or at a [QUIT]. *)
Lemma drain_commands_spec cmds : ∀ p fuel st sent,
  Forall cmd_wf cmds → total st = (cmds ≫= wire) ++ p → parse_one p = Ret Incomplete →
  (length (total st) < fuel)%nat →
  ∃ p', drain_commands version fuel st (mk_Out [] sent)
  = (Ret (quits cmds, after (until_quit cmds) p' st), mk_Out [] (sent ++ replies (until_quit cmds))) ∧
    (quits cmds = false → p' = p).
Proof.
  induction cmds as [|c cmds IH]; intros p fuel st sent Hw Ht Hp Hf.
  - destruct fuel as [|fuel]; [lia|]. exists p. cbn in Ht. cbn [drain_commands]. rewrite Ht.
    erewrite em_bind_ret by (unfold em_lift; by rewrite Hp). split; [|done]. unfold replies.
    cbn [until_quit mbind list_bind]. rewrite app_nil_r. destruct st as [t f i o]. cbn in *. subst t.
    unfold after. cbn. rewrite Z.add_0_r. by destruct f.
  - apply Forall_cons in Hw as [Hc Hw]. destruct fuel as [|fuel]; [lia|]. cbn [drain_commands].
    change ((c :: cmds) ≫= wire) with (wire c ++ (cmds ≫= wire)) in Ht. rewrite <-app_assoc in Ht.
    erewrite em_bind_ret by (unfold em_lift; by rewrite Ht, parse_wire).
    cbv beta iota. rewrite (proj2 (Z.ltb_ge _ _)) by (rewrite Ht; zlens). cbv zeta.
    erewrite em_bind_ret by done. erewrite em_bind_ret by done. cbn [out_sent]. rewrite app_nil_r.
    assert (drop (Z.to_nat (zlen (wire c))) (total st) = (cmds ≫= wire) ++ p) as ->
      by (unfold zlen; by rewrite Nat2Z.id, Ht, drop_app_length).
    set (st' := {| total := (cmds ≫= wire) ++ p |}).
    change (quits (c :: cmds)) with (eq_ignore_ascii_case (verb c) "QUIT" || quits cmds). cbn [until_quit].
    destruct (eq_ignore_ascii_case (verb c) "QUIT") eqn:Hq; cbn [orb].
    + exists ((cmds ≫= wire) ++ p). split; [|done]. unfold replies, after, st'. cbn. by rewrite app_nil_r.
    + destruct (IH p fuel st' (sent ++ reply_for version (verb c))) as (p' & -> & Hp'); [done..| |].
      { unfold st'. cbn. rewrite Ht in Hf. rewrite !length_app in *.
        pose proof (parse_one_consumed _ _ _ (parse_wire c [] Hc)) as Hn. rewrite app_nil_r in Hn.
        unfold zlen in Hn. lia. }
      exists p'. split; [|done]. unfold st'. rewrite after_cons, replies_cons, <-app_assoc. done.
Qed.

Lemma until_quit_app a b : until_quit (a ++ b) = until_quit a ++ (if quits a then [] else until_quit b).
Proof.
  induction a as [|c a IH]; [done|]. cbn [app until_quit].
  change (quits (c :: a)) with (eq_ignore_ascii_case (verb c) "QUIT" || quits a).
  destruct (eq_ignore_ascii_case _ _); cbn [orb]; [done|]. by rewrite IH.
Qed.
Lemma quits_app a b : quits (a ++ b) = quits a || quits b.
Proof. apply existsb_app. Qed.
Lemma head_until_quit cmds : head (until_quit cmds) = head cmds.
Proof. by destruct cmds. Qed.
Lemma replies_app a b : replies (a ++ b) = replies a ++ replies b.
Proof. apply bind_app. Qed.

Lemma after_app a b p q st : after b p (after a q st) = after (a ++ b) p st.
Proof.
  unfold after. cbn [first_cmd n_in n_out]. rewrite replies_app, zlen_app.
  f_equal; [destruct (first_cmd st); [done|by destruct a]|lia].
Qed.

Definition fed (chunk : list Z) (st : State) : State := {|
  total := total st ++ chunk; first_cmd := first_cmd st; n_in := n_in st + zlen chunk; n_out := n_out st |}.

Lemma after_fed a p chunk st : after a p (fed chunk st)
  = {| total := total (after a p st); first_cmd := first_cmd (after a p st);
       n_in := n_in st + zlen chunk; n_out := n_out (after a p st) |}.
Proof. done. Qed.

Lemma redis_read_loop_spec chunks : ∀ cmds st sent,
  Forall (λ c, c ≠ []) chunks → Forall cmd_wf cmds → total st ++ concat chunks = cmds ≫= wire →
  parse_one (total st) = Ret Incomplete →
  ∃ n, read_loop version (Some <$> chunks) st (mk_Out [] sent)
       = (Ret {| bytes_in := n; bytes_out := n_out (after (until_quit cmds) [] st);
                 note := first_cmd (after (until_quit cmds) [] st) |},
          mk_Out [] (sent ++ replies (until_quit cmds))) ∧
       (quits cmds = false → n = n_in st + zlen (concat chunks)).
Proof.
  induction chunks as [|chunk chunks IH]; intros cmds st sent Hne Hw Ht Hp.
  - exists (n_in st). cbn [concat] in Ht. rewrite app_nil_r in Ht. destruct cmds as [|c cmds].
    + cbn in Ht. unfold replies, finish, after. cbn. rewrite app_nil_r, Z.add_0_r. split; [|intros _; unfold zlen; cbn; lia].
      by destruct st as [t [f|] i o].
    + exfalso. apply Forall_cons in Hw as [Hc _].
      change ((c :: cmds) ≫= wire) with (wire c ++ (cmds ≫= wire)) in Ht. by rewrite Ht, parse_wire in Hp.
  - apply Forall_cons in Hne as [Hc Hne]. cbn [concat] in Ht. rewrite app_assoc in Ht.
    destruct (prefix_split wire _ _ _ Ht) as (dn & rest & p & -> & Hx & Hy & Hor).
    apply Forall_app in Hw as [Hwd Hwr].
    assert (parse_one p = Ret Incomplete ∧ zlen p ≤ MAX_BYTES) as [Hpi Hpm].
    { destruct Hor as [->|(c & rest' & q & -> & Hq & Hqn)]; [done|]. apply Forall_cons in Hwr as [Hcw _].
      split; [by eapply parse_prefix|]. destruct Hcw as [Hz _]. rewrite Hq in Hz. zlens. }
    destruct chunk as [|b chunk]; [done|]. cbn [fmap list_fmap read_loop]. fold (fed (b :: chunk) st).
    destruct (drain_commands_spec dn p (S (length (total st ++ b :: chunk))) (fed (b :: chunk) st) sent)
      as (p' & Hd & Hp'); [done|exact Hx|done|cbn; lia|].
    erewrite em_bind_ret by exact Hd. cbv beta iota. rewrite until_quit_app, quits_app.
    destruct (quits dn) eqn:Hqd; cbn [orb].
    + exists (n_in st + zlen (b :: chunk)). rewrite app_nil_r. done.
    + rewrite Hp' by done. cbn [total after]. rewrite (proj2 (Z.ltb_ge _ _)) by done.
      destruct (IH rest (after (until_quit dn) p (fed (b :: chunk) st)) (sent ++ replies (until_quit dn)))
        as (n & -> & Hn); [done..|].
      exists n. split; [|intros Hq; rewrite Hn by done; cbn [n_in after fed concat]; zlens].
      rewrite after_app, replies_app, <-app_assoc. done.
Qed.
End session.

(** C13: Redis commands are answered one by one, however they arrive. A client
    sends any sequence of commands, RESP arrays of any bytes and inline ones,
    each at most 16 KiB, and TCP cuts the stream anywhere, several commands to a
    segment or many segments to a command: over a healthy connection the
    emulator writes exactly the replies to the commands up to the first
    [QUIT], in order, and records the number of bytes it wrote, the first verb
    and, without a [QUIT], the number of bytes it read. *)
Theorem redis_serves version cmds chunks :
  Forall cmd_wf cmds → Forall (λ c, c ≠ []) chunks → concat chunks = cmds ≫= wire →
  ∃ n, handle version (Some <$> chunks) (mk_Out [] [])
       = (Ret {| bytes_in := n; bytes_out := zlen (replies version (until_quit cmds));
                 note := verb <$> head cmds |},
          mk_Out [] (replies version (until_quit cmds))) ∧
       (quits cmds = false → n = zlen (concat chunks)).
Proof.
  intros Hw Hne Hc. unfold handle.
  destruct (redis_read_loop_spec version chunks cmds {| total := []; first_cmd := None; n_in := 0; n_out := 0 |} [])
    as (n & -> & Hn); [done..|].
  exists n. split; [|exact Hn]. cbn [after n_out first_cmd app]. by rewrite head_until_quit.
Qed.

(** ** Announced lengths *)

(** A line of the buffer announces a bulk string of [blen] bytes that starts at
    [after]. *)
Definition announces (buf : list Z) (blen after : Z) : Prop :=
  ∃ cur line, 0 ≤ cur ∧ read_crlf_line buf cur = Some (line, after) ∧ head line = Some 36 ∧
    parse_usize (drop 1 line) = Some blen.

(** The offset of no announced bulk string wraps around. *)
Definition no_wrap (buf : list Z) : Prop :=
  ∀ blen after, announces buf blen after → after + blen + 2 ≤ u64_max.

Lemma parse_usize_nonneg l n : parse_usize l = Some n → 0 ≤ n.
Proof. unfold parse_usize. destruct (from_utf8 l); [|done]. cbn. by intros [? _]%parse_uint_ok. Qed.

Definition left_ok (st : Elems) : Prop := match st with Left_ r => returns r | Going _ cur _ => 0 ≤ cur end.

(** Without a wrap, a turn of the loop moves forward or ends it. *)
Lemma elem_step_forward buf i cur v :
  no_wrap buf → 0 ≤ cur →
  match elem_step buf (Going i cur v) with
  | Going _ cur' _ => cur + 5 ≤ cur' ≤ zlen buf
  | Left_ r => returns r
  end.
Proof.
  intros Hw Hc. cbn [elem_step]. destruct (read_crlf_line buf cur) as [[line after]|] eqn:Hl; [|done].
  case_bool_decide as Hh; cbn [negb]; [|done]. destruct (parse_usize (drop 1 line)) as [blen|] eqn:Hb; [|done].
  pose proof (read_crlf_line_bounds _ _ _ _ Hc Hl) as [Ha _]. pose proof (parse_usize_nonneg _ _ Hb) as Hn.
  assert (after + blen + 2 ≤ u64_max) as Hs by (apply Hw; by exists cur, line).
  assert (1 ≤ zlen line) by (destruct line; [done|]; unfold zlen; cbn; lia).
  rewrite (usize_add_small after), usize_add_small by lia.
  destruct (Z.ltb_spec (zlen buf) (after + blen + 2)); [done|]. unfold slice_at.
  rewrite !(proj2 (Z.leb_le _ _)) by lia. cbn [andb]. destruct (negb _); [done|].
  case_bool_decide; lia.
Qed.

Lemma elem_iter_forward buf c0 n :
  no_wrap buf → 0 ≤ c0 ≤ zlen buf →
  match N.iter n (elem_step buf) (Going 0 c0 None) with
  | Going _ cur _ => c0 + 5 * Z.of_N n ≤ cur ≤ zlen buf
  | Left_ r => returns r
  end.
Proof.
  intros Hw Hc. induction n as [|n IH] using N.peano_ind; [cbn -[zlen]; lia|]. rewrite N.iter_succ.
  destruct (N.iter n _ _) as [i cur v|r]; [|exact IH].
  pose proof (elem_step_forward buf i cur v Hw ltac:(lia)) as Hs. destruct (elem_step _ _); [lia|exact Hs].
Qed.

(** The Redis parser returns. On a buffer in which no announced length
    makes an offset wrap around, the parser returns a command, a request for
    more bytes or a refusal, never a panic; a command takes at least one and
    at most all of the bytes; and whatever number of elements the client
    announces, the loop over them runs at most once for every five bytes of
    the buffer before it ends. *)
Theorem redis_parser_returns buf c0 :
  no_wrap buf → 0 ≤ c0 ≤ zlen buf →
  returns (parse_one buf) ∧
  (∀ v n, parse_one buf = Ret (Command v n) → 0 < n ≤ zlen buf) ∧
  (∀ n, zlen buf < 5 * Z.of_N n → ∃ r, N.iter n (elem_step buf) (Going 0 c0 None) = Left_ r).
Proof.
  intros Hw Hc. split_and!; [|apply parse_one_consumed|].
  - destruct buf as [|b l]; [done|]. unfold parse_one. destruct (b =? 42); [|done].
    unfold parse_resp_array. set (buf := b :: l) in *.
    destruct (read_crlf_line buf 0) as [[line cur]|] eqn:Hl; [|done].
    apply read_crlf_line_bounds in Hl as [Hcur Hb]; [|done]. destruct (parse_usize _) as [argc|]; [|done].
    destruct (argc =? 0); [done|].
    pose proof (elem_iter_forward buf cur (Z.to_N argc) Hw ltac:(zlens)) as Hi.
    destruct (N.iter _ _ _) as [i c [w|]|r]; [by case_bool_decide|done|exact Hi].
  - intros n Hn. pose proof (elem_iter_forward buf c0 n Hw Hc) as Hi.
    destruct (N.iter _ _ _) as [i c w|r]; [lia|eauto].
Qed.

(** ** A hostile length *)

(** [*18446744073709551615], [$4], [PING], [$18446744073709551591]. *)
Definition spin_bytes : list Z :=
  str_bytes "*18446744073709551615" ++ crlf ++ str_bytes "$4" ++ crlf ++ str_bytes "PING" ++ crlf ++
  str_bytes "$18446744073709551591" ++ crlf.
Definition panic_bytes : list Z := str_bytes "*1" ++ crlf ++ str_bytes "$18446744073709551614" ++ crlf.

Lemma spin_step i v : (0 < i)%N → elem_step spin_bytes (Going i 33 v) = Going (i + 1) 33 v.
Proof.
  intros Hi. cbn [elem_step].
  assert (read_crlf_line spin_bytes 33 = Some (str_bytes "$18446744073709551591", 56)) as -> by vm_refl.
  assert (parse_usize (drop 1 (str_bytes "$18446744073709551591")) = Some 18446744073709551591) as -> by vm_refl.
  assert (bool_decide (head (str_bytes "$18446744073709551591") = Some 36) = true) as -> by vm_refl.
  assert (usize_add 56 18446744073709551591 = 31) as -> by vm_refl.
  assert (usize_add 31 2 = 33) as -> by vm_refl.
  assert (slice_at spin_bytes 31 33 = Ret crlf) as -> by vm_refl.
  assert ((zlen spin_bytes <? 33) = false) as -> by vm_refl.
  cbn [negb]. rewrite bool_decide_true by done. cbn [negb]. by rewrite bool_decide_false by lia.
Qed.


(** ** Examples *)

Definition ex_cmds : list Cmd :=
  [Array [str_bytes "PING"]; Inline (str_bytes "info" ++ [13]); Array [str_bytes "quit"]; Inline (str_bytes "PING")].
Definition ex_stream : list Z := ex_cmds ≫= wire.

Lemma ex_cmds_wf : Forall cmd_wf ex_cmds.
Proof.
  repeat constructor; try (by apply (bool_decide_eq_true_1 _); vm_refl); try discriminate; try (vm_compute; eauto; done).
Qed.

Lemma redis_serves_witness :
  ∃ n, handle "7.2.4" (Some <$> [take 9 ex_stream; take 20 (drop 9 ex_stream); drop 29 ex_stream]) (mk_Out [] [])
       = (Ret {| bytes_in := n; bytes_out := zlen (replies "7.2.4" (until_quit ex_cmds)); note := Some "PING" |},
          mk_Out [] (replies "7.2.4" (until_quit ex_cmds))) ∧
       (quits ex_cmds = false → n = zlen (concat [take 9 ex_stream; take 20 (drop 9 ex_stream); drop 29 ex_stream])).
Proof.
  apply (redis_serves "7.2.4" ex_cmds); [exact ex_cmds_wf| |vm_refl].
  repeat constructor; vm_compute; discriminate.
Defined.

(** A short buffer has no room for a length that wraps. *)
Lemma span_digits_length radix l ds rest : span_digits radix l = (ds, rest) → (length ds ≤ length l)%nat.
Proof.
  revert ds rest. induction l as [|c l IH]; intros ds rest; cbn; [by intros [= <- _]|].
  destruct (to_digit radix c); [|intros [= <- _]; cbn; lia].
  destruct (span_digits radix l) as [ds' r]. intros [= <- _]. specialize (IH _ _ eq_refl). cbn. lia.
Qed.

Lemma digits_value_lt ds : Forall (λ d, 0 ≤ d < 10) ds → digits_value 10 ds < 10 ^ Z.of_nat (length ds).
Proof.
  intros Hd. induction ds as [|d ds IH] using rev_ind; [done|]. apply Forall_app in Hd as [Hd Hx].
  apply Forall_cons in Hx as [Hx _]. rewrite digits_app_value, length_app. cbn [length].
  rewrite Nat2Z.inj_add, Z.pow_add_r by lia. specialize (IH Hd). lia.
Qed.

Lemma parse_usize_lt l n : parse_usize l = Some n → bytes_ok l → n < 10 ^ zlen l.
Proof.
  unfold parse_usize, from_utf8. destruct (valid_utf8 _ l); [|done]. cbn. unfold parse_uint. intros Hp Hl.
  rewrite str_bytes_of in Hp by done. destruct (span_digits 10 _) as [ds rest] eqn:Hs.
  destruct ds as [|d ds]; [done|]. destruct rest; [|done]. destruct (_ <? _); [done|]. injection Hp as <-.
  pose proof (digits_value_lt _ (span_digits_ok _ _ _ _ Hs)) as Hv.
  apply span_digits_length in Hs. eapply Z.lt_le_trans; [exact Hv|]. apply Z.pow_le_mono_r; [lia|].
  unfold zlen. revert Hs. destruct l as [|b l]; cbn; [lia|]. repeat case_match; cbn; lia.
Qed.

Lemma short_no_wrap buf : bytes_ok buf → zlen buf ≤ 18 → no_wrap buf.
Proof.
  intros Hb Hz blen after (cur & line & Hc & Hl & _ & Hp). apply read_crlf_line_bounds in Hl as Ha; [|done].
  assert (bytes_ok (drop 1 line)) as Hok.
  { revert Hl. unfold read_crlf_line. destruct (_ <? _); [done|]. destruct (find_crlf _); [|done]. cbn.
    intros [= <- _]. by apply Forall_drop, Forall_take, Forall_drop. }
  apply parse_usize_lt in Hp; [|done].
  assert (10 ^ zlen (drop 1 line) ≤ 10 ^ 17).
  { apply Z.pow_le_mono_r; [lia|]. destruct Ha as [-> ?]. unfold zlen in *. rewrite length_drop. lia. }
  unfold u64_max. lia.
Qed.

Lemma redis_parser_returns_witness :
  let buf := wire (Array [str_bytes "PING"]) in
  returns (parse_one buf) ∧
  (∀ v n, parse_one buf = Ret (Command v n) → 0 < n ≤ zlen buf) ∧
  (∀ n, zlen buf < 5 * Z.of_N n → ∃ r, N.iter n (elem_step buf) (Going 0 4 None) = Left_ r).
Proof.
  intros buf. apply (redis_parser_returns buf 4).
  - apply short_no_wrap; [|by vm_compute]. apply (bool_decide_eq_true_1 _). vm_refl.
  - vm_compute. split; discriminate.
Defined.
