(* ===== verification/Banner.v ===== *)
(** * Banners, their rotation, and the registry of emulators

    Model of [banner.rs], [banner_reload.rs], [banner_source.rs] and [flux.rs]
    of [crates/blackwall-deception/src], of the generic emulator, of the
    registry of [emulator.rs] and of [default_registry] in [lib.rs], and of the
    two tasks of the daemon that keep the shared banners current: the rotation
    of personas and the reload of a watched file.

    Text files are their bytes; reading them and listing a directory is I/O and
    appears as the text that was read. The hash of a text, unspecified by the
    standard library, is a parameter. *)
From stdpp Require Import prelude gmap strings sorting.
From S2P Require Import Prelude Net Bytes Core NetText Text Nfqueue Emulators.

Open Scope Z_scope.

(** ** Banner files *)

Record BannerStore := { banners : gmap Z (list Z); fallback : list Z }.

Definition backslash : list Z := [92].

Fixpoint unescape_chars (cs : list (list Z)) : list Z :=
  match cs with
  | [] => []
  | c :: cs =>
      if bool_decide (c = backslash) then
        match cs with
        | [] => [92]
        | e :: cs =>
            (if bool_decide (e = [114]) then [13]
             else if bool_decide (e = [110]) then [10]
             else if bool_decide (e = [116]) then [9]
             else if bool_decide (e = [92]) then [92]
             else 92 :: e) ++ unescape_chars cs
        end
      else c ++ unescape_chars cs
  end.
Definition unescape (s : string) : list Z := unescape_chars (chars (str_bytes s)).

Fixpoint parse_lines (ls : list (list Z)) (bs : BannerStore) : result BannerStore DeceptionError :=
  match ls with
  | [] => Ok bs
  | raw :: ls =>
      let line := trim (of_bytes raw) in
      if bool_decide (line = "") || starts_with "#" line then parse_lines ls bs
      else
        match split_once 61 line with
        | None => Err EProtocol
        | Some (key, value) =>
            let bytes := unescape (trim value) in
            if bool_decide (trim key = "*") then parse_lines ls {| banners := banners bs; fallback := bytes |}
            else
              match parse_uint u16_max (trim key) with
              | None => Err EProtocol
              | Some port => parse_lines ls {| banners := <[port := bytes]> (banners bs); fallback := fallback bs |}
              end
        end
  end.
Definition from_text (input : list Z) : result BannerStore DeceptionError :=
  parse_lines (lines input) {| banners := ∅; fallback := crlf |}.

Definition banner_for (bs : BannerStore) (port : Z) : list Z := default (fallback bs) (banners bs !! port).

(** ** The shared store *)

Section shared.
Context (hash_text : list Z → Z).

Record SharedBanners := { sb_store : BannerStore; sb_last_hash : Z }.

(** The text that was read, or the failure to read it. *)
Definition load (file : option (list Z)) : result SharedBanners DeceptionError :=
  match file with
  | None => Err EIo
  | Some text =>
      match from_text text with
      | Err e => Err e
      | Ok store => Ok {| sb_store := store; sb_last_hash := hash_text text |}
      end
  end.

Definition reload (file : option (list Z)) : M SharedBanners (result bool DeceptionError) := λ s,
  match file with
  | None => (Err EIo, s)
  | Some text =>
      let hash := hash_text text in
      if sb_last_hash s =? hash then (Ok false, s)
      else match from_text text with
           | Err e => (Err e, s)
           | Ok store => (Ok true, {| sb_store := store; sb_last_hash := hash |})
           end
  end.

Definition from_store (store : BannerStore) : SharedBanners := {| sb_store := store; sb_last_hash := 0 |}.
Definition swap (store : BannerStore) : M SharedBanners unit :=
  modify (λ s, {| sb_store := store; sb_last_hash := sb_last_hash s |}).

(** The watcher of the daemon reloads on every event that may change the
    content; an error is logged. *)
Definition watch_event (file : option (list Z)) : M SharedBanners unit := _r ← reload file; mret ().
End shared.

(** ** Rotation *)

Definition flux_index (now_unix period_secs : Z) (pool_len : nat) : nat :=
  if (pool_len =? 0)%nat then 0%nat
  else Z.to_nat ((now_unix / Z.max period_secs 1) mod Z.of_nat pool_len).

Definition next_boundary_delay (now_unix period_secs : Z) : Z :=
  let period := Z.max period_secs 1 in period - now_unix mod period.

Abbreviation BannerPool := (list BannerStore).

Definition pool_new (variants : list BannerStore) : option BannerPool :=
  match variants with [] => None | _ => Some variants end.

(** [from_dir] on the texts of the files, already sorted by name. *)
Fixpoint parse_variants (files : list (option (list Z))) : result (list BannerStore) DeceptionError :=
  match files with
  | [] => Ok []
  | None :: _ => Err EIo
  | Some text :: files =>
      match from_text text with
      | Err e => Err e
      | Ok store => match parse_variants files with Err e => Err e | Ok l => Ok (store :: l) end
      end
  end.
Definition from_dir (files : list (option (list Z))) : result BannerPool DeceptionError :=
  match parse_variants files with
  | Err e => Err e
  | Ok variants => match pool_new variants with Some pool => Ok pool | None => Err EProtocol end
  end.

(** [self.variants[index % self.variants.len()]] panics on an empty pool. *)
Definition variant (pool : BannerPool) (index : nat) : rust DeceptionError BannerStore :=
  if (length pool =? 0)%nat then Panic
  else match pool !! (index mod length pool)%nat with Some v => Ret v | None => Panic end.

Record BannerFlux := { bf_pool : BannerPool; bf_period : Z; bf_shared : SharedBanners }.

Definition seeded (pool : BannerPool) (period now_unix : Z) : rust DeceptionError BannerFlux :=
  v ← variant pool (flux_index now_unix period (length pool));
  Ret {| bf_pool := pool; bf_period := period; bf_shared := from_store v |}.

Definition flux_apply (now_unix : Z) (f : BannerFlux) : rust DeceptionError BannerFlux :=
  v ← variant (bf_pool f) (flux_index now_unix (bf_period f) (length (bf_pool f)));
  Ret {| bf_pool := bf_pool f; bf_period := bf_period f; bf_shared := exec (swap v) (bf_shared f) |}.

Definition next_delay (now_unix : Z) (f : BannerFlux) : Z := next_boundary_delay now_unix (bf_period f).

(** The rotation task at the given readings of the clock: the state and the
    time at which the sleep of the last turn ends. *)
Fixpoint rotation (nows : list Z) (f : BannerFlux) : rust DeceptionError BannerFlux :=
  match nows with
  | [] => Ret f
  | now :: nows => f ← flux_apply now f; rotation nows f
  end.

(** ** The registry *)

Record DeceptionMeta := { dm_local : SocketAddr; dm_peer : SocketAddr; dm_proto : L4Proto }.

Record ServiceEmulator := {
  se_name : string;
  se_handle : DeceptionMeta → list Read → EM EmulatorOutcome;
}.

Inductive BannerSource : Type :=
| Fixed (store : BannerStore)
| Live (shared : SharedBanners).
Definition current (src : BannerSource) : BannerStore :=
  match src with Fixed store => store | Live shared => sb_store shared end.

(** The generic emulator; the delay of a tarpit is not observable in the
    outcome. *)
Definition generic (source : BannerSource) : ServiceEmulator := {|
  se_name := "generic";
  se_handle meta _ :=
    let banner := banner_for (current source) (sa_port (dm_local meta)) in
    write_all banner;; flush;;
    mret {| bytes_in := 0; bytes_out := zlen banner; note := None |};
|}.

Record EmulatorRegistry := { by_port : gmap Z ServiceEmulator; default_ : ServiceEmulator }.
Definition registry_new (d : ServiceEmulator) : EmulatorRegistry := {| by_port := ∅; default_ := d |}.
Definition register (port : Z) (e : ServiceEmulator) (r : EmulatorRegistry) : EmulatorRegistry :=
  {| by_port := <[port := e]> (by_port r); default_ := default_ r |}.
Definition for_port (r : EmulatorRegistry) (port : Z) : ServiceEmulator := default (default_ r) (by_port r !! port).

Definition ssh : ServiceEmulator := {| se_name := "ssh"; se_handle _ := Ssh.handle "SSH-2.0-OpenSSH_9.6" |}.
Definition smtp : ServiceEmulator := {| se_name := "smtp"; se_handle _ := Smtp.handle "mail.example.com" |}.
Definition http : ServiceEmulator := {| se_name := "http"; se_handle _ := Http.handle "nginx/1.24.0" |}.
Definition mysql : ServiceEmulator := {| se_name := "mysql"; se_handle _ := Mysql.handle "8.0.36" |}.
Definition postgres : ServiceEmulator := {| se_name := "postgres"; se_handle _ := Postgres_.handle |}.
Definition redis : ServiceEmulator := {| se_name := "redis"; se_handle _ := Redis.handle "7.2.4" |}.

Definition default_registry (source : BannerSource) : EmulatorRegistry :=
  register 6379 redis (register 5432 postgres (register 3306 mysql (register 8080 http (register 80 http
    (register 587 smtp (register 25 smtp (register 22 ssh (registry_new (generic source))))))))).

(** ** Rotation follows the clock *)

Lemma boundary_delay_bounds now period : 1 ≤ next_boundary_delay now period ≤ Z.max period 1.
Proof. unfold next_boundary_delay. pose proof (Z.mod_pos_bound now (Z.max period 1)). lia. Qed.

Lemma bucket_stable now period t :
  now ≤ t < now + next_boundary_delay now period → t / Z.max period 1 = now / Z.max period 1.
Proof.
  unfold next_boundary_delay. set (p := Z.max period 1). intros Ht.
  pose proof (Z.div_mod now p ltac:(lia)) as Hd. pose proof (Z.mod_pos_bound now p ltac:(lia)) as Hm.
  symmetry. apply (Z.div_unique t p _ (t - p * (now / p))); lia.
Qed.

Lemma bucket_next now period :
  (now + next_boundary_delay now period) / Z.max period 1 = now / Z.max period 1 + 1.
Proof.
  unfold next_boundary_delay. set (p := Z.max period 1).
  pose proof (Z.div_mod now p ltac:(lia)) as Hd. pose proof (Z.mod_pos_bound now p ltac:(lia)) as Hm.
  symmetry. apply (Z.div_unique _ p _ 0); lia.
Qed.

Lemma flux_index_lt now period n : (0 < n)%nat → (flux_index now period n < n)%nat.
Proof.
  intros Hn. unfold flux_index. rewrite (proj2 (Nat.eqb_neq n 0)) by lia.
  pose proof (Z.mod_pos_bound (now / Z.max period 1) (Z.of_nat n)). lia.
Qed.

Lemma variant_index (pool : BannerPool) now period :
  pool ≠ [] → ∃ v, pool !! flux_index now period (length pool) = Some v ∧
    variant pool (flux_index now period (length pool)) = Ret v.
Proof.
  intros Hp. assert (0 < length pool)%nat as Hl by (destruct pool; [done|cbn; lia]).
  pose proof (flux_index_lt now period _ Hl) as Hi. destruct (lookup_lt_is_Some_2 _ _ Hi) as [v Hv].
  exists v. split; [done|]. unfold variant. rewrite (proj2 (Nat.eqb_neq _ _)) by lia.
  by rewrite Nat.mod_small, Hv.
Qed.

(** The driver shows the persona of [now]. *)
Definition shows (pool : BannerPool) (period now : Z) (f : BannerFlux) : Prop :=
  bf_pool f = pool ∧ bf_period f = period ∧
  pool !! flux_index now period (length pool) = Some (sb_store (bf_shared f)).

Lemma rotation_shows pool period nows : ∀ t0 f,
  pool ≠ [] → shows pool period t0 f → ∃ f', rotation nows f = Ret f' ∧ shows pool period (default t0 (last nows)) f'.
Proof.
  induction nows as [|now nows IH]; intros t0 f Hp Hf; [by exists f|]. destruct Hf as (Hpool & Hper & _).
  cbn [rotation]. unfold flux_apply. rewrite Hpool, Hper. destruct (variant_index pool now period Hp) as (v & Hv & ->).
  cbn [mbind rust_bind]. destruct (IH now _ Hp (conj eq_refl (conj eq_refl Hv) : shows pool period now
    {| bf_pool := pool; bf_period := period; bf_shared := exec (swap v) (bf_shared f) |})) as (f' & -> & Hs).
  exists f'. split; [done|]. destruct nows as [|x xs]; [exact Hs|]. rewrite last_cons_cons.
  destruct (proj2 (last_is_Some (x :: xs)) ltac:(done)) as [y Hy]. by rewrite Hy in *.
Qed.

(** The rotating banners are those of the current period. Whatever the
    pool, the period (even zero) and the readings of the clock at which the
    rotation task has run, it never panics; until its next wake-up the store
    that the emulators read is the persona of the current time; the sleep is
    at least one second and at most one period; and when it ends the next
    persona of the pool is due, the first one after the last. *)
Theorem banner_rotation pool period t0 nows :
  pool ≠ [] →
  let now := default t0 (last nows) in
  let index t := flux_index t period (length pool) in
  ∃ f0 f, seeded pool period t0 = Ret f0 ∧ rotation nows f0 = Ret f ∧
    1 ≤ next_delay now f ≤ Z.max period 1 ∧
    (∀ t, now ≤ t < now + next_delay now f → pool !! index t = Some (sb_store (bf_shared f))) ∧
    index (now + next_delay now f) = (S (index now) mod length pool)%nat.
Proof.
  intros Hp now index. destruct (variant_index pool t0 period Hp) as (v0 & Hv0 & Hs0).
  unfold seeded. rewrite Hs0. cbn [mbind rust_bind]. set (f0 := {| bf_pool := pool |}).
  destruct (rotation_shows pool period nows t0 f0 Hp) as (f & Hf & Hpool & Hper & Hv); [done|].
  exists f0, f. split; [done|]. split; [done|].
  split; [unfold next_delay; rewrite Hper; apply boundary_delay_bounds|]. split.
  - intros t Ht. unfold next_delay in Ht. rewrite Hper in Ht. rewrite <-Hv. unfold index, flux_index.
    by rewrite (bucket_stable now period t Ht).
  - unfold next_delay. rewrite Hper. unfold index, flux_index. fold now. destruct (Nat.eqb_spec (length pool) 0) as [H0|H0].
    { by destruct pool. }
    rewrite bucket_next. pose proof (Z.mod_pos_bound (now / Z.max period 1) (Z.of_nat (length pool)) ltac:(lia)).
    apply Nat2Z.inj. rewrite Nat2Z.inj_mod, Nat2Z.inj_succ, !Z2Nat.id by (apply Z.mod_pos_bound; lia) || lia.
    unfold Z.succ. by rewrite Zplus_mod_idemp_l.
Qed.

(** ** Reloading follows the file *)

Section reload.
Context (hash_text : list Z → Z).

(** The last text that could be read and parsed. *)
Definition last_good (t0 : list Z) (files : list (option (list Z))) : list Z :=
  foldl (λ t f, match f with
                | Some text => if is_ok (from_text text) then text else t
                | None => t
                end) t0 files.

Definition loaded (t : list Z) (s : SharedBanners) : Prop :=
  from_text t = Ok (sb_store s) ∧ sb_last_hash s = hash_text t.

Lemma reload_loaded t s file :
  loaded t s → (∀ text, file = Some text → hash_text text = hash_text t → text = t) →
  loaded (last_good t [file]) (exec (reload hash_text file) s).
Proof.
  intros [Hs Hh] Hinj. destruct file as [text|]; [|done]. unfold last_good, exec, reload. cbn [foldl].
  rewrite Hh. destruct (Z.eqb_spec (hash_text t) (hash_text text)) as [He|He].
  - rewrite (Hinj text eq_refl) by done. by rewrite Hs.
  - by destruct (from_text text) as [store|e] eqn:Ht.
Qed.

(** A reload follows the file. The watcher may run on any sequence of
    events, with the file absent, unreadable or broken at some of them: as long
    as the hash tells the texts of the file apart, the store in use is always
    the parse of the last text that could be read and parsed, a broken file
    never replaces good banners, and repairing it installs the repair. *)
Theorem banners_follow_file t0 files s :
  load hash_text (Some t0) = Ok s →
  (∀ a b, a ∈ t0 :: omap id files → b ∈ t0 :: omap id files → hash_text a = hash_text b → a = b) →
  let s' := exec (for_each files (watch_event hash_text)) s in
  from_text (last_good t0 files) = Ok (sb_store s').
Proof.
  intros Hload Hinj. assert (loaded t0 s) as Hs.
  { unfold load in Hload. unfold loaded. destruct (from_text t0); [|done]. by injection Hload as <-. }
  clear Hload. cbv zeta. revert t0 s Hs Hinj. induction files as [|f files IH]; intros t0 s Hs Hinj; [apply Hs|].
  rewrite exec_for_each_cons. apply (IH (last_good t0 [f])).
  - assert (exec (watch_event hash_text f) s = exec (reload hash_text f) s) as -> by (unfold watch_event; by rewrite exec_bind).
    apply reload_loaded; [done|]. intros text -> He. apply Hinj; [set_solver| |done]. cbn. set_solver.
  - assert (∀ x, x ∈ last_good t0 [f] :: omap id files → x ∈ t0 :: omap id (f :: files)) as Hsub.
    { intros x. unfold last_good. cbn. destruct f as [text|]; cbn; [|set_solver].
      destruct (is_ok (from_text text)); set_solver. }
    intros a b Ha Hb. apply Hinj; by apply Hsub.
Qed.
End reload.

(** ** Concrete uses *)

Definition persona (b : Z) : BannerStore := {| banners := ∅; fallback := [b] |}.

(** Three personas rotated every 60 seconds, read at the second one. *)
Lemma banner_rotation_witness :
  let pool := [persona 1; persona 2; persona 3] in
  ∃ f0 f, seeded pool 60 0 = Ret f0 ∧ rotation [75] f0 = Ret f ∧
    1 ≤ next_delay 75 f ≤ 60 ∧
    (∀ t, 75 ≤ t < 75 + next_delay 75 f →
      pool !! flux_index t 60 3 = Some (sb_store (bf_shared f))) ∧
    flux_index (75 + next_delay 75 f) 60 3 = 2%nat.
Proof. apply (banner_rotation [persona 1; persona 2; persona 3] 60 0 [75]). discriminate. Defined.

(** The file is replaced by a broken one, which is ignored, then repaired. *)
Lemma banners_follow_file_witness :
  let t0 := str_bytes "22=SSH" in
  let broken := str_bytes "port" in
  let repaired := str_bytes "22=SSH-2.0" in
  let hash l := Z.of_nat (length l) in
  let s := {| sb_store := {| banners := {[22 := str_bytes "SSH"]}; fallback := crlf |}; sb_last_hash := 6 |} in
  from_text repaired =
    Ok (sb_store (exec (for_each [Some broken; None; Some repaired] (watch_event hash)) s)).
Proof.
  apply (banners_follow_file (λ l, Z.of_nat (length l)) (str_bytes "22=SSH")
           [Some (str_bytes "port"); None; Some (str_bytes "22=SSH-2.0")]).
  - vm_refl.
  - intros a b Ha Hb. cbn [omap list_omap id] in Ha, Hb.
    repeat (apply elem_of_cons in Ha as [->|Ha]); try (by apply elem_of_nil in Ha);
      repeat (apply elem_of_cons in Hb as [->|Hb]); try (by apply elem_of_nil in Hb); intros He; done.
Defined.
