(* ===== verification/EmulatorSpec.v ===== *)
(** * The other emulators: conversations, accounts and bounds

    Theorems on [Emulators]: an SMTP client is answered line by line however
    its lines arrive; the bytes an emulator reports are the bytes it read and
    wrote, and what it reads is bounded; the packets of the binary protocols
    are framed as their specifications say. *)
From stdpp Require Import prelude gmap strings.
From S2P Require Import Prelude Net Bytes Core NetText Text Nfqueue Emulators Banner.

Open Scope Z_scope.

(** ** SMTP *)

Module SmtpSpec.
Import Emulators.Smtp.

(** A line of a client, without its CRLF. *)
Definition line_ok (l : list Z) : Prop := find_crlf (l ++ crlf) = Some (length l).
Definition sent_line (l : list Z) : list Z := l ++ crlf.

Section smtp.
Context (hostname : string).

Definition is_data (line : string) : bool := eq_ignore_ascii_case (default "" (first_word line)) "DATA".

(** The conversation: between [DATA] and a line with a single dot nothing is
    answered; any other line is a command with one reply; it ends after
    [QUIT] or after 64 commands. *)
Fixpoint converse (ls : list (list Z)) (data : bool) (k : Z) : list Z :=
  match ls with
  | [] => []
  | l :: ls =>
      let line := from_utf8_lossy l in
      if data then
        if bool_decide (line = ".") then ok_reply ++ converse ls false k else converse ls true k
      else
        let '(reply, close) := reply_for hostname line in
        reply ++ (if close || (MAX_COMMANDS <=? k + 1) then [] else converse ls (is_data line) (k + 1))
  end.

(** Where the conversation is after some lines: [None] when it is over. *)
Fixpoint mode (ls : list (list Z)) (data : bool) (k : Z) : option (bool * Z) :=
  match ls with
  | [] => Some (data, k)
  | l :: ls =>
      let line := from_utf8_lossy l in
      if data then mode ls (negb (bool_decide (line = "."))) k
      else if snd (reply_for hostname line) || (MAX_COMMANDS <=? k + 1) then None
      else mode ls (is_data line) (k + 1)
  end.

Lemma converse_app a b data k :
  converse (a ++ b) data k
  = converse a data k ++ match mode a data k with Some (d, k') => converse b d k' | None => [] end.
Proof.
  revert data k. induction a as [|l a IH]; intros data k; [done|]. cbn [app converse mode].
  destruct data.
  - case_bool_decide; cbn [negb]; rewrite IH; [by rewrite app_assoc|done].
  - destruct (reply_for _ _) as [r c]. cbn [snd]. destruct (c || _); [by rewrite !app_nil_r|].
    by rewrite IH, app_assoc.
Qed.

Lemma mode_app a b data k :
  mode (a ++ b) data k = match mode a data k with Some (d, k') => mode b d k' | None => None end.
Proof.
  revert data k. induction a as [|l a IH]; intros data k; [done|]. cbn [app mode].
  destruct data; [apply IH|]. destruct (_ || _); [done|apply IH].
Qed.

Lemma find_crlf_line l rest : line_ok l → find_crlf (sent_line l ++ rest) = Some (length l).
Proof. intros Hl. unfold sent_line. by apply find_crlf_app. Qed.

(** A proper prefix of a line waits for the rest. *)
Lemma find_crlf_prefix l p q : line_ok l → sent_line l = p ++ q → q ≠ [] → find_crlf p = None.
Proof.
  intros Hl Hp Hq. destruct (find_crlf p) as [i|] eqn:Hi; [|done]. exfalso.
  unfold sent_line in Hp. unfold line_ok in Hl. rewrite Hp, (find_crlf_app p q i Hi) in Hl. injection Hl as ->.
  apply find_crlf_lt in Hi. apply (f_equal length) in Hp. rewrite !length_app in Hp. cbn in Hp.
  destruct q; [done|]. cbn in Hp. lia.
Qed.

Definition summary (ls : list (list Z)) (st : State) : option string :=
  match first_cmd st with None => from_utf8_lossy <$> head ls | f => f end.

(** The inner loop answers the complete lines in the buffer. *)
Lemma take_lines_spec ls : ∀ p fuel st sent,
  Forall line_ok ls → buf st = (ls ≫= sent_line) ++ p → find_crlf p = None →
  (length (buf st) ≤ fuel)%nat → (in_data st = true → first_cmd st ≠ None) →
  ∃ st', take_lines hostname fuel st (mk_Out [] sent)
    = (Ret (bool_decide (mode ls (in_data st) (commands st) = None), st'),
       mk_Out [] (sent ++ converse ls (in_data st) (commands st))) ∧
    n_in st' = n_in st ∧ n_out st' = n_out st + zlen (converse ls (in_data st) (commands st)) ∧
    first_cmd st' = summary ls st ∧
    (∀ d k, mode ls (in_data st) (commands st) = Some (d, k) →
       buf st' = p ∧ in_data st' = d ∧ commands st' = k).
Proof.
  induction ls as [|l ls IH]; intros p fuel st sent Hok Hb Hp Hf Hd.
  - exists st. cbn in Hb. assert (find_crlf (buf st) = None) as Hn by (by rewrite Hb).
    cbn [converse mode]. rewrite app_nil_r. change (zlen []) with 0. rewrite Z.add_0_r.
    split_and!; [|done|done|unfold summary; by destruct (first_cmd st)|naive_solver].
    destruct fuel; cbn [take_lines]; by rewrite Hn.
  - apply Forall_cons in Hok as [Hl Hok].
    change ((l :: ls) ≫= sent_line) with (sent_line l ++ (ls ≫= sent_line)) in Hb. rewrite <-app_assoc in Hb.
    assert (find_crlf (buf st) = Some (length l)) as Hn by (rewrite Hb; by apply find_crlf_line).
    assert (take (length l) (buf st) = l) as Ht by (rewrite Hb; unfold sent_line; by rewrite <-app_assoc, take_app_length).
    assert (drop (length l + 2) (buf st) = (ls ≫= sent_line) ++ p) as Hdr.
    { rewrite Hb. apply drop_app_length'. unfold sent_line. rewrite length_app. done. }
    assert (length (buf st) = length l + 2 + length ((ls ≫= sent_line) ++ p))%nat as Hlen.
    { rewrite Hb, length_app. unfold sent_line. rewrite length_app. done. }
    destruct fuel as [|fuel]; [lia|]. cbn [take_lines]. rewrite Hn, Ht, Hdr.
    set (rest := (ls ≫= sent_line) ++ p) in *. cbn [converse mode]. destruct (in_data st) eqn:Hi.
    + destruct (first_cmd st) as [fc|] eqn:Hfc; [|by destruct Hd].
      case_bool_decide; cbn [negb].
      * erewrite em_bind_ret by done. erewrite em_bind_ret by done. cbn [out_sent]. rewrite app_nil_r.
        set (st1 := {| buf := rest |}).
        destruct (IH p fuel st1 (sent ++ ok_reply)) as (st' & -> & Hin & Hout & Hfirst & Hm);
          [done|done|done|cbn; lia|done|].
        exists st'. rewrite app_assoc, zlen_app. change (zlen ok_reply) with 8. unfold summary in *. rewrite Hfc.
        cbn [st1 n_out n_in first_cmd in_data commands] in *. split_and!; [done|done|lia|done|done].
      * set (st1 := {| buf := rest |}).
        destruct (IH p fuel st1 sent) as (st' & -> & Hin & Hout & Hfirst & Hm); [done|done|done|cbn; lia|done|].
        exists st'. unfold summary in *. rewrite Hfc. done.
    + destruct (reply_for hostname (from_utf8_lossy l)) as [reply close] eqn:Hr. cbn [snd].
      erewrite em_bind_ret by done. cbn [out_sent commands].
      set (st1 := {| buf := rest |}). destruct (close || (MAX_COMMANDS <=? commands st + 1)) eqn:Hc.
      * exists st1. rewrite app_nil_r, bool_decide_true by done. unfold summary. by destruct (first_cmd st).
      * destruct (IH p fuel st1 (sent ++ reply)) as (st' & -> & Hin & Hout & Hfirst & Hm);
          [done|done|done|cbn; lia|intros _; cbn; by destruct (first_cmd st)|].
        exists st'. rewrite app_assoc, zlen_app. unfold summary in *.
        cbn [st1 n_out n_in first_cmd in_data commands] in *.
        split_and!; [done|done|unfold is_data; lia| |done]. rewrite Hfirst. by destruct (first_cmd st).
Qed.

Lemma finish_ok st sent :
  finish st (mk_Out [] sent)
  = (Ret {| bytes_in := n_in st; bytes_out := n_out st; note := first_cmd st |}, mk_Out [] sent).
Proof. unfold finish. erewrite em_bind_ret by done. cbn. by rewrite app_nil_r. Qed.

Lemma smtp_read_loop_spec chunks : ∀ ls st sent,
  Forall (λ c, c ≠ []) chunks → Forall line_ok ls → buf st ++ concat chunks = ls ≫= sent_line →
  find_crlf (buf st) = None → (in_data st = true → first_cmd st ≠ None) →
  n_in st + zlen (concat chunks) ≤ MAX_BYTES →
  ∃ n, read_loop hostname (Some <$> chunks) st (mk_Out [] sent)
    = (Ret {| bytes_in := n; bytes_out := n_out st + zlen (converse ls (in_data st) (commands st));
              note := summary ls st |},
       mk_Out [] (sent ++ converse ls (in_data st) (commands st))) ∧
    (mode ls (in_data st) (commands st) ≠ None → n = n_in st + zlen (concat chunks)).
Proof.
  induction chunks as [|chunk chunks IH]; intros ls st sent Hne Hok Hb Hp Hd Hmax.
  - exists (n_in st). cbn [concat] in *. rewrite app_nil_r in Hb. change (zlen []) with 0.
    split; [|intros _; lia]. destruct ls as [|l ls].
    + cbn [fmap list_fmap read_loop converse]. rewrite finish_ok, app_nil_r. change (zlen []) with 0.
      rewrite Z.add_0_r. unfold summary. by destruct (first_cmd st).
    + exfalso. apply Forall_cons in Hok as [Hl _].
      change ((l :: ls) ≫= sent_line) with (sent_line l ++ (ls ≫= sent_line)) in Hb.
      by rewrite Hb, find_crlf_line in Hp.
  - apply Forall_cons in Hne as [Hc Hne]. cbn [concat] in Hb, Hmax. rewrite app_assoc in Hb.
    destruct (prefix_split sent_line _ _ _ Hb) as (dn & rest & p & -> & Hx & Hy & Hor).
    apply Forall_app in Hok as [Hdn Hrest].
    assert (find_crlf p = None) as Hpn.
    { destruct Hor as [->|(l & rest' & q & -> & Hq & Hqn)]; [done|]. apply Forall_cons in Hrest as [Hl _].
      by eapply find_crlf_prefix. }
    destruct chunk as [|b chunk]; [done|]. cbn [fmap list_fmap read_loop].
    set (st1 := {| buf := buf st ++ b :: chunk |}).
    rewrite (proj2 (Z.ltb_ge _ _)) by (cbn [n_in st1]; rewrite zlen_app in Hmax; zlens).
    destruct (take_lines_spec dn p (length (buf st1)) st1 sent) as (st2 & Ht & Hin & Hout & Hfirst & Hm); [done..|].
    erewrite em_bind_ret by exact Ht. cbn [st1 in_data commands n_in n_out] in *.
    rewrite converse_app, mode_app. destruct (mode dn _ _) as [[d k]|] eqn:Hmode.
    + rewrite bool_decide_false by done. destruct (Hm d k eq_refl) as (Hb2 & Hd2 & Hk2).
      destruct (IH rest st2 (sent ++ converse dn (in_data st) (commands st))) as (n & Hr & Hn); [done..| | | | |].
      { by rewrite Hb2. } { by rewrite Hb2. }
      { intros Ht2. rewrite Hfirst. unfold summary. cbn [st1 first_cmd]. destruct (first_cmd st) eqn:Hfc; [done|].
        destruct dn as [|l dn]; [|done]. cbn in Hmode. injection Hmode as <- <-. rewrite Ht2 in Hd2. by destruct Hd. }
      { rewrite Hin. rewrite zlen_app in Hmax. lia. }
      exists n. rewrite Hd2, Hk2 in Hr, Hn. rewrite Hr, zlen_app, app_assoc, Hout. split.
      * do 2 f_equal. f_equal; [lia|]. unfold summary in *. cbn [st1 first_cmd] in Hfirst. rewrite Hfirst.
        destruct (first_cmd st); [done|]. by destruct dn.
      * intros Hx2. rewrite Hn, Hin by done. cbn [concat]. change (b :: chunk ++ concat chunks) with ((b :: chunk) ++ concat chunks). rewrite zlen_app. lia.
    + rewrite bool_decide_true by done. rewrite finish_ok, app_nil_r. exists (n_in st2).
      split; [|done]. rewrite Hout, Hfirst. unfold summary. cbn [st1 first_cmd].
      destruct (first_cmd st); [done|]. by destruct dn.
Qed.
End smtp.

(** An SMTP client is answered line by line, however its lines arrive. A
    client sends any lines, 16 KiB at most in all, and TCP cuts the stream
    anywhere: over a healthy connection the emulator writes its greeting and
    then exactly the conversation: one reply to each command, nothing between
    [DATA] and the line with a single dot but the acknowledgement at its end,
    and nothing after [QUIT] or the 64th command. It records the bytes it
    wrote, the first line, and, while the conversation is not over, the bytes
    it read. *)
Theorem smtp_converses hostname ls chunks :
  Forall line_ok ls → Forall (λ c, c ≠ []) chunks → concat chunks = ls ≫= sent_line →
  zlen (concat chunks) ≤ MAX_BYTES →
  let sent := greeting hostname ++ converse hostname ls false 0 in
  ∃ n, handle hostname (Some <$> chunks) (mk_Out [] [])
       = (Ret {| bytes_in := n; bytes_out := zlen sent; note := from_utf8_lossy <$> head ls |}, mk_Out [] sent) ∧
       (mode hostname ls false 0 ≠ None → n = zlen (concat chunks)).
Proof.
  intros Hok Hne Hc Hmax sent. unfold handle. do 2 erewrite em_bind_ret by done. cbn [out_sent app].
  rewrite app_nil_r. set (st := {| buf := [] |}).
  destruct (smtp_read_loop_spec hostname chunks ls st (greeting hostname)) as (n & -> & Hn); [done..|].
  exists n. split; [|exact Hn]. unfold sent. by rewrite zlen_app.
Qed.
End SmtpSpec.

(** ** Accounts *)

(** [Q] holds of the value and of the number of bytes written. *)
Definition em_post {A} (m : EM A) (Q : A → Z → Prop) : Prop :=
  ∀ s a s', m s = (Ret a, s') → ∃ w, zlen (out_sent s') = zlen (out_sent s) + w ∧ Q a w.
Definition em_total {A} (m : EM A) : Prop := ∀ s, (m s).1 ≠ Panic.

Lemma em_post_ret {A} (a : A) (Q : A → Z → Prop) : Q a 0 → em_post (mret a) Q.
Proof. intros HQ s b s' [= <- <-]. exists 0. split; [lia|done]. Qed.

Lemma em_post_weaken {A} (m : EM A) (Q R : A → Z → Prop) : em_post m Q → (∀ a w, Q a w → R a w) → em_post m R.
Proof. intros Hm HR s a s' Hs. destruct (Hm _ _ _ Hs) as (w & Hw & HQ). eauto. Qed.

Lemma em_post_bind {A B} (m : EM A) (k : A → EM B) Q R :
  em_post m Q → (∀ a w, Q a w → em_post (k a) (λ b w', R b (w + w'))) → em_post (m ≫= k) R.
Proof.
  intros Hm Hk s b s'. unfold mbind, em_bind. destruct (m s) as [[a|e|] s1] eqn:Hs; [|done..]. intros Hb.
  destruct (Hm _ _ _ Hs) as (w & Hw & HQ). destruct (Hk a w HQ _ _ _ Hb) as (w' & Hw' & HR).
  exists (w + w'). split; [lia|done].
Qed.

Lemma em_post_io data : em_post (io data) (λ _ w, w = zlen data).
Proof.
  intros s a s'. unfold io. destruct (out_script s) as [|[] l]; try done; intros [= <- <-];
    exists (zlen data); cbn [out_sent]; by rewrite zlen_app.
Qed.

Lemma em_post_lift {A} (r : rust DeceptionError A) : em_post (em_lift r) (λ a w, r = Ret a ∧ w = 0).
Proof. intros s a s' [= -> <-]. exists 0. split; [lia|done]. Qed.

Lemma em_total_ret {A} (a : A) : em_total (mret a).
Proof. done. Qed.
Lemma em_total_bind {A B} (m : EM A) (k : A → EM B) : em_total m → (∀ a, em_total (k a)) → em_total (m ≫= k).
Proof.
  intros Hm Hk s. unfold mbind, em_bind. specialize (Hm s). destruct (m s) as [[a|e|] s1]; [apply Hk|done|done].
Qed.
Lemma em_total_io data : em_total (io data).
Proof. intros s. unfold io. by destruct (out_script s) as [|[] l]. Qed.
Lemma em_total_lift {A} (r : rust DeceptionError A) : returns r → em_total (em_lift r).
Proof. by intros Hr s. Qed.

(** What was read: the bytes of the first reads. *)
Definition input (rs : list Read) : list Z := concat (omap id rs).
Definition taken (rs : list Read) (n : Z) : Prop := ∃ k, n = zlen (input (take k rs)).

(** The record of a session says how many bytes were written and read. *)
Definition accounted (h : list Read → EM EmulatorOutcome) : Prop :=
  ∀ rs, em_post (h rs) (λ o w, bytes_out o = w ∧ taken rs (bytes_in o)).

Lemma taken_cons chunk rs n m : taken rs n → m = zlen chunk + n → taken (Some chunk :: rs) m.
Proof. intros [k ->] ->. exists (S k). unfold input. cbn. by rewrite zlen_app. Qed.
Lemma taken_none rs : taken rs 0.
Proof. by exists 0%nat. Qed.

Ltac em_step :=
  first [apply em_post_ret | eapply em_post_bind; [first [apply em_post_io | apply em_post_lift]|cbv beta; intros]].

Lemma read_one_taken rs chunk : read_one rs = Ret chunk → taken rs (zlen chunk).
Proof.
  destruct rs as [|[c|] rs]; [intros [= <-]; apply taken_none| |done]. intros [= ->].
  eapply taken_cons; [apply taken_none|lia].
Qed.

Lemma mysql_accounted version : accounted (Mysql.handle version).
Proof.
  intros rs. unfold Mysql.handle. repeat em_step. destruct_and?; simplify_eq. cbn [bytes_out bytes_in].
  split; [zlens|]. by apply read_one_taken.
Qed.
Lemma postgres_accounted : accounted Postgres_.handle.
Proof.
  intros rs. unfold Postgres_.handle. repeat em_step. destruct_and?; simplify_eq. cbn [bytes_out bytes_in].
  split; [zlens|]. by apply read_one_taken.
Qed.

Lemma ssh_read_taken rs : ∀ buf out, Ssh.read_banner rs buf = Ret out → ∃ n, zlen out = zlen buf + n ∧ taken rs n.
Proof.
  induction rs as [|[chunk|] rs IH]; intros buf out; cbn [Ssh.read_banner]; [|destruct chunk as [|b c]|done].
  1-2: intros [= ->]; exists 0; split; [lia|apply taken_none].
  set (chunk := b :: c). destruct (_ || _).
  - intros [= <-]. exists (zlen chunk). split; [zlens|]. eapply taken_cons; [apply taken_none|lia].
  - intros (n & Hn & Ht)%IH. exists (zlen chunk + n). split; [zlens|]. by eapply taken_cons.
Qed.
Lemma ssh_accounted version : accounted (Ssh.handle version).
Proof.
  intros rs. unfold Ssh.handle. repeat em_step. destruct_and?; simplify_eq. cbn [bytes_out bytes_in].
  destruct (ssh_read_taken rs [] _ ltac:(eassumption)) as (n & Hn & Ht). split; [zlens|]. rewrite Hn. exact Ht.
Qed.

Lemma http_read_taken rs : ∀ buf out, Http.read_request rs buf = Ret out → ∃ n, zlen out = zlen buf + n ∧ taken rs n.
Proof.
  induction rs as [|[chunk|] rs IH]; intros buf out; cbn [Http.read_request]; [|destruct chunk as [|b c]|done].
  1-2: intros [= ->]; exists 0; split; [lia|apply taken_none].
  set (chunk := b :: c). destruct (_ || _).
  - intros [= <-]. exists (zlen chunk). split; [zlens|]. eapply taken_cons; [apply taken_none|lia].
  - intros (n & Hn & Ht)%IH. exists (zlen chunk + n). split; [zlens|]. by eapply taken_cons.
Qed.
Lemma http_accounted server : accounted (Http.handle server).
Proof.
  intros rs. unfold Http.handle. repeat em_step. destruct_and?; simplify_eq. cbn [bytes_out bytes_in].
  destruct (http_read_taken rs [] _ ltac:(eassumption)) as (n & Hn & Ht). split; [zlens|]. rewrite Hn. exact Ht.
Qed.

Lemma redis_drain_post version fuel : ∀ st,
  em_post (Redis.drain_commands version fuel st)
    (λ r w, Redis.n_out r.2 = Redis.n_out st + w ∧ Redis.n_in r.2 = Redis.n_in st).
Proof.
  induction fuel as [|fuel IH]; intros st; cbn [Redis.drain_commands]; [by intros s a s'|].
  em_step. destruct H as [_ ->]. destruct a as [verb consumed| |]; [|apply em_post_ret; split; cbn; lia..].
  destruct (_ <? _); [by intros s a s'|]. cbv zeta. do 2 em_step. subst.
  destruct (eq_ignore_ascii_case _ _); [apply em_post_ret; split; cbn -[zlen]; zlens|].
  intros s r s' Hr. destruct (IH _ _ _ _ Hr) as (w & Hw & Ho & Hi). cbn [Redis.n_in Redis.n_out] in *.
  exists w. split; [done|]. split; [zlens|done].
Qed.

Lemma redis_loop_post version rs : ∀ st,
  em_post (Redis.read_loop version rs st)
    (λ o w, bytes_out o = Redis.n_out st + w ∧ ∃ n, bytes_in o = Redis.n_in st + n ∧ taken rs n).
Proof.
  induction rs as [|[chunk|] rs IH]; intros st; cbn [Redis.read_loop]; [|destruct chunk as [|b c]|by intros s a s'].
  1-2: apply em_post_ret; cbn; split; [lia|]; exists 0; split; [lia|apply taken_none].
  set (chunk := b :: c). cbv zeta. eapply em_post_bind; [apply redis_drain_post|].
  intros [ended st1] w [Ho Hi]. cbn [snd Redis.n_in Redis.n_out] in Ho, Hi. cbv beta iota.
  destruct (ended || _).
  - apply em_post_ret. cbn [Redis.finish bytes_out bytes_in]. split; [lia|].
    exists (zlen chunk). split; [lia|]. eapply taken_cons; [apply taken_none|lia].
  - eapply em_post_weaken; [apply IH|]. intros o w' (Hout & n & Hn & Ht). split; [lia|].
    exists (zlen chunk + n). split; [lia|]. by eapply taken_cons.
Qed.

Lemma redis_accounted version : accounted (Redis.handle version).
Proof.
  intros rs s o s' Hr. destruct (redis_loop_post version rs _ _ _ _ Hr) as (w & Hw & Ho & n & Hn & Ht).
  exists w. cbn in Ho, Hn. split; [done|]. split; [done|]. by rewrite Hn.
Qed.

Lemma smtp_lines_post hostname fuel : ∀ st,
  em_post (Smtp.take_lines hostname fuel st)
    (λ r w, Smtp.n_out r.2 = Smtp.n_out st + w ∧ Smtp.n_in r.2 = Smtp.n_in st).
Proof.
  induction fuel as [|fuel IH]; intros st; cbn [Smtp.take_lines];
    (destruct (find_crlf _) as [pos|]; [|apply em_post_ret; cbn; lia]); [by intros s a s'|].
  destruct (Smtp.in_data st).
  - case_bool_decide.
    + do 2 em_step. subst. intros s r s' Hr. destruct (IH _ _ _ _ Hr) as (w & Hw & Ho & Hi). cbn in Ho, Hi.
      exists w. split; [done|]. split; [|done]. rewrite Ho. change (zlen Smtp.ok_reply) with 8. zlens.
    + intros s r s' Hr. by destruct (IH _ _ _ _ Hr) as (w & Hw & Ho & Hi); eauto.
  - destruct (Smtp.reply_for _ _) as [reply close]. em_step. subst. cbv zeta. destruct (close || _).
    + apply em_post_ret. cbn -[zlen]. split; [zlens|done].
    + intros s r s' Hr. destruct (IH _ _ _ _ Hr) as (w & Hw & Ho & Hi). cbn -[zlen] in Ho, Hi.
      exists w. split; [done|]. split; [lia|done].
Qed.

Lemma smtp_finish_post st rs n0 n :
  Smtp.n_in st = n0 + n → taken rs n →
  em_post (Smtp.finish st) (λ o w, w = 0 ∧ bytes_out o = Smtp.n_out st ∧ ∃ n, bytes_in o = n0 + n ∧ taken rs n).
Proof. intros Hn Ht. unfold Smtp.finish. do 2 em_step. subst. cbn [bytes_out bytes_in]. eauto. Qed.

Lemma smtp_loop_post hostname rs : ∀ st,
  em_post (Smtp.read_loop hostname rs st)
    (λ o w, bytes_out o = Smtp.n_out st + w ∧ ∃ n, bytes_in o = Smtp.n_in st + n ∧ taken rs n).
Proof.
  induction rs as [|[chunk|] rs IH]; intros st; cbn [Smtp.read_loop]; [|destruct chunk as [|b c]|by intros s a s'].
  1-2: eapply em_post_weaken; [eapply (smtp_finish_post st _ (Smtp.n_in st) 0); [lia|apply taken_none]|];
    intros o w (-> & Ho & Hi); split; [lia|exact Hi].
  set (chunk := b :: c). cbv zeta. assert (taken (Some chunk :: rs) (zlen chunk)) as Hc.
  { eapply taken_cons; [apply taken_none|lia]. }
  destruct (_ <? _).
  { eapply em_post_weaken; [by apply (smtp_finish_post _ (Some chunk :: rs) (Smtp.n_in st) (zlen chunk))|].
    intros o w (-> & Ho & Hi). cbn [Smtp.n_out] in Ho. split; [lia|done]. }
  eapply em_post_bind; [apply smtp_lines_post|]. intros [ended st1] w [Ho Hi].
  cbn [snd Smtp.n_in Smtp.n_out] in Ho, Hi. cbv beta iota. destruct ended.
  - eapply em_post_weaken; [by apply (smtp_finish_post st1 (Some chunk :: rs) (Smtp.n_in st) (zlen chunk))|].
    intros o w' (-> & Ho' & Hi'). split; [lia|done].
  - eapply em_post_weaken; [apply IH|]. intros o w' (Hout & n & Hn & Ht). split; [lia|].
    exists (zlen chunk + n). split; [lia|]. by eapply taken_cons.
Qed.

Lemma smtp_accounted hostname : accounted (Smtp.handle hostname).
Proof.
  intros rs. unfold Smtp.handle. do 2 em_step. subst. intros s o s' Hr.
  destruct (smtp_loop_post hostname rs _ _ _ _ Hr) as (w & Hw & Ho & n & Hn & Ht).
  exists w. cbn [Smtp.n_out Smtp.n_in] in Ho, Hn. split; [done|]. split; [zlens|]. by rewrite Hn.
Qed.

(** ** Bounds *)

Lemma ssh_read_total rs buf : returns (Ssh.read_banner rs buf).
Proof.
  revert buf. induction rs as [|[[|b c]|] rs IH]; intros buf; cbn [Ssh.read_banner]; try done. destruct (_ || _); [done|apply IH].
Qed.
Lemma http_read_total rs buf : returns (Http.read_request rs buf).
Proof.
  revert buf. induction rs as [|[[|b c]|] rs IH]; intros buf; cbn [Http.read_request]; try done. destruct (_ || _); [done|apply IH].
Qed.
Lemma read_one_total rs : returns (read_one rs).
Proof. by destruct rs as [|[c|] rs]. Qed.

Lemma smtp_lines_total hostname fuel : ∀ st,
  (length (Smtp.buf st) ≤ fuel)%nat → em_total (Smtp.take_lines hostname fuel st).
Proof.
  induction fuel as [|fuel IH]; intros st Hf; cbn [Smtp.take_lines];
    (destruct (find_crlf _) as [pos|] eqn:Hp; [|apply em_total_ret]); apply find_crlf_lt in Hp; [lia|].
  assert (length (drop (pos + 2) (Smtp.buf st)) ≤ fuel)%nat as Hl by (rewrite length_drop; lia).
  destruct (Smtp.in_data st).
  - case_bool_decide; [|by apply IH]. do 2 (apply em_total_bind; [apply em_total_io|intros []]). by apply IH.
  - destruct (Smtp.reply_for _ _) as [reply close]. apply em_total_bind; [apply em_total_io|intros []].
    cbv zeta. destruct (close || _); [apply em_total_ret|by apply IH].
Qed.

Lemma smtp_loop_total hostname rs : ∀ st, em_total (Smtp.read_loop hostname rs st).
Proof.
  assert (∀ st, em_total (Smtp.finish st)) as Hfin.
  { intros st. apply em_total_bind; [apply em_total_io|intros; apply em_total_ret]. }
  induction rs as [|[[|b c]|] rs IH]; intros st; cbn [Smtp.read_loop]; try done. cbv zeta.
  destruct (_ <? _); [apply Hfin|]. apply em_total_bind; [by apply smtp_lines_total|]. intros [[] st1]; [apply Hfin|apply IH].
Qed.

(** An emulator that never panics, and keeps accounts. *)
Definition sound (h : list Read → EM EmulatorOutcome) : Prop := accounted h ∧ ∀ rs, em_total (h rs).

Ltac em_total :=
  repeat first [apply em_total_ret | apply em_total_io | apply em_total_bind; [|intros]];
  try (apply em_total_lift; first [apply ssh_read_total | apply http_read_total | apply read_one_total]).

Lemma smtp_sound hostname : sound (Smtp.handle hostname).
Proof.
  split; [apply smtp_accounted|]. intros rs. unfold Smtp.handle.
  do 2 (apply em_total_bind; [apply em_total_io|intros []]). apply smtp_loop_total.
Qed.
Lemma ssh_sound version : sound (Ssh.handle version).
Proof. split; [apply ssh_accounted|]. intros rs. unfold Ssh.handle. em_total. Qed.
Lemma http_sound server : sound (Http.handle server).
Proof. split; [apply http_accounted|]. intros rs. unfold Http.handle. em_total. Qed.
Lemma mysql_sound version : sound (Mysql.handle version).
Proof. split; [apply mysql_accounted|]. intros rs. unfold Mysql.handle. em_total. Qed.
Lemma postgres_sound : sound Postgres_.handle.
Proof. split; [apply postgres_accounted|]. intros rs. unfold Postgres_.handle. em_total. Qed.
Lemma generic_sound source meta : sound (se_handle (generic source) meta).
Proof.
  split; [|intros rs; cbn [se_handle generic]; em_total]. intros rs. cbn [se_handle generic].
  repeat em_step. subst. cbn [bytes_out bytes_in]. split; [zlens|apply taken_none].
Qed.

(** What one session of SMTP, SSH, HTTP, MySQL, PostgreSQL or a banner reads:
    the cap and at most one more chunk. *)
Definition chunks_within (n : Z) (rs : list Read) : Prop := Forall (λ r, ∀ c, r = Some c → zlen c ≤ n) rs.

Definition reads_within (n : Z) (m : EM EmulatorOutcome) : Prop := em_post m (λ o _, bytes_in o ≤ n).

Lemma ssh_read_bound rs : ∀ buf out,
  chunks_within 1024 rs → zlen buf < Ssh.MAX_BANNER → Ssh.read_banner rs buf = Ret out →
  zlen out < Ssh.MAX_BANNER + 1024.
Proof.
  induction rs as [|[[|b c]|] rs IH]; intros buf out Hc Hb; cbn [Ssh.read_banner]; [| |apply Forall_cons in Hc as [Hx Hc]|done].
  1-2: intros [= <-]; unfold Ssh.MAX_BANNER in *; lia.
  specialize (Hx _ eq_refl). destruct (_ || _) eqn:Hor; [intros [= <-]; zlens|].
  apply IH; [done|]. apply orb_false_iff in Hor as [_ Hor]. by apply Z.leb_gt in Hor.
Qed.
Lemma http_read_bound rs : ∀ buf out,
  chunks_within 1024 rs → zlen buf < Http.MAX_REQUEST → Http.read_request rs buf = Ret out →
  zlen out < Http.MAX_REQUEST + 1024.
Proof.
  induction rs as [|[[|b c]|] rs IH]; intros buf out Hc Hb; cbn [Http.read_request]; [| |apply Forall_cons in Hc as [Hx Hc]|done].
  1-2: intros [= <-]; unfold Http.MAX_REQUEST in *; lia.
  specialize (Hx _ eq_refl). destruct (_ || _) eqn:Hor; [intros [= <-]; zlens|].
  apply IH; [done|]. apply orb_false_iff in Hor as [_ Hor]. by apply Z.leb_gt in Hor.
Qed.

Lemma smtp_loop_bound hostname rs : ∀ st,
  chunks_within 1024 rs → Smtp.n_in st ≤ Smtp.MAX_BYTES →
  reads_within (Smtp.MAX_BYTES + 1024) (Smtp.read_loop hostname rs st).
Proof.
  assert (∀ st n, Smtp.n_in st ≤ n → reads_within n (Smtp.finish st)) as Hfin.
  { intros st n Hn. unfold reads_within, Smtp.finish. do 2 em_step. done. }
  induction rs as [|[[|b c]|] rs IH]; intros st Hc Hn; cbn [Smtp.read_loop]; [| |apply Forall_cons in Hc as [Hx Hc]|by intros s a s'].
  1-2: apply Hfin; unfold Smtp.MAX_BYTES in *; lia.
  specialize (Hx _ eq_refl). cbv zeta. cbn [Smtp.n_in]. destruct (Z.ltb_spec Smtp.MAX_BYTES (Smtp.n_in st + zlen (b :: c))).
  { apply Hfin. cbn [Smtp.n_in]. lia. }
  eapply em_post_bind; [apply smtp_lines_post|]. intros [[] st1] w [_ Hi]; cbn [snd Smtp.n_in] in Hi.
  - apply Hfin. unfold Smtp.MAX_BYTES in *. lia.
  - apply IH; [done|lia].
Qed.

Definition held (port : Z) (h : list Read → EM EmulatorOutcome) : Prop :=
  accounted h ∧
  (port ≠ 6379 → (∀ rs, em_total (h rs)) ∧ ∀ rs, chunks_within 1024 rs → reads_within 17408 (h rs)).

Lemma held_sound port h :
  sound h → (∀ rs, chunks_within 1024 rs → reads_within 17408 (h rs)) → held port h.
Proof. by intros [Ha Ht] Hr. Qed.

Lemma ssh_held port version : held port (Ssh.handle version).
Proof.
  apply held_sound; [apply ssh_sound|]. intros rs Hc. unfold reads_within, Ssh.handle. repeat em_step.
  destruct_and?; simplify_eq. cbn [bytes_in].
  match goal with H : Ssh.read_banner _ _ = _ |- _ => apply ssh_read_bound in H; [|done|done] end.
  unfold Ssh.MAX_BANNER in *. lia.
Qed.
Lemma http_held port server : held port (Http.handle server).
Proof.
  apply held_sound; [apply http_sound|]. intros rs Hc. unfold reads_within, Http.handle. repeat em_step.
  destruct_and?; simplify_eq. cbn [bytes_in].
  match goal with H : Http.read_request _ _ = _ |- _ => apply http_read_bound in H; [|done|done] end.
  unfold Http.MAX_REQUEST in *. lia.
Qed.
Lemma smtp_held port hostname : held port (Smtp.handle hostname).
Proof.
  apply held_sound; [apply smtp_sound|]. intros rs Hc. unfold reads_within, Smtp.handle. do 2 em_step.
  eapply em_post_weaken; [by apply smtp_loop_bound|]. done.
Qed.

Lemma read_one_bound rs chunk : chunks_within 1024 rs → read_one rs = Ret chunk → zlen chunk ≤ 1024.
Proof.
  destruct rs as [|[c|] rs]; [by intros _ [= <-]| |done]. intros [Hx _]%Forall_cons [= ->]. by apply Hx.
Qed.
Lemma mysql_held port version : held port (Mysql.handle version).
Proof.
  apply held_sound; [apply mysql_sound|]. intros rs Hc. unfold reads_within, Mysql.handle. repeat em_step.
  destruct_and?; simplify_eq. cbn [bytes_in].
  match goal with H : read_one _ = _ |- _ => apply read_one_bound in H; [lia|done] end.
Qed.
Lemma postgres_held port : held port Postgres_.handle.
Proof.
  apply held_sound; [apply postgres_sound|]. intros rs Hc. unfold reads_within, Postgres_.handle. repeat em_step.
  destruct_and?; simplify_eq. cbn [bytes_in].
  match goal with H : read_one _ = _ |- _ => apply read_one_bound in H; [lia|done] end.
Qed.

Lemma registered_held source meta :
  map_Forall (λ port e, held port (se_handle e meta)) (by_port (default_registry source)).
Proof.
  unfold default_registry, register, registry_new. cbn [by_port].
  repeat apply map_Forall_insert_2; [..|apply map_Forall_empty]; cbn [se_handle redis postgres mysql http smtp ssh].
  - split; [apply redis_accounted|done].
  - apply postgres_held.
  - apply mysql_held.
  - apply http_held.
  - apply http_held.
  - apply smtp_held.
  - apply smtp_held.
  - apply ssh_held.
Qed.

Lemma sessions_held source meta :
  let port := sa_port (dm_local meta) in
  held port (se_handle (for_port (default_registry source) port) meta).
Proof.
  intros port. unfold for_port.
  destruct (by_port (default_registry source) !! port) as [e|] eqn:He; cbn [default from_option].
  - exact (registered_held source meta port e He).
  - apply held_sound; [apply generic_sound|]. intros rs _. unfold reads_within.
    cbn [se_handle generic default_ default_registry register registry_new].
    repeat em_step. cbn [bytes_in]. lia.
Qed.

(** What the deception engine records of a session is what happened.
    Whatever banners are loaded, on every port of the default registry but
    that of Redis, and whatever the client sends and whichever write fails,
    the emulator ends its session without a panic; a completed session reports
    exactly the number of bytes written to the client and the number of bytes
    of the first reads; and with reads of 1024 bytes at most no session reads
    more than 17 KiB. On the port of Redis the same accounts hold. *)
Theorem sessions_accounted source meta :
  let port := sa_port (dm_local meta) in
  let h := se_handle (for_port (default_registry source) port) meta in
  accounted h ∧
  (port ≠ 6379 → (∀ rs, em_total (h rs)) ∧ ∀ rs, chunks_within 1024 rs → reads_within 17408 (h rs)).
Proof. apply sessions_held. Qed.

(** ** Framing of the binary protocols *)

(** The name-lists of a KEXINIT: [n] times a length and that many bytes. *)
Fixpoint read_name_lists (n : nat) (l : list Z) : option (list (list Z) * list Z) :=
  match n with
  | O => Some ([], l)
  | S n =>
      let len := Z.to_nat (be_value (take 4 l)) in
      let rest := drop 4 l in
      if (length l <? 4 + len)%nat then None
      else '(ls, r) ← read_name_lists n (drop len rest); Some (take len rest :: ls, r)
  end.

(** The packets of the binary protocols are framed as their receivers expect:
    the SSH packet has the length it announces, with at least four bytes of
    padding, and its payload is a KEXINIT with the ten name-lists; the MySQL handshake announces the length of its payload,
    for every version string that leaves it below 16 MiB, and the error too;
    the PostgreSQL error announces its own length without the type byte. *)
Theorem packets_framed :
  (let p := Ssh.kexinit_packet in
   let n := be_value (take 4 p) in
   let pad := nth 4 p 0 in
   let payload := take (Z.to_nat (n - 1 - pad)) (drop 5 p) in
   zlen p = 4 + n ∧ 4 ≤ pad ∧ zlen payload = n - 1 - pad ∧ head payload = Some 20 ∧
   read_name_lists 10 (drop 17 payload) = Some (str_bytes <$> Ssh.name_lists, [0; 0; 0; 0; 0])) ∧
  (∀ version, zlen (Mysql.handshake_payload version) < 2 ^ 24 →
     be_value (reverse (take 3 (Mysql.handshake_packet version))) = zlen (Mysql.handshake_packet version) - 4) ∧
  be_value (reverse (take 3 Mysql.auth_error_packet)) = zlen Mysql.auth_error_packet - 4 ∧
  be_value (take 4 (drop 1 Postgres_.error_response)) = zlen Postgres_.error_response - 1.
Proof.
  split; [|split; [|split; vm_refl]].
  - cbv zeta. split_and!; vm_refl || (vm_compute; discriminate).
  - intros version Hv. unfold Mysql.handshake_packet, Mysql.framed.
    rewrite (proj2 (Z.leb_le _ _)) by (unfold u32_max; lia). set (n := zlen (Mysql.handshake_payload version)) in *.
    assert (0 ≤ n) as Hn by apply zlen_nonneg. unfold Mysql.le_bytes.
    rewrite take_app_le by (rewrite length_take, length_reverse, length_be_bytes; lia).
    rewrite take_take. change (Nat.min 3 3) with 3%nat.
    assert (reverse (take 3 (reverse (be_bytes 4 n))) = drop 1 (be_bytes 4 n)) as ->.
    { rewrite take_reverse, reverse_involutive, length_be_bytes. done. }
    rewrite !zlen_app. change (zlen [0]) with 1. fold n.
    assert (zlen (take 3 (reverse (be_bytes 4 n))) = 3) as ->.
    { unfold zlen. rewrite length_take, length_reverse, length_be_bytes. done. }
    change (drop 1 (be_bytes 4 n)) with (be_bytes 3 n). rewrite be_value_be_bytes_small by (split; [done|exact Hv]). lia.
Qed.

(** The padding of the KEXINIT makes its announced length a multiple of eight,
    not, as RFC 4253 asks, the length of the packet with the four bytes of that
    length: the packet has 196 bytes, which a client refuses. *)
Theorem ssh_kexinit_misaligned :
  zlen Ssh.kexinit_packet = 196 ∧ 196 mod 8 = 4 ∧ be_value (take 4 Ssh.kexinit_packet) mod 8 = 0.
Proof. split_and!; vm_refl. Qed.

(** ** Examples *)

Definition ex_smtp : list (list Z) :=
  str_bytes <$> ["EHLO probe"; "DATA"; "QUIT"; "."; "noop"; "quit"; "NOOP"].

Lemma smtp_converses_witness :
  let stream := ex_smtp ≫= SmtpSpec.sent_line in
  let chunks := [take 11 stream; take 3 (drop 11 stream); drop 14 stream] in
  let sent := Smtp.greeting "mail.example.com" ++ SmtpSpec.converse "mail.example.com" ex_smtp false 0 in
  ∃ n, Smtp.handle "mail.example.com" (Some <$> chunks) (mk_Out [] [])
       = (Ret {| bytes_in := n; bytes_out := zlen sent; note := Some "EHLO probe" |}, mk_Out [] sent) ∧
       (SmtpSpec.mode "mail.example.com" ex_smtp false 0 ≠ None → n = zlen (concat chunks)).
Proof.
  intros stream chunks. apply (SmtpSpec.smtp_converses "mail.example.com" ex_smtp chunks).
  - repeat constructor.
  - repeat constructor; vm_compute; discriminate.
  - vm_refl.
  - vm_compute. discriminate.
Defined.
