(* ===== verification/Tproxy.v ===== *)
(** * The interactive tier: accept loops and session records

    Model of [crates/blackwall-deception/src/transport/tproxy.rs], of
    [limits.rs] and of the part of [src/bin/blackwalld/src/main.rs] that writes
    the completed sessions to the store. The engine has one accept loop per
    listener (IPv4 and, when it could be bound, IPv6), each with its own
    semaphore of permits; the gauge of sessions in flight and the channel of
    records are shared. A session ends when its emulator does, with whatever
    the client sent and whichever write failed, or when it times out; the end
    of its task, a panic included, drops its permit and its guard.

    Binding the transparent sockets is system calls. *)
From stdpp Require Import prelude gmap strings sorting.
From S2P Require Import Prelude Net Float Bytes Core NetText Text Nfqueue Emulators Banner EmulatorSpec.
From S2P Require Import Flow Executor Store.

Open Scope Z_scope.

Record EngineLimits := { max_concurrent : nat; session_timeout : Z }.
Definition limits_default : EngineLimits := {| max_concurrent := Z.to_nat 1024; session_timeout := 60 |}.

Record SessionRecord := { sn_meta : DeceptionMeta; sn_emulator : string; sn_outcome : EmulatorOutcome }.

Record Live_ := { lv_listener : nat; lv_meta : DeceptionMeta }.

Record Engine := mk_Engine {
  permits : list nat;
  inflight : Z;
  live : gmap nat Live_;
  next_id : nat;
  channel : list SessionRecord;
}.

(** The listeners have just been bound. *)
Definition engine_new (limits : EngineLimits) (listeners : nat) : Engine :=
  mk_Engine (replicate listeners (max_concurrent limits)) 0 ∅ 0 [].

Inductive EngineEvent : Type :=
| Accepts (listener : nat) (meta : DeceptionMeta)
| AcceptFails (listener : nat)
| Ends (id : nat) (rs : list Read) (script : list bool)
| TimesOut (id : nat).

(** At the cap the connection is dropped. *)
Definition accept (listener : nat) (meta : DeceptionMeta) (en : Engine) : Engine :=
  match permits en !! listener with
  | Some (S p) =>
      mk_Engine (<[listener := p]> (permits en)) (inflight en + 1)
        (<[next_id en := {| lv_listener := listener; lv_meta := meta |}]> (live en))
        (S (next_id en)) (channel en)
  | _ => en
  end.

(** The permit and the guard of a session are dropped. *)
Definition release (id : nat) (en : Engine) : Engine :=
  match live en !! id with
  | Some lv =>
      mk_Engine (alter S (lv_listener lv) (permits en)) (inflight en - 1) (delete id (live en))
        (next_id en) (channel en)
  | None => en
  end.

Section engine.
Context (registry : EmulatorRegistry).

(** The task of a session: the emulator of its port, and the record when it
    completes. *)
Definition session (meta : DeceptionMeta) (rs : list Read) (script : list bool) : option SessionRecord :=
  let emulator := for_port registry (sa_port (dm_local meta)) in
  match (se_handle emulator meta rs (mk_Out script [])).1 with
  | Ret outcome => Some {| sn_meta := meta; sn_emulator := se_name emulator; sn_outcome := outcome |}
  | Fail_ _ | Panic => None
  end.

Definition send (r : option SessionRecord) (en : Engine) : Engine :=
  match r with
  | Some r => mk_Engine (permits en) (inflight en) (live en) (next_id en) (channel en ++ [r])
  | None => en
  end.

Definition engine_step (en : Engine) (ev : EngineEvent) : Engine :=
  match ev with
  | Accepts listener meta => accept listener meta en
  | AcceptFails _ => en
  | Ends id rs script =>
      match live en !! id with
      | Some lv => release id (send (session (lv_meta lv) rs script) en)
      | None => en
      end
  | TimesOut id => release id en
  end.

Definition serve (evs : list EngineEvent) (en : Engine) : Engine := foldl engine_step en evs.
End engine.

(** ** The records in the store *)

Section drain.
Context `{Postgres}.

Definition i64_clamp (n : Z) : Z := Z.min n i64_max.

Definition session_row (r : SessionRecord) : SessionRow := {|
  sr_local_addr := sa_ip (dm_local (sn_meta r)); sr_local_port := sa_port (dm_local (sn_meta r));
  sr_peer_addr := sa_ip (dm_peer (sn_meta r)); sr_proto := proto_string (dm_proto (sn_meta r));
  sr_emulator := sn_emulator r; sr_bytes_in := i64_clamp (bytes_in (sn_outcome r));
  sr_bytes_out := i64_clamp (bytes_out (sn_outcome r)); sr_note := note (sn_outcome r) |}.

(** The loop over the channel; a failed insert is logged. *)
Definition drain_sessions (rs : list SessionRecord) : M Store unit :=
  for_each rs (λ r, _res ← record_session (session_row r); mret ()).
End drain.

(** ** The counters *)

Definition on_listener (l : nat) (en : Engine) : gmap nat Live_ :=
  filter (λ kv, lv_listener kv.2 = l) (live en).

(** The permits of a listener and its sessions add up to the limit; the gauge
    is the number of sessions; identifiers are fresh; and every session came in
    by a listener. *)
Definition engine_ok (limits : EngineLimits) (n : nat) (en : Engine) : Prop :=
  length (permits en) = n ∧
  (∀ l p, permits en !! l = Some p → (p + size (on_listener l en) = max_concurrent limits)%nat) ∧
  inflight en = Z.of_nat (size (live en)) ∧
  map_Forall (λ id lv, (id < next_id en)%nat ∧ (lv_listener lv < n)%nat) (live en).

Lemma engine_new_ok limits n : engine_ok limits n (engine_new limits n).
Proof.
  unfold engine_ok, engine_new, on_listener. cbn. rewrite length_replicate, map_size_empty.
  split_and!; [done| |done|apply map_Forall_empty]. intros l p [-> _]%lookup_replicate.
  rewrite map_filter_empty, map_size_empty. lia.
Qed.

Lemma accept_ok limits n l meta en : engine_ok limits n en → engine_ok limits n (accept l meta en).
Proof.
  intros (Hl & Hp & Hi & Hf). unfold accept. destruct (permits en !! l) as [[|p]|] eqn:Hpl; [done| |done].
  assert (live en !! next_id en = None) as Hn.
  { destruct (live en !! next_id en) as [lv|] eqn:Hx; [|done]. apply Hf in Hx. lia. }
  assert (l < n)%nat as Hln by (rewrite <-Hl; by apply lookup_lt_Some in Hpl).
  unfold engine_ok, on_listener. cbn [permits live inflight next_id]. split_and!.
  - by rewrite length_insert.
  - intros l' p' Hp'. destruct (decide (l' = l)) as [->|Hne].
    + rewrite list_lookup_insert_eq in Hp' by lia. injection Hp' as <-.
      rewrite map_filter_insert_True by done. rewrite map_size_insert_None by (by apply map_lookup_filter_None; left).
      specialize (Hp l (S p) Hpl). unfold on_listener in Hp. lia.
    + rewrite list_lookup_insert_ne in Hp' by done. rewrite map_filter_insert_not' by (try (intros y Hy; by rewrite Hn in Hy); cbn; congruence).
      by apply Hp.
  - rewrite map_size_insert_None by done. lia.
  - apply map_Forall_insert_2; [cbn; lia|]. eapply map_Forall_impl; [exact Hf|]. intros i lv [? ?]. lia.
Qed.

Lemma release_ok limits n id en : engine_ok limits n en → engine_ok limits n (release id en).
Proof.
  intros (Hl & Hp & Hi & Hf). unfold release. destruct (live en !! id) as [lv|] eqn:Hlv; [|done].
  destruct (Hf _ _ Hlv) as [_ Hln]. unfold engine_ok, on_listener. cbn [permits live inflight next_id]. split_and!.
  - by rewrite length_alter.
  - intros l p Hpl. rewrite map_filter_delete. destruct (decide (l = lv_listener lv)) as [->|Hne].
    + rewrite list_lookup_alter_eq in Hpl. destruct (permits en !! lv_listener lv) as [q|] eqn:Hq; [|done].
      injection Hpl as <-. specialize (Hp _ _ Hq). unfold on_listener in Hp.
      assert (filter (λ kv, lv_listener kv.2 = lv_listener lv) (live en) !! id = Some lv) as Hid
        by (by apply map_lookup_filter_Some).
      rewrite map_size_delete, Hid. pose proof (map_size_ne_0_lookup_2 _ id (mk_is_Some _ _ Hid)). lia.
    + rewrite list_lookup_alter_ne in Hpl by done. rewrite delete_id; [by apply Hp|].
      apply map_lookup_filter_None. right. intros x Hx. rewrite Hlv in Hx. injection Hx as <-. cbn. naive_solver.
  - rewrite map_size_delete, Hlv. pose proof (map_size_ne_0_lookup_2 _ id (mk_is_Some _ _ Hlv)). lia.
  - by apply map_Forall_delete.
Qed.

Section counters.
Context (registry : EmulatorRegistry).

Lemma send_ok limits n r en : engine_ok limits n en → engine_ok limits n (send r en).
Proof. by destruct r. Qed.

Lemma engine_step_ok limits n en ev : engine_ok limits n en → engine_ok limits n (engine_step registry en ev).
Proof.
  intros Hok. destruct ev as [l meta|l|id rs script|id]; cbn [engine_step]; [by apply accept_ok|done| |by apply release_ok].
  destruct (live en !! id); [|done]. by apply release_ok, send_ok.
Qed.

Lemma serve_ok limits n evs en : engine_ok limits n en → engine_ok limits n (serve registry evs en).
Proof.
  unfold serve. revert en. induction evs as [|ev evs IH]; intros en Hok; [done|]. cbn. by apply IH, engine_step_ok.
Qed.

(** A record on the channel is of a session whose emulator has completed. *)
Definition record_true (r : SessionRecord) : Prop :=
  let emulator := for_port registry (sa_port (dm_local (sn_meta r))) in
  sn_emulator r = se_name emulator ∧
  ∃ rs script out, se_handle emulator (sn_meta r) rs (mk_Out script []) = (Ret (sn_outcome r), out).

Lemma release_channel id en : channel (release id en) = channel en.
Proof. unfold release. by destruct (live en !! id). Qed.

Lemma serve_records evs : ∀ en,
  Forall record_true (channel en) → Forall record_true (channel (serve registry evs en)).
Proof.
  unfold serve. induction evs as [|ev evs IH]; intros en Hr; [done|]. cbn. apply IH.
  destruct ev as [l meta|l|id rs script|id]; cbn [engine_step]; [|done| |by rewrite release_channel].
  { unfold accept. by destruct (permits en !! l) as [[|p]|]. }
  destruct (live en !! id) as [lv|]; [|done]. rewrite release_channel. unfold session.
  destruct (se_handle _ _ _ _) as [[o|e|] out] eqn:Hh; cbn [fst send channel]; [|done..].
  apply Forall_app. split; [done|]. apply Forall_singleton. split; [done|]. by exists rs, script, out.
Qed.
End counters.

Lemma size_live_bound limits n en :
  engine_ok limits n en → (size (live en) ≤ n * max_concurrent limits)%nat.
Proof.
  intros (Hl & Hp & _ & Hf).
  assert (∀ k (m : gmap nat Live_), map_Forall (λ _ lv, (lv_listener lv < k)%nat) m →
    (∀ l, (l < k)%nat → (size (filter (λ kv : nat * Live_, lv_listener kv.2 = l) m) ≤ max_concurrent limits)%nat) →
    (size m ≤ k * max_concurrent limits)%nat) as Hx.
  { induction k as [|k IH]; intros m Hm Hs.
    - destruct (decide (m = ∅)) as [->|Hne]; [by rewrite map_size_empty|].
      apply map_choose in Hne as (i & x & Hi). apply Hm in Hi. lia.
    - rewrite <-(map_filter_union_complement (λ kv : nat * Live_, lv_listener kv.2 = k) m).
      rewrite map_size_disj_union by apply map_disjoint_filter_complement.
      pose proof (Hs k ltac:(lia)).
      assert (size (filter (λ kv : nat * Live_, ¬ lv_listener kv.2 = k) m) ≤ k * max_concurrent limits)%nat; [|cbn; lia].
      apply IH.
      + intros i lv [Hi Hne]%map_lookup_filter_Some. apply Hm in Hi. cbn in *. lia.
      + intros l Hlk. etransitivity; [|apply (Hs l); lia]. apply map_subseteq_size.
        apply map_filter_subseteq_mono, map_filter_subseteq. }
  apply Hx.
  - intros i lv Hi. by destruct (Hf _ _ Hi).
  - intros l Hln. destruct (lookup_lt_is_Some_2 (permits en) l ltac:(lia)) as [p Hpl].
    specialize (Hp l p Hpl). unfold on_listener in Hp. lia.
Qed.

(** C26: the engine bounds its sessions and leaks none. Whatever connections
    arrive on its listeners, and however their sessions end, by completion,
    error, panic or timeout: the permits of a listener and its live sessions
    always add up to the configured limit, so a connection is dropped exactly
    when its listener has that many sessions; the gauge is the number of live
    sessions, at most the limit times the number of listeners; and when no
    session is left all permits are back. *)
Theorem engine_bounded registry limits n evs :
  let en := serve registry evs (engine_new limits n) in
  (∀ l p, permits en !! l = Some p → (p + size (on_listener l en) = max_concurrent limits)%nat) ∧
  (∀ l meta, (l < n)%nat →
     (accept l meta en = en ↔ size (on_listener l en) = max_concurrent limits)) ∧
  inflight en = Z.of_nat (size (live en)) ∧
  (size (live en) ≤ n * max_concurrent limits)%nat ∧
  (live en = ∅ → permits en = replicate n (max_concurrent limits)).
Proof.
  intros en. pose proof (serve_ok registry limits n evs _ (engine_new_ok limits n)) as Hok. fold en in Hok.
  pose proof (size_live_bound _ _ _ Hok) as Hb. destruct Hok as (Hl & Hp & Hi & Hf).
  split_and!; [done| |done|done|].
  - intros l meta Hln. destruct (lookup_lt_is_Some_2 (permits en) l ltac:(lia)) as [p Hpl].
    pose proof (Hp l p Hpl). unfold accept. rewrite Hpl. destruct p as [|p]; [split; [lia|done]|].
    split; [|lia]. intros He. apply (f_equal next_id) in He. cbn in He. lia.
  - intros He. apply list_eq. intros l. destruct (permits en !! l) as [p|] eqn:Hpl.
    + pose proof (Hp l p Hpl) as Hq. unfold on_listener in Hq. rewrite He, map_filter_empty, map_size_empty in Hq.
      symmetry. apply lookup_replicate. apply lookup_lt_Some in Hpl. split; lia.
    + symmetry. apply lookup_ge_None. apply lookup_ge_None in Hpl. rewrite length_replicate. lia.
Qed.

(** ** Records and rows *)

Definition meta_ok (meta : DeceptionMeta) : Prop := 0 ≤ sa_port (dm_local meta) ≤ 65535.
Definition event_ok (ev : EngineEvent) : Prop := match ev with Accepts _ meta => meta_ok meta | _ => True end.

Lemma engine_metas registry evs : ∀ en,
  Forall event_ok evs → map_Forall (λ _ lv, meta_ok (lv_meta lv)) (live en) →
  Forall (λ r, meta_ok (sn_meta r)) (channel en) →
  Forall (λ r, meta_ok (sn_meta r)) (channel (serve registry evs en)).
Proof.
  unfold serve. induction evs as [|ev evs IH]; intros en Hev Hl Hr; [done|]. apply Forall_cons in Hev as [He Hev].
  assert (∀ id en', live en' = live en → map_Forall (λ _ lv, meta_ok (lv_meta lv)) (live (release id en'))) as Hrel.
  { intros id en' Hen. unfold release. rewrite Hen. destruct (live en !! id); [|by rewrite Hen].
    cbn. by apply map_Forall_delete. }
  cbn. apply IH; [done|..]; destruct ev as [l meta|l|id rs script|id]; cbn [engine_step]; try done; try by apply Hrel.
  - unfold accept. destruct (permits en !! l) as [[|p]|]; [done| |done]. by apply map_Forall_insert_2.
  - destruct (live en !! id); [|done]. apply Hrel. by destruct (session _ _ _ _).
  - unfold accept. by destruct (permits en !! l) as [[|p]|].
  - destruct (live en !! id) as [lv|] eqn:Hlv; [|done]. rewrite release_channel. unfold session.
    destruct (se_handle _ _ _ _) as [[o|e|] out]; cbn [fst send channel]; [|done..].
    apply Forall_app. split; [done|]. apply Forall_singleton. exact (Hl _ _ Hlv).
  - by rewrite release_channel.
Qed.

Lemma registry_names source port : text_ok (se_name (for_port (default_registry source) port)) = true.
Proof.
  unfold for_port. destruct (by_port (default_registry source) !! port) as [e|] eqn:He; [|vm_refl].
  assert (map_Forall (λ _ e, text_ok (se_name e) = true) (by_port (default_registry source))) as Hf; [|by apply Hf in He].
  unfold default_registry, register, registry_new. cbn [by_port].
  repeat apply map_Forall_insert_2; [vm_refl..|apply map_Forall_empty].
Qed.

Section rows.
Context `{Postgres}.

Definition kept_row (row : SessionRow) : SessionRow := {|
  sr_local_addr := sr_local_addr row; sr_local_port := sr_local_port row; sr_peer_addr := sr_peer_addr row;
  sr_proto := sr_proto row; sr_emulator := sr_emulator row; sr_bytes_in := sr_bytes_in row;
  sr_bytes_out := sr_bytes_out row; sr_note := strip_nul <$> sr_note row |}.

Lemma record_session_appends r st :
  st_script st = [] → meta_ok (sn_meta r) → text_ok (sn_emulator r) = true →
  let st' := exec (record_session (session_row r)) st in
  st_script st' = [] ∧ db_sessions (st_db st') = db_sessions (st_db st) ++ [kept_row (session_row r)].
Proof.
  intros Hs Hp He. unfold record_session, execute, statement, exec. rewrite Hs. cbn [head default from_option tail].
  unfold meta_ok in Hp. cbn [session_row sr_local_port sr_proto sr_emulator sr_note].
  rewrite !(proj2 (Z.leb_le _ _)), He by lia.
  assert (from_option text_ok true (strip_nul <$> note (sn_outcome r)) = true) as ->.
  { destruct (note (sn_outcome r)) as [n|]; [|done]. cbn. unfold text_ok. apply bool_decide_eq_true.
    rewrite strip_nul_bytes. apply Forall_forall. intros b [? _]%list_elem_of_filter. done. }
  rewrite bool_decide_true by (destruct (dm_proto (sn_meta r)); set_solver). done.
Qed.

Lemma drain_sessions_appends rs : ∀ st,
  st_script st = [] → Forall (λ r, meta_ok (sn_meta r) ∧ text_ok (sn_emulator r) = true) rs →
  db_sessions (st_db (exec (drain_sessions rs) st))
  = db_sessions (st_db st) ++ (kept_row ∘ session_row <$> rs).
Proof.
  unfold drain_sessions. induction rs as [|r rs IH]; intros st Hs Hr; [by rewrite app_nil_r|].
  apply Forall_cons in Hr as [[Hm He] Hr]. rewrite exec_for_each_cons, exec_bind.
  destruct (record_session_appends r st Hs Hm He) as [Hs' Hd].
  change (exec (mret ()) ?x) with x. rewrite IH by done. rewrite Hd, <-app_assoc. done.
Qed.

(** What a row of the sessions table says of a session. *)
Definition row_true (source : BannerSource) (row : SessionRow) : Prop :=
  ∃ meta rs script o out,
    let emulator := for_port (default_registry source) (sa_port (dm_local meta)) in
    se_handle emulator meta rs (mk_Out script []) = (Ret o, out) ∧
    sr_local_addr row = sa_ip (dm_local meta) ∧ sr_local_port row = sa_port (dm_local meta) ∧
    sr_peer_addr row = sa_ip (dm_peer meta) ∧ sr_emulator row = se_name emulator ∧
    sr_bytes_out row = i64_clamp (zlen (out_sent out)) ∧
    (∃ k, sr_bytes_in row = i64_clamp (zlen (input (take k rs)))) ∧
    sr_note row = strip_nul <$> note o.

End rows.

(** ** Examples *)

Definition tp_meta (port : Z) : DeceptionMeta := {|
  dm_local := socket_addr_new (ipv4 203 0 113 7) port; dm_peer := socket_addr_new (ipv4 198 51 100 1) 40000;
  dm_proto := Tcp |}.
Definition tp_source : BannerSource := Fixed {| banners := ∅; fallback := crlf |}.

(** The limit holds for each listener, not for the engine: with a limit of one
    session, an engine that listens on IPv4 and IPv6 has two in flight. *)
Theorem engine_limit_per_listener :
  inflight (serve (default_registry tp_source) [Accepts 0 (tp_meta 22); Accepts 1 (tp_meta 80)]
              (engine_new {| max_concurrent := 1; session_timeout := 60 |} 2)) = 2.
Proof. vm_refl. Qed.

Definition tp_events : list EngineEvent :=
  [Accepts 0 (tp_meta 22); Accepts 0 (tp_meta 4444); Accepts 0 (tp_meta 80);
   Ends 0 [Some (str_bytes "SSH-2.0-probe" ++ crlf)] []; Ends 1 [] [false]; TimesOut 2].

